(* ===== verification/_CoqProject ===== *)
-Q . S2P
Prelude.v
Buffers.v
Hkdf.v
Curve.v
Sample.v
Vpool.v
Protobuf.v
ProtobufTypes.v
Messages.v
Ratchet.v
SessionState.v
SessionStorage.v
RatchetSession.v
SessionRecord.v
SenderKeys.v
Protocol.v
PreKeys.v
Store.v
Scenario.v
SessionBuilder.v
SessionCipher.v
StateMachine.v
Groups.v
DoubleRatchet.v
Sessions.v
Fingerprint.v
GroupSessions.v
Handshake.v
Conversation.v
TurnTaking.v
Contracts.v
RoundTrips.v
MachineInt.v
FieldElement.v
FieldProofs.v
FieldEncoding.v
Scalar.v
ScalarProofs.v
Sha512.v
GroupElement.v
BaseTable.v
ScalarMult.v
Signatures.v
Donna.v
FastArith.v
Primality.v
Edwards.v
Coordinates.v
Montgomery.v
Ed25519.v
GroupProofs.v
TableProofs.v
ScalarMultProofs.v
SlideProofs.v
PointEncoding.v
SignatureProofs.v
DonnaProofs.v
LadderProofs.v
DonnaEncoding.v
KeyAgreement.v
Implementation.v
CurveTheorems.v
Memory.v
MemoryProofs.v
Ownership.v
MemorySafety.v
LinkedLists.v
ProtobufScalars.v
Descriptors.v
ProtobufPack.v
ProtobufPackProofs.v
Contexts.v
Threads.v
Staging.v
