(* ===== verification/Prelude.v ===== *)
(** * libsignal-protocol-c: a verified model

    The library (src/SignalProtocolC/src/, file names below are relative to it)
    implements the Signal protocol: sessions between two devices are set up
    from published pre keys (X3DH), every message is encrypted under a key of
    its own from a double ratchet, groups use sender keys, and users compare
    fingerprints.  The application supplies random numbers, HMAC, SHA-512 and
    AES through callbacks, and keeps all long-term state in its own stores,
    through callbacks as well.

    ** Parts and files

    Foundations
    - [Prelude]: octet strings, fixed-width integers, the state-and-error
      monad in which C functions are written (result, or one of the codes of
      signal_protocol.h; the state is the application's random source, an
      oracle that tells which allocations fail, and the stores), its program
      logic of pre- and postconditions, tactics and hints.
    - [Buffers]: signal_protocol.c up to line 592: buffers, lists, comparisons
      and the calls of the crypto provider.  [CryptoProvider] has the callbacks,
      [CryptoLaws] what signal_protocol.h documents of them.
    - [Hkdf]: hkdf.c.  [Vpool]: vpool.c.  [Curve]: curve.c over the class
      [Curve25519].  [Sample]: a small executable provider and curve that
      satisfy the laws, for evaluating the model and the hypotheses.
    - [Protobuf]: the runtime protobuf-c/protobuf-c.c on descriptors as data;
      [ProtobufTypes]: unpacked messages have the type of their descriptor;
      [Messages]: the descriptors and structures of *.pb-c.c and *.pb-c.h.
    - [ProtobufScalars], [ProtobufPack], [ProtobufPackProofs]: the parts of the
      runtime the generated descriptors do not need: all scalar types, packed
      fields, and the writer for all types, labels and flags, to memory and to
      buffers ([BufferLaws] is what the writer knows of a buffer).
      [Descriptors]: the generated tables of ranges and names, and the searches
      in descriptors.

    Memory, lists and threads
    - [Memory]: the counted objects of the library on a heap: signal_type_init,
      signal_type_ref and signal_type_unref of signal_protocol.c, all
      destructors, the setters of session_state.c and session_record.c that
      keep references and the constructors that take them.  [MemoryProofs],
      [Ownership], [MemorySafety]: the invariant that every count is the number
      of references, kept by every operation.
    - [Staging]: the structures that the _serialize_prepare functions of
      session_state.c and sender_key_state.c and the serialization of records
      allocate, and the functions that free them.
    - [LinkedLists]: the macros of utlist.h as pointer operations.
    - [Contexts]: the contexts of signal_protocol.c, its locking functions (the
      class [RecursiveMutex] is what signal_protocol.h asks of them) and threads
      that call the library.  [Threads]: session_cipher_encrypt step by step in
      such threads.

    Sessions
    - [Ratchet], [RatchetSession]: the two halves of ratchet.c (chains and keys;
      the three initializations).  [SessionState], [SessionStorage]:
      session_state.c and its stored form.  [SessionRecord]: session_record.c.
    - [Protocol]: protocol.c, the five kinds of messages.  [PreKeys]:
      session_pre_key.c and key_helper.c.  [Store]: the store callbacks of
      signal_protocol.c ([Stores], laws in [StoreLaws]).
    - [SessionBuilder]: session_builder.c.  [SessionCipher]: session_cipher.c.
    - [SenderKeys]: sender_key.c, sender_key_state.c, sender_key_record.c.
      [Groups]: group_session_builder.c, group_cipher.c.
    - [Fingerprint]: fingerprint.c.

    Curve25519 (curve25519/)
    - [MachineInt]: checked signed arithmetic.  [FieldElement]: ed25519/fe_*.c;
      [Scalar]: ed25519/sc_*.c; [Sha512]: ed25519/nacl_sha512/;
      [GroupElement]: ed25519/ge_*.c; [BaseTable]: base.h and base2.h;
      [ScalarMult]: ge_scalarmult_base.c and ge_double_scalarmult.c;
      [Signatures]: open.c, sign.c, additions/sign_modified.c and
      additions/curve_sigs.c; [Donna]: curve25519-donna.c.
    - [Primality], [Edwards], [Coordinates], [Montgomery], [Ed25519]: 2^255 - 19
      and the order of the base point are prime, the points of a complete
      Edwards curve are a group, the curve of the code is one, and its
      Montgomery form.
    - [FieldProofs], [FieldEncoding], [ScalarProofs], [FastArith]: arithmetic;
      [GroupProofs], [TableProofs], [ScalarMultProofs], [SlideProofs],
      [PointEncoding]: the group; [SignatureProofs]: signatures;
      [DonnaProofs], [LadderProofs], [DonnaEncoding], [KeyAgreement]: key
      agreement; [Implementation]: the code as an instance of [Curve25519],
      with its laws.

    A caller uses a component through its lemmas: [CryptoLaws], [CurveLaws] and
    [StoreLaws] are what sessions know of the provider, the curve and the
    stores, and [ProtoMessage] is what they know of the wire format.
    [CurveLaws] is not an assumption about the code: [Implementation] proves it
    of curve25519/.  It promises signatures for private keys as
    curve_generate_private_key makes them (32 octets, clamped) and messages
    whose length plus 128 is below 2^64.

    ** What the theorems show

    - Sessions ([Handshake], [Sessions], [DoubleRatchet], [StateMachine],
      [Conversation], [TurnTaking]): the handshake ends with both sides in step and the first
      message delivered; an established session decrypts messages in any order,
      once each, and exactly those whose MAC is right; refused messages leave
      the stores alone; a state has at most 5 receiver chains of at most 2000
      stored keys, whatever happens; [decryption_follows_the_ratchet] is the
      refinement of a specification of the receiving half of the double
      ratchet; [conversation_goes_on] shows that two devices that take turns
      deliver everything, across any number of ratchet turns.
    - Groups ([GroupSessions]): a distributed sender key lets the receivers read
      what the sender wrote, and nothing unsigned is read.
    - Encodings ([RoundTrips], [Protobuf], [SessionStorage]): what is written is
      read back; parsers are safe on arbitrary octets and return messages of
      the type of the descriptor.
    - Key derivation and identity ([Contracts], [Hkdf], [Fingerprint]): HKDF is
      RFC 5869 as long as its 8-bit counter does not wrap; both users compute
      the same fingerprint.
    - The wire format beyond the library's own messages ([ProtobufScalars],
      [ProtobufPackProofs], [Descriptors]): packed fields are read back and
      never overrun the array that was allocated for them; the size of a
      message, the octets written and the octets appended to any buffer agree;
      the binary searches find what a linear search finds, in every generated
      descriptor.
    - Memory ([MemorySafety]): clients that obey the rules of references never
      make the library use freed memory or free twice, exactly what they can
      reach stays, and nothing is left when they have released everything;
      [own_key_is_freed_when_set_again] shows where the setters break this for
      a client that does not hold a reference of its own.
      [Staging]: whichever allocations fail, a serialization frees nothing twice,
      and one that succeeds leaves only its buffer.
    - Lists ([LinkedLists]): the linked lists implement the lists of the model.
    - Threads ([Contexts], [Threads]): under the lock calls are atomic and never
      deadlock, so that concurrent encryptions use different message keys;
      without it two threads can use the same.
    - Curve25519 ([CurveTheorems], [Sha512]): no signed sum or product overflows
      under the documented bounds; field and scalar operations compute modulo p
      and modulo the group order; SHA-512 is FIPS 180-4; the formulas of ge_*.c
      are the group law, the two scalar multiplications are multiples in the
      group, and every entry of the tables is the multiple it should be;
      curve25519_donna is X25519 on all octets, and on points of the curve the
      multiple; curve25519_sign and curve25519_verify are XEd25519; together
      they keep [CurveLaws].

    ** How the code is modelled

    - A nullable pointer is an option, a DL_ or LL_ list a list (justified by
      [LinkedLists]), a signal_buffer its octets, a struct a record, an object updated in place is passed in
      and returned; what this leaves out, the sharing of objects by counted
      references, is the subject of [Memory], whose objects have their pointers
      and no other contents.  Every allocation asks the oracle [w_mem]; theorems about
      safety and errors hold for every oracle, theorems about delivery assume
      that allocations succeed.
    - uint8_t, uint32_t, uint64_t and size_t values are integers with explicit
      wrap-around; in curve25519/ signed operations are checked and [None] is
      overflow or another undefined behaviour.  Left shifts of negative values
      multiply, those of curve25519-donna.c into the sign bit wrap, and right shifts are arithmetic, and the target is
      little-endian, as the code assumes.
    - Loops are structural recursions where the code counts, and otherwise run
      on fuel: [hkdf_fuel] exceeds the 255 iterations the counter allows before
      it wraps; the loops that skip keys are bounded by the 2000 positions
      checked before; the scanning loop of the unpacker has the length of its
      input as fuel and consumes an octet per round, as does the one for packed
      fields; releasing an object has fuel for the depth of the objects below it;
      a binary search has the length of its table, the growth of a buffer the 64
      doublings of a size_t; the hashing loops take
      their number of rounds or blocks.  Each is shown to end before its fuel
      does.

    ** Not modelled

    Zeroing of secrets and the text given to the log callback, which have no
    result the model could observe; uthash.h, utstring.h and the
    macros of utlist.h the library does not use, and utarray.h, which is a list
    in the model; the generated init, pack, unpack and free functions, which pass
    their descriptor to the runtime; freeing of unpacked messages; reading of oneof
    fields, default values and the invocation of services in protobuf-c.c, which
    no descriptor of the library uses; getters; the bindings, the demo and
    the tests.  Threads are modelled for the calls of session_cipher_encrypt and
    for calls in general, whose bodies are any steps on the stores.  The
    application's callbacks are parameters. *)
From Stdlib Require Import String Ascii.
From stdpp Require Import base list.
From Stdlib Require Import ZArith Lia.
#[local] Open Scope Z_scope.

(** * Machine integers and bytes *)

(** A [uint8_t] buffer is the list of its octets. *)
Abbreviation bytes := (list Z).

Definition UINT32_MOD : Z := 4294967296.
Definition SIZE_MAX : Z := 18446744073709551615.
Definition u8 (z : Z) : Z := z mod 256.
Definition u32 (z : Z) : Z := z mod UINT32_MOD.
Definition size_t (z : Z) : Z := z mod (SIZE_MAX + 1).

Definition is_u8 (z : Z) : Prop := 0 <= z < 256.
Definition is_u32 (z : Z) : Prop := 0 <= z < UINT32_MOD.

(** [sizeof]/[strlen]-style length of a buffer as an integer. *)
Definition blen (b : bytes) : Z := Z.of_nat (length b).

(** The octets of a C string literal without its NUL. *)
Definition ascii_bytes (s : string) : bytes :=
  List.map (fun c => Z.of_N (N_of_ascii c)) (list_ascii_of_string s).

Lemma blen_app (a b : bytes) : blen (a ++ b) = blen a + blen b.
Proof. unfold blen. rewrite length_app. lia. Qed.
Lemma blen_nonneg (b : bytes) : 0 <= blen b.
Proof. unfold blen. lia. Qed.

(** Linear arithmetic with division by constants. *)
Ltac div_lia := Z.to_euclidean_division_equations; lia.

(** * Results of a call

    Every fallible function of the library returns an [int]; a negative value
    is an error code, any other value a success together with the out
    parameters.  [Fault] is what the C program does instead of returning. *)

Inductive fault : Type :=
| NullDeref       (** a null pointer is dereferenced *)
| OutOfBounds     (** memory beyond a buffer is read *)
| UseAfterFree    (** a freed object is used *)
| Uninitialized   (** an uninitialized pointer is used *)
| OutOfFuel.      (** the loop has not ended within the fuel *)

Inductive outcome (A : Type) : Type :=
| Ok (a : A)
| Err (e : Z)
| Fault (f : fault).
Arguments Ok {A} a.
Arguments Err {A} e.
Arguments Fault {A} f.

(** Error codes of signal_protocol.h. *)
Definition SG_SUCCESS : Z := 0.
Definition SG_ERR_NOMEM : Z := -12.
Definition SG_ERR_INVAL : Z := -22.
Definition SG_ERR_UNKNOWN : Z := -1000.
Definition SG_ERR_DUPLICATE_MESSAGE : Z := -1001.
Definition SG_ERR_INVALID_KEY : Z := -1002.
Definition SG_ERR_INVALID_KEY_ID : Z := -1003.
Definition SG_ERR_INVALID_MAC : Z := -1004.
Definition SG_ERR_INVALID_MESSAGE : Z := -1005.
Definition SG_ERR_INVALID_VERSION : Z := -1006.
Definition SG_ERR_LEGACY_MESSAGE : Z := -1007.
Definition SG_ERR_NO_SESSION : Z := -1008.
Definition SG_ERR_STALE_KEY_EXCHANGE : Z := -1009.
Definition SG_ERR_UNTRUSTED_IDENTITY : Z := -1010.
Definition SG_ERR_INVALID_PROTO_BUF : Z := -1100.
Definition SG_ERR_FP_VERSION_MISMATCH : Z := -1200.
Definition SG_ERR_FP_IDENT_MISMATCH : Z := -1201.

(** What an application callback returns: its output when the result is not
    negative, or [inr p] for the negative result [-p]. *)
Definition callback (A : Type) : Type := (A + positive)%type.

(** * The environment and the monad

    [w_mem] are the outcomes of the next allocations ([false] is a null
    pointer from [malloc]; once the list is used up every allocation
    succeeds), [w_rng] counts the calls of the random source, and [w_user] is
    the state behind the application's data stores. *)

Record world (U : Type) : Type := World {
  w_mem : list bool;
  w_rng : nat;
  w_user : U
}.
Arguments World {U}.
Arguments w_mem {U}.
Arguments w_rng {U}.
Arguments w_user {U}.

Definition M (U A : Type) : Type := world U -> outcome A * world U.

Section Monad.
Context {U : Type}.

Definition ret {A} (a : A) : M U A := fun w => (Ok a, w).
Definition fail {A} (e : Z) : M U A := fun w => (Err e, w).
Definition crash {A} (f : fault) : M U A := fun w => (Fault f, w).

Definition bind {A B} (m : M U A) (k : A -> M U B) : M U B := fun w =>
  match m w with
  | (Ok a, w') => k a w'
  | (Err e, w') => (Err e, w')
  | (Fault f, w') => (Fault f, w')
  end.

(** Inspect the result of a call whose error the caller handles itself. *)
Definition attempt {A} (m : M U A) : M U (A + Z) := fun w =>
  match m w with
  | (Ok a, w') => (Ok (inl a), w')
  | (Err e, w') => (Ok (inr e), w')
  | (Fault f, w') => (Fault f, w')
  end.

(** Rewrite the error code on the way out. *)
Definition map_err {A} (g : Z -> Z) (m : M U A) : M U A := fun w =>
  match m w with
  | (Err e, w') => (Err (g e), w')
  | r => r
  end.

Definition lift_callback {A} (c : callback A) : M U A :=
  match c with
  | inl a => ret a
  | inr p => fail (Z.neg p)
  end.

(** Whether [malloc] returns a non-null pointer. *)
Definition try_malloc : M U bool := fun w =>
  match w_mem w with
  | [] => (Ok true, w)
  | b :: bs => (Ok b, World bs (w_rng w) (w_user w))
  end.
End Monad.

Declare Scope signal_scope.
Delimit Scope signal_scope with signal.
Notation "'let*' x := m 'in' k" := (bind m (fun x => k))
  (at level 10, x name, m at level 200, k at level 200) : signal_scope.
Notation "'let*' ' p := m 'in' k" := (bind m (fun x => match x with p => k end))
  (at level 10, p strict pattern, m at level 200, k at level 200) : signal_scope.
Notation "m ;;; k" := (bind m (fun _ => k))
  (at level 199, right associativity) : signal_scope.
#[local] Open Scope signal_scope.

(** [p = malloc(n); if(!p) return SG_ERR_NOMEM;] *)
Definition malloc {U} : M U unit :=
  let* b := try_malloc in if b then ret tt else fail SG_ERR_NOMEM.

Definition guard {U} (b : bool) (e : Z) : M U unit :=
  if b then ret tt else fail e.

Fixpoint mapM {U A B} (f : A -> M U B) (l : list A) : M U (list B) :=
  match l with
  | [] => ret []
  | x :: l' => let* y := f x in let* ys := mapM f l' in ret (y :: ys)
  end.

Fixpoint foldM {U A S} (f : S -> A -> M U S) (l : list A) (s : S) : M U S :=
  match l with
  | [] => ret s
  | x :: l' => let* s' := f s x in foldM f l' s'
  end.

(** * Running a computation *)

(** No allocation fails. *)
Definition mem_ok {U} (w : world U) : Prop := w_mem w = [].

Section Run.
Context {U : Type}.
Implicit Types w : world U.

Lemma bind_ok {A B} (m : M U A) (k : A -> M U B) w a w' :
  m w = (Ok a, w') -> bind m k w = k a w'.
Proof. intros H. unfold bind. by rewrite H. Qed.

Lemma bind_err {A B} (m : M U A) (k : A -> M U B) w e w' :
  m w = (Err e, w') -> bind m k w = (Err e, w').
Proof. intros H. unfold bind. by rewrite H. Qed.

Lemma bind_Ok_inv {A B} (m : M U A) (k : A -> M U B) w b w' :
  bind m k w = (Ok b, w') -> exists a w1, m w = (Ok a, w1) /\ k a w1 = (Ok b, w').
Proof.
  unfold bind. destruct (m w) as [[a|e|f] w1]; intros H; try discriminate. eauto.
Qed.

Lemma bind_Err_inv {A B} (m : M U A) (k : A -> M U B) w e w' :
  bind m k w = (Err e, w') ->
  m w = (Err e, w') \/ exists a w1, m w = (Ok a, w1) /\ k a w1 = (Err e, w').
Proof.
  unfold bind. destruct (m w) as [[a|e'|f] w1]; intros H; try discriminate; eauto.
  left. congruence.
Qed.

Lemma try_malloc_ok w : mem_ok w -> try_malloc w = (Ok true, w).
Proof. unfold mem_ok, try_malloc. by intros ->. Qed.

Lemma malloc_ok w : mem_ok w -> malloc w = (Ok tt, w).
Proof. intros H. unfold malloc. erewrite bind_ok by by apply try_malloc_ok. done. Qed.

Lemma guard_true b (e : Z) w : b = true -> guard b e w = (Ok tt, w).
Proof. by intros ->. Qed.

Lemma mapM_ok {A B} (f : A -> M U B) (g : A -> B) l w :
  (forall x, x ∈ l -> f x w = (Ok (g x), w)) -> mapM f l w = (Ok (map g l), w).
Proof.
  induction l as [|x l IH]; intros H; [done|]. simpl.
  erewrite bind_ok by (apply H; left).
  erewrite bind_ok by (apply IH; intros; apply H; by right). done.
Qed.
End Run.

(** ** Predicates on computations

    [post m P]: every value [m] returns satisfies [P].
    [safe m]: [m] never faults.
    [frame m]: [m] leaves the application's stores alone.
    [negerr m]: the error codes of [m] are negative. *)

Section Predicates.
Context {U : Type}.

Definition post {A} (m : M U A) (P : A -> Prop) : Prop :=
  forall w a w', m w = (Ok a, w') -> P a.
Definition safe {A} (m : M U A) : Prop := forall w f, fst (m w) <> Fault f.
Definition frame {A} (m : M U A) : Prop := forall w, w_user (snd (m w)) = w_user w.
Definition negerr {A} (m : M U A) : Prop := forall w e w', m w = (Err e, w') -> e < 0.

Lemma post_true {A} (m : M U A) : post m (fun _ => True).
Proof. done. Qed.
Lemma post_weaken {A} (m : M U A) (P Q : A -> Prop) :
  post m P -> (forall a, P a -> Q a) -> post m Q.
Proof. intros H HPQ w a w' E. eauto. Qed.
Lemma post_ret {A} (a : A) (P : A -> Prop) : P a -> post (ret a) P.
Proof. intros H w b w' E. by inversion E; subst. Qed.
Lemma post_fail {A} e (P : A -> Prop) : post (fail e) P.
Proof. intros w b w' E. inversion E. Qed.
Lemma post_crash {A} f (P : A -> Prop) : post (crash f) P.
Proof. intros w b w' E. inversion E. Qed.
Lemma post_bind {A B} (m : M U A) (k : A -> M U B) (P : A -> Prop) (Q : B -> Prop) :
  post m P -> (forall a, P a -> post (k a) Q) -> post (bind m k) Q.
Proof. intros H Hk w b w' (a & w1 & E1 & E2)%bind_Ok_inv. eapply Hk; eauto. Qed.
Lemma post_bind_any {A B} (m : M U A) (k : A -> M U B) (Q : B -> Prop) :
  (forall a, post (k a) Q) -> post (bind m k) Q.
Proof. intros H. eapply post_bind; [apply post_true|]. auto. Qed.
Lemma post_map_err {A} g (m : M U A) (P : A -> Prop) : post m P -> post (map_err g m) P.
Proof.
  intros H w a w'. unfold map_err. destruct (m w) as [[?|?|?] ?] eqn:E; intros E';
    inversion E'; subst; eauto.
Qed.

Lemma safe_ret {A} (a : A) : safe (ret a).
Proof. by intros w f. Qed.
Lemma safe_fail {A} e : safe (@fail U A e).
Proof. by intros w f. Qed.
Lemma safe_bind {A B} (m : M U A) (k : A -> M U B) (P : A -> Prop) :
  safe m -> post m P -> (forall a, P a -> safe (k a)) -> safe (bind m k).
Proof.
  intros Hm HP Hk w f. unfold bind. specialize (Hm w). specialize (HP w).
  destruct (m w) as [[a|e|f'] w1]; simpl; [|done|by destruct (Hm f')].
  eapply Hk, HP. reflexivity.
Qed.
Lemma safe_bind_any {A B} (m : M U A) (k : A -> M U B) :
  safe m -> (forall a, safe (k a)) -> safe (bind m k).
Proof. intros H Hk. eapply safe_bind; [done|apply post_true|auto]. Qed.
Lemma safe_attempt {A} (m : M U A) : safe m -> safe (attempt m).
Proof.
  intros H w f. unfold attempt. specialize (H w). destruct (m w) as [[?|?|?] ?]; try done.
  simpl. intros [= ->]. by eapply H.
Qed.
Lemma safe_map_err {A} g (m : M U A) : safe m -> safe (map_err g m).
Proof.
  intros H w f. unfold map_err. specialize (H w). by destruct (m w) as [[?|?|?] ?].
Qed.
Lemma safe_lift_callback {A} (c : callback A) : safe (@lift_callback U A c).
Proof. by destruct c. Qed.
Lemma safe_try_malloc : safe (@try_malloc U).
Proof. intros w f. unfold try_malloc. by destruct (w_mem w). Qed.
Lemma safe_malloc : safe (@malloc U).
Proof.
  unfold malloc. apply safe_bind_any; [apply safe_try_malloc|].
  intros []; [apply safe_ret|apply safe_fail].
Qed.
Lemma safe_guard b e : safe (@guard U b e).
Proof. by destruct b. Qed.
Lemma safe_mapM {A B} (f : A -> M U B) l : (forall x, safe (f x)) -> safe (mapM f l).
Proof.
  intros H. induction l as [|x l IH]; [apply safe_ret|]. simpl.
  apply safe_bind_any; [apply H|]. intros y. apply safe_bind_any; [apply IH|]. intros; apply safe_ret.
Qed.

Lemma frame_ret {A} (a : A) : frame (ret a).
Proof. done. Qed.
Lemma frame_fail {A} e : frame (@fail U A e).
Proof. done. Qed.
Lemma frame_crash {A} f : frame (@crash U A f).
Proof. done. Qed.
Lemma frame_bind {A B} (m : M U A) (k : A -> M U B) :
  frame m -> (forall a, frame (k a)) -> frame (bind m k).
Proof.
  intros Hm Hk w. unfold bind. specialize (Hm w).
  destruct (m w) as [[a|e|f] w1]; simpl in *; [|done|done].
  rewrite <- Hm. apply Hk.
Qed.
(** A change of the stores after a call that frames them comes after it
    returned. *)
Lemma change_after {A B} (m : M U A) (k : A -> M U B) w : frame m ->
  w_user (snd (bind m k w)) <> w_user w ->
  exists a w1, m w = (Ok a, w1) /\ w_user w1 = w_user w /\ w_user (snd (k a w1)) <> w_user w1.
Proof.
  intros Hm Hne. unfold bind in Hne. specialize (Hm w).
  destruct (m w) as [[a|e|f] w1]; simpl in *; [|done|done]. exists a, w1. by rewrite Hm.
Qed.
Lemma frame_attempt {A} (m : M U A) : frame m -> frame (attempt m).
Proof. intros H w. unfold attempt. specialize (H w). by destruct (m w) as [[?|?|?] ?]. Qed.
Lemma frame_map_err {A} g (m : M U A) : frame m -> frame (map_err g m).
Proof. intros H w. unfold map_err. specialize (H w). by destruct (m w) as [[?|?|?] ?]. Qed.
Lemma frame_lift_callback {A} (c : callback A) : frame (@lift_callback U A c).
Proof. by destruct c. Qed.
Lemma frame_try_malloc : frame (@try_malloc U).
Proof. intros w. unfold try_malloc. by destruct (w_mem w). Qed.
Lemma frame_malloc : frame (@malloc U).
Proof. apply frame_bind; [apply frame_try_malloc|]. by intros []. Qed.
Lemma frame_guard b e : frame (@guard U b e).
Proof. by destruct b. Qed.
Lemma frame_mapM {A B} (f : A -> M U B) l : (forall x, frame (f x)) -> frame (mapM f l).
Proof.
  intros H. induction l as [|x l IH]; [apply frame_ret|]. simpl.
  apply frame_bind; [apply H|]. intros y. apply frame_bind; [apply IH|done].
Qed.
Lemma frame_foldM {A S} (f : S -> A -> M U S) l :
  (forall s x, frame (f s x)) -> forall s, frame (foldM f l s).
Proof.
  intros H. induction l as [|x l IH]; intros s; [apply frame_ret|]. simpl.
  apply frame_bind; [apply H|]. intros; apply IH.
Qed.
End Predicates.

(** [keeps f m]: [m] does not change the part [f] of the application's state;
    [err_keeps f m]: it does not when it fails. *)
Section Keeps.
Context {U T : Type} (f : U -> T).

Definition keeps {A} (m : M U A) : Prop := forall w, f (w_user (snd (m w))) = f (w_user w).
Definition err_keeps {A} (m : M U A) : Prop :=
  forall w e w', m w = (Err e, w') -> f (w_user w') = f (w_user w).
(** A computation that cannot fail. *)
Definition no_err {A} (m : M U A) : Prop := forall w e w', m w <> (Err e, w').

Lemma frame_keeps {A} (m : M U A) : frame m -> keeps m.
Proof. intros H w. by rewrite H. Qed.
Lemma keeps_err_keeps {A} (m : M U A) : keeps m -> err_keeps m.
Proof. intros H w e w' E. specialize (H w). by rewrite E in H. Qed.
Lemma keeps_bind {A B} (m : M U A) (k : A -> M U B) :
  keeps m -> (forall a, keeps (k a)) -> keeps (bind m k).
Proof.
  intros Hm Hk w. unfold bind. specialize (Hm w).
  destruct (m w) as [[a|e|ft] w1]; simpl in *; [|done|done]. by rewrite Hk.
Qed.
Lemma err_keeps_bind {A B} (m : M U A) (k : A -> M U B) :
  keeps m -> (forall a, err_keeps (k a)) -> err_keeps (bind m k).
Proof.
  intros Hm Hk w e w' E. unfold bind in E. specialize (Hm w).
  destruct (m w) as [[a|e0|ft] w1]; simpl in *; [|congruence|congruence].
  rewrite (Hk _ _ _ _ E). done.
Qed.
(** Only the first call can fail. *)
Lemma err_keeps_last {A B} (m : M U A) (k : A -> M U B) :
  err_keeps m -> (forall a, no_err (k a)) -> err_keeps (bind m k).
Proof.
  intros Hm Hk w e w' E. apply bind_Err_inv in E as [E|(a & w1 & _ & E)]; [by eapply Hm|].
  by apply Hk in E.
Qed.
Lemma no_err_ret {A} (a : A) : no_err (ret a).
Proof. intros w e w' E. inversion E. Qed.
Lemma no_err_bind {A B} (m : M U A) (k : A -> M U B) :
  no_err m -> (forall a, no_err (k a)) -> no_err (bind m k).
Proof. intros Hm Hk w e w' E. apply bind_Err_inv in E as [E|(a & w1 & _ & E)]; [by apply Hm in E|by apply Hk in E]. Qed.
End Keeps.

(** Databases of the lemmas that discharge [safe] and [frame] goals. *)
Create HintDb frame_db.
Create HintDb safe_db.
#[export] Hint Resolve frame_ret frame_fail frame_crash frame_lift_callback frame_try_malloc
  frame_malloc frame_guard : frame_db.
#[export] Hint Resolve safe_ret safe_fail safe_lift_callback safe_try_malloc
  safe_malloc safe_guard : safe_db.

(** Walk down a computation: [bind]s, case analyses, then the database. *)
Ltac frame_solve :=
  repeat (intros; first
    [ solve [auto with frame_db]
    | match goal with
      | |- frame (bind _ _) => apply frame_bind
      | |- frame (attempt _) => apply frame_attempt
      | |- frame (map_err _ _) => apply frame_map_err
      | |- frame (mapM _ _) => apply frame_mapM
      | |- frame (foldM _ _ _) => apply frame_foldM
      | |- frame (match ?x with _ => _ end) => destruct x
      end ]); intros.

Ltac safe_solve :=
  repeat (intros; first
    [ solve [auto with safe_db]
    | match goal with
      | |- safe (bind _ _) => apply safe_bind_any
      | |- safe (attempt _) => apply safe_attempt
      | |- safe (map_err _ _) => apply safe_map_err
      | |- safe (mapM _ _) => apply safe_mapM
      | |- safe (match ?x with _ => _ end) => destruct x
      end ]); intros.

Ltac post_solve :=
  repeat (intros; first
    [ match goal with
      | |- post (ret _) _ => apply post_ret
      | |- post (fail _) _ => apply post_fail
      | |- post (crash _) _ => apply post_crash
      | |- post (bind _ _) _ => apply post_bind_any
      | |- post (match ?x with _ => _ end) _ => destruct x eqn:?
      end ]); intros.

(** [mstep L] runs the first call of a sequence with the lemma [L] about it. *)
Tactic Notation "mstep" uconstr(L) := erewrite bind_ok by (eapply L; eauto with mrun).
Create HintDb mrun.

(** [minv H] takes a successful run [H] apart into the runs of its calls. *)
Ltac minv H :=
  let a := fresh "a" in let w := fresh "w" in let H1 := fresh "H" in
  apply bind_Ok_inv in H as (a & w & H1 & H).
