(* ===== verification/Buffers.v ===== *)
(** Buffers and the crypto provider: the part of signal_protocol.c that the
    rest of the library is built on.  A [signal_buffer] is the list of its
    octets, a nullable [signal_buffer *] an [option].  The application's
    crypto callbacks are the class [CryptoProvider]; [CryptoLaws] states what
    signal_protocol.h documents of them. *)
From stdpp Require Import base list.
From Stdlib Require Import ZArith Lia.
From S2P Require Import Prelude.
#[local] Open Scope Z_scope.
#[local] Open Scope signal_scope.

(** [sizeof(struct signal_buffer)]: the [size_t] length before the data. *)
Definition SIGNAL_BUFFER_HEADER : Z := 8.

(** The lengths [signal_buffer_alloc] accepts. *)
Definition fits (len : Z) : Prop := len <= SIZE_MAX - SIGNAL_BUFFER_HEADER.

Section Buffers.
Context {U : Type}.

(** Whether [signal_buffer_alloc(len)] returns a buffer. *)
Definition signal_buffer_alloc (len : Z) : M U bool :=
  if SIZE_MAX - SIGNAL_BUFFER_HEADER <? len then ret false else try_malloc.

Definition signal_buffer_create (data : bytes) : M U (option bytes) :=
  let* b := signal_buffer_alloc (blen data) in
  ret (if b then Some data else None).

Definition signal_buffer_copy (buffer : bytes) : M U (option bytes) :=
  signal_buffer_create buffer.

(** [realloc] gives the grown block or null, in which case the caller still
    owns the old one. *)
Definition signal_buffer_append (buffer data : bytes) : M U (option bytes) :=
  let previous_alloc := SIGNAL_BUFFER_HEADER + blen buffer in
  if SIZE_MAX - previous_alloc <? blen data then ret None else
  let* b := try_malloc in
  ret (if b then Some (buffer ++ data) else None).

(** The idiom [if(!p) { result = SG_ERR_NOMEM; goto complete; }]. *)
Definition or_nomem {A} (m : M U (option A)) : M U A :=
  let* o := m in
  match o with
  | Some a => ret a
  | None => fail SG_ERR_NOMEM
  end.

(** The same idiom after [signal_buffer_alloc]. *)
Definition alloc_or_nomem (len : Z) : M U unit :=
  let* b := signal_buffer_alloc len in
  if b then ret tt else fail SG_ERR_NOMEM.

(** Reading through a pointer. *)
Definition deref {A} (p : option A) : M U A :=
  match p with
  | Some a => ret a
  | None => crash NullDeref
  end.
End Buffers.

(** ** Comparison *)

(** [result |= c1[i] ^ c2[i]] over the first [n] octets. *)
Definition signal_constant_memcmp (s1 s2 : bytes) (n : nat) : Z :=
  fold_left (fun result p => Z.lor result (Z.lxor (fst p) (snd p)))
    (zip (take n s1) (take n s2)) 0.

(** [memcmp]: the sign of the first difference. *)
Fixpoint memcmp (s1 s2 : bytes) : Z :=
  match s1, s2 with
  | a :: s1', b :: s2' =>
      if a <? b then -1 else if b <? a then 1 else memcmp s1' s2'
  | _, _ => 0
  end.

(** The null-pointer cases every compare function of the library starts
    with. *)
Definition compare_ptr {A} (cmp : A -> A -> Z) (p1 p2 : option A) : Z :=
  match p1, p2 with
  | None, None => 0
  | None, Some _ => -1
  | Some _, None => 1
  | Some a, Some b => cmp a b
  end.

Definition signal_buffer_compare (buffer1 buffer2 : option bytes) : Z :=
  compare_ptr (fun b1 b2 =>
    if blen b1 <? blen b2 then -1
    else if blen b2 <? blen b1 then 1
    else signal_constant_memcmp b1 b2 (length b1)) buffer1 buffer2.

(** ** Buffer lists, integer lists and strings *)

Section Lists.
Context {U : Type}.

(** [LL_PREPEND]; the list's [size] field is its length. *)
Definition signal_buffer_list_push (l : list bytes) (b : bytes) : M U (list bytes) :=
  malloc ;;; ret (b :: l).

Definition signal_buffer_list_size (l : list bytes) : Z := Z.of_nat (length l).

Definition signal_int_list_push_back (l : list Z) (value : Z) : list Z := l ++ [value].

Definition signal_int_list_at (l : list Z) (index : nat) : option Z := l !! index.

(** [strlen]: the octets before the first NUL. *)
Fixpoint c_string (b : bytes) : bytes :=
  match b with
  | [] => []
  | c :: b' => if c =? 0 then [] else c :: c_string b'
  end.

(** [signal_protocol_str_serialize_protobuf]: the string without its NUL. *)
Definition signal_protocol_str_serialize_protobuf (str : bytes) : bytes := c_string str.

(** A NUL is written after the copied octets, so that the string the callers
    see ends at the first NUL of the field. *)
Definition signal_protocol_str_deserialize_protobuf (b : bytes) : M U (option bytes) :=
  let* ok := try_malloc in ret (if ok then Some (c_string (b ++ [0])) else None).
End Lists.

(** ** The crypto provider *)

Class CryptoProvider : Type := {
  (** the [n]th call, asking for [len] octets *)
  random_func : nat -> nat -> callback bytes;
  hmac_context : Type;
  hmac_sha256_init_func : bytes -> callback hmac_context;
  hmac_sha256_update_func : hmac_context -> bytes -> callback hmac_context;
  hmac_sha256_final_func : hmac_context -> callback bytes;
  sha512_digest_func : bytes -> callback bytes;
  encrypt_func : Z -> bytes -> bytes -> bytes -> callback bytes;
  decrypt_func : Z -> bytes -> bytes -> bytes -> callback bytes
}.

Section Provider.
Context {U : Type} `{CP : CryptoProvider}.

Definition signal_crypto_random (len : nat) : M U bytes := fun w =>
  lift_callback (random_func (w_rng w) len) (World (w_mem w) (S (w_rng w)) (w_user w)).

Definition signal_hmac_sha256_init (key : bytes) : M U hmac_context :=
  lift_callback (hmac_sha256_init_func key).
Definition signal_hmac_sha256_update (c : hmac_context) (data : bytes) : M U hmac_context :=
  lift_callback (hmac_sha256_update_func c data).
Definition signal_hmac_sha256_final (c : hmac_context) : M U bytes :=
  lift_callback (hmac_sha256_final_func c).
Definition signal_sha512_digest (data : bytes) : M U bytes :=
  lift_callback (sha512_digest_func data).
Definition signal_encrypt (cipher : Z) (key iv plaintext : bytes) : M U bytes :=
  lift_callback (encrypt_func cipher key iv plaintext).
Definition signal_decrypt (cipher : Z) (key iv ciphertext : bytes) : M U bytes :=
  lift_callback (decrypt_func cipher key iv ciphertext).
End Provider.

(** Cipher modes of signal_protocol.h. *)
Definition SG_CIPHER_AES_CTR_NOPADDING : Z := 1.
Definition SG_CIPHER_AES_CBC_PKCS5 : Z := 2.

(** What signal_protocol.h documents of the callbacks: HMAC-SHA256 is a
    function of the key and of the data fed to it in any number of updates and
    has 32 octets of output; SHA-512 has 64; a random request is filled; what
    is encrypted with a key and an iv decrypts with them. *)
Class CryptoLaws `{CP : CryptoProvider} : Type := {
  hmac_spec : bytes -> bytes -> bytes;
  sha512_spec : bytes -> bytes;
  hmac_represents : hmac_context -> bytes -> bytes -> Prop;
  hmac_init_law : forall key,
    exists c, hmac_sha256_init_func key = inl c /\ hmac_represents c key [];
  hmac_update_law : forall c key d data, hmac_represents c key d ->
    exists c', hmac_sha256_update_func c data = inl c' /\ hmac_represents c' key (d ++ data);
  hmac_final_law : forall c key d, hmac_represents c key d ->
    hmac_sha256_final_func c = inl (hmac_spec key d);
  hmac_length_law : forall key d, length (hmac_spec key d) = 32%nat;
  sha512_law : forall d, sha512_digest_func d = inl (sha512_spec d);
  sha512_length_law : forall d, length (sha512_spec d) = 64%nat;
  random_law : forall n len, exists d, random_func n len = inl d /\ length d = len;
  encrypt_law : forall mode key iv p, length key = 32%nat -> length iv = 16%nat ->
    exists c, encrypt_func mode key iv p = inl c /\ decrypt_func mode key iv c = inl p
}.

(** * Lemmas *)

Lemma lor_eq_0 a b : Z.lor a b = 0 <-> a = 0 /\ b = 0.
Proof. apply Z.lor_eq_0_iff. Qed.

Lemma constant_memcmp_fold l acc :
  fold_left (fun result p => Z.lor result (Z.lxor (fst p) (snd p))) l acc = 0 <->
  acc = 0 /\ Forall (fun p => fst p = snd p) l.
Proof.
  revert acc. induction l as [|[a b] l IH]; intros acc; simpl.
  - split; [auto|tauto].
  - rewrite IH, lor_eq_0, Z.lxor_eq_0_iff, Forall_cons. simpl. tauto.
Qed.

Lemma Forall_zip_eq (l k : bytes) : length l = length k ->
  Forall (fun p => fst p = snd p) (zip l k) -> l = k.
Proof.
  revert k. induction l as [|a l IH]; intros [|b k] Hl H; try done.
  simpl in H. apply Forall_cons in H as [E H]. simpl in *. f_equal; auto.
Qed.

(** The constant-time comparison decides equality of equally long buffers. *)
Lemma signal_constant_memcmp_0 (s1 s2 : bytes) n :
  length s1 = n -> length s2 = n -> signal_constant_memcmp s1 s2 n = 0 <-> s1 = s2.
Proof.
  intros H1 H2. unfold signal_constant_memcmp. rewrite constant_memcmp_fold.
  rewrite !take_ge by lia. split.
  - intros [_ H]. apply Forall_zip_eq; [lia|done].
  - intros ->. split; [done|]. apply Forall_forall. intros [a b] Hin.
    apply elem_of_lookup_zip_with in Hin as (i & x & y & E & Hx & Hy).
    simpl. inversion E; congruence.
Qed.

Lemma signal_constant_memcmp_refl (s : bytes) n : signal_constant_memcmp s s n = 0.
Proof.
  unfold signal_constant_memcmp. apply constant_memcmp_fold. split; [done|].
  apply Forall_forall. intros [a b] (i & x & y & E & Hx & Hy)%elem_of_lookup_zip_with.
  simpl. inversion E; congruence.
Qed.

Lemma signal_constant_memcmp_range (s1 s2 : bytes) n :
  Forall is_u8 s1 -> Forall is_u8 s2 -> is_u8 (signal_constant_memcmp s1 s2 n).
Proof.
  intros H1 H2. unfold signal_constant_memcmp.
  assert (forall l acc, is_u8 acc -> Forall (fun p => is_u8 (fst p) /\ is_u8 (snd p)) l ->
    is_u8 (fold_left (fun r p => Z.lor r (Z.lxor (fst p) (snd p))) l acc)) as Hg.
  { induction l as [|[a b] l IH]; intros acc Ha Hl; [done|].
    apply Forall_cons in Hl as [[Hx Hy] Hl]. simpl in *. apply IH; [|done].
    unfold is_u8 in *. change 256 with (2 ^ 8) in *.
    assert (forall x, 0 <= x -> x < 2 ^ 8 <-> Z.log2 x < 8) as Hlog.
    { intros x Hx0. destruct (Z.eq_dec x 0) as [->|]; [simpl; lia|].
      rewrite Z.log2_lt_pow2 by lia. lia. }
    assert (0 <= Z.lxor a b) by (apply Z.lxor_nonneg; lia).
    assert (0 <= Z.lor acc (Z.lxor a b)) by (apply Z.lor_nonneg; lia).
    split; [done|]. apply Hlog; [done|]. rewrite Z.log2_lor by lia.
    pose proof (Z.log2_lxor a b ltac:(lia) ltac:(lia)).
    destruct Ha as [Ha0 Ha%Hlog], Hx as [Hx0 Hx%Hlog], Hy as [Hy0 Hy%Hlog]; lia. }
  apply Hg; [unfold is_u8; lia|].
  apply Forall_forall. intros [a b] (i & x & y & E & Hx & Hy)%elem_of_lookup_zip_with.
  inversion E; subst. simpl.
  split; [eapply (Forall_lookup_1 _ _ _ _ (Forall_take _ n _ H1) Hx)|
          eapply (Forall_lookup_1 _ _ _ _ (Forall_take _ n _ H2) Hy)].
Qed.

Lemma memcmp_refl s : memcmp s s = 0.
Proof. induction s; simpl; [done|]. by rewrite Z.ltb_irrefl. Qed.

Lemma memcmp_antisym s1 s2 : memcmp s2 s1 = - memcmp s1 s2.
Proof.
  revert s2. induction s1 as [|a s1 IH]; intros [|b s2]; simpl; try done.
  destruct (Z.ltb_spec a b), (Z.ltb_spec b a); try lia; done.
Qed.

Lemma memcmp_0 s1 s2 : length s1 = length s2 -> memcmp s1 s2 = 0 <-> s1 = s2.
Proof.
  revert s2. induction s1 as [|a s1 IH]; intros [|b s2] Hl; simpl; try done.
  destruct (Z.ltb_spec a b), (Z.ltb_spec b a); try lia.
  - split; [lia|]. intros [= -> ->]. lia.
  - split; [lia|]. intros [= -> ->]. lia.
  - rewrite IH by (simpl in Hl; lia). split; [|intros [= -> ->]; done].
    intros ->. f_equal. lia.
Qed.

(** [signal_buffer_compare] is 0 exactly on equal buffers. *)
Lemma signal_buffer_compare_0 b1 b2 : signal_buffer_compare b1 b2 = 0 <-> b1 = b2.
Proof.
  unfold signal_buffer_compare, compare_ptr, blen.
  destruct b1 as [b1|], b2 as [b2|]; try done.
  destruct (Z.ltb_spec (Z.of_nat (length b1)) (Z.of_nat (length b2))).
  { split; [lia|]. intros [= ->]. lia. }
  destruct (Z.ltb_spec (Z.of_nat (length b2)) (Z.of_nat (length b1))).
  { split; [lia|]. intros [= ->]. lia. }
  rewrite signal_constant_memcmp_0 by lia. split; [by intros ->|by intros [= ->]].
Qed.

Section Run.
Context {U : Type}.
Implicit Types w : world U.

Lemma signal_buffer_alloc_ok len w : mem_ok w -> fits len ->
  signal_buffer_alloc len w = (Ok true, w).
Proof.
  intros Hm Hf. unfold signal_buffer_alloc, fits in *.
  destruct (Z.ltb_spec (SIZE_MAX - SIGNAL_BUFFER_HEADER) len); [lia|].
  by apply try_malloc_ok.
Qed.

Lemma alloc_or_nomem_ok len w : mem_ok w -> fits len -> alloc_or_nomem len w = (Ok tt, w).
Proof. intros. unfold alloc_or_nomem. by erewrite bind_ok by by apply signal_buffer_alloc_ok. Qed.

Lemma signal_buffer_create_ok data w : mem_ok w -> fits (blen data) ->
  or_nomem (signal_buffer_create data) w = (Ok data, w).
Proof.
  intros. unfold or_nomem, signal_buffer_create, bind.
  by rewrite signal_buffer_alloc_ok.
Qed.

Lemma signal_buffer_append_ok b data w : mem_ok w -> fits (blen b + blen data) ->
  or_nomem (signal_buffer_append b data) w = (Ok (b ++ data), w).
Proof.
  intros Hm Hf. unfold or_nomem, signal_buffer_append, bind, fits in *.
  destruct (Z.ltb_spec (SIZE_MAX - (SIGNAL_BUFFER_HEADER + blen b)) (blen data)); [lia|].
  by rewrite try_malloc_ok.
Qed.

Lemma deref_ok {A} (a : A) w : deref (Some a) w = (Ok a, w).
Proof. done. Qed.

Lemma post_or_nomem_create data : post (@or_nomem U _ (signal_buffer_create data)) (eq data).
Proof.
  unfold or_nomem, signal_buffer_create. intros w a w' H.
  minv H. minv H0. destruct a1; inversion H0; subst; inversion H; done.
Qed.

Lemma frame_alloc len : frame (@signal_buffer_alloc U len).
Proof. unfold signal_buffer_alloc. frame_solve. Qed.
Lemma frame_or_nomem {A} (m : M U (option A)) : frame m -> frame (or_nomem m).
Proof. intros. unfold or_nomem. frame_solve. Qed.
Lemma frame_create data : frame (@signal_buffer_create U data).
Proof. unfold signal_buffer_create. apply frame_bind; [apply frame_alloc|frame_solve]. Qed.
Lemma frame_append b data : frame (@signal_buffer_append U b data).
Proof. unfold signal_buffer_append. frame_solve. Qed.
Lemma frame_alloc_or_nomem len : frame (@alloc_or_nomem U len).
Proof. unfold alloc_or_nomem. apply frame_bind; [apply frame_alloc|frame_solve]. Qed.
Lemma frame_deref {A} (p : option A) : frame (@deref U A p).
Proof. unfold deref. frame_solve. Qed.

Lemma safe_alloc len : safe (@signal_buffer_alloc U len).
Proof. unfold signal_buffer_alloc. safe_solve. Qed.
Lemma safe_or_nomem {A} (m : M U (option A)) : safe m -> safe (or_nomem m).
Proof. intros. unfold or_nomem. safe_solve. Qed.
Lemma safe_create data : safe (@signal_buffer_create U data).
Proof. unfold signal_buffer_create. apply safe_bind_any; [apply safe_alloc|safe_solve]. Qed.
Lemma safe_append b data : safe (@signal_buffer_append U b data).
Proof. unfold signal_buffer_append. safe_solve. Qed.
Lemma safe_alloc_or_nomem len : safe (@alloc_or_nomem U len).
Proof. unfold alloc_or_nomem. apply safe_bind_any; [apply safe_alloc|safe_solve]. Qed.

Context `{CP : CryptoProvider}.
Lemma frame_crypto_random len : frame (@signal_crypto_random U CP len).
Proof. intros w. unfold signal_crypto_random, lift_callback. by destruct (random_func _ _). Qed.
Lemma safe_crypto_random len : safe (@signal_crypto_random U CP len).
Proof. intros w f. unfold signal_crypto_random, lift_callback. by destruct (random_func _ _). Qed.
Lemma frame_hmac_init key : frame (@signal_hmac_sha256_init U CP key).
Proof. apply frame_lift_callback. Qed.
Lemma frame_hmac_update c d : frame (@signal_hmac_sha256_update U CP c d).
Proof. apply frame_lift_callback. Qed.
Lemma frame_hmac_final c : frame (@signal_hmac_sha256_final U CP c).
Proof. apply frame_lift_callback. Qed.
Lemma frame_sha512 d : frame (@signal_sha512_digest U CP d).
Proof. apply frame_lift_callback. Qed.
Lemma frame_encrypt m k i d : frame (@signal_encrypt U CP m k i d).
Proof. apply frame_lift_callback. Qed.
Lemma frame_decrypt m k i d : frame (@signal_decrypt U CP m k i d).
Proof. apply frame_lift_callback. Qed.
Lemma safe_hmac_init key : safe (@signal_hmac_sha256_init U CP key).
Proof. apply safe_lift_callback. Qed.
Lemma safe_hmac_update c d : safe (@signal_hmac_sha256_update U CP c d).
Proof. apply safe_lift_callback. Qed.
Lemma safe_hmac_final c : safe (@signal_hmac_sha256_final U CP c).
Proof. apply safe_lift_callback. Qed.
Lemma safe_sha512 d : safe (@signal_sha512_digest U CP d).
Proof. apply safe_lift_callback. Qed.
Lemma safe_encrypt m k i d : safe (@signal_encrypt U CP m k i d).
Proof. apply safe_lift_callback. Qed.
Lemma safe_decrypt m k i d : safe (@signal_decrypt U CP m k i d).
Proof. apply safe_lift_callback. Qed.
End Run.

#[export] Hint Resolve frame_alloc frame_or_nomem frame_create frame_append
  frame_alloc_or_nomem frame_deref frame_crypto_random frame_hmac_init
  frame_hmac_update frame_hmac_final frame_sha512 frame_encrypt frame_decrypt : frame_db.
#[export] Hint Resolve safe_alloc safe_or_nomem safe_create safe_append
  safe_alloc_or_nomem safe_crypto_random safe_hmac_init safe_hmac_update
  safe_hmac_final safe_sha512 safe_encrypt safe_decrypt : safe_db.

(** The string of a field survives the trip through [str_serialize]. *)
Lemma c_string_app_nul (b : bytes) : Forall (fun c => c <> 0) b -> c_string (b ++ [0]) = b.
Proof.
  induction 1 as [|c b Hc _ IH]; [done|]. simpl.
  destruct (Z.eqb_spec c 0); [done|]. by rewrite IH.
Qed.
