(* ===== verification/Hkdf.v ===== *)
(** hkdf.c: the HKDF key derivation of RFC 5869 over the provider's HMAC, with
    the library's two iteration start offsets.  [hkdf_expand] is the loop of
    the source with its [uint8_t] counter; [Spec] is the derivation as the RFC
    writes it, and [hkdf_derive_secrets_ok] relates the two. *)
From stdpp Require Import base list.
From Stdlib Require Import ZArith Lia.
From S2P Require Import Prelude Buffers.
#[local] Open Scope Z_scope.
#[local] Open Scope signal_scope.

Definition HASH_OUTPUT_SIZE : Z := 32.

Record hkdf_context : Type := HkdfContext { iteration_start_offset : Z }.

Section Hkdf.
Context {U : Type} `{CP : CryptoProvider}.

Definition hkdf_create (message_version : Z) : M U hkdf_context :=
  malloc ;;;
  if message_version =? 2 then ret (HkdfContext 0)
  else if message_version =? 3 then ret (HkdfContext 1)
  else fail SG_ERR_INVAL.

Definition hkdf_extract (context : hkdf_context) (salt input_key_material : bytes) : M U bytes :=
  let* hmac_context := signal_hmac_sha256_init salt in
  let* hmac_context := signal_hmac_sha256_update hmac_context input_key_material in
  let* mac_buffer := signal_hmac_sha256_final hmac_context in
  malloc ;;;
  ret mac_buffer.

(** One turn of the loop of [hkdf_expand] up to the call of [final]. *)
Definition hkdf_step (prk : bytes) (info step_buffer : option bytes) (i : Z) : M U bytes :=
  let* hmac_context := signal_hmac_sha256_init prk in
  let* hmac_context :=
    match step_buffer with
    | Some b => signal_hmac_sha256_update hmac_context b
    | None => ret hmac_context
    end in
  let* hmac_context :=
    match info with
    | Some b => signal_hmac_sha256_update hmac_context b
    | None => ret hmac_context
    end in
  let* hmac_context := signal_hmac_sha256_update hmac_context [i] in
  signal_hmac_sha256_final hmac_context.

(** The loop: [i] is the [uint8_t] counter, [bound] is
    [iterations + iteration_start_offset] as an [int]. *)
Fixpoint hkdf_expand_loop (fuel : nat) (prk : bytes) (info : option bytes) (bound i : Z)
    (step_buffer result_buf : option bytes) (remaining_len : nat) : M U (option bytes) :=
  if i <? bound then
    match fuel with
    | O => crash OutOfFuel
    | S fuel' =>
        let* step_buffer := hkdf_step prk info step_buffer i in
        let step_size := Nat.min remaining_len (length step_buffer) in
        malloc ;;;
        let result_buf' :=
          match result_buf with
          | None => take step_size step_buffer
          | Some r => r ++ take step_size step_buffer
          end in
        hkdf_expand_loop fuel' prk info bound (u8 (i + 1)) (Some step_buffer)
          (Some result_buf') (remaining_len - step_size)
    end
  else ret result_buf.

(** [(int)ceil((double)output_len / (double)HASH_OUTPUT_SIZE)] *)
Definition hkdf_iterations (output_len : nat) : Z :=
  (Z.of_nat output_len + HASH_OUTPUT_SIZE - 1) / HASH_OUTPUT_SIZE.

(** The counter has 256 values, so a loop that ends does so within 256
    turns. *)
Definition hkdf_fuel : nat := Z.to_nat 256.

(** The result is the null pointer when [output_len] is 0. *)
Definition hkdf_expand (context : hkdf_context) (prk : bytes) (info : option bytes)
    (output_len : nat) : M U (option bytes) :=
  hkdf_expand_loop hkdf_fuel prk info
    (hkdf_iterations output_len + iteration_start_offset context)
    (u8 (iteration_start_offset context)) None None output_len.

Definition hkdf_derive_secrets (context : hkdf_context) (input_key_material salt : bytes)
    (info : option bytes) (output_len : nat) : M U (option bytes) :=
  let* prk := hkdf_extract context salt input_key_material in
  hkdf_expand context prk info output_len.
End Hkdf.

Definition hkdf_compare (context1 context2 : option hkdf_context) : Z :=
  compare_ptr (fun c1 c2 =>
    if iteration_start_offset c1 <? iteration_start_offset c2 then -1
    else if iteration_start_offset c2 <? iteration_start_offset c1 then 1
    else 0) context1 context2.

(** * The derivation of RFC 5869 *)

Module Spec.
Section Spec.
Context `{CL : CryptoLaws}.

(** [n] blocks of output, the first with counter [i] and chained to [prev]. *)
Fixpoint blocks (prk info : bytes) (n : nat) (i : Z) (prev : bytes) : bytes :=
  match n with
  | O => []
  | S n' =>
      let t := hmac_spec prk (prev ++ info ++ [i]) in
      t ++ blocks prk info n' (i + 1) t
  end.

Definition hkdf (offset : Z) (ikm salt info : bytes) (output_len : nat) : bytes :=
  take output_len
    (blocks (hmac_spec salt ikm) info (Z.to_nat (hkdf_iterations output_len)) offset []).

Lemma length_blocks prk info n i prev : length (blocks prk info n i prev) = (32 * n)%nat.
Proof.
  revert i prev. induction n as [|n IH]; intros i prev; simpl; [done|].
  rewrite length_app, hmac_length_law, IH. lia.
Qed.
End Spec.
End Spec.

(** * Lemmas *)

Lemma hkdf_iterations_ge n : Z.of_nat n <= 32 * hkdf_iterations n.
Proof.
  unfold hkdf_iterations, HASH_OUTPUT_SIZE.
  pose proof (Z.div_mod (Z.of_nat n + 32 - 1) 32 ltac:(lia)).
  pose proof (Z.mod_pos_bound (Z.of_nat n + 32 - 1) 32 ltac:(lia)). lia.
Qed.

Lemma hkdf_iterations_lt n : 32 * hkdf_iterations n < Z.of_nat n + 32.
Proof.
  unfold hkdf_iterations, HASH_OUTPUT_SIZE.
  pose proof (Z.div_mod (Z.of_nat n + 32 - 1) 32 ltac:(lia)).
  pose proof (Z.mod_pos_bound (Z.of_nat n + 32 - 1) 32 ltac:(lia)). lia.
Qed.

Section HkdfRun.
Context {U : Type} `{CL : CryptoLaws}.
Implicit Types w : world U.

Definition info_bytes (info : option bytes) : bytes := default [] info.

Lemma hmac_init_run key w : exists c,
  signal_hmac_sha256_init key w = (Ok c, w) /\ hmac_represents c key [].
Proof.
  destruct (hmac_init_law key) as (c & E & H). exists c.
  unfold signal_hmac_sha256_init. by rewrite E.
Qed.

Lemma hmac_update_run c key d data w : hmac_represents c key d -> exists c',
  signal_hmac_sha256_update c data w = (Ok c', w) /\ hmac_represents c' key (d ++ data).
Proof.
  intros H. destruct (hmac_update_law c key d data H) as (c' & E & H'). exists c'.
  unfold signal_hmac_sha256_update. by rewrite E.
Qed.

Lemma hmac_final_run c key d w : hmac_represents c key d ->
  signal_hmac_sha256_final c w = (Ok (hmac_spec key d), w).
Proof. intros H. unfold signal_hmac_sha256_final. by rewrite (hmac_final_law _ _ _ H). Qed.

(** An update that is skipped when its pointer is null. *)
Lemma hmac_update_opt_run c key d (o : option bytes) w : hmac_represents c key d ->
  exists c', (match o with
    | Some b => signal_hmac_sha256_update c b
    | None => ret c
    end) w = (Ok c', w) /\ hmac_represents c' key (d ++ default [] o).
Proof.
  intros H. destruct o as [b|]; simpl.
  - by apply hmac_update_run.
  - exists c. by rewrite app_nil_r.
Qed.

Lemma hkdf_extract_ok ctx salt ikm w : mem_ok w ->
  hkdf_extract ctx salt ikm w = (Ok (hmac_spec salt ikm), w).
Proof.
  intros Hm. unfold hkdf_extract.
  destruct (hmac_init_run salt w) as (c & E & R). erewrite bind_ok by exact E.
  destruct (hmac_update_run c salt [] ikm w R) as (c' & E' & R'). erewrite bind_ok by exact E'.
  erewrite bind_ok by (by apply (hmac_final_run _ _ _ _ R')).
  by erewrite bind_ok by by apply malloc_ok.
Qed.

Lemma hkdf_step_ok prk info step i w :
  hkdf_step prk info step i w =
  (Ok (hmac_spec prk (default [] step ++ info_bytes info ++ [i])), w).
Proof.
  unfold hkdf_step.
  destruct (hmac_init_run prk w) as (c & E & R). erewrite bind_ok by exact E.
  destruct (hmac_update_opt_run c prk [] step w R) as (c1 & E1 & R1). erewrite bind_ok by exact E1.
  destruct (hmac_update_opt_run c1 prk _ info w R1) as (c2 & E2 & R2). erewrite bind_ok by exact E2.
  destruct (hmac_update_run c2 prk _ [i] w R2) as (c3 & E3 & R3). erewrite bind_ok by exact E3.
  rewrite (hmac_final_run _ _ _ _ R3). simpl. unfold info_bytes. by rewrite app_assoc.
Qed.

(** The loop appends the RFC's blocks, cut to the length that remains. *)
Lemma hkdf_expand_loop_ok n fuel prk info i step res remaining w :
  mem_ok w -> (n <= fuel)%nat -> 0 <= i -> i + Z.of_nat n <= 255 ->
  (remaining <= 32 * n)%nat -> (n = 0%nat -> is_Some res) ->
  hkdf_expand_loop fuel prk info (i + Z.of_nat n) i step res remaining w =
  (Ok (Some (default [] res ++
     take remaining (Spec.blocks prk (info_bytes info) n i (default [] step)))), w).
Proof.
  revert fuel i step res remaining.
  induction n as [|n IH]; intros fuel i step res remaining Hm Hf Hi Hb Hr Hs.
  - assert (remaining = 0%nat) as -> by lia. destruct (Hs eq_refl) as [r ->].
    destruct fuel; cbn [hkdf_expand_loop]; rewrite (proj2 (Z.ltb_ge _ _)) by lia; simpl; by rewrite app_nil_r.
  - destruct fuel as [|fuel]; [lia|]. cbn [hkdf_expand_loop].
    rewrite (proj2 (Z.ltb_lt _ _)) by lia.
    erewrite bind_ok by apply hkdf_step_ok.
    erewrite bind_ok by by apply malloc_ok. rewrite hmac_length_law.
    set (t := hmac_spec _ _). assert (length t = 32%nat) as Ht by apply hmac_length_law.
    replace (u8 (i + 1)) with (i + 1) by (unfold u8; rewrite Z.mod_small; lia).
    replace (i + Z.of_nat (S n)) with (i + 1 + Z.of_nat n) by lia.
    rewrite IH by (try done; lia). simpl. fold t.
    f_equal. f_equal. f_equal. rewrite take_app, Ht.
    destruct (decide (32 <= remaining)%nat).
    + rewrite (Nat.min_r remaining 32) by lia.
      rewrite (take_ge t remaining), (take_ge t 32) by lia.
      destruct res; simpl; by rewrite ?app_assoc.
    + rewrite (Nat.min_l remaining 32) by lia. rewrite Nat.sub_diag.
      replace (remaining - 32)%nat with 0%nat by lia. rewrite !take_0, !app_nil_r.
      by destruct res.
Qed.

Lemma hkdf_derive_secrets_run offset ikm salt info output_len w :
  mem_ok w -> (0 < output_len)%nat -> 0 <= offset <= 1 ->
  hkdf_iterations output_len + offset <= 255 ->
  hkdf_derive_secrets (HkdfContext offset) ikm salt info output_len w =
  (Ok (Some (Spec.hkdf offset ikm salt (info_bytes info) output_len)), w).
Proof.
  intros Hm Hl Ho Hi. unfold hkdf_derive_secrets.
  erewrite bind_ok by by apply hkdf_extract_ok. unfold hkdf_expand. cbn [iteration_start_offset].
  pose proof (hkdf_iterations_ge output_len).
  replace (u8 offset) with offset by (unfold u8; rewrite Z.mod_small; lia).
  rewrite <- (Z2Nat.id (hkdf_iterations output_len)) by lia. rewrite (Z.add_comm _ offset).
  rewrite hkdf_expand_loop_ok; [done|done|unfold hkdf_fuel; lia|lia|lia|lia|lia].
Qed.

Lemma length_hkdf offset ikm salt info n : length (Spec.hkdf offset ikm salt info n) = n.
Proof.
  unfold Spec.hkdf. pose proof (hkdf_iterations_ge n).
  rewrite length_take, Spec.length_blocks. lia.
Qed.

(** With 256 or more blocks to produce, the counter never reaches its bound. *)
Lemma hkdf_expand_loop_diverges fuel prk info bound i step res remaining w :
  mem_ok w -> 256 <= bound -> 0 <= i < 256 ->
  hkdf_expand_loop fuel prk info bound i step res remaining w = (Fault OutOfFuel, w).
Proof.
  revert i step res remaining. induction fuel as [|fuel IH]; intros i step res remaining Hm Hb Hi;
    cbn [hkdf_expand_loop]; rewrite (proj2 (Z.ltb_lt _ _)) by lia; [done|].
  erewrite bind_ok by apply hkdf_step_ok. erewrite bind_ok by by apply malloc_ok.
  apply IH; [done..|]. unfold u8. apply Z.mod_pos_bound. lia.
Qed.
End HkdfRun.

(** ** Properties of every run, whatever the provider answers *)

Section HkdfAlways.
Context {U : Type} `{CP : CryptoProvider}.

Lemma frame_hkdf_create v : frame (@hkdf_create U v).
Proof. unfold hkdf_create. frame_solve. Qed.

Lemma frame_hkdf_expand_loop fuel prk info bound i step res remaining :
  frame (@hkdf_expand_loop U CP fuel prk info bound i step res remaining).
Proof.
  revert i step res remaining.
  induction fuel; intros; simpl; unfold hkdf_step; frame_solve; apply IHfuel.
Qed.

Lemma frame_hkdf_derive_secrets c ikm salt info n :
  frame (@hkdf_derive_secrets U CP c ikm salt info n).
Proof.
  unfold hkdf_derive_secrets, hkdf_extract, hkdf_expand. frame_solve.
  apply frame_hkdf_expand_loop.
Qed.

(** The loop ends whenever its bound fits the counter, even when a callback
    or an allocation fails. *)
Lemma hkdf_expand_loop_safe fuel prk info bound i step res remaining :
  0 <= i -> bound <= 255 -> bound - i <= Z.of_nat fuel ->
  safe (@hkdf_expand_loop U CP fuel prk info bound i step res remaining).
Proof.
  revert i step res remaining. induction fuel as [|fuel IH]; intros i step res remaining Hi Hb Hf;
    simpl; destruct (Z.ltb_spec i bound); try lia; auto with safe_db.
  unfold hkdf_step. safe_solve. unfold u8. rewrite Z.mod_small by lia. apply IH; lia.
Qed.

Lemma safe_hkdf_derive_secrets offset ikm salt info n :
  0 <= offset <= 1 -> hkdf_iterations n + offset <= 255 ->
  safe (@hkdf_derive_secrets U CP (HkdfContext offset) ikm salt info n).
Proof.
  intros Ho Hn. unfold hkdf_derive_secrets, hkdf_extract, hkdf_expand. safe_solve. cbn [iteration_start_offset].
  pose proof (hkdf_iterations_ge n).
  apply hkdf_expand_loop_safe; unfold u8, hkdf_fuel; rewrite ?Z.mod_small by lia; lia.
Qed.
End HkdfAlways.

#[export] Hint Resolve frame_hkdf_create frame_hkdf_derive_secrets : frame_db.

Lemma hkdf_compare_0 c1 c2 : hkdf_compare c1 c2 = 0 <-> c1 = c2.
Proof.
  unfold hkdf_compare, compare_ptr. destruct c1 as [[o1]|], c2 as [[o2]|]; simpl; try done.
  destruct (Z.ltb_spec o1 o2), (Z.ltb_spec o2 o1); split; intros E; try lia; try (inversion E; lia).
  f_equal. f_equal. lia.
Qed.
