(* ===== verification/Curve.v ===== *)
(** curve.c: Curve25519 keys, agreement and signatures.  The field arithmetic
    of curve25519/ is the class [Curve25519], its documented behaviour
    [CurveLaws]; this file models the keys, their encodings and the calls. *)
From stdpp Require Import base list.
From Stdlib Require Import ZArith Lia.
From S2P Require Import Prelude Buffers.
#[local] Open Scope Z_scope.
#[local] Open Scope signal_scope.

Definition DJB_TYPE : Z := 5.
Definition DJB_KEY_LEN : nat := 32.
Definition CURVE_SIGNATURE_LEN : nat := 64.

Record ec_public_key : Type := EcPublicKey { ec_public_data : bytes }.
Record ec_private_key : Type := EcPrivateKey { ec_private_data : bytes }.
Record ec_key_pair : Type := EcKeyPair {
  ec_key_pair_get_public : ec_public_key;
  ec_key_pair_get_private : ec_private_key
}.

#[global] Instance ec_public_key_eq_dec : EqDecision ec_public_key.
Proof. solve_decision. Defined.
#[global] Instance ec_private_key_eq_dec : EqDecision ec_private_key.
Proof. solve_decision. Defined.
#[global] Instance ec_key_pair_eq_dec : EqDecision ec_key_pair.
Proof. solve_decision. Defined.

(** The entry points of curve25519/: an [int] result and the output buffer. *)
Class Curve25519 : Type := {
  curve25519_donna : bytes -> bytes -> Z * bytes;   (** secret, base point *)
  curve25519_sign : bytes -> bytes -> bytes -> Z * bytes; (** key, message, random *)
  curve25519_verify : bytes -> bytes -> bytes -> Z  (** signature, key, message *)
}.

Definition basepoint : bytes := 9 :: replicate 31 0.

(** The arrays of the key structures have [DJB_KEY_LEN] octets. *)
Definition wf_public (k : ec_public_key) : Prop := length (ec_public_data k) = DJB_KEY_LEN.
Definition wf_private (k : ec_private_key) : Prop := length (ec_private_data k) = DJB_KEY_LEN.

Section Curve.
Context {U : Type} `{CP : CryptoProvider} `{CV : Curve25519}.

Definition curve_decode_point (key_data : bytes) : M U ec_public_key :=
  if (0 <? blen key_data) && negb (hd 0 key_data =? DJB_TYPE) then fail SG_ERR_INVALID_KEY
  else if negb (blen key_data =? Z.of_nat DJB_KEY_LEN + 1) then fail SG_ERR_INVALID_KEY
  else
    malloc ;;;
    ret (EcPublicKey (take DJB_KEY_LEN (drop 1 key_data))).

Definition curve_decode_private_point (key_data : bytes) : M U ec_private_key :=
  if negb (blen key_data =? Z.of_nat DJB_KEY_LEN) then fail SG_ERR_INVALID_KEY
  else
    malloc ;;;
    ret (EcPrivateKey (take DJB_KEY_LEN key_data)).

(** The 33 octets both serializers write. *)
Definition ec_public_key_bytes (key : ec_public_key) : bytes :=
  DJB_TYPE :: take DJB_KEY_LEN (ec_public_data key).

Definition ec_public_key_serialize (key : option ec_public_key) : M U bytes :=
  match key with
  | None => fail SG_ERR_INVAL
  | Some key =>
      alloc_or_nomem (Z.of_nat DJB_KEY_LEN + 1) ;;;
      ret (ec_public_key_bytes key)
  end.

Definition ec_public_key_serialize_protobuf (key : ec_public_key) : M U bytes :=
  malloc ;;; ret (ec_public_key_bytes key).

Definition ec_private_key_serialize (key : ec_private_key) : M U bytes :=
  alloc_or_nomem (Z.of_nat DJB_KEY_LEN) ;;;
  ret (take DJB_KEY_LEN (ec_private_data key)).

Definition ec_private_key_serialize_protobuf (key : ec_private_key) : M U bytes :=
  malloc ;;; ret (take DJB_KEY_LEN (ec_private_data key)).

Definition ec_key_pair_create (public_key : ec_public_key) (private_key : ec_private_key)
    : M U ec_key_pair :=
  malloc ;;; ret (EcKeyPair public_key private_key).

(** [data[0] &= 248; data[31] &= 127; data[31] |= 64;] *)
Definition clamp (data : bytes) : bytes :=
  alter (fun b => Z.lor b 64) 31%nat (alter (fun b => Z.land b 127) 31%nat
    (alter (fun b => Z.land b 248) 0%nat data)).

Definition curve_generate_private_key : M U ec_private_key :=
  malloc ;;;
  let* data := signal_crypto_random DJB_KEY_LEN in
  ret (EcPrivateKey (clamp data)).

Definition curve_generate_public_key (private_key : ec_private_key) : M U ec_public_key :=
  malloc ;;;
  match curve25519_donna (ec_private_data private_key) basepoint with
  | (result, data) =>
      if result =? 0 then ret (EcPublicKey data) else fail SG_ERR_UNKNOWN
  end.

Definition curve_generate_key_pair : M U ec_key_pair :=
  let* key_private := curve_generate_private_key in
  let* key_public := curve_generate_public_key key_private in
  ec_key_pair_create key_public key_private.

Definition curve_calculate_agreement (public_key : option ec_public_key)
    (private_key : option ec_private_key) : M U bytes :=
  match public_key, private_key with
  | Some public_key, Some private_key =>
      malloc ;;;
      match curve25519_donna (ec_private_data private_key) (ec_public_data public_key) with
      | (result, key) => if result =? 0 then ret key else fail SG_ERR_UNKNOWN
      end
  | _, _ => fail SG_ERR_INVALID_KEY
  end.

(** 1 for a good signature, 0 for a bad one. *)
Definition curve_verify_signature (signing_key : ec_public_key) (message_data signature_data : bytes)
    : M U Z :=
  if negb (blen signature_data =? Z.of_nat CURVE_SIGNATURE_LEN) then fail SG_ERR_INVAL
  else ret (if curve25519_verify signature_data (ec_public_data signing_key) message_data =? 0
            then 1 else 0).

Definition curve_calculate_signature (signing_key : ec_private_key) (message_data : bytes)
    : M U bytes :=
  let* random_data := signal_crypto_random CURVE_SIGNATURE_LEN in
  alloc_or_nomem (Z.of_nat CURVE_SIGNATURE_LEN) ;;;
  match curve25519_sign (ec_private_data signing_key) message_data random_data with
  | (result, signature) => if result <? 0 then fail result else ret signature
  end.
End Curve.

Definition ec_public_key_compare (key1 key2 : option ec_public_key) : Z :=
  compare_ptr (fun k1 k2 =>
    signal_constant_memcmp (ec_public_data k1) (ec_public_data k2) DJB_KEY_LEN) key1 key2.

Definition ec_public_key_memcmp (key1 key2 : option ec_public_key) : Z :=
  compare_ptr (fun k1 k2 =>
    memcmp (take DJB_KEY_LEN (ec_public_data k1)) (take DJB_KEY_LEN (ec_public_data k2)))
    key1 key2.

Definition ec_private_key_compare (key1 key2 : option ec_private_key) : Z :=
  compare_ptr (fun k1 k2 =>
    signal_constant_memcmp (ec_private_data k1) (ec_private_data k2) DJB_KEY_LEN) key1 key2.

(** What curve25519/ promises: scalar multiplication succeeds on 32-octet
    inputs and has a 32-octet result, Diffie-Hellman commutes, and a signature
    made with a key [curve_generate_private_key] may have made verifies under
    its public half.  Implementation.v proves it of the code. *)
Definition signing_key (k : bytes) : Prop := length k = DJB_KEY_LEN /\ clamp k = k.
(** The sizes computed from that of the message do not overflow. *)
Definition signable (m : bytes) : Prop := blen m + 128 < 2 ^ 64.

Class CurveLaws `{CV : Curve25519} : Prop := {
  donna_law : forall s p, length s = 32%nat -> length p = 32%nat ->
    exists r, curve25519_donna s p = (0, r) /\ length r = 32%nat;
  donna_comm_law : forall a b pa pb,
    curve25519_donna a basepoint = (0, pa) -> curve25519_donna b basepoint = (0, pb) ->
    curve25519_donna a pb = curve25519_donna b pa;
  sign_law : forall k m r, signing_key k -> signable m -> length r = 64%nat ->
    exists s, curve25519_sign k m r = (0, s) /\ length s = 64%nat;
  verify_law : forall k p m r s, signing_key k -> signable m -> length r = 64%nat ->
    curve25519_donna k basepoint = (0, p) ->
    curve25519_sign k m r = (0, s) -> curve25519_verify s p m = 0
}.

(** A key pair whose public half belongs to its private half. *)
Definition key_pair_matches `{Curve25519} (kp : ec_key_pair) : Prop :=
  wf_private (ec_key_pair_get_private kp) /\ wf_public (ec_key_pair_get_public kp) /\
  curve25519_donna (ec_private_data (ec_key_pair_get_private kp)) basepoint =
    (0, ec_public_data (ec_key_pair_get_public kp)).

(** A key pair that signs. *)
Definition signing_pair `{Curve25519} (kp : ec_key_pair) : Prop :=
  key_pair_matches kp /\ signing_key (ec_private_data (ec_key_pair_get_private kp)).

(** The shared secret both sides of an agreement compute. *)
Definition agree `{Curve25519} (k : ec_private_key) (p : ec_public_key) : bytes :=
  snd (curve25519_donna (ec_private_data k) (ec_public_data p)).

(** * Lemmas *)

Lemma length_basepoint : length basepoint = 32%nat.
Proof. done. Qed.

Lemma length_clamp data : length (clamp data) = length data.
Proof. unfold clamp. by rewrite !length_alter. Qed.

(** Clamping again changes nothing. *)
Lemma clamp_clamp data : clamp (clamp data) = clamp data.
Proof.
  unfold clamp. apply list_eq. intros i. rewrite !list_lookup_alter.
  repeat case_decide; subst; try done; destruct (data !! _) as [x|]; try done; cbn [fmap option_fmap option_map];
    f_equal; apply Z.bits_inj'; intros n Hn; rewrite ?Z.lor_spec, ?Z.land_spec, ?Z.lor_spec, ?Z.land_spec;
    repeat match goal with |- context [Z.testbit ?c n] => destruct (Z.testbit c n) end; done.
Qed.

Lemma signing_key_clamp data : length data = 32%nat -> signing_key (clamp data).
Proof. intros H. split; [by rewrite length_clamp|apply clamp_clamp]. Qed.

Lemma signing_key_wf k : signing_key (ec_private_data k) -> wf_private k.
Proof. by intros [H _]. Qed.

Lemma length_ec_public_key_bytes k : wf_public k -> length (ec_public_key_bytes k) = 33%nat.
Proof. unfold wf_public, ec_public_key_bytes. simpl. rewrite length_take. intros ->. done. Qed.

Lemma blen_ec_public_key_bytes k : wf_public k -> blen (ec_public_key_bytes k) = 33.
Proof. intros H. unfold blen. by rewrite length_ec_public_key_bytes. Qed.

Lemma blen_private_data k : blen (take DJB_KEY_LEN (ec_private_data k)) <= 32.
Proof. unfold blen. rewrite length_take. unfold DJB_KEY_LEN. lia. Qed.

Lemma ec_public_key_bytes_inj k1 k2 : wf_public k1 -> wf_public k2 ->
  ec_public_key_bytes k1 = ec_public_key_bytes k2 -> k1 = k2.
Proof.
  destruct k1 as [d1], k2 as [d2]. unfold wf_public, ec_public_key_bytes. simpl. intros H1 H2.
  rewrite !take_ge by (unfold DJB_KEY_LEN in *; lia). congruence.
Qed.

Lemma ec_public_key_compare_0 k1 k2 :
  (forall k, k1 = Some k -> wf_public k) -> (forall k, k2 = Some k -> wf_public k) ->
  ec_public_key_compare k1 k2 = 0 <-> k1 = k2.
Proof.
  unfold ec_public_key_compare, compare_ptr, wf_public.
  destruct k1 as [[d1]|], k2 as [[d2]|]; intros H1 H2; try done. simpl.
  specialize (H1 _ eq_refl). specialize (H2 _ eq_refl). simpl in *.
  rewrite signal_constant_memcmp_0 by done. split; [by intros ->|by intros [= ->]].
Qed.

Lemma ec_public_key_compare_refl k : ec_public_key_compare k k = 0.
Proof. destruct k; [apply signal_constant_memcmp_refl|done]. Qed.

(** The two sides of the comparison that picks Alice and Bob disagree unless
    the keys are equal. *)
Lemma ec_public_key_memcmp_antisym k1 k2 :
  ec_public_key_memcmp (Some k2) (Some k1) = - ec_public_key_memcmp (Some k1) (Some k2).
Proof. apply memcmp_antisym. Qed.

Section CurveRun.
Context {U : Type}.
Implicit Types w : world U.

Lemma curve_decode_point_ok k w : mem_ok w -> wf_public k ->
  curve_decode_point (ec_public_key_bytes k) w = (Ok k, w).
Proof.
  intros Hm Hk. unfold curve_decode_point, blen. rewrite length_ec_public_key_bytes by done.
  destruct k as [d]. unfold wf_public, ec_public_key_bytes in *. simpl in *.
  rewrite (take_ge d) by lia. erewrite bind_ok by by apply malloc_ok.
  unfold ret. by rewrite drop_0, take_ge by (rewrite Hk; done).
Qed.

Lemma curve_decode_private_point_ok k w : mem_ok w -> wf_private k ->
  curve_decode_private_point (take DJB_KEY_LEN (ec_private_data k)) w = (Ok k, w).
Proof.
  intros Hm Hk. unfold curve_decode_private_point, blen, wf_private in *.
  rewrite take_ge by lia. rewrite Hk. simpl. erewrite bind_ok by by apply malloc_ok.
  destruct k as [d]. simpl in *. by rewrite take_ge by lia.
Qed.

(** What [curve_decode_point] accepts, and nothing else. *)
Lemma curve_decode_point_inv data w k w' : curve_decode_point data w = (Ok k, w') ->
  wf_public k /\ data = ec_public_key_bytes k.
Proof.
  unfold curve_decode_point, blen. intros H.
  destruct data as [|t d]; [inversion H|].
  destruct (Z.eqb_spec t DJB_TYPE) as [->|Ht]; cycle 1.
  { simpl in H. rewrite (proj2 (Z.eqb_neq _ _)) in H by done. inversion H. }
  destruct (Z.eqb_spec (Z.of_nat (length (DJB_TYPE :: d))) (Z.of_nat DJB_KEY_LEN + 1)) as [E|E];
    simpl in H, E; [|inversion H].
  minv H. inversion H; subst. unfold wf_public, ec_public_key_bytes, DJB_KEY_LEN in *. simpl.
  rewrite drop_0, !(take_ge d) by lia. split; [lia|done].
Qed.

Lemma curve_decode_private_point_inv data w k w' :
  curve_decode_private_point data w = (Ok k, w') -> wf_private k /\ data = ec_private_data k.
Proof.
  unfold curve_decode_private_point, blen. intros H.
  destruct (Z.eqb_spec (Z.of_nat (length data)) (Z.of_nat DJB_KEY_LEN)); simpl in H; [|discriminate].
  minv H. inversion H; subst. unfold wf_private. simpl. rewrite take_ge by lia. split; [lia|done].
Qed.

Lemma ec_public_key_serialize_ok k w : mem_ok w ->
  ec_public_key_serialize (Some k) w = (Ok (ec_public_key_bytes k), w).
Proof.
  intros. simpl. by erewrite bind_ok by (apply alloc_or_nomem_ok; [done|unfold fits; done]).
Qed.

Lemma ec_public_key_serialize_protobuf_ok k w : mem_ok w ->
  ec_public_key_serialize_protobuf k w = (Ok (ec_public_key_bytes k), w).
Proof. intros. unfold ec_public_key_serialize_protobuf. by erewrite bind_ok by by apply malloc_ok. Qed.

Lemma ec_private_key_serialize_protobuf_ok k w : mem_ok w ->
  ec_private_key_serialize_protobuf k w = (Ok (take DJB_KEY_LEN (ec_private_data k)), w).
Proof. intros. unfold ec_private_key_serialize_protobuf. by erewrite bind_ok by by apply malloc_ok. Qed.

Lemma ec_key_pair_create_ok p k w : mem_ok w ->
  ec_key_pair_create p k w = (Ok (EcKeyPair p k), w).
Proof. intros. unfold ec_key_pair_create. by erewrite bind_ok by by apply malloc_ok. Qed.

(** The world after one more call of the random source. *)
Definition rng_step w : world U := World (w_mem w) (S (w_rng w)) (w_user w).

Lemma mem_ok_rng w : mem_ok w -> mem_ok (rng_step w).
Proof. done. Qed.

Context `{CL : CryptoLaws} `{VL : CurveLaws}.

Lemma curve_calculate_agreement_ok p k w : mem_ok w -> wf_public p -> wf_private k ->
  curve_calculate_agreement (Some p) (Some k) w = (Ok (agree k p), w) /\
  length (agree k p) = 32%nat.
Proof.
  intros Hm Hp Hk. unfold curve_calculate_agreement, agree.
  destruct (donna_law _ _ Hk Hp) as (r & E & Hr). rewrite E.
  by erewrite bind_ok by by apply malloc_ok.
Qed.

(** Diffie-Hellman: both ends of two matching key pairs agree. *)
Lemma agree_comm kp1 kp2 : key_pair_matches kp1 -> key_pair_matches kp2 ->
  agree (ec_key_pair_get_private kp1) (ec_key_pair_get_public kp2) =
  agree (ec_key_pair_get_private kp2) (ec_key_pair_get_public kp1).
Proof.
  intros (_ & _ & H1) (_ & _ & H2). unfold agree. f_equal. by apply donna_comm_law.
Qed.

Lemma curve_generate_key_pair_ok w : mem_ok w -> exists kp,
  curve_generate_key_pair w = (Ok kp, rng_step w) /\ key_pair_matches kp.
Proof.
  intros Hm. unfold curve_generate_key_pair, curve_generate_private_key.
  destruct (random_law (w_rng w) DJB_KEY_LEN) as (d & E & Hd).
  pose proof (length_clamp d) as Hc. rewrite Hd in Hc.
  destruct (donna_law _ _ Hc length_basepoint) as (r & Er & Hr).
  exists (EcKeyPair (EcPublicKey r) (EcPrivateKey (clamp d))). split; [|done].
  erewrite bind_ok; cycle 1.
  { erewrite bind_ok by by apply malloc_ok. erewrite bind_ok; [reflexivity|].
    unfold signal_crypto_random. rewrite E. reflexivity. }
  erewrite bind_ok; [by apply ec_key_pair_create_ok|].
  unfold curve_generate_public_key. erewrite bind_ok by by apply malloc_ok.
  simpl. by rewrite Er.
Qed.

(** A generated private key may sign. *)
Lemma curve_generate_key_pair_signing w kp w' : curve_generate_key_pair w = (Ok kp, w') ->
  signing_key (ec_private_data (ec_key_pair_get_private kp)).
Proof.
  unfold curve_generate_key_pair, curve_generate_private_key, curve_generate_public_key, ec_key_pair_create. intros H.
  minv H. minv H. minv H. unfold ret in H. injection H as <- _. cbn [ec_key_pair_get_private].
  minv H0. minv H0. unfold ret in H0. injection H0 as <- _. cbn [ec_private_data]. unfold signal_crypto_random in *.
  match goal with H : lift_callback (random_func ?n _) _ = _ |- _ =>
    destruct (random_law n DJB_KEY_LEN) as (d & E & Hd); rewrite E in H; injection H as <- _ end.
  by apply signing_key_clamp.
Qed.

Lemma curve_generate_signing_pair_ok w : mem_ok w -> exists kp,
  curve_generate_key_pair w = (Ok kp, rng_step w) /\ signing_pair kp.
Proof.
  intros Hm. destruct (curve_generate_key_pair_ok w Hm) as (kp & E & Hkp). exists kp. split; [done|]. split; [done|].
  by eapply curve_generate_key_pair_signing.
Qed.

Lemma curve_calculate_signature_ok k m w : mem_ok w -> signing_key (ec_private_data k) -> signable m -> exists s,
  curve_calculate_signature k m w = (Ok s, rng_step w) /\ length s = 64%nat /\
  forall p, curve25519_donna (ec_private_data k) basepoint = (0, ec_public_data p) ->
    forall w', curve_verify_signature p m s w' = (Ok 1, w').
Proof.
  intros Hm Hk Hs0. unfold curve_calculate_signature.
  destruct (random_law (w_rng w) CURVE_SIGNATURE_LEN) as (d & E & Hd).
  destruct (sign_law (ec_private_data k) m d Hk Hs0 Hd) as (s & Es & Hs). exists s.
  split; [|split; [done|]].
  - erewrite bind_ok; cycle 1.
    { unfold signal_crypto_random. rewrite E. reflexivity. }
    erewrite bind_ok by (apply alloc_or_nomem_ok; [done|by unfold fits]). by rewrite Es.
  - intros p Hp w'. unfold curve_verify_signature, blen. rewrite Hs. simpl.
    by rewrite (verify_law _ _ _ _ _ Hk Hs0 Hd Hp Es).
Qed.
End CurveRun.

Section CurveAlways.
Context {U : Type} `{CP : CryptoProvider} `{CV : Curve25519}.

Lemma frame_curve_decode_point d : frame (@curve_decode_point U d).
Proof. unfold curve_decode_point. frame_solve. Qed.
Lemma frame_curve_decode_private_point d : frame (@curve_decode_private_point U d).
Proof. unfold curve_decode_private_point. frame_solve. Qed.
Lemma frame_ec_public_key_serialize k : frame (@ec_public_key_serialize U k).
Proof. unfold ec_public_key_serialize. frame_solve. Qed.
Lemma frame_ec_public_key_serialize_protobuf k : frame (@ec_public_key_serialize_protobuf U k).
Proof. unfold ec_public_key_serialize_protobuf. frame_solve. Qed.
Lemma frame_ec_private_key_serialize_protobuf k : frame (@ec_private_key_serialize_protobuf U k).
Proof. unfold ec_private_key_serialize_protobuf. frame_solve. Qed.
Lemma frame_ec_key_pair_create p k : frame (@ec_key_pair_create U p k).
Proof. unfold ec_key_pair_create. frame_solve. Qed.
Lemma frame_curve_generate_key_pair : frame (@curve_generate_key_pair U CP CV).
Proof.
  unfold curve_generate_key_pair, curve_generate_private_key, curve_generate_public_key,
    ec_key_pair_create. frame_solve.
Qed.
Lemma frame_curve_calculate_agreement p k : frame (@curve_calculate_agreement U CV p k).
Proof. unfold curve_calculate_agreement. frame_solve. Qed.
Lemma frame_curve_verify_signature k m s : frame (@curve_verify_signature U CV k m s).
Proof. unfold curve_verify_signature. frame_solve. Qed.
Lemma frame_curve_calculate_signature k m : frame (@curve_calculate_signature U CP CV k m).
Proof. unfold curve_calculate_signature. frame_solve. Qed.
Lemma safe_curve_decode_point d : safe (@curve_decode_point U d).
Proof. unfold curve_decode_point. safe_solve. Qed.
Lemma safe_curve_decode_private_point d : safe (@curve_decode_private_point U d).
Proof. unfold curve_decode_private_point. safe_solve. Qed.
End CurveAlways.

#[export] Hint Resolve frame_curve_decode_point frame_curve_decode_private_point
  frame_ec_public_key_serialize frame_ec_public_key_serialize_protobuf
  frame_ec_private_key_serialize_protobuf frame_ec_key_pair_create
  frame_curve_generate_key_pair frame_curve_calculate_agreement
  frame_curve_verify_signature frame_curve_calculate_signature : frame_db.
#[export] Hint Resolve safe_curve_decode_point safe_curve_decode_private_point : safe_db.
