(* ===== verification/Sample.v ===== *)
(** A small concrete crypto provider and curve.  They are no cryptography: they
    are executable functions that satisfy [CryptoLaws] and [CurveLaws], so that
    the hypotheses of the theorems are seen to hold together and the model can
    be evaluated on concrete inputs. *)
From stdpp Require Import base list.
From Stdlib Require Import ZArith Lia.
From S2P Require Import Prelude Buffers Curve.
#[local] Open Scope Z_scope.

(** A checksum of a list of octets, spread over [n] octets. *)
Definition checksum (d : bytes) : Z :=
  fold_left (fun acc b => (acc * 131 + b + 7) mod 16777213) d 5381.
Definition spread (n : nat) (h : Z) : bytes :=
  map (fun i => (h / 3 + (h mod 65521) * (Z.of_nat i + 1)) mod 251) (seq 0 n).
Definition sample_hash (n : nat) (k d : bytes) : bytes :=
  spread n (checksum (k ++ 256 :: d)).

Definition xor_with (k : bytes) (d : bytes) : bytes := map (fun b => Z.lxor b (hd 0 k)) d.

#[global] Instance sample_provider : CryptoProvider := {|
  random_func n len := inl (map (fun i => (Z.of_nat n * 37 + Z.of_nat i * 11 + 3) mod 256) (seq 0 len));
  hmac_context := (bytes * bytes)%type;
  hmac_sha256_init_func key := inl (key, []);
  hmac_sha256_update_func c d := inl (fst c, snd c ++ d);
  hmac_sha256_final_func c := inl (sample_hash 32 (fst c) (snd c));
  sha512_digest_func d := inl (sample_hash 64 [] d);
  encrypt_func _ key iv p := inl (xor_with key p);
  decrypt_func _ key iv c := inl (xor_with key c)
|}.

Lemma length_spread n h : length (spread n h) = n.
Proof. unfold spread. by rewrite length_map, length_seq. Qed.

Lemma xor_with_involutive k d : xor_with k (xor_with k d) = d.
Proof.
  unfold xor_with. rewrite map_map. rewrite <- (map_id d) at 2. apply map_ext. intros b.
  by rewrite Z.lxor_assoc, Z.lxor_nilpotent, Z.lxor_0_r.
Qed.

#[global] Instance sample_laws : CryptoLaws (CP := sample_provider).
Proof.
  refine {| hmac_spec := sample_hash 32; sha512_spec := sample_hash 64 [];
            hmac_represents := fun c key d => c = (key, d) |}; simpl.
  - intros key. by exists (key, []).
  - intros c key d data ->. by exists (key, d ++ data).
  - by intros c key d ->.
  - intros. done.
  - done.
  - intros. done.
  - intros n len. eexists. split; [done|]. by rewrite length_map, length_seq.
  - intros mode key iv p _ _. eexists. split; [done|]. by rewrite xor_with_involutive.
Defined.

(** The group: multiplication modulo 251 in every octet. *)
Definition scale (k : Z) (p : bytes) : bytes := map (fun x => (x * k) mod 251) p.
Definition scalar (s : bytes) : Z := 1 + checksum s mod 250.
Definition sample_donna (s p : bytes) : Z * bytes := (0, scale (scalar s) p).

#[global] Instance sample_curve : Curve25519 := {|
  curve25519_donna := sample_donna;
  curve25519_sign k m r := (0, sample_hash 64 (snd (sample_donna k basepoint)) m);
  curve25519_verify s p m := memcmp s (sample_hash 64 p m)
|}.

Lemma scale_comm j k p : scale j (scale k p) = scale k (scale j p).
Proof.
  unfold scale. rewrite !map_map. apply map_ext. intros x.
  rewrite !Zmult_mod_idemp_l. f_equal. lia.
Qed.

#[global] Instance sample_curve_laws : CurveLaws (CV := sample_curve).
Proof.
  split.
  - intros s p _ Hp. eexists. split; [reflexivity|]. unfold scale. by rewrite length_map.
  - intros a b pa pb. cbn [curve25519_donna sample_curve]. unfold sample_donna.
    intros Ea Eb. apply (f_equal snd) in Ea, Eb. cbn [snd] in Ea, Eb. subst.
    by rewrite scale_comm.
  - intros k m r _ _ _. eexists. split; [reflexivity|]. apply length_spread.
  - intros k p m r s _ _ _. cbn [curve25519_donna curve25519_sign curve25519_verify sample_curve].
    unfold sample_donna. cbn [snd]. intros Ep Es. apply (f_equal snd) in Ep, Es.
    cbn [snd] in Ep, Es. subst. apply memcmp_refl.
Qed.

(** A world in which no allocation fails. *)
Definition fresh_world {U} (u : U) : world U := World [] 0 u.
