(* ===== verification/Vpool.v ===== *)
(** vpool.c: the variable-length memory pool in which the ratchet collects the
    agreements of the handshake.  The state keeps the allocated block, the
    offset of [v_buf] in it, and the sizes; [contents] is the abstract value,
    the octets from [v_buf], and the lemmas show that the operations are the
    list operations on it. *)
From stdpp Require Import base list.
From Stdlib Require Import ZArith Lia.
From S2P Require Import Prelude.
#[local] Open Scope Z_scope.
#[local] Open Scope signal_scope.

Definition EFBIG : Z := 27.
Definition ENOMEM : Z := 12.
Definition ERANGE : Z := 34.

(** [v_base] is the block at [v_basebuf] ([[]] when null), [v_start] is
    [v_buf - v_basebuf]. *)
Record vpool : Type := Vpool {
  v_base : bytes;
  v_start : Z;
  v_off : Z;
  v_size : Z;
  v_blksize : Z;
  v_limit : Z;
  v_lasterr : Z
}.

Inductive vpool_trunc : Type := VPOOL_EXCLUDE | VPOOL_INCLUDE.

(** [memcpy]/[memmove] of [data] to offset [at_] of a block. *)
Definition write_at (base : bytes) (at_ : Z) (data : bytes) : bytes :=
  take (Z.to_nat at_) base ++ data ++ drop (Z.to_nat at_ + length data) base.
Definition read_at (base : bytes) (at_ n : Z) : bytes :=
  take (Z.to_nat n) (drop (Z.to_nat at_) base).

(** The value of a pool. *)
Definition contents (p : vpool) : bytes := read_at (v_base p) (v_start p) (v_off p).

Definition vpool_get_length (p : vpool) : Z := v_off p.
Definition vpool_is_empty (p : vpool) : bool := v_off p =? 0.
Definition vpool_get_buf (p : vpool) : bytes := contents p.

Definition vpool_init (blksize limit : Z) : vpool :=
  Vpool [] 0 0 0 (if blksize =? 0 then 4096 else blksize)
    (if limit =? 0 then SIZE_MAX else limit) 0.

Definition vpool_reset (p : vpool) : vpool :=
  Vpool [] 0 0 0 (v_blksize p) (v_limit p) 0.

Definition vpool_wipe (p : vpool) : vpool :=
  Vpool (v_base p) (v_start p) 0 (v_size p) (v_blksize p) (v_limit p) 0.

Definition vpool_shift (p : vpool) : vpool :=
  if v_start p =? 0 then p
  else Vpool (write_at (v_base p) 0 (contents p)) 0 (v_off p) (v_size p)
         (v_blksize p) (v_limit p) (v_lasterr p).

(** The new size, or the [errno]; all arithmetic is on [size_t]. *)
Definition vpool_new_size (p : vpool) (datsize : Z) : Z + Z :=
  if datsize <=? size_t (v_size p - v_off p) then inl (v_size p)
  else if size_t (v_limit p - v_off p) <? datsize then inr EFBIG
  else
    let need := size_t (v_off p + datsize) in
    let rem := need mod v_blksize p in
    if rem =? 0 then inl need
    else if size_t (datsize + (v_blksize p - rem)) <=? size_t (v_limit p - v_off p)
         then inl (size_t (need + (v_blksize p - rem)))
         else inl (v_limit p).

Definition set_lasterr (p : vpool) (e : Z) : vpool :=
  Vpool (v_base p) (v_start p) (v_off p) (v_size p) (v_blksize p) (v_limit p) e.

Section Ops.
Context {U : Type}.

(** The octets of a fresh block are unspecified; the model fills it with 0. *)
Definition vpool_resize (p : vpool) (datsize : Z) : M U (vpool + Z) :=
  match vpool_new_size p datsize with
  | inr error => ret (inr error)
  | inl size =>
      if v_size p <? size then
        let* b := try_malloc in
        ret (if b then
               inl (Vpool (write_at (replicate (Z.to_nat size) 0) 0 (contents p)) 0
                      (v_off p) size (v_blksize p) (v_limit p) (v_lasterr p))
             else inr ENOMEM)
      else if size_t (size_t (v_size p - v_off p) - v_start p) <? datsize
           then ret (inl (vpool_shift p))
           else ret (inl p)
  end.

(** The result is the pool and whether a non-null pointer is returned. *)
Definition vpool_insert (p : vpool) (where_ : Z) (data : bytes) : M U (vpool * bool) :=
  let datsize := blen data in
  let* r := vpool_resize p datsize in
  match r with
  | inr error => ret (set_lasterr p error, false)
  | inl p =>
      let where_ := if v_off p <? where_ then v_off p else where_ in
      let at_ := v_start p + where_ in
      let base := if 0 <? v_off p - where_
                  then write_at (v_base p) (at_ + datsize)
                         (read_at (v_base p) at_ (v_off p - where_))
                  else v_base p in
      ret (Vpool (write_at base at_ data) (v_start p) (v_off p + datsize) (v_size p)
             (v_blksize p) (v_limit p) 0, true)
  end.

Definition vpool_expand (p : vpool) (where_ size : Z) : M U (vpool * bool) :=
  let* r := vpool_resize p size in
  match r with
  | inr error => ret (set_lasterr p error, false)
  | inl p =>
      let where_ := if v_off p <? where_ then v_off p else where_ in
      let at_ := v_start p + where_ in
      let base := if 0 <? v_off p - where_
                  then write_at (v_base p) (at_ + size)
                         (read_at (v_base p) at_ (v_off p - where_))
                  else v_base p in
      ret (Vpool base (v_start p) (v_off p + size) (v_size p) (v_blksize p) (v_limit p) 0, true)
  end.
End Ops.

Definition vpool_truncate (p : vpool) (where_ size : Z) (how : vpool_trunc) : vpool * Z :=
  if (v_off p <=? where_) || (v_off p <? size) || (v_off p - size <? where_)
  then (set_lasterr p ERANGE, ERANGE)
  else
    match how with
    | VPOOL_EXCLUDE =>
        if where_ =? 0 then
          (Vpool (v_base p) (v_start p + size) (v_off p - size) (v_size p)
             (v_blksize p) (v_limit p) 0, 0)
        else
          (Vpool (write_at (v_base p) (v_start p + where_)
                    (read_at (v_base p) (v_start p + where_ + size) (v_off p - size - where_)))
             (v_start p) (v_off p - size) (v_size p) (v_blksize p) (v_limit p) 0, 0)
    | VPOOL_INCLUDE =>
        (Vpool (v_base p) (v_start p + where_) size (v_size p) (v_blksize p) (v_limit p) 0, 0)
    end.

(** The exported buffer, its size, and the emptied pool. *)
Definition vpool_export (p : vpool) : bytes * Z * vpool :=
  let p := vpool_shift p in
  (contents p, v_off p, Vpool [] 0 0 0 (v_blksize p) (v_limit p) 0).

(** * Invariant *)

Record wf (p : vpool) : Prop := Wf {
  wf_len : Z.of_nat (length (v_base p)) = v_size p;
  wf_start : 0 <= v_start p;
  wf_off : 0 <= v_off p;
  wf_fit : v_start p + v_off p <= v_size p;
  wf_size : v_size p <= v_limit p;
  wf_limit : v_limit p <= SIZE_MAX;
  wf_blk : 0 < v_blksize p
}.

(** ** Blocks of memory *)

Lemma write_at_app (a b c d : bytes) at_ : Z.to_nat at_ = length a -> length b = length d ->
  write_at (a ++ b ++ c) at_ d = a ++ d ++ c.
Proof.
  intros Ha Hb. unfold write_at. rewrite Ha, take_app_length. f_equal. f_equal.
  rewrite <- Hb. rewrite app_assoc, <- length_app. apply drop_app_length.
Qed.

Lemma read_at_mid (a b c : bytes) at_ n : Z.to_nat at_ = length a -> Z.to_nat n = length b ->
  read_at (a ++ b ++ c) at_ n = b.
Proof.
  intros Ha Hb. unfold read_at. rewrite Ha, Hb, drop_app_length. apply take_app_length.
Qed.

Lemma read_at_mid' (pre c1 c2 c3 post : bytes) start wh sz off :
  start = blen pre -> wh = blen c1 -> sz = blen c2 -> off = blen c1 + blen c2 + blen c3 ->
  read_at (pre ++ (c1 ++ c2 ++ c3) ++ post) (start + wh + sz) (off - sz - wh) = c3.
Proof.
  intros -> -> -> ->.
  replace (pre ++ (c1 ++ c2 ++ c3) ++ post) with ((pre ++ c1 ++ c2) ++ c3 ++ post)
    by by rewrite <- !app_assoc.
  apply read_at_mid; unfold blen; rewrite ?length_app; lia.
Qed.

(** Cut a list at a length it reaches. *)
Lemma split_at (l : bytes) n : (n <= length l)%nat ->
  exists x y, l = x ++ y /\ length x = n.
Proof.
  intros H. exists (take n l), (drop n l). rewrite take_drop, length_take. split; [done|lia].
Qed.

(** The block around the contents of a pool. *)
Lemma wf_split p : wf p -> exists pre post,
  v_base p = pre ++ contents p ++ post /\ Z.of_nat (length pre) = v_start p /\
  blen (contents p) = v_off p.
Proof.
  intros [Hl Hs Ho Hf _ _ _].
  destruct (split_at (v_base p) (Z.to_nat (v_start p))) as (pre & r & E & Hp); [lia|].
  assert (length r = (length (v_base p) - length pre)%nat) as Hr by (rewrite E, length_app; lia).
  destruct (split_at r (Z.to_nat (v_off p))) as (c & post & -> & Hc); [lia|].
  assert (contents p = c) as -> by (unfold contents; rewrite E; by apply read_at_mid).
  exists pre, post. unfold blen. repeat split; [done|lia|lia].
Qed.

(** A pool whose block is [pre ++ c ++ post] with the matching fields. *)
Lemma wf_intro pre c post start off size blk lim err :
  start = blen pre -> off = blen c -> size = blen (pre ++ c ++ post) ->
  size <= lim <= SIZE_MAX -> 0 < blk ->
  wf (Vpool (pre ++ c ++ post) start off size blk lim err) /\
  contents (Vpool (pre ++ c ++ post) start off size blk lim err) = c.
Proof.
  intros -> -> -> Hl Hb. split.
  - split; unfold blen in *; simpl; rewrite ?length_app in *; lia.
  - unfold contents. simpl. apply read_at_mid; unfold blen; lia.
Qed.

(** ** Operations *)

Lemma wf_init blk lim : 0 <= blk -> 0 <= lim <= SIZE_MAX ->
  wf (vpool_init blk lim) /\ contents (vpool_init blk lim) = [].
Proof.
  intros Hb Hl. unfold vpool_init. split; [|done].
  split; simpl; destruct (Z.eqb_spec blk 0), (Z.eqb_spec lim 0); unfold SIZE_MAX in *; lia.
Qed.

Lemma contents_wipe p : contents (vpool_wipe p) = [].
Proof. done. Qed.

Lemma size_t_small z : 0 <= z <= SIZE_MAX -> size_t z = z.
Proof. intros H. unfold size_t. apply Z.mod_small. lia. Qed.

Lemma vpool_shift_ok p : wf p ->
  wf (vpool_shift p) /\ contents (vpool_shift p) = contents p /\ v_start (vpool_shift p) = 0 /\
  v_off (vpool_shift p) = v_off p /\ v_size (vpool_shift p) = v_size p.
Proof.
  intros H. destruct (wf_split p H) as (pre & post & E & Hp & Hc).
  unfold vpool_shift. destruct (Z.eqb_spec (v_start p) 0) as [Hz|Hz]; [done|].
  assert (exists r, write_at (v_base p) 0 (contents p) = contents p ++ r /\
    length (contents p ++ r) = length (v_base p)) as (r & Ew & Hr).
  { unfold write_at. eexists. split; [reflexivity|].
    rewrite length_app, length_drop, E, !length_app. simpl. lia. }
  rewrite Ew. destruct H as [H1 H2 H3 H4 H5 H6 H7].
  edestruct (wf_intro [] (contents p) r 0 (v_off p) (v_size p) (v_blksize p) (v_limit p)
    (v_lasterr p)) as [Hw Hcont]; [done|done|unfold blen; simpl; lia|done|done|].
  split; [exact Hw|]. split; [exact Hcont|done].
Qed.

(** The size the pool grows to holds the data, keeps below the limit, and does
    not wrap around. *)
Lemma vpool_new_size_ok p datsize : wf p -> 0 <= datsize ->
  v_off p + datsize <= v_limit p -> v_off p + datsize + v_blksize p <= SIZE_MAX ->
  exists size, vpool_new_size p datsize = inl size /\
    v_off p + datsize <= size <= v_limit p.
Proof.
  intros [Hl Hs Ho Hf Hz Hlim Hb] Hd Hfit Hmax. unfold vpool_new_size.
  rewrite !(size_t_small (v_size p - v_off p)), !(size_t_small (v_limit p - v_off p)),
    !(size_t_small (v_off p + datsize)) by lia.
  destruct (Z.leb_spec datsize (v_size p - v_off p)); [eexists; split; [done|lia]|].
  destruct (Z.ltb_spec (v_limit p - v_off p) datsize); [lia|].
  set (need := v_off p + datsize).
  pose proof (Z.mod_pos_bound need (v_blksize p) Hb).
  destruct (Z.eqb_spec (need mod v_blksize p) 0); [eexists; split; [done|lia]|].
  rewrite (size_t_small (datsize + _)), (size_t_small (need + _)) by lia.
  destruct (Z.leb_spec (datsize + (v_blksize p - need mod v_blksize p)) (v_limit p - v_off p));
    eexists; (split; [done|lia]).
Qed.

Section Run.
Context {U : Type}.
Implicit Types w : world U.

Lemma vpool_resize_ok p datsize w : wf p -> mem_ok w -> 0 <= datsize ->
  v_off p + datsize <= v_limit p -> v_off p + datsize + v_blksize p <= SIZE_MAX ->
  exists p', vpool_resize p datsize w = (Ok (inl p'), w) /\ wf p' /\
    contents p' = contents p /\ v_off p' = v_off p /\ v_start p' + v_off p' + datsize <= v_size p' /\
    v_limit p' = v_limit p /\ v_blksize p' = v_blksize p.
Proof.
  intros H Hm Hd Hfit Hmax. pose proof H as [Hl Hs Ho Hf Hz Hlim Hb].
  destruct (vpool_new_size_ok p datsize H Hd Hfit Hmax) as (size & E & Hsize).
  unfold vpool_resize. rewrite E. destruct (Z.ltb_spec (v_size p) size) as [Hlt|Hge].
  - erewrite bind_ok by by apply try_malloc_ok. eexists. split; [reflexivity|].
    destruct (wf_split p H) as (pre & post & Eb & Hp & Hc). unfold write_at. simpl.
    set (post' := drop _ _).
    assert (blen (contents p ++ post') = size) as Hsz.
    { subst post'. unfold blen in *. rewrite length_app, length_drop, length_replicate. lia. }
    edestruct (wf_intro [] (contents p) post' 0 (v_off p) size (v_blksize p) (v_limit p)
      (v_lasterr p)) as [Hw Hcont]; [done|lia|simpl; lia|lia|done|].
    simpl in *. split; [exact Hw|]. split; [exact Hcont|]. repeat split; lia.
  - rewrite (size_t_small (v_size p - v_off p)) by lia.
    rewrite (size_t_small (v_size p - v_off p - v_start p)) by lia.
    destruct (vpool_shift_ok p H) as (Hw & Hc & H0 & Ho' & Hs').
    destruct (Z.ltb_spec (v_size p - v_off p - v_start p) datsize).
    + eexists. split; [reflexivity|]. split; [done|]. split; [done|]. split; [done|].
      split; [lia|]. unfold vpool_shift. by destruct (v_start p =? 0).
    + exists p. repeat split; try done; lia.
Qed.

(** The memory moves of [vpool_insert] on a block with enough room. *)
Lemma insert_block (pre c1 c2 post data : bytes) at_ :
  Z.to_nat at_ = length (pre ++ c1) -> 0 <= at_ -> (length data <= length post)%nat ->
  exists post', length post' = (length post - length data)%nat /\
    write_at (write_at (pre ++ (c1 ++ c2) ++ post) (at_ + blen data) c2) at_ data =
    pre ++ (c1 ++ data ++ c2) ++ post'.
Proof.
  intros Ha H0 Hp.
  destruct (split_at (c2 ++ post) (length data)) as (x & y & E & Hx).
  { rewrite length_app. lia. }
  assert (length y = (length c2 + length post - length data)%nat) as Hy.
  { pose proof (f_equal length E) as El. rewrite !length_app in El. lia. }
  destruct (split_at y (length c2)) as (y1 & post' & -> & Hy1); [lia|].
  exists post'. split; [rewrite length_app in Hy; lia|].
  replace (pre ++ (c1 ++ c2) ++ post) with ((pre ++ c1 ++ x) ++ y1 ++ post')
    by (rewrite <- !app_assoc, E; done).
  rewrite write_at_app; [|unfold blen; rewrite !length_app in *; lia|done].
  replace ((pre ++ c1 ++ x) ++ c2 ++ post') with ((pre ++ c1) ++ x ++ (c2 ++ post'))
    by (rewrite <- !app_assoc; done).
  rewrite write_at_app; [|done|done]. by rewrite <- !app_assoc.
Qed.

(** [vpool_insert] is insertion into the contents, at the end when the
    position lies beyond it. *)
Lemma vpool_insert_run p where_ data w : wf p -> mem_ok w -> 0 <= where_ ->
  v_off p + blen data <= v_limit p -> v_off p + blen data + v_blksize p <= SIZE_MAX ->
  exists p', vpool_insert p where_ data w = (Ok (p', true), w) /\ wf p' /\
    contents p' = take (Z.to_nat where_) (contents p) ++ data ++ drop (Z.to_nat where_) (contents p) /\
    v_off p' = v_off p + blen data /\ v_limit p' = v_limit p /\ v_blksize p' = v_blksize p.
Proof.
  intros H Hm Hw Hfit Hmax.
  destruct (vpool_resize_ok p (blen data) w H Hm) as
    (q & E & Hq & Hc & Ho & Hroom & Hlim & Hblk); [unfold blen; lia|done|done|].
  unfold vpool_insert. erewrite bind_ok by exact E. cbv beta iota zeta. rewrite Ho.
  destruct (wf_split q Hq) as (pre & post & Eb & Hp & Hcl). rewrite Hc in Eb, Hcl.
  set (wh := if v_off p <? where_ then v_off p else where_).
  set (c := contents p) in *. rewrite Ho in Hcl.
  assert (0 <= wh <= v_off p) as Hwh by (subst wh; destruct H; destruct (Z.ltb_spec (v_off p) where_); lia).
  assert (take (Z.to_nat wh) c = take (Z.to_nat where_) c /\
          drop (Z.to_nat wh) c = drop (Z.to_nat where_) c) as [Et Ed].
  { subst wh. unfold blen in Hcl. destruct (Z.ltb_spec (v_off p) where_); [|done].
    rewrite !take_ge, !drop_ge by lia. done. }
  rewrite <- Et, <- Ed. clear Et Ed.
  set (c1 := take (Z.to_nat wh) c). set (c2 := drop (Z.to_nat wh) c).
  assert (c = c1 ++ c2) as Ec by (subst c1 c2; by rewrite take_drop).
  assert (blen c1 = wh) as Hc1.
  { subst c1. unfold blen in *. rewrite length_take. lia. }
  assert (blen c2 = v_off p - wh) as Hc2.
  { subst c2. unfold blen in *. rewrite length_drop. lia. }
  pose proof (wf_len q Hq) as Hlen. rewrite Eb, Ec, !length_app in Hlen.
  destruct (insert_block pre c1 c2 post data (v_start q + wh)) as (post' & Hpost & Ew);
    [rewrite length_app; unfold blen in *; lia|lia|unfold blen in *; lia|].
  assert (write_at (if 0 <? v_off p - wh
     then write_at (v_base q) (v_start q + wh + blen data)
            (read_at (v_base q) (v_start q + wh) (v_off p - wh))
     else v_base q) (v_start q + wh) data = pre ++ (c1 ++ data ++ c2) ++ post') as ->.
  { assert (read_at (v_base q) (v_start q + wh) (v_off p - wh) = c2) as Er.
    { rewrite Eb, Ec. rewrite <- (app_assoc c1), (app_assoc pre).
      apply read_at_mid; rewrite ?length_app; unfold blen in *; lia. }
    rewrite Er. rewrite <- Ew, <- Ec, <- Eb.
    destruct (Z.ltb_spec 0 (v_off p - wh)) as [|Hz]; [done|].
    assert (c2 = []) as -> by (destruct c2; [done|unfold blen in *; simpl in *; lia]).
    f_equal. unfold write_at. simpl. rewrite Nat.add_0_r, take_drop. done. }
  eexists. split; [reflexivity|].
  edestruct (wf_intro pre (c1 ++ data ++ c2) post' (v_start q) (v_off p + blen data) (v_size q)
    (v_blksize q) (v_limit q) 0) as [Hw' Hc']; try exact (wf_blk q Hq).
  - unfold blen. lia.
  - unfold blen in *. rewrite !length_app. lia.
  - unfold blen in *. rewrite !length_app. lia.
  - split; [apply (wf_size q Hq)|apply (wf_limit q Hq)].
  - split; [exact Hw'|]. split; [exact Hc'|done].
Qed.

(** Failure leaves the contents alone and records the error. *)
Lemma vpool_insert_fail p where_ data w p' w' :
  vpool_insert p where_ data w = (Ok (p', false), w') -> p' = set_lasterr p (v_lasterr p').
Proof.
  unfold vpool_insert. intros H. minv H. destruct a as [q|e]; inversion H; subst. done.
Qed.

Lemma frame_vpool_insert p where_ data : frame (@vpool_insert U p where_ data).
Proof. unfold vpool_insert, vpool_resize. frame_solve. Qed.
Lemma safe_vpool_insert p where_ data : safe (@vpool_insert U p where_ data).
Proof. unfold vpool_insert, vpool_resize. safe_solve. Qed.
End Run.
#[export] Hint Resolve frame_vpool_insert : frame_db.
#[export] Hint Resolve safe_vpool_insert : safe_db.

(** [vpool_truncate] removes, or keeps, the range it is given; a range that
    does not lie in the contents is refused. *)
Lemma vpool_truncate_run p where_ size how : wf p -> 0 <= where_ -> 0 <= size ->
  where_ < v_off p -> where_ + size <= v_off p ->
  let '(p', r) := vpool_truncate p where_ size how in
  r = 0 /\ wf p' /\
  contents p' = match how with
    | VPOOL_EXCLUDE => take (Z.to_nat where_) (contents p) ++
                       drop (Z.to_nat where_ + Z.to_nat size) (contents p)
    | VPOOL_INCLUDE => take (Z.to_nat size) (drop (Z.to_nat where_) (contents p))
    end.
Proof.
  intros H Hw Hs Hlt Hle. pose proof H as [H1 H2 H3 H4 H5 H6 H7].
  destruct (wf_split p H) as (pre & post & E & Hp & Hc). set (c := contents p) in *.
  unfold vpool_truncate. rewrite (proj2 (Z.leb_gt _ _)), !(proj2 (Z.ltb_ge _ _)) by lia. simpl.
  destruct (split_at c (Z.to_nat where_)) as (c1 & r & Ec & Hc1); [unfold blen in *; lia|].
  assert (length r = (length c - length c1)%nat) as Hr by (rewrite Ec, length_app; lia).
  destruct (split_at r (Z.to_nat size)) as (c2 & c3 & -> & Hc2); [unfold blen in *; lia|].
  assert (drop (Z.to_nat where_) c = c2 ++ c3) as Ed by (rewrite Ec, <- Hc1; apply drop_app_length).
  unfold blen in *. rewrite Ec, !length_app in Hc.
  rewrite E, Ec, !length_app in H1.
  destruct how.
  - assert (take (Z.to_nat where_) c ++ drop (Z.to_nat where_ + Z.to_nat size) c = c1 ++ c3) as ->.
    { rewrite <- drop_drop, Ed, <- Hc2, drop_app_length, Ec, <- Hc1, take_app_length. done. }
    destruct (Z.eqb_spec where_ 0) as [->|].
    + assert (c1 = []) as -> by (destruct c1; done). simpl in *. split; [done|]. rewrite E, Ec.
      replace (pre ++ (c2 ++ c3) ++ post) with ((pre ++ c2) ++ c3 ++ post) by by rewrite <- !app_assoc.
      apply wf_intro; unfold blen; rewrite ?length_app; lia.
    + split; [done|]. rewrite E, Ec.
      rewrite (read_at_mid' pre c1 c2 c3 post) by (unfold blen; lia).
      set (tl := drop (length c3) (c2 ++ c3 ++ post)).
      assert (write_at (pre ++ (c1 ++ c2 ++ c3) ++ post) (v_start p + where_) c3 =
              pre ++ (c1 ++ c3) ++ tl) as ->.
      { unfold write_at. replace (pre ++ (c1 ++ c2 ++ c3) ++ post) with
          ((pre ++ c1) ++ (c2 ++ c3 ++ post)) by by rewrite <- !app_assoc.
        replace (Z.to_nat (v_start p + where_)) with (length (pre ++ c1)) by (rewrite length_app; lia).
        rewrite take_app_length, <- drop_drop, drop_app_length. fold tl. by rewrite <- !app_assoc. }
      apply wf_intro; unfold blen, tl; rewrite ?length_app, ?length_drop, ?length_app; lia.
  - split; [done|]. rewrite Ed, <- Hc2, take_app_length, E, Ec.
    replace (pre ++ (c1 ++ c2 ++ c3) ++ post) with ((pre ++ c1) ++ c2 ++ (c3 ++ post))
      by by rewrite <- !app_assoc.
    apply wf_intro; unfold blen; rewrite ?length_app; lia.
Qed.
