(* ===== verification/Protobuf.v ===== *)
(** protobuf-c/protobuf-c.c: the wire format in which the library stores and
    sends its records, as far as the generated descriptors of *.pb-c.c use it:
    optional and repeated fields of type uint32, int32, bool, fixed64, bytes
    and message.

    A message is the list of its slots, one per field of the descriptor: an
    optional field has at most one value, a repeated one any number.  [pack],
    [get_packed_size] and [unpack] follow the C functions; [unpack_pack] is
    the round trip.  Unknown fields are skipped, a scalar given twice keeps the
    last value, a message given twice is merged. *)
From stdpp Require Import base list.
From Stdlib Require Import ZArith Lia.
From S2P Require Import Prelude.
#[local] Open Scope Z_scope.

(** A field type; [TMsg] has the sub-message's fields: number, whether the
    field is repeated, and its type. *)
Inductive ptype : Type :=
| TUint32
| TInt32
| TBool
| TFixed64
| TBytes
| TMsg (fields : list (Z * bool * ptype)).

Abbreviation field := (Z * bool * ptype)%type.

Inductive pval : Type :=
| VInt (z : Z)
| VBytes (b : bytes)
| VMsg (slots : list (list pval)).

Abbreviation slots := (list (list pval)).

Definition WIRE_VARINT : Z := 0.
Definition WIRE_64BIT : Z := 1.
Definition WIRE_LENGTH_PREFIXED : Z := 2.
Definition WIRE_32BIT : Z := 5.

Definition wire_type (t : ptype) : Z :=
  match t with
  | TUint32 | TInt32 | TBool => WIRE_VARINT
  | TFixed64 => WIRE_64BIT
  | TBytes | TMsg _ => WIRE_LENGTH_PREFIXED
  end.

(** * Packing *)

(** [n] continuation octets at most, then the last octet. *)
Fixpoint varint_pack (n : nat) (value : Z) : bytes :=
  match n with
  | O => [u8 value]
  | S n' => if 128 <=? value
            then u8 (Z.lor value 128) :: varint_pack n' (Z.shiftr value 7)
            else [u8 value]
  end.

Definition uint32_pack (value : Z) : bytes := varint_pack 4 value.

Definition int32_pack (value : Z) : bytes :=
  if value <? 0 then
    map (fun s => u8 (Z.lor (Z.shiftr value s) 128)) [0; 7; 14; 21; 28] ++
    [255; 255; 255; 255; 1]
  else uint32_pack value.

Definition boolean_pack (value : Z) : bytes := [if value =? 0 then 0 else 1].

Definition fixed64_pack (value : Z) : bytes :=
  map (fun i => u8 (Z.shiftr value (8 * i))) [0; 1; 2; 3; 4; 5; 6; 7].

Definition binary_data_pack (b : bytes) : bytes := uint32_pack (u32 (blen b)) ++ b.

(** The tag with the wire type or-ed into its first octet. *)
Definition tag_pack (id wire : Z) : bytes :=
  match uint32_pack (u32 (Z.shiftl id 3)) with
  | o :: r => Z.lor o wire :: r
  | [] => []
  end.

(** The fields of a message in the order of the descriptor. *)
Fixpoint fields_pack (pv : ptype -> pval -> bytes) (fs : list field) (ss : slots) : bytes :=
  match fs, ss with
  | (id, _, t) :: fs', s :: ss' =>
      concat (map (fun v => tag_pack id (wire_type t) ++ pv t v) s) ++ fields_pack pv fs' ss'
  | _, _ => []
  end.

(** A field's value after its tag. *)
Fixpoint value_pack (t : ptype) (v : pval) {struct t} : bytes :=
  match t, v with
  | TUint32, VInt z => uint32_pack (u32 z)
  | TInt32, VInt z => int32_pack z
  | TBool, VInt z => boolean_pack z
  | TFixed64, VInt z => fixed64_pack z
  | TBytes, VBytes b => binary_data_pack b
  | TMsg fs, VMsg ss => binary_data_pack (fields_pack value_pack fs ss)
  | _, _ => []
  end.

Definition pack (fs : list field) (ss : slots) : bytes := fields_pack value_pack fs ss.

(** ** Sizes *)

Definition uint32_size (v : Z) : Z :=
  if v <? 128 then 1 else if v <? 16384 then 2 else if v <? 2097152 then 3
  else if v <? 268435456 then 4 else 5.

Definition int32_size (v : Z) : Z := if v <? 0 then 10 else uint32_size v.

Definition get_tag_size (number : Z) : Z :=
  if number <? 16 then 1 else if number <? 2048 then 2 else if number <? 262144 then 3
  else if number <? 33554432 then 4 else 5.

Definition sumZ (l : list Z) : Z := fold_right Z.add 0 l.

Fixpoint fields_size (sz : ptype -> pval -> Z) (fs : list field) (ss : slots) : Z :=
  match fs, ss with
  | (id, _, t) :: fs', s :: ss' =>
      sumZ (map (fun v => get_tag_size id + sz t v) s) + fields_size sz fs' ss'
  | _, _ => 0
  end.

Fixpoint value_size (t : ptype) (v : pval) {struct t} : Z :=
  match t, v with
  | TUint32, VInt z => uint32_size (u32 z)
  | TInt32, VInt z => int32_size z
  | TBool, VInt z => 1
  | TFixed64, VInt z => 8
  | TBytes, VBytes b => uint32_size (u32 (blen b)) + blen b
  | TMsg fs, VMsg ss =>
      let subrv := fields_size value_size fs ss in uint32_size (u32 subrv) + subrv
  | _, _ => 0
  end.

Definition get_packed_size (fs : list field) (ss : slots) : Z := fields_size value_size fs ss.

(** * Unpacking *)

(** The result of [protobuf_c_message_unpack]: a message, the null pointer, or
    a read beyond the input. *)
Inductive unpacked (A : Type) : Type :=
| Unpacked (a : A)
| UnpackNull
| UnpackOob.
Arguments Unpacked {A} a.
Arguments UnpackNull {A}.
Arguments UnpackOob {A}.

(** [ScannedMember]: [m_pref] is the length of the length prefix, [m_data] the
    octets counted by [len], prefix included. *)
Record member : Type := Member {
  m_tag : Z;
  m_wire : Z;
  m_pref : nat;
  m_data : bytes
}.

(** The tag and the number of octets used. *)
Fixpoint tag_loop (data : bytes) (tag shift : Z) (rv : nat) : option (Z * nat) :=
  match data with
  | [] => None
  | d :: data' =>
      if Z.land d 128 =? 0
      then Some (u32 (Z.lor tag (Z.shiftl d shift)), S rv)
      else tag_loop data' (u32 (Z.lor tag (Z.shiftl (Z.land d 127) shift))) (shift + 7) (S rv)
  end.

Definition parse_tag_and_wiretype (data : bytes) : option (Z * Z * nat) :=
  match data with
  | [] => None
  | d0 :: rest =>
      let tag := Z.shiftr (Z.land d0 127) 3 in
      let wire := Z.land d0 7 in
      if Z.land d0 128 =? 0 then Some (tag, wire, 1%nat)
      else match tag_loop (take 4 rest) tag 4 1 with
           | Some (tag, used) => Some (tag, wire, used)
           | None => None
           end
  end.

(** Length of the varint at the front, of at most [max] octets. *)
Fixpoint scan_varint (max : nat) (data : bytes) : option nat :=
  match max, data with
  | S max', d :: data' =>
      if Z.land d 128 =? 0 then Some 1%nat
      else match scan_varint max' data' with Some n => Some (S n) | None => None end
  | _, _ => None
  end.

(** The value of a length prefix of [n] octets. *)
Fixpoint prefix_value (data : bytes) (shift : Z) (n : nat) : Z :=
  match n, data with
  | S n', d :: data' =>
      u32 (Z.lor (Z.shiftl (Z.land d 127) shift) (prefix_value data' (shift + 7) n'))
  | _, _ => 0
  end.

(** The octets of the field and those of its prefix; [None] for the result 0.
    The sum of the two [unsigned] values is taken modulo 2^32. *)
Definition scan_length_prefixed_data (data : bytes) : option (nat * nat) :=
  match scan_varint 5 data with
  | None => None
  | Some hdr_len =>
      let val := prefix_value data 0 hdr_len in
      let total := u32 (Z.of_nat hdr_len + val) in
      if blen data <? total then None
      else if total =? 0 then None
      else Some (Z.to_nat total, hdr_len)
  end.

(** One turn of the scanning loop: the member and the rest of the input. *)
Definition scan_member (data : bytes) : option (member * bytes) :=
  match parse_tag_and_wiretype data with
  | None => None
  | Some (tag, wire, used) =>
      let at_ := drop used data in
      let fixed (n : nat) :=
        if (length at_ <? n)%nat then None
        else Some (Member tag wire 0 (take n at_), drop n at_) in
      if wire =? WIRE_VARINT then
        match scan_varint 10 at_ with
        | None => None
        | Some n => Some (Member tag wire 0 (take n at_), drop n at_)
        end
      else if wire =? WIRE_64BIT then fixed 8%nat
      else if wire =? WIRE_LENGTH_PREFIXED then
        match scan_length_prefixed_data at_ with
        | None => None
        | Some (n, pref) => Some (Member tag wire pref (take n at_), drop n at_)
        end
      else if wire =? WIRE_32BIT then fixed 4%nat
      else None
  end.

(** The scanning loop; every turn uses an octet at least, so that the length
    of the input is fuel enough. *)
Fixpoint scan (fuel : nat) (data : bytes) : option (list member) :=
  match data with
  | [] => Some []
  | _ =>
      match fuel with
      | O => None
      | S fuel' =>
          match scan_member data with
          | None => None
          | Some (m, rest) =>
              match scan fuel' rest with
              | None => None
              | Some ms => Some (m :: ms)
              end
          end
      end
  end.

Definition parse_uint32 (data : bytes) : Z :=
  match data with
  | [] => 0
  | d0 :: r0 =>
    let rv := Z.land d0 127 in
    match r0 with
    | [] => rv
    | d1 :: r1 =>
      let rv := Z.lor rv (Z.shiftl (Z.land d1 127) 7) in
      match r1 with
      | [] => rv
      | d2 :: r2 =>
        let rv := Z.lor rv (Z.shiftl (Z.land d2 127) 14) in
        match r2 with
        | [] => rv
        | d3 :: r3 =>
          let rv := Z.lor rv (Z.shiftl (Z.land d3 127) 21) in
          match r3 with
          | [] => rv
          | d4 :: _ => u32 (Z.lor rv (Z.shiftl d4 28))
          end
        end
      end
    end
  end.

(** The [uint32_t] read as an [int32_t]. *)
Definition parse_int32 (data : bytes) : Z :=
  let v := parse_uint32 data in if v <? 2147483648 then v else v - UINT32_MOD.

Definition parse_boolean (data : bytes) : Z :=
  if existsb (fun d => negb (Z.land d 127 =? 0)) data then 1 else 0.

Definition parse_fixed_uint64 (data : bytes) : Z :=
  fold_right (fun d acc => d + 256 * acc) 0 (take 8 data).

(** The octets after the length prefix; [None] when the wrapped length is
    smaller than the prefix. *)
Definition payload (m : member) : option bytes :=
  if (length (m_data m) <? m_pref m)%nat then None else Some (drop (m_pref m) (m_data m)).

(** [merge_messages]: [e] is the earlier message, [l] the latter. *)
Fixpoint fields_merge (mv : ptype -> pval -> pval -> pval) (fs : list field) (e l : slots) : slots :=
  match fs, e, l with
  | (_, rep, t) :: fs', se :: e', sl :: l' =>
      (if rep then se ++ sl
       else match t, se, sl with
            | TMsg _, [em], [lm] => [mv t em lm]
            | TBytes, [VBytes (_ :: _)], [VBytes []] => se
            | _, _, [] => se
            | _, _, _ => sl
            end) :: fields_merge mv fs' e' l'
  | _, _, _ => l
  end.

Fixpoint merge_values (t : ptype) (e l : pval) {struct t} : pval :=
  match t, e, l with
  | TMsg fs, VMsg se, VMsg sl => VMsg (fields_merge merge_values fs se sl)
  | _, _, _ => l
  end.

(** [parse_member] for the field with the member's tag: its index and value;
    [None] for an unknown field. *)
Fixpoint field_parse (pv : ptype -> member -> unpacked pval) (fs : list field) (m : member)
    : option (nat * bool * ptype * unpacked pval) :=
  match fs with
  | [] => None
  | (id, rep, t) :: fs' =>
      if id =? m_tag m then Some (0%nat, rep, t, pv t m)
      else match field_parse pv fs' m with
           | Some (i, rep, t, r) => Some (S i, rep, t, r)
           | None => None
           end
  end.

(** Store a parsed value in its slot. *)
Definition slot_update (rep : bool) (t : ptype) (v : pval) (s : list pval) : list pval :=
  if rep then s ++ [v]
  else match t, s with
       | TMsg _, [e] => [merge_values t e v]
       | _, _ => [v]
       end.

(** The parsing loop over the scanned members. *)
Fixpoint members_parse (pv : ptype -> member -> unpacked pval) (fs : list field)
    (ms : list member) (ss : slots) : unpacked slots :=
  match ms with
  | [] => Unpacked ss
  | m :: ms' =>
      match field_parse pv fs m with
      | None => members_parse pv fs ms' ss
      | Some (i, rep, t, Unpacked v) => members_parse pv fs ms' (alter (slot_update rep t v) i ss)
      | Some (_, _, _, UnpackNull) => UnpackNull
      | Some (_, _, _, UnpackOob) => UnpackOob
      end
  end.

Definition message_init (fs : list field) : slots := map (fun _ => []) fs.

Definition fields_unpack (pv : ptype -> member -> unpacked pval) (fs : list field) (data : bytes)
    : unpacked slots :=
  match scan (length data) data with
  | None => UnpackNull
  | Some ms => members_parse pv fs ms (message_init fs)
  end.

(** [parse_required_member] *)
Fixpoint value_parse (t : ptype) (m : member) {struct t} : unpacked pval :=
  match t with
  | TUint32 => if m_wire m =? WIRE_VARINT then Unpacked (VInt (parse_uint32 (m_data m))) else UnpackNull
  | TInt32 => if m_wire m =? WIRE_VARINT then Unpacked (VInt (parse_int32 (m_data m))) else UnpackNull
  | TFixed64 => if m_wire m =? WIRE_64BIT then Unpacked (VInt (parse_fixed_uint64 (m_data m))) else UnpackNull
  | TBool => Unpacked (VInt (parse_boolean (m_data m)))
  | TBytes =>
      if m_wire m =? WIRE_LENGTH_PREFIXED then
        match payload m with Some b => Unpacked (VBytes b) | None => UnpackOob end
      else UnpackNull
  | TMsg fs =>
      if m_wire m =? WIRE_LENGTH_PREFIXED then
        match payload m with
        | Some b =>
            match fields_unpack value_parse fs b with
            | Unpacked ss => Unpacked (VMsg ss)
            | UnpackNull => UnpackNull
            | UnpackOob => UnpackOob
            end
        | None => UnpackOob
        end
      else UnpackNull
  end.

Definition unpack (fs : list field) (data : bytes) : unpacked slots :=
  fields_unpack value_parse fs data.

(** * Well-formed descriptors and messages *)

(** Field numbers that are distinct and below 16, as in all the generated
    descriptors. *)
Fixpoint ids_ok (seen : list Z) (fs : list field) : bool :=
  match fs with
  | [] => true
  | (id, _, _) :: fs' =>
      (0 <? id) && (id <? 16) && negb (existsb (Z.eqb id) seen) && ids_ok (id :: seen) fs'
  end.

Fixpoint desc_ok (t : ptype) : bool :=
  match t with
  | TMsg fs => ids_ok [] fs && forallb (fun f => desc_ok (snd f)) fs
  | _ => true
  end.

Fixpoint fields_wf (wv : ptype -> pval -> Prop) (fs : list field) (ss : slots) : Prop :=
  match fs, ss with
  | [], [] => True
  | (_, rep, t) :: fs', s :: ss' =>
      Forall (wv t) s /\ (rep = false -> (length s <= 1)%nat) /\ fields_wf wv fs' ss'
  | _, _ => False
  end.

(** Integers in the range of their type, and sizes for which no [unsigned]
    length wraps. *)
Definition wf_size (n : Z) : Prop := n + 5 < UINT32_MOD.

Fixpoint wf_value (t : ptype) (v : pval) {struct t} : Prop :=
  match t, v with
  | TUint32, VInt z => is_u32 z
  | TInt32, VInt z => -2147483648 <= z < 2147483648
  | TBool, VInt z => z = 0 \/ z = 1
  | TFixed64, VInt z => 0 <= z < 18446744073709551616
  | TBytes, VBytes b => wf_size (blen b)
  | TMsg fs, VMsg ss => fields_wf wf_value fs ss /\ wf_size (blen (fields_pack value_pack fs ss))
  | _, _ => False
  end.

Definition wf_message (fs : list field) (ss : slots) : Prop := fields_wf wf_value fs ss.

(** ** Induction on descriptors *)

Section PtypeInd.
Variable P : ptype -> Prop.
Hypothesis Hu : P TUint32.
Hypothesis Hi : P TInt32.
Hypothesis Hb : P TBool.
Hypothesis Hf : P TFixed64.
Hypothesis Hy : P TBytes.
Hypothesis Hm : forall fs, Forall (fun f => P (snd f)) fs -> P (TMsg fs).

Fixpoint ptype_ind' (t : ptype) : P t :=
  match t with
  | TUint32 => Hu | TInt32 => Hi | TBool => Hb | TFixed64 => Hf | TBytes => Hy
  | TMsg fs =>
      Hm fs ((fix go (fs : list field) : Forall (fun f => P (snd f)) fs :=
        match fs with
        | [] => @List.Forall_nil _ _
        | f :: fs' => @List.Forall_cons _ _ f fs'
            (match f as f return P (snd f) with (_, _, t) => ptype_ind' t end) (go fs')
        end) fs)
  end.
End PtypeInd.

(** ** Octets and varints *)

(** A decidable fact about octets, checked on all 256. *)
Lemma octet_cases (P : Z -> bool) :
  forallb P (map Z.of_nat (seq 0 256)) = true -> forall d, 0 <= d < 256 -> P d = true.
Proof.
  intros H d Hd. rewrite forallb_forall in H. apply H. apply in_map_iff.
  exists (Z.to_nat d). split; [lia|]. apply in_seq. lia.
Qed.

Lemma octet_high d : 0 <= d < 256 -> (Z.land d 128 =? 0) = (d <? 128).
Proof.
  intros Hd. apply eqb_prop. revert d Hd. apply octet_cases. vm_compute. done.
Qed.

Lemma octet_low d : Z.land d 127 = d mod 128.
Proof. change 127 with (Z.ones 7). by rewrite Z.land_ones. Qed.

Lemma octet_cont v : u8 (Z.lor v 128) = v mod 128 + 128.
Proof.
  unfold u8. change 256 with (2 ^ 8). rewrite <- Z.land_ones, Z.land_lor_distr_l, Z.land_ones by lia.
  change (Z.land 128 (Z.ones 8)) with 128.
  rewrite <- (Z.mod_mod_divide v (2 ^ 8) 128) by (exists 2; done).
  pose proof (Z.mod_pos_bound v (2 ^ 8) ltac:(lia)) as Hx. revert Hx.
  generalize (v mod 2 ^ 8). change (2 ^ 8) with 256. intros x Hx. apply Z.eqb_eq.
  revert x Hx. apply octet_cases. vm_compute. done.
Qed.

Lemma lor_shiftl_add a b k : 0 <= k -> 0 <= a < 2 ^ k ->
  Z.lor a (Z.shiftl b k) = a + b * 2 ^ k.
Proof.
  intros Hk Ha. rewrite <- (Z.shiftl_mul_pow2 b k) by lia.
  rewrite <- Z.add_lor_land. assert (Z.land a (Z.shiftl b k) = 0) as ->; [|lia].
  apply Z.bits_inj'. intros n Hn. rewrite Z.land_spec, Z.bits_0.
  destruct (Z.lt_ge_cases n k).
  - rewrite Z.shiftl_spec_low by lia. apply andb_false_r.
  - destruct (Z.eq_dec a 0) as [->|]; [by rewrite Z.bits_0|].
    rewrite (Z.bits_above_log2 a) by
      (try apply Z.lt_le_trans with k; try (apply Z.log2_lt_pow2); lia). done.
Qed.

Lemma varint_pack_S n v : 0 <= v -> varint_pack (S n) v =
  if v <? 128 then [v] else (v mod 128 + 128) :: varint_pack n (v / 128).
Proof.
  intros Hv. cbn [varint_pack]. rewrite octet_cont, Z.shiftr_div_pow2 by lia.
  change (2 ^ 7) with 128.
  destruct (Z.leb_spec 128 v), (Z.ltb_spec v 128); try lia; [done|].
  unfold u8. rewrite Z.mod_small by lia. done.
Qed.

Lemma varint_pack_0 v : 0 <= v < 128 -> varint_pack 0 v = [v].
Proof. intros. simpl. unfold u8. by rewrite Z.mod_small by lia. Qed.

(** The octets of a varint of a value that fits [n + 1] groups of 7 bits. *)
Lemma scan_varint_pack n v max rest : 0 <= v < 128 ^ (Z.of_nat n + 1) -> (n < max)%nat ->
  scan_varint max (varint_pack n v ++ rest) = Some (length (varint_pack n v)).
Proof.
  revert v max. induction n as [|n IH]; intros v [|max] Hv Hm; try lia.
  - rewrite varint_pack_0 by (simpl in Hv; lia). simpl.
    rewrite octet_high by (simpl in Hv; lia). rewrite (proj2 (Z.ltb_lt _ _)) by (simpl in Hv; lia). done.
  - rewrite varint_pack_S by lia. destruct (Z.ltb_spec v 128).
    + simpl. rewrite octet_high by lia. by rewrite (proj2 (Z.ltb_lt _ _)) by lia.
    + simpl. pose proof (Z.mod_pos_bound v 128 ltac:(lia)). rewrite octet_high by lia.
      rewrite (proj2 (Z.ltb_ge _ _)) by lia. rewrite IH; [done| |lia].
      split; [apply Z.div_pos; lia|]. apply Z.div_lt_upper_bound; [lia|].
      replace (128 * 128 ^ (Z.of_nat n + 1)) with (128 ^ (Z.of_nat (S n) + 1)); [lia|].
      rewrite <- Z.pow_succ_r by lia. f_equal. lia.
Qed.

Lemma prefix_value_0 data shift : prefix_value data shift 0 = 0.
Proof. by destruct data. Qed.

Lemma prefix_value_pack n v rest shift : 0 <= v < 128 ^ (Z.of_nat n + 1) -> 0 <= shift ->
  v * 2 ^ shift < UINT32_MOD ->
  prefix_value (varint_pack n v ++ rest) shift (length (varint_pack n v)) = v * 2 ^ shift.
Proof.
  revert v shift. induction n as [|n IH]; intros v shift Hv Hs Hlt;
    assert (0 < 2 ^ shift) by (apply Z.pow_pos_nonneg; lia).
  - rewrite varint_pack_0 by (simpl in Hv; lia). cbn [length prefix_value app].
    rewrite prefix_value_0, octet_low, Z.lor_0_r, Z.shiftl_mul_pow2, (Z.mod_small v 128) by (simpl in Hv; lia).
    unfold u32. apply Z.mod_small. split; [|done]. apply Z.mul_nonneg_nonneg; lia.
  - rewrite varint_pack_S by lia. destruct (Z.ltb_spec v 128).
    + cbn [length prefix_value app]. rewrite prefix_value_0, octet_low, Z.lor_0_r, Z.shiftl_mul_pow2, (Z.mod_small v 128) by lia.
      unfold u32. apply Z.mod_small. split; [|done]. apply Z.mul_nonneg_nonneg; lia.
    + cbn [length prefix_value app]. rewrite octet_low.
      pose proof (Z.div_mod v 128 ltac:(lia)) as Hdm.
      pose proof (Z.mod_pos_bound v 128 ltac:(lia)).
      replace (2 ^ (shift + 7)) with (2 ^ shift * 128) in * by (rewrite Z.pow_add_r by lia; done).
      rewrite IH; [| |lia|]; cycle 1.
      { split; [apply Z.div_pos; lia|]. apply Z.div_lt_upper_bound; [lia|].
        replace (128 * 128 ^ (Z.of_nat n + 1)) with (128 ^ (Z.of_nat (S n) + 1)); [lia|].
        rewrite <- Z.pow_succ_r by lia. f_equal. lia. }
      { rewrite Z.pow_add_r by lia. change (2 ^ 7) with 128. nia. }
      rewrite Z.pow_add_r by lia. change (2 ^ 7) with 128.
      replace ((v mod 128 + 128) mod 128) with (v mod 128)
        by (rewrite <- (Z.mul_1_l 128) at 3; by rewrite Z_mod_plus_full, Z.mod_mod by lia).
      replace (v / 128 * (2 ^ shift * 128)) with (Z.shiftl (v / 128) (shift + 7))
        by (rewrite Z.shiftl_mul_pow2 by lia; rewrite Z.pow_add_r by lia; lia).
      rewrite lor_shiftl_add; [|lia|].
      * rewrite Z.shiftl_mul_pow2, Z.pow_add_r by lia. change (2 ^ 7) with 128.
        unfold u32. rewrite Z.mod_small; nia.
      * rewrite Z.shiftl_mul_pow2, Z.pow_add_r by lia. change (2 ^ 7) with 128. nia.
Qed.

Lemma mod_cont v : (v mod 128 + 128) mod 128 = v mod 128.
Proof. div_lia. Qed.

(** [parse_uint32] joins its octets as numbers in base 128. *)
Lemma parse_uint32_pack v : is_u32 v -> parse_uint32 (uint32_pack v) = v.
Proof.
  unfold is_u32, uint32_pack, UINT32_MOD. intros Hv.
  rewrite varint_pack_S by lia. destruct (Z.ltb_spec v 128).
  { simpl. rewrite octet_low. apply Z.mod_small. lia. }
  assert (0 <= v / 128) by (apply Z.div_pos; lia).
  rewrite varint_pack_S by lia. destruct (Z.ltb_spec (v / 128) 128).
  { cbn [parse_uint32]. rewrite !octet_low, mod_cont, lor_shiftl_add by div_lia.
    change (2 ^ 7) with 128. div_lia. }
  assert (0 <= v / 128 / 128) by (apply Z.div_pos; lia).
  rewrite varint_pack_S by lia. destruct (Z.ltb_spec (v / 128 / 128) 128).
  { cbn [parse_uint32]. rewrite !octet_low, !mod_cont, (lor_shiftl_add _ _ 7), lor_shiftl_add by div_lia.
    change (2 ^ 7) with 128. change (2 ^ 14) with 16384. div_lia. }
  assert (0 <= v / 128 / 128 / 128) by (apply Z.div_pos; lia).
  rewrite varint_pack_S by lia. destruct (Z.ltb_spec (v / 128 / 128 / 128) 128).
  { cbn [parse_uint32]. rewrite !octet_low, !mod_cont, (lor_shiftl_add _ _ 7),
      (lor_shiftl_add _ _ 14), lor_shiftl_add by div_lia.
    change (2 ^ 7) with 128. change (2 ^ 14) with 16384. change (2 ^ 21) with 2097152. div_lia. }
  rewrite varint_pack_0 by div_lia. cbn [parse_uint32].
  rewrite !octet_low, !mod_cont, (lor_shiftl_add _ _ 7),
    (lor_shiftl_add _ _ 14), (lor_shiftl_add _ _ 21), lor_shiftl_add by div_lia.
  change (2 ^ 7) with 128. change (2 ^ 14) with 16384. change (2 ^ 21) with 2097152.
  change (2 ^ 28) with 268435456. unfold u32, UINT32_MOD. rewrite Z.mod_small by div_lia. div_lia.
Qed.

Lemma int32_pack_neg z : int32_pack z = 
  if z <? 0 then [z mod 128 + 128; (z / 128) mod 128 + 128; (z / 16384) mod 128 + 128;
    (z / 2097152) mod 128 + 128; (z / 268435456) mod 128 + 128; 255; 255; 255; 255; 1]
  else uint32_pack z.
Proof.
  unfold int32_pack. destruct (z <? 0); [|done]. cbn [map app].
  rewrite !octet_cont, !Z.shiftr_div_pow2 by lia. by rewrite Z.div_1_r.
Qed.

Lemma parse_int32_pack z : -2147483648 <= z < 2147483648 -> parse_int32 (int32_pack z) = z.
Proof.
  intros Hz. unfold parse_int32. rewrite int32_pack_neg. destruct (Z.ltb_spec z 0) as [Hn|Hn].
  - cbn [parse_uint32]. rewrite !octet_low, !mod_cont, (lor_shiftl_add _ _ 7),
      (lor_shiftl_add _ _ 14), (lor_shiftl_add _ _ 21), lor_shiftl_add by div_lia.
    change (2 ^ 7) with 128. change (2 ^ 14) with 16384. change (2 ^ 21) with 2097152.
    change (2 ^ 28) with 268435456. unfold u32, UINT32_MOD.
    match goal with |- context [?x mod 4294967296] =>
      replace (x mod 4294967296) with (z + 4294967296) end.
    + rewrite (proj2 (Z.ltb_ge _ _)) by lia. lia.
    + apply Z.mod_unique with (q := 15); div_lia.
  - rewrite parse_uint32_pack by (unfold is_u32, UINT32_MOD; lia).
    rewrite (proj2 (Z.ltb_lt _ _)) by lia. done.
Qed.

Lemma fixed64_pack_div z : fixed64_pack z =
  map (fun p => (z / p) mod 256) [1; 256; 65536; 16777216; 4294967296; 1099511627776;
    281474976710656; 72057594037927936].
Proof. unfold fixed64_pack, u8. cbn [map]. by rewrite !Z.shiftr_div_pow2 by lia. Qed.

Lemma parse_fixed_uint64_pack z : 0 <= z < 18446744073709551616 ->
  parse_fixed_uint64 (fixed64_pack z) = z.
Proof.
  intros Hz. rewrite fixed64_pack_div. unfold parse_fixed_uint64. cbn [map take fold_right].
  change 65536 with (256 * 256). change 16777216 with (256 * 256 * 256).
  change 4294967296 with (256 * 256 * 256 * 256).
  change 1099511627776 with (256 * 256 * 256 * 256 * 256).
  change 281474976710656 with (256 * 256 * 256 * 256 * 256 * 256).
  change 72057594037927936 with (256 * 256 * 256 * 256 * 256 * 256 * 256).
  rewrite <- !Z.div_div, Z.div_1_r by lia.
  pose proof (fun x => Z.div_mod x 256 ltac:(lia)) as D.
  assert (z / 256 / 256 / 256 / 256 / 256 / 256 / 256 < 256) by
    (repeat (apply Z.div_lt_upper_bound; [lia|]); lia).
  assert (0 <= z / 256 / 256 / 256 / 256 / 256 / 256 / 256) by
    (repeat (apply Z.div_pos; [|lia]); lia).
  pose proof (D z). pose proof (D (z / 256)). pose proof (D (z / 256 / 256)).
  pose proof (D (z / 256 / 256 / 256)). pose proof (D (z / 256 / 256 / 256 / 256)).
  pose proof (D (z / 256 / 256 / 256 / 256 / 256)).
  pose proof (D (z / 256 / 256 / 256 / 256 / 256 / 256)).
  rewrite (Z.mod_small (z / 256 / 256 / 256 / 256 / 256 / 256 / 256)) by lia.
  clear D. lia.
Qed.

(** ** Scanning what was packed *)

Lemma u32_small z : is_u32 z -> u32 z = z.
Proof. intros H. unfold u32. by apply Z.mod_small. Qed.

Lemma u32_range z : is_u32 (u32 z).
Proof. apply Z.mod_pos_bound. done. Qed.

(** Field numbers below 16 have one octet of tag. *)
Lemma parse_tag_pack id wire rest : 0 < id < 16 -> 0 <= wire < 8 ->
  parse_tag_and_wiretype (tag_pack id wire ++ rest) = Some (id, wire, 1%nat) /\
  length (tag_pack id wire) = 1%nat.
Proof.
  intros Hi Hw.
  assert (exists o, tag_pack id wire = [o] /\ Z.shiftr (Z.land o 127) 3 = id /\
    Z.land o 7 = wire /\ (Z.land o 128 =? 0) = true) as (o & -> & H1 & H2 & H3).
  { assert (id = 1 \/ id = 2 \/ id = 3 \/ id = 4 \/ id = 5 \/ id = 6 \/ id = 7 \/ id = 8 \/
      id = 9 \/ id = 10 \/ id = 11 \/ id = 12 \/ id = 13 \/ id = 14 \/ id = 15) as Hid by lia.
    assert (wire = 0 \/ wire = 1 \/ wire = 2 \/ wire = 3 \/ wire = 4 \/ wire = 5 \/ wire = 6 \/
      wire = 7) as Hwi by lia.
    repeat (destruct Hid as [->|Hid]); try subst id;
      repeat (destruct Hwi as [->|Hwi]); try subst wire;
      (eexists; split; [vm_compute; reflexivity|repeat split; reflexivity]). }
  split; [|done]. cbn [app parse_tag_and_wiretype]. by rewrite H1, H2, H3.
Qed.

(** The prefix length [scan_member] records for a value. *)
Definition pref_len (t : ptype) (v : pval) : nat :=
  match t, v with
  | TBytes, VBytes b => length (uint32_pack (u32 (blen b)))
  | TMsg fs, VMsg ss => length (uint32_pack (u32 (blen (fields_pack value_pack fs ss))))
  | _, _ => 0%nat
  end.

Lemma length_uint32_pack v : (1 <= length (uint32_pack v) <= 5)%nat.
Proof.
  unfold uint32_pack. cbn [varint_pack].
  repeat match goal with |- context [if ?b then _ else _] => destruct b end; simpl; lia.
Qed.

Lemma scan_uint32 max v rest : is_u32 v -> (5 <= max)%nat ->
  scan_varint max (uint32_pack v ++ rest) = Some (length (uint32_pack v)).
Proof. intros Hv Hm. apply scan_varint_pack; [unfold is_u32, UINT32_MOD in *; simpl; lia|lia]. Qed.

Lemma prefix_value_uint32 v rest : is_u32 v ->
  prefix_value (uint32_pack v ++ rest) 0 (length (uint32_pack v)) = v.
Proof.
  unfold is_u32, uint32_pack, UINT32_MOD. intros Hv.
  rewrite prefix_value_pack; [lia|simpl; lia|lia|unfold UINT32_MOD; lia].
Qed.

Lemma scan_prefixed b rest : wf_size (blen b) ->
  scan_length_prefixed_data (binary_data_pack b ++ rest) =
  Some (length (binary_data_pack b), length (uint32_pack (u32 (blen b)))).
Proof.
  intros Hb. unfold scan_length_prefixed_data, binary_data_pack.
  assert (is_u32 (blen b)) as Hu by (unfold wf_size, is_u32, blen in *; lia).
  rewrite (u32_small (blen b)) by done. rewrite <- app_assoc.
  rewrite scan_uint32 by (try done; lia).
  pose proof (length_uint32_pack (blen b)).
  rewrite prefix_value_uint32 by done.
  rewrite u32_small by (unfold wf_size, is_u32, blen in *; lia).
  unfold blen. rewrite !length_app.
  rewrite (proj2 (Z.ltb_ge _ _)) by lia.
  destruct (Z.eqb_spec (Z.of_nat (length (uint32_pack (Z.of_nat (length b)))) + Z.of_nat (length b)) 0).
  { unfold blen in *. lia. }
  do 2 f_equal. lia.
Qed.

Lemma scan_member_value id t v rest : 0 < id < 16 -> wf_value t v ->
  scan_member (tag_pack id (wire_type t) ++ value_pack t v ++ rest) =
  Some (Member id (wire_type t) (pref_len t v) (value_pack t v), rest).
Proof.
  intros Hid Hv. unfold scan_member.
  assert (0 <= wire_type t < 8) as Hw
    by (destruct t; unfold wire_type, WIRE_VARINT, WIRE_64BIT, WIRE_LENGTH_PREFIXED; lia).
  destruct (parse_tag_pack id (wire_type t) (value_pack t v ++ rest) Hid Hw) as [-> Hlen].
  rewrite drop_app_length' by done.
  assert (forall n, n = length (value_pack t v) ->
    take n (value_pack t v ++ rest) = value_pack t v /\ drop n (value_pack t v ++ rest) = rest)
    as Hcut by (intros n ->; by rewrite take_app_length, drop_app_length).
  destruct t, v; try done; cbn [wire_type pref_len value_pack wf_value] in *;
    unfold WIRE_VARINT, WIRE_64BIT, WIRE_LENGTH_PREFIXED, WIRE_32BIT in *; cbn [Z.eqb Pos.eqb].
  - rewrite scan_uint32 by (try apply u32_range; lia).
    by destruct (Hcut _ eq_refl) as [-> ->].
  - assert (scan_varint 10 (int32_pack z ++ rest) = Some (length (int32_pack z))) as ->.
    { rewrite int32_pack_neg. destruct (Z.ltb_spec z 0).
      - cbn [app scan_varint]. rewrite !octet_high by div_lia.
        rewrite !(proj2 (Z.ltb_ge _ _)) by div_lia. done.
      - apply scan_uint32; [unfold is_u32, UINT32_MOD|]; lia. }
    by destruct (Hcut _ eq_refl) as [-> ->].
  - unfold boolean_pack. by destruct Hv as [->| ->].
  - rewrite scan_prefixed by done. by destruct (Hcut _ eq_refl) as [-> ->].
  - rewrite scan_prefixed by apply Hv. by destruct (Hcut _ eq_refl) as [-> ->].
Qed.

(** The values of a message in the order they are packed. *)
Fixpoint entries (fs : list field) (ss : slots) : list (Z * ptype * pval) :=
  match fs, ss with
  | (id, _, t) :: fs', s :: ss' => map (fun v => (id, t, v)) s ++ entries fs' ss'
  | _, _ => []
  end.

Definition entry_pack (e : Z * ptype * pval) : bytes :=
  match e with (id, t, v) => tag_pack id (wire_type t) ++ value_pack t v end.
Definition entry_member (e : Z * ptype * pval) : member :=
  match e with (id, t, v) => Member id (wire_type t) (pref_len t v) (value_pack t v) end.
Definition entry_ok (e : Z * ptype * pval) : Prop :=
  match e with (id, t, v) => 0 < id < 16 /\ wf_value t v end.

Lemma fields_pack_entries fs ss :
  fields_pack value_pack fs ss = concat (map entry_pack (entries fs ss)).
Proof.
  revert ss. induction fs as [|[[id rep] t] fs IH]; intros [|s ss]; try done.
  cbn [fields_pack entries]. rewrite map_app, concat_app, IH, map_map. done.
Qed.

Lemma entries_ok fs ss seen : ids_ok seen fs = true -> fields_wf wf_value fs ss ->
  Forall entry_ok (entries fs ss).
Proof.
  revert ss seen. induction fs as [|[[id rep] t] fs IH]; intros [|s ss] seen Hid Hwf; try done;
    cbn [entries]; auto.
  simpl in Hid, Hwf. destruct Hwf as (Hs & _ & Hwf).
  rewrite !andb_true_iff in Hid. destruct Hid as [[[H1 H2] _] Hid].
  apply Forall_app. split; [|by eapply IH].
  apply Forall_map. eapply Forall_impl; [exact Hs|]. intros v Hv. simpl. split; [lia|done].
Qed.

Lemma scan_entries es fuel : Forall entry_ok es -> (length es <= fuel)%nat ->
  scan fuel (concat (map entry_pack es)) = Some (map entry_member es).
Proof.
  revert fuel. induction es as [|[[id t] v] es IH]; intros fuel Hes Hf.
  { by destruct fuel. }
  apply Forall_cons in Hes as [[Hid Hv] Hes]. destruct fuel as [|fuel]; [simpl in Hf; lia|].
  simpl map. simpl concat. rewrite <- app_assoc.
  pose proof (scan_member_value id t v (concat (map entry_pack es)) Hid Hv) as E.
  destruct (parse_tag_pack id (wire_type t) [] Hid) as [_ Hl].
  { destruct t; unfold wire_type, WIRE_VARINT, WIRE_64BIT, WIRE_LENGTH_PREFIXED; lia. }
  destruct (tag_pack id (wire_type t)) as [|o r] eqn:Et; [done|].
  cbn [scan app]. cbn [app] in E. rewrite E. rewrite IH by (try done; simpl in Hf; lia). done.
Qed.

Lemma length_entries es : Forall entry_ok es ->
  (length es <= length (concat (map entry_pack es)))%nat.
Proof.
  induction 1 as [|[[id t] v] es [Hid Hv] _ IH]; [done|]. simpl. rewrite !length_app.
  destruct (parse_tag_pack id (wire_type t) [] Hid) as [_ Hl]; [|lia].
  destruct t; unfold wire_type, WIRE_VARINT, WIRE_64BIT, WIRE_LENGTH_PREFIXED; lia.
Qed.

(** ** Parsing what was scanned *)

Lemma field_parse_at pv pre id rep t fs m :
  Forall (fun f : field => fst (fst f) <> m_tag m) pre -> id = m_tag m ->
  field_parse pv (pre ++ (id, rep, t) :: fs) m = Some (length pre, rep, t, pv t m).
Proof.
  intros Hpre ->. induction Hpre as [|[[id' rep'] t'] pre Hn _ IH]; simpl.
  - by rewrite Z.eqb_refl.
  - simpl in Hn. rewrite (proj2 (Z.eqb_neq _ _)) by done. by rewrite IH.
Qed.

Lemma alter_middle {A} (f : A -> A) (l1 : list A) x l2 i : i = length l1 ->
  alter f i (l1 ++ x :: l2) = l1 ++ f x :: l2.
Proof. intros ->. induction l1 as [|y l1 IH]; simpl; [done|]. by rewrite <- IH. Qed.

(** One field's values fill its slot. *)
Lemma members_parse_slot pv pre id rep t fs s acc done_ rest ms :
  length done_ = length pre -> Forall (fun f : field => fst (fst f) <> id) pre ->
  Forall (fun v => pv t (entry_member (id, t, v)) = Unpacked v) s ->
  (rep = false -> (length acc + length s <= 1)%nat) ->
  members_parse pv (pre ++ (id, rep, t) :: fs)
    (map entry_member (map (fun v => (id, t, v)) s) ++ ms) (done_ ++ acc :: rest) =
  members_parse pv (pre ++ (id, rep, t) :: fs) ms (done_ ++ (acc ++ s) :: rest).
Proof.
  intros Hl Hpre Hs. revert acc. induction Hs as [|v s Hv _ IH]; intros acc Hrep.
  { simpl. by rewrite app_nil_r. }
  cbn [map app members_parse]. rewrite field_parse_at by done. rewrite Hv.
  rewrite alter_middle by done.
  assert (slot_update rep t v acc = acc ++ [v]) as ->.
  { unfold slot_update. destruct rep; [done|]. specialize (Hrep eq_refl). simpl in Hrep.
    destruct acc; [|simpl in Hrep; lia]. by destruct t. }
  rewrite IH; [by rewrite <- app_assoc|].
  intros Hr. specialize (Hrep Hr). rewrite length_app. simpl in *. lia.
Qed.

Lemma members_parse_entries pv pre fs ss done_ :
  length done_ = length pre -> ids_ok (rev (map (fun f => fst (fst f)) pre)) fs = true ->
  fields_wf (fun t v => forall id, pv t (entry_member (id, t, v)) = Unpacked v) fs ss ->
  members_parse pv (pre ++ fs) (map entry_member (entries fs ss)) (done_ ++ message_init fs) =
  Unpacked (done_ ++ ss).
Proof.
  revert pre ss done_. induction fs as [|[[id rep] t] fs IH]; intros pre [|s ss] done_ Hl Hid Hwf; try done.
  simpl in Hwf, Hid. destruct Hwf as (Hs & Hrep & Hwf). rewrite !andb_true_iff in Hid.
  destruct Hid as [[_ Hseen] Hid].
  cbn [entries message_init map]. rewrite map_app.
  rewrite members_parse_slot; [|done| | |].
  - rewrite app_nil_l. change (map (fun _ => []) fs) with (message_init fs).
    rewrite (cons_middle _ pre), (cons_middle _ done_), !app_assoc.
    rewrite IH; [by rewrite <- app_assoc|by rewrite !length_app, Hl| |done].
    rewrite map_app, rev_app_distr. simpl. done.
  - apply Forall_forall. intros f Hf%list_elem_of_In E.
    rewrite negb_true_iff in Hseen. apply not_true_iff_false in Hseen. apply Hseen.
    apply existsb_exists. exists id. split; [|apply Z.eqb_refl].
    apply in_rev. rewrite rev_involutive. rewrite <- E. by apply (in_map (fun f => fst (fst f))).
  - eapply Forall_impl; [exact Hs|]. intros v Hv. apply Hv.
  - done.
Qed.

Lemma fields_wf_impl (P Q : ptype -> pval -> Prop) fs ss :
  Forall (fun f : field => forall v, P (snd f) v -> Q (snd f) v) fs ->
  fields_wf P fs ss -> fields_wf Q fs ss.
Proof.
  revert ss. induction fs as [|[[id rep] t] fs IH]; intros [|s ss] HPQ H; try done.
  apply Forall_cons in HPQ as [Ht HPQ]. simpl in *. destruct H as (H1 & H2 & H3).
  split; [eapply Forall_impl; eauto|]. split; [done|]. by apply IH.
Qed.

(** The fields of a message unpack when each of its field types does. *)
Lemma fields_unpack_pack fs ss : ids_ok [] fs = true -> fields_wf wf_value fs ss ->
  fields_wf (fun t v => forall id, value_parse t (entry_member (id, t, v)) = Unpacked v) fs ss ->
  fields_unpack value_parse fs (fields_pack value_pack fs ss) = Unpacked ss.
Proof.
  intros Hid Hwf Hp. unfold fields_unpack. rewrite fields_pack_entries.
  pose proof (entries_ok fs ss [] Hid Hwf) as Hok.
  rewrite scan_entries by (try done; by apply length_entries).
  apply (members_parse_entries value_parse [] fs ss []); done.
Qed.

Lemma payload_prefixed id wire b :
  payload (Member id wire (length (uint32_pack (u32 (blen b)))) (binary_data_pack b)) = Some b.
Proof.
  unfold payload, binary_data_pack. simpl. rewrite length_app.
  destruct (Nat.ltb_spec (length (uint32_pack (u32 (blen b))) + length b)
    (length (uint32_pack (u32 (blen b))))); [lia|]. by rewrite drop_app_length.
Qed.

Lemma value_parse_pack t v id : desc_ok t = true -> wf_value t v ->
  value_parse t (entry_member (id, t, v)) = Unpacked v.
Proof.
  revert v id. induction t as [| | | | |fs IH] using ptype_ind'; intros v id Hd Hv;
    destruct v; try done; cbn [entry_member value_parse m_wire m_data wire_type value_pack pref_len wf_value] in *;
    cbn [Z.eqb Pos.eqb WIRE_VARINT WIRE_64BIT WIRE_LENGTH_PREFIXED].
  - by rewrite u32_small, parse_uint32_pack by done.
  - by rewrite parse_int32_pack.
  - by destruct Hv as [->| ->].
  - by rewrite parse_fixed_uint64_pack.
  - by rewrite payload_prefixed.
  - rewrite payload_prefixed. simpl in Hd. rewrite andb_true_iff in Hd. destruct Hd as [Hid Hfs].
    destruct Hv as [Hwf _]. rewrite fields_unpack_pack; [done..|].
    eapply fields_wf_impl; [|exact Hwf]. rewrite forallb_forall in Hfs.
    apply Forall_forall. intros f Hf v Hv i. rewrite Forall_forall in IH.
    apply IH; [done| |done]. apply Hfs. by apply list_elem_of_In.
Qed.

(** Every well-formed message is read back from its packed form. *)
Lemma unpack_pack fs ss : desc_ok (TMsg fs) = true -> wf_message fs ss ->
  unpack fs (pack fs ss) = Unpacked ss.
Proof.
  intros Hd Hwf. simpl in Hd. rewrite andb_true_iff in Hd. destruct Hd as [Hid Hfs].
  apply fields_unpack_pack; [done..|]. eapply fields_wf_impl; [|exact Hwf].
  rewrite forallb_forall in Hfs. apply Forall_forall. intros f Hf v Hv i.
  apply value_parse_pack; [|done]. apply Hfs. by apply list_elem_of_In.
Qed.

(** ** Sizes *)

Lemma uint32_size_pack v : is_u32 v -> blen (uint32_pack v) = uint32_size v.
Proof.
  unfold is_u32, uint32_pack, uint32_size, UINT32_MOD. intros Hv.
  repeat (rewrite varint_pack_S by (try lia; repeat (apply Z.div_pos; [|lia]); lia);
    match goal with |- context [if ?a <? 128 then [_] else _] => destruct (Z.ltb_spec a 128) end;
    [repeat match goal with |- context [if ?a <? ?b then _ else _] => destruct (Z.ltb_spec a b) end;
     try done; div_lia|]).
  rewrite varint_pack_0 by div_lia.
  repeat match goal with |- context [if ?a <? ?b then _ else _] => destruct (Z.ltb_spec a b) end;
    try done; div_lia.
Qed.

Lemma tag_size_pack id wire : 0 < id < 16 -> 0 <= wire < 8 ->
  blen (tag_pack id wire) = get_tag_size id.
Proof.
  intros Hi Hw. unfold blen, get_tag_size.
  destruct (parse_tag_pack id wire [] Hi Hw) as [_ ->].
  by rewrite (proj2 (Z.ltb_lt _ _)) by lia.
Qed.

Lemma sumZ_blen {A} (f : A -> bytes) (g : A -> Z) l : Forall (fun a => blen (f a) = g a) l ->
  blen (concat (map f l)) = sumZ (map g l).
Proof.
  induction 1 as [|a l Ha _ IH]; [done|]. simpl. unfold blen in *. rewrite length_app. lia.
Qed.

Lemma fields_size_pack fs ss seen : ids_ok seen fs = true ->
  fields_wf (fun t v => blen (value_pack t v) = value_size t v) fs ss ->
  blen (fields_pack value_pack fs ss) = fields_size value_size fs ss.
Proof.
  revert ss seen. induction fs as [|[[id rep] t] fs IH]; intros [|s ss] seen Hid Hwf; try done.
  simpl in Hid, Hwf. rewrite !andb_true_iff in Hid. destruct Hid as [[[H1 H2] _] Hid].
  destruct Hwf as (Hs & _ & Hwf). cbn [fields_pack fields_size].
  rewrite blen_app, (IH ss (id :: seen)) by done. f_equal.
  apply sumZ_blen. eapply Forall_impl; [exact Hs|]. intros v Hv.
  rewrite blen_app, Hv, tag_size_pack; [done|lia|].
  destruct t; unfold wire_type, WIRE_VARINT, WIRE_64BIT, WIRE_LENGTH_PREFIXED; lia.
Qed.

Lemma value_size_pack t v : desc_ok t = true -> wf_value t v ->
  blen (value_pack t v) = value_size t v.
Proof.
  revert v. induction t as [| | | | |fs IH] using ptype_ind'; intros v Hd Hv;
    destruct v; try done; cbn [value_pack value_size wf_value] in *.
  - apply uint32_size_pack, u32_range.
  - rewrite int32_pack_neg. unfold int32_size. destruct (Z.ltb_spec z 0); [done|].
    apply uint32_size_pack. unfold is_u32, UINT32_MOD. lia.
  - unfold binary_data_pack. rewrite blen_app. by rewrite uint32_size_pack by apply u32_range.
  - simpl in Hd. rewrite andb_true_iff in Hd. destruct Hd as [Hid Hfs]. destruct Hv as [Hwf _].
    assert (blen (fields_pack value_pack fs slots) = fields_size value_size fs slots) as E.
    { eapply fields_size_pack; [exact Hid|]. eapply fields_wf_impl; [|exact Hwf].
      rewrite forallb_forall in Hfs. apply Forall_forall. intros f Hf v Hv.
      rewrite Forall_forall in IH. apply IH; [done| |done]. apply Hfs. by apply list_elem_of_In. }
    rewrite <- E. unfold binary_data_pack. rewrite blen_app.
    by rewrite uint32_size_pack by apply u32_range.
Qed.

(** [get_packed_size] is the number of octets [pack] writes. *)
Lemma get_packed_size_pack fs ss : desc_ok (TMsg fs) = true -> wf_message fs ss ->
  get_packed_size fs ss = blen (pack fs ss).
Proof.
  intros Hd Hwf. simpl in Hd. rewrite andb_true_iff in Hd. destruct Hd as [Hid Hfs].
  symmetry. eapply fields_size_pack; [exact Hid|]. eapply fields_wf_impl; [|exact Hwf].
  rewrite forallb_forall in Hfs. apply Forall_forall. intros f Hf v Hv.
  apply value_size_pack; [|done]. apply Hfs. by apply list_elem_of_In.
Qed.

(** ** Well-formedness from the total size

    [typed_value] is [wf_value] without the size conditions; they follow from
    the size of the whole message. *)
Fixpoint typed_value (t : ptype) (v : pval) {struct t} : Prop :=
  match t, v with
  | TUint32, VInt z => is_u32 z
  | TInt32, VInt z => -2147483648 <= z < 2147483648
  | TBool, VInt z => z = 0 \/ z = 1
  | TFixed64, VInt z => 0 <= z < 18446744073709551616
  | TBytes, VBytes b => True
  | TMsg fs, VMsg ss => fields_wf typed_value fs ss
  | _, _ => False
  end.

Lemma blen_binary_data_pack b : blen b <= blen (binary_data_pack b).
Proof. unfold binary_data_pack. rewrite blen_app. pose proof (blen_nonneg (uint32_pack (u32 (blen b)))). lia. Qed.

Lemma blen_concat_In {A} (f : A -> bytes) l a : a ∈ l -> blen (f a) <= blen (concat (map f l)).
Proof.
  induction 1 as [a l|a b l _ IH]; simpl; rewrite blen_app.
  - pose proof (blen_nonneg (concat (map f l))). lia.
  - pose proof (blen_nonneg (f b)). lia.
Qed.

Lemma fields_wf_total fs ss : fields_wf typed_value fs ss ->
  wf_size (blen (fields_pack value_pack fs ss)) ->
  Forall (fun f : field => forall v, typed_value (snd f) v -> wf_size (blen (value_pack (snd f) v)) ->
    wf_value (snd f) v) fs ->
  fields_wf wf_value fs ss.
Proof.
  revert ss. induction fs as [|[[id rep] t] fs IH]; intros [|s ss] Hty Hsz HF; try done.
  apply Forall_cons in HF as [Ht HF]. simpl in Hty. destruct Hty as (Hs & Hrep & Hty).
  cbn [fields_pack] in Hsz. rewrite blen_app in Hsz. unfold wf_size in Hsz.
  pose proof (blen_nonneg (fields_pack value_pack fs ss)).
  pose proof (blen_nonneg (concat (map (fun v => tag_pack id (wire_type t) ++ value_pack t v) s))).
  split; [|split; [done|apply IH; try done; unfold wf_size; lia]].
  apply Forall_forall. intros v Hv. rewrite Forall_forall in Hs.
  apply Ht; [by apply Hs|]. unfold wf_size. simpl.
  pose proof (blen_concat_In (fun v => tag_pack id (wire_type t) ++ value_pack t v) s v Hv) as Hle.
  cbn beta in Hle. rewrite blen_app in Hle.
  pose proof (blen_nonneg (tag_pack id (wire_type t))). lia.
Qed.

Lemma wf_value_total t v : typed_value t v -> wf_size (blen (value_pack t v)) -> wf_value t v.
Proof.
  revert v. induction t as [| | | | |fs IH] using ptype_ind'; intros v Hty Hsz;
    destruct v; try done; cbn [typed_value value_pack wf_value] in *.
  - pose proof (blen_binary_data_pack b). unfold wf_size in *. lia.
  - pose proof (blen_binary_data_pack (fields_pack value_pack fs slots)).
    assert (wf_size (blen (fields_pack value_pack fs slots))) by (unfold wf_size in *; lia).
    split; [|done]. by apply fields_wf_total.
Qed.

Lemma wf_message_total fs ss : fields_wf typed_value fs ss -> wf_size (blen (pack fs ss)) ->
  wf_message fs ss.
Proof.
  intros Hty Hsz. apply fields_wf_total; [done..|]. apply Forall_forall. intros f _ v.
  apply wf_value_total.
Qed.

(** ** An upper bound of the packed size *)

Fixpoint value_ub (v : pval) : Z :=
  match v with
  | VInt _ => 10
  | VBytes b => 5 + blen b
  | VMsg ss => 5 + sumZ (map (fun s => sumZ (map (fun v => 5 + value_ub v) s)) ss)
  end.

Definition slots_ub (ss : slots) : Z :=
  sumZ (map (fun s => sumZ (map (fun v => 5 + value_ub v) s)) ss).

Lemma sumZ_nonneg l : Forall (fun z => 0 <= z) l -> 0 <= sumZ l.
Proof. induction 1; simpl; lia. Qed.

Lemma sumZ_le_bound {A} (f : A -> Z) (b : Z) l :
  Forall (fun a => f a <= b) l -> sumZ (map f l) <= b * Z.of_nat (length l).
Proof. induction 1; simpl; lia. Qed.

Lemma value_ub_nonneg : forall v, 0 <= value_ub v.
Proof.
  fix IH 1. intros [z|b|ss]; simpl; [lia|pose proof (blen_nonneg b); lia|].
  assert (0 <= sumZ (map (fun s => sumZ (map (fun v => 5 + value_ub v) s)) ss)); [|lia].
  induction ss as [|s ss IHss]; simpl; [lia|].
  assert (0 <= sumZ (map (fun v => 5 + value_ub v) s)); [|lia].
  induction s as [|v s IHs]; simpl; [lia|]. pose proof (IH v). lia.
Qed.

Lemma slots_ub_nonneg ss : 0 <= slots_ub ss.
Proof. pose proof (value_ub_nonneg (VMsg ss)) as H. simpl in H.
  induction ss as [|s ss IH]; unfold slots_ub; simpl; [lia|].
  assert (0 <= sumZ (map (fun v => 5 + value_ub v) s)).
  { apply sumZ_nonneg, Forall_map, Forall_forall. intros v _.
    pose proof (value_ub_nonneg v). simpl. lia. }
  assert (0 <= slots_ub ss); [|unfold slots_ub in *; lia].
  apply IH. pose proof (value_ub_nonneg (VMsg ss)) as H'. exact H'.
Qed.

Lemma blen_uint32_pack v : blen (uint32_pack v) <= 5.
Proof. pose proof (length_uint32_pack v). unfold blen. lia. Qed.

Lemma blen_tag_pack id wire : blen (tag_pack id wire) <= 5.
Proof.
  unfold tag_pack. pose proof (blen_uint32_pack (u32 (Z.shiftl id 3))) as H.
  by destruct (uint32_pack (u32 (Z.shiftl id 3))).
Qed.

Lemma fields_pack_ub (pv : ptype -> pval -> bytes) fs ss :
  Forall (fun f : field => forall v, blen (pv (snd f) v) <= value_ub v) fs ->
  blen (fields_pack pv fs ss) <= slots_ub ss.
Proof.
  intros H. revert ss. induction H as [|[[id rep] t] fs Ht _ IH]; intros [|s ss];
    try (cbn [fields_pack]; apply slots_ub_nonneg).
  cbn [fields_pack]. rewrite blen_app. unfold slots_ub. simpl.
  specialize (IH ss). unfold slots_ub in IH. cbn [snd] in Ht.
  assert (blen (concat (map (fun v => tag_pack id (wire_type t) ++ pv t v) s)) <=
    sumZ (map (fun v => 5 + value_ub v) s)); [|lia].
  clear IH. induction s as [|v s IHs]; simpl; [done|]. rewrite !blen_app.
  pose proof (blen_tag_pack id (wire_type t)). specialize (Ht v). lia.
Qed.

Lemma value_pack_ub t v : blen (value_pack t v) <= value_ub v.
Proof.
  revert v. induction t as [| | | | |fs IH] using ptype_ind'; intros v; destruct v;
    cbn [value_pack]; try apply (value_ub_nonneg (VInt _)); try apply (value_ub_nonneg (VBytes _));
    try apply (value_ub_nonneg (VMsg _)); cbn [value_ub].
  - pose proof (blen_uint32_pack (u32 z)). lia.
  - rewrite int32_pack_neg. destruct (z <? 0); [done|]. pose proof (blen_uint32_pack z). lia.
  - done.
  - done.
  - unfold binary_data_pack. rewrite blen_app. pose proof (blen_uint32_pack (u32 (blen b))). lia.
  - unfold binary_data_pack. rewrite blen_app. pose proof (fields_pack_ub value_pack fs slots IH).
    pose proof (blen_uint32_pack (u32 (blen (fields_pack value_pack fs slots)))).
    unfold slots_ub in *. lia.
Qed.

Lemma pack_ub fs ss : blen (pack fs ss) <= slots_ub ss.
Proof. apply fields_pack_ub. apply Forall_forall. intros f _ v. apply value_pack_ub. Qed.

Lemma wf_size_ub n ub : n <= ub -> ub < 4294967000 -> wf_size n.
Proof. unfold wf_size, UINT32_MOD. lia. Qed.

(** * Reading within the input *)

(** The bits of a length prefix: seven from each octet. *)
Lemma prefix_value_low data shift n k : 0 <= shift -> k < shift ->
  Z.testbit (prefix_value data shift n) k = false.
Proof.
  revert data shift. induction n as [|n IH]; intros [|d data] shift Hs Hk; cbn [prefix_value];
    rewrite ?Z.bits_0; try done.
  unfold u32, UINT32_MOD. destruct (Z.ltb_spec k 0); [by apply Z.testbit_neg_r|].
  destruct (Z.ltb_spec k 32); [rewrite (Z.mod_pow2_bits_low _ 32) by lia|by rewrite (Z.mod_pow2_bits_high _ 32) by lia].
  rewrite Z.lor_spec, IH by lia. rewrite Z.shiftl_spec, Z.testbit_neg_r by lia. done.
Qed.

Lemma prefix_value_high data shift n k : 0 <= shift -> shift + 7 * Z.of_nat n <= k ->
  Z.testbit (prefix_value data shift n) k = false.
Proof.
  revert data shift. induction n as [|n IH]; intros [|d data] shift Hs Hk; cbn [prefix_value];
    rewrite ?Z.bits_0; try done.
  unfold u32, UINT32_MOD.
  destruct (Z.ltb_spec k 32); [rewrite (Z.mod_pow2_bits_low _ 32) by lia|by rewrite (Z.mod_pow2_bits_high _ 32) by lia].
  rewrite Z.lor_spec, IH by lia. rewrite Z.shiftl_spec, Z.land_spec by lia.
  rewrite (Z.bits_above_log2 127) by (change (Z.log2 127) with 6; lia). by rewrite andb_false_r.
Qed.

Lemma prefix_value_bit n i : forall data shift j d, data !! i = Some d -> (i < n)%nat -> 0 <= shift -> 0 <= j < 7 ->
  shift + 7 * Z.of_nat i + j < 32 ->
  Z.testbit (prefix_value data shift n) (shift + 7 * Z.of_nat i + j) = Z.testbit d j.
Proof.
  revert i. induction n as [|n IH]; intros i data shift j d Hd Hi Hs Hj Hk; [lia|].
  destruct data as [|d0 data]; [done|]. cbn [prefix_value]. unfold u32, UINT32_MOD.
  rewrite (Z.mod_pow2_bits_low _ 32) by lia. rewrite Z.lor_spec, Z.shiftl_spec, Z.land_spec by lia.
  destruct i as [|i]; cbn in Hd.
  - inversion Hd; subst d0. rewrite prefix_value_low by lia. rewrite orb_false_r.
    replace (shift + 7 * Z.of_nat 0 + j - shift) with j by lia.
    change 127 with (Z.ones 7). rewrite Z.ones_spec_low by lia. by rewrite andb_true_r.
  - rewrite (Z.bits_above_log2 127) by (change (Z.log2 127) with 6; lia). rewrite andb_false_r. cbn [orb].
    replace (shift + 7 * Z.of_nat (S i) + j) with (shift + 7 + 7 * Z.of_nat i + j) by lia.
    apply IH; [done|lia..].
Qed.

Lemma scan_varint_length max data n : scan_varint max data = Some n -> (n <= max)%nat /\ (n <= length data)%nat.
Proof.
  revert max n. induction data as [|d data IH]; intros [|max] n H; try done. cbn in H.
  destruct (_ =? _); [inversion H; subst; simpl; lia|].
  destruct (scan_varint max data) as [n'|] eqn:E; [|done]. inversion H; subst. apply IH in E. simpl. lia.
Qed.

Lemma top_bits v k : 4294967291 <= v < 4294967296 -> 3 <= k < 32 -> Z.testbit v k = true.
Proof.
  intros Hv Hk. replace k with (k - 3 + 3) by lia. rewrite <- Z.div_pow2_bits by lia.
  change (2 ^ 3) with 8. replace (v / 8) with (Z.ones 29); [apply Z.ones_spec_low; lia|].
  change (Z.ones 29) with 536870911. div_lia.
Qed.

Lemma land_7 d : (forall j, 0 <= j < 3 -> Z.testbit d j = true) -> Z.land d 7 = 7.
Proof.
  intros H. apply Z.bits_inj'. intros j Hj. rewrite Z.land_spec. destruct (Z.ltb_spec j 3).
  - by rewrite H by lia.
  - rewrite (Z.bits_above_log2 7) by (change (Z.log2 7) with 2; lia). apply andb_false_r.
Qed.

(** When the length of a field wraps, what follows it starts with a wire type
    that does not exist. *)
Lemma wrapped_prefix data n pref : scan_length_prefixed_data data = Some (n, pref) -> (n < pref)%nat ->
  exists d rest, drop n data = d :: rest /\ Z.land d 7 = 7.
Proof.
  unfold scan_length_prefixed_data. destruct (scan_varint 5 data) as [h|] eqn:Eh; [|done].
  apply scan_varint_length in Eh as [H5 Hl]. set (v := prefix_value data 0 h).
  destruct (_ <? _); [done|]. destruct (Z.eqb_spec (u32 (Z.of_nat h + v)) 0) as [|Hnz]; [done|].
  intros [= <- <-] Hlt.
  assert (0 <= v < 4294967296) as Hv.
  { unfold v. destruct h, data; cbn [prefix_value]; try lia. apply u32_range. }
  assert (4294967291 <= v) as Hbig.
  { unfold u32, UINT32_MOD in *. destruct (Z.ltb_spec (Z.of_nat h + v) 4294967296); [|lia].
    rewrite Z.mod_small in Hlt by lia. lia. }
  assert (h = 5%nat) as ->.
  { destruct (Nat.eq_dec h 5); [done|]. exfalso.
    pose proof (top_bits v 31 ltac:(lia) ltac:(lia)) as Ht. unfold v in Ht.
    rewrite prefix_value_high in Ht by lia. done. }
  set (t := Z.to_nat (u32 (Z.of_nat 5 + v))) in *.
  assert (1 <= t)%nat by (unfold t, u32, UINT32_MOD in *; pose proof (Z.mod_pos_bound (Z.of_nat 5 + v) 4294967296); lia).
  destruct (lookup_lt_is_Some_2 data t) as [d Hd]; [lia|].
  exists d, (drop (S t) data). split; [by apply drop_S|]. apply land_7. intros j Hj.
  rewrite <- (prefix_value_bit 5 t data 0 j d); [|done|lia..]. apply top_bits; [split; [exact Hbig|apply Hv]|lia].
Qed.

Lemma scan_member_wire_7 d data : Z.land d 7 = 7 -> scan_member (d :: data) = None.
Proof.
  intros H. unfold scan_member, parse_tag_and_wiretype. rewrite H.
  destruct (Z.land d 128 =? 0); [done|]. by destruct (tag_loop _ _ _ _) as [[? ?]|].
Qed.

(** The prefix of a length-prefixed member lies in its octets. *)
Definition member_fits (m : member) : Prop := m_wire m = WIRE_LENGTH_PREFIXED -> (m_pref m <= length (m_data m))%nat.

Lemma scan_member_fits data m rest : scan_member data = Some (m, rest) ->
  member_fits m \/ exists d r, rest = d :: r /\ Z.land d 7 = 7.
Proof.
  unfold scan_member. destruct (parse_tag_and_wiretype data) as [[[tag wire] used]|]; [|done].
  unfold member_fits. destruct (Z.eqb_spec wire WIRE_VARINT).
  { destruct (scan_varint 10 _); intros [= <- <-]. left. simpl. lia. }
  destruct (Z.eqb_spec wire WIRE_64BIT).
  { destruct (_ <? _)%nat; intros [= <- <-]. left. simpl. lia. }
  destruct (Z.eqb_spec wire WIRE_LENGTH_PREFIXED) as [_|].
  - destruct (scan_length_prefixed_data (drop used data)) as [[len pref]|] eqn:E; intros [= <- <-]. simpl.
    destruct (Nat.le_gt_cases pref len) as [Hle|Hgt]; [left|right; by eapply wrapped_prefix].
    intros _. unfold scan_length_prefixed_data in E. destruct (scan_varint 5 (drop used data)) as [h|]; [|done].
    destruct (Z.ltb_spec (blen (drop used data)) (u32 (Z.of_nat h + prefix_value (drop used data) 0 h))); [done|].
    destruct (_ =? 0); [done|]. inversion E; subst. rewrite length_take. unfold blen in *. lia.
  - destruct (_ =? _); [|done]. destruct (_ <? _)%nat; intros [= <- <-]. left. simpl. done.
Qed.

Lemma scan_fits fuel data ms : scan fuel data = Some ms -> Forall member_fits ms.
Proof.
  revert data ms. induction fuel as [|fuel IH]; intros [|d0 data] ms H; cbn [scan] in H;
    try (inversion H; subst; by constructor).
  destruct (scan_member (d0 :: data)) as [[m rest]|] eqn:Em; [|done].
  destruct (scan fuel rest) as [ms'|] eqn:Er; [|done]. inversion H; subst.
  constructor; [|by eapply IH]. apply scan_member_fits in Em as [|(d & r & -> & Hd)]; [done|].
  destruct fuel; cbn [scan] in Er; [done|]. by rewrite scan_member_wire_7 in Er.
Qed.

Lemma members_parse_in_bounds pv fs ms ss :
  Forall (fun f : field => forall m, member_fits m -> pv (snd f) m <> UnpackOob) fs ->
  Forall member_fits ms -> members_parse pv fs ms ss <> UnpackOob.
Proof.
  intros Hpv Hms. revert ss. induction Hms as [|m ms Hm _ IH]; intros ss; cbn [members_parse]; [done|].
  destruct (field_parse pv fs m) as [[[[i rep] t] r]|] eqn:E; [|apply IH].
  assert (r <> UnpackOob) as Hr.
  { clear IH ss. revert i E. induction Hpv as [|[[id rep'] t'] fs Ht _ IHf]; intros i E; cbn in E; [done|].
    destruct (id =? m_tag m); [inversion E; subst; by apply Ht|].
    destruct (field_parse pv fs m) as [[[[i' ?] ?] ?]|]; [|done]. inversion E; subst. by eapply IHf. }
  destruct r; [apply IH|done|done].
Qed.

Lemma value_parse_in_bounds t m : member_fits m -> value_parse t m <> UnpackOob.
Proof.
  revert m. induction t as [| | | | |fs IH] using ptype_ind'; intros m Hm; cbn [value_parse];
    try (by destruct (_ =? _)); try done.
  all: destruct (Z.eqb_spec (m_wire m) WIRE_LENGTH_PREFIXED) as [Hw|]; [|done].
  all: unfold payload; rewrite (proj2 (Nat.ltb_ge _ _)) by by apply Hm.
  - done.
  - unfold fields_unpack. destruct (scan _ _) as [ms|] eqn:E; [|done].
    pose proof (members_parse_in_bounds value_parse fs ms (message_init fs) IH (scan_fits _ _ _ E)) as H.
    by destruct (members_parse _ _ _ _).
Qed.

(** Whatever the input, unpacking does not read outside it. *)
Lemma unpack_in_bounds fs data : unpack fs data <> UnpackOob.
Proof.
  unfold unpack, fields_unpack. destruct (scan _ _) as [ms|] eqn:E; [|done].
  apply members_parse_in_bounds; [|by eapply scan_fits].
  apply Forall_forall. intros f _ m Hm. by apply value_parse_in_bounds.
Qed.
