(* ===== verification/ProtobufTypes.v ===== *)
(** Unpacking is type sound: whatever octets [unpack] accepts, the message it
    returns has a slot for every field of the descriptor, at most one value in
    those that are not repeated, and every value is of the type of its field,
    in sub-messages as well. *)
From stdpp Require Import base list.
From Stdlib Require Import ZArith Lia.
From S2P Require Import Prelude Protobuf.
#[local] Open Scope Z_scope.

(** ** Numbers *)

(** Bits joined above others. *)
Lemma lor_range a b n m : 0 <= a < 2 ^ n -> 0 <= b < 2 ^ m -> 0 <= n -> 0 <= m ->
  0 <= Z.lor a (Z.shiftl b n) < 2 ^ (n + m).
Proof.
  intros Ha Hb Hn Hm. rewrite Z.shiftl_mul_pow2 by done.
  assert (0 <= Z.lor a (b * 2 ^ n)) as H0 by (apply Z.lor_nonneg; split; [lia|apply Z.mul_nonneg_nonneg; lia]).
  split; [done|]. assert (Z.lor a (b * 2 ^ n) = Z.lor a (b * 2 ^ n) mod 2 ^ (n + m)) as ->;
    [|apply Z.mod_pos_bound; apply Z.pow_pos_nonneg; lia].
  apply Z.bits_inj'. intros i Hi. destruct (Z.lt_ge_cases i (n + m)) as [H|H]; [by rewrite Z.mod_pow2_bits_low|].
  rewrite Z.mod_pow2_bits_high, Z.lor_spec by lia.
  rewrite <- (Z.mod_small a (2 ^ n)), Z.mod_pow2_bits_high by lia.
  rewrite Z.mul_pow2_bits by done. rewrite <- (Z.mod_small b (2 ^ m)), Z.mod_pow2_bits_high by lia. done.
Qed.

Lemma parse_uint32_range data : is_u32 (parse_uint32 data).
Proof.
  unfold is_u32, UINT32_MOD, parse_uint32.
  assert (forall d, 0 <= Z.land d 127 < 2 ^ 7) as H7.
  { intros d. change 127 with (Z.ones 7). rewrite Z.land_ones by done. by apply Z.mod_pos_bound. }
  destruct data as [|d0 [|d1 [|d2 [|d3 [|d4 r]]]]]; cbv zeta.
  - done.
  - pose proof (H7 d0). change (2 ^ 7) with 128 in *. lia.
  - pose proof (lor_range _ _ 7 7 (H7 d0) (H7 d1) ltac:(done) ltac:(done)) as H. change (2 ^ (7 + 7)) with 16384 in H. lia.
  - pose proof (lor_range _ _ 7 7 (H7 d0) (H7 d1) ltac:(done) ltac:(done)) as H.
    pose proof (lor_range _ _ 14 7 H (H7 d2) ltac:(done) ltac:(done)) as H2. change (2 ^ (14 + 7)) with 2097152 in H2. lia.
  - pose proof (lor_range _ _ 7 7 (H7 d0) (H7 d1) ltac:(done) ltac:(done)) as H.
    pose proof (lor_range _ _ 14 7 H (H7 d2) ltac:(done) ltac:(done)) as H2.
    pose proof (lor_range _ _ 21 7 H2 (H7 d3) ltac:(done) ltac:(done)) as H3. change (2 ^ (21 + 7)) with 268435456 in H3. lia.
  - unfold u32, UINT32_MOD. apply Z.mod_pos_bound. done.
Qed.

Lemma parse_int32_range data : -2147483648 <= parse_int32 data < 2147483648.
Proof.
  unfold parse_int32. cbv zeta. pose proof (parse_uint32_range data) as H. unfold is_u32, UINT32_MOD in *.
  destruct (Z.ltb_spec (parse_uint32 data) 2147483648); lia.
Qed.

Lemma parse_boolean_range data : parse_boolean data = 0 \/ parse_boolean data = 1.
Proof. unfold parse_boolean. destruct (existsb _ _); auto. Qed.

Lemma parse_fixed_uint64_range data : Forall is_u8 data -> 0 <= parse_fixed_uint64 data < 18446744073709551616.
Proof.
  intros Hd. unfold parse_fixed_uint64.
  assert (forall n l, Forall is_u8 l -> (length l <= n)%nat ->
    0 <= fold_right (fun d acc => d + 256 * acc) 0 l < 256 ^ Z.of_nat n) as H.
  { induction n as [|n IH]; intros l Hl Hn; [destruct l; [done|cbn in Hn; lia]|].
    rewrite Nat2Z.inj_succ, Z.pow_succ_r by lia. destruct Hl as [|x l Hx Hl]; cbn [fold_right].
    - pose proof (Z.pow_pos_nonneg 256 (Z.of_nat n)). lia.
    - specialize (IH l Hl ltac:(cbn in Hn; lia)). unfold is_u8 in Hx. lia. }
  apply (H 8%nat); [by apply Forall_take|]. rewrite length_take. lia.
Qed.

(** ** Members *)

Lemma scan_member_octets data m rest : Forall is_u8 data -> scan_member data = Some (m, rest) ->
  Forall is_u8 (m_data m) /\ Forall is_u8 rest.
Proof.
  intros Hd. unfold scan_member. destruct (parse_tag_and_wiretype data) as [[[tag wire] used]|]; [|done].
  assert (forall n, Forall is_u8 (take n (drop used data)) /\ Forall is_u8 (drop n (drop used data))) as H.
  { intros n. split; [by apply Forall_take, Forall_drop|by apply Forall_drop, Forall_drop]. }
  destruct (wire =? WIRE_VARINT); [destruct (scan_varint _ _); intros [= <- <-]; apply H|].
  destruct (wire =? WIRE_64BIT); [destruct (_ <? _)%nat; intros [= <- <-]; apply H|].
  destruct (wire =? WIRE_LENGTH_PREFIXED).
  { destruct (scan_length_prefixed_data _) as [[n p]|]; intros [= <- <-]; apply H. }
  destruct (wire =? WIRE_32BIT); [|done]. destruct (_ <? _)%nat; intros [= <- <-]; apply H.
Qed.

Lemma scan_octets fuel data ms : Forall is_u8 data -> scan fuel data = Some ms -> Forall (fun m => Forall is_u8 (m_data m)) ms.
Proof.
  revert data ms. induction fuel as [|fuel IH]; intros data ms Hd H; destruct data as [|d data]; cbn [scan] in H;
    try (injection H as <-; by constructor); [done|].
  destruct (scan_member (d :: data)) as [[m rest]|] eqn:Em; [|done].
  destruct (scan_member_octets _ _ _ Hd Em) as [Hm Hrest].
  destruct (scan fuel rest) as [ms'|] eqn:Es; [|done]. injection H as <-. constructor; [done|]. by eapply IH.
Qed.

Lemma payload_octets m b : Forall is_u8 (m_data m) -> payload m = Some b -> Forall is_u8 b.
Proof. unfold payload. destruct (_ <? _)%nat; [done|]. intros H [= <-]. by apply Forall_drop. Qed.

(** ** Messages *)

Lemma fields_wf_merge fs : Forall (fun f : field => forall e l, typed_value (snd f) e -> typed_value (snd f) l ->
    typed_value (snd f) (merge_values (snd f) e l)) fs ->
  forall e l, fields_wf typed_value fs e -> fields_wf typed_value fs l ->
  fields_wf typed_value fs (fields_merge merge_values fs e l).
Proof.
  intros H. induction H as [|[[id rep] t] fs Ht _ IH]; intros [|se e] [|sl l] He Hl; try done.
  cbn [fields_wf fields_merge] in *. destruct He as (Hse & Nse & He), Hl as (Hsl & Nsl & Hl). cbn [snd] in Ht.
  match goal with |- Forall _ ?s /\ _ => assert (Forall (typed_value t) s /\ (rep = false -> (length s <= 1)%nat)) as [H1 H2] end;
    [|split; [exact H1|split; [exact H2|by apply IH]]].
  destruct rep; [split; [by apply Forall_app|done]|].
  destruct t; repeat case_match; subst; try (split; [assumption|auto]; fail).
  all: split; [|cbn; lia].
  all: apply Forall_singleton; apply Ht; [by inversion Hse|by inversion Hsl].
Qed.

Lemma merge_values_typed t : forall e l, typed_value t e -> typed_value t l -> typed_value t (merge_values t e l).
Proof.
  induction t as [| | | | |fs IH] using ptype_ind'; intros e l He Hl; try done.
  destruct e as [| |se], l as [| |sl]; try done. cbn [merge_values typed_value] in *. by apply fields_wf_merge.
Qed.

Lemma slot_update_typed rep t v s : typed_value t v -> Forall (typed_value t) s -> (rep = false -> (length s <= 1)%nat) ->
  Forall (typed_value t) (slot_update rep t v s) /\ (rep = false -> (length (slot_update rep t v s) <= 1)%nat).
Proof.
  intros Hv Hs Hl. unfold slot_update. destruct rep; [split; [|done]; apply Forall_app; split; [done|by constructor]|].
  assert (forall x, typed_value t x -> Forall (typed_value t) [x] /\ (false = false -> (length [x] <= 1)%nat)) as H1.
  { intros x Hx. split; [by constructor|cbn; lia]. }
  destruct t; try by apply H1. destruct s as [|e [|e' s]]; try by apply H1. apply H1.
  apply merge_values_typed; [by inversion Hs|done].
Qed.

Lemma fields_wf_update fs : forall ss i id rep t v, fields_wf typed_value fs ss -> fs !! i = Some (id, rep, t) ->
  typed_value t v -> fields_wf typed_value fs (alter (slot_update rep t v) i ss).
Proof.
  induction fs as [|[[id' rep'] t'] fs IH]; intros [|s ss] i id rep t v Hf Hi Hv; try done.
  destruct Hf as (Hs & Hl & Hf). destruct i as [|i]; cbn [lookup list_lookup] in Hi.
  - injection Hi as -> -> ->. destruct (slot_update_typed rep t v s Hv Hs Hl) as [H1 H2]. by split.
  - split; [done|]. split; [done|]. by eapply IH.
Qed.

Lemma field_parse_some pv fs m i rep t r : field_parse pv fs m = Some (i, rep, t, r) ->
  exists id, fs !! i = Some (id, rep, t) /\ r = pv t m.
Proof.
  revert i. induction fs as [|[[id rep'] t'] fs IH]; intros i; cbn [field_parse]; [done|].
  destruct (id =? m_tag m); [intros [= <- <- <- <-]; by exists id|].
  destruct (field_parse pv fs m) as [[[[i' rep''] t''] r']|]; [|done]. intros [= <- <- <- <-].
  destruct (IH i' eq_refl) as (id' & Hi & Hr). by exists id'.
Qed.

Lemma members_parse_typed pv fs ms :
  Forall (fun f : field => forall m v, Forall is_u8 (m_data m) -> pv (snd f) m = Unpacked v -> typed_value (snd f) v) fs ->
  Forall (fun m => Forall is_u8 (m_data m)) ms -> forall ss ss', fields_wf typed_value fs ss ->
  members_parse pv fs ms ss = Unpacked ss' -> fields_wf typed_value fs ss'.
Proof.
  intros Hpv Hms. induction Hms as [|m ms Hm Hms IH]; intros ss ss' Hss; cbn [members_parse]; [by intros [= <-]|].
  destruct (field_parse pv fs m) as [[[[i rep] t] r]|] eqn:E; [|by apply IH].
  apply field_parse_some in E as (id & Hi & ->). destruct (pv t m) as [v| |] eqn:Ev; [|done|done].
  apply IH. eapply fields_wf_update; [done|exact Hi|]. rewrite Forall_forall in Hpv.
  apply (Hpv (id, rep, t)) with (m := m); [by eapply list_elem_of_lookup_2|done|done].
Qed.

Lemma message_init_typed fs : fields_wf typed_value fs (message_init fs).
Proof.
  induction fs as [|[[id rep] t] fs IH]; [done|]. cbn. split; [constructor|]. split; [lia|done].
Qed.

Lemma fields_unpack_typed pv fs data ss :
  Forall (fun f : field => forall m v, Forall is_u8 (m_data m) -> pv (snd f) m = Unpacked v -> typed_value (snd f) v) fs ->
  Forall is_u8 data -> fields_unpack pv fs data = Unpacked ss -> fields_wf typed_value fs ss.
Proof.
  intros Hpv Hd. unfold fields_unpack. destruct (scan _ data) as [ms|] eqn:E; [|done].
  apply members_parse_typed; [done|by eapply scan_octets|apply message_init_typed].
Qed.

Lemma value_parse_typed t : forall m v, Forall is_u8 (m_data m) -> value_parse t m = Unpacked v -> typed_value t v.
Proof.
  induction t as [| | | | |fs IH] using ptype_ind'; intros m v Hm; cbn [value_parse].
  - destruct (_ =? _); [|done]. intros [= <-]. apply parse_uint32_range.
  - destruct (_ =? _); [|done]. intros [= <-]. apply parse_int32_range.
  - intros [= <-]. apply parse_boolean_range.
  - destruct (_ =? _); [|done]. intros [= <-]. by apply parse_fixed_uint64_range.
  - destruct (_ =? _); [|done]. destruct (payload m); [|done]. by intros [= <-].
  - destruct (_ =? _); [|done]. destruct (payload m) as [b|] eqn:Ep; [|done].
    destruct (fields_unpack value_parse fs b) as [ss| |] eqn:E; [|done|done]. intros [= <-].
    eapply fields_unpack_typed; [exact IH| |exact E]. by eapply payload_octets.
Qed.

(** Every message that is unpacked is typed. *)
Lemma unpack_typed fs data ss : Forall is_u8 data -> unpack fs data = Unpacked ss -> fields_wf typed_value fs ss.
Proof. apply fields_unpack_typed. apply Forall_forall. intros f _. apply value_parse_typed. Qed.
