(* ===== verification/Messages.v ===== *)
(** The messages of LocalStorageProtocol.proto, WhisperTextProtocol.proto and
    FingerprintProtocol.proto as records, with the descriptors of the
    generated *.pb-c.c files.  A [has_x]/[x] pair is an [option], a nullable
    sub-message an [option], a repeated field a list.

    [ProtoMessage] is the interface the components use: [proto_pack] is the
    sequence get_packed_size, signal_buffer_alloc, pack, compare sizes of the
    serializers, [proto_unpack] the call of unpack in the deserializers, and
    [proto_unpack_pack] the round trip they rely on. *)
From stdpp Require Import base list.
From Stdlib Require Import ZArith Lia.
From S2P Require Import Prelude Buffers Protobuf.
#[local] Open Scope Z_scope.
#[local] Open Scope signal_scope.

Class ProtoMessage (A : Type) : Type := {
  descriptor : list field;
  to_slots : A -> slots;
  of_slots : slots -> A;
  of_to_slots : forall a, of_slots (to_slots a) = a;
  descriptor_ok : desc_ok (TMsg descriptor) = true
}.
Arguments descriptor A {_}.

Section Calls.
Context {U : Type} {A : Type} `{PM : ProtoMessage A}.

Definition packed (a : A) : bytes := pack (descriptor A) (to_slots a).

Definition proto_pack (a : A) : M U bytes :=
  let len := get_packed_size (descriptor A) (to_slots a) in
  alloc_or_nomem len ;;;
  let data := pack (descriptor A) (to_slots a) in
  if blen data =? len then ret data else fail SG_ERR_INVALID_PROTO_BUF.

(** A null result, of a malformed input or of a failed allocation, is reported
    as [SG_ERR_INVALID_PROTO_BUF]. *)
Definition proto_unpack (data : bytes) : M U A :=
  let* ok := try_malloc in
  if ok then
    match unpack (descriptor A) data with
    | Unpacked ss => ret (of_slots ss)
    | UnpackNull => fail SG_ERR_INVALID_PROTO_BUF
    | UnpackOob => crash OutOfBounds
    end
  else fail SG_ERR_INVALID_PROTO_BUF.

(** The values of a message have the types of the descriptor, and its packed
    form is short enough for 32-bit lengths. *)
Definition proto_typed (a : A) : Prop := fields_wf typed_value (descriptor A) (to_slots a).
Definition proto_wf (a : A) : Prop := proto_typed a /\ wf_size (blen (packed a)).

Lemma proto_wf_message a : proto_wf a -> wf_message (descriptor A) (to_slots a).
Proof. intros [H1 H2]. by apply wf_message_total. Qed.

Lemma packed_ub a : blen (packed a) <= slots_ub (to_slots a).
Proof. apply pack_ub. Qed.

Lemma proto_pack_ok a w : mem_ok w -> proto_wf a -> proto_pack a w = (Ok (packed a), w).
Proof.
  intros Hm Hwf. unfold proto_pack.
  rewrite (get_packed_size_pack _ _ descriptor_ok (proto_wf_message a Hwf)).
  erewrite bind_ok.
  2:{ apply alloc_or_nomem_ok; [done|]. destruct Hwf as [_ Hs].
      unfold fits, SIZE_MAX, SIGNAL_BUFFER_HEADER, wf_size, UINT32_MOD in *. fold (packed a). lia. }
  fold (packed a). by rewrite Z.eqb_refl.
Qed.

Lemma proto_unpack_pack a w : mem_ok w -> proto_wf a ->
  proto_unpack (packed a) w = (Ok a, w).
Proof.
  intros Hm Hwf. unfold proto_unpack. erewrite bind_ok by by apply try_malloc_ok.
  unfold packed. rewrite unpack_pack by (try apply descriptor_ok; by apply proto_wf_message).
  unfold ret. by rewrite of_to_slots.
Qed.

Lemma frame_proto_pack a : frame (proto_pack a).
Proof. unfold proto_pack. frame_solve. Qed.
Lemma frame_proto_unpack d : frame (proto_unpack d).
Proof. unfold proto_unpack. frame_solve. Qed.
Lemma safe_proto_pack a : safe (proto_pack a).
Proof. unfold proto_pack. safe_solve. Qed.

Lemma proto_pack_inv a w d w' : proto_pack a w = (Ok d, w') -> d = packed a.
Proof.
  unfold proto_pack. intros H. minv H. fold (packed a) in H.
  destruct (blen (packed a) =? _); inversion H; done.
Qed.
End Calls.
#[export] Hint Resolve frame_proto_pack frame_proto_unpack : frame_db.
#[export] Hint Resolve safe_proto_pack : safe_db.
Arguments packed : simpl never.

(** ** Slots *)

Definition int_slot (o : option Z) : list pval := match o with Some z => [VInt z] | None => [] end.
Definition slot_int (s : list pval) : option Z := match s with [VInt z] => Some z | _ => None end.
Definition bytes_slot (o : option bytes) : list pval := match o with Some b => [VBytes b] | None => [] end.
Definition slot_bytes (s : list pval) : option bytes := match s with [VBytes b] => Some b | _ => None end.
Definition msg_slot {A} `{ProtoMessage A} (o : option A) : list pval :=
  match o with Some a => [VMsg (to_slots a)] | None => [] end.
Definition slot_msg {A} `{ProtoMessage A} (s : list pval) : option A :=
  match s with [VMsg ss] => Some (of_slots ss) | _ => None end.
Definition rep_slot {A} `{ProtoMessage A} (l : list A) : list pval := map (fun a => VMsg (to_slots a)) l.
Definition slot_rep {A} `{ProtoMessage A} (s : list pval) : list A :=
  map (fun v => match v with VMsg ss => of_slots ss | _ => of_slots [] end) s.

Lemma slot_int_slot o : slot_int (int_slot o) = o.
Proof. by destruct o. Qed.
Lemma slot_bytes_slot o : slot_bytes (bytes_slot o) = o.
Proof. by destruct o. Qed.
Lemma slot_msg_slot {A} `{ProtoMessage A} (o : option A) : slot_msg (msg_slot o) = o.
Proof. destruct o; simpl; [|done]. by rewrite of_to_slots. Qed.
Lemma slot_rep_slot {A} `{ProtoMessage A} (l : list A) : slot_rep (rep_slot l) = l.
Proof.
  unfold slot_rep, rep_slot. rewrite map_map. rewrite <- (map_id l) at 2.
  apply map_ext. intros a. apply of_to_slots.
Qed.

Ltac slots_solve :=
  intros []; simpl; rewrite ?slot_int_slot, ?slot_bytes_slot, ?slot_msg_slot, ?slot_rep_slot;
  reflexivity.

(** The octets of a bytes field as the deserializers see them after unpack:
    a zero-length field has a null [data] pointer. *)
Definition bin_ptr (b : bytes) : option bytes := match b with [] => None | _ => Some b end.

Definition opt_uint : option Z -> Prop := fun o => forall z, o = Some z -> is_u32 z.

(** * LocalStorageProtocol *)

Record ChainKeyStructure : Type := ChainKeyStructure_ {
  ck_index : option Z;
  ck_key : option bytes
}.
Definition textsecure__session_structure__chain__chain_key__field_descriptors : list field :=
  [(1, false, TUint32); (2, false, TBytes)].
#[global, refine] Instance ChainKeyStructure_proto : ProtoMessage ChainKeyStructure := {|
  descriptor := textsecure__session_structure__chain__chain_key__field_descriptors;
  to_slots m := [int_slot (ck_index m); bytes_slot (ck_key m)];
  of_slots s := match s with
    | [a; b] => ChainKeyStructure_ (slot_int a) (slot_bytes b)
    | _ => ChainKeyStructure_ None None end
|}.
Proof. - slots_solve. - reflexivity. Defined.

Record MessageKeyStructure : Type := MessageKeyStructure_ {
  mk_index : option Z;
  mk_cipherkey : option bytes;
  mk_mackey : option bytes;
  mk_iv : option bytes
}.
Definition textsecure__session_structure__chain__message_key__field_descriptors : list field :=
  [(1, false, TUint32); (2, false, TBytes); (3, false, TBytes); (4, false, TBytes)].
#[global, refine] Instance MessageKeyStructure_proto : ProtoMessage MessageKeyStructure := {|
  descriptor := textsecure__session_structure__chain__message_key__field_descriptors;
  to_slots m := [int_slot (mk_index m); bytes_slot (mk_cipherkey m); bytes_slot (mk_mackey m);
                 bytes_slot (mk_iv m)];
  of_slots s := match s with
    | [a; b; c; d] => MessageKeyStructure_ (slot_int a) (slot_bytes b) (slot_bytes c) (slot_bytes d)
    | _ => MessageKeyStructure_ None None None None end
|}.
Proof. - slots_solve. - reflexivity. Defined.

Record ChainStructure : Type := ChainStructure_ {
  ch_senderratchetkey : option bytes;
  ch_senderratchetkeyprivate : option bytes;
  ch_chainkey : option ChainKeyStructure;
  ch_messagekeys : list MessageKeyStructure
}.
Definition textsecure__session_structure__chain__field_descriptors : list field :=
  [(1, false, TBytes); (2, false, TBytes);
   (3, false, TMsg (descriptor ChainKeyStructure)); (4, true, TMsg (descriptor MessageKeyStructure))].
#[global, refine] Instance ChainStructure_proto : ProtoMessage ChainStructure := {|
  descriptor := textsecure__session_structure__chain__field_descriptors;
  to_slots m := [bytes_slot (ch_senderratchetkey m); bytes_slot (ch_senderratchetkeyprivate m);
                 msg_slot (ch_chainkey m); rep_slot (ch_messagekeys m)];
  of_slots s := match s with
    | [a; b; c; d] => ChainStructure_ (slot_bytes a) (slot_bytes b) (slot_msg c) (slot_rep d)
    | _ => ChainStructure_ None None None [] end
|}.
Proof. - slots_solve. - reflexivity. Defined.

Record PendingKeyExchangeStructure : Type := PendingKeyExchangeStructure_ {
  pk_sequence : option Z;
  pk_localbasekey : option bytes;
  pk_localbasekeyprivate : option bytes;
  pk_localratchetkey : option bytes;
  pk_localratchetkeyprivate : option bytes;
  pk_localidentitykey : option bytes;
  pk_localidentitykeyprivate : option bytes
}.
Definition textsecure__session_structure__pending_key_exchange__field_descriptors : list field :=
  [(1, false, TUint32); (2, false, TBytes); (3, false, TBytes); (4, false, TBytes);
   (5, false, TBytes); (7, false, TBytes); (8, false, TBytes)].
#[global, refine] Instance PendingKeyExchangeStructure_proto : ProtoMessage PendingKeyExchangeStructure := {|
  descriptor := textsecure__session_structure__pending_key_exchange__field_descriptors;
  to_slots m := [int_slot (pk_sequence m); bytes_slot (pk_localbasekey m);
    bytes_slot (pk_localbasekeyprivate m); bytes_slot (pk_localratchetkey m);
    bytes_slot (pk_localratchetkeyprivate m); bytes_slot (pk_localidentitykey m);
    bytes_slot (pk_localidentitykeyprivate m)];
  of_slots s := match s with
    | [a; b; c; d; e; f; g] => PendingKeyExchangeStructure_ (slot_int a) (slot_bytes b) (slot_bytes c)
        (slot_bytes d) (slot_bytes e) (slot_bytes f) (slot_bytes g)
    | _ => PendingKeyExchangeStructure_ None None None None None None None end
|}.
Proof. - slots_solve. - reflexivity. Defined.

Record PendingPreKeyStructure : Type := PendingPreKeyStructure_ {
  pp_prekeyid : option Z;
  pp_basekey : option bytes;
  pp_signedprekeyid : option Z
}.
Definition textsecure__session_structure__pending_pre_key__field_descriptors : list field :=
  [(1, false, TUint32); (2, false, TBytes); (3, false, TInt32)].
#[global, refine] Instance PendingPreKeyStructure_proto : ProtoMessage PendingPreKeyStructure := {|
  descriptor := textsecure__session_structure__pending_pre_key__field_descriptors;
  to_slots m := [int_slot (pp_prekeyid m); bytes_slot (pp_basekey m); int_slot (pp_signedprekeyid m)];
  of_slots s := match s with
    | [a; b; c] => PendingPreKeyStructure_ (slot_int a) (slot_bytes b) (slot_int c)
    | _ => PendingPreKeyStructure_ None None None end
|}.
Proof. - slots_solve. - reflexivity. Defined.

Record SessionStructure : Type := SessionStructure_ {
  ss_sessionversion : option Z;
  ss_localidentitypublic : option bytes;
  ss_remoteidentitypublic : option bytes;
  ss_rootkey : option bytes;
  ss_previouscounter : option Z;
  ss_senderchain : option ChainStructure;
  ss_receiverchains : list ChainStructure;
  ss_pendingkeyexchange : option PendingKeyExchangeStructure;
  ss_pendingprekey : option PendingPreKeyStructure;
  ss_remoteregistrationid : option Z;
  ss_localregistrationid : option Z;
  ss_needsrefresh : option Z;
  ss_alicebasekey : option bytes
}.
Definition textsecure__session_structure__field_descriptors : list field :=
  [(1, false, TUint32); (2, false, TBytes); (3, false, TBytes); (4, false, TBytes);
   (5, false, TUint32); (6, false, TMsg (descriptor ChainStructure));
   (7, true, TMsg (descriptor ChainStructure));
   (8, false, TMsg (descriptor PendingKeyExchangeStructure));
   (9, false, TMsg (descriptor PendingPreKeyStructure));
   (10, false, TUint32); (11, false, TUint32); (12, false, TBool); (13, false, TBytes)].
#[global, refine] Instance SessionStructure_proto : ProtoMessage SessionStructure := {|
  descriptor := textsecure__session_structure__field_descriptors;
  to_slots m := [int_slot (ss_sessionversion m); bytes_slot (ss_localidentitypublic m);
    bytes_slot (ss_remoteidentitypublic m); bytes_slot (ss_rootkey m);
    int_slot (ss_previouscounter m); msg_slot (ss_senderchain m); rep_slot (ss_receiverchains m);
    msg_slot (ss_pendingkeyexchange m); msg_slot (ss_pendingprekey m);
    int_slot (ss_remoteregistrationid m); int_slot (ss_localregistrationid m);
    int_slot (ss_needsrefresh m); bytes_slot (ss_alicebasekey m)];
  of_slots s := match s with
    | [a; b; c; d; e; f; g; h; i; j; k; l; m] => SessionStructure_ (slot_int a) (slot_bytes b)
        (slot_bytes c) (slot_bytes d) (slot_int e) (slot_msg f) (slot_rep g) (slot_msg h) (slot_msg i)
        (slot_int j) (slot_int k) (slot_int l) (slot_bytes m)
    | _ => SessionStructure_ None None None None None None [] None None None None None None end
|}.
Proof. - slots_solve. - reflexivity. Defined.

Record RecordStructure : Type := RecordStructure_ {
  rs_currentsession : option SessionStructure;
  rs_previoussessions : list SessionStructure
}.
Definition textsecure__record_structure__field_descriptors : list field :=
  [(1, false, TMsg (descriptor SessionStructure)); (2, true, TMsg (descriptor SessionStructure))].
#[global, refine] Instance RecordStructure_proto : ProtoMessage RecordStructure := {|
  descriptor := textsecure__record_structure__field_descriptors;
  to_slots m := [msg_slot (rs_currentsession m); rep_slot (rs_previoussessions m)];
  of_slots s := match s with
    | [a; b] => RecordStructure_ (slot_msg a) (slot_rep b)
    | _ => RecordStructure_ None [] end
|}.
Proof. - slots_solve. - reflexivity. Defined.

Record PreKeyRecordStructure : Type := PreKeyRecordStructure_ {
  pr_id : option Z;
  pr_publickey : option bytes;
  pr_privatekey : option bytes
}.
Definition textsecure__pre_key_record_structure__field_descriptors : list field :=
  [(1, false, TUint32); (2, false, TBytes); (3, false, TBytes)].
#[global, refine] Instance PreKeyRecordStructure_proto : ProtoMessage PreKeyRecordStructure := {|
  descriptor := textsecure__pre_key_record_structure__field_descriptors;
  to_slots m := [int_slot (pr_id m); bytes_slot (pr_publickey m); bytes_slot (pr_privatekey m)];
  of_slots s := match s with
    | [a; b; c] => PreKeyRecordStructure_ (slot_int a) (slot_bytes b) (slot_bytes c)
    | _ => PreKeyRecordStructure_ None None None end
|}.
Proof. - slots_solve. - reflexivity. Defined.

Record SignedPreKeyRecordStructure : Type := SignedPreKeyRecordStructure_ {
  sp_id : option Z;
  sp_publickey : option bytes;
  sp_privatekey : option bytes;
  sp_signature : option bytes;
  sp_timestamp : option Z
}.
Definition textsecure__signed_pre_key_record_structure__field_descriptors : list field :=
  [(1, false, TUint32); (2, false, TBytes); (3, false, TBytes); (4, false, TBytes);
   (5, false, TFixed64)].
#[global, refine] Instance SignedPreKeyRecordStructure_proto : ProtoMessage SignedPreKeyRecordStructure := {|
  descriptor := textsecure__signed_pre_key_record_structure__field_descriptors;
  to_slots m := [int_slot (sp_id m); bytes_slot (sp_publickey m); bytes_slot (sp_privatekey m);
                 bytes_slot (sp_signature m); int_slot (sp_timestamp m)];
  of_slots s := match s with
    | [a; b; c; d; e] => SignedPreKeyRecordStructure_ (slot_int a) (slot_bytes b) (slot_bytes c)
        (slot_bytes d) (slot_int e)
    | _ => SignedPreKeyRecordStructure_ None None None None None end
|}.
Proof. - slots_solve. - reflexivity. Defined.

Record IdentityKeyPairStructure : Type := IdentityKeyPairStructure_ {
  ik_publickey : option bytes;
  ik_privatekey : option bytes
}.
Definition textsecure__identity_key_pair_structure__field_descriptors : list field :=
  [(1, false, TBytes); (2, false, TBytes)].
#[global, refine] Instance IdentityKeyPairStructure_proto : ProtoMessage IdentityKeyPairStructure := {|
  descriptor := textsecure__identity_key_pair_structure__field_descriptors;
  to_slots m := [bytes_slot (ik_publickey m); bytes_slot (ik_privatekey m)];
  of_slots s := match s with
    | [a; b] => IdentityKeyPairStructure_ (slot_bytes a) (slot_bytes b)
    | _ => IdentityKeyPairStructure_ None None end
|}.
Proof. - slots_solve. - reflexivity. Defined.

Record SenderChainKeyStructure : Type := SenderChainKeyStructure_ {
  sck_iteration : option Z;
  sck_seed : option bytes
}.
Definition textsecure__sender_key_state_structure__sender_chain_key__field_descriptors : list field :=
  [(1, false, TUint32); (2, false, TBytes)].
#[global, refine] Instance SenderChainKeyStructure_proto : ProtoMessage SenderChainKeyStructure := {|
  descriptor := textsecure__sender_key_state_structure__sender_chain_key__field_descriptors;
  to_slots m := [int_slot (sck_iteration m); bytes_slot (sck_seed m)];
  of_slots s := match s with
    | [a; b] => SenderChainKeyStructure_ (slot_int a) (slot_bytes b)
    | _ => SenderChainKeyStructure_ None None end
|}.
Proof. - slots_solve. - reflexivity. Defined.

Record SenderSigningKeyStructure : Type := SenderSigningKeyStructure_ {
  ssk_public : option bytes;
  ssk_private : option bytes
}.
Definition textsecure__sender_key_state_structure__sender_signing_key__field_descriptors : list field :=
  [(1, false, TBytes); (2, false, TBytes)].
#[global, refine] Instance SenderSigningKeyStructure_proto : ProtoMessage SenderSigningKeyStructure := {|
  descriptor := textsecure__sender_key_state_structure__sender_signing_key__field_descriptors;
  to_slots m := [bytes_slot (ssk_public m); bytes_slot (ssk_private m)];
  of_slots s := match s with
    | [a; b] => SenderSigningKeyStructure_ (slot_bytes a) (slot_bytes b)
    | _ => SenderSigningKeyStructure_ None None end
|}.
Proof. - slots_solve. - reflexivity. Defined.

Record SenderMessageKeyStructure : Type := SenderMessageKeyStructure_ {
  smk_iteration : option Z;
  smk_seed : option bytes
}.
Definition textsecure__sender_key_state_structure__sender_message_key__field_descriptors : list field :=
  [(1, false, TUint32); (2, false, TBytes)].
#[global, refine] Instance SenderMessageKeyStructure_proto : ProtoMessage SenderMessageKeyStructure := {|
  descriptor := textsecure__sender_key_state_structure__sender_message_key__field_descriptors;
  to_slots m := [int_slot (smk_iteration m); bytes_slot (smk_seed m)];
  of_slots s := match s with
    | [a; b] => SenderMessageKeyStructure_ (slot_int a) (slot_bytes b)
    | _ => SenderMessageKeyStructure_ None None end
|}.
Proof. - slots_solve. - reflexivity. Defined.

Record SenderKeyStateStructure : Type := SenderKeyStateStructure_ {
  sks_senderkeyid : option Z;
  sks_senderchainkey : option SenderChainKeyStructure;
  sks_sendersigningkey : option SenderSigningKeyStructure;
  sks_sendermessagekeys : list SenderMessageKeyStructure
}.
Definition textsecure__sender_key_state_structure__field_descriptors : list field :=
  [(1, false, TUint32); (2, false, TMsg (descriptor SenderChainKeyStructure));
   (3, false, TMsg (descriptor SenderSigningKeyStructure));
   (4, true, TMsg (descriptor SenderMessageKeyStructure))].
#[global, refine] Instance SenderKeyStateStructure_proto : ProtoMessage SenderKeyStateStructure := {|
  descriptor := textsecure__sender_key_state_structure__field_descriptors;
  to_slots m := [int_slot (sks_senderkeyid m); msg_slot (sks_senderchainkey m);
                 msg_slot (sks_sendersigningkey m); rep_slot (sks_sendermessagekeys m)];
  of_slots s := match s with
    | [a; b; c; d] => SenderKeyStateStructure_ (slot_int a) (slot_msg b) (slot_msg c) (slot_rep d)
    | _ => SenderKeyStateStructure_ None None None [] end
|}.
Proof. - slots_solve. - reflexivity. Defined.

Record SenderKeyRecordStructure : Type := SenderKeyRecordStructure_ {
  skr_senderkeystates : list SenderKeyStateStructure
}.
Definition textsecure__sender_key_record_structure__field_descriptors : list field :=
  [(1, true, TMsg (descriptor SenderKeyStateStructure))].
#[global, refine] Instance SenderKeyRecordStructure_proto : ProtoMessage SenderKeyRecordStructure := {|
  descriptor := textsecure__sender_key_record_structure__field_descriptors;
  to_slots m := [rep_slot (skr_senderkeystates m)];
  of_slots s := match s with
    | [a] => SenderKeyRecordStructure_ (slot_rep a)
    | _ => SenderKeyRecordStructure_ [] end
|}.
Proof. - slots_solve. - reflexivity. Defined.

(** * WhisperTextProtocol *)

Record SignalMessage : Type := SignalMessage_ {
  sm_ratchetkey : option bytes;
  sm_counter : option Z;
  sm_previouscounter : option Z;
  sm_ciphertext : option bytes
}.
Definition textsecure__signal_message__field_descriptors : list field :=
  [(1, false, TBytes); (2, false, TUint32); (3, false, TUint32); (4, false, TBytes)].
#[global, refine] Instance SignalMessage_proto : ProtoMessage SignalMessage := {|
  descriptor := textsecure__signal_message__field_descriptors;
  to_slots m := [bytes_slot (sm_ratchetkey m); int_slot (sm_counter m);
                 int_slot (sm_previouscounter m); bytes_slot (sm_ciphertext m)];
  of_slots s := match s with
    | [a; b; c; d] => SignalMessage_ (slot_bytes a) (slot_int b) (slot_int c) (slot_bytes d)
    | _ => SignalMessage_ None None None None end
|}.
Proof. - slots_solve. - reflexivity. Defined.

Record PreKeySignalMessage : Type := PreKeySignalMessage_ {
  pm_prekeyid : option Z;
  pm_basekey : option bytes;
  pm_identitykey : option bytes;
  pm_message : option bytes;
  pm_registrationid : option Z;
  pm_signedprekeyid : option Z
}.
Definition textsecure__pre_key_signal_message__field_descriptors : list field :=
  [(1, false, TUint32); (2, false, TBytes); (3, false, TBytes); (4, false, TBytes);
   (5, false, TUint32); (6, false, TUint32)].
#[global, refine] Instance PreKeySignalMessage_proto : ProtoMessage PreKeySignalMessage := {|
  descriptor := textsecure__pre_key_signal_message__field_descriptors;
  to_slots m := [int_slot (pm_prekeyid m); bytes_slot (pm_basekey m); bytes_slot (pm_identitykey m);
                 bytes_slot (pm_message m); int_slot (pm_registrationid m); int_slot (pm_signedprekeyid m)];
  of_slots s := match s with
    | [a; b; c; d; e; f] => PreKeySignalMessage_ (slot_int a) (slot_bytes b) (slot_bytes c)
        (slot_bytes d) (slot_int e) (slot_int f)
    | _ => PreKeySignalMessage_ None None None None None None end
|}.
Proof. - slots_solve. - reflexivity. Defined.

Record KeyExchangeMessage : Type := KeyExchangeMessage_ {
  km_id : option Z;
  km_basekey : option bytes;
  km_ratchetkey : option bytes;
  km_identitykey : option bytes;
  km_basekeysignature : option bytes
}.
Definition textsecure__key_exchange_message__field_descriptors : list field :=
  [(1, false, TUint32); (2, false, TBytes); (3, false, TBytes); (4, false, TBytes);
   (5, false, TBytes)].
#[global, refine] Instance KeyExchangeMessage_proto : ProtoMessage KeyExchangeMessage := {|
  descriptor := textsecure__key_exchange_message__field_descriptors;
  to_slots m := [int_slot (km_id m); bytes_slot (km_basekey m); bytes_slot (km_ratchetkey m);
                 bytes_slot (km_identitykey m); bytes_slot (km_basekeysignature m)];
  of_slots s := match s with
    | [a; b; c; d; e] => KeyExchangeMessage_ (slot_int a) (slot_bytes b) (slot_bytes c)
        (slot_bytes d) (slot_bytes e)
    | _ => KeyExchangeMessage_ None None None None None end
|}.
Proof. - slots_solve. - reflexivity. Defined.

Record SenderKeyMessage : Type := SenderKeyMessage_ {
  skm_id : option Z;
  skm_iteration : option Z;
  skm_ciphertext : option bytes
}.
Definition textsecure__sender_key_message__field_descriptors : list field :=
  [(1, false, TUint32); (2, false, TUint32); (3, false, TBytes)].
#[global, refine] Instance SenderKeyMessage_proto : ProtoMessage SenderKeyMessage := {|
  descriptor := textsecure__sender_key_message__field_descriptors;
  to_slots m := [int_slot (skm_id m); int_slot (skm_iteration m); bytes_slot (skm_ciphertext m)];
  of_slots s := match s with
    | [a; b; c] => SenderKeyMessage_ (slot_int a) (slot_int b) (slot_bytes c)
    | _ => SenderKeyMessage_ None None None end
|}.
Proof. - slots_solve. - reflexivity. Defined.

Record SenderKeyDistributionMessage : Type := SenderKeyDistributionMessage_ {
  skd_id : option Z;
  skd_iteration : option Z;
  skd_chainkey : option bytes;
  skd_signingkey : option bytes
}.
Definition textsecure__sender_key_distribution_message__field_descriptors : list field :=
  [(1, false, TUint32); (2, false, TUint32); (3, false, TBytes); (4, false, TBytes)].
#[global, refine] Instance SenderKeyDistributionMessage_proto : ProtoMessage SenderKeyDistributionMessage := {|
  descriptor := textsecure__sender_key_distribution_message__field_descriptors;
  to_slots m := [int_slot (skd_id m); int_slot (skd_iteration m); bytes_slot (skd_chainkey m);
                 bytes_slot (skd_signingkey m)];
  of_slots s := match s with
    | [a; b; c; d] => SenderKeyDistributionMessage_ (slot_int a) (slot_int b) (slot_bytes c) (slot_bytes d)
    | _ => SenderKeyDistributionMessage_ None None None None end
|}.
Proof. - slots_solve. - reflexivity. Defined.

(** * FingerprintProtocol *)

Record FingerprintData : Type := FingerprintData_ {
  fd_publickey : option bytes;
  fd_identifier : option bytes
}.
Definition textsecure__fingerprint_data__field_descriptors : list field :=
  [(1, false, TBytes); (2, false, TBytes)].
#[global, refine] Instance FingerprintData_proto : ProtoMessage FingerprintData := {|
  descriptor := textsecure__fingerprint_data__field_descriptors;
  to_slots m := [bytes_slot (fd_publickey m); bytes_slot (fd_identifier m)];
  of_slots s := match s with
    | [a; b] => FingerprintData_ (slot_bytes a) (slot_bytes b)
    | _ => FingerprintData_ None None end
|}.
Proof. - slots_solve. - reflexivity. Defined.

Record CombinedFingerprint : Type := CombinedFingerprint_ {
  cf_version : option Z;
  cf_localfingerprint : option FingerprintData;
  cf_remotefingerprint : option FingerprintData
}.
Definition textsecure__combined_fingerprint__field_descriptors : list field :=
  [(1, false, TUint32); (2, false, TMsg (descriptor FingerprintData));
   (3, false, TMsg (descriptor FingerprintData))].
#[global, refine] Instance CombinedFingerprint_proto : ProtoMessage CombinedFingerprint := {|
  descriptor := textsecure__combined_fingerprint__field_descriptors;
  to_slots m := [int_slot (cf_version m); msg_slot (cf_localfingerprint m); msg_slot (cf_remotefingerprint m)];
  of_slots s := match s with
    | [a; b; c] => CombinedFingerprint_ (slot_int a) (slot_msg b) (slot_msg c)
    | _ => CombinedFingerprint_ None None None end
|}.
Proof. - slots_solve. - reflexivity. Defined.

(** ** Typing of the slots *)

Definition opt_all {A} (P : A -> Prop) (o : option A) : Prop := match o with Some a => P a | None => True end.

Lemma typed_int_slot o : opt_all is_u32 o -> Forall (typed_value TUint32) (int_slot o).
Proof. destruct o; simpl; auto. Qed.
Lemma typed_bytes_slot o : Forall (typed_value TBytes) (bytes_slot o).
Proof. destruct o; simpl; auto. Qed.
Lemma typed_msg_slot {A} `{ProtoMessage A} (o : option A) :
  opt_all proto_typed o -> Forall (typed_value (TMsg (descriptor A))) (msg_slot o).
Proof. destruct o; simpl; auto. Qed.
Lemma typed_rep_slot {A} `{ProtoMessage A} (l : list A) :
  Forall proto_typed l -> Forall (typed_value (TMsg (descriptor A))) (rep_slot l).
Proof. intros Hl. apply Forall_map. eapply Forall_impl; [exact Hl|]. done. Qed.

Lemma length_int_slot o : (length (int_slot o) <= 1)%nat.
Proof. destruct o; simpl; lia. Qed.
Lemma length_bytes_slot o : (length (bytes_slot o) <= 1)%nat.
Proof. destruct o; simpl; lia. Qed.
Lemma length_msg_slot {A} `{ProtoMessage A} (o : option A) : (length (msg_slot o) <= 1)%nat.
Proof. destruct o; simpl; lia. Qed.

(** Reduces [proto_typed] of a record to the ranges of its integers and the
    typing of its sub-messages. *)
Ltac proto_typed_solve :=
  unfold proto_typed; cbn -[int_slot bytes_slot msg_slot rep_slot typed_value is_u32];
  repeat first
    [ done
    | apply typed_int_slot; simpl; (done || (unfold is_u32, UINT32_MOD in *; lia) || idtac)
    | apply typed_bytes_slot
    | match goal with
      | |- Forall _ (@msg_slot ?A ?H ?o) => apply (@typed_msg_slot A H o)
      | |- Forall _ (@rep_slot ?A ?H ?l) => apply (@typed_rep_slot A H l)
      end
    | (intros _; first [apply length_int_slot | apply length_bytes_slot | apply length_msg_slot])
    | split ].

(** Whatever the octets, the generated parsers do not read outside them. *)
Lemma safe_proto_unpack {U A} `{ProtoMessage A} data : safe (proto_unpack (U := U) (A := A) data).
Proof.
  unfold proto_unpack. apply safe_bind_any; [auto with safe_db|]. intros []; [|auto with safe_db].
  pose proof (unpack_in_bounds (descriptor A) data) as H1.
  destruct (unpack (descriptor A) data); [auto with safe_db|auto with safe_db|done].
Qed.
#[export] Hint Resolve safe_proto_unpack : safe_db.
