(* ===== verification/Ratchet.v ===== *)
(** ratchet.c, first half: chain keys, root keys, message keys and identity
    key pairs.  [Spec] holds the derivations of the Double Ratchet as pure
    functions; the lemmas show that the C routines compute them. *)
From Stdlib Require Import String.
From stdpp Require Import base list.
From Stdlib Require Import ZArith Lia.
From S2P Require Import Prelude Buffers Hkdf Curve Protobuf Messages.
#[local] Open Scope Z_scope.
#[local] Open Scope signal_scope.

Definition RATCHET_CIPHER_KEY_LENGTH : nat := 32.
Definition RATCHET_MAC_KEY_LENGTH : nat := 32.
Definition RATCHET_IV_LENGTH : nat := 16.
Definition DERIVED_MESSAGE_SECRETS_SIZE : nat := 80.
Definition DERIVED_ROOT_SECRETS_SIZE : nat := 64.

Record ratchet_message_keys : Type := RatchetMessageKeys {
  cipher_key : bytes;
  mac_key : bytes;
  iv : bytes;
  counter : Z
}.

Record ratchet_chain_key : Type := RatchetChainKey {
  chain_kdf : hkdf_context;
  chain_key : bytes;
  chain_index : Z
}.

Record ratchet_root_key : Type := RatchetRootKey {
  root_kdf : hkdf_context;
  root_key : bytes
}.

Record ratchet_identity_key_pair : Type := RatchetIdentityKeyPair {
  identity_public : ec_public_key;
  identity_private : ec_private_key
}.

Definition message_key_seed : bytes := [1].
Definition chain_key_seed : bytes := [2].
Definition zero_salt : bytes := replicate 32 0.
Definition message_keys_info : bytes := ascii_bytes "WhisperMessageKeys".
Definition ratchet_info : bytes := ascii_bytes "WhisperRatchet".

Section Keys.
Context {U : Type} `{CP : CryptoProvider} `{CV : Curve25519}.

Definition ratchet_chain_key_create (kdf : option hkdf_context) (key : option bytes) (index : Z)
    : M U ratchet_chain_key :=
  match kdf, key with
  | Some kdf, Some key =>
      malloc ;;;
      malloc ;;;
      ret (RatchetChainKey kdf key index)
  | _, _ => fail SG_ERR_INVAL
  end.

Definition ratchet_chain_key_get_key (ck : ratchet_chain_key) : M U bytes :=
  alloc_or_nomem (blen (chain_key ck)) ;;; ret (chain_key ck).

Definition ratchet_chain_key_get_key_protobuf (ck : ratchet_chain_key) : M U bytes :=
  malloc ;;; ret (chain_key ck).

Definition ratchet_chain_key_get_index (ck : ratchet_chain_key) : Z := chain_index ck.

Definition ratchet_chain_key_get_base_material (ck : ratchet_chain_key) (seed : bytes) : M U bytes :=
  let* hmac_context := signal_hmac_sha256_init (chain_key ck) in
  let* hmac_context := signal_hmac_sha256_update hmac_context seed in
  let* output_buffer := signal_hmac_sha256_final hmac_context in
  malloc ;;;
  ret output_buffer.

Definition ratchet_chain_key_get_message_keys (ck : ratchet_chain_key) : M U ratchet_message_keys :=
  let* input_key_material := ratchet_chain_key_get_base_material ck message_key_seed in
  let* key_material_data := hkdf_derive_secrets (chain_kdf ck) input_key_material zero_salt
    (Some message_keys_info) DERIVED_MESSAGE_SECRETS_SIZE in
  match key_material_data with
  | None => fail SG_ERR_UNKNOWN
  | Some d =>
      if negb (Nat.eqb (length d)
           (RATCHET_CIPHER_KEY_LENGTH + RATCHET_MAC_KEY_LENGTH + RATCHET_IV_LENGTH))
      then fail SG_ERR_UNKNOWN
      else ret (RatchetMessageKeys
        (take RATCHET_CIPHER_KEY_LENGTH d)
        (take RATCHET_MAC_KEY_LENGTH (drop RATCHET_CIPHER_KEY_LENGTH d))
        (take RATCHET_IV_LENGTH (drop (RATCHET_CIPHER_KEY_LENGTH + RATCHET_MAC_KEY_LENGTH) d))
        (chain_index ck))
  end.

(** The index is a [uint32_t]. *)
Definition ratchet_chain_key_create_next (ck : ratchet_chain_key) : M U ratchet_chain_key :=
  let* next_key := ratchet_chain_key_get_base_material ck chain_key_seed in
  ratchet_chain_key_create (Some (chain_kdf ck)) (Some next_key) (u32 (chain_index ck + 1)).

Definition ratchet_root_key_create (kdf : option hkdf_context) (key : option bytes)
    : M U ratchet_root_key :=
  match kdf, key with
  | Some kdf, Some key =>
      malloc ;;;
      malloc ;;;
      ret (RatchetRootKey kdf key)
  | _, _ => fail SG_ERR_INVAL
  end.

Definition ratchet_root_key_create_chain (rk : ratchet_root_key)
    (their_ratchet_key : option ec_public_key) (our_ratchet_key_private : option ec_private_key)
    : M U (ratchet_root_key * ratchet_chain_key) :=
  match their_ratchet_key, our_ratchet_key_private with
  | Some their_ratchet_key, Some our_ratchet_key_private =>
      let* shared_secret :=
        curve_calculate_agreement (Some their_ratchet_key) (Some our_ratchet_key_private) in
      let* derived_secret := hkdf_derive_secrets (root_kdf rk) shared_secret (root_key rk)
        (Some ratchet_info) DERIVED_ROOT_SECRETS_SIZE in
      match derived_secret with
      | None => fail SG_ERR_UNKNOWN
      | Some d =>
          if negb (Nat.eqb (length d) DERIVED_ROOT_SECRETS_SIZE) then fail SG_ERR_UNKNOWN
          else
            let* new_root_key := ratchet_root_key_create (Some (root_kdf rk)) (Some (take 32 d)) in
            let* new_chain_key :=
              ratchet_chain_key_create (Some (root_kdf rk)) (Some (take 32 (drop 32 d))) 0 in
            ret (new_root_key, new_chain_key)
      end
  | _, _ => fail SG_ERR_INVAL
  end.

Definition ratchet_root_key_get_key (rk : ratchet_root_key) : M U bytes :=
  alloc_or_nomem (blen (root_key rk)) ;;; ret (root_key rk).

Definition ratchet_root_key_get_key_protobuf (rk : ratchet_root_key) : M U bytes :=
  malloc ;;; ret (root_key rk).

Definition ratchet_identity_key_pair_create (public_key : ec_public_key)
    (private_key : ec_private_key) : M U ratchet_identity_key_pair :=
  malloc ;;; ret (RatchetIdentityKeyPair public_key private_key).

Definition ratchet_identity_key_pair_serialize (key_pair : option ratchet_identity_key_pair)
    : M U bytes :=
  match key_pair with
  | None => fail SG_ERR_INVAL
  | Some kp =>
      let* public := ec_public_key_serialize_protobuf (identity_public kp) in
      let* private := ec_private_key_serialize_protobuf (identity_private kp) in
      proto_pack (IdentityKeyPairStructure_ (Some public) (Some private))
  end.

Definition ratchet_identity_key_pair_deserialize (data : bytes) : M U ratchet_identity_key_pair :=
  let* key_structure := proto_unpack (A := IdentityKeyPairStructure) data in
  match ik_publickey key_structure, ik_privatekey key_structure with
  | Some public, Some private =>
      let* public_key := curve_decode_point public in
      let* private_key := curve_decode_private_point private in
      ratchet_identity_key_pair_create public_key private_key
  | _, _ => fail SG_ERR_INVALID_KEY
  end.
End Keys.

Arguments ratchet_root_key_create_chain : simpl never.

Definition ratchet_root_key_compare (key1 key2 : option ratchet_root_key) : Z :=
  compare_ptr (fun k1 k2 =>
    let kdf_compare := hkdf_compare (Some (root_kdf k1)) (Some (root_kdf k2)) in
    if negb (kdf_compare =? 0) then kdf_compare
    else if blen (root_key k1) <? blen (root_key k2) then -1
    else if blen (root_key k2) <? blen (root_key k1) then 1
    else signal_constant_memcmp (root_key k1) (root_key k2) (length (root_key k1))) key1 key2.

(** * The derivations *)

Module Ratchet.
Section Spec.
Context `{CL : CryptoLaws}.

Definition next_chain (ck : ratchet_chain_key) : ratchet_chain_key :=
  RatchetChainKey (chain_kdf ck) (hmac_spec (chain_key ck) chain_key_seed)
    (u32 (chain_index ck + 1)).

Definition message_secrets (ck : ratchet_chain_key) : bytes :=
  Spec.hkdf (iteration_start_offset (chain_kdf ck)) (hmac_spec (chain_key ck) message_key_seed)
    zero_salt message_keys_info DERIVED_MESSAGE_SECRETS_SIZE.

Definition message_keys (ck : ratchet_chain_key) : ratchet_message_keys :=
  let d := message_secrets ck in
  RatchetMessageKeys (take 32 d) (take 32 (drop 32 d)) (take 16 (drop 64 d)) (chain_index ck).

(** The key of the chain [n] steps on, and its message keys. *)
Definition nth_chain (n : nat) (ck : ratchet_chain_key) : ratchet_chain_key :=
  Nat.iter n next_chain ck.

Definition root_secrets (rk : ratchet_root_key) (shared : bytes) : bytes :=
  Spec.hkdf (iteration_start_offset (root_kdf rk)) shared (root_key rk) ratchet_info
    DERIVED_ROOT_SECRETS_SIZE.

Definition root_step (rk : ratchet_root_key) (shared : bytes)
    : ratchet_root_key * ratchet_chain_key :=
  let d := root_secrets rk shared in
  (RatchetRootKey (root_kdf rk) (take 32 d), RatchetChainKey (root_kdf rk) (take 32 (drop 32 d)) 0).
End Spec.
End Ratchet.

(** A context [hkdf_create] makes. *)
Definition wf_kdf (c : hkdf_context) : Prop := 0 <= iteration_start_offset c <= 1.

(** The sizes of the arrays of [ratchet_message_keys]. *)
Record wf_message_keys (k : ratchet_message_keys) : Prop := {
  wf_cipher_key : length (cipher_key k) = 32%nat;
  wf_mac_key : length (mac_key k) = 32%nat;
  wf_iv : length (iv k) = 16%nat;
  wf_counter : is_u32 (counter k)
}.

(** * Lemmas *)

Section Run.
Context {U : Type} `{CL : CryptoLaws} `{VL : CurveLaws}.
Implicit Types w : world U.

Lemma ratchet_chain_key_create_ok kdf key index w : mem_ok w ->
  ratchet_chain_key_create (Some kdf) (Some key) index w = (Ok (RatchetChainKey kdf key index), w).
Proof. intros Hm. simpl. by do 2 erewrite bind_ok by by apply malloc_ok. Qed.

Lemma ratchet_root_key_create_ok kdf key w : mem_ok w ->
  ratchet_root_key_create (Some kdf) (Some key) w = (Ok (RatchetRootKey kdf key), w).
Proof. intros Hm. simpl. by do 2 erewrite bind_ok by by apply malloc_ok. Qed.

Lemma base_material_ok ck seed w : mem_ok w ->
  ratchet_chain_key_get_base_material ck seed w = (Ok (hmac_spec (chain_key ck) seed), w).
Proof.
  intros Hm. unfold ratchet_chain_key_get_base_material.
  destruct (hmac_init_run (chain_key ck) w) as (c & E & R). erewrite bind_ok by exact E.
  destruct (hmac_update_run c _ [] seed w R) as (c' & E' & R'). erewrite bind_ok by exact E'.
  erewrite bind_ok by (by apply (hmac_final_run _ _ _ _ R')).
  by erewrite bind_ok by by apply malloc_ok.
Qed.

Lemma create_next_ok ck w : mem_ok w ->
  ratchet_chain_key_create_next ck w = (Ok (Ratchet.next_chain ck), w).
Proof.
  intros Hm. unfold ratchet_chain_key_create_next.
  erewrite bind_ok by by apply base_material_ok. by apply ratchet_chain_key_create_ok.
Qed.

Lemma get_message_keys_ok ck w : mem_ok w -> wf_kdf (chain_kdf ck) ->
  ratchet_chain_key_get_message_keys ck w = (Ok (Ratchet.message_keys ck), w).
Proof.
  intros Hm Hk. unfold ratchet_chain_key_get_message_keys.
  erewrite bind_ok by by apply base_material_ok.
  destruct ck as [[off] key idx]. unfold wf_kdf in Hk. cbn in Hk.
  erewrite bind_ok; cycle 1.
  { apply hkdf_derive_secrets_run; try done; [unfold DERIVED_MESSAGE_SECRETS_SIZE; lia|].
    change (hkdf_iterations DERIVED_MESSAGE_SECRETS_SIZE) with 3. lia. }
  cbn [info_bytes default]. rewrite length_hkdf. done.
Qed.

Lemma wf_message_keys_spec ck : is_u32 (chain_index ck) -> wf_message_keys (Ratchet.message_keys ck).
Proof.
  intros Hi. assert (length (Ratchet.message_secrets ck) = 80%nat) as Hl by apply length_hkdf.
  split; unfold Ratchet.message_keys; cbn [cipher_key mac_key iv counter]; [..|done];
    rewrite length_take, ?length_drop, Hl; done.
Qed.

Lemma create_chain_ok rk p k w : mem_ok w -> wf_kdf (root_kdf rk) -> wf_public p -> wf_private k ->
  ratchet_root_key_create_chain rk (Some p) (Some k) w =
  (Ok (Ratchet.root_step rk (agree k p)), w).
Proof.
  intros Hm Hk Hp Hs. unfold ratchet_root_key_create_chain.
  destruct (curve_calculate_agreement_ok p k w Hm Hp Hs) as [E Hl]. erewrite bind_ok by exact E.
  destruct rk as [[off] key]. unfold wf_kdf in Hk. cbn in Hk.
  erewrite bind_ok; cycle 1.
  { apply hkdf_derive_secrets_run; try done; [unfold DERIVED_ROOT_SECRETS_SIZE; lia|].
    change (hkdf_iterations DERIVED_ROOT_SECRETS_SIZE) with 2. lia. }
  cbv beta iota. rewrite length_hkdf. cbn [Nat.eqb negb DERIVED_ROOT_SECRETS_SIZE].
  erewrite bind_ok by by apply ratchet_root_key_create_ok.
  by erewrite bind_ok by by apply ratchet_chain_key_create_ok.
Qed.

Lemma length_root_step rk shared :
  length (root_key (fst (Ratchet.root_step rk shared))) = 32%nat /\
  length (chain_key (snd (Ratchet.root_step rk shared))) = 32%nat.
Proof.
  assert (length (Ratchet.root_secrets rk shared) = 64%nat) as Hl by apply length_hkdf.
  unfold Ratchet.root_step; cbn [fst snd root_key chain_key];
    rewrite !length_take, ?length_drop, Hl; done.
Qed.

Lemma chain_kdf_nth n ck : chain_kdf (Ratchet.nth_chain n ck) = chain_kdf ck.
Proof. induction n; [done|]. simpl. done. Qed.

Lemma nth_chain_S n ck : Ratchet.nth_chain (S n) ck = Ratchet.nth_chain n (Ratchet.next_chain ck).
Proof. unfold Ratchet.nth_chain. by rewrite Nat.iter_succ_r. Qed.

Lemma chain_index_nth n ck : is_u32 (chain_index ck) ->
  chain_index (Ratchet.nth_chain n ck) = u32 (chain_index ck + Z.of_nat n).
Proof.
  intros Hi. induction n as [|n IH]; simpl.
  - rewrite Z.add_0_r. by rewrite u32_small.
  - fold (Ratchet.nth_chain n ck). rewrite IH. unfold u32. rewrite Zplus_mod_idemp_l.
    f_equal. lia.
Qed.
End Run.

Section Always.
Context {U : Type} `{CP : CryptoProvider} `{CV : Curve25519}.

Lemma frame_chain_key_create kdf key i : frame (@ratchet_chain_key_create U kdf key i).
Proof. unfold ratchet_chain_key_create. frame_solve. Qed.
Lemma frame_root_key_create kdf key : frame (@ratchet_root_key_create U kdf key).
Proof. unfold ratchet_root_key_create. frame_solve. Qed.
Lemma frame_get_message_keys ck : frame (@ratchet_chain_key_get_message_keys U CP ck).
Proof. unfold ratchet_chain_key_get_message_keys, ratchet_chain_key_get_base_material. frame_solve. Qed.
Lemma frame_create_next ck : frame (@ratchet_chain_key_create_next U CP ck).
Proof.
  unfold ratchet_chain_key_create_next, ratchet_chain_key_get_base_material. frame_solve;
    apply frame_chain_key_create.
Qed.
Lemma frame_create_chain rk p k : frame (@ratchet_root_key_create_chain U CP CV rk p k).
Proof.
  unfold ratchet_root_key_create_chain. frame_solve;
    first [apply frame_chain_key_create|apply frame_root_key_create].
Qed.
Lemma frame_identity_create p k : frame (@ratchet_identity_key_pair_create U p k).
Proof. unfold ratchet_identity_key_pair_create. frame_solve. Qed.

(** What any successful run of the two steps of a chain returns. *)
Lemma post_get_message_keys ck :
  post (@ratchet_chain_key_get_message_keys U CP ck) (fun k =>
    counter k = chain_index ck /\ length (cipher_key k) = 32%nat /\ length (mac_key k) = 32%nat /\
    length (iv k) = 16%nat).
Proof.
  unfold ratchet_chain_key_get_message_keys. post_solve.
  cbn [counter cipher_key mac_key iv]. split; [done|].
  rewrite !length_take, !length_drop.
  match goal with H : negb (_ =? _)%nat = false |- _ =>
    apply negb_false_iff, Nat.eqb_eq in H; rewrite H end.
  done.
Qed.

Lemma post_create_next ck :
  post (@ratchet_chain_key_create_next U CP ck) (fun k =>
    chain_index k = u32 (chain_index ck + 1) /\ chain_kdf k = chain_kdf ck).
Proof.
  unfold ratchet_chain_key_create_next, ratchet_chain_key_create. post_solve. done.
Qed.
End Always.
#[export] Hint Resolve frame_chain_key_create frame_root_key_create frame_get_message_keys
  frame_create_next frame_create_chain frame_identity_create : frame_db.

(** ** Identity key pairs *)

Section Identity.
Context {U : Type}.
Implicit Types w : world U.

Lemma identity_structure_wf p k : wf_public p -> wf_private k ->
  proto_wf (IdentityKeyPairStructure_ (Some (ec_public_key_bytes p))
    (Some (take DJB_KEY_LEN (ec_private_data k)))).
Proof.
  intros Hp Hk. pose proof (blen_ec_public_key_bytes _ Hp) as E1.
  pose proof (blen_private_data k) as E2. revert E1 E2.
  generalize (ec_public_key_bytes p), (take DJB_KEY_LEN (ec_private_data k)).
  intros b1 b2 E1 E2. split; [proto_typed_solve|]. eapply wf_size_ub; [apply packed_ub|].
  unfold slots_ub. simpl. lia.
Qed.

Lemma identity_key_pair_roundtrip kp w : mem_ok w ->
  wf_public (identity_public kp) -> wf_private (identity_private kp) ->
  bind (ratchet_identity_key_pair_serialize (Some kp)) ratchet_identity_key_pair_deserialize w =
  (Ok kp, w).
Proof.
  intros Hm Hp Hs. set (st := IdentityKeyPairStructure_ (Some (ec_public_key_bytes (identity_public kp)))
    (Some (take DJB_KEY_LEN (ec_private_data (identity_private kp))))).
  assert (proto_wf st) as Hwf by by apply identity_structure_wf.
  unfold ratchet_identity_key_pair_serialize. erewrite bind_ok; cycle 1.
  { erewrite bind_ok by by apply ec_public_key_serialize_protobuf_ok.
    erewrite bind_ok by by apply ec_private_key_serialize_protobuf_ok.
    by apply (proto_pack_ok st). }
  unfold ratchet_identity_key_pair_deserialize.
  erewrite bind_ok by by apply (proto_unpack_pack st). simpl.
  erewrite bind_ok by by apply curve_decode_point_ok.
  erewrite bind_ok by by apply curve_decode_private_point_ok.
  unfold ratchet_identity_key_pair_create. erewrite bind_ok by by apply malloc_ok.
  by destruct kp.
Qed.
End Identity.
