(* ===== verification/SessionState.v ===== *)
(** session_state.c: the state of one session.  Doubly linked lists are lists
    (DL_APPEND at the end), nullable pointers options; setters that only
    exchange a reference are record updates.  The second half of the file
    models the storage form and shows that [session_state_deserialize] reads
    back what [session_state_serialize] writes. *)
From stdpp Require Import base list.
From Stdlib Require Import ZArith Lia.
From S2P Require Import Prelude Buffers Hkdf Curve Protobuf Messages Ratchet.
#[local] Open Scope Z_scope.
#[local] Open Scope signal_scope.

Definition MAX_MESSAGE_KEYS : nat := Z.to_nat 2000.
Definition MAX_RECEIVER_CHAINS : nat := 5.

Record session_state_sender_chain : Type := SenderChain {
  sc_ratchet_key_pair : option ec_key_pair;
  sc_chain_key : option ratchet_chain_key;
  sc_message_keys : list ratchet_message_keys
}.

Record session_state_receiver_chain : Type := ReceiverChain {
  rc_ratchet_key : option ec_public_key;
  rc_chain_key : option ratchet_chain_key;
  rc_message_keys : list ratchet_message_keys
}.

Record session_pending_key_exchange : Type := PendingKeyExchange {
  pke_sequence : Z;
  pke_local_base_key : option ec_key_pair;
  pke_local_ratchet_key : option ec_key_pair;
  pke_local_identity_key : option ratchet_identity_key_pair
}.

Record session_pending_pre_key : Type := PendingPreKey {
  ppk_pre_key_id : option Z;
  ppk_signed_pre_key_id : Z;
  ppk_base_key : option ec_public_key
}.

Record session_state : Type := SessionState {
  st_session_version : Z;
  st_local_identity_public : option ec_public_key;
  st_remote_identity_public : option ec_public_key;
  st_root_key : option ratchet_root_key;
  st_previous_counter : Z;
  st_has_sender_chain : bool;
  st_sender_chain : session_state_sender_chain;
  st_receiver_chains : list session_state_receiver_chain;
  st_has_pending_key_exchange : bool;
  st_pending_key_exchange : session_pending_key_exchange;
  st_has_pending_pre_key : bool;
  st_pending_pre_key : session_pending_pre_key;
  st_remote_registration_id : Z;
  st_local_registration_id : Z;
  st_needs_refresh : Z;
  st_alice_base_key : option ec_public_key
}.

(** The structures after [memset]. *)
Definition sender_chain_zero : session_state_sender_chain := SenderChain None None [].
Definition pending_key_exchange_zero : session_pending_key_exchange := PendingKeyExchange 0 None None None.
Definition pending_pre_key_zero : session_pending_pre_key := PendingPreKey None 0 None.

Definition session_state_init : session_state :=
  SessionState 2 None None None 0 false sender_chain_zero [] false pending_key_exchange_zero
    false pending_pre_key_zero 0 0 0 None.

Definition session_state_create {U} : M U session_state := malloc ;;; ret session_state_init.

(** ** Setters *)

Definition session_state_set_session_version (v : Z) (s : session_state) : session_state :=
  match s with SessionState _ b c d e f g h i j k l m n o p => SessionState v b c d e f g h i j k l m n o p end.
Definition session_state_set_local_identity_key (x : ec_public_key) (s : session_state) : session_state :=
  match s with SessionState a _ c d e f g h i j k l m n o p => SessionState a (Some x) c d e f g h i j k l m n o p end.
Definition session_state_set_remote_identity_key (x : ec_public_key) (s : session_state) : session_state :=
  match s with SessionState a b _ d e f g h i j k l m n o p => SessionState a b (Some x) d e f g h i j k l m n o p end.
Definition session_state_set_root_key (x : ratchet_root_key) (s : session_state) : session_state :=
  match s with SessionState a b c _ e f g h i j k l m n o p => SessionState a b c (Some x) e f g h i j k l m n o p end.
Definition session_state_set_previous_counter (x : Z) (s : session_state) : session_state :=
  match s with SessionState a b c d _ f g h i j k l m n o p => SessionState a b c d x f g h i j k l m n o p end.
Definition session_state_set_sender_chain (kp : ec_key_pair) (ck : ratchet_chain_key) (s : session_state)
    : session_state :=
  match s with SessionState a b c d e f g h i j k l m n o p =>
    SessionState a b c d e true (SenderChain (Some kp) (Some ck) (sc_message_keys g)) h i j k l m n o p end.
Definition set_receiver_chains (x : list session_state_receiver_chain) (s : session_state) : session_state :=
  match s with SessionState a b c d e f g _ i j k l m n o p => SessionState a b c d e f g x i j k l m n o p end.
Definition session_state_set_pending_key_exchange (sequence : Z) (our_base_key our_ratchet_key : ec_key_pair)
    (our_identity_key : ratchet_identity_key_pair) (s : session_state) : session_state :=
  match s with SessionState a b c d e f g h i j k l m n o p =>
    SessionState a b c d e f g h true
      (PendingKeyExchange sequence (Some our_base_key) (Some our_ratchet_key) (Some our_identity_key))
      k l m n o p end.
Definition session_state_set_unacknowledged_pre_key_message (pre_key_id : option Z)
    (signed_pre_key_id : Z) (base_key : ec_public_key) (s : session_state) : session_state :=
  match s with SessionState a b c d e f g h i j k l m n o p =>
    SessionState a b c d e f g h i j true (PendingPreKey pre_key_id signed_pre_key_id (Some base_key))
      m n o p end.
Definition session_state_clear_unacknowledged_pre_key_message (s : session_state) : session_state :=
  match s with SessionState a b c d e f g h i j k l m n o p =>
    SessionState a b c d e f g h i j false pending_pre_key_zero m n o p end.
Definition session_state_set_remote_registration_id (x : Z) (s : session_state) : session_state :=
  match s with SessionState a b c d e f g h i j k l _ n o p => SessionState a b c d e f g h i j k l x n o p end.
Definition session_state_set_local_registration_id (x : Z) (s : session_state) : session_state :=
  match s with SessionState a b c d e f g h i j k l m _ o p => SessionState a b c d e f g h i j k l m x o p end.
Definition session_state_set_needs_refresh (x : Z) (s : session_state) : session_state :=
  match s with SessionState a b c d e f g h i j k l m n _ p => SessionState a b c d e f g h i j k l m n x p end.
Definition session_state_set_alice_base_key (x : ec_public_key) (s : session_state) : session_state :=
  match s with SessionState a b c d e f g h i j k l m n o _ => SessionState a b c d e f g h i j k l m n o (Some x) end.

Definition session_state_set_sender_chain_key {U} (ck : ratchet_chain_key) (s : session_state)
    : M U session_state :=
  if st_has_sender_chain s then
    ret (match s with SessionState a b c d e f g h i j k l m n o p =>
      SessionState a b c d e f (SenderChain (sc_ratchet_key_pair g) (Some ck) (sc_message_keys g))
        h i j k l m n o p end)
  else fail SG_ERR_UNKNOWN.

(** ** Getters *)

Definition session_state_get_sender_ratchet_key (s : session_state) : option ec_public_key :=
  match sc_ratchet_key_pair (st_sender_chain s) with
  | Some kp => Some (ec_key_pair_get_public kp)
  | None => None
  end.
Definition session_state_get_sender_chain_key (s : session_state) : option ratchet_chain_key :=
  sc_chain_key (st_sender_chain s).
Definition session_state_get_pending_key_exchange_sequence (s : session_state) : Z :=
  if st_has_pending_key_exchange s then pke_sequence (st_pending_key_exchange s) else 0.
Definition session_state_get_pending_key_exchange_base_key (s : session_state) : option ec_key_pair :=
  if st_has_pending_key_exchange s then pke_local_base_key (st_pending_key_exchange s) else None.
Definition session_state_get_pending_key_exchange_ratchet_key (s : session_state) : option ec_key_pair :=
  if st_has_pending_key_exchange s then pke_local_ratchet_key (st_pending_key_exchange s) else None.
Definition session_state_get_pending_key_exchange_identity_key (s : session_state)
    : option ratchet_identity_key_pair :=
  if st_has_pending_key_exchange s then pke_local_identity_key (st_pending_key_exchange s) else None.

(** ** Receiver chains *)

(** Whether the loop of [session_state_find_receiver_chain] stops at a chain. *)
Definition chain_matches (sender_ephemeral : ec_public_key) (c : session_state_receiver_chain) : bool :=
  ec_public_key_compare (rc_ratchet_key c) (Some sender_ephemeral) =? 0.

Fixpoint find_chain (sender_ephemeral : ec_public_key) (l : list session_state_receiver_chain)
    : option session_state_receiver_chain :=
  match l with
  | [] => None
  | c :: l' => if chain_matches sender_ephemeral c then Some c else find_chain sender_ephemeral l'
  end.

(** Mutation of the chain [find_chain] returns a pointer to. *)
Fixpoint update_chain (sender_ephemeral : ec_public_key)
    (f : session_state_receiver_chain -> session_state_receiver_chain)
    (l : list session_state_receiver_chain) : list session_state_receiver_chain :=
  match l with
  | [] => []
  | c :: l' => if chain_matches sender_ephemeral c then f c :: l' else c :: update_chain sender_ephemeral f l'
  end.

Definition session_state_find_receiver_chain (s : session_state) (sender_ephemeral : ec_public_key)
    : option session_state_receiver_chain := find_chain sender_ephemeral (st_receiver_chains s).

Definition session_state_get_receiver_chain_key (s : session_state) (sender_ephemeral : ec_public_key)
    : option ratchet_chain_key :=
  match session_state_find_receiver_chain s sender_ephemeral with
  | Some c => rc_chain_key c
  | None => None
  end.

Definition session_state_has_message_keys (s : session_state) (sender_ephemeral : ec_public_key)
    (ctr : Z) : bool :=
  match session_state_find_receiver_chain s sender_ephemeral with
  | None => false
  | Some c => existsb (fun k => counter k =? ctr) (rc_message_keys c)
  end.

(** The first key with the counter, and the list without it. *)
Fixpoint take_key (ctr : Z) (l : list ratchet_message_keys)
    : option (ratchet_message_keys * list ratchet_message_keys) :=
  match l with
  | [] => None
  | k :: l' =>
      if counter k =? ctr then Some (k, l')
      else match take_key ctr l' with
           | Some (k', r) => Some (k', k :: r)
           | None => None
           end
  end.

Definition set_message_keys_list (l : list ratchet_message_keys) (c : session_state_receiver_chain)
    : session_state_receiver_chain := ReceiverChain (rc_ratchet_key c) (rc_chain_key c) l.
Definition set_chain_key (ck : ratchet_chain_key) (c : session_state_receiver_chain)
    : session_state_receiver_chain := ReceiverChain (rc_ratchet_key c) (Some ck) (rc_message_keys c).

(** The keys copied out (result 1), or nothing (result 0). *)
Definition session_state_remove_message_keys (s : session_state) (sender_ephemeral : ec_public_key)
    (ctr : Z) : option ratchet_message_keys * session_state :=
  match session_state_find_receiver_chain s sender_ephemeral with
  | None => (None, s)
  | Some c =>
      match take_key ctr (rc_message_keys c) with
      | None => (None, s)
      | Some (k, l) =>
          (Some k, set_receiver_chains
            (update_chain sender_ephemeral (set_message_keys_list l) (st_receiver_chains s)) s)
      end
  end.

(** [while(count > max) delete the head] *)
Definition trim {A} (max : nat) (l : list A) : list A := drop (length l - max) l.

Section Chains.
Context {U : Type}.

Definition session_state_set_message_keys (s : session_state) (sender_ephemeral : ec_public_key)
    (message_keys : ratchet_message_keys) : M U session_state :=
  match session_state_find_receiver_chain s sender_ephemeral with
  | None => ret s
  | Some c =>
      malloc ;;;
      ret (set_receiver_chains
        (update_chain sender_ephemeral
          (set_message_keys_list (trim MAX_MESSAGE_KEYS (rc_message_keys c ++ [message_keys])))
          (st_receiver_chains s)) s)
  end.

Definition session_state_add_receiver_chain (s : session_state) (sender_ratchet_key : ec_public_key)
    (ck : ratchet_chain_key) : M U session_state :=
  malloc ;;;
  ret (set_receiver_chains
    (trim MAX_RECEIVER_CHAINS
      (st_receiver_chains s ++ [ReceiverChain (Some sender_ratchet_key) (Some ck) []])) s).

Definition session_state_set_receiver_chain_key (s : session_state) (sender_ephemeral : ec_public_key)
    (ck : ratchet_chain_key) : M U session_state :=
  match session_state_find_receiver_chain s sender_ephemeral with
  | None => fail SG_ERR_UNKNOWN
  | Some c =>
      ret (set_receiver_chains
        (update_chain sender_ephemeral (set_chain_key ck) (st_receiver_chains s)) s)
  end.
End Chains.

(** * Storage *)

(** [if(p) { serialize; has = 1; }] *)
Definition opt_mapM {U A B} (f : A -> M U B) (o : option A) : M U (option B) :=
  match o with
  | None => ret None
  | Some a => let* b := f a in ret (Some b)
  end.

(** [(int32_t)x] and [(uint32_t)x] *)
Definition int32 (z : Z) : Z := if u32 z <? 2147483648 then u32 z else u32 z - UINT32_MOD.

Section Serialize.
Context {U : Type}.

Definition session_state_serialize_prepare_chain_chain_key (ck : ratchet_chain_key)
    : M U ChainKeyStructure :=
  malloc ;;;
  let* key := ratchet_chain_key_get_key_protobuf ck in
  ret (ChainKeyStructure_ (Some (ratchet_chain_key_get_index ck)) (Some key)).

Definition session_state_serialize_prepare_message_keys (k : ratchet_message_keys)
    : M U MessageKeyStructure :=
  malloc ;;;
  malloc ;;;
  malloc ;;;
  ret (MessageKeyStructure_ (Some (counter k)) (Some (cipher_key k)) (Some (mac_key k)) (Some (iv k))).

Definition session_state_serialize_prepare_chain_message_keys_list (l : list ratchet_message_keys)
    : M U (list MessageKeyStructure) :=
  malloc ;;;
  mapM (fun k => malloc ;;; session_state_serialize_prepare_message_keys k) l.

(** Called only for a list that is not empty. *)
Definition prepare_message_keys (l : list ratchet_message_keys) : M U (list MessageKeyStructure) :=
  match l with
  | [] => ret []
  | _ => session_state_serialize_prepare_chain_message_keys_list l
  end.

Definition session_state_serialize_prepare_sender_chain (c : session_state_sender_chain)
    : M U ChainStructure :=
  let* public := opt_mapM (fun kp => ec_public_key_serialize_protobuf (ec_key_pair_get_public kp))
    (sc_ratchet_key_pair c) in
  let* private := opt_mapM (fun kp => ec_private_key_serialize_protobuf (ec_key_pair_get_private kp))
    (sc_ratchet_key_pair c) in
  let* ck := opt_mapM session_state_serialize_prepare_chain_chain_key (sc_chain_key c) in
  let* mks := prepare_message_keys (sc_message_keys c) in
  ret (ChainStructure_ public private ck mks).

Definition session_state_serialize_prepare_receiver_chain (c : session_state_receiver_chain)
    : M U ChainStructure :=
  let* public := opt_mapM ec_public_key_serialize_protobuf (rc_ratchet_key c) in
  let* ck := opt_mapM session_state_serialize_prepare_chain_chain_key (rc_chain_key c) in
  let* mks := prepare_message_keys (rc_message_keys c) in
  ret (ChainStructure_ public None ck mks).

Definition session_state_serialize_prepare_pending_key_exchange (e : session_pending_key_exchange)
    : M U PendingKeyExchangeStructure :=
  let* base := opt_mapM (fun kp => ec_public_key_serialize_protobuf (ec_key_pair_get_public kp))
    (pke_local_base_key e) in
  let* base_private := opt_mapM (fun kp => ec_private_key_serialize_protobuf (ec_key_pair_get_private kp))
    (pke_local_base_key e) in
  let* ratchet := opt_mapM (fun kp => ec_public_key_serialize_protobuf (ec_key_pair_get_public kp))
    (pke_local_ratchet_key e) in
  let* ratchet_private := opt_mapM (fun kp => ec_private_key_serialize_protobuf (ec_key_pair_get_private kp))
    (pke_local_ratchet_key e) in
  let* identity := opt_mapM (fun kp => ec_public_key_serialize_protobuf (identity_public kp))
    (pke_local_identity_key e) in
  let* identity_private := opt_mapM (fun kp => ec_private_key_serialize_protobuf (identity_private kp))
    (pke_local_identity_key e) in
  ret (PendingKeyExchangeStructure_ (Some (pke_sequence e)) base base_private ratchet ratchet_private
    identity identity_private).

Definition session_state_serialize_prepare_pending_pre_key (p : session_pending_pre_key)
    : M U PendingPreKeyStructure :=
  let* base := opt_mapM ec_public_key_serialize_protobuf (ppk_base_key p) in
  ret (PendingPreKeyStructure_ (ppk_pre_key_id p) base (Some (int32 (ppk_signed_pre_key_id p)))).

(** [if(has) { malloc; prepare; }] *)
Definition prepare_if {A B} (has : bool) (f : A -> M U B) (a : A) : M U (option B) :=
  if has then malloc ;;; let* b := f a in ret (Some b) else ret None.

Definition session_state_serialize_prepare (s : session_state) : M U SessionStructure :=
  let* local := opt_mapM ec_public_key_serialize_protobuf (st_local_identity_public s) in
  let* remote := opt_mapM ec_public_key_serialize_protobuf (st_remote_identity_public s) in
  let* root := opt_mapM ratchet_root_key_get_key_protobuf (st_root_key s) in
  let* sender := prepare_if (st_has_sender_chain s)
    session_state_serialize_prepare_sender_chain (st_sender_chain s) in
  let* receivers :=
    match st_receiver_chains s with
    | [] => ret []
    | l => malloc ;;;
           mapM (fun c => malloc ;;; session_state_serialize_prepare_receiver_chain c) l
    end in
  let* exchange := prepare_if (st_has_pending_key_exchange s)
    session_state_serialize_prepare_pending_key_exchange (st_pending_key_exchange s) in
  let* prekey := prepare_if (st_has_pending_pre_key s)
    session_state_serialize_prepare_pending_pre_key (st_pending_pre_key s) in
  let* alice := opt_mapM ec_public_key_serialize_protobuf (st_alice_base_key s) in
  ret (SessionStructure_ (Some (st_session_version s)) local remote root
    (Some (st_previous_counter s)) sender receivers exchange prekey
    (Some (st_remote_registration_id s)) (Some (st_local_registration_id s))
    (Some (st_needs_refresh s)) alice).

Definition session_state_serialize (s : session_state) : M U bytes :=
  malloc ;;;
  let* state_structure := session_state_serialize_prepare s in
  proto_pack state_structure.

(** ** Reading back *)

(** [if(has_a && has_b)]: decode both halves of a key pair. *)
Definition decode_key_pair {K} (create : ec_public_key -> ec_private_key -> M U K)
    (public private : option bytes) : M U (option K) :=
  match public, private with
  | Some public, Some private =>
      let* public_key := curve_decode_point public in
      let* private_key := curve_decode_private_point private in
      let* kp := create public_key private_key in
      ret (Some kp)
  | _, _ => ret None
  end.

(** [hkdf_create] on the version of a session.  For an unknown version it
    frees the context and leaves the caller's pointer to it, which the chain
    deserializers then unref. *)
Definition chain_kdf_create (session_version : Z) : M U hkdf_context :=
  let* r := attempt (hkdf_create session_version) in
  match r with
  | inl kdf => ret kdf
  | inr e => if e =? SG_ERR_INVAL then crash UseAfterFree else fail e
  end.

Definition decode_chain_key (session_version : Z) (o : option ChainKeyStructure)
    : M U (option ratchet_chain_key) :=
  match o with
  | Some (ChainKeyStructure_ (Some index) (Some key)) =>
      let* kdf := chain_kdf_create session_version in
      let* ck := ratchet_chain_key_create (Some kdf) (bin_ptr key) index in
      ret (Some ck)
  | _ => ret None
  end.

(** [if(has && len == sizeof) memcpy], over an array of zeros. *)
Definition copy_array (n : nat) (o : option bytes) : bytes :=
  match o with
  | Some b => if (length b =? n)%nat then b else replicate n 0
  | None => replicate n 0
  end.

Definition decode_message_key (k : MessageKeyStructure) : M U ratchet_message_keys :=
  malloc ;;;
  ret (RatchetMessageKeys
    (copy_array RATCHET_CIPHER_KEY_LENGTH (mk_cipherkey k))
    (copy_array RATCHET_MAC_KEY_LENGTH (mk_mackey k))
    (copy_array RATCHET_IV_LENGTH (mk_iv k))
    (default 0 (mk_index k))).

(** The message keys of a stored sender chain are not read. *)
Definition session_state_deserialize_protobuf_sender_chain (session_version : Z) (c : ChainStructure)
    : M U session_state_sender_chain :=
  let* kp := decode_key_pair ec_key_pair_create (ch_senderratchetkey c) (ch_senderratchetkeyprivate c) in
  let* ck := decode_chain_key session_version (ch_chainkey c) in
  ret (SenderChain kp ck []).

Definition session_state_deserialize_protobuf_receiver_chain (session_version : Z) (c : ChainStructure)
    : M U session_state_receiver_chain :=
  let* key := opt_mapM curve_decode_point (ch_senderratchetkey c) in
  let* ck := decode_chain_key session_version (ch_chainkey c) in
  let* mks := mapM decode_message_key (ch_messagekeys c) in
  ret (ReceiverChain key ck mks).

Definition session_state_deserialize_protobuf_pending_key_exchange (e : PendingKeyExchangeStructure)
    : M U session_pending_key_exchange :=
  let* base := decode_key_pair ec_key_pair_create (pk_localbasekey e) (pk_localbasekeyprivate e) in
  let* ratchet := decode_key_pair ec_key_pair_create (pk_localratchetkey e) (pk_localratchetkeyprivate e) in
  let* identity := decode_key_pair ratchet_identity_key_pair_create
    (pk_localidentitykey e) (pk_localidentitykeyprivate e) in
  ret (PendingKeyExchange (default 0 (pk_sequence e)) base ratchet identity).

Definition session_state_deserialize_protobuf_pending_pre_key (p : PendingPreKeyStructure)
    : M U session_pending_pre_key :=
  let* base := opt_mapM curve_decode_point (pp_basekey p) in
  ret (PendingPreKey (pp_prekeyid p)
    (match pp_signedprekeyid p with Some z => u32 z | None => 0 end) base).

Definition decode_root_key (session_version : Z) (o : option bytes) : M U (option ratchet_root_key) :=
  match o with
  | None => ret None
  | Some key =>
      let* kdf := hkdf_create session_version in
      let* rk := ratchet_root_key_create (Some kdf) (bin_ptr key) in
      ret (Some rk)
  end.

(** The result of the call on line 838 is discarded: a sender chain that
    cannot be read leaves the zeroed structure, and [has_sender_chain] is set
    all the same. *)
Definition decode_sender_chain (session_version : Z) (o : option ChainStructure)
    : M U (bool * session_state_sender_chain) :=
  match o with
  | None => ret (false, sender_chain_zero)
  | Some c =>
      let* r := attempt (session_state_deserialize_protobuf_sender_chain session_version c) in
      ret (true, match r with inl chain => chain | inr _ => sender_chain_zero end)
  end.

Definition session_state_deserialize_protobuf (ss : SessionStructure) : M U session_state :=
  let* _ := session_state_create in
  let version := default 2 (ss_sessionversion ss) in
  let* local := opt_mapM curve_decode_point (ss_localidentitypublic ss) in
  let* remote := opt_mapM curve_decode_point (ss_remoteidentitypublic ss) in
  let* root := decode_root_key version (ss_rootkey ss) in
  let* sender := decode_sender_chain version (ss_senderchain ss) in
  let* receivers := mapM (fun c =>
      malloc ;;; session_state_deserialize_protobuf_receiver_chain version c)
    (ss_receiverchains ss) in
  let* exchange := opt_mapM session_state_deserialize_protobuf_pending_key_exchange
    (ss_pendingkeyexchange ss) in
  let* prekey := opt_mapM session_state_deserialize_protobuf_pending_pre_key (ss_pendingprekey ss) in
  let* alice := opt_mapM curve_decode_point (ss_alicebasekey ss) in
  ret (SessionState version local remote root (default 0 (ss_previouscounter ss))
    (fst sender) (snd sender) receivers
    (match exchange with Some _ => true | None => false end) (default pending_key_exchange_zero exchange)
    (match prekey with Some _ => true | None => false end) (default pending_pre_key_zero prekey)
    (default 0 (ss_remoteregistrationid ss)) (default 0 (ss_localregistrationid ss))
    (default 0 (ss_needsrefresh ss)) alice).

Definition session_state_deserialize (data : bytes) : M U session_state :=
  let* session_structure := proto_unpack (A := SessionStructure) data in
  session_state_deserialize_protobuf session_structure.

Definition session_state_copy (other_state : session_state) : M U session_state :=
  let* buffer := session_state_serialize other_state in
  session_state_deserialize buffer.
End Serialize.

(** * Lemmas on chains *)

Lemma chain_matches_iff k c : wf_public k -> opt_all wf_public (rc_ratchet_key c) ->
  chain_matches k c = true <-> rc_ratchet_key c = Some k.
Proof.
  intros Hk Hc. unfold chain_matches. rewrite Z.eqb_eq. apply ec_public_key_compare_0.
  - intros k' E. by rewrite E in Hc.
  - by intros k' [= <-].
Qed.

Lemma chain_matches_refl k ck mks : chain_matches k (ReceiverChain (Some k) ck mks) = true.
Proof. unfold chain_matches. cbn [rc_ratchet_key]. by rewrite ec_public_key_compare_refl. Qed.

(** [f] leaves the ratchet key of a chain alone. *)
Definition keeps_key (f : session_state_receiver_chain -> session_state_receiver_chain) : Prop :=
  forall c, rc_ratchet_key (f c) = rc_ratchet_key c.

Lemma keeps_matches f k c : keeps_key f -> chain_matches k (f c) = chain_matches k c.
Proof. intros Hf. unfold chain_matches. by rewrite Hf. Qed.

Lemma find_update_same k f l : keeps_key f ->
  find_chain k (update_chain k f l) = f <$> find_chain k l.
Proof.
  intros Hf. induction l as [|c l IH]; [done|]. simpl.
  destruct (chain_matches k c) eqn:E; simpl.
  - by rewrite keeps_matches, E.
  - by rewrite E.
Qed.

Lemma find_update_other k k' f l : keeps_key f -> wf_public k -> wf_public k' -> k <> k' ->
  Forall (fun c => opt_all wf_public (rc_ratchet_key c)) l ->
  find_chain k' (update_chain k f l) = find_chain k' l.
Proof.
  intros Hf Hk Hk' Hne Hl. induction Hl as [|c l Hc _ IH]; [done|]. simpl.
  destruct (chain_matches k c) eqn:E; simpl.
  - rewrite keeps_matches by done. destruct (chain_matches k' c) eqn:E'; [|done].
    apply chain_matches_iff in E, E'; try done. congruence.
  - destruct (chain_matches k' c); [done|]. apply IH.
Qed.

Lemma length_update k f l : length (update_chain k f l) = length l.
Proof. induction l; simpl; [done|]. destruct (chain_matches k a); simpl; auto. Qed.

Lemma find_chain_elem k l c : find_chain k l = Some c -> c ∈ l /\ chain_matches k c = true.
Proof.
  induction l as [|c' l IH]; [done|]. simpl. destruct (chain_matches k c') eqn:E.
  - intros [= ->]. split; [left|done].
  - intros H. destruct (IH H). split; [by right|done].
Qed.

Lemma Forall_update (P : session_state_receiver_chain -> Prop) k f l :
  Forall P l -> (forall c, find_chain k l = Some c -> P (f c)) -> Forall P (update_chain k f l).
Proof.
  induction 1 as [|c l Hc Hl IH]; intros Hf; simpl; [done|].
  destruct (chain_matches k c) eqn:E.
  - constructor; [|done]. apply Hf. simpl. by rewrite E.
  - constructor; [done|]. apply IH. intros c' Hc'. apply Hf. simpl. by rewrite E.
Qed.

Lemma length_trim {A} max (l : list A) : length (trim max l) = Nat.min max (length l).
Proof. unfold trim. rewrite length_drop. lia. Qed.

Lemma trim_id {A} max (l : list A) : (length l <= max)%nat -> trim max l = l.
Proof. intros. unfold trim. replace (length l - max)%nat with 0%nat by lia. done. Qed.

Lemma Forall_trim {A} (P : A -> Prop) max l : Forall P l -> Forall P (trim max l).
Proof. apply Forall_drop. Qed.

(** The newest element is never trimmed. *)
Lemma trim_snoc {A} max (l : list A) x : (0 < max)%nat ->
  trim max (l ++ [x]) = trim (max - 1) l ++ [x].
Proof.
  intros H. unfold trim. rewrite length_app. simpl. rewrite drop_app_le by lia.
  f_equal. f_equal. lia.
Qed.

Lemma trim_app_trim {A} max (l r : list A) : trim max (trim max l ++ r) = trim max (l ++ r).
Proof.
  unfold trim at 1 3. rewrite !length_app, length_trim. unfold trim.
  destruct (Nat.le_ge_cases (length l) max) as [H|H].
  - rewrite Nat.min_r by lia. replace (length l - max)%nat with 0%nat by lia. done.
  - rewrite Nat.min_l by lia. rewrite <- (drop_app_le l r) by lia.
    rewrite drop_drop. f_equal. lia.
Qed.

(** ** Message keys *)

Lemma take_key_spec ctr l : match take_key ctr l with
  | Some (k, r) => exists l1 l2, l = l1 ++ k :: l2 /\ r = l1 ++ l2 /\ counter k = ctr /\
                   Forall (fun k => counter k <> ctr) l1
  | None => Forall (fun k => counter k <> ctr) l
  end.
Proof.
  induction l as [|k l IH]; simpl; [done|]. destruct (Z.eqb_spec (counter k) ctr) as [E|E].
  - exists [], l. done.
  - destruct (take_key ctr l) as [[k' r]|].
    + destruct IH as (l1 & l2 & -> & -> & Ek & Hl1). exists (k :: l1), l2. repeat split; try done.
      by constructor.
    + by constructor.
Qed.

Lemma existsb_counter ctr l : existsb (fun k => counter k =? ctr) l = true <->
  exists k, k ∈ l /\ counter k = ctr.
Proof.
  rewrite existsb_exists. setoid_rewrite Z.eqb_eq. setoid_rewrite list_elem_of_In. done.
Qed.

(** * The bounds on the lists of a state *)

Record bounded (s : session_state) : Prop := {
  bounded_chains : (length (st_receiver_chains s) <= MAX_RECEIVER_CHAINS)%nat;
  bounded_keys : Forall (fun c => (length (rc_message_keys c) <= MAX_MESSAGE_KEYS)%nat) (st_receiver_chains s)
}.

Lemma bounded_init : bounded session_state_init.
Proof. split; simpl; [unfold MAX_RECEIVER_CHAINS; lia|done]. Qed.

Lemma st_receiver_chains_set l s : st_receiver_chains (set_receiver_chains l s) = l.
Proof. by destruct s. Qed.

Section ChainOps.
Context {U : Type}.

Lemma bounded_set_message_keys s k mk : bounded s ->
  post (@session_state_set_message_keys U s k mk) bounded.
Proof.
  intros [H1 H2]. unfold session_state_set_message_keys. post_solve; [|done].
  split; rewrite st_receiver_chains_set; [by rewrite length_update|].
  apply Forall_update; [done|]. intros c Hc. simpl. rewrite length_trim. lia.
Qed.

Lemma bounded_add_receiver_chain s k ck : bounded s ->
  post (@session_state_add_receiver_chain U s k ck) bounded.
Proof.
  intros [H1 H2]. unfold session_state_add_receiver_chain. post_solve.
  split; rewrite st_receiver_chains_set; [rewrite length_trim; lia|].
  apply Forall_trim. apply Forall_app. split; [done|]. constructor; [simpl; lia|done].
Qed.

Lemma bounded_set_receiver_chain_key s k ck : bounded s ->
  post (@session_state_set_receiver_chain_key U s k ck) bounded.
Proof.
  intros [H1 H2]. unfold session_state_set_receiver_chain_key. post_solve.
  split; rewrite st_receiver_chains_set; [by rewrite length_update|].
  apply Forall_update; [done|]. intros c Hc. apply find_chain_elem in Hc as [Hc _].
  rewrite Forall_forall in H2. exact (H2 _ Hc).
Qed.

Lemma bounded_remove_message_keys s k ctr : bounded s ->
  bounded (snd (session_state_remove_message_keys s k ctr)).
Proof.
  intros [H1 H2]. unfold session_state_remove_message_keys, session_state_find_receiver_chain.
  destruct (find_chain k (st_receiver_chains s)) as [c|] eqn:Hc; [|done].
  pose proof (take_key_spec ctr (rc_message_keys c)) as Ht.
  destruct (take_key ctr (rc_message_keys c)) as [[mk r]|]; [|done]. simpl.
  destruct Ht as (l1 & l2 & El & -> & _).
  split; rewrite st_receiver_chains_set; [by rewrite length_update|].
  apply Forall_update; [done|]. intros c' Hc'. simpl. apply find_chain_elem in Hc as [Hc _].
  rewrite Forall_forall in H2. specialize (H2 _ Hc). rewrite El, length_app in H2. simpl in H2.
  rewrite length_app. lia.
Qed.

(** Every session state operation that touches the lists keeps their bounds;
    the scalar setters leave the lists alone. *)
Lemma bounded_same_chains s s' : st_receiver_chains s' = st_receiver_chains s -> bounded s -> bounded s'.
Proof. intros E [H1 H2]. split; rewrite E; done. Qed.

Lemma find_chain_app k l l' : find_chain k l = None -> find_chain k (l ++ l') = find_chain k l'.
Proof.
  induction l as [|c l IH]; [done|]. simpl. destruct (chain_matches k c); [done|]. apply IH.
Qed.

Lemma find_chain_drop k l n : find_chain k l = None -> find_chain k (drop n l) = None.
Proof.
  revert n. induction l as [|c l IH]; intros [|n]; try done. simpl.
  destruct (chain_matches k c); [done|]. apply IH.
Qed.

(** A chain that was not there is found after it is added, even when the
    oldest chain makes room for it. *)
Lemma find_after_add s k ck w : find_chain k (st_receiver_chains s) = None -> mem_ok w ->
  exists s', @session_state_add_receiver_chain U s k ck w = (Ok s', w) /\
    s' = set_receiver_chains (st_receiver_chains s') s /\
    find_chain k (st_receiver_chains s') = Some (ReceiverChain (Some k) (Some ck) []).
Proof.
  intros Hn Hm. unfold session_state_add_receiver_chain. erewrite bind_ok by by apply malloc_ok.
  eexists. split; [reflexivity|]. rewrite st_receiver_chains_set. split; [by destruct s|].
  rewrite trim_snoc by (unfold MAX_RECEIVER_CHAINS; lia).
  rewrite find_chain_app by by apply find_chain_drop.
  simpl. by rewrite chain_matches_refl.
Qed.
End ChainOps.
