(* ===== verification/SessionStorage.v ===== *)
(** The storage form of a session state: what [session_state_serialize_prepare]
    builds ([structure_of]), the invariant under which it can be read back
    ([storable]), and the round trip through the wire format. *)
From stdpp Require Import base list.
From Stdlib Require Import ZArith Lia.
From S2P Require Import Prelude Buffers Hkdf Curve Protobuf Messages Ratchet SessionState.
#[local] Open Scope Z_scope.
#[local] Open Scope signal_scope.

(** * The structures, without the allocations *)

Definition key_bytes (k : ec_private_key) : bytes := take DJB_KEY_LEN (ec_private_data k).

Definition chain_key_structure (ck : ratchet_chain_key) : ChainKeyStructure :=
  ChainKeyStructure_ (Some (chain_index ck)) (Some (chain_key ck)).
Definition message_key_structure (k : ratchet_message_keys) : MessageKeyStructure :=
  MessageKeyStructure_ (Some (counter k)) (Some (cipher_key k)) (Some (mac_key k)) (Some (iv k)).
Definition sender_structure (c : session_state_sender_chain) : ChainStructure :=
  ChainStructure_ ((fun kp => ec_public_key_bytes (ec_key_pair_get_public kp)) <$> sc_ratchet_key_pair c)
    ((fun kp => key_bytes (ec_key_pair_get_private kp)) <$> sc_ratchet_key_pair c)
    (chain_key_structure <$> sc_chain_key c) (map message_key_structure (sc_message_keys c)).
Definition receiver_structure (c : session_state_receiver_chain) : ChainStructure :=
  ChainStructure_ (ec_public_key_bytes <$> rc_ratchet_key c) None
    (chain_key_structure <$> rc_chain_key c) (map message_key_structure (rc_message_keys c)).
Definition exchange_structure (e : session_pending_key_exchange) : PendingKeyExchangeStructure :=
  PendingKeyExchangeStructure_ (Some (pke_sequence e))
    ((fun kp => ec_public_key_bytes (ec_key_pair_get_public kp)) <$> pke_local_base_key e)
    ((fun kp => key_bytes (ec_key_pair_get_private kp)) <$> pke_local_base_key e)
    ((fun kp => ec_public_key_bytes (ec_key_pair_get_public kp)) <$> pke_local_ratchet_key e)
    ((fun kp => key_bytes (ec_key_pair_get_private kp)) <$> pke_local_ratchet_key e)
    ((fun kp => ec_public_key_bytes (identity_public kp)) <$> pke_local_identity_key e)
    ((fun kp => key_bytes (identity_private kp)) <$> pke_local_identity_key e).
Definition pre_key_structure (p : session_pending_pre_key) : PendingPreKeyStructure :=
  PendingPreKeyStructure_ (ppk_pre_key_id p) (ec_public_key_bytes <$> ppk_base_key p)
    (Some (int32 (ppk_signed_pre_key_id p))).

Definition structure_of (s : session_state) : SessionStructure :=
  SessionStructure_ (Some (st_session_version s)) (ec_public_key_bytes <$> st_local_identity_public s)
    (ec_public_key_bytes <$> st_remote_identity_public s) (root_key <$> st_root_key s)
    (Some (st_previous_counter s))
    (if st_has_sender_chain s then Some (sender_structure (st_sender_chain s)) else None)
    (map receiver_structure (st_receiver_chains s))
    (if st_has_pending_key_exchange s then Some (exchange_structure (st_pending_key_exchange s)) else None)
    (if st_has_pending_pre_key s then Some (pre_key_structure (st_pending_pre_key s)) else None)
    (Some (st_remote_registration_id s)) (Some (st_local_registration_id s))
    (Some (st_needs_refresh s)) (ec_public_key_bytes <$> st_alice_base_key s).

(** * The invariant of stored states *)

(** The context [hkdf_create] gives for a session version. *)
Definition version_kdf (v : Z) : hkdf_context := HkdfContext (if v =? 3 then 1 else 0).

Record chain_ok (v : Z) (ck : ratchet_chain_key) : Prop := {
  chain_ok_kdf : chain_kdf ck = version_kdf v;
  chain_ok_len : length (chain_key ck) = 32%nat;
  chain_ok_index : is_u32 (chain_index ck)
}.

Definition root_ok (v : Z) (rk : ratchet_root_key) : Prop :=
  root_kdf rk = version_kdf v /\ length (root_key rk) = 32%nat.

Definition pair_ok (kp : ec_key_pair) : Prop :=
  wf_public (ec_key_pair_get_public kp) /\ wf_private (ec_key_pair_get_private kp).

Definition identity_ok (kp : ratchet_identity_key_pair) : Prop :=
  wf_public (identity_public kp) /\ wf_private (identity_private kp).

Record sender_ok (v : Z) (c : session_state_sender_chain) : Prop := {
  sender_ok_pair : opt_all pair_ok (sc_ratchet_key_pair c);
  sender_ok_chain : opt_all (chain_ok v) (sc_chain_key c);
  sender_ok_keys : sc_message_keys c = []
}.

Record receiver_ok (v : Z) (c : session_state_receiver_chain) : Prop := {
  receiver_ok_key : opt_all wf_public (rc_ratchet_key c);
  receiver_ok_chain : opt_all (chain_ok v) (rc_chain_key c);
  receiver_ok_keys : Forall wf_message_keys (rc_message_keys c)
}.

Record exchange_ok (e : session_pending_key_exchange) : Prop := {
  exchange_ok_sequence : is_u32 (pke_sequence e);
  exchange_ok_base : opt_all pair_ok (pke_local_base_key e);
  exchange_ok_ratchet : opt_all pair_ok (pke_local_ratchet_key e);
  exchange_ok_identity : opt_all identity_ok (pke_local_identity_key e)
}.

Record pre_key_ok (p : session_pending_pre_key) : Prop := {
  pre_key_ok_id : opt_all is_u32 (ppk_pre_key_id p);
  pre_key_ok_signed : is_u32 (ppk_signed_pre_key_id p);
  pre_key_ok_base : opt_all wf_public (ppk_base_key p)
}.

Record storable (s : session_state) : Prop := {
  so_version : st_session_version s = 2 \/ st_session_version s = 3;
  so_local : opt_all wf_public (st_local_identity_public s);
  so_remote : opt_all wf_public (st_remote_identity_public s);
  so_root : opt_all (root_ok (st_session_version s)) (st_root_key s);
  so_previous : is_u32 (st_previous_counter s);
  so_sender : if st_has_sender_chain s then sender_ok (st_session_version s) (st_sender_chain s)
              else st_sender_chain s = sender_chain_zero;
  so_receivers : Forall (receiver_ok (st_session_version s)) (st_receiver_chains s);
  so_bounded : bounded s;
  so_exchange : if st_has_pending_key_exchange s then exchange_ok (st_pending_key_exchange s)
                else st_pending_key_exchange s = pending_key_exchange_zero;
  so_pre_key : if st_has_pending_pre_key s then pre_key_ok (st_pending_pre_key s)
               else st_pending_pre_key s = pending_pre_key_zero;
  so_remote_id : is_u32 (st_remote_registration_id s);
  so_local_id : is_u32 (st_local_registration_id s);
  so_refresh : st_needs_refresh s = 0 \/ st_needs_refresh s = 1;
  so_alice : opt_all wf_public (st_alice_base_key s)
}.

Lemma storable_init : storable session_state_init.
Proof.
  split; simpl; try done; try (unfold is_u32, UINT32_MOD; lia); try (by left).
  apply bounded_init.
Qed.

(** * Building the structure *)

Section Build.
Context {U : Type}.
Implicit Types w : world U.

Lemma opt_mapM_ok {A B} (f : A -> M U B) (g : A -> B) o w :
  (forall a, o = Some a -> f a w = (Ok (g a), w)) -> opt_mapM f o w = (Ok (g <$> o), w).
Proof.
  intros H. destruct o as [a|]; [|done]. simpl. by erewrite bind_ok by by apply H.
Qed.

Lemma prepare_chain_key_ok ck w : mem_ok w ->
  session_state_serialize_prepare_chain_chain_key ck w = (Ok (chain_key_structure ck), w).
Proof.
  intros Hm. unfold session_state_serialize_prepare_chain_chain_key, ratchet_chain_key_get_key_protobuf.
  erewrite bind_ok by by apply malloc_ok.
  erewrite bind_ok; [done|]. by erewrite bind_ok by by apply malloc_ok.
Qed.

Lemma prepare_message_keys_ok l w : mem_ok w ->
  prepare_message_keys l w = (Ok (map message_key_structure l), w).
Proof.
  intros Hm. unfold prepare_message_keys. destruct l as [|k l]; [done|].
  unfold session_state_serialize_prepare_chain_message_keys_list.
  erewrite bind_ok by by apply malloc_ok. apply mapM_ok. intros k' _.
  unfold session_state_serialize_prepare_message_keys.
  by do 4 erewrite bind_ok by by apply malloc_ok.
Qed.

Lemma prepare_sender_ok c w : mem_ok w ->
  session_state_serialize_prepare_sender_chain c w = (Ok (sender_structure c), w).
Proof.
  intros Hm. unfold session_state_serialize_prepare_sender_chain.
  do 2 (erewrite bind_ok by (apply opt_mapM_ok; intros;
    first [by apply ec_public_key_serialize_protobuf_ok|by apply ec_private_key_serialize_protobuf_ok])).
  erewrite bind_ok by (apply opt_mapM_ok; intros; by apply prepare_chain_key_ok).
  by erewrite bind_ok by by apply prepare_message_keys_ok.
Qed.

Lemma prepare_receiver_ok c w : mem_ok w ->
  session_state_serialize_prepare_receiver_chain c w = (Ok (receiver_structure c), w).
Proof.
  intros Hm. unfold session_state_serialize_prepare_receiver_chain.
  erewrite bind_ok by (apply opt_mapM_ok; intros; by apply ec_public_key_serialize_protobuf_ok).
  erewrite bind_ok by (apply opt_mapM_ok; intros; by apply prepare_chain_key_ok).
  by erewrite bind_ok by by apply prepare_message_keys_ok.
Qed.

Lemma prepare_exchange_ok e w : mem_ok w ->
  session_state_serialize_prepare_pending_key_exchange e w = (Ok (exchange_structure e), w).
Proof.
  intros Hm. unfold session_state_serialize_prepare_pending_key_exchange.
  by do 6 (erewrite bind_ok by (apply opt_mapM_ok; intros;
    first [by apply ec_public_key_serialize_protobuf_ok|by apply ec_private_key_serialize_protobuf_ok])).
Qed.

Lemma prepare_pre_key_ok p w : mem_ok w ->
  session_state_serialize_prepare_pending_pre_key p w = (Ok (pre_key_structure p), w).
Proof.
  intros Hm. unfold session_state_serialize_prepare_pending_pre_key.
  by erewrite bind_ok by (apply opt_mapM_ok; intros; by apply ec_public_key_serialize_protobuf_ok).
Qed.

Lemma prepare_if_ok {A B} has (f : A -> M U B) (g : A -> B) a w : mem_ok w ->
  f a w = (Ok (g a), w) -> prepare_if has f a w = (Ok (if has then Some (g a) else None), w).
Proof.
  intros Hm H. destruct has; [|done]. simpl. erewrite bind_ok by by apply malloc_ok.
  by erewrite bind_ok by exact H.
Qed.

Lemma root_key_protobuf_ok rk w : mem_ok w ->
  ratchet_root_key_get_key_protobuf rk w = (Ok (root_key rk), w).
Proof. intros Hm. unfold ratchet_root_key_get_key_protobuf. by erewrite bind_ok by by apply malloc_ok. Qed.

Lemma prepare_ok s w : mem_ok w ->
  session_state_serialize_prepare s w = (Ok (structure_of s), w).
Proof.
  intros Hm. unfold session_state_serialize_prepare.
  do 2 (erewrite bind_ok by (apply opt_mapM_ok; intros; by apply ec_public_key_serialize_protobuf_ok)).
  erewrite bind_ok by (apply opt_mapM_ok; intros; by apply root_key_protobuf_ok).
  erewrite bind_ok by (apply prepare_if_ok; [done|]; by apply prepare_sender_ok).
  erewrite bind_ok; cycle 1.
  { instantiate (1 := w). instantiate (1 := map receiver_structure (st_receiver_chains s)).
    destruct (st_receiver_chains s) as [|c l]; [done|]. erewrite bind_ok by by apply malloc_ok.
    apply mapM_ok. intros c' _. erewrite bind_ok by by apply malloc_ok. by apply prepare_receiver_ok. }
  erewrite bind_ok by (apply prepare_if_ok; [done|]; by apply prepare_exchange_ok).
  erewrite bind_ok by (apply prepare_if_ok; [done|]; by apply prepare_pre_key_ok).
  by erewrite bind_ok by (apply opt_mapM_ok; intros; by apply ec_public_key_serialize_protobuf_ok).
Qed.

(** * Reading it back *)

Lemma hkdf_create_ok v w : mem_ok w -> v = 2 \/ v = 3 -> hkdf_create v w = (Ok (version_kdf v), w).
Proof.
  intros Hm Hv. unfold hkdf_create. erewrite bind_ok by by apply malloc_ok.
  by destruct Hv as [->| ->].
Qed.

Lemma chain_kdf_create_ok v w : mem_ok w -> v = 2 \/ v = 3 ->
  chain_kdf_create v w = (Ok (version_kdf v), w).
Proof. intros. unfold chain_kdf_create, attempt, bind. by rewrite hkdf_create_ok. Qed.

Lemma bin_ptr_nonempty b : (0 < length b)%nat -> bin_ptr b = Some b.
Proof. by destruct b; simpl; [lia|]. Qed.

Lemma decode_opt_point_ok o w : mem_ok w -> opt_all wf_public o ->
  opt_mapM curve_decode_point (ec_public_key_bytes <$> o) w = (Ok o, w).
Proof.
  intros Hm Ho. destruct o as [k|]; [|done]. simpl.
  by erewrite bind_ok by by apply curve_decode_point_ok.
Qed.

Lemma decode_pair_ok {K} (create : ec_public_key -> ec_private_key -> M U K)
    (public : K -> ec_public_key) (private : K -> ec_private_key) (o : option K) w :
  mem_ok w -> opt_all (fun kp => wf_public (public kp) /\ wf_private (private kp)) o ->
  (forall kp, create (public kp) (private kp) w = (Ok kp, w)) ->
  decode_key_pair create ((fun kp => ec_public_key_bytes (public kp)) <$> o)
    ((fun kp => key_bytes (private kp)) <$> o) w = (Ok o, w).
Proof.
  intros Hm Ho Hc. destruct o as [kp|]; [|done]. destruct Ho as [H1 H2]. simpl.
  erewrite bind_ok by by apply curve_decode_point_ok.
  erewrite bind_ok by by apply curve_decode_private_point_ok.
  by erewrite bind_ok by apply Hc.
Qed.

Lemma key_pair_create_eta kp w : mem_ok w ->
  ec_key_pair_create (ec_key_pair_get_public kp) (ec_key_pair_get_private kp) w = (Ok kp, w).
Proof. intros. rewrite ec_key_pair_create_ok by done. by destruct kp. Qed.

Lemma identity_create_eta kp w : mem_ok w ->
  ratchet_identity_key_pair_create (identity_public kp) (identity_private kp) w = (Ok kp, w).
Proof.
  intros. unfold ratchet_identity_key_pair_create. erewrite bind_ok by by apply malloc_ok.
  by destruct kp.
Qed.

Lemma decode_chain_key_ok v o w : mem_ok w -> v = 2 \/ v = 3 -> opt_all (chain_ok v) o ->
  decode_chain_key v (chain_key_structure <$> o) w = (Ok o, w).
Proof.
  intros Hm Hv Ho. destruct o as [ck|]; [|done]. destruct Ho as [H1 H2 H3]. simpl.
  erewrite bind_ok by by apply chain_kdf_create_ok.
  rewrite bin_ptr_nonempty by lia. erewrite bind_ok by by apply ratchet_chain_key_create_ok.
  unfold ret. destruct ck; simpl in *. by subst.
Qed.

Lemma copy_array_id n b : length b = n -> copy_array n (Some b) = b.
Proof. intros <-. simpl. by rewrite Nat.eqb_refl. Qed.

Lemma mapM_map_id {A B} (f : B -> M U A) (g : A -> B) l w :
  (forall x, x ∈ l -> f (g x) w = (Ok x, w)) -> mapM f (map g l) w = (Ok l, w).
Proof.
  induction l as [|x l IH]; intros H; [done|]. simpl.
  erewrite bind_ok by (apply H; left). erewrite bind_ok by (apply IH; intros; apply H; by right).
  done.
Qed.

Lemma decode_message_keys_ok l w : mem_ok w -> Forall wf_message_keys l ->
  mapM decode_message_key (map message_key_structure l) w = (Ok l, w).
Proof.
  intros Hm Hl. apply mapM_map_id. intros k Hk. rewrite Forall_forall in Hl.
  destruct (Hl _ Hk) as [H1 H2 H3 _]. unfold decode_message_key.
  erewrite bind_ok by by apply malloc_ok. unfold message_key_structure.
  cbn [mk_index mk_cipherkey mk_mackey mk_iv].
  rewrite !copy_array_id by done. by destruct k.
Qed.

Lemma decode_receiver_ok v c w : mem_ok w -> v = 2 \/ v = 3 -> receiver_ok v c ->
  session_state_deserialize_protobuf_receiver_chain v (receiver_structure c) w = (Ok c, w).
Proof.
  intros Hm Hv [H1 H2 H3]. unfold session_state_deserialize_protobuf_receiver_chain.
  erewrite bind_ok by by apply decode_opt_point_ok.
  erewrite bind_ok by by apply decode_chain_key_ok.
  erewrite bind_ok by by apply decode_message_keys_ok. by destruct c.
Qed.

Lemma decode_sender_ok v c w : mem_ok w -> v = 2 \/ v = 3 -> sender_ok v c ->
  session_state_deserialize_protobuf_sender_chain v (sender_structure c) w = (Ok c, w).
Proof.
  intros Hm Hv [H1 H2 H3]. unfold session_state_deserialize_protobuf_sender_chain.
  erewrite bind_ok by (apply decode_pair_ok; [done|done|intros; by apply key_pair_create_eta]).
  erewrite bind_ok by by apply decode_chain_key_ok. unfold ret. destruct c; simpl in *. by subst.
Qed.

Lemma decode_sender_chain_ok s w : mem_ok w -> storable s ->
  decode_sender_chain (st_session_version s)
    (if st_has_sender_chain s then Some (sender_structure (st_sender_chain s)) else None) w =
  (Ok (st_has_sender_chain s, st_sender_chain s), w).
Proof.
  intros Hm Hs. pose proof (so_sender s Hs) as H. pose proof (so_version s Hs).
  destruct (st_has_sender_chain s); simpl; [|by rewrite H].
  unfold attempt, bind. by rewrite decode_sender_ok.
Qed.

Lemma decode_exchange_ok e w : mem_ok w -> exchange_ok e ->
  session_state_deserialize_protobuf_pending_key_exchange (exchange_structure e) w = (Ok e, w).
Proof.
  intros Hm [H0 H1 H2 H3]. unfold session_state_deserialize_protobuf_pending_key_exchange.
  do 2 (erewrite bind_ok by (apply decode_pair_ok; [done|done|intros; by apply key_pair_create_eta])).
  erewrite bind_ok by (apply decode_pair_ok; [done|done|intros; by apply identity_create_eta]).
  by destruct e.
Qed.

Lemma u32_int32 z : is_u32 z -> u32 (int32 z) = z.
Proof.
  intros H. unfold int32. rewrite (u32_small z) by done.
  destruct (Z.ltb_spec z 2147483648); [by apply u32_small|].
  unfold u32, is_u32, UINT32_MOD in *. rewrite <- (Z.mod_add (z - 4294967296) 1) by lia.
  rewrite Z.mod_small; lia.
Qed.

Lemma decode_pre_key_ok p w : mem_ok w -> pre_key_ok p ->
  session_state_deserialize_protobuf_pending_pre_key (pre_key_structure p) w = (Ok p, w).
Proof.
  intros Hm [H1 H2 H3]. unfold session_state_deserialize_protobuf_pending_pre_key.
  erewrite bind_ok by by apply decode_opt_point_ok. unfold ret.
  destruct p; simpl in *. by rewrite u32_int32.
Qed.

Lemma decode_root_ok v o w : mem_ok w -> v = 2 \/ v = 3 -> opt_all (root_ok v) o ->
  decode_root_key v (root_key <$> o) w = (Ok o, w).
Proof.
  intros Hm Hv Ho. destruct o as [rk|]; [|done]. destruct Ho as [H1 H2]. simpl.
  erewrite bind_ok by by apply hkdf_create_ok. rewrite bin_ptr_nonempty by lia.
  erewrite bind_ok by by apply ratchet_root_key_create_ok. unfold ret.
  destruct rk; simpl in *. by subst.
Qed.

Lemma opt_mapM_if {A B} (f : B -> M U A) (g : A -> B) has a w :
  (has = true -> f (g a) w = (Ok a, w)) ->
  opt_mapM f (if has then Some (g a) else None) w = (Ok (if has then Some a else None), w).
Proof. intros H. destruct has; [|done]. simpl. by erewrite bind_ok by by apply H. Qed.

Lemma deserialize_structure_ok s w : mem_ok w -> storable s ->
  session_state_deserialize_protobuf (structure_of s) w = (Ok s, w).
Proof.
  intros Hm Hs. pose proof (so_version s Hs) as Hv. unfold session_state_deserialize_protobuf.
  erewrite bind_ok; cycle 1.
  { unfold session_state_create. by erewrite bind_ok by by apply malloc_ok. }
  erewrite bind_ok by (apply decode_opt_point_ok; [done|apply Hs]).
  erewrite bind_ok by (apply decode_opt_point_ok; [done|apply Hs]).
  erewrite bind_ok by (apply decode_root_ok; [done|done|apply Hs]).
  erewrite bind_ok by by apply decode_sender_chain_ok.
  erewrite bind_ok; cycle 1.
  { apply (mapM_map_id _ receiver_structure). intros c Hc. erewrite bind_ok by by apply malloc_ok.
    apply decode_receiver_ok; [done|done|]. pose proof (so_receivers s Hs) as Hr.
    rewrite Forall_forall in Hr. by apply Hr. }
  erewrite bind_ok; cycle 1.
  { apply (opt_mapM_if _ exchange_structure). intros E. apply decode_exchange_ok; [done|].
    pose proof (so_exchange s Hs) as H. by rewrite E in H. }
  erewrite bind_ok; cycle 1.
  { apply (opt_mapM_if _ pre_key_structure). intros E. apply decode_pre_key_ok; [done|].
    pose proof (so_pre_key s Hs) as H. by rewrite E in H. }
  erewrite bind_ok by (apply decode_opt_point_ok; [done|apply Hs]).
  unfold ret. pose proof (so_exchange s Hs) as He. pose proof (so_pre_key s Hs) as Hp.
  destruct s as [v a b c d hs sc rcs hpe pe hpp pp ri li nr ab]; simpl in *.
  destruct hpe, hpp; simpl; congruence.
Qed.
End Build.

(** ** The structure is well formed and small *)


Lemma typed_message_keys l : Forall wf_message_keys l ->
  Forall proto_typed (map message_key_structure l).
Proof.
  intros H. apply Forall_map. eapply Forall_impl; [exact H|]. intros k [_ _ _ Hc].
  proto_typed_solve.
Qed.

Lemma typed_chain_key v o : opt_all (chain_ok v) o -> opt_all proto_typed (chain_key_structure <$> o).
Proof. destruct o as [ck|]; [|done]. intros [_ _ H]. simpl. proto_typed_solve. Qed.

Lemma typed_sender v c : sender_ok v c -> proto_typed (sender_structure c).
Proof.
  intros [H1 H2 H3]. pose proof (typed_chain_key v _ H2) as Ht. proto_typed_solve.
  rewrite H3. constructor.
Qed.

Lemma typed_receiver v c : receiver_ok v c -> proto_typed (receiver_structure c).
Proof.
  intros [H1 H2 H3]. pose proof (typed_chain_key v _ H2) as Ht. proto_typed_solve.
  by apply typed_message_keys.
Qed.

Lemma typed_exchange e : exchange_ok e -> proto_typed (exchange_structure e).
Proof. intros [H _ _ _]. proto_typed_solve. Qed.

Lemma int32_range z : -2147483648 <= int32 z < 2147483648.
Proof.
  pose proof (u32_range z). unfold int32, is_u32, UINT32_MOD in *.
  destruct (Z.ltb_spec (u32 z) 2147483648); lia.
Qed.

Lemma typed_pre_key p : pre_key_ok p -> proto_typed (pre_key_structure p).
Proof.
  intros [H1 H2 _]. pose proof (int32_range (ppk_signed_pre_key_id p)).
  proto_typed_solve. apply Forall_singleton. simpl. lia.
Qed.

Lemma typed_structure s : storable s -> proto_typed (structure_of s).
Proof.
  intros Hs. pose proof (so_version s Hs) as Hv. pose proof (so_previous s Hs) as H0.
  pose proof (so_remote_id s Hs) as Hr. pose proof (so_local_id s Hs) as Hl.
  pose proof (so_refresh s Hs) as Hn.
  pose proof (so_sender s Hs) as H1. pose proof (so_exchange s Hs) as H2.
  pose proof (so_pre_key s Hs) as H3. pose proof (so_receivers s Hs) as H4.
  assert (is_u32 (st_session_version s)) by (unfold is_u32, UINT32_MOD; lia).
  proto_typed_solve.
  - destruct (st_has_sender_chain s); [by eapply typed_sender|done].
  - apply Forall_map. eapply Forall_impl; [exact H4|]. intros c. apply typed_receiver.
  - destruct (st_has_pending_key_exchange s); [by apply typed_exchange|done].
  - destruct (st_has_pending_pre_key s); [by apply typed_pre_key|done].
  - apply Forall_singleton. exact Hn.
Qed.

(** Upper bounds of the packed sizes, slot by slot. *)
Definition slot_ub (s : list pval) : Z := sumZ (map (fun v => 5 + value_ub v) s).

Lemma slots_ub_cons s ss : slots_ub (s :: ss) = slot_ub s + slots_ub ss.
Proof. done. Qed.
Lemma slots_ub_nil : slots_ub [] = 0.
Proof. done. Qed.

Lemma int_slot_ub o : slot_ub (int_slot o) <= 15.
Proof. destruct o; done. Qed.
Lemma bytes_slot_ub o b : 0 <= b -> opt_all (fun d => blen d <= b) o -> slot_ub (bytes_slot o) <= 10 + b.
Proof. destruct o; unfold slot_ub; simpl; lia. Qed.
Lemma msg_slot_ub {A} `{ProtoMessage A} (o : option A) b : 0 <= b ->
  opt_all (fun a => slots_ub (to_slots a) <= b) o -> slot_ub (msg_slot o) <= 10 + b.
Proof. destruct o; unfold slot_ub, slots_ub; simpl; lia. Qed.
Lemma rep_slot_ub {A} `{ProtoMessage A} (l : list A) b n : 0 <= b -> (length l <= n)%nat ->
  Forall (fun a => slots_ub (to_slots a) <= b) l -> slot_ub (rep_slot l) <= (10 + b) * Z.of_nat n.
Proof.
  intros Hb Hn Hl. unfold slot_ub, rep_slot. rewrite map_map.
  etrans; [apply (sumZ_le_bound _ (10 + b))|nia].
  eapply Forall_impl; [exact Hl|]. intros a Ha. simpl. unfold slots_ub in Ha. lia.
Qed.

Lemma point_ub o : opt_all wf_public o -> opt_all (fun d => blen d <= 33) (ec_public_key_bytes <$> o).
Proof. destruct o; simpl; [|done]. intros H. rewrite blen_ec_public_key_bytes by done. lia. Qed.

Lemma chain_key_ub v ck : chain_ok v ck -> slots_ub (to_slots (chain_key_structure ck)) <= 60.
Proof.
  intros [_ H _]. cbn [to_slots ChainKeyStructure_proto chain_key_structure ck_index ck_key].
  rewrite !slots_ub_cons, slots_ub_nil. pose proof (int_slot_ub (Some (chain_index ck))).
  pose proof (bytes_slot_ub (Some (chain_key ck)) 32 ltac:(lia)) as Hb. unfold blen in Hb.
  simpl opt_all in Hb. lia.
Qed.

Lemma message_key_ub k : wf_message_keys k -> slots_ub (to_slots (message_key_structure k)) <= 130.
Proof.
  intros [H1 H2 H3 _].
  cbn [to_slots MessageKeyStructure_proto message_key_structure mk_index mk_cipherkey mk_mackey mk_iv].
  rewrite !slots_ub_cons, slots_ub_nil. pose proof (int_slot_ub (Some (counter k))).
  pose proof (bytes_slot_ub (Some (cipher_key k)) 32 ltac:(lia)) as B1.
  pose proof (bytes_slot_ub (Some (mac_key k)) 32 ltac:(lia)) as B2.
  pose proof (bytes_slot_ub (Some (iv k)) 16 ltac:(lia)) as B3.
  unfold blen in *. simpl opt_all in *. lia.
Qed.

Lemma chain_structure_ub v pub priv ck l :
  opt_all (fun d => blen d <= 33) pub -> opt_all (fun d => blen d <= 32) priv ->
  opt_all (chain_ok v) ck -> Forall wf_message_keys l -> (length l <= MAX_MESSAGE_KEYS)%nat ->
  slots_ub (to_slots (ChainStructure_ pub priv (chain_key_structure <$> ck)
    (map message_key_structure l))) <= 290000.
Proof.
  intros H1 H2 H3 H4 H5.
  cbn [to_slots ChainStructure_proto ch_senderratchetkey ch_senderratchetkeyprivate ch_chainkey ch_messagekeys].
  rewrite !slots_ub_cons, slots_ub_nil.
  pose proof (bytes_slot_ub pub 33 ltac:(lia) H1).
  pose proof (bytes_slot_ub priv 32 ltac:(lia) H2).
  assert (slot_ub (msg_slot (chain_key_structure <$> ck)) <= 10 + 60).
  { apply msg_slot_ub; [lia|]. destruct ck; simpl in *; [by eapply chain_key_ub|done]. }
  assert (slot_ub (rep_slot (map message_key_structure l)) <= (10 + 130) * Z.of_nat MAX_MESSAGE_KEYS).
  { apply rep_slot_ub; [lia|by rewrite length_map|]. apply Forall_map.
    eapply Forall_impl; [exact H4|]. apply message_key_ub. }
  unfold MAX_MESSAGE_KEYS in *. lia.
Qed.

Lemma private_ub (o : option ec_key_pair) :
  opt_all (fun d => blen d <= 32) ((fun kp => key_bytes (ec_key_pair_get_private kp)) <$> o).
Proof. destruct o as [kp|]; [|done]. apply (blen_private_data (ec_key_pair_get_private kp)). Qed.

Lemma pair_public_ub (o : option ec_key_pair) : opt_all pair_ok o ->
  opt_all (fun d => blen d <= 33) ((fun kp => ec_public_key_bytes (ec_key_pair_get_public kp)) <$> o).
Proof.
  destruct o as [kp|]; [|done]. intros [H _]. simpl. rewrite blen_ec_public_key_bytes by done. lia.
Qed.

Lemma exchange_ub e : exchange_ok e -> slots_ub (to_slots (exchange_structure e)) <= 500.
Proof.
  intros [_ H1 H2 H3].
  cbn [to_slots PendingKeyExchangeStructure_proto exchange_structure pk_sequence pk_localbasekey
    pk_localbasekeyprivate pk_localratchetkey pk_localratchetkeyprivate pk_localidentitykey
    pk_localidentitykeyprivate].
  rewrite !slots_ub_cons, slots_ub_nil. pose proof (int_slot_ub (Some (pke_sequence e))).
  pose proof (bytes_slot_ub _ 33 ltac:(lia) (pair_public_ub _ H1)).
  pose proof (bytes_slot_ub _ 33 ltac:(lia) (pair_public_ub _ H2)).
  pose proof (bytes_slot_ub _ 32 ltac:(lia) (private_ub (pke_local_base_key e))).
  pose proof (bytes_slot_ub _ 32 ltac:(lia) (private_ub (pke_local_ratchet_key e))).
  assert (slot_ub (bytes_slot ((fun kp => ec_public_key_bytes (identity_public kp)) <$>
    pke_local_identity_key e)) <= 10 + 33).
  { apply bytes_slot_ub; [lia|]. destruct (pke_local_identity_key e); [|done]. simpl.
    rewrite blen_ec_public_key_bytes by apply H3. lia. }
  assert (slot_ub (bytes_slot ((fun kp => key_bytes (identity_private kp)) <$>
    pke_local_identity_key e)) <= 10 + 32).
  { apply bytes_slot_ub; [lia|]. destruct (pke_local_identity_key e); [|done].
    apply blen_private_data. }
  lia.
Qed.

Lemma pre_key_ub p : pre_key_ok p -> slots_ub (to_slots (pre_key_structure p)) <= 100.
Proof.
  intros [_ _ H]. cbn [to_slots PendingPreKeyStructure_proto pre_key_structure pp_prekeyid pp_basekey pp_signedprekeyid].
  rewrite !slots_ub_cons, slots_ub_nil. pose proof (int_slot_ub (ppk_pre_key_id p)).
  pose proof (int_slot_ub (Some (int32 (ppk_signed_pre_key_id p)))).
  pose proof (bytes_slot_ub _ 33 ltac:(lia) (point_ub _ H)). lia.
Qed.

(** A stored state takes less than 2 MB. *)
Lemma structure_ub s : storable s -> slots_ub (to_slots (structure_of s)) <= 1800000.
Proof.
  intros Hs. destruct (so_bounded s Hs) as [Hb1 Hb2].
  pose proof (so_receivers s Hs) as Hr. pose proof (so_sender s Hs) as Hsc.
  pose proof (so_exchange s Hs) as He. pose proof (so_pre_key s Hs) as Hp.
  cbn [to_slots SessionStructure_proto structure_of ss_sessionversion ss_localidentitypublic
    ss_remoteidentitypublic ss_rootkey ss_previouscounter ss_senderchain ss_receiverchains
    ss_pendingkeyexchange ss_pendingprekey ss_remoteregistrationid ss_localregistrationid
    ss_needsrefresh ss_alicebasekey].
  rewrite !slots_ub_cons, slots_ub_nil.
  pose proof (int_slot_ub (Some (st_session_version s))).
  pose proof (int_slot_ub (Some (st_previous_counter s))).
  pose proof (int_slot_ub (Some (st_remote_registration_id s))).
  pose proof (int_slot_ub (Some (st_local_registration_id s))).
  pose proof (int_slot_ub (Some (st_needs_refresh s))).
  pose proof (bytes_slot_ub _ 33 ltac:(lia) (point_ub _ (so_local s Hs))).
  pose proof (bytes_slot_ub _ 33 ltac:(lia) (point_ub _ (so_remote s Hs))).
  pose proof (bytes_slot_ub _ 33 ltac:(lia) (point_ub _ (so_alice s Hs))).
  assert (slot_ub (bytes_slot (root_key <$> st_root_key s)) <= 10 + 32).
  { apply bytes_slot_ub; [lia|]. pose proof (so_root s Hs) as H'.
    destruct (st_root_key s); [|done]. simpl in *. destruct H' as [_ H']. unfold blen. lia. }
  assert (slot_ub (msg_slot (if st_has_sender_chain s then Some (sender_structure (st_sender_chain s))
    else None)) <= 10 + 290000).
  { apply msg_slot_ub; [lia|]. destruct (st_has_sender_chain s); [|done]. destruct Hsc as [S1 S2 S3].
    apply (chain_structure_ub (st_session_version s)); [by apply pair_public_ub|apply private_ub|done| |];
      rewrite S3; [constructor|simpl; lia]. }
  assert (slot_ub (rep_slot (map receiver_structure (st_receiver_chains s))) <= (10 + 290000) * Z.of_nat 5).
  { apply rep_slot_ub; [lia|by rewrite length_map|]. apply Forall_map.
    apply Forall_forall. intros c Hc. rewrite Forall_forall in Hr, Hb2.
    destruct (Hr _ Hc) as [R1 R2 R3]. apply (chain_structure_ub (st_session_version s)); try done.
    - by apply point_ub.
    - by apply Hb2. }
  assert (slot_ub (msg_slot (if st_has_pending_key_exchange s
    then Some (exchange_structure (st_pending_key_exchange s)) else None)) <= 10 + 500).
  { apply msg_slot_ub; [lia|]. destruct (st_has_pending_key_exchange s); [by apply exchange_ub|done]. }
  assert (slot_ub (msg_slot (if st_has_pending_pre_key s
    then Some (pre_key_structure (st_pending_pre_key s)) else None)) <= 10 + 100).
  { apply msg_slot_ub; [lia|]. destruct (st_has_pending_pre_key s); [by apply pre_key_ub|done]. }
  lia.
Qed.

Lemma structure_wf s : storable s -> proto_wf (structure_of s).
Proof.
  intros Hs. split; [by apply typed_structure|].
  eapply wf_size_ub; [etrans; [apply packed_ub|by apply structure_ub]|lia].
Qed.

Section Trip.
Context {U : Type}.
Implicit Types w : world U.

Lemma session_state_serialize_ok s w : mem_ok w -> storable s ->
  session_state_serialize s w = (Ok (packed (structure_of s)), w).
Proof.
  intros Hm Hs. unfold session_state_serialize. erewrite bind_ok by by apply malloc_ok.
  erewrite bind_ok by by apply prepare_ok. apply proto_pack_ok; [done|]. by apply structure_wf.
Qed.

Lemma session_state_deserialize_ok s w : mem_ok w -> storable s ->
  session_state_deserialize (packed (structure_of s)) w = (Ok s, w).
Proof.
  intros Hm Hs. unfold session_state_deserialize.
  erewrite bind_ok by (apply proto_unpack_pack; [done|by apply structure_wf]).
  by apply deserialize_structure_ok.
Qed.

Lemma session_state_copy_ok s w : mem_ok w -> storable s -> session_state_copy s w = (Ok s, w).
Proof.
  intros Hm Hs. unfold session_state_copy. erewrite bind_ok by by apply session_state_serialize_ok.
  by apply session_state_deserialize_ok.
Qed.
End Trip.
