(* ===== verification/RatchetSession.v ===== *)
(** ratchet.c, second half: the parameters of a new session and the three ways
    to initialize it, as Alice, as Bob, and symmetrically.  [x3dh_secret] is
    the master secret of the handshake; the lemmas show what each side's
    session state holds after initialization, and that the two sides agree. *)
From Stdlib Require Import String.
From stdpp Require Import base list.
From Stdlib Require Import ZArith Lia.
From S2P Require Import Prelude Buffers Hkdf Curve Vpool Protobuf Messages Ratchet SessionState.
From S2P Require Import SessionStorage.
#[local] Open Scope Z_scope.
#[local] Open Scope signal_scope.

Definition CIPHERTEXT_UNSUPPORTED_VERSION : Z := 1.
Definition CIPHERTEXT_CURRENT_VERSION : Z := 3.

Record symmetric_signal_protocol_parameters : Type := SymmetricParameters {
  sym_our_identity_key : ratchet_identity_key_pair;
  sym_our_base_key : ec_key_pair;
  sym_our_ratchet_key : ec_key_pair;
  sym_their_base_key : ec_public_key;
  sym_their_ratchet_key : ec_public_key;
  sym_their_identity_key : ec_public_key
}.

Record alice_signal_protocol_parameters : Type := AliceParameters {
  alice_our_identity_key : ratchet_identity_key_pair;
  alice_our_base_key : ec_key_pair;
  alice_their_identity_key : ec_public_key;
  alice_their_signed_pre_key : ec_public_key;
  alice_their_one_time_pre_key : option ec_public_key;
  alice_their_ratchet_key : ec_public_key
}.

Record bob_signal_protocol_parameters : Type := BobParameters {
  bob_our_identity_key : ratchet_identity_key_pair;
  bob_our_signed_pre_key : ec_key_pair;
  bob_our_one_time_pre_key : option ec_key_pair;
  bob_our_ratchet_key : ec_key_pair;
  bob_their_identity_key : ec_public_key;
  bob_their_base_key : ec_public_key
}.

Definition text_info : bytes := ascii_bytes "WhisperText".
Definition discontinuity_data : bytes := replicate 32 255.

Section Session.
Context {U : Type} `{CP : CryptoProvider} `{CV : Curve25519}.

Definition symmetric_signal_protocol_parameters_create
    (our_identity_key : option ratchet_identity_key_pair) (our_base_key our_ratchet_key : option ec_key_pair)
    (their_base_key their_ratchet_key their_identity_key : option ec_public_key)
    : M U symmetric_signal_protocol_parameters :=
  match our_identity_key, our_base_key, our_ratchet_key, their_base_key, their_ratchet_key,
        their_identity_key with
  | Some a, Some b, Some c, Some d, Some e, Some f => malloc ;;; ret (SymmetricParameters a b c d e f)
  | _, _, _, _, _, _ => fail SG_ERR_INVAL
  end.

Definition alice_signal_protocol_parameters_create
    (our_identity_key : option ratchet_identity_key_pair) (our_base_key : option ec_key_pair)
    (their_identity_key their_signed_pre_key their_one_time_pre_key their_ratchet_key : option ec_public_key)
    : M U alice_signal_protocol_parameters :=
  match our_identity_key, our_base_key, their_identity_key, their_signed_pre_key, their_ratchet_key with
  | Some a, Some b, Some c, Some d, Some f =>
      malloc ;;; ret (AliceParameters a b c d their_one_time_pre_key f)
  | _, _, _, _, _ => fail SG_ERR_INVAL
  end.

Definition bob_signal_protocol_parameters_create
    (our_identity_key : option ratchet_identity_key_pair)
    (our_signed_pre_key our_one_time_pre_key our_ratchet_key : option ec_key_pair)
    (their_identity_key their_base_key : option ec_public_key) : M U bob_signal_protocol_parameters :=
  match our_identity_key, our_signed_pre_key, our_ratchet_key, their_identity_key, their_base_key with
  | Some a, Some b, Some d, Some e, Some f =>
      malloc ;;; ret (BobParameters a b our_one_time_pre_key d e f)
  | _, _, _, _, _ => fail SG_ERR_INVAL
  end.

(** Any failure of the derivation is [SG_ERR_UNKNOWN]. *)
Definition ratcheting_session_calculate_derived_keys (secret : bytes)
    : M U (ratchet_root_key * ratchet_chain_key) :=
  let* kdf := hkdf_create 3 in
  let* output := map_err (fun _ => SG_ERR_UNKNOWN)
    (hkdf_derive_secrets kdf secret zero_salt (Some text_info) 64) in
  match output with
  | None => fail SG_ERR_UNKNOWN
  | Some output =>
      if negb (length output =? 64)%nat then fail SG_ERR_UNKNOWN
      else
        let* rk := ratchet_root_key_create (Some kdf) (Some (take 32 output)) in
        let* ck := ratchet_chain_key_create (Some kdf) (Some (take 32 (drop 32 output))) 0 in
        ret (rk, ck)
  end.

Definition ratcheting_session_symmetric_is_alice (p : symmetric_signal_protocol_parameters) : bool :=
  ec_public_key_memcmp (Some (ec_key_pair_get_public (sym_our_base_key p)))
    (Some (sym_their_base_key p)) <? 0.

(** [if(!vpool_insert(&vp, vpool_get_length(&vp), ...)) result = SG_ERR_NOMEM] *)
Definition vpool_append (vp : vpool) (data : bytes) : M U vpool :=
  let* r := vpool_insert vp (vpool_get_length vp) data in
  if snd r then ret (fst r) else fail SG_ERR_NOMEM.

(** One agreement, appended to the pool. *)
Definition append_agreement (vp : vpool) (public_key : ec_public_key) (private_key : ec_private_key)
    : M U vpool :=
  let* agreement := curve_calculate_agreement (Some public_key) (Some private_key) in
  vpool_append vp agreement.

Definition ratcheting_session_alice_initialize (state : session_state)
    (p : alice_signal_protocol_parameters) : M U session_state :=
  let vp := vpool_init 1024 0 in
  let* sending_ratchet_key := curve_generate_key_pair in
  let* vp := vpool_append vp discontinuity_data in
  let* vp := append_agreement vp (alice_their_signed_pre_key p)
    (identity_private (alice_our_identity_key p)) in
  let* vp := append_agreement vp (alice_their_identity_key p)
    (ec_key_pair_get_private (alice_our_base_key p)) in
  let* vp := append_agreement vp (alice_their_signed_pre_key p)
    (ec_key_pair_get_private (alice_our_base_key p)) in
  let* vp :=
    match alice_their_one_time_pre_key p with
    | Some k => append_agreement vp k (ec_key_pair_get_private (alice_our_base_key p))
    | None => ret vp
    end in
  if vpool_is_empty vp then fail SG_ERR_UNKNOWN else
  let* derived := ratcheting_session_calculate_derived_keys (vpool_get_buf vp) in
  let* sending := ratchet_root_key_create_chain (fst derived) (Some (alice_their_ratchet_key p))
    (Some (ec_key_pair_get_private sending_ratchet_key)) in
  let state := session_state_set_session_version CIPHERTEXT_CURRENT_VERSION state in
  let state := session_state_set_remote_identity_key (alice_their_identity_key p) state in
  let state := session_state_set_local_identity_key (identity_public (alice_our_identity_key p)) state in
  (* the result of session_state_add_receiver_chain is not looked at *)
  let* r := attempt (session_state_add_receiver_chain state (alice_their_ratchet_key p) (snd derived)) in
  let state := match r with inl state' => state' | inr _ => state end in
  let state := session_state_set_sender_chain sending_ratchet_key (snd sending) state in
  ret (session_state_set_root_key (fst sending) state).

Definition ratcheting_session_bob_initialize (state : session_state)
    (p : bob_signal_protocol_parameters) : M U session_state :=
  let vp := vpool_init 1024 0 in
  let* vp := vpool_append vp discontinuity_data in
  let* vp := append_agreement vp (bob_their_identity_key p)
    (ec_key_pair_get_private (bob_our_signed_pre_key p)) in
  let* vp := append_agreement vp (bob_their_base_key p) (identity_private (bob_our_identity_key p)) in
  let* vp := append_agreement vp (bob_their_base_key p)
    (ec_key_pair_get_private (bob_our_signed_pre_key p)) in
  let* vp :=
    match bob_our_one_time_pre_key p with
    | Some kp => append_agreement vp (bob_their_base_key p) (ec_key_pair_get_private kp)
    | None => ret vp
    end in
  if vpool_is_empty vp then fail SG_ERR_UNKNOWN else
  let* derived := ratcheting_session_calculate_derived_keys (vpool_get_buf vp) in
  let state := session_state_set_session_version CIPHERTEXT_CURRENT_VERSION state in
  let state := session_state_set_remote_identity_key (bob_their_identity_key p) state in
  let state := session_state_set_local_identity_key (identity_public (bob_our_identity_key p)) state in
  let state := session_state_set_sender_chain (bob_our_ratchet_key p) (snd derived) state in
  ret (session_state_set_root_key (fst derived) state).

Definition ratcheting_session_symmetric_initialize (state : session_state)
    (p : symmetric_signal_protocol_parameters) : M U session_state :=
  if ratcheting_session_symmetric_is_alice p then
    let* alice_parameters := alice_signal_protocol_parameters_create
      (Some (sym_our_identity_key p)) (Some (sym_our_base_key p)) (Some (sym_their_identity_key p))
      (Some (sym_their_base_key p)) None (Some (sym_their_ratchet_key p)) in
    ratcheting_session_alice_initialize state alice_parameters
  else
    let* bob_parameters := bob_signal_protocol_parameters_create
      (Some (sym_our_identity_key p)) (Some (sym_our_base_key p)) None (Some (sym_our_ratchet_key p))
      (Some (sym_their_identity_key p)) (Some (sym_their_base_key p)) in
    ratcheting_session_bob_initialize state bob_parameters.
End Session.

(** * The handshake *)

(** The master secret from its three or four agreements. *)
Definition x3dh_secret (dh1 dh2 dh3 : bytes) (dh4 : option bytes) : bytes :=
  discontinuity_data ++ dh1 ++ dh2 ++ dh3 ++ default [] dh4.

Definition derive `{CL : CryptoLaws} (secret : bytes) : ratchet_root_key * ratchet_chain_key :=
  let d := Spec.hkdf 1 secret zero_salt text_info 64 in
  (RatchetRootKey (HkdfContext 1) (take 32 d), RatchetChainKey (HkdfContext 1) (take 32 (drop 32 d)) 0).

Section Run.
Context {U : Type} `{CL : CryptoLaws} `{VL : CurveLaws}.
Implicit Types w : world U.

Lemma calculate_derived_keys_ok secret w : mem_ok w ->
  ratcheting_session_calculate_derived_keys secret w = (Ok (derive secret), w).
Proof.
  intros Hm. unfold ratcheting_session_calculate_derived_keys.
  erewrite bind_ok by (apply hkdf_create_ok; [done|by right]).
  change (version_kdf 3) with (HkdfContext 1). erewrite bind_ok; cycle 1.
  { unfold map_err. rewrite hkdf_derive_secrets_run; [reflexivity|done|lia|lia|].
    change (hkdf_iterations 64) with 2. lia. }
  cbv beta iota. rewrite length_hkdf. cbn [Nat.eqb negb].
  erewrite bind_ok by by apply ratchet_root_key_create_ok.
  by erewrite bind_ok by by apply ratchet_chain_key_create_ok.
Qed.

(** The pool of the handshake and what it holds. *)
Record pool (vp : vpool) (c : bytes) : Prop := {
  pool_wf : wf vp;
  pool_contents : contents vp = c;
  pool_off : v_off vp = blen c;
  pool_limit : v_limit vp = SIZE_MAX;
  pool_blk : v_blksize vp = 1024
}.

Lemma pool_init : pool (vpool_init 1024 0) [].
Proof.
  destruct (wf_init 1024 0) as [H1 H2]; [lia|unfold SIZE_MAX; lia|]. by split.
Qed.

Lemma vpool_append_ok vp c d w : mem_ok w -> pool vp c -> blen c + blen d <= 4096 ->
  exists vp', vpool_append vp d w = (Ok vp', w) /\ pool vp' (c ++ d).
Proof.
  intros Hm [H1 H2 H3 H4 H5] Hl. unfold vpool_append.
  destruct (vpool_insert_run vp (v_off vp) d w) as (vp' & E & Hw & Hc & Ho & Hli & Hb); try done.
  - apply H1.
  - rewrite H3, H4. unfold SIZE_MAX. lia.
  - rewrite H3, H5. unfold SIZE_MAX. lia.
  - exists vp'. unfold vpool_get_length. erewrite bind_ok by exact E. split; [done|].
    split; try done; [|rewrite Ho, H3, blen_app; lia|congruence|congruence].
    rewrite Hc, H2, H3. unfold blen. rewrite Nat2Z.id, take_ge, drop_ge by lia.
    by rewrite app_nil_r.
Qed.

Lemma append_agreement_ok vp c p k w : mem_ok w -> pool vp c -> wf_public p -> wf_private k ->
  blen c <= 2048 ->
  exists vp', append_agreement vp p k w = (Ok vp', w) /\ pool vp' (c ++ agree k p) /\
    blen (agree k p) = 32.
Proof.
  intros Hm Hp H1 H2 Hl. unfold append_agreement.
  destruct (curve_calculate_agreement_ok p k w Hm H1 H2) as [E Ha].
  erewrite bind_ok by exact E.
  destruct (vpool_append_ok vp c (agree k p) w Hm Hp) as (vp' & E' & Hp').
  { unfold blen in *. lia. }
  exists vp'. split; [done|]. split; [done|]. unfold blen. lia.
Qed.

(** The agreements of the handshake in the order the code makes them. *)
Lemma collect_ok p1 k1 p2 k2 p3 k3 (o : option (ec_public_key * ec_private_key)) w : mem_ok w ->
  wf_public p1 -> wf_private k1 -> wf_public p2 -> wf_private k2 -> wf_public p3 -> wf_private k3 ->
  opt_all (fun pk => wf_public (fst pk) /\ wf_private (snd pk)) o ->
  exists vp0 vp1 vp2 vp3 vp4,
    vpool_append (vpool_init 1024 0) discontinuity_data w = (Ok vp0, w) /\
    append_agreement vp0 p1 k1 w = (Ok vp1, w) /\ append_agreement vp1 p2 k2 w = (Ok vp2, w) /\
    append_agreement vp2 p3 k3 w = (Ok vp3, w) /\
    match o with
    | Some (p, k) => append_agreement vp3 p k w = (Ok vp4, w)
    | None => vp4 = vp3
    end /\
    vpool_is_empty vp4 = false /\
    vpool_get_buf vp4 = x3dh_secret (agree k1 p1) (agree k2 p2) (agree k3 p3)
      ((fun pk => agree (snd pk) (fst pk)) <$> o).
Proof.
  intros Hm H1 H2 H3 H4 H5 H6 Ho.
  destruct (vpool_append_ok (vpool_init 1024 0) [] discontinuity_data w Hm pool_init)
    as (vp0 & E0 & P0); [done|].
  change ([] ++ discontinuity_data) with discontinuity_data in P0.
  assert (blen discontinuity_data = 32) as L0 by done.
  destruct (append_agreement_ok vp0 _ p1 k1 w Hm P0 H1 H2) as (vp1 & E1 & P1 & L1); [lia|].
  destruct (append_agreement_ok vp1 _ p2 k2 w Hm P1 H3 H4) as (vp2 & E2 & P2 & L2);
    [rewrite blen_app; lia|].
  destruct (append_agreement_ok vp2 _ p3 k3 w Hm P2 H5 H6) as (vp3 & E3 & P3 & L3);
    [rewrite !blen_app; lia|].
  rewrite <- !app_assoc in P3.
  destruct o as [[p k]|].
  - destruct Ho as [H7 H8].
    destruct (append_agreement_ok vp3 _ p k w Hm P3 H7 H8) as (vp4 & E4 & P4 & L4);
      [rewrite !blen_app; lia|].
    exists vp0, vp1, vp2, vp3, vp4. repeat split; try done.
    + unfold vpool_is_empty. rewrite (pool_off _ _ P4). apply Z.eqb_neq. rewrite !blen_app. lia.
    + unfold vpool_get_buf. rewrite (pool_contents _ _ P4). unfold x3dh_secret. simpl.
      by rewrite <- !app_assoc.
  - exists vp0, vp1, vp2, vp3, vp3. repeat split; try done.
    + unfold vpool_is_empty. rewrite (pool_off _ _ P3). apply Z.eqb_neq. rewrite !blen_app. lia.
    + unfold vpool_get_buf. rewrite (pool_contents _ _ P3). unfold x3dh_secret. simpl.
      by rewrite app_nil_r.
Qed.

(** What [ratcheting_session_alice_initialize] makes of a state. *)
Definition alice_secret (p : alice_signal_protocol_parameters) : bytes :=
  let base := ec_key_pair_get_private (alice_our_base_key p) in
  x3dh_secret (agree (identity_private (alice_our_identity_key p)) (alice_their_signed_pre_key p))
    (agree base (alice_their_identity_key p)) (agree base (alice_their_signed_pre_key p))
    (agree base <$> alice_their_one_time_pre_key p).

Definition bob_secret (p : bob_signal_protocol_parameters) : bytes :=
  let signed := ec_key_pair_get_private (bob_our_signed_pre_key p) in
  x3dh_secret (agree signed (bob_their_identity_key p))
    (agree (identity_private (bob_our_identity_key p)) (bob_their_base_key p))
    (agree signed (bob_their_base_key p))
    ((fun kp => agree (ec_key_pair_get_private kp) (bob_their_base_key p)) <$> bob_our_one_time_pre_key p).

Record alice_ok (p : alice_signal_protocol_parameters) : Prop := {
  alice_ok_identity : identity_ok (alice_our_identity_key p);
  alice_ok_base : pair_ok (alice_our_base_key p);
  alice_ok_their_identity : wf_public (alice_their_identity_key p);
  alice_ok_signed : wf_public (alice_their_signed_pre_key p);
  alice_ok_one_time : opt_all wf_public (alice_their_one_time_pre_key p);
  alice_ok_ratchet : wf_public (alice_their_ratchet_key p)
}.

Record bob_ok (p : bob_signal_protocol_parameters) : Prop := {
  bob_ok_identity : identity_ok (bob_our_identity_key p);
  bob_ok_signed : pair_ok (bob_our_signed_pre_key p);
  bob_ok_one_time : opt_all pair_ok (bob_our_one_time_pre_key p);
  bob_ok_ratchet : pair_ok (bob_our_ratchet_key p);
  bob_ok_their_identity : wf_public (bob_their_identity_key p);
  bob_ok_their_base : wf_public (bob_their_base_key p)
}.

(** The setters of the last lines of the initializers. *)
Definition set_identities (remote local : ec_public_key) (s : session_state) : session_state :=
  session_state_set_local_identity_key local
    (session_state_set_remote_identity_key remote
      (session_state_set_session_version CIPHERTEXT_CURRENT_VERSION s)).

Lemma alice_initialize_ok s p w : mem_ok w -> alice_ok p ->
  exists kp s1, ratcheting_session_alice_initialize s p w =
    (Ok (let d := derive (alice_secret p) in
         let r := Ratchet.root_step (fst d) (agree (ec_key_pair_get_private kp) (alice_their_ratchet_key p)) in
         session_state_set_root_key (fst r) (session_state_set_sender_chain kp (snd r) s1)), rng_step w) /\
    curve_generate_key_pair w = (Ok kp, rng_step w) /\ key_pair_matches kp /\
    session_state_add_receiver_chain
      (set_identities (alice_their_identity_key p) (identity_public (alice_our_identity_key p)) s)
      (alice_their_ratchet_key p) (snd (derive (alice_secret p))) w = (Ok s1, w).
Proof.
  intros Hm [[H1 H2] [H3 H4] H5 H6 H7 H8].
  destruct (curve_generate_key_pair_ok w Hm) as (kp & E & Hkp).
  unfold ratcheting_session_alice_initialize. erewrite bind_ok by exact E.
  destruct (collect_ok (alice_their_signed_pre_key p) (identity_private (alice_our_identity_key p))
    (alice_their_identity_key p) (ec_key_pair_get_private (alice_our_base_key p))
    (alice_their_signed_pre_key p) (ec_key_pair_get_private (alice_our_base_key p))
    ((fun k => (k, ec_key_pair_get_private (alice_our_base_key p))) <$> alice_their_one_time_pre_key p)
    (rng_step w)) as (vp0 & vp1 & vp2 & vp3 & vp4 & E0 & E1 & E2 & E3 & E4 & Hne & Hbuf); try done.
  { by destruct (alice_their_one_time_pre_key p). }
  do 4 (erewrite bind_ok by eassumption).
  assert (match alice_their_one_time_pre_key p with
    | Some k => append_agreement vp3 k (ec_key_pair_get_private (alice_our_base_key p))
    | None => ret vp3 end (rng_step w) = (Ok vp4, rng_step w)) as E4'.
  { destruct (alice_their_one_time_pre_key p); simpl in E4; [done|]. by subst. }
  erewrite bind_ok by exact E4'. rewrite Hne.
  assert (vpool_get_buf vp4 = alice_secret p) as ->.
  { rewrite Hbuf. unfold alice_secret. by destruct (alice_their_one_time_pre_key p). }
  erewrite bind_ok by by apply calculate_derived_keys_ok.
  erewrite bind_ok by (apply create_chain_ok; [done|done|done|apply Hkp]).
  exists kp. eexists. split; [|split; [exact E|split; [exact Hkp|]]].
  - unfold session_state_add_receiver_chain, attempt, bind. rewrite malloc_ok by done. reflexivity.
  - unfold session_state_add_receiver_chain. erewrite bind_ok by by apply malloc_ok. reflexivity.
Qed.

Lemma bob_initialize_ok s p w : mem_ok w -> bob_ok p ->
  ratcheting_session_bob_initialize s p w =
    (Ok (let d := derive (bob_secret p) in
         session_state_set_root_key (fst d) (session_state_set_sender_chain (bob_our_ratchet_key p) (snd d)
           (set_identities (bob_their_identity_key p) (identity_public (bob_our_identity_key p)) s))), w).
Proof.
  intros Hm [[H1 H2] [H3 H4] H5 H6 H7 H8].
  unfold ratcheting_session_bob_initialize.
  destruct (collect_ok (bob_their_identity_key p) (ec_key_pair_get_private (bob_our_signed_pre_key p))
    (bob_their_base_key p) (identity_private (bob_our_identity_key p))
    (bob_their_base_key p) (ec_key_pair_get_private (bob_our_signed_pre_key p))
    ((fun kp => (bob_their_base_key p, ec_key_pair_get_private kp)) <$> bob_our_one_time_pre_key p)
    w) as (vp0 & vp1 & vp2 & vp3 & vp4 & E0 & E1 & E2 & E3 & E4 & Hne & Hbuf); try done.
  { destruct (bob_our_one_time_pre_key p); simpl in *; [|done]. split; [done|apply H5]. }
  do 4 (erewrite bind_ok by eassumption).
  assert (match bob_our_one_time_pre_key p with
    | Some kp => append_agreement vp3 (bob_their_base_key p) (ec_key_pair_get_private kp)
    | None => ret vp3 end w = (Ok vp4, w)) as E4'.
  { destruct (bob_our_one_time_pre_key p); simpl in E4; [done|]. by subst. }
  erewrite bind_ok by exact E4'. rewrite Hne.
  assert (vpool_get_buf vp4 = bob_secret p) as ->.
  { rewrite Hbuf. unfold bob_secret. by destruct (bob_our_one_time_pre_key p). }
  by erewrite bind_ok by by apply calculate_derived_keys_ok.
Qed.
End Run.

(** ** Agreement of the two sides *)

Definition as_pair (ik : ratchet_identity_key_pair) : ec_key_pair :=
  EcKeyPair (identity_public ik) (identity_private ik).

(** Alice's parameters name the public halves of Bob's keys and vice versa. *)
Record corresponds `{Curve25519} (pa : alice_signal_protocol_parameters)
    (pb : bob_signal_protocol_parameters) : Prop := {
  co_alice_identity : key_pair_matches (as_pair (alice_our_identity_key pa));
  co_alice_base : key_pair_matches (alice_our_base_key pa);
  co_bob_identity : key_pair_matches (as_pair (bob_our_identity_key pb));
  co_bob_signed : key_pair_matches (bob_our_signed_pre_key pb);
  co_bob_one_time : opt_all key_pair_matches (bob_our_one_time_pre_key pb);
  co_bob_ratchet : key_pair_matches (bob_our_ratchet_key pb);
  co_their_identity : alice_their_identity_key pa = identity_public (bob_our_identity_key pb);
  co_their_signed : alice_their_signed_pre_key pa = ec_key_pair_get_public (bob_our_signed_pre_key pb);
  co_their_one_time : alice_their_one_time_pre_key pa =
    ec_key_pair_get_public <$> bob_our_one_time_pre_key pb;
  co_their_ratchet : alice_their_ratchet_key pa = ec_key_pair_get_public (bob_our_ratchet_key pb);
  co_alice_their : bob_their_identity_key pb = identity_public (alice_our_identity_key pa);
  co_alice_base_their : bob_their_base_key pb = ec_key_pair_get_public (alice_our_base_key pa)
}.

Section Agreement.
Context {U : Type} `{CL : CryptoLaws} `{VL : CurveLaws}.

Lemma matches_ok kp : key_pair_matches kp -> pair_ok kp.
Proof. by intros (H1 & H2 & _). Qed.

Lemma corresponds_ok pa pb : corresponds pa pb -> alice_ok pa /\ bob_ok pb.
Proof.
  intros [H1 H2 H3 H4 H5 H6 E1 E2 E3 E4 E5 E6].
  destruct H1 as (P1 & Q1 & _), H2 as (P2 & Q2 & _), H3 as (P3 & Q3 & _), H4 as (P4 & Q4 & _),
    H6 as (P6 & Q6 & _). simpl in *.
  split; split; try by split.
  - by rewrite E1.
  - by rewrite E2.
  - rewrite E3. destruct (bob_our_one_time_pre_key pb); [|done]. apply H5.
  - by rewrite E4.
  - destruct (bob_our_one_time_pre_key pb); [|done]. by apply matches_ok.
  - by rewrite E5.
  - by rewrite E6.
Qed.

Lemma secrets_agree pa pb : corresponds pa pb -> alice_secret pa = bob_secret pb.
Proof.
  intros [H1 H2 H3 H4 H5 H6 E1 E2 E3 E4 E5 E6]. unfold alice_secret, bob_secret.
  rewrite E1, E2, E3, E5, E6. f_equal.
  - apply (agree_comm (as_pair (alice_our_identity_key pa)) (bob_our_signed_pre_key pb)); done.
  - apply (agree_comm (alice_our_base_key pa) (as_pair (bob_our_identity_key pb))); done.
  - by apply agree_comm.
  - destruct (bob_our_one_time_pre_key pb) as [kp|]; [|done]. simpl. f_equal. by apply agree_comm.
Qed.

(** What the two states hold after a handshake. *)
Record in_step (sa sb : session_state) (bob_ratchet : ec_key_pair) : Prop := {
  step_receive : session_state_get_receiver_chain_key sa (ec_key_pair_get_public bob_ratchet) =
    session_state_get_sender_chain_key sb;
  step_sender : exists kp ck rk rb,
    sc_ratchet_key_pair (st_sender_chain sa) = Some kp /\ key_pair_matches kp /\
    session_state_get_sender_chain_key sa = Some ck /\ st_root_key sa = Some rk /\
    st_root_key sb = Some rb /\
    forall (w : world U), mem_ok w ->
      ratchet_root_key_create_chain rb (Some (ec_key_pair_get_public kp))
        (Some (ec_key_pair_get_private bob_ratchet)) w = (Ok (rk, ck), w);
  step_identities : st_remote_identity_public sa = st_local_identity_public sb /\
    st_remote_identity_public sb = st_local_identity_public sa
}.

Lemma handshake pa pb sa sb (wa wb : world U) : mem_ok wa -> mem_ok wb -> corresponds pa pb ->
  find_chain (alice_their_ratchet_key pa) (st_receiver_chains sa) = None ->
  exists sa' sb',
    ratcheting_session_alice_initialize sa pa wa = (Ok sa', rng_step wa) /\
    ratcheting_session_bob_initialize sb pb wb = (Ok sb', wb) /\
    in_step sa' sb' (bob_our_ratchet_key pb).
Proof.
  intros Ha Hb Hco Hnone. destruct (corresponds_ok pa pb Hco) as [Hoa Hob].
  pose proof (secrets_agree pa pb Hco) as Hsec.
  destruct (alice_initialize_ok sa pa wa Ha Hoa) as (kp & s1 & Ea & _ & Hkp & Eadd).
  rewrite Ea, (bob_initialize_ok sb pb wb Hb Hob). do 2 eexists. split; [done|]. split; [done|].
  destruct (find_after_add (U := U) (set_identities (alice_their_identity_key pa)
    (identity_public (alice_our_identity_key pa)) sa) (alice_their_ratchet_key pa)
    (snd (derive (alice_secret pa))) wa) as (s1' & Eadd' & Hs1 & Hfind); [by destruct sa|done|].
  rewrite Eadd in Eadd'. inversion Eadd'; subst s1'. clear Eadd Eadd'.
  assert (st_local_identity_public s1 = Some (identity_public (alice_our_identity_key pa)) /\
    st_remote_identity_public s1 = Some (alice_their_identity_key pa)) as [Hl Hr].
  { rewrite Hs1. by destruct sa. }
  split.
  - unfold session_state_get_receiver_chain_key, session_state_find_receiver_chain.
    rewrite <- (co_their_ratchet pa pb Hco), <- Hsec. clear -Hfind.
    destruct s1, sb; simpl in *. by rewrite Hfind.
  - exists kp. clear Hs1 Hfind Hl Hr. destruct s1, sb; simpl. do 3 eexists.
    do 5 (split; [done|]). intros w Hw. rewrite <- Hsec.
    rewrite create_chain_ok; [|done|done|apply Hkp|apply (co_bob_ratchet pa pb Hco)].
    rewrite (co_their_ratchet pa pb Hco).
    rewrite (agree_comm kp (bob_our_ratchet_key pb) Hkp (co_bob_ratchet pa pb Hco)). done.
  - clear Hs1 Hfind. destruct s1, sb; simpl in *.
    rewrite Hl, Hr, (co_their_identity pa pb Hco), (co_alice_their pa pb Hco). done.
Qed.
End Agreement.

(** ** Symmetric initialization *)

Record mirrored `{Curve25519} (p1 p2 : symmetric_signal_protocol_parameters) : Prop := {
  mi_identity : key_pair_matches (as_pair (sym_our_identity_key p1));
  mi_base : key_pair_matches (sym_our_base_key p1);
  mi_ratchet : key_pair_matches (sym_our_ratchet_key p1);
  mi_their_identity : sym_their_identity_key p2 = identity_public (sym_our_identity_key p1);
  mi_their_base : sym_their_base_key p2 = ec_key_pair_get_public (sym_our_base_key p1);
  mi_their_ratchet : sym_their_ratchet_key p2 = ec_key_pair_get_public (sym_our_ratchet_key p1)
}.

Section Symmetric.
Context {U : Type} `{CL : CryptoLaws} `{VL : CurveLaws}.

(** With different base keys exactly one side takes Alice's part. *)
Lemma symmetric_roles p1 p2 : mirrored p1 p2 -> mirrored p2 p1 ->
  ec_key_pair_get_public (sym_our_base_key p1) <> ec_key_pair_get_public (sym_our_base_key p2) ->
  ratcheting_session_symmetric_is_alice p2 = negb (ratcheting_session_symmetric_is_alice p1).
Proof.
  intros H1 H2 Hne. unfold ratcheting_session_symmetric_is_alice.
  rewrite (mi_their_base p1 p2 H1), (mi_their_base p2 p1 H2).
  rewrite ec_public_key_memcmp_antisym.
  set (k1 := ec_key_pair_get_public (sym_our_base_key p1)) in *.
  set (k2 := ec_key_pair_get_public (sym_our_base_key p2)) in *.
  assert (ec_public_key_memcmp (Some k1) (Some k2) <> 0) as Hz.
  { simpl. destruct (mi_base p1 p2 H1) as (_ & W1 & _), (mi_base p2 p1 H2) as (_ & W2 & _).
    fold k1 in W1. fold k2 in W2. unfold wf_public in *. rewrite !take_ge by lia.
    rewrite memcmp_0 by lia. destruct k1, k2; simpl in *. congruence. }
  destruct (Z.ltb_spec (- ec_public_key_memcmp (Some k1) (Some k2)) 0),
    (Z.ltb_spec (ec_public_key_memcmp (Some k1) (Some k2)) 0); simpl; try done; lia.
Qed.

Lemma symmetric_handshake_alice p1 p2 s1 s2 (w1 w2 : world U) :
  mem_ok w1 -> mem_ok w2 -> mirrored p1 p2 -> mirrored p2 p1 ->
  ratcheting_session_symmetric_is_alice p1 = true ->
  ratcheting_session_symmetric_is_alice p2 = false ->
  find_chain (sym_their_ratchet_key p1) (st_receiver_chains s1) = None ->
  exists s1' s2',
    ratcheting_session_symmetric_initialize s1 p1 w1 = (Ok s1', rng_step w1) /\
    ratcheting_session_symmetric_initialize s2 p2 w2 = (Ok s2', w2) /\
    in_step (U := U) s1' s2' (sym_our_ratchet_key p2).
Proof.
  intros Hm1 Hm2 H1 H2 E1 E2 Hf. unfold ratcheting_session_symmetric_initialize. rewrite E1, E2.
  erewrite bind_ok by (simpl; by erewrite bind_ok by by apply malloc_ok).
  erewrite (bind_ok _ _ w2) by (simpl; by erewrite bind_ok by by apply malloc_ok).
  destruct (handshake (AliceParameters (sym_our_identity_key p1) (sym_our_base_key p1)
    (sym_their_identity_key p1) (sym_their_base_key p1) None (sym_their_ratchet_key p1))
    (BobParameters (sym_our_identity_key p2) (sym_our_base_key p2) None (sym_our_ratchet_key p2)
    (sym_their_identity_key p2) (sym_their_base_key p2)) s1 s2 w1 w2 Hm1 Hm2)
    as (s1' & s2' & R1 & R2 & Hin); [|done|by exists s1', s2'].
  destruct H1 as [A1 A2 A3 A4 A5 A6], H2 as [B1 B2 B3 B4 B5 B6]. by split.
Qed.
End Symmetric.

(** ** The initialized states can be stored *)

Section Storable.
Context `{CL : CryptoLaws} `{VL : CurveLaws}.

Lemma derive_ok secret : root_ok 3 (fst (derive secret)) /\ chain_ok 3 (snd (derive secret)).
Proof.
  pose proof (length_hkdf 1 secret zero_salt text_info 64) as Hl. unfold derive.
  split; [split|split]; cbn [fst snd root_kdf root_key chain_kdf chain_key chain_index];
    try done; rewrite length_take, ?length_drop, Hl; done.
Qed.

Lemma root_step_ok rk shared : root_ok 3 rk ->
  root_ok 3 (fst (Ratchet.root_step rk shared)) /\ chain_ok 3 (snd (Ratchet.root_step rk shared)).
Proof.
  intros [Hk _]. destruct (length_root_step rk shared) as [H1 H2].
  split; [by split|]. split; [done|done|]. by unfold is_u32, UINT32_MOD; simpl.
Qed.

(** Setting the version, the identities, the sender chain and the root key. *)
Lemma storable_established s remote local kp ck rk : storable s ->
  Forall (receiver_ok 3) (st_receiver_chains s) -> wf_public remote -> wf_public local ->
  pair_ok kp -> chain_ok 3 ck -> root_ok 3 rk ->
  storable (session_state_set_root_key rk (session_state_set_sender_chain kp ck
    (set_identities remote local s))).
Proof.
  intros Hs Hr H1 H2 Hkp Hck Hrk. pose proof (so_sender s Hs) as Hsc.
  destruct Hs as [V L R Ro P S Rc B E Pk Ri Li Nr A].
  destruct s as [v a b c d hs sc rcs hpe pe hpp pp ri li nr ab]; simpl in *.
  split; simpl; try done; [by right| |].
  - split; [done|done|]. destruct hs; [apply Hsc|by rewrite Hsc].
  - by destruct B; split.
Qed.

Lemma receiver_ok_new v k ck : wf_public k -> chain_ok v ck ->
  receiver_ok v (ReceiverChain (Some k) (Some ck) []).
Proof. by split. Qed.

Lemma storable_bob s p : storable s -> Forall (receiver_ok 3) (st_receiver_chains s) -> bob_ok p ->
  forall {U} (w : world U) s' w',
  ratcheting_session_bob_initialize s p w = (Ok s', w') -> mem_ok w -> storable s'.
Proof.
  intros Hs Hr Hp U w s' w' E Hm. rewrite bob_initialize_ok in E by done. inversion E; subst.
  destruct (derive_ok (bob_secret p)). apply storable_established; try done; try apply Hp.
Qed.

Lemma storable_alice s p : storable s -> Forall (receiver_ok 3) (st_receiver_chains s) -> alice_ok p ->
  forall {U} (w : world U) s' w',
  ratcheting_session_alice_initialize s p w = (Ok s', w') -> mem_ok w -> storable s'.
Proof.
  intros Hs Hr Hp U w s' w' E Hm.
  destruct (alice_initialize_ok s p w Hm Hp) as (kp & s1 & Ea & _ & Hkp & Eadd).
  rewrite Ea in E. inversion E; subst. clear Ea E.
  destruct (derive_ok (alice_secret p)) as [Hd1 Hd2].
  destruct (root_step_ok (fst (derive (alice_secret p)))
    (agree (ec_key_pair_get_private kp) (alice_their_ratchet_key p)) Hd1).
  pose proof (bounded_add_receiver_chain (U := U) (set_identities (alice_their_identity_key p)
    (identity_public (alice_our_identity_key p)) s) (alice_their_ratchet_key p)
    (snd (derive (alice_secret p)))) as Hb.
  assert (bounded s1) as Hb1.
  { eapply Hb; [|exact Eadd]. eapply bounded_same_chains; [|apply (so_bounded s Hs)]. by destruct s. }
  unfold session_state_add_receiver_chain in Eadd. minv Eadd. inversion Eadd; subst. clear Eadd Hb.
  set (rcs := trim _ _) in *.
  assert (Forall (receiver_ok 3) rcs) as Hrcs.
  { apply Forall_trim, Forall_app. split; [by destruct s|].
    apply Forall_singleton. apply receiver_ok_new; [apply Hp|done]. }
  assert (storable (session_state_set_root_key (fst (derive (alice_secret p)))
    (session_state_set_sender_chain kp (snd (derive (alice_secret p)))
    (set_identities (alice_their_identity_key p) (identity_public (alice_our_identity_key p)) s)))) as Hst.
  { apply storable_established; try done; try apply Hp. by apply matches_ok. }
  clear H1. destruct Hst as [V L R Ro P S Rc B E Pk Ri Li Nr A]. pose proof (matches_ok kp Hkp).
  pose proof (so_sender s Hs) as Hsc.
  destruct s as [v a' b c d hs sc rcs0 hpe pe hpp pp ri li nr ab]; simpl in *.
  split; simpl; try done.
  - split; [done|done|]. apply S.
  - by destruct Hb1; split.
Qed.
End Storable.
