(* ===== verification/SessionRecord.v ===== *)
(** session_record.c: the current state of a session and its archived
    predecessors, the most recent first.  [rec_state] is never null: every
    constructor of a record sets it and no operation clears it for good. *)
From stdpp Require Import base list.
From Stdlib Require Import ZArith Lia.
From S2P Require Import Prelude Buffers Hkdf Curve Protobuf Messages Ratchet SessionState SessionStorage.
#[local] Open Scope Z_scope.
#[local] Open Scope signal_scope.

Definition ARCHIVED_STATES_MAX_LENGTH : nat := 40.

Record session_record : Type := SessionRecord {
  rec_state : session_state;
  rec_previous_states : list session_state;
  rec_is_fresh : bool
}.

Definition session_record_set_state (r : session_record) (s : session_state) : session_record :=
  SessionRecord s (rec_previous_states r) (rec_is_fresh r).

(** Unlink and free the [i]th archived node. *)
Definition session_record_get_previous_states_remove (r : session_record) (i : nat) : session_record :=
  SessionRecord (rec_state r) (delete i (rec_previous_states r)) (rec_is_fresh r).

Definition state_is (version : Z) (alice_base_key : option ec_public_key) (s : session_state) : bool :=
  (st_session_version s =? version) &&
  (ec_public_key_compare (st_alice_base_key s) alice_base_key =? 0).

Definition session_record_has_session_state (r : session_record) (version : Z)
    (alice_base_key : option ec_public_key) : bool :=
  state_is version alice_base_key (rec_state r) ||
  existsb (state_is version alice_base_key) (rec_previous_states r).

Section Record.
Context {U : Type}.

Definition session_record_create (state : option session_state) : M U session_record :=
  malloc ;;;
  match state with
  | None => let* s := session_state_create in ret (SessionRecord s [] true)
  | Some s => ret (SessionRecord s [] false)
  end.

Definition session_record_serialize (r : session_record) : M U bytes :=
  malloc ;;;
  let* current := session_state_serialize_prepare (rec_state r) in
  let* previous :=
    match rec_previous_states r with
    | [] => ret []
    | l => malloc ;;; mapM (fun s => malloc ;;; session_state_serialize_prepare s) l
    end in
  proto_pack (RecordStructure_ (Some current) previous).

Definition session_record_deserialize (data : bytes) : M U session_record :=
  let* record_structure := proto_unpack (A := RecordStructure) data in
  let* current_state := opt_mapM session_state_deserialize_protobuf (rs_currentsession record_structure) in
  let* r := session_record_create current_state in
  let* previous := mapM (fun ss => malloc ;;; session_state_deserialize_protobuf ss)
    (rs_previoussessions record_structure) in
  ret (SessionRecord (rec_state r) previous false).

Definition session_record_copy (other_record : session_record) : M U session_record :=
  let* buffer := session_record_serialize other_record in
  session_record_deserialize buffer.

Definition session_record_promote_state (r : session_record) (promoted_state : session_state)
    : M U session_record :=
  malloc ;;;
  ret (SessionRecord promoted_state
    (take ARCHIVED_STATES_MAX_LENGTH (rec_state r :: rec_previous_states r)) (rec_is_fresh r)).

Definition session_record_archive_current_state (r : session_record) : M U session_record :=
  let* new_state := session_state_create in
  session_record_promote_state r new_state.
End Record.

(** * Invariant and storage *)

Record record_ok (r : session_record) : Prop := {
  record_ok_state : storable (rec_state r);
  record_ok_previous : Forall storable (rec_previous_states r);
  record_ok_length : (length (rec_previous_states r) <= ARCHIVED_STATES_MAX_LENGTH)%nat
}.

(** The stored form of a record. *)
Definition record_structure (r : session_record) : RecordStructure :=
  RecordStructure_ (Some (structure_of (rec_state r))) (map structure_of (rec_previous_states r)).
Definition record_bytes (r : session_record) : bytes := packed (record_structure r).

(** A record as it comes back from a store. *)
Definition stored (r : session_record) : session_record :=
  SessionRecord (rec_state r) (rec_previous_states r) false.

Lemma record_structure_wf r : record_ok r -> proto_wf (record_structure r).
Proof.
  intros [H1 H2 H3]. split.
  - pose proof (typed_structure _ H1) as T1.
    assert (Forall proto_typed (map structure_of (rec_previous_states r))) as T2.
    { apply Forall_map. eapply Forall_impl; [exact H2|]. apply typed_structure. }
    proto_typed_solve.
  - eapply wf_size_ub; [apply packed_ub|].
    cbn [to_slots RecordStructure_proto record_structure rs_currentsession rs_previoussessions].
    rewrite !slots_ub_cons, slots_ub_nil.
    assert (slot_ub (msg_slot (Some (structure_of (rec_state r)))) <= 10 + 1800000).
    { apply msg_slot_ub; [lia|]. by apply structure_ub. }
    assert (slot_ub (rep_slot (map structure_of (rec_previous_states r))) <= (10 + 1800000) * Z.of_nat 40).
    { apply rep_slot_ub; [lia|by rewrite length_map|]. apply Forall_map.
      eapply Forall_impl; [exact H2|]. apply structure_ub. }
    lia.
Qed.

Section Run.
Context {U : Type}.
Implicit Types w : world U.

Lemma session_record_serialize_ok r w : mem_ok w -> record_ok r ->
  session_record_serialize r w = (Ok (record_bytes r), w).
Proof.
  intros Hm Hr. unfold session_record_serialize. erewrite bind_ok by by apply malloc_ok.
  erewrite bind_ok by by apply prepare_ok.
  erewrite bind_ok; [apply (proto_pack_ok (record_structure r)); [done|by apply record_structure_wf]|].
  destruct (rec_previous_states r) as [|s l] eqn:E; [done|]. rewrite <- E.
  erewrite bind_ok by by apply malloc_ok. apply mapM_ok. intros s' _.
  erewrite bind_ok by by apply malloc_ok. by apply prepare_ok.
Qed.

Lemma session_record_deserialize_ok r w : mem_ok w -> record_ok r ->
  session_record_deserialize (record_bytes r) w = (Ok (stored r), w).
Proof.
  intros Hm Hr. pose proof Hr as [H1 H2 H3]. unfold session_record_deserialize, record_bytes.
  erewrite bind_ok by (apply proto_unpack_pack; [done|by apply record_structure_wf]).
  erewrite bind_ok; cycle 1.
  { simpl. erewrite bind_ok by by apply deserialize_structure_ok. reflexivity. }
  erewrite bind_ok; cycle 1.
  { unfold session_record_create. by erewrite bind_ok by by apply malloc_ok. }
  erewrite bind_ok; cycle 1.
  { apply (mapM_map_id _ structure_of). intros s Hs. erewrite bind_ok by by apply malloc_ok.
    apply deserialize_structure_ok; [done|]. rewrite Forall_forall in H2. by apply H2. }
  done.
Qed.

Lemma promote_state_ok r s w : mem_ok w ->
  session_record_promote_state r s w = (Ok (SessionRecord s
    (take ARCHIVED_STATES_MAX_LENGTH (rec_state r :: rec_previous_states r)) (rec_is_fresh r)), w).
Proof. intros Hm. unfold session_record_promote_state. by erewrite bind_ok by by apply malloc_ok. Qed.

Lemma archive_ok r w : mem_ok w ->
  session_record_archive_current_state r w = (Ok (SessionRecord session_state_init
    (take ARCHIVED_STATES_MAX_LENGTH (rec_state r :: rec_previous_states r)) (rec_is_fresh r)), w).
Proof.
  intros Hm. unfold session_record_archive_current_state, session_state_create.
  erewrite bind_ok by (by erewrite bind_ok by by apply malloc_ok). by apply promote_state_ok.
Qed.

Lemma record_ok_promote r s : record_ok r -> storable s ->
  post (session_record_promote_state (U := U) r s) record_ok.
Proof.
  intros [H1 H2 H3] Hs. unfold session_record_promote_state. post_solve.
  split; cbn [rec_state rec_previous_states]; [done| |].
  - apply Forall_take. by constructor.
  - rewrite length_take. lia.
Qed.

Lemma record_ok_create w r w' : session_record_create (U := U) None w = (Ok r, w') -> record_ok r.
Proof.
  unfold session_record_create, session_state_create. intros H. minv H. minv H. minv H1.
  inversion H1; subst. inversion H; subst. split; simpl; [apply storable_init|done|lia].
Qed.

Lemma frame_session_state_create : frame (@session_state_create U).
Proof. unfold session_state_create. frame_solve. Qed.
Lemma frame_opt_mapM {A B} (f : A -> M U B) o : (forall a, frame (f a)) -> frame (opt_mapM f o).
Proof. intros. unfold opt_mapM. frame_solve. Qed.

Lemma frame_prepare s : frame (session_state_serialize_prepare (U := U) s).
Proof.
  unfold session_state_serialize_prepare, prepare_if, session_state_serialize_prepare_sender_chain,
    session_state_serialize_prepare_receiver_chain, session_state_serialize_prepare_pending_key_exchange,
    session_state_serialize_prepare_pending_pre_key, prepare_message_keys,
    session_state_serialize_prepare_chain_message_keys_list, session_state_serialize_prepare_message_keys,
    ratchet_root_key_get_key_protobuf.
  frame_solve; try (apply frame_opt_mapM; intros;
    unfold session_state_serialize_prepare_chain_chain_key, ratchet_chain_key_get_key_protobuf; frame_solve).
Qed.

Lemma frame_deserialize_protobuf ss : frame (session_state_deserialize_protobuf (U := U) ss).
Proof.
  unfold session_state_deserialize_protobuf, session_state_create, decode_root_key, decode_sender_chain,
    session_state_deserialize_protobuf_sender_chain, session_state_deserialize_protobuf_receiver_chain,
    decode_message_key, decode_chain_key, chain_kdf_create, decode_key_pair.
  frame_solve; apply frame_opt_mapM; intros;
    unfold session_state_deserialize_protobuf_pending_key_exchange, decode_key_pair,
      session_state_deserialize_protobuf_pending_pre_key; frame_solve; apply frame_opt_mapM; frame_solve.
Qed.

Lemma frame_record_serialize r : frame (session_record_serialize (U := U) r).
Proof. unfold session_record_serialize. frame_solve; apply frame_prepare. Qed.
Lemma frame_record_deserialize d : frame (session_record_deserialize (U := U) d).
Proof.
  unfold session_record_deserialize, session_record_create. frame_solve;
    first [apply frame_opt_mapM; intros; apply frame_deserialize_protobuf
          |apply frame_deserialize_protobuf|apply frame_session_state_create].
Qed.
Lemma frame_promote r s : frame (session_record_promote_state (U := U) r s).
Proof. unfold session_record_promote_state. frame_solve. Qed.
Lemma frame_archive r : frame (session_record_archive_current_state (U := U) r).
Proof.
  unfold session_record_archive_current_state. frame_solve;
    [apply frame_session_state_create|apply frame_promote].
Qed.
Lemma frame_record_create o : frame (session_record_create (U := U) o).
Proof. unfold session_record_create. frame_solve; apply frame_session_state_create. Qed.
Lemma frame_state_copy s : frame (session_state_copy (U := U) s).
Proof.
  unfold session_state_copy, session_state_serialize, session_state_deserialize. frame_solve;
    [apply frame_prepare|apply frame_deserialize_protobuf].
Qed.
End Run.
#[export] Hint Resolve frame_record_serialize frame_record_deserialize frame_promote frame_archive
  frame_record_create frame_state_copy : frame_db.
