(* ===== verification/SenderKeys.v ===== *)
(** sender_key.c, sender_key_state.c and sender_key_record.c: the chains of
    group messages.  A sender's chain key gives the message keys of one
    iteration after another; a state is such a chain with the key that signs
    its messages and the keys of skipped iterations, a record the last five
    states of a sender, the most recent first. *)
From Stdlib Require Import String.
From stdpp Require Import base list.
From Stdlib Require Import ZArith Lia.
From S2P Require Import Prelude Buffers Hkdf Curve Protobuf Messages Ratchet SessionState SessionStorage.
#[local] Open Scope Z_scope.
#[local] Open Scope signal_scope.

Record sender_message_key : Type := SenderMessageKey {
  msg_iteration : Z;
  msg_iv : bytes;
  msg_cipher_key : bytes;
  msg_seed : bytes
}.

Record sender_chain_key : Type := SenderChainKey {
  chn_iteration : Z;
  chn_chain_key : bytes
}.

(** The pointers to the chain key and to the public key are never null: see
    [sender_key_state_create]. *)
Record sender_key_state : Type := SenderKeyState {
  sst_key_id : Z;
  sst_chain_key : sender_chain_key;
  sst_signature_public_key : ec_public_key;
  sst_signature_private_key : option ec_private_key;
  sst_message_keys : list sender_message_key
}.

Record sender_key_record : Type := SenderKeyRecord {
  srec_states : list sender_key_state
}.

Definition MAX_STATES : nat := 5.
Definition group_info : bytes := Eval vm_compute in ascii_bytes "WhisperGroup"%string.

(** * Keys *)

Section Keys.
Context {U : Type} `{CP : CryptoProvider}.

(** [sender_message_key_create] does not clear the structure it allocates;
    when it fails before all three pointers are set, the destructor frees
    pointers that were never set. *)
Definition uninit {A} (m : M U A) : M U A :=
  let* r := attempt m in
  match r with
  | inl a => ret a
  | inr _ => crash Uninitialized
  end.

Definition sender_message_key_create (iteration : Z) (seed : option bytes) : M U sender_message_key :=
  match seed with
  | None => fail SG_ERR_INVAL
  | Some seed =>
      malloc ;;;
      let* derivative := uninit (
        let* kdf := hkdf_create 3 in
        let* d := hkdf_derive_secrets kdf seed zero_salt (Some group_info) 48 in
        match d with
        | Some d => if (length d =? 48)%nat then ret d else fail SG_ERR_UNKNOWN
        | None => fail SG_ERR_UNKNOWN
        end) in
      let* seed := uninit (or_nomem (signal_buffer_copy seed)) in
      let* iv := uninit (or_nomem (signal_buffer_create (take 16 derivative))) in
      let* cipher_key := or_nomem (signal_buffer_create (take 32 (drop 16 derivative))) in
      ret (SenderMessageKey iteration iv cipher_key seed)
  end.

Definition sender_chain_key_create (iteration : Z) (chain_key : option bytes) : M U sender_chain_key :=
  match chain_key with
  | None => fail SG_ERR_INVAL
  | Some chain_key =>
      malloc ;;;
      let* chain_key := or_nomem (signal_buffer_copy chain_key) in
      ret (SenderChainKey iteration chain_key)
  end.

Definition sender_chain_key_get_derivative (seed : Z) (key : bytes) : M U bytes :=
  let* hmac_context := signal_hmac_sha256_init key in
  let* hmac_context := signal_hmac_sha256_update hmac_context [seed] in
  signal_hmac_sha256_final hmac_context.

Definition sender_chain_key_create_message_key (key : sender_chain_key) : M U sender_message_key :=
  let* derivative := sender_chain_key_get_derivative 1 (chn_chain_key key) in
  sender_message_key_create (chn_iteration key) (Some derivative).

Definition sender_chain_key_create_next (key : sender_chain_key) : M U sender_chain_key :=
  let* derivative := sender_chain_key_get_derivative 2 (chn_chain_key key) in
  sender_chain_key_create (u32 (chn_iteration key + 1)) (Some derivative).

(** * States *)

Definition sender_key_state_create (id : Z) (chain_key : option sender_chain_key)
    (signature_public_key : option ec_public_key) (signature_private_key : option ec_private_key)
    : M U sender_key_state :=
  match chain_key, signature_public_key with
  | Some ck, Some pk => malloc ;;; ret (SenderKeyState id ck pk signature_private_key [])
  | _, _ => fail SG_ERR_INVAL
  end.

Definition sender_key_state_set_chain_key (ck : sender_chain_key) (s : sender_key_state) : sender_key_state :=
  SenderKeyState (sst_key_id s) ck (sst_signature_public_key s) (sst_signature_private_key s)
    (sst_message_keys s).
Definition set_sender_message_keys (l : list sender_message_key) (s : sender_key_state) : sender_key_state :=
  SenderKeyState (sst_key_id s) (sst_chain_key s) (sst_signature_public_key s)
    (sst_signature_private_key s) l.

Definition sender_key_state_has_sender_message_key (s : sender_key_state) (iteration : Z) : bool :=
  existsb (fun k => msg_iteration k =? iteration) (sst_message_keys s).

(** [while(count > MAX_MESSAGE_KEYS)]: the oldest keys make room. *)
Definition sender_key_state_add_sender_message_key (s : sender_key_state) (k : sender_message_key)
    : M U sender_key_state :=
  malloc ;;; ret (set_sender_message_keys (trim MAX_MESSAGE_KEYS (sst_message_keys s ++ [k])) s).

(** The first key with the iteration, and the list without it. *)
Fixpoint take_sender_key (iteration : Z) (l : list sender_message_key)
    : option (sender_message_key * list sender_message_key) :=
  match l with
  | [] => None
  | k :: l' =>
      if msg_iteration k =? iteration then Some (k, l')
      else match take_sender_key iteration l' with
           | Some (k', r) => Some (k', k :: r)
           | None => None
           end
  end.

Definition sender_key_state_remove_sender_message_key (s : sender_key_state) (iteration : Z)
    : option sender_message_key * sender_key_state :=
  match take_sender_key iteration (sst_message_keys s) with
  | Some (k, l) => (Some k, set_sender_message_keys l s)
  | None => (None, s)
  end.

Definition sender_key_state_serialize_prepare (s : sender_key_state) : M U SenderKeyStateStructure :=
  malloc ;;;
  malloc ;;;
  let* public := ec_public_key_serialize_protobuf (sst_signature_public_key s) in
  let* private := opt_mapM ec_private_key_serialize_protobuf (sst_signature_private_key s) in
  let* keys :=
    match sst_message_keys s with
    | [] => ret []
    | l =>
        malloc ;;;
        mapM (fun k => malloc ;;;
          ret (SenderMessageKeyStructure_ (Some (msg_iteration k)) (Some (msg_seed k)))) l
    end in
  ret (SenderKeyStateStructure_ (Some (sst_key_id s))
    (Some (SenderChainKeyStructure_ (Some (chn_iteration (sst_chain_key s)))
      (Some (chn_chain_key (sst_chain_key s)))))
    (Some (SenderSigningKeyStructure_ (Some public) private)) keys).

Definition sender_key_state_serialize (s : sender_key_state) : M U bytes :=
  malloc ;;;
  let* state_structure := sender_key_state_serialize_prepare s in
  proto_pack state_structure.

(** Keys without an iteration or a seed are skipped. *)
Definition read_sender_message_key (s : sender_key_state) (k : SenderMessageKeyStructure)
    : M U sender_key_state :=
  match k with
  | SenderMessageKeyStructure_ (Some iteration) (Some seed) =>
      let* seed_buffer := or_nomem (signal_buffer_create seed) in
      let* message_key := sender_message_key_create iteration (Some seed_buffer) in
      sender_key_state_add_sender_message_key s message_key
  | _ => ret s
  end.

Definition sender_key_state_deserialize_protobuf (st : SenderKeyStateStructure) : M U sender_key_state :=
  let* chain_key :=
    match sks_senderchainkey st with
    | Some (SenderChainKeyStructure_ (Some iteration) (Some seed)) =>
        let* seed_buffer := or_nomem (signal_buffer_create seed) in
        let* ck := sender_chain_key_create iteration (Some seed_buffer) in
        ret (Some ck)
    | _ => ret None
    end in
  let* '(public, private) :=
    match sks_sendersigningkey st with
    | Some k =>
        let* public := opt_mapM curve_decode_point (ssk_public k) in
        let* private := opt_mapM curve_decode_private_point (ssk_private k) in
        ret (public, private)
    | None => ret (None, None)
    end in
  match sks_senderkeyid st, chain_key, public with
  | Some id, Some ck, Some pk =>
      let* s := sender_key_state_create id (Some ck) (Some pk) private in
      foldM read_sender_message_key (sks_sendermessagekeys st) s
  | _, _, _ => fail SG_ERR_INVALID_PROTO_BUF
  end.

Definition sender_key_state_deserialize (data : bytes) : M U sender_key_state :=
  let* st := proto_unpack (A := SenderKeyStateStructure) data in
  sender_key_state_deserialize_protobuf st.

Definition sender_key_state_copy (other_state : sender_key_state) : M U sender_key_state :=
  let* buffer := sender_key_state_serialize other_state in
  sender_key_state_deserialize buffer.

(** * Records *)

Definition sender_key_record_create : M U sender_key_record := malloc ;;; ret (SenderKeyRecord []).

Definition sender_key_record_serialize (r : sender_key_record) : M U bytes :=
  let* states :=
    match srec_states r with
    | [] => ret []
    | l => malloc ;;; mapM (fun s => malloc ;;; sender_key_state_serialize_prepare s) l
    end in
  proto_pack (SenderKeyRecordStructure_ states).

Definition sender_key_record_deserialize (data : bytes) : M U sender_key_record :=
  let* record_structure := proto_unpack (A := SenderKeyRecordStructure) data in
  let* _ := sender_key_record_create in
  let* states := mapM (fun st =>
      let* s := sender_key_state_deserialize_protobuf st in malloc ;;; ret s)
    (skr_senderkeystates record_structure) in
  ret (SenderKeyRecord states).

Definition sender_key_record_copy (other_record : sender_key_record) : M U sender_key_record :=
  let* buffer := sender_key_record_serialize other_record in
  sender_key_record_deserialize buffer.

Definition sender_key_record_is_empty (r : sender_key_record) : bool :=
  match srec_states r with [] => true | _ => false end.

Definition sender_key_record_get_sender_key_state (r : sender_key_record) : M U sender_key_state :=
  match srec_states r with
  | s :: _ => ret s
  | [] => fail SG_ERR_INVALID_KEY_ID
  end.

(** The first state with the identifier. *)
Definition sender_key_record_get_sender_key_state_by_id (r : sender_key_record) (key_id : Z)
    : M U sender_key_state :=
  match List.find (fun s => sst_key_id s =? key_id) (srec_states r) with
  | Some s => ret s
  | None => fail SG_ERR_INVALID_KEY_ID
  end.

Definition sender_key_record_add_sender_key_state_impl (r : sender_key_record) (id iteration : Z)
    (chain_key : option bytes) (signature_public_key : option ec_public_key)
    (signature_private_key : option ec_private_key) : M U sender_key_record :=
  let* chain_key_element := sender_chain_key_create iteration chain_key in
  let* state := sender_key_state_create id (Some chain_key_element) signature_public_key
    signature_private_key in
  malloc ;;;
  ret (SenderKeyRecord (take MAX_STATES (state :: srec_states r))).

Definition sender_key_record_add_sender_key_state (r : sender_key_record) (id iteration : Z)
    (chain_key : option bytes) (signature_key : option ec_public_key) : M U sender_key_record :=
  sender_key_record_add_sender_key_state_impl r id iteration chain_key signature_key None.

Definition sender_key_record_set_sender_key_state (r : sender_key_record) (id iteration : Z)
    (chain_key : option bytes) (signature_key_pair : ec_key_pair) : M U sender_key_record :=
  sender_key_record_add_sender_key_state_impl (SenderKeyRecord []) id iteration chain_key
    (Some (ec_key_pair_get_public signature_key_pair)) (Some (ec_key_pair_get_private signature_key_pair)).
End Keys.

(** Mutation of the state that [sender_key_record_get_sender_key_state_by_id]
    returns a pointer to. *)
Fixpoint update_sender_state (key_id : Z) (s : sender_key_state) (l : list sender_key_state)
    : list sender_key_state :=
  match l with
  | [] => []
  | s' :: l' => if sst_key_id s' =? key_id then s :: l' else s' :: update_sender_state key_id s l'
  end.

(** * The derivations *)

Module SenderKey.
Section Spec.
Context `{CL : CryptoLaws}.

(** The message key of an iteration, from its seed. *)
Definition message_key_of (iteration : Z) (seed : bytes) : sender_message_key :=
  let d := Spec.hkdf 1 seed zero_salt group_info 48 in
  SenderMessageKey iteration (take 16 d) (take 32 (drop 16 d)) seed.

Definition message_key (ck : sender_chain_key) : sender_message_key :=
  message_key_of (chn_iteration ck) (hmac_spec (chn_chain_key ck) [1]).

Definition next_chain (ck : sender_chain_key) : sender_chain_key :=
  SenderChainKey (u32 (chn_iteration ck + 1)) (hmac_spec (chn_chain_key ck) [2]).

Definition nth_chain (n : nat) (ck : sender_chain_key) : sender_chain_key := Nat.iter n next_chain ck.
End Spec.
End SenderKey.

(** * The invariant *)

Record sender_chain_ok (ck : sender_chain_key) : Prop := {
  sc_ok_iteration : is_u32 (chn_iteration ck);
  sc_ok_length : length (chn_chain_key ck) = 32%nat
}.

(** A stored key is the one its seed gives. *)
Record message_key_ok `{CL : CryptoLaws} (k : sender_message_key) : Prop := {
  mk_ok_iteration : is_u32 (msg_iteration k);
  mk_ok_length : length (msg_seed k) = 32%nat;
  mk_ok_derived : k = SenderKey.message_key_of (msg_iteration k) (msg_seed k)
}.

Record sender_state_ok `{CL : CryptoLaws} (s : sender_key_state) : Prop := {
  ss_ok_id : is_u32 (sst_key_id s);
  ss_ok_chain : sender_chain_ok (sst_chain_key s);
  ss_ok_public : wf_public (sst_signature_public_key s);
  ss_ok_private : opt_all wf_private (sst_signature_private_key s);
  ss_ok_keys : Forall message_key_ok (sst_message_keys s);
  ss_ok_bound : (length (sst_message_keys s) <= MAX_MESSAGE_KEYS)%nat
}.

Record sender_record_ok `{CL : CryptoLaws} (r : sender_key_record) : Prop := {
  sr_ok_states : Forall sender_state_ok (srec_states r);
  sr_ok_bound : (length (srec_states r) <= MAX_STATES)%nat
}.

(** The stored form. *)
Definition sender_key_structure (k : sender_message_key) : SenderMessageKeyStructure :=
  SenderMessageKeyStructure_ (Some (msg_iteration k)) (Some (msg_seed k)).
Definition sender_state_structure (s : sender_key_state) : SenderKeyStateStructure :=
  SenderKeyStateStructure_ (Some (sst_key_id s))
    (Some (SenderChainKeyStructure_ (Some (chn_iteration (sst_chain_key s)))
      (Some (chn_chain_key (sst_chain_key s)))))
    (Some (SenderSigningKeyStructure_ (Some (ec_public_key_bytes (sst_signature_public_key s)))
      (key_bytes <$> sst_signature_private_key s)))
    (map sender_key_structure (sst_message_keys s)).
Definition sender_record_structure (r : sender_key_record) : SenderKeyRecordStructure :=
  SenderKeyRecordStructure_ (map sender_state_structure (srec_states r)).
Definition sender_record_bytes (r : sender_key_record) : bytes := packed (sender_record_structure r).

(** * Lemmas *)

Section Run.
Context {U : Type} `{CL : CryptoLaws}.
Implicit Types w : world U.

Lemma uninit_ok {A} (m : M U A) w a w' : m w = (Ok a, w') -> uninit m w = (Ok a, w').
Proof. intros E. unfold uninit. rewrite (bind_ok _ _ w (inl a) w'); [reflexivity|]. unfold attempt. by rewrite E. Qed.

Lemma derivative_ok seed key w :
  sender_chain_key_get_derivative seed key w = (Ok (hmac_spec key [seed]), w).
Proof.
  unfold sender_chain_key_get_derivative.
  destruct (hmac_init_run key w) as (c & E & R). erewrite bind_ok by exact E.
  destruct (hmac_update_run c _ [] [seed] w R) as (c' & E' & R'). erewrite bind_ok by exact E'.
  by apply (hmac_final_run _ _ _ _ R').
Qed.

Lemma buffer_ok (b : bytes) w : mem_ok w -> blen b <= 4000000000 ->
  or_nomem (signal_buffer_create b) w = (Ok b, w).
Proof.
  intros Hm Hb.
  apply signal_buffer_create_ok; [done|]. unfold fits, SIZE_MAX, SIGNAL_BUFFER_HEADER. lia.
Qed.

Lemma sender_message_key_create_ok i seed w : mem_ok w -> length seed = 32%nat ->
  sender_message_key_create i (Some seed) w = (Ok (SenderKey.message_key_of i seed), w).
Proof.
  intros Hm Hs. unfold sender_message_key_create. erewrite bind_ok by by apply malloc_ok.
  set (d := Spec.hkdf 1 seed zero_salt group_info 48).
  assert (length d = 48%nat) as Hd by apply length_hkdf.
  erewrite bind_ok; cycle 1.
  { apply uninit_ok. erewrite bind_ok by (apply hkdf_create_ok; [done|by right]).
    erewrite bind_ok; cycle 1.
    { apply hkdf_derive_secrets_run; [done|lia|cbn; lia|by vm_compute]. }
    cbn [info_bytes default]. change (if 3 =? 3 then 1 else 0) with 1. rewrite length_hkdf. reflexivity. }
  fold d. unfold signal_buffer_copy.
  do 2 (erewrite bind_ok by (apply uninit_ok, buffer_ok; [done|unfold blen; rewrite ?length_take; lia])).
  by erewrite bind_ok by (apply buffer_ok; [done|unfold blen; rewrite length_take; lia]).
Qed.

Lemma sender_chain_key_create_ok i key w : mem_ok w -> length key = 32%nat ->
  sender_chain_key_create i (Some key) w = (Ok (SenderChainKey i key), w).
Proof.
  intros Hm Hk. unfold sender_chain_key_create, signal_buffer_copy. erewrite bind_ok by by apply malloc_ok.
  by erewrite bind_ok by (apply buffer_ok; [done|unfold blen; lia]).
Qed.

Lemma create_message_key_ok ck w : mem_ok w ->
  sender_chain_key_create_message_key ck w = (Ok (SenderKey.message_key ck), w).
Proof.
  intros Hm. unfold sender_chain_key_create_message_key. erewrite bind_ok by apply derivative_ok.
  apply sender_message_key_create_ok; [done|apply hmac_length_law].
Qed.

Lemma create_next_sender_ok ck w : mem_ok w ->
  sender_chain_key_create_next ck w = (Ok (SenderKey.next_chain ck), w).
Proof.
  intros Hm. unfold sender_chain_key_create_next. erewrite bind_ok by apply derivative_ok.
  apply sender_chain_key_create_ok; [done|apply hmac_length_law].
Qed.

Lemma message_key_ok_spec ck : is_u32 (chn_iteration ck) -> message_key_ok (SenderKey.message_key ck).
Proof. intros H. split; cbn; [done|apply hmac_length_law|done]. Qed.

Lemma sender_chain_ok_next ck : sender_chain_ok (SenderKey.next_chain ck).
Proof. split; cbn; [apply u32_range|apply hmac_length_law]. Qed.

Lemma sender_chain_ok_nth n ck : sender_chain_ok ck -> sender_chain_ok (SenderKey.nth_chain n ck).
Proof. intros H. destruct n; [done|]. apply sender_chain_ok_next. Qed.

Lemma sender_nth_S n ck : SenderKey.nth_chain (S n) ck = SenderKey.nth_chain n (SenderKey.next_chain ck).
Proof. unfold SenderKey.nth_chain. by rewrite Nat.iter_succ_r. Qed.

Lemma iteration_nth n ck : is_u32 (chn_iteration ck) ->
  chn_iteration (SenderKey.nth_chain n ck) = u32 (chn_iteration ck + Z.of_nat n).
Proof.
  intros Hi. induction n as [|n IH]; simpl.
  - rewrite Z.add_0_r. by rewrite u32_small.
  - fold (SenderKey.nth_chain n ck). rewrite IH. unfold u32. rewrite Zplus_mod_idemp_l. f_equal. lia.
Qed.

(** ** Storage *)

Lemma sender_prepare_ok s w : mem_ok w ->
  sender_key_state_serialize_prepare s w = (Ok (sender_state_structure s), w).
Proof.
  intros Hm. unfold sender_key_state_serialize_prepare. do 2 (erewrite bind_ok by by apply malloc_ok).
  erewrite bind_ok by by apply ec_public_key_serialize_protobuf_ok.
  erewrite bind_ok by (apply opt_mapM_ok; intros; by apply ec_private_key_serialize_protobuf_ok).
  erewrite (bind_ok _ _ w (map sender_key_structure (sst_message_keys s))); [done|].
  destruct (sst_message_keys s) as [|k l] eqn:E; [done|]. rewrite <- E.
  erewrite bind_ok by by apply malloc_ok. apply mapM_ok. intros k' _.
  by erewrite bind_ok by by apply malloc_ok.
Qed.

Lemma read_keys_ok l : forall s w, mem_ok w -> Forall message_key_ok l ->
  (length (sst_message_keys s) + length l <= MAX_MESSAGE_KEYS)%nat ->
  foldM read_sender_message_key (map sender_key_structure l) s w =
  (Ok (set_sender_message_keys (sst_message_keys s ++ l) s), w).
Proof.
  induction l as [|k l IH]; intros s w Hm Hl Hb; cbn [map foldM].
  { rewrite app_nil_r. by destruct s. }
  apply Forall_cons in Hl as [[H1 H2 H3] Hl]. cbn [length] in Hb.
  erewrite bind_ok; cycle 1.
  { unfold read_sender_message_key, sender_key_structure.
    erewrite bind_ok by (apply buffer_ok; [done|unfold blen; lia]).
    erewrite bind_ok by by apply sender_message_key_create_ok. rewrite <- H3.
    unfold sender_key_state_add_sender_message_key. by erewrite bind_ok by by apply malloc_ok. }
  rewrite trim_id by (rewrite length_app; cbn; lia).
  rewrite IH; cbn [set_sender_message_keys sst_message_keys]; [|done|done|rewrite length_app; cbn; lia].
  by rewrite <- app_assoc.
Qed.

Lemma sender_decode_ok s w : mem_ok w -> sender_state_ok s ->
  sender_key_state_deserialize_protobuf (sender_state_structure s) w = (Ok s, w).
Proof.
  intros Hm [H1 [H2 H2'] H3 H4 H5 H6]. unfold sender_key_state_deserialize_protobuf.
  cbn [sks_senderchainkey sks_sendersigningkey sks_senderkeyid sks_sendermessagekeys sender_state_structure].
  erewrite bind_ok; cycle 1.
  { erewrite bind_ok by (apply buffer_ok; [done|unfold blen; lia]).
    by erewrite bind_ok by by apply sender_chain_key_create_ok. }
  erewrite (bind_ok _ _ w (Some (sst_signature_public_key s), sst_signature_private_key s) w); cycle 1.
  { cbn [ssk_public ssk_private]. erewrite bind_ok; cycle 1.
    { cbn [opt_mapM]. by erewrite bind_ok by by apply curve_decode_point_ok. }
    erewrite bind_ok; [reflexivity|]. destruct (sst_signature_private_key s); [|done]. cbn.
    by erewrite bind_ok by by apply curve_decode_private_point_ok. }
  cbv beta iota. unfold sender_key_state_create.
  erewrite bind_ok by (by erewrite bind_ok by by apply malloc_ok).
  rewrite read_keys_ok by done. destruct s as [id [it ck] pk sk l]. done.
Qed.

Lemma typed_sender_state s : sender_state_ok s -> proto_typed (sender_state_structure s).
Proof.
  intros [H1 [H2 _] H3 H4 H5 H6].
  assert (Forall proto_typed (map sender_key_structure (sst_message_keys s))) as T1.
  { apply Forall_map. eapply Forall_impl; [exact H5|]. intros k [K1 _ _]. unfold sender_key_structure.
    proto_typed_solve. }
  assert (opt_all proto_typed (Some (SenderChainKeyStructure_ (Some (chn_iteration (sst_chain_key s)))
    (Some (chn_chain_key (sst_chain_key s)))))) as T2 by (cbn [opt_all]; proto_typed_solve).
  assert (opt_all proto_typed (Some (SenderSigningKeyStructure_
    (Some (ec_public_key_bytes (sst_signature_public_key s)))
    (key_bytes <$> sst_signature_private_key s)))) as T3 by (cbn [opt_all]; proto_typed_solve).
  unfold sender_state_structure. proto_typed_solve.
Qed.

Lemma sender_key_ub k : message_key_ok k -> slots_ub (to_slots (sender_key_structure k)) <= 57.
Proof.
  intros [_ H _]. cbn [to_slots SenderMessageKeyStructure_proto sender_key_structure smk_iteration smk_seed].
  rewrite !slots_ub_cons, slots_ub_nil. pose proof (int_slot_ub (Some (msg_iteration k))).
  pose proof (bytes_slot_ub (Some (msg_seed k)) 32 ltac:(lia)) as Hb. unfold blen in Hb.
  simpl opt_all in Hb. lia.
Qed.

Lemma sender_state_ub s : sender_state_ok s -> slots_ub (to_slots (sender_state_structure s)) <= 200000.
Proof.
  intros [H1 [_ H2] H3 H4 H5 H6].
  cbn [to_slots SenderKeyStateStructure_proto sender_state_structure sks_senderkeyid sks_senderchainkey
       sks_sendersigningkey sks_sendermessagekeys].
  rewrite !slots_ub_cons, slots_ub_nil. pose proof (int_slot_ub (Some (sst_key_id s))).
  set (c := SenderChainKeyStructure_ _ _). set (g := SenderSigningKeyStructure_ _ _).
  assert (slot_ub (msg_slot (Some c)) <= 10 + 57).
  { apply msg_slot_ub; [lia|]. unfold c.
    cbn [opt_all to_slots SenderChainKeyStructure_proto sck_iteration sck_seed].
    rewrite !slots_ub_cons, slots_ub_nil. pose proof (int_slot_ub (Some (chn_iteration (sst_chain_key s)))).
    pose proof (bytes_slot_ub (Some (chn_chain_key (sst_chain_key s))) 32 ltac:(lia)) as Hb.
    unfold blen in Hb. simpl opt_all in Hb. lia. }
  assert (slot_ub (msg_slot (Some g)) <= 10 + 85).
  { apply msg_slot_ub; [lia|]. unfold g.
    cbn [opt_all to_slots SenderSigningKeyStructure_proto ssk_public ssk_private].
    rewrite !slots_ub_cons, slots_ub_nil.
    pose proof (bytes_slot_ub _ 33 ltac:(lia) (point_ub (Some _) H3)) as B1. simpl fmap in B1.
    assert (slot_ub (bytes_slot (key_bytes <$> sst_signature_private_key s)) <= 10 + 32).
    { apply bytes_slot_ub; [lia|]. destruct (sst_signature_private_key s); simpl; [apply blen_private_data|done]. }
    lia. }
  assert (slot_ub (rep_slot (map sender_key_structure (sst_message_keys s))) <=
    (10 + 57) * Z.of_nat MAX_MESSAGE_KEYS).
  { apply rep_slot_ub; [lia|by rewrite length_map|]. apply Forall_map.
    eapply Forall_impl; [exact H5|]. apply sender_key_ub. }
  unfold MAX_MESSAGE_KEYS in *. lia.
Qed.

Lemma sender_record_wf r : sender_record_ok r -> proto_wf (sender_record_structure r).
Proof.
  intros [H1 H2]. split.
  - assert (Forall proto_typed (map sender_state_structure (srec_states r))) as T.
    { apply Forall_map. eapply Forall_impl; [exact H1|]. apply typed_sender_state. }
    unfold sender_record_structure. proto_typed_solve.
  - eapply wf_size_ub; [apply packed_ub|].
    cbn [to_slots SenderKeyRecordStructure_proto sender_record_structure skr_senderkeystates].
    rewrite slots_ub_cons, slots_ub_nil.
    assert (slot_ub (rep_slot (map sender_state_structure (srec_states r))) <= (10 + 200000) * Z.of_nat MAX_STATES).
    { apply rep_slot_ub; [lia|by rewrite length_map|]. apply Forall_map.
      eapply Forall_impl; [exact H1|]. apply sender_state_ub. }
    unfold MAX_STATES in *. lia.
Qed.

Lemma sender_state_wf s : sender_state_ok s -> proto_wf (sender_state_structure s).
Proof.
  intros H. split; [by apply typed_sender_state|]. eapply wf_size_ub; [apply packed_ub|].
  pose proof (sender_state_ub s H). lia.
Qed.

Lemma sender_key_record_serialize_ok r w : mem_ok w -> sender_record_ok r ->
  sender_key_record_serialize r w = (Ok (sender_record_bytes r), w).
Proof.
  intros Hm Hr. unfold sender_key_record_serialize.
  erewrite (bind_ok _ _ w (map sender_state_structure (srec_states r)) w).
  - apply (proto_pack_ok (sender_record_structure r)); [done|by apply sender_record_wf].
  - destruct (srec_states r) as [|s l] eqn:E; [done|]. rewrite <- E.
    erewrite bind_ok by by apply malloc_ok. apply mapM_ok. intros s' _.
    erewrite bind_ok by by apply malloc_ok. by apply sender_prepare_ok.
Qed.

Lemma sender_key_record_deserialize_ok r w : mem_ok w -> sender_record_ok r ->
  sender_key_record_deserialize (sender_record_bytes r) w = (Ok r, w).
Proof.
  intros Hm Hr. unfold sender_key_record_deserialize, sender_record_bytes.
  erewrite bind_ok by (apply proto_unpack_pack; [done|by apply sender_record_wf]).
  unfold sender_key_record_create. erewrite bind_ok by (by erewrite bind_ok by by apply malloc_ok).
  erewrite bind_ok; cycle 1.
  { apply (mapM_map_id _ sender_state_structure). intros s Hs. destruct Hr as [Hr _].
    rewrite Forall_forall in Hr. erewrite bind_ok by (apply sender_decode_ok; [done|by apply Hr]).
    by erewrite bind_ok by by apply malloc_ok. }
  by destruct r.
Qed.

Lemma sender_state_copy_ok s w : mem_ok w -> sender_state_ok s -> sender_key_state_copy s w = (Ok s, w).
Proof.
  intros Hm Hs. unfold sender_key_state_copy, sender_key_state_serialize, sender_key_state_deserialize.
  erewrite bind_ok; cycle 1.
  { erewrite bind_ok by by apply malloc_ok. erewrite bind_ok by by apply sender_prepare_ok.
    apply proto_pack_ok; [done|by apply sender_state_wf]. }
  erewrite bind_ok by (apply proto_unpack_pack; [done|by apply sender_state_wf]).
  by apply sender_decode_ok.
Qed.

(** ** Adding states *)

Lemma add_state_ok r id it ck pk sk w : mem_ok w -> length ck = 32%nat ->
  sender_key_record_add_sender_key_state_impl r id it (Some ck) (Some pk) sk w =
  (Ok (SenderKeyRecord (take MAX_STATES
    (SenderKeyState id (SenderChainKey it ck) pk sk [] :: srec_states r))), w).
Proof.
  intros Hm Hl. unfold sender_key_record_add_sender_key_state_impl, sender_key_state_create.
  erewrite bind_ok by by apply sender_chain_key_create_ok.
  erewrite bind_ok by (by erewrite bind_ok by by apply malloc_ok).
  by erewrite bind_ok by by apply malloc_ok.
Qed.

Lemma sender_record_ok_add r s : sender_record_ok r -> sender_state_ok s ->
  sender_record_ok (SenderKeyRecord (take MAX_STATES (s :: srec_states r))).
Proof.
  intros [H1 H2] Hs. split; cbn [srec_states].
  - apply Forall_take. by constructor.
  - rewrite length_take. lia.
Qed.

Lemma sender_state_ok_new id it ck pk sk : is_u32 id -> is_u32 it -> length ck = 32%nat -> wf_public pk ->
  opt_all wf_private sk -> sender_state_ok (SenderKeyState id (SenderChainKey it ck) pk sk []).
Proof. intros. split; cbn; try done. lia. Qed.
End Run.

Section Always.
Context {U : Type} `{CP : CryptoProvider}.

Lemma frame_uninit {A} (m : M U A) : frame m -> frame (uninit m).
Proof. intros H. unfold uninit. frame_solve. Qed.
#[local] Hint Resolve frame_uninit : frame_db.
Lemma frame_sender_message_key_create i s : frame (@sender_message_key_create U CP i s).
Proof.
  unfold sender_message_key_create, signal_buffer_copy. destruct s; [|frame_solve].
  apply frame_bind; [frame_solve|]. intros _. apply frame_bind; [apply frame_uninit; frame_solve|]. intros d.
  apply frame_bind; [apply frame_uninit; frame_solve|]. intros s.
  apply frame_bind; [apply frame_uninit; frame_solve|]. intros i0. frame_solve.
Qed.
Lemma frame_sender_chain_key_create i s : frame (@sender_chain_key_create U i s).
Proof. unfold sender_chain_key_create, signal_buffer_copy. frame_solve. Qed.
Lemma frame_derivative s k : frame (@sender_chain_key_get_derivative U CP s k).
Proof. unfold sender_chain_key_get_derivative. frame_solve. Qed.
#[local] Hint Resolve frame_sender_message_key_create frame_sender_chain_key_create frame_derivative : frame_db.
Lemma frame_create_message_key ck : frame (@sender_chain_key_create_message_key U CP ck).
Proof. unfold sender_chain_key_create_message_key. frame_solve. Qed.
Lemma frame_create_next_sender ck : frame (@sender_chain_key_create_next U CP ck).
Proof. unfold sender_chain_key_create_next. frame_solve. Qed.
Lemma frame_add_sender_message_key s k : frame (@sender_key_state_add_sender_message_key U s k).
Proof. unfold sender_key_state_add_sender_message_key. frame_solve. Qed.
Lemma frame_get_state r : frame (@sender_key_record_get_sender_key_state U r).
Proof. unfold sender_key_record_get_sender_key_state. frame_solve. Qed.
Lemma frame_get_state_by_id r i : frame (@sender_key_record_get_sender_key_state_by_id U r i).
Proof. unfold sender_key_record_get_sender_key_state_by_id. frame_solve. Qed.
#[local] Hint Resolve frame_add_sender_message_key : frame_db.
Lemma frame_sender_decode st : frame (@sender_key_state_deserialize_protobuf U CP st).
Proof.
  unfold sender_key_state_deserialize_protobuf, sender_key_state_create, opt_mapM. frame_solve.
  unfold read_sender_message_key. frame_solve.
Qed.
#[local] Hint Resolve frame_sender_decode : frame_db.
Lemma frame_sender_record_deserialize d : frame (@sender_key_record_deserialize U CP d).
Proof. unfold sender_key_record_deserialize, sender_key_record_create. frame_solve. Qed.
Lemma frame_sender_record_serialize r : frame (@sender_key_record_serialize U r).
Proof.
  unfold sender_key_record_serialize, sender_key_state_serialize_prepare, opt_mapM. frame_solve.
Qed.
End Always.
#[export] Hint Resolve frame_create_message_key frame_create_next_sender frame_add_sender_message_key
  frame_get_state frame_get_state_by_id frame_sender_record_deserialize
  frame_sender_record_serialize : frame_db.
