(* ===== verification/Protocol.v ===== *)
(** protocol.c: the messages exchanged between clients.  Every message keeps
    its fields and the octets it was serialized to or read from.  The lemmas
    are the round trips, the MAC of a signal message and the signature of a
    sender key message. *)
From stdpp Require Import base list.
From Stdlib Require Import ZArith Lia.
From S2P Require Import Prelude Buffers Hkdf Curve Protobuf Messages Ratchet SessionStorage RatchetSession.
#[local] Open Scope Z_scope.
#[local] Open Scope signal_scope.

Definition SIGNAL_MESSAGE_MAC_LENGTH : nat := 8.
Definition SIGNATURE_LENGTH : nat := 64.
Definition CIPHERTEXT_SIGNAL_TYPE : Z := 2.
Definition CIPHERTEXT_PREKEY_TYPE : Z := 3.
Definition CIPHERTEXT_SENDERKEY_TYPE : Z := 4.
Definition CIPHERTEXT_SENDERKEY_DISTRIBUTION_TYPE : Z := 5.
Definition KEY_EXCHANGE_INITIATE_FLAG : Z := 1.
Definition KEY_EXCHANGE_RESPONSE_FLAG : Z := 2.
Definition KEY_EXCHANGE_SIMULTAENOUS_INITIATE_FLAG : Z := 4.

(** The [serialized] buffer of a key exchange message that was read from the
    wire has its header, and not its data, overwritten by the [memcpy] on line
    323; such a buffer is [Clobbered]. *)
Inductive serialized_buffer : Type :=
| Serialized (b : bytes)
| Clobbered (b : bytes).

Record key_exchange_message : Type := KeyExchangeMsg {
  kem_version : Z;
  kem_supported_version : Z;
  kem_sequence : Z;
  kem_flags : Z;
  kem_base_key : ec_public_key;
  kem_base_key_signature : bytes;
  kem_ratchet_key : ec_public_key;
  kem_identity_key : ec_public_key;
  kem_serialized : serialized_buffer
}.

Record signal_message : Type := SignalMsg {
  sgm_message_version : Z;
  sgm_sender_ratchet_key : ec_public_key;
  sgm_counter : Z;
  sgm_previous_counter : Z;
  sgm_ciphertext : bytes;
  sgm_serialized : bytes
}.

Record pre_key_signal_message : Type := PreKeySignalMsg {
  pkm_version : Z;
  pkm_registration_id : Z;
  pkm_pre_key_id : option Z;
  pkm_signed_pre_key_id : Z;
  pkm_base_key : ec_public_key;
  pkm_identity_key : ec_public_key;
  pkm_message : signal_message;
  pkm_serialized : bytes
}.

Record sender_key_message : Type := SenderKeyMsg {
  snm_message_version : Z;
  snm_key_id : Z;
  snm_iteration : Z;
  snm_ciphertext : bytes;
  snm_serialized : bytes
}.

(** [chain_key], [signature_key] and [serialized] stay null when the
    allocation of [chain_key] fails in [sender_key_distribution_message_create]. *)
Record sender_key_distribution_message : Type := SenderKeyDistributionMsg {
  sdm_id : Z;
  sdm_iteration : Z;
  sdm_chain_key : option bytes;
  sdm_signature_key : option ec_public_key;
  sdm_serialized : option bytes
}.

(** [(version << 4) | supported], and the two halves of the octet. *)
Definition version_octet (version supported : Z) : Z := u8 (Z.lor (Z.shiftl version 4) supported).
Definition high_nibble (d : Z) : Z := Z.shiftr (Z.land d 240) 4.
Definition low_nibble (d : Z) : Z := Z.land d 15.

Section Messages.
Context {U : Type} `{CP : CryptoProvider} `{CV : Curve25519}.

(** get_packed_size, signal_buffer_alloc(1 + len + extra), the version octet
    and pack. *)
Definition proto_pack_versioned {A} `{ProtoMessage A} (version extra : Z) (a : A) : M U bytes :=
  let len := get_packed_size (descriptor A) (to_slots a) in
  alloc_or_nomem (1 + len + extra) ;;;
  let data := pack (descriptor A) (to_slots a) in
  if blen data =? len then ret (version :: data) else fail SG_ERR_INVALID_PROTO_BUF.

(** ** Key exchange messages *)

Definition key_exchange_message_serialize (version supported sequence flags : Z)
    (base_key : ec_public_key) (base_key_signature : bytes) (ratchet_key identity_key : ec_public_key)
    : M U bytes :=
  let id := u32 (Z.lor (Z.shiftl sequence 5) flags) in
  let* basekey := ec_public_key_serialize_protobuf base_key in
  let* ratchetkey := ec_public_key_serialize_protobuf ratchet_key in
  let* identitykey := ec_public_key_serialize_protobuf identity_key in
  let* signature := if 3 <=? version then malloc ;;; ret (Some base_key_signature) else ret None in
  proto_pack_versioned (version_octet version supported) 0
    (KeyExchangeMessage_ (Some id) (Some basekey) (Some ratchetkey) (Some identitykey) signature).

Definition key_exchange_message_create (message_version sequence flags : Z) (base_key : ec_public_key)
    (base_key_signature : bytes) (ratchet_key identity_key : ec_public_key) : M U key_exchange_message :=
  malloc ;;;
  let* serialized := key_exchange_message_serialize message_version CIPHERTEXT_CURRENT_VERSION
    sequence flags base_key base_key_signature ratchet_key identity_key in
  ret (KeyExchangeMsg message_version CIPHERTEXT_CURRENT_VERSION sequence flags base_key
    base_key_signature ratchet_key identity_key (Serialized serialized)).

Definition key_exchange_message_deserialize (data : bytes) : M U key_exchange_message :=
  match data with
  | d0 :: message_data =>
      if blen data <=? 1 then fail SG_ERR_INVAL else
      let version := high_nibble d0 in
      let supported_version := low_nibble d0 in
      if version <? CIPHERTEXT_CURRENT_VERSION then fail SG_ERR_LEGACY_MESSAGE
      else if CIPHERTEXT_CURRENT_VERSION <? version then fail SG_ERR_INVALID_VERSION
      else
        let* m := proto_unpack (A := KeyExchangeMessage) message_data in
        match m with
        | KeyExchangeMessage_ (Some id) (Some basekey) (Some ratchetkey) (Some identitykey) (Some signature) =>
            if negb (length signature =? CURVE_SIGNATURE_LEN)%nat then fail SG_ERR_INVALID_MESSAGE else
            malloc ;;;
            let* base_key := curve_decode_point basekey in
            let* ratchet_key := curve_decode_point ratchetkey in
            let* identity_key := curve_decode_point identitykey in
            alloc_or_nomem (blen data) ;;;
            ret (KeyExchangeMsg version supported_version (Z.shiftr id 5) (Z.land id 31) base_key
              signature ratchet_key identity_key (Clobbered data))
        | _ => fail SG_ERR_INVALID_MESSAGE
        end
  | [] => fail SG_ERR_INVAL
  end.

Definition key_exchange_message_is_response (m : key_exchange_message) : bool :=
  negb (Z.land (kem_flags m) KEY_EXCHANGE_RESPONSE_FLAG =? 0).
Definition key_exchange_message_is_initiate (m : key_exchange_message) : bool :=
  negb (Z.land (kem_flags m) KEY_EXCHANGE_INITIATE_FLAG =? 0).
Definition key_exchange_message_is_response_for_simultaneous_initiate (m : key_exchange_message) : bool :=
  negb (Z.land (kem_flags m) KEY_EXCHANGE_SIMULTAENOUS_INITIATE_FLAG =? 0).

(** ** Signal messages *)

Definition signal_message_get_mac (message_version : Z)
    (sender_identity_key receiver_identity_key : option ec_public_key) (mac_key serialized : bytes)
    : M U bytes :=
  let* hmac_context := signal_hmac_sha256_init mac_key in
  let* hmac_context :=
    if 3 <=? message_version then
      let* sender_key_buffer := ec_public_key_serialize sender_identity_key in
      let* hmac_context := signal_hmac_sha256_update hmac_context sender_key_buffer in
      let* receiver_key_buffer := ec_public_key_serialize receiver_identity_key in
      signal_hmac_sha256_update hmac_context receiver_key_buffer
    else ret hmac_context in
  let* hmac_context := signal_hmac_sha256_update hmac_context serialized in
  let* full_mac_buffer := signal_hmac_sha256_final hmac_context in
  if (length full_mac_buffer <? SIGNAL_MESSAGE_MAC_LENGTH)%nat then fail SG_ERR_UNKNOWN
  else
    alloc_or_nomem (Z.of_nat SIGNAL_MESSAGE_MAC_LENGTH) ;;;
    ret (take SIGNAL_MESSAGE_MAC_LENGTH full_mac_buffer).

Definition signal_message_serialize (message_version : Z) (sender_ratchet_key : ec_public_key)
    (counter previous_counter : Z) (ciphertext : bytes) : M U bytes :=
  let* ratchetkey := ec_public_key_serialize_protobuf sender_ratchet_key in
  proto_pack_versioned (version_octet message_version CIPHERTEXT_CURRENT_VERSION) 0
    (SignalMessage_ (Some ratchetkey) (Some counter) (Some previous_counter) (Some ciphertext)).

Definition signal_message_create (message_version : Z) (mac_key : bytes)
    (sender_ratchet_key : ec_public_key) (counter previous_counter : Z) (ciphertext : bytes)
    (sender_identity_key receiver_identity_key : option ec_public_key) : M U signal_message :=
  malloc ;;;
  let* ciphertext := or_nomem (signal_buffer_create ciphertext) in
  let* message_buf := signal_message_serialize message_version sender_ratchet_key counter
    previous_counter ciphertext in
  let* mac_buf := signal_message_get_mac message_version sender_identity_key receiver_identity_key
    mac_key message_buf in
  let* serialized := or_nomem (signal_buffer_append message_buf mac_buf) in
  ret (SignalMsg message_version sender_ratchet_key counter previous_counter ciphertext serialized).

Definition signal_message_deserialize (data : bytes) : M U signal_message :=
  match data with
  | d0 :: rest =>
      if blen data <=? 1 + Z.of_nat SIGNAL_MESSAGE_MAC_LENGTH then fail SG_ERR_INVAL else
      let version := high_nibble d0 in
      let message_data := take (length data - 1 - SIGNAL_MESSAGE_MAC_LENGTH) rest in
      if version <=? CIPHERTEXT_UNSUPPORTED_VERSION then fail SG_ERR_LEGACY_MESSAGE
      else if CIPHERTEXT_CURRENT_VERSION <? version then fail SG_ERR_INVALID_MESSAGE
      else
        let* m := proto_unpack (A := SignalMessage) message_data in
        match m with
        | SignalMessage_ (Some ratchetkey) (Some counter) previous (Some ciphertext) =>
            malloc ;;;
            let* sender_ratchet_key := curve_decode_point ratchetkey in
            alloc_or_nomem (blen ciphertext) ;;;
            alloc_or_nomem (blen data) ;;;
            ret (SignalMsg version sender_ratchet_key counter (default 0 previous) ciphertext data)
        | _ => fail SG_ERR_INVALID_MESSAGE
        end
  | [] => fail SG_ERR_INVAL
  end.

Definition signal_message_copy (other_message : signal_message) : M U signal_message :=
  signal_message_deserialize (sgm_serialized other_message).

(** 1 for a good MAC, 0 for a bad one.  The version parameter is not used: the
    message's own version is. *)
Definition signal_message_verify_mac (message : signal_message)
    (sender_identity_key receiver_identity_key : option ec_public_key) (mac_key : bytes) : M U Z :=
  let serialized_len := length (sgm_serialized message) in
  let serialized_message_len := (serialized_len - SIGNAL_MESSAGE_MAC_LENGTH)%nat in
  let their_mac := drop serialized_message_len (sgm_serialized message) in
  let* our_mac := signal_message_get_mac (sgm_message_version message) sender_identity_key
    receiver_identity_key mac_key (take serialized_message_len (sgm_serialized message)) in
  if negb (length our_mac =? SIGNAL_MESSAGE_MAC_LENGTH)%nat then fail SG_ERR_UNKNOWN
  else ret (if signal_constant_memcmp our_mac their_mac (length our_mac) =? 0 then 1 else 0).

Definition signal_message_is_legacy (data : bytes) : bool :=
  match data with
  | d0 :: _ => high_nibble d0 <=? CIPHERTEXT_UNSUPPORTED_VERSION
  | [] => false
  end.

(** ** Pre key messages *)

Definition pre_key_signal_message_serialize (version registration_id : Z) (pre_key_id : option Z)
    (signed_pre_key_id : Z) (base_key identity_key : ec_public_key) (message : signal_message)
    : M U bytes :=
  let* basekey := ec_public_key_serialize_protobuf base_key in
  let* identitykey := ec_public_key_serialize_protobuf identity_key in
  proto_pack_versioned (version_octet version CIPHERTEXT_CURRENT_VERSION) 0
    (PreKeySignalMessage_ pre_key_id (Some basekey) (Some identitykey)
      (Some (sgm_serialized message)) (Some registration_id) (Some signed_pre_key_id)).

Definition pre_key_signal_message_create (message_version registration_id : Z) (pre_key_id : option Z)
    (signed_pre_key_id : Z) (base_key identity_key : ec_public_key) (message : signal_message)
    : M U pre_key_signal_message :=
  malloc ;;;
  let* serialized := pre_key_signal_message_serialize message_version registration_id pre_key_id
    signed_pre_key_id base_key identity_key message in
  ret (PreKeySignalMsg message_version registration_id pre_key_id signed_pre_key_id base_key
    identity_key message serialized).

Definition pre_key_signal_message_deserialize (data : bytes) : M U pre_key_signal_message :=
  match data with
  | d0 :: message_data =>
      if blen data <=? 1 then fail SG_ERR_INVAL else
      let version := high_nibble d0 in
      if version <? CIPHERTEXT_CURRENT_VERSION then fail SG_ERR_LEGACY_MESSAGE
      else if CIPHERTEXT_CURRENT_VERSION <? version then fail SG_ERR_INVALID_VERSION
      else
        let* m := proto_unpack (A := PreKeySignalMessage) message_data in
        match m with
        | PreKeySignalMessage_ pre_key_id (Some basekey) (Some identitykey) (Some message)
            registration_id (Some signed_pre_key_id) =>
            malloc ;;;
            let* base_key := curve_decode_point basekey in
            let* identity_key := curve_decode_point identitykey in
            let* inner := signal_message_deserialize message in
            if negb (sgm_message_version inner =? version) then fail SG_ERR_INVALID_VERSION else
            alloc_or_nomem (blen data) ;;;
            ret (PreKeySignalMsg version (default 0 registration_id) pre_key_id signed_pre_key_id
              base_key identity_key inner data)
        | _ => fail SG_ERR_INVALID_MESSAGE
        end
  | [] => fail SG_ERR_INVAL
  end.

Definition pre_key_signal_message_copy (other_message : pre_key_signal_message)
    : M U pre_key_signal_message :=
  pre_key_signal_message_deserialize (pkm_serialized other_message).

(** ** Sender key messages *)

Definition sender_key_message_serialize (key_id iteration : Z) (ciphertext : bytes)
    (signature_key : ec_private_key) : M U bytes :=
  let* data := proto_pack_versioned (version_octet CIPHERTEXT_CURRENT_VERSION CIPHERTEXT_CURRENT_VERSION)
    (Z.of_nat SIGNATURE_LENGTH)
    (SenderKeyMessage_ (Some key_id) (Some iteration) (Some ciphertext)) in
  let* signature_buf := map_err (fun e => if e =? SG_ERR_INVALID_KEY then SG_ERR_UNKNOWN else e)
    (curve_calculate_signature signature_key data) in
  if negb (length signature_buf =? SIGNATURE_LENGTH)%nat then fail SG_ERR_UNKNOWN
  else ret (data ++ signature_buf).

Definition sender_key_message_create (key_id iteration : Z) (ciphertext : bytes)
    (signature_key : ec_private_key) : M U sender_key_message :=
  malloc ;;;
  let* ciphertext := or_nomem (signal_buffer_create ciphertext) in
  let* serialized := sender_key_message_serialize key_id iteration ciphertext signature_key in
  ret (SenderKeyMsg CIPHERTEXT_CURRENT_VERSION key_id iteration ciphertext serialized).

Definition sender_key_message_deserialize (data : bytes) : M U sender_key_message :=
  match data with
  | d0 :: rest =>
      if blen data <=? 1 + Z.of_nat SIGNATURE_LENGTH then fail SG_ERR_INVAL else
      let version := high_nibble d0 in
      let message_data := take (length data - 1 - SIGNATURE_LENGTH) rest in
      if version <? CIPHERTEXT_CURRENT_VERSION then fail SG_ERR_LEGACY_MESSAGE
      else if CIPHERTEXT_CURRENT_VERSION <? version then fail SG_ERR_INVALID_VERSION
      else
        let* m := proto_unpack (A := SenderKeyMessage) message_data in
        match m with
        | SenderKeyMessage_ (Some id) (Some iteration) (Some ciphertext) =>
            malloc ;;;
            let* ciphertext := or_nomem (signal_buffer_create ciphertext) in
            let* serialized := or_nomem (signal_buffer_create data) in
            ret (SenderKeyMsg version id iteration ciphertext serialized)
        | _ => fail SG_ERR_INVALID_MESSAGE
        end
  | [] => fail SG_ERR_INVAL
  end.

Definition sender_key_message_copy (other_message : sender_key_message) : M U sender_key_message :=
  sender_key_message_deserialize (snm_serialized other_message).

(** Any outcome but a good signature is [SG_ERR_INVALID_MESSAGE]. *)
Definition sender_key_message_verify_signature (message : sender_key_message)
    (signature_key : ec_public_key) : M U unit :=
  let data_len := (length (snm_serialized message) - SIGNATURE_LENGTH)%nat in
  let* result := map_err (fun _ => SG_ERR_INVALID_MESSAGE)
    (curve_verify_signature signature_key (take data_len (snm_serialized message))
      (take SIGNATURE_LENGTH (drop data_len (snm_serialized message)))) in
  if result =? 0 then fail SG_ERR_INVALID_MESSAGE else ret tt.

(** ** Sender key distribution messages *)

Definition sender_key_distribution_message_serialize (id iteration : Z) (chain_key : bytes)
    (signature_key : ec_public_key) : M U bytes :=
  let* signingkey := ec_public_key_serialize_protobuf signature_key in
  proto_pack_versioned (version_octet CIPHERTEXT_CURRENT_VERSION CIPHERTEXT_CURRENT_VERSION) 0
    (SenderKeyDistributionMessage_ (Some id) (Some iteration) (Some chain_key) (Some signingkey)).

(** When the allocation of the chain key fails the function returns 0 with a
    message whose remaining fields are null. *)
Definition sender_key_distribution_message_create (id iteration : Z) (chain_key : bytes)
    (signature_key : ec_public_key) : M U sender_key_distribution_message :=
  malloc ;;;
  let* ck := signal_buffer_create chain_key in
  match ck with
  | None => ret (SenderKeyDistributionMsg id iteration None None None)
  | Some ck =>
      let* serialized := sender_key_distribution_message_serialize id iteration ck signature_key in
      ret (SenderKeyDistributionMsg id iteration (Some ck) (Some signature_key) (Some serialized))
  end.

Definition sender_key_distribution_message_deserialize (data : bytes)
    : M U sender_key_distribution_message :=
  match data with
  | d0 :: message_data =>
      if blen data <=? 1 then fail SG_ERR_INVAL else
      let version := high_nibble d0 in
      if version <? CIPHERTEXT_CURRENT_VERSION then fail SG_ERR_LEGACY_MESSAGE
      else if CIPHERTEXT_CURRENT_VERSION <? version then fail SG_ERR_INVALID_VERSION
      else
        let* m := proto_unpack (A := SenderKeyDistributionMessage) message_data in
        match m with
        | SenderKeyDistributionMessage_ (Some id) (Some iteration) (Some chainkey) (Some signingkey) =>
            malloc ;;;
            let* ck := or_nomem (signal_buffer_create chainkey) in
            let* signature_key := curve_decode_point signingkey in
            let* serialized := or_nomem (signal_buffer_create data) in
            ret (SenderKeyDistributionMsg id iteration (Some ck) (Some signature_key) (Some serialized))
        | _ => fail SG_ERR_INVALID_MESSAGE
        end
  | [] => fail SG_ERR_INVAL
  end.

Definition sender_key_distribution_message_copy (other_message : sender_key_distribution_message)
    : M U sender_key_distribution_message :=
  let* serialized := deref (sdm_serialized other_message) in
  sender_key_distribution_message_deserialize serialized.
End Messages.

(** * Lemmas *)

(** A buffer short enough that every message that contains it has 32-bit
    lengths. *)
Definition short (b : bytes) : Prop := blen b <= 2147483648.

Lemma high_nibble_octet v s : 0 <= v < 16 -> 0 <= s < 16 -> high_nibble (version_octet v s) = v.
Proof.
  intros Hv Hs. assert (In v (map Z.of_nat (seq 0 16))) as Hiv
    by (apply in_map_iff; exists (Z.to_nat v); split; [lia|apply in_seq; lia]).
  assert (In s (map Z.of_nat (seq 0 16))) as His
    by (apply in_map_iff; exists (Z.to_nat s); split; [lia|apply in_seq; lia]).
  simpl in Hiv, His. destruct_or!; subst; reflexivity.
Qed.

(** The sequence number and the flags share one integer. *)
Lemma lor_shift_low s f n : 0 <= n -> 0 <= f < 2 ^ n -> 0 <= s ->
  Z.lor (Z.shiftl s n) f = s * 2 ^ n + f.
Proof.
  intros Hn Hf Hs. rewrite Z.shiftl_mul_pow2 by lia.
  assert (Z.land (s * 2 ^ n) f = 0) as Hl; cycle 1.
  { rewrite <- Z.lxor_lor by done. symmetry. by apply Z.add_nocarry_lxor. }
  apply Z.bits_inj'. intros i Hi. rewrite Z.land_spec, Z.bits_0.
  destruct (Z.lt_ge_cases i n).
  - by rewrite Z.mul_pow2_bits_low.
  - replace f with (f mod 2 ^ n) by (rewrite Z.mod_small; lia).
    rewrite Z.mod_pow2_bits_high by lia. by rewrite andb_false_r.
Qed.

Lemma exchange_id_split s f : 0 <= s < 134217728 -> 0 <= f < 32 ->
  let id := u32 (Z.lor (Z.shiftl s 5) f) in Z.shiftr id 5 = s /\ Z.land id 31 = f.
Proof.
  intros Hs Hf id. assert (id = s * 32 + f) as ->.
  { unfold id. rewrite (lor_shift_low s f 5) by lia. unfold u32, UINT32_MOD.
    rewrite Z.mod_small; lia. }
  split.
  - rewrite Z.shiftr_div_pow2 by lia. change (2 ^ 5) with 32. div_lia.
  - change 31 with (Z.ones 5). rewrite Z.land_ones by lia. change (2 ^ 5) with 32. div_lia.
Qed.

Ltac fits_lia := unfold fits, SIZE_MAX, SIGNAL_BUFFER_HEADER, short, blen in *; lia.

Lemma packed_pos {A} `{ProtoMessage A} (a : A) ss : proto_wf a ->
  unpack (descriptor A) [] = Unpacked ss -> of_slots ss <> a -> 0 < blen (packed a).
Proof.
  intros Hwf E Hne. pose proof (proto_unpack_pack a (World [] 0 tt) eq_refl Hwf) as Hu.
  destruct (packed a); [|unfold blen; rewrite length_cons; lia].
  unfold proto_unpack in Hu. erewrite bind_ok in Hu by by apply try_malloc_ok.
  rewrite E in Hu. by inversion Hu.
Qed.

Section MessagesRun.
Context {U : Type} `{CL : CryptoLaws} `{VL : CurveLaws}.
Implicit Types w : world U.

Lemma proto_pack_versioned_ok {A} `{ProtoMessage A} v extra (a : A) w :
  mem_ok w -> proto_wf a -> 0 <= extra <= 64 ->
  proto_pack_versioned v extra a w = (Ok (v :: packed a), w).
Proof.
  intros Hm Hwf He. unfold proto_pack_versioned.
  rewrite (get_packed_size_pack _ _ descriptor_ok (proto_wf_message a Hwf)).
  erewrite bind_ok.
  2:{ apply alloc_or_nomem_ok; [done|]. destruct Hwf as [_ Hs].
      unfold fits, SIZE_MAX, SIGNAL_BUFFER_HEADER, wf_size, UINT32_MOD in *. fold (packed a). lia. }
  fold (packed a). by rewrite Z.eqb_refl.
Qed.

(** ** Signal messages *)

Definition signal_proto (key : ec_public_key) (counter previous : Z) (ct : bytes) : SignalMessage :=
  SignalMessage_ (Some (ec_public_key_bytes key)) (Some counter) (Some previous) (Some ct).
Definition signal_body (version : Z) (key : ec_public_key) (counter previous : Z) (ct : bytes) : bytes :=
  version_octet version CIPHERTEXT_CURRENT_VERSION :: packed (signal_proto key counter previous ct).

(** The MAC of a message: the first eight octets of the HMAC of the two
    identity keys, from version 3 on, and the message. *)
Definition mac_spec (version : Z) (sender receiver : ec_public_key) (mac_key body : bytes) : bytes :=
  take SIGNAL_MESSAGE_MAC_LENGTH (hmac_spec mac_key
    ((if 3 <=? version then ec_public_key_bytes sender ++ ec_public_key_bytes receiver else []) ++ body)).

Lemma length_mac_spec v s r k b : length (mac_spec v s r k b) = SIGNAL_MESSAGE_MAC_LENGTH.
Proof. unfold mac_spec. rewrite length_take, hmac_length_law. done. Qed.

Definition signal_message_of (version : Z) (mac_key : bytes) (key : ec_public_key)
    (counter previous : Z) (ct : bytes) (sender receiver : ec_public_key) : signal_message :=
  let body := signal_body version key counter previous ct in
  SignalMsg version key counter previous ct (body ++ mac_spec version sender receiver mac_key body).

Lemma signal_proto_wf key c p ct : wf_public key -> is_u32 c -> is_u32 p -> short ct ->
  proto_wf (signal_proto key c p ct) /\ blen (packed (signal_proto key c p ct)) <= blen ct + 100.
Proof.
  intros Hk Hc Hp Hs. assert (blen (packed (signal_proto key c p ct)) <= blen ct + 100) as Hb.
  { eapply Z.le_trans; [apply packed_ub|]. unfold signal_proto.
    cbn [to_slots SignalMessage_proto sm_ratchetkey sm_counter sm_previouscounter sm_ciphertext].
    rewrite !slots_ub_cons, slots_ub_nil. pose proof (int_slot_ub (Some c)).
    pose proof (int_slot_ub (Some p)).
    pose proof (bytes_slot_ub (Some ct) (blen ct) (blen_nonneg _) (Z.le_refl _)).
    pose proof (bytes_slot_ub (Some (ec_public_key_bytes key)) 33 ltac:(lia)) as Hx.
    simpl opt_all in Hx. rewrite blen_ec_public_key_bytes in Hx by done.
    specialize (Hx ltac:(lia)). lia. }
  split; [|done]. split; [proto_typed_solve|].
  unfold wf_size, UINT32_MOD, short in *. lia.
Qed.

Lemma signal_message_get_mac_ok v s r k b w : mem_ok w ->
  signal_message_get_mac v (Some s) (Some r) k b w = (Ok (mac_spec v s r k b), w).
Proof.
  intros Hm. unfold signal_message_get_mac.
  destruct (hmac_init_run k w) as (c & E & R). erewrite bind_ok by exact E.
  assert (exists c', (if 3 <=? v then
      let* sender_key_buffer := ec_public_key_serialize (Some s) in
      let* hmac_context := signal_hmac_sha256_update c sender_key_buffer in
      let* receiver_key_buffer := ec_public_key_serialize (Some r) in
      signal_hmac_sha256_update hmac_context receiver_key_buffer
    else ret c) w = (Ok c', w) /\ hmac_represents c' k
      (if 3 <=? v then ec_public_key_bytes s ++ ec_public_key_bytes r else [])) as (c' & E' & R').
  { destruct (3 <=? v); [|by exists c].
    erewrite bind_ok by by apply ec_public_key_serialize_ok.
    destruct (hmac_update_run c k [] (ec_public_key_bytes s) w R) as (c1 & E1 & R1).
    erewrite bind_ok by exact E1. erewrite bind_ok by by apply ec_public_key_serialize_ok.
    by apply (hmac_update_run c1 k _ _ w R1). }
  erewrite bind_ok by exact E'.
  destruct (hmac_update_run c' k _ b w R') as (c2 & E2 & R2). erewrite bind_ok by exact E2.
  erewrite bind_ok by by apply (hmac_final_run _ _ _ _ R2).
  rewrite hmac_length_law. simpl.
  by erewrite bind_ok by (apply alloc_or_nomem_ok; [done|by unfold fits]).
Qed.

Lemma signal_message_create_ok v k key c p ct s r w :
  mem_ok w -> wf_public key -> is_u32 c -> is_u32 p -> short ct ->
  signal_message_create v k key c p ct (Some s) (Some r) w =
  (Ok (signal_message_of v k key c p ct s r), w).
Proof.
  intros Hm Hk Hc Hp Hs. destruct (signal_proto_wf key c p ct Hk Hc Hp Hs) as [Hwf Hb].
  unfold signal_message_create, signal_message_serialize.
  erewrite bind_ok by by apply malloc_ok.
  erewrite bind_ok.
  2:{ apply signal_buffer_create_ok; [done|].
      unfold fits, SIZE_MAX, SIGNAL_BUFFER_HEADER, short in *. lia. }
  erewrite bind_ok.
  2:{ erewrite bind_ok by by apply ec_public_key_serialize_protobuf_ok.
      apply proto_pack_versioned_ok; [done|exact Hwf|lia]. }
  erewrite bind_ok by by apply signal_message_get_mac_ok.
  fold (signal_body v key c p ct).
  erewrite bind_ok; [reflexivity|].
  apply signal_buffer_append_ok; [done|]. unfold signal_body, blen at 2. rewrite length_mac_spec.
  unfold fits, SIZE_MAX, SIGNAL_BUFFER_HEADER, SIGNAL_MESSAGE_MAC_LENGTH, short, blen in *.
  rewrite length_cons. lia.
Qed.

Lemma signal_message_deserialize_ok v k key c p ct s r w :
  mem_ok w -> 2 <= v <= 3 -> wf_public key -> is_u32 c -> is_u32 p -> short ct ->
  signal_message_deserialize (sgm_serialized (signal_message_of v k key c p ct s r)) w =
  (Ok (signal_message_of v k key c p ct s r), w).
Proof.
  intros Hm Hv Hk Hc Hp Hs. destruct (signal_proto_wf key c p ct Hk Hc Hp Hs) as [Hwf Hb].
  cbn [sgm_serialized signal_message_of].
  set (body := signal_body v key c p ct). set (mac := mac_spec v s r k body).
  set (pb := signal_proto key c p ct) in *.
  assert (length mac = 8%nat) as Hmac by apply length_mac_spec.
  assert (0 < blen (packed pb)) as Hpos by (by eapply packed_pos; [exact Hwf|reflexivity|]).
  assert (body ++ mac = version_octet v CIPHERTEXT_CURRENT_VERSION :: packed pb ++ mac) as E by done.
  assert (length (body ++ mac) = 9 + length (packed pb))%nat as Hlen
    by (rewrite E, length_cons, length_app; lia).
  unfold signal_message_deserialize. rewrite E. cbv beta iota. rewrite <- E.
  unfold CIPHERTEXT_UNSUPPORTED_VERSION, CIPHERTEXT_CURRENT_VERSION, SIGNAL_MESSAGE_MAC_LENGTH, blen in *.
  rewrite (proj2 (Z.leb_gt _ _)) by lia. rewrite high_nibble_octet by lia.
  rewrite (proj2 (Z.leb_gt v 1)), (proj2 (Z.ltb_ge 3 v)) by lia.
  rewrite take_app_length' by lia.
  erewrite bind_ok by by apply proto_unpack_pack.
  unfold pb, signal_proto. cbv beta iota.
  erewrite bind_ok by by apply malloc_ok.
  erewrite bind_ok by by apply curve_decode_point_ok.
  erewrite bind_ok by (apply alloc_or_nomem_ok; [done|fits_lia]).
  erewrite bind_ok; [reflexivity|].
  apply alloc_or_nomem_ok; [done|]. rewrite Hlen. fits_lia.
Qed.

(** The MAC a message carries, and the octets it covers. *)
Definition message_body (m : signal_message) : bytes :=
  take (length (sgm_serialized m) - SIGNAL_MESSAGE_MAC_LENGTH) (sgm_serialized m).
Definition message_mac (m : signal_message) : bytes :=
  drop (length (sgm_serialized m) - SIGNAL_MESSAGE_MAC_LENGTH) (sgm_serialized m).
Definition authentic (m : signal_message) (s r : ec_public_key) (k : bytes) : Prop :=
  message_mac m = mac_spec (sgm_message_version m) s r k (message_body m).
#[global] Instance authentic_dec m s r k : Decision (authentic m s r k).
Proof. unfold authentic. apply _. Defined.

Lemma signal_message_verify_mac_ok m s r k w :
  mem_ok w -> (SIGNAL_MESSAGE_MAC_LENGTH <= length (sgm_serialized m))%nat ->
  signal_message_verify_mac m (Some s) (Some r) k w =
  (Ok (if decide (authentic m s r k) then 1 else 0), w).
Proof.
  intros Hm Hl. unfold signal_message_verify_mac. erewrite bind_ok by by apply signal_message_get_mac_ok.
  fold (message_body m) (message_mac m). rewrite length_mac_spec, Nat.eqb_refl. cbn [negb].
  assert (length (message_mac m) = SIGNAL_MESSAGE_MAC_LENGTH) as Hn
    by (unfold message_mac; rewrite length_drop; lia).
  pose proof (signal_constant_memcmp_0 _ _ _
    (length_mac_spec (sgm_message_version m) s r k (message_body m)) Hn) as Hc.
  unfold authentic. destruct (decide _) as [E|E].
  - by rewrite (proj2 Hc) by done.
  - rewrite (proj2 (Z.eqb_neq _ _)); [done|]. intros Hz. apply E. symmetry. by apply Hc.
Qed.

Lemma authentic_created v k key c p ct s r : authentic (signal_message_of v k key c p ct s r) s r k.
Proof.
  unfold authentic, message_mac, message_body, signal_message_of. cbn [sgm_serialized sgm_message_version].
  rewrite length_app, length_mac_spec, Nat.add_sub. by rewrite drop_app_length, take_app_length.
Qed.

Lemma length_created v k key c p ct s r :
  (SIGNAL_MESSAGE_MAC_LENGTH <= length (sgm_serialized (signal_message_of v k key c p ct s r)))%nat.
Proof. unfold signal_message_of. cbn [sgm_serialized]. rewrite length_app, length_mac_spec. lia. Qed.

(** ** Pre key messages *)

Definition pre_key_proto (rid : Z) (pid : option Z) (sid : Z) (bk ik : ec_public_key) (m : bytes)
    : PreKeySignalMessage :=
  PreKeySignalMessage_ pid (Some (ec_public_key_bytes bk)) (Some (ec_public_key_bytes ik)) (Some m)
    (Some rid) (Some sid).
Definition pre_key_message_of (v rid : Z) (pid : option Z) (sid : Z) (bk ik : ec_public_key)
    (m : signal_message) : pre_key_signal_message :=
  PreKeySignalMsg v rid pid sid bk ik m (version_octet v CIPHERTEXT_CURRENT_VERSION ::
    packed (pre_key_proto rid pid sid bk ik (sgm_serialized m))).

Lemma pre_key_proto_wf rid pid sid bk ik m :
  is_u32 rid -> opt_all is_u32 pid -> is_u32 sid -> wf_public bk -> wf_public ik ->
  blen m <= 2147483648 + 200 ->
  let pb := pre_key_proto rid pid sid bk ik m in
  proto_wf pb /\ blen (packed pb) <= blen m + 200.
Proof.
  intros Hr Hp Hi Hb Hk Hm pb. assert (blen (packed pb) <= blen m + 200) as Hub.
  { eapply Z.le_trans; [apply packed_ub|]. unfold pb, pre_key_proto.
    cbn [to_slots PreKeySignalMessage_proto pm_prekeyid pm_basekey pm_identitykey pm_message
         pm_registrationid pm_signedprekeyid].
    rewrite !slots_ub_cons, slots_ub_nil. pose proof (int_slot_ub pid).
    pose proof (int_slot_ub (Some rid)). pose proof (int_slot_ub (Some sid)).
    pose proof (bytes_slot_ub (Some m) (blen m) (blen_nonneg _) (Z.le_refl _)).
    pose proof (bytes_slot_ub _ 33 ltac:(lia) (point_ub (Some bk) Hb)).
    pose proof (bytes_slot_ub _ 33 ltac:(lia) (point_ub (Some ik) Hk)). simpl fmap in *. lia. }
  split; [|done]. split; [proto_typed_solve|]. unfold wf_size, UINT32_MOD. lia.
Qed.

Lemma length_signal_message_of v k key c p ct s r :
  wf_public key -> is_u32 c -> is_u32 p -> short ct ->
  blen (sgm_serialized (signal_message_of v k key c p ct s r)) <= 2147483648 + 200.
Proof.
  intros Hk Hc Hp Hs. destruct (signal_proto_wf key c p ct Hk Hc Hp Hs) as [_ Hb].
  unfold signal_message_of, signal_body. cbn [sgm_serialized].
  unfold blen in *. rewrite length_app, length_cons, length_mac_spec.
  unfold short, blen, SIGNAL_MESSAGE_MAC_LENGTH in *. lia.
Qed.

Lemma pre_key_signal_message_create_ok v rid pid sid bk ik m w :
  mem_ok w -> is_u32 rid -> opt_all is_u32 pid -> is_u32 sid -> wf_public bk -> wf_public ik ->
  blen (sgm_serialized m) <= 2147483648 + 200 ->
  pre_key_signal_message_create v rid pid sid bk ik m w =
  (Ok (pre_key_message_of v rid pid sid bk ik m), w).
Proof.
  intros Hm Hr Hp Hi Hb Hk Hl.
  destruct (pre_key_proto_wf rid pid sid bk ik _ Hr Hp Hi Hb Hk Hl) as [Hwf _].
  unfold pre_key_signal_message_create, pre_key_signal_message_serialize.
  erewrite bind_ok by by apply malloc_ok.
  erewrite bind_ok; [reflexivity|].
  erewrite bind_ok by by apply ec_public_key_serialize_protobuf_ok.
  erewrite bind_ok by by apply ec_public_key_serialize_protobuf_ok.
  by apply proto_pack_versioned_ok; [|exact Hwf|lia].
Qed.

Lemma pre_key_signal_message_deserialize_ok rid pid sid bk ik m w :
  mem_ok w -> is_u32 rid -> opt_all is_u32 pid -> is_u32 sid -> wf_public bk -> wf_public ik ->
  blen (sgm_serialized m) <= 2147483648 + 200 -> sgm_message_version m = 3 ->
  signal_message_deserialize (sgm_serialized m) w = (Ok m, w) ->
  pre_key_signal_message_deserialize (pkm_serialized (pre_key_message_of 3 rid pid sid bk ik m)) w =
  (Ok (pre_key_message_of 3 rid pid sid bk ik m), w).
Proof.
  intros Hm Hr Hp Hi Hb Hk Hl Hv Hd.
  destruct (pre_key_proto_wf rid pid sid bk ik _ Hr Hp Hi Hb Hk Hl) as [Hwf Hub].
  cbn [pkm_serialized pre_key_message_of].
  set (pb := pre_key_proto rid pid sid bk ik (sgm_serialized m)) in *.
  assert (0 < blen (packed pb)) as Hpos by (by eapply packed_pos; [exact Hwf|reflexivity|]).
  unfold pre_key_signal_message_deserialize, blen in *.
  rewrite length_cons, high_nibble_octet by done.
  rewrite (proj2 (Z.leb_gt _ _)) by lia. unfold CIPHERTEXT_CURRENT_VERSION.
  change (3 <? 3) with false. cbv iota.
  erewrite bind_ok by by apply proto_unpack_pack.
  unfold pb at 1, pre_key_proto at 1. cbv beta iota.
  erewrite bind_ok by by apply malloc_ok.
  erewrite bind_ok by by apply curve_decode_point_ok.
  erewrite bind_ok by by apply curve_decode_point_ok.
  erewrite bind_ok by exact Hd. rewrite Hv. change (negb (3 =? 3)) with false. cbv iota.
  erewrite bind_ok; [reflexivity|].
  apply alloc_or_nomem_ok; [done|]. fits_lia.
Qed.

(** ** Key exchange messages *)

Definition exchange_proto (seq flags : Z) (bk : ec_public_key) (sg : bytes) (rk ik : ec_public_key)
    : KeyExchangeMessage :=
  KeyExchangeMessage_ (Some (u32 (Z.lor (Z.shiftl seq 5) flags))) (Some (ec_public_key_bytes bk))
    (Some (ec_public_key_bytes rk)) (Some (ec_public_key_bytes ik)) (Some sg).
Definition exchange_bytes seq flags bk sg rk ik : bytes :=
  version_octet 3 CIPHERTEXT_CURRENT_VERSION :: packed (exchange_proto seq flags bk sg rk ik).

Lemma exchange_proto_wf seq flags bk sg rk ik :
  wf_public bk -> wf_public rk -> wf_public ik -> length sg = 64%nat ->
  let pb := exchange_proto seq flags bk sg rk ik in
  proto_wf pb /\ blen (packed pb) <= 400.
Proof.
  intros Hb Hr Hi Hs pb. assert (blen (packed pb) <= 400) as Hub.
  { eapply Z.le_trans; [apply packed_ub|]. unfold pb, exchange_proto.
    cbn [to_slots KeyExchangeMessage_proto km_id km_basekey km_ratchetkey km_identitykey
         km_basekeysignature].
    rewrite !slots_ub_cons, slots_ub_nil.
    pose proof (int_slot_ub (Some (u32 (Z.lor (Z.shiftl seq 5) flags)))).
    pose proof (bytes_slot_ub (Some sg) (blen sg) (blen_nonneg _) (Z.le_refl _)) as Hg.
    assert (blen sg = 64) by (unfold blen; lia).
    pose proof (bytes_slot_ub _ 33 ltac:(lia) (point_ub (Some bk) Hb)).
    pose proof (bytes_slot_ub _ 33 ltac:(lia) (point_ub (Some rk) Hr)).
    pose proof (bytes_slot_ub _ 33 ltac:(lia) (point_ub (Some ik) Hi)). simpl fmap in *. lia. }
  split; [|done]. split; [|unfold wf_size, UINT32_MOD; lia].
  pose proof (u32_range (Z.lor (Z.shiftl seq 5) flags)). proto_typed_solve.
Qed.

Lemma key_exchange_message_create_ok seq flags bk sg rk ik w :
  mem_ok w -> wf_public bk -> wf_public rk -> wf_public ik -> length sg = 64%nat ->
  key_exchange_message_create 3 seq flags bk sg rk ik w =
  (Ok (KeyExchangeMsg 3 3 seq flags bk sg rk ik (Serialized (exchange_bytes seq flags bk sg rk ik))), w).
Proof.
  intros Hm Hb Hr Hi Hs.
  destruct (exchange_proto_wf seq flags bk sg rk ik Hb Hr Hi Hs) as [Hwf _].
  unfold key_exchange_message_create, key_exchange_message_serialize.
  erewrite bind_ok by by apply malloc_ok.
  erewrite bind_ok; [reflexivity|].
  do 3 (erewrite bind_ok by by apply ec_public_key_serialize_protobuf_ok).
  change (3 <=? 3) with true. cbv iota.
  erewrite bind_ok by (erewrite bind_ok by (by apply malloc_ok); reflexivity).
  by apply proto_pack_versioned_ok; [|exact Hwf|lia].
Qed.

Lemma key_exchange_message_deserialize_ok seq flags bk sg rk ik w :
  mem_ok w -> wf_public bk -> wf_public rk -> wf_public ik -> length sg = 64%nat ->
  0 <= seq < 134217728 -> 0 <= flags < 32 ->
  let data := exchange_bytes seq flags bk sg rk ik in
  key_exchange_message_deserialize data w =
  (Ok (KeyExchangeMsg 3 3 seq flags bk sg rk ik (Clobbered data)), w).
Proof.
  intros Hm Hb Hr Hi Hs Hq Hf data.
  destruct (exchange_proto_wf seq flags bk sg rk ik Hb Hr Hi Hs) as [Hwf Hub].
  destruct (exchange_id_split seq flags Hq Hf) as [E1 E2].
  unfold data, exchange_bytes. set (pb := exchange_proto seq flags bk sg rk ik) in *.
  assert (0 < blen (packed pb)) as Hpos by (by eapply packed_pos; [exact Hwf|reflexivity|]).
  unfold key_exchange_message_deserialize, blen in *.
  rewrite length_cons, high_nibble_octet by done.
  rewrite (proj2 (Z.leb_gt _ _)) by lia. unfold CIPHERTEXT_CURRENT_VERSION.
  change (3 <? 3) with false. cbv iota.
  erewrite bind_ok by by apply proto_unpack_pack.
  unfold pb at 1, exchange_proto at 1. cbv beta iota. rewrite Hs.
  change (negb (64 =? CURVE_SIGNATURE_LEN)%nat) with false. cbv iota.
  erewrite bind_ok by by apply malloc_ok.
  do 3 (erewrite bind_ok by by apply curve_decode_point_ok).
  rewrite E1, E2. erewrite bind_ok; [reflexivity|].
  apply alloc_or_nomem_ok; [done|]. fits_lia.
Qed.

(** ** Sender key messages *)

Definition sender_key_proto (id it : Z) (ct : bytes) : SenderKeyMessage :=
  SenderKeyMessage_ (Some id) (Some it) (Some ct).
Definition sender_key_body (id it : Z) (ct : bytes) : bytes :=
  version_octet 3 3 :: packed (sender_key_proto id it ct).

Lemma sender_key_proto_wf id it ct : is_u32 id -> is_u32 it -> short ct ->
  let pb := sender_key_proto id it ct in
  proto_wf pb /\ blen (packed pb) <= blen ct + 100.
Proof.
  intros Hi Ht Hs pb. assert (blen (packed pb) <= blen ct + 100) as Hub.
  { eapply Z.le_trans; [apply packed_ub|]. unfold pb, sender_key_proto.
    cbn [to_slots SenderKeyMessage_proto skm_id skm_iteration skm_ciphertext].
    rewrite !slots_ub_cons, slots_ub_nil.
    pose proof (int_slot_ub (Some id)). pose proof (int_slot_ub (Some it)).
    pose proof (bytes_slot_ub (Some ct) (blen ct) (blen_nonneg _) (Z.le_refl _)). lia. }
  split; [|done]. split; [proto_typed_solve|]. unfold wf_size, UINT32_MOD, short in *. lia.
Qed.

(** A sender key message is created and signed, reads back as itself, and
    verifies under the public half of the signing key. *)
Lemma sender_key_message_create_ok id it ct sk w :
  mem_ok w -> is_u32 id -> is_u32 it -> short ct -> signing_key (ec_private_data sk) ->
  exists sg, length sg = SIGNATURE_LENGTH /\
  sender_key_message_create id it ct sk w =
    (Ok (SenderKeyMsg 3 id it ct (sender_key_body id it ct ++ sg)), rng_step w) /\
  forall p, curve25519_donna (ec_private_data sk) basepoint = (0, ec_public_data p) ->
    forall w', curve_verify_signature p (sender_key_body id it ct) sg w' = (Ok 1, w').
Proof.
  intros Hm Hi Ht Hs Hk.
  destruct (sender_key_proto_wf id it ct Hi Ht Hs) as [Hwf Hub].
  assert (signable (sender_key_body id it ct)) as Hsig.
  { unfold signable, sender_key_body, short, blen in *. rewrite length_cons. lia. }
  destruct (curve_calculate_signature_ok sk (sender_key_body id it ct) w Hm Hk Hsig) as (sg & E & Hl & Hv).
  exists sg. split; [done|]. split; [|done].
  unfold sender_key_message_create, sender_key_message_serialize.
  erewrite bind_ok by by apply malloc_ok.
  erewrite bind_ok by (apply signal_buffer_create_ok; [done|fits_lia]).
  erewrite bind_ok; [reflexivity|].
  erewrite bind_ok by (apply proto_pack_versioned_ok; [done|exact Hwf|unfold SIGNATURE_LENGTH; lia]).
  erewrite bind_ok by (unfold map_err; setoid_rewrite E; reflexivity).
  by rewrite Hl.
Qed.

Lemma sender_key_message_deserialize_ok id it ct sg w :
  mem_ok w -> is_u32 id -> is_u32 it -> short ct -> length sg = SIGNATURE_LENGTH ->
  let data := sender_key_body id it ct ++ sg in
  sender_key_message_deserialize data w = (Ok (SenderKeyMsg 3 id it ct data), w).
Proof.
  intros Hm Hi Ht Hs Hl data.
  destruct (sender_key_proto_wf id it ct Hi Ht Hs) as [Hwf Hub].
  set (pb := sender_key_proto id it ct) in *.
  assert (0 < blen (packed pb)) as Hpos by (by eapply packed_pos; [exact Hwf|reflexivity|]).
  assert (data = version_octet 3 3 :: packed pb ++ sg) as E by done.
  assert (length data = 65 + length (packed pb))%nat as Hlen
    by (rewrite E, length_cons, length_app, Hl; unfold SIGNATURE_LENGTH; lia).
  unfold sender_key_message_deserialize, blen, SIGNATURE_LENGTH in *. rewrite E. cbv beta iota.
  rewrite <- E, high_nibble_octet by done.
  rewrite (proj2 (Z.leb_gt _ _)) by lia. unfold CIPHERTEXT_CURRENT_VERSION.
  change (3 <? 3) with false. cbv iota. rewrite take_app_length' by lia.
  erewrite bind_ok by by apply proto_unpack_pack.
  unfold pb, sender_key_proto. cbv beta iota.
  erewrite bind_ok by by apply malloc_ok.
  erewrite bind_ok by (apply signal_buffer_create_ok; [done|fits_lia]).
  erewrite bind_ok by (apply signal_buffer_create_ok; [done|unfold blen; rewrite Hlen; fits_lia]). done.
Qed.

(** The signature that is checked is the last 64 octets, over the rest. *)
Lemma sender_key_message_verify_signature_split m body sg p w :
  snm_serialized m = body ++ sg -> length sg = SIGNATURE_LENGTH ->
  sender_key_message_verify_signature m p w =
  ((if curve25519_verify sg (ec_public_data p) body =? 0 then Ok tt else Err SG_ERR_INVALID_MESSAGE), w).
Proof.
  intros E Hl. unfold sender_key_message_verify_signature. rewrite E, length_app, Hl, Nat.add_sub.
  rewrite take_app_length, drop_app_length, take_ge by (rewrite Hl; done).
  unfold curve_verify_signature, blen. rewrite Hl. unfold bind, map_err. simpl.
  by destruct (curve25519_verify _ _ _ =? 0).
Qed.

(** ** Sender key distribution messages *)

Definition distribution_proto (id it : Z) (ck : bytes) (key : ec_public_key)
    : SenderKeyDistributionMessage :=
  SenderKeyDistributionMessage_ (Some id) (Some it) (Some ck) (Some (ec_public_key_bytes key)).
Definition distribution_bytes (id it : Z) (ck : bytes) (key : ec_public_key) : bytes :=
  version_octet 3 3 :: packed (distribution_proto id it ck key).
Definition distribution_of (id it : Z) (ck : bytes) (key : ec_public_key)
    : sender_key_distribution_message :=
  SenderKeyDistributionMsg id it (Some ck) (Some key) (Some (distribution_bytes id it ck key)).

Lemma distribution_proto_wf id it ck key :
  is_u32 id -> is_u32 it -> length ck = 32%nat -> wf_public key ->
  let pb := distribution_proto id it ck key in
  proto_wf pb /\ blen (packed pb) <= 200.
Proof.
  intros Hi Ht Hc Hk pb. assert (blen (packed pb) <= 200) as Hub.
  { eapply Z.le_trans; [apply packed_ub|]. unfold pb, distribution_proto.
    cbn [to_slots SenderKeyDistributionMessage_proto skd_id skd_iteration skd_chainkey skd_signingkey].
    rewrite !slots_ub_cons, slots_ub_nil.
    pose proof (int_slot_ub (Some id)). pose proof (int_slot_ub (Some it)).
    pose proof (bytes_slot_ub (Some ck) (blen ck) (blen_nonneg _) (Z.le_refl _)) as Hg.
    assert (blen ck = 32) by (unfold blen; lia).
    pose proof (bytes_slot_ub _ 33 ltac:(lia) (point_ub (Some key) Hk)). simpl fmap in *. lia. }
  split; [|done]. split; [proto_typed_solve|]. unfold wf_size, UINT32_MOD. lia.
Qed.

Lemma sender_key_distribution_message_create_ok id it ck key w :
  mem_ok w -> is_u32 id -> is_u32 it -> length ck = 32%nat -> wf_public key ->
  sender_key_distribution_message_create id it ck key w = (Ok (distribution_of id it ck key), w).
Proof.
  intros Hm Hi Ht Hc Hk. destruct (distribution_proto_wf id it ck key Hi Ht Hc Hk) as [Hwf _].
  unfold sender_key_distribution_message_create, sender_key_distribution_message_serialize.
  erewrite bind_ok by by apply malloc_ok.
  erewrite bind_ok; cycle 1.
  { unfold signal_buffer_create. erewrite bind_ok by (apply signal_buffer_alloc_ok; [done|fits_lia]).
    reflexivity. }
  cbv beta iota. erewrite bind_ok; [reflexivity|].
  erewrite bind_ok by by apply ec_public_key_serialize_protobuf_ok.
  by apply proto_pack_versioned_ok; [|exact Hwf|lia].
Qed.

Lemma sender_key_distribution_message_deserialize_ok id it ck key w :
  mem_ok w -> is_u32 id -> is_u32 it -> length ck = 32%nat -> wf_public key ->
  sender_key_distribution_message_deserialize (distribution_bytes id it ck key) w =
  (Ok (distribution_of id it ck key), w).
Proof.
  intros Hm Hi Ht Hc Hk. destruct (distribution_proto_wf id it ck key Hi Ht Hc Hk) as [Hwf Hub].
  unfold distribution_of, distribution_bytes. set (pb := distribution_proto id it ck key) in *.
  assert (0 < blen (packed pb)) as Hpos by (by eapply packed_pos; [exact Hwf|reflexivity|]).
  unfold sender_key_distribution_message_deserialize, blen in *.
  rewrite length_cons, high_nibble_octet by done.
  rewrite (proj2 (Z.leb_gt _ _)) by lia. unfold CIPHERTEXT_CURRENT_VERSION.
  change (3 <? 3) with false. cbv iota.
  erewrite bind_ok by by apply proto_unpack_pack.
  unfold pb at 1, distribution_proto at 1. cbv beta iota.
  erewrite bind_ok by by apply malloc_ok.
  erewrite bind_ok by (apply signal_buffer_create_ok; [done|fits_lia]).
  erewrite bind_ok by by apply curve_decode_point_ok.
  erewrite bind_ok; [reflexivity|].
  apply signal_buffer_create_ok; [done|]. unfold blen. rewrite length_cons. fits_lia.
Qed.
End MessagesRun.

Section MessagesAlways.
Context {U : Type} `{CP : CryptoProvider} `{CV : Curve25519}.

Lemma frame_proto_pack_versioned {A} `{ProtoMessage A} v e (a : A) : frame (@proto_pack_versioned U A _ v e a).
Proof. unfold proto_pack_versioned. frame_solve. Qed.
#[local] Hint Resolve frame_proto_pack_versioned : frame_db.
Lemma frame_signal_message_get_mac v s r k b : frame (@signal_message_get_mac U CP v s r k b).
Proof. unfold signal_message_get_mac. frame_solve. Qed.
#[local] Hint Resolve frame_signal_message_get_mac : frame_db.
Lemma frame_signal_message_create v k key c p ct s r :
  frame (@signal_message_create U CP v k key c p ct s r).
Proof. unfold signal_message_create, signal_message_serialize. frame_solve. Qed.
Lemma frame_signal_message_deserialize d : frame (@signal_message_deserialize U d).
Proof. unfold signal_message_deserialize. frame_solve. Qed.
Lemma frame_signal_message_verify_mac m s r k : frame (@signal_message_verify_mac U CP m s r k).
Proof. unfold signal_message_verify_mac. frame_solve. Qed.
Lemma frame_pre_key_signal_message_create v rid pid sid bk ik m :
  frame (@pre_key_signal_message_create U v rid pid sid bk ik m).
Proof. unfold pre_key_signal_message_create, pre_key_signal_message_serialize. frame_solve. Qed.
Lemma frame_sender_key_message_create id it ct sk : frame (@sender_key_message_create U CP CV id it ct sk).
Proof. unfold sender_key_message_create, sender_key_message_serialize. frame_solve. Qed.
Lemma frame_sender_key_message_verify_signature m p :
  frame (@sender_key_message_verify_signature U CV m p).
Proof. unfold sender_key_message_verify_signature. frame_solve. Qed.
Lemma frame_sender_key_distribution_message_create id it ck k :
  frame (@sender_key_distribution_message_create U id it ck k).
Proof.
  unfold sender_key_distribution_message_create, sender_key_distribution_message_serialize. frame_solve.
Qed.
Lemma frame_key_exchange_message_create v s f bk sg rk ik :
  frame (@key_exchange_message_create U v s f bk sg rk ik).
Proof. unfold key_exchange_message_create, key_exchange_message_serialize. frame_solve. Qed.
End MessagesAlways.
#[export] Hint Resolve frame_proto_pack_versioned frame_signal_message_get_mac frame_signal_message_create
  frame_signal_message_deserialize frame_signal_message_verify_mac frame_pre_key_signal_message_create
  frame_sender_key_message_create frame_sender_key_message_verify_signature
  frame_sender_key_distribution_message_create frame_key_exchange_message_create : frame_db.
