(* ===== verification/PreKeys.v ===== *)
(** session_pre_key.c and key_helper.c: one-time pre keys, signed pre keys, the
    bundle a client publishes, and the generators of keys and identifiers.
    The lemmas are the storage round trips, the ranges of the generated
    numbers and the validity of a generated signed pre key. *)
From stdpp Require Import base list.
From Stdlib Require Import ZArith Lia.
From S2P Require Import Prelude Buffers Curve Protobuf Messages Ratchet SessionStorage.
#[local] Open Scope Z_scope.
#[local] Open Scope signal_scope.

Definition PRE_KEY_MEDIUM_MAX_VALUE : Z := 16777215.
Definition INT32_MAX : Z := 2147483647.

Record session_pre_key : Type := SessionPreKey {
  pk_id : Z;
  pk_key_pair : ec_key_pair
}.

Record session_signed_pre_key : Type := SessionSignedPreKey {
  spk_id : Z;
  spk_key_pair : ec_key_pair;
  spk_timestamp : Z;
  spk_signature : bytes
}.

Record session_pre_key_bundle : Type := SessionPreKeyBundle {
  bd_registration_id : Z;
  bd_device_id : Z;
  bd_pre_key_id : Z;
  bd_pre_key_public : option ec_public_key;
  bd_signed_pre_key_id : Z;
  bd_signed_pre_key_public : option ec_public_key;
  bd_signed_pre_key_signature : option bytes;
  bd_identity_key : option ec_public_key
}.

(** An integer read from memory on a little-endian machine. *)
Fixpoint le_word (l : bytes) : Z :=
  match l with
  | [] => 0
  | b :: l' => u8 b + 256 * le_word l'
  end.

Section PreKeys.
Context {U : Type} `{CP : CryptoProvider} `{CV : Curve25519}.

Definition session_pre_key_create (id : Z) (key_pair : ec_key_pair) : M U session_pre_key :=
  malloc ;;; ret (SessionPreKey id key_pair).

Definition session_pre_key_serialize (pre_key : option session_pre_key) : M U bytes :=
  match pre_key with
  | None => fail SG_ERR_INVAL
  | Some pre_key =>
      let* public_buf := ec_public_key_serialize (Some (ec_key_pair_get_public (pk_key_pair pre_key))) in
      let* private_buf := ec_private_key_serialize (ec_key_pair_get_private (pk_key_pair pre_key)) in
      proto_pack (PreKeyRecordStructure_ (Some (pk_id pre_key)) (Some public_buf) (Some private_buf))
  end.

Definition session_pre_key_deserialize (data : bytes) : M U session_pre_key :=
  let* record := proto_unpack (A := PreKeyRecordStructure) data in
  match record with
  | PreKeyRecordStructure_ (Some id) (Some publickey) (Some privatekey) =>
      let* public_key := curve_decode_point publickey in
      let* private_key := curve_decode_private_point privatekey in
      let* key_pair := ec_key_pair_create public_key private_key in
      session_pre_key_create id key_pair
  | _ => fail SG_ERR_INVALID_KEY
  end.

(** The size of the fixed part of the structure. *)
Definition SIGNED_PRE_KEY_HEADER : Z := 48.

Definition session_signed_pre_key_create (id timestamp : Z) (key_pair : ec_key_pair) (signature : bytes)
    : M U session_signed_pre_key :=
  if SIZE_MAX - SIGNED_PRE_KEY_HEADER <? blen signature then fail SG_ERR_NOMEM
  else malloc ;;; ret (SessionSignedPreKey id key_pair timestamp signature).

Definition session_signed_pre_key_serialize (pre_key : session_signed_pre_key) : M U bytes :=
  let* public_buf := ec_public_key_serialize (Some (ec_key_pair_get_public (spk_key_pair pre_key))) in
  let* private_buf := ec_private_key_serialize (ec_key_pair_get_private (spk_key_pair pre_key)) in
  let* signature_buf := or_nomem (signal_buffer_create (spk_signature pre_key)) in
  proto_pack (SignedPreKeyRecordStructure_ (Some (spk_id pre_key)) (Some public_buf) (Some private_buf)
    (Some signature_buf) (Some (spk_timestamp pre_key))).

Definition session_signed_pre_key_deserialize (data : bytes) : M U session_signed_pre_key :=
  let* record := proto_unpack (A := SignedPreKeyRecordStructure) data in
  match record with
  | SignedPreKeyRecordStructure_ (Some id) (Some publickey) (Some privatekey) (Some signature)
      (Some timestamp) =>
      let* public_key := curve_decode_point publickey in
      let* private_key := curve_decode_private_point privatekey in
      let* key_pair := ec_key_pair_create public_key private_key in
      session_signed_pre_key_create id timestamp key_pair signature
  | _ => fail SG_ERR_INVALID_KEY
  end.

(** A null or empty signature, and one whose copy could not be allocated, are
    left out of the bundle without an error. *)
Definition session_pre_key_bundle_create (registration_id device_id pre_key_id : Z)
    (pre_key_public : option ec_public_key) (signed_pre_key_id : Z)
    (signed_pre_key_public : option ec_public_key) (signature : option bytes)
    (identity_key : option ec_public_key) : M U session_pre_key_bundle :=
  malloc ;;;
  let* sig := match signature with
    | Some d => if 0 <? blen d then signal_buffer_create d else ret None
    | None => ret None
    end in
  ret (SessionPreKeyBundle registration_id device_id pre_key_id pre_key_public signed_pre_key_id
    signed_pre_key_public sig identity_key).

(** ** key_helper.c *)

Definition signal_protocol_key_helper_generate_identity_key_pair : M U ratchet_identity_key_pair :=
  let* ec_pair := curve_generate_key_pair in
  ratchet_identity_key_pair_create (ec_key_pair_get_public ec_pair) (ec_key_pair_get_private ec_pair).

Definition signal_protocol_key_helper_generate_registration_id (extended_range : Z) : M U Z :=
  let generate range :=
    let* data := signal_crypto_random 4 in
    ret ((le_word data) mod range + 1) in
  if extended_range =? 0 then generate 16380
  else if extended_range =? 1 then generate (INT32_MAX - 1)
  else fail SG_ERR_INVAL.

Definition signal_protocol_key_helper_get_random_sequence (max : Z) : M U Z :=
  let* data := signal_crypto_random 4 in
  ret ((Z.land (le_word data) INT32_MAX) mod max).

(** [((start_index + i) % (PRE_KEY_MEDIUM_MAX_VALUE - 1)) + 1], where
    [start_index = start - 1], in 32-bit arithmetic. *)
Definition pre_key_id (start i : Z) : Z :=
  (u32 (u32 (start - 1) + i)) mod (PRE_KEY_MEDIUM_MAX_VALUE - 1) + 1.

Fixpoint generate_pre_keys_loop (start : Z) (n : nat) (i : Z) : M U (list session_pre_key) :=
  match n with
  | O => ret []
  | S n' =>
      let* ec_pair := curve_generate_key_pair in
      let* pre_key := session_pre_key_create (pre_key_id start i) ec_pair in
      malloc ;;;
      let* rest := generate_pre_keys_loop start n' (i + 1) in
      ret (pre_key :: rest)
  end.

Definition signal_protocol_key_helper_generate_pre_keys (start count : Z) : M U (list session_pre_key) :=
  generate_pre_keys_loop start (Z.to_nat count) 0.

Definition signal_protocol_key_helper_generate_last_resort_pre_key : M U session_pre_key :=
  let* ec_pair := curve_generate_key_pair in
  session_pre_key_create PRE_KEY_MEDIUM_MAX_VALUE ec_pair.

Definition signal_protocol_key_helper_generate_signed_pre_key (identity_key_pair : ratchet_identity_key_pair)
    (signed_pre_key_id timestamp : Z) : M U session_signed_pre_key :=
  let* ec_pair := curve_generate_key_pair in
  let* public_buf := ec_public_key_serialize (Some (ec_key_pair_get_public ec_pair)) in
  let* signature_buf := curve_calculate_signature (identity_private identity_key_pair) public_buf in
  session_signed_pre_key_create signed_pre_key_id timestamp ec_pair signature_buf.

Definition signal_protocol_key_helper_generate_sender_signing_key : M U ec_key_pair :=
  curve_generate_key_pair.

Definition signal_protocol_key_helper_generate_sender_key : M U bytes :=
  alloc_or_nomem 32 ;;; signal_crypto_random 32.

Definition signal_protocol_key_helper_generate_sender_key_id : M U Z :=
  signal_protocol_key_helper_get_random_sequence INT32_MAX.
End PreKeys.

(** * Lemmas *)

Lemma le_word_range l : 0 <= le_word l < 256 ^ Z.of_nat (length l).
Proof.
  induction l as [|b l IH]; cbn [le_word length]; [simpl; lia|].
  rewrite Nat2Z.inj_succ, Z.pow_succ_r by lia. unfold u8.
  pose proof (Z.mod_pos_bound b 256 ltac:(lia)). lia.
Qed.

Lemma pre_key_id_range start i : 1 <= pre_key_id start i <= PRE_KEY_MEDIUM_MAX_VALUE - 1.
Proof.
  unfold pre_key_id, PRE_KEY_MEDIUM_MAX_VALUE.
  pose proof (Z.mod_pos_bound (u32 (u32 (start - 1) + i)) (16777215 - 1) ltac:(lia)). lia.
Qed.

(** Identifiers of one batch differ. *)
Lemma pre_key_id_inj start count i j :
  1 <= start -> start - 1 + count <= UINT32_MOD -> count <= PRE_KEY_MEDIUM_MAX_VALUE - 1 ->
  0 <= i < count -> 0 <= j < count -> pre_key_id start i = pre_key_id start j -> i = j.
Proof.
  unfold pre_key_id, u32, PRE_KEY_MEDIUM_MAX_VALUE, UINT32_MOD. intros H1 H2 H3 Hi Hj.
  rewrite (Z.mod_small (start - 1)) by lia. rewrite !(Z.mod_small (_ + _)) by lia.
  change (16777215 - 1) with 16777214. intros E. div_lia.
Qed.

(** Pre keys whose storage form reads back. *)
Definition pre_key_storable (k : session_pre_key) : Prop := is_u32 (pk_id k) /\ pair_ok (pk_key_pair k).
Record signed_pre_key_storable (k : session_signed_pre_key) : Prop := {
  spo_id : is_u32 (spk_id k);
  spo_pair : pair_ok (spk_key_pair k);
  spo_time : 0 <= spk_timestamp k < 18446744073709551616;
  spo_sig : blen (spk_signature k) <= 4000000000
}.

Section PreKeysRun.
Context {U : Type} `{CL : CryptoLaws} `{VL : CurveLaws}.
Implicit Types w : world U.

Lemma ec_private_key_serialize_ok k w : mem_ok w ->
  ec_private_key_serialize k w = (Ok (take DJB_KEY_LEN (ec_private_data k)), w).
Proof.
  intros. unfold ec_private_key_serialize.
  by erewrite bind_ok by (apply alloc_or_nomem_ok; [done|by unfold fits]).
Qed.

Lemma session_pre_key_create_ok id kp w : mem_ok w ->
  session_pre_key_create id kp w = (Ok (SessionPreKey id kp), w).
Proof. intros. unfold session_pre_key_create. by erewrite bind_ok by by apply malloc_ok. Qed.

Lemma session_signed_pre_key_create_ok id t kp s w : mem_ok w -> blen s <= 4000000000 ->
  session_signed_pre_key_create id t kp s w = (Ok (SessionSignedPreKey id kp t s), w).
Proof.
  intros Hm Hs. unfold session_signed_pre_key_create, SIZE_MAX, SIGNED_PRE_KEY_HEADER.
  rewrite (proj2 (Z.ltb_ge _ _)) by lia. by erewrite bind_ok by by apply malloc_ok.
Qed.

(** The record a pre key is stored as. *)
Definition pre_key_record (k : session_pre_key) : PreKeyRecordStructure :=
  PreKeyRecordStructure_ (Some (pk_id k))
    (Some (ec_public_key_bytes (ec_key_pair_get_public (pk_key_pair k))))
    (Some (key_bytes (ec_key_pair_get_private (pk_key_pair k)))).
Definition signed_pre_key_record (k : session_signed_pre_key) : SignedPreKeyRecordStructure :=
  SignedPreKeyRecordStructure_ (Some (spk_id k))
    (Some (ec_public_key_bytes (ec_key_pair_get_public (spk_key_pair k))))
    (Some (key_bytes (ec_key_pair_get_private (spk_key_pair k))))
    (Some (spk_signature k)) (Some (spk_timestamp k)).

Lemma pre_key_record_wf k : pre_key_storable k -> proto_wf (pre_key_record k).
Proof.
  intros [Hi [Hp Hk]]. split; [unfold pre_key_record; proto_typed_solve|].
  unfold wf_size, UINT32_MOD. eapply Z.le_lt_trans; [apply Z.add_le_mono_r, packed_ub|].
  cbn [to_slots PreKeyRecordStructure_proto pre_key_record pr_id pr_publickey pr_privatekey].
  rewrite !slots_ub_cons, slots_ub_nil. pose proof (int_slot_ub (Some (pk_id k))).
  pose proof (bytes_slot_ub _ 33 ltac:(lia) (point_ub (Some _) Hp)).
  pose proof (bytes_slot_ub (Some (key_bytes (ec_key_pair_get_private (pk_key_pair k)))) 32
    ltac:(lia) (blen_private_data _)). simpl fmap in *. lia.
Qed.

Lemma signed_pre_key_record_wf k : signed_pre_key_storable k -> proto_wf (signed_pre_key_record k).
Proof.
  intros [Hi [Hp Hk] Ht Hs]. split.
  { unfold signed_pre_key_record. proto_typed_solve. simpl. by constructor. }
  unfold wf_size, UINT32_MOD. eapply Z.le_lt_trans; [apply Z.add_le_mono_r, packed_ub|].
  cbn [to_slots SignedPreKeyRecordStructure_proto signed_pre_key_record sp_id sp_publickey
       sp_privatekey sp_signature sp_timestamp].
  rewrite !slots_ub_cons, slots_ub_nil. pose proof (int_slot_ub (Some (spk_id k))).
  pose proof (int_slot_ub (Some (spk_timestamp k))).
  pose proof (bytes_slot_ub _ 33 ltac:(lia) (point_ub (Some _) Hp)).
  pose proof (bytes_slot_ub (Some (spk_signature k)) _ (blen_nonneg _) (Z.le_refl _)).
  pose proof (bytes_slot_ub (Some (key_bytes (ec_key_pair_get_private (spk_key_pair k)))) 32
    ltac:(lia) (blen_private_data _)). simpl fmap in *. lia.
Qed.

Lemma session_pre_key_serialize_ok k w : mem_ok w -> pre_key_storable k ->
  session_pre_key_serialize (Some k) w = (Ok (packed (pre_key_record k)), w).
Proof.
  intros Hm Hk. unfold session_pre_key_serialize.
  erewrite bind_ok by by apply ec_public_key_serialize_ok.
  erewrite bind_ok by by apply ec_private_key_serialize_ok.
  by apply proto_pack_ok, pre_key_record_wf.
Qed.

Lemma session_pre_key_deserialize_ok k w : mem_ok w -> pre_key_storable k ->
  session_pre_key_deserialize (packed (pre_key_record k)) w = (Ok k, w).
Proof.
  intros Hm Hk. unfold session_pre_key_deserialize.
  erewrite bind_ok by (apply proto_unpack_pack; [done|by apply pre_key_record_wf]).
  destruct Hk as [_ [Hp Hk]], k as [id [p s]]. simpl in *.
  erewrite bind_ok by by apply curve_decode_point_ok.
  erewrite bind_ok by by apply curve_decode_private_point_ok.
  erewrite bind_ok by by apply ec_key_pair_create_ok. by apply session_pre_key_create_ok.
Qed.

Lemma session_signed_pre_key_serialize_ok k w : mem_ok w -> signed_pre_key_storable k ->
  session_signed_pre_key_serialize k w = (Ok (packed (signed_pre_key_record k)), w).
Proof.
  intros Hm Hk. unfold session_signed_pre_key_serialize.
  erewrite bind_ok by by apply ec_public_key_serialize_ok.
  erewrite bind_ok by by apply ec_private_key_serialize_ok.
  erewrite bind_ok; [by apply proto_pack_ok, signed_pre_key_record_wf|].
  apply signal_buffer_create_ok; [done|]. destruct Hk.
  unfold fits, SIZE_MAX, SIGNAL_BUFFER_HEADER. lia.
Qed.

Lemma session_signed_pre_key_deserialize_ok k w : mem_ok w -> signed_pre_key_storable k ->
  session_signed_pre_key_deserialize (packed (signed_pre_key_record k)) w = (Ok k, w).
Proof.
  intros Hm Hk. unfold session_signed_pre_key_deserialize.
  erewrite bind_ok by (apply proto_unpack_pack; [done|by apply signed_pre_key_record_wf]).
  destruct Hk as [_ [Hp Hk] _ Hs], k as [id [p s] t sg]. simpl in *.
  erewrite bind_ok by by apply curve_decode_point_ok.
  erewrite bind_ok by by apply curve_decode_private_point_ok.
  erewrite bind_ok by by apply ec_key_pair_create_ok. by apply session_signed_pre_key_create_ok.
Qed.

(** A random 32-bit value. *)
Lemma random_word_run w : exists z, 0 <= z < 4294967296 /\
  forall B (k : Z -> M U B),
    (let* data := signal_crypto_random 4 in k (le_word data)) w = k z (rng_step w).
Proof.
  destruct (random_law (w_rng w) 4) as (d & E & Hd). exists (le_word d).
  pose proof (le_word_range d) as Hr. rewrite Hd in Hr. split; [exact Hr|].
  intros B k. unfold bind, signal_crypto_random, lift_callback. by rewrite E.
Qed.

Lemma generate_pre_keys_loop_ok start n : forall i w, mem_ok w -> exists l,
  generate_pre_keys_loop start n i w = (Ok l, World (w_mem w) (n + w_rng w) (w_user w)) /\
  map pk_id l = map (fun j => pre_key_id start (i + Z.of_nat j)) (seq 0 n) /\
  Forall (fun k => key_pair_matches (pk_key_pair k)) l.
Proof.
  induction n as [|n IH]; intros i w Hm; cbn [generate_pre_keys_loop].
  { exists []. by destruct w. }
  destruct (curve_generate_key_pair_ok w Hm) as (kp & E & Hkp).
  erewrite bind_ok by exact E. erewrite bind_ok by by apply session_pre_key_create_ok.
  erewrite bind_ok by by apply malloc_ok.
  destruct (IH (i + 1) (rng_step w) Hm) as (l & El & Hids & Hl).
  exists (SessionPreKey (pre_key_id start i) kp :: l). erewrite bind_ok by exact El.
  split; [|split; [|by constructor]].
  - unfold ret, rng_step. cbn. by rewrite Nat.add_succ_r.
  - cbn [map seq pk_id]. rewrite Z.add_0_r, <- seq_shift, map_map, Hids. f_equal.
    apply map_ext. intros j. f_equal. lia.
Qed.

Lemma generate_signed_pre_key_ok ik id t w : mem_ok w ->
  key_pair_matches (EcKeyPair (identity_public ik) (identity_private ik)) ->
  signing_key (ec_private_data (identity_private ik)) -> exists k,
  signal_protocol_key_helper_generate_signed_pre_key ik id t w =
    (Ok k, rng_step (rng_step w)) /\
  spk_id k = id /\ spk_timestamp k = t /\ key_pair_matches (spk_key_pair k) /\
  length (spk_signature k) = 64%nat /\
  forall w', curve_verify_signature (identity_public ik)
    (ec_public_key_bytes (ec_key_pair_get_public (spk_key_pair k))) (spk_signature k) w' = (Ok 1, w').
Proof.
  intros Hm (Hs & Hp & Hd) Hsk. simpl in *.
  unfold signal_protocol_key_helper_generate_signed_pre_key.
  destruct (curve_generate_key_pair_ok w Hm) as (kp & E & Hkp). erewrite bind_ok by exact E.
  erewrite bind_ok by by apply ec_public_key_serialize_ok.
  destruct (curve_calculate_signature_ok (identity_private ik)
    (ec_public_key_bytes (ec_key_pair_get_public kp)) (rng_step w) Hm Hsk) as (sg & Es & Hl & Hv).
  { unfold signable. rewrite blen_ec_public_key_bytes by apply Hkp. done. }
  erewrite bind_ok by exact Es. exists (SessionSignedPreKey id kp t sg).
  split; [apply session_signed_pre_key_create_ok; [done|unfold blen; rewrite Hl; lia]|].
  cbn. split_and!; try done. by apply Hv.
Qed.
End PreKeysRun.

Section PreKeysAlways.
Context {U : Type} `{CP : CryptoProvider} `{CV : Curve25519}.

Lemma frame_pre_key_create id kp : frame (@session_pre_key_create U id kp).
Proof. unfold session_pre_key_create. frame_solve. Qed.
Lemma frame_signed_pre_key_create id t kp s : frame (@session_signed_pre_key_create U id t kp s).
Proof. unfold session_signed_pre_key_create. frame_solve. Qed.
#[local] Hint Resolve frame_pre_key_create frame_signed_pre_key_create : frame_db.
Lemma frame_pre_key_deserialize d : frame (@session_pre_key_deserialize U d).
Proof. unfold session_pre_key_deserialize. frame_solve. Qed.
Lemma frame_signed_pre_key_deserialize d : frame (@session_signed_pre_key_deserialize U d).
Proof. unfold session_signed_pre_key_deserialize. frame_solve. Qed.
Lemma frame_random_sequence max :
  frame (@signal_protocol_key_helper_get_random_sequence U CP max).
Proof. unfold signal_protocol_key_helper_get_random_sequence. frame_solve. Qed.
Lemma frame_generate_sender_key : frame (@signal_protocol_key_helper_generate_sender_key U CP).
Proof. unfold signal_protocol_key_helper_generate_sender_key. frame_solve. Qed.
End PreKeysAlways.
#[export] Hint Resolve frame_pre_key_create frame_signed_pre_key_create frame_pre_key_deserialize
  frame_signed_pre_key_deserialize frame_random_sequence frame_generate_sender_key : frame_db.
