(* ===== verification/Store.v ===== *)
(** signal_protocol.c, from line 592: the calls into the application's data
    stores.  The callbacks are the class [Stores] over a user state [U].
    [store] is the abstract contents of the stores and [StoreLaws] states that
    the callbacks implement the operations on it that signal_protocol.h
    documents; [memory_stores] is an implementation. *)
From stdpp Require Import base list gmap.
From Stdlib Require Import ZArith Lia.
From S2P Require Import Prelude Buffers Hkdf Curve Protobuf Messages Ratchet SessionState SessionStorage.
From S2P Require Import SessionRecord PreKeys.
#[local] Open Scope Z_scope.
#[local] Open Scope signal_scope.

Record signal_protocol_address : Type := Address {
  addr_name : bytes;
  addr_device_id : Z
}.
Record signal_protocol_sender_key_name : Type := SenderKeyName {
  skn_group_id : bytes;
  skn_sender : signal_protocol_address
}.
#[global] Instance address_eq_dec : EqDecision signal_protocol_address.
Proof. solve_decision. Defined.
#[global] Instance address_countable : Countable signal_protocol_address.
Proof.
  refine (inj_countable' (fun a => (addr_name a, addr_device_id a)) (fun p => Address (fst p) (snd p)) _).
  by intros [].
Defined.
#[global] Instance sender_key_name_eq_dec : EqDecision signal_protocol_sender_key_name.
Proof. solve_decision. Defined.
#[global] Instance sender_key_name_countable : Countable signal_protocol_sender_key_name.
Proof.
  refine (inj_countable' (fun n => (skn_group_id n, skn_sender n)) (fun p => SenderKeyName (fst p) (snd p)) _).
  by intros [].
Defined.

(** The callbacks: an [int] result, the buffers they set, the new state. *)
Class Stores (U : Type) : Type := {
  load_session_func : signal_protocol_address -> U -> Z * option bytes * U;
  get_sub_device_sessions_func : bytes -> U -> Z * list Z * U;
  store_session_func : signal_protocol_address -> bytes -> U -> Z * U;
  contains_session_func : signal_protocol_address -> U -> Z * U;
  delete_session_func : signal_protocol_address -> U -> Z * U;
  delete_all_sessions_func : bytes -> U -> Z * U;
  load_pre_key : Z -> U -> Z * option bytes * U;
  store_pre_key : Z -> bytes -> U -> Z * U;
  contains_pre_key : Z -> U -> Z * U;
  remove_pre_key : Z -> U -> Z * U;
  load_signed_pre_key : Z -> U -> Z * option bytes * U;
  store_signed_pre_key : Z -> bytes -> U -> Z * U;
  contains_signed_pre_key : Z -> U -> Z * U;
  remove_signed_pre_key : Z -> U -> Z * U;
  get_identity_key_pair : U -> Z * (option bytes * option bytes) * U;
  get_local_registration_id : U -> Z * Z * U;
  save_identity : signal_protocol_address -> option bytes -> U -> Z * U;
  is_trusted_identity : signal_protocol_address -> bytes -> U -> Z * U;
  store_sender_key : signal_protocol_sender_key_name -> bytes -> U -> Z * U;
  load_sender_key : signal_protocol_sender_key_name -> U -> Z * option bytes * U
}.

(** Run a callback; a negative result is an error of the caller. *)
Definition call {U A} (f : U -> Z * A * U) : M U (Z * A) := fun w =>
  match f (w_user w) with
  | (result, a, u) =>
      let w' := World (w_mem w) (w_rng w) u in
      if result <? 0 then (Err result, w') else (Ok (result, a), w')
  end.
Definition call_ {U} (f : U -> Z * U) : M U Z := fun w =>
  match f (w_user w) with
  | (result, u) =>
      let w' := World (w_mem w) (w_rng w) u in
      if result <? 0 then (Err result, w') else (Ok result, w')
  end.

Section Calls.
Context {U : Type} `{ST : Stores U}.

Definition signal_protocol_session_load_session (address : signal_protocol_address) : M U session_record :=
  let* r := call (load_session_func address) in
  match r with
  | (result, buffer) =>
      if result =? 0 then
        match buffer with
        | Some _ => fail SG_ERR_UNKNOWN
        | None => session_record_create None
        end
      else if result =? 1 then
        match buffer with
        | None => fail (-1)
        | Some b => session_record_deserialize b
        end
      else fail SG_ERR_UNKNOWN
  end.

Definition signal_protocol_session_get_sub_device_sessions (name : bytes) : M U (Z * list Z) :=
  call (get_sub_device_sessions_func name).

Definition signal_protocol_session_store_session (address : signal_protocol_address)
    (record : session_record) : M U Z :=
  let* buffer := session_record_serialize record in
  call_ (store_session_func address buffer).

Definition signal_protocol_session_contains_session (address : signal_protocol_address) : M U Z :=
  call_ (contains_session_func address).

Definition signal_protocol_session_delete_session (address : signal_protocol_address) : M U Z :=
  call_ (delete_session_func address).

Definition signal_protocol_session_delete_all_sessions (name : bytes) : M U Z :=
  call_ (delete_all_sessions_func name).

Definition signal_protocol_pre_key_load_key (pre_key_id : Z) : M U session_pre_key :=
  let* r := call (load_pre_key pre_key_id) in
  let* buffer := deref (snd r) in
  session_pre_key_deserialize buffer.

Definition signal_protocol_pre_key_store_key (pre_key : session_pre_key) : M U Z :=
  let* buffer := session_pre_key_serialize (Some pre_key) in
  call_ (store_pre_key (pk_id pre_key) buffer).

Definition signal_protocol_pre_key_contains_key (pre_key_id : Z) : M U Z :=
  call_ (contains_pre_key pre_key_id).

Definition signal_protocol_pre_key_remove_key (pre_key_id : Z) : M U Z :=
  call_ (remove_pre_key pre_key_id).

Definition signal_protocol_signed_pre_key_load_key (signed_pre_key_id : Z) : M U session_signed_pre_key :=
  let* r := call (load_signed_pre_key signed_pre_key_id) in
  let* buffer := deref (snd r) in
  session_signed_pre_key_deserialize buffer.

Definition signal_protocol_signed_pre_key_store_key (pre_key : session_signed_pre_key) : M U Z :=
  let* buffer := session_signed_pre_key_serialize pre_key in
  call_ (store_signed_pre_key (spk_id pre_key) buffer).

Definition signal_protocol_signed_pre_key_contains_key (signed_pre_key_id : Z) : M U Z :=
  call_ (contains_signed_pre_key signed_pre_key_id).

Definition signal_protocol_signed_pre_key_remove_key (signed_pre_key_id : Z) : M U Z :=
  call_ (remove_signed_pre_key signed_pre_key_id).

Definition signal_protocol_identity_get_key_pair : M U ratchet_identity_key_pair :=
  let* r := call get_identity_key_pair in
  let* public_buf := deref (fst (snd r)) in
  let* public_key := curve_decode_point public_buf in
  let* private_buf := deref (snd (snd r)) in
  let* private_key := curve_decode_private_point private_buf in
  ratchet_identity_key_pair_create public_key private_key.

Definition signal_protocol_identity_get_local_registration_id : M U Z :=
  let* r := call get_local_registration_id in
  ret (snd r).

Definition signal_protocol_identity_save_identity (address : signal_protocol_address)
    (identity_key : option ec_public_key) : M U Z :=
  match identity_key with
  | Some key =>
      let* buffer := ec_public_key_serialize (Some key) in
      call_ (save_identity address (Some buffer))
  | None => call_ (save_identity address None)
  end.

Definition signal_protocol_identity_is_trusted_identity (address : signal_protocol_address)
    (identity_key : option ec_public_key) : M U Z :=
  let* buffer := ec_public_key_serialize identity_key in
  call_ (is_trusted_identity address buffer).
End Calls.

(** * The contract of the stores *)

Record store : Type := Store {
  s_sessions : gmap signal_protocol_address bytes;
  s_pre_keys : gmap Z bytes;
  s_signed_pre_keys : gmap Z bytes;
  s_identity : bytes * bytes;
  s_registration_id : Z;
  s_identities : gmap signal_protocol_address bytes;
  s_sender_keys : gmap signal_protocol_sender_key_name bytes
}.

Definition put_session a b (s : store) : store :=
  Store (<[a := b]> (s_sessions s)) (s_pre_keys s) (s_signed_pre_keys s) (s_identity s)
    (s_registration_id s) (s_identities s) (s_sender_keys s).
Definition drop_pre_key i (s : store) : store :=
  Store (s_sessions s) (delete i (s_pre_keys s)) (s_signed_pre_keys s) (s_identity s)
    (s_registration_id s) (s_identities s) (s_sender_keys s).
Definition put_pre_key i b (s : store) : store :=
  Store (s_sessions s) (<[i := b]> (s_pre_keys s)) (s_signed_pre_keys s) (s_identity s)
    (s_registration_id s) (s_identities s) (s_sender_keys s).
Definition put_signed_pre_key i b (s : store) : store :=
  Store (s_sessions s) (s_pre_keys s) (<[i := b]> (s_signed_pre_keys s)) (s_identity s)
    (s_registration_id s) (s_identities s) (s_sender_keys s).
Definition put_identity a (b : option bytes) (s : store) : store :=
  Store (s_sessions s) (s_pre_keys s) (s_signed_pre_keys s) (s_identity s)
    (s_registration_id s) (partial_alter (fun _ => b) a (s_identities s)) (s_sender_keys s).
Definition put_sender_key n b (s : store) : store :=
  Store (s_sessions s) (s_pre_keys s) (s_signed_pre_keys s) (s_identity s)
    (s_registration_id s) (s_identities s) (<[n := b]> (s_sender_keys s)).

Definition present {A} (o : option A) : Z := match o with Some _ => 1 | None => 0 end.

(** What a load of an optional record returns. *)
Definition found (o : option bytes) : Z * option bytes :=
  match o with Some b => (1, Some b) | None => (0, None) end.

(** The documented behaviour of the callbacks used by the protocol, for a
    store whose operations succeed: the loads return what was stored last, the
    others update one entry.  [trusts] is the application's trust policy. *)
Class StoreLaws (U : Type) `{ST : Stores U} : Type := {
  view : U -> store;
  trusts : store -> signal_protocol_address -> bytes -> bool;
  load_session_law : forall a u, load_session_func a u = (found (s_sessions (view u) !! a), u);
  store_session_law : forall a b u, exists u',
    store_session_func a b u = (0, u') /\ view u' = put_session a b (view u);
  contains_session_law : forall a u,
    contains_session_func a u = (present (s_sessions (view u) !! a), u);
  load_pre_key_law : forall i u, load_pre_key i u =
    (match s_pre_keys (view u) !! i with Some b => (0, Some b) | None => (SG_ERR_INVALID_KEY_ID, None) end, u);
  store_pre_key_law : forall i b u, exists u',
    store_pre_key i b u = (0, u') /\ view u' = put_pre_key i b (view u);
  remove_pre_key_law : forall i u, exists u',
    remove_pre_key i u = (0, u') /\ view u' = drop_pre_key i (view u);
  load_signed_pre_key_law : forall i u, load_signed_pre_key i u =
    (match s_signed_pre_keys (view u) !! i with Some b => (0, Some b) | None => (SG_ERR_INVALID_KEY_ID, None) end, u);
  store_signed_pre_key_law : forall i b u, exists u',
    store_signed_pre_key i b u = (0, u') /\ view u' = put_signed_pre_key i b (view u);
  identity_law : forall u, get_identity_key_pair u =
    (0, (Some (fst (s_identity (view u))), Some (snd (s_identity (view u)))), u);
  registration_law : forall u, get_local_registration_id u = (0, s_registration_id (view u), u);
  save_identity_law : forall a b u, exists u',
    save_identity a b u = (0, u') /\ view u' = put_identity a b (view u);
  trusted_law : forall a b u, is_trusted_identity a b u = (if trusts (view u) a b then 1 else 0, u);
  load_sender_key_law : forall n u, load_sender_key n u = (found (s_sender_keys (view u) !! n), u);
  store_sender_key_law : forall n b u, exists u',
    store_sender_key n b u = (0, u') /\ view u' = put_sender_key n b (view u)
}.

(** Trust on first use: an unknown identity, or the one seen before. *)
Definition first_use (s : store) (a : signal_protocol_address) (b : bytes) : bool :=
  match s_identities s !! a with
  | None => true
  | Some k => bool_decide (k = b)
  end.

(** The stores in memory. *)
Definition map_keys {K} `{Countable K} (m : gmap K bytes) : list K := map fst (map_to_list m).
Definition drop_sessions (p : signal_protocol_address -> bool) (s : store) : store :=
  Store (filter (fun kv => p (fst kv) = false) (s_sessions s)) (s_pre_keys s) (s_signed_pre_keys s)
    (s_identity s) (s_registration_id s) (s_identities s) (s_sender_keys s).
Definition named (name : bytes) (a : signal_protocol_address) : bool := bool_decide (addr_name a = name).

#[global] Instance memory_stores : Stores store := {|
  load_session_func a s := (found (s_sessions s !! a), s);
  get_sub_device_sessions_func n s :=
    let l := map addr_device_id (List.filter (named n) (map_keys (s_sessions s))) in
    (Z.of_nat (length l), l, s);
  store_session_func a b s := (0, put_session a b s);
  contains_session_func a s := (present (s_sessions s !! a), s);
  delete_session_func a s := (present (s_sessions s !! a), drop_sessions (fun x => bool_decide (x = a)) s);
  delete_all_sessions_func n s :=
    (Z.of_nat (length (List.filter (named n) (map_keys (s_sessions s)))), drop_sessions (named n) s);
  load_pre_key i s :=
    (match s_pre_keys s !! i with Some b => (0, Some b) | None => (SG_ERR_INVALID_KEY_ID, None) end, s);
  store_pre_key i b s := (0, put_pre_key i b s);
  contains_pre_key i s := (present (s_pre_keys s !! i), s);
  remove_pre_key i s := (0, drop_pre_key i s);
  load_signed_pre_key i s :=
    (match s_signed_pre_keys s !! i with Some b => (0, Some b) | None => (SG_ERR_INVALID_KEY_ID, None) end, s);
  store_signed_pre_key i b s := (0, put_signed_pre_key i b s);
  contains_signed_pre_key i s := (present (s_signed_pre_keys s !! i), s);
  remove_signed_pre_key i s := (0, Store (s_sessions s) (s_pre_keys s) (delete i (s_signed_pre_keys s))
    (s_identity s) (s_registration_id s) (s_identities s) (s_sender_keys s));
  get_identity_key_pair s := (0, (Some (fst (s_identity s)), Some (snd (s_identity s))), s);
  get_local_registration_id s := (0, s_registration_id s, s);
  save_identity a b s := (0, put_identity a b s);
  is_trusted_identity a b s := (if first_use s a b then 1 else 0, s);
  store_sender_key n b s := (0, put_sender_key n b s);
  load_sender_key n s := (found (s_sender_keys s !! n), s)
|}.

#[global] Instance memory_laws : StoreLaws store.
Proof. refine {| view := id; trusts := first_use |}; intros; try done; by eexists. Defined.

(** * Lemmas *)

(** The world with another user state. *)
Definition with_user {U} (w : world U) (u : U) : world U := World (w_mem w) (w_rng w) u.

Section Run.
Context {U : Type} `{SL : StoreLaws U}.
Implicit Types w : world U.

Lemma call_pure {A} (f : U -> Z * A * U) w r a : f (w_user w) = (r, a, w_user w) -> 0 <= r ->
  call f w = (Ok (r, a), w).
Proof. intros E Hr. unfold call. rewrite E. destruct (Z.ltb_spec r 0); [lia|]. by destruct w. Qed.

Lemma call__pure (f : U -> Z * U) w r : f (w_user w) = (r, w_user w) -> 0 <= r ->
  call_ f w = (Ok r, w).
Proof. intros E Hr. unfold call_. rewrite E. destruct (Z.ltb_spec r 0); [lia|]. by destruct w. Qed.

Lemma mem_ok_with w u : mem_ok w -> mem_ok (with_user w u).
Proof. done. Qed.

(** Loading a session that is not there starts a fresh record. *)
Lemma load_session_none a w : mem_ok w -> s_sessions (view (w_user w)) !! a = None ->
  signal_protocol_session_load_session a w = (Ok (SessionRecord session_state_init [] true), w).
Proof.
  intros Hm E. unfold signal_protocol_session_load_session. erewrite bind_ok.
  2:{ apply call_pure; [|shelve]. rewrite load_session_law, E. reflexivity. Unshelve. lia. }
  simpl. unfold session_record_create. erewrite bind_ok by by apply malloc_ok.
  unfold session_state_create. erewrite bind_ok; [reflexivity|].
  by erewrite bind_ok by by apply malloc_ok.
Qed.

(** A stored record comes back, no longer fresh. *)
Lemma load_session_some a r w : mem_ok w -> record_ok r ->
  s_sessions (view (w_user w)) !! a = Some (record_bytes r) ->
  signal_protocol_session_load_session a w = (Ok (stored r), w).
Proof.
  intros Hm Hr E. unfold signal_protocol_session_load_session. erewrite bind_ok.
  2:{ apply call_pure; [|shelve]. rewrite load_session_law, E. reflexivity. Unshelve. lia. }
  by apply session_record_deserialize_ok.
Qed.

Lemma store_session_ok a r w : mem_ok w -> record_ok r -> exists u,
  signal_protocol_session_store_session a r w = (Ok 0, with_user w u) /\
  view u = put_session a (record_bytes r) (view (w_user w)).
Proof.
  intros Hm Hr. destruct (store_session_law a (record_bytes r) (w_user w)) as (u & E & Hv).
  exists u. split; [|done]. unfold signal_protocol_session_store_session.
  erewrite bind_ok by by apply session_record_serialize_ok. unfold call_. by rewrite E.
Qed.

Lemma is_trusted_ok a k w : mem_ok w ->
  signal_protocol_identity_is_trusted_identity a (Some k) w =
  (Ok (if trusts (view (w_user w)) a (ec_public_key_bytes k) then 1 else 0), w).
Proof.
  intros Hm. unfold signal_protocol_identity_is_trusted_identity.
  erewrite bind_ok by by apply ec_public_key_serialize_ok.
  apply call__pure; [apply trusted_law|by destruct (trusts _ _ _)].
Qed.

Lemma save_identity_ok a k w : mem_ok w -> exists u,
  signal_protocol_identity_save_identity a (Some k) w = (Ok 0, with_user w u) /\
  view u = put_identity a (Some (ec_public_key_bytes k)) (view (w_user w)).
Proof.
  intros Hm. destruct (save_identity_law a (Some (ec_public_key_bytes k)) (w_user w)) as (u & E & Hv).
  exists u. split; [|done]. unfold signal_protocol_identity_save_identity.
  erewrite bind_ok by by apply ec_public_key_serialize_ok. unfold call_. by rewrite E.
Qed.

(** The identity of the store's owner. *)
Definition owns (s : store) (ik : ratchet_identity_key_pair) : Prop :=
  identity_ok ik /\
  s_identity s = (ec_public_key_bytes (identity_public ik), key_bytes (identity_private ik)).

Lemma get_key_pair_ok ik w : mem_ok w -> owns (view (w_user w)) ik ->
  signal_protocol_identity_get_key_pair w = (Ok ik, w).
Proof.
  intros Hm [[Hp Hk] E]. unfold signal_protocol_identity_get_key_pair.
  erewrite bind_ok by (apply call_pure; [apply identity_law|lia]).
  rewrite E. cbn [fst snd]. erewrite bind_ok by apply deref_ok.
  erewrite bind_ok by by apply curve_decode_point_ok. erewrite bind_ok by apply deref_ok.
  erewrite bind_ok by by apply curve_decode_private_point_ok.
  by apply identity_create_eta.
Qed.

Lemma get_registration_ok w :
  signal_protocol_identity_get_local_registration_id w =
  (Ok (s_registration_id (view (w_user w))), w).
Proof.
  unfold signal_protocol_identity_get_local_registration_id.
  by erewrite bind_ok by (apply call_pure; [apply registration_law|lia]).
Qed.

Lemma pre_key_load_ok i k w : mem_ok w -> pre_key_storable k ->
  s_pre_keys (view (w_user w)) !! i = Some (packed (pre_key_record k)) ->
  signal_protocol_pre_key_load_key i w = (Ok k, w).
Proof.
  intros Hm Hk E. unfold signal_protocol_pre_key_load_key. erewrite bind_ok.
  2:{ apply call_pure; [|shelve]. rewrite load_pre_key_law, E. reflexivity. Unshelve. lia. }
  erewrite bind_ok by apply deref_ok. by apply session_pre_key_deserialize_ok.
Qed.

Lemma signed_pre_key_load_ok i k w : mem_ok w -> signed_pre_key_storable k ->
  s_signed_pre_keys (view (w_user w)) !! i = Some (packed (signed_pre_key_record k)) ->
  signal_protocol_signed_pre_key_load_key i w = (Ok k, w).
Proof.
  intros Hm Hk E. unfold signal_protocol_signed_pre_key_load_key. erewrite bind_ok.
  2:{ apply call_pure; [|shelve]. rewrite load_signed_pre_key_law, E. reflexivity. Unshelve. lia. }
  erewrite bind_ok by apply deref_ok. by apply session_signed_pre_key_deserialize_ok.
Qed.

Lemma pre_key_store_ok k w : mem_ok w -> pre_key_storable k -> exists u,
  signal_protocol_pre_key_store_key k w = (Ok 0, with_user w u) /\
  view u = put_pre_key (pk_id k) (packed (pre_key_record k)) (view (w_user w)).
Proof.
  intros Hm Hk.
  destruct (store_pre_key_law (pk_id k) (packed (pre_key_record k)) (w_user w)) as (u & E & Hv).
  exists u. split; [|done]. unfold signal_protocol_pre_key_store_key.
  erewrite bind_ok by by apply session_pre_key_serialize_ok. unfold call_. by rewrite E.
Qed.

Lemma signed_pre_key_store_ok k w : mem_ok w -> signed_pre_key_storable k -> exists u,
  signal_protocol_signed_pre_key_store_key k w = (Ok 0, with_user w u) /\
  view u = put_signed_pre_key (spk_id k) (packed (signed_pre_key_record k)) (view (w_user w)).
Proof.
  intros Hm Hk. destruct (store_signed_pre_key_law (spk_id k) (packed (signed_pre_key_record k)) (w_user w))
    as (u & E & Hv).
  exists u. split; [|done]. unfold signal_protocol_signed_pre_key_store_key.
  erewrite bind_ok by by apply session_signed_pre_key_serialize_ok. unfold call_. by rewrite E.
Qed.

Lemma pre_key_remove_ok i w : exists u,
  signal_protocol_pre_key_remove_key i w = (Ok 0, with_user w u) /\
  view u = drop_pre_key i (view (w_user w)).
Proof.
  destruct (remove_pre_key_law i (w_user w)) as (u & E & Hv). exists u. split; [|done].
  unfold signal_protocol_pre_key_remove_key, call_. by rewrite E.
Qed.

Lemma contains_session_ok a w :
  signal_protocol_session_contains_session a w =
  (Ok (present (s_sessions (view (w_user w)) !! a)), w).
Proof.
  apply call__pure; [apply contains_session_law|]. by destruct (_ !! _).
Qed.

(** ** Calls that only read *)

Lemma frame_call {A} (f : U -> Z * A * U) : (forall u, snd (f u) = u) -> frame (call f).
Proof.
  intros H w. unfold call. specialize (H (w_user w)). destruct (f (w_user w)) as [[r a] u].
  simpl in H. subst u. by destruct (r <? 0).
Qed.
Lemma frame_call_ (f : U -> Z * U) : (forall u, snd (f u) = u) -> frame (call_ f).
Proof.
  intros H w. unfold call_. specialize (H (w_user w)). destruct (f (w_user w)) as [r u].
  simpl in H. subst u. by destruct (r <? 0).
Qed.

Lemma frame_load_session a : frame (signal_protocol_session_load_session a).
Proof.
  unfold signal_protocol_session_load_session. apply frame_bind.
  { apply frame_call. intros u. by rewrite load_session_law. }
  intros [r b]. frame_solve.
Qed.
Lemma frame_contains_session a : frame (signal_protocol_session_contains_session a).
Proof. apply frame_call_. intros u. by rewrite contains_session_law. Qed.
Lemma frame_pre_key_load i : frame (signal_protocol_pre_key_load_key i).
Proof.
  unfold signal_protocol_pre_key_load_key. apply frame_bind; [|frame_solve].
  apply frame_call. intros u. by rewrite load_pre_key_law.
Qed.
Lemma frame_signed_pre_key_load i : frame (signal_protocol_signed_pre_key_load_key i).
Proof.
  unfold signal_protocol_signed_pre_key_load_key. apply frame_bind; [|frame_solve].
  apply frame_call. intros u. by rewrite load_signed_pre_key_law.
Qed.
Lemma frame_get_key_pair : frame signal_protocol_identity_get_key_pair.
Proof.
  unfold signal_protocol_identity_get_key_pair. apply frame_bind; [|frame_solve].
  apply frame_call. intros u. by rewrite identity_law.
Qed.
Lemma frame_get_registration : frame signal_protocol_identity_get_local_registration_id.
Proof.
  unfold signal_protocol_identity_get_local_registration_id. apply frame_bind; [|frame_solve].
  apply frame_call. intros u. by rewrite registration_law.
Qed.
Lemma frame_is_trusted a k : frame (signal_protocol_identity_is_trusted_identity a k).
Proof.
  unfold signal_protocol_identity_is_trusted_identity. apply frame_bind; [frame_solve|]. intros b.
  apply frame_call_. intros u. by rewrite trusted_law.
Qed.
End Run.
#[export] Hint Resolve frame_load_session frame_contains_session frame_pre_key_load
  frame_signed_pre_key_load frame_get_key_pair frame_get_registration frame_is_trusted : frame_db.
