(* ===== verification/Scenario.v ===== *)
(** Two concrete parties with in-memory stores, on the sample provider and
    curve: the inputs at which the theorems about sessions are evaluated. *)
From Stdlib Require Import String.
From stdpp Require Import base list gmap.
From Stdlib Require Import ZArith Lia.
From S2P Require Import Prelude Buffers Curve Sample Protobuf Messages Ratchet SessionStorage RatchetSession.
From S2P Require Import PreKeys Store.
#[local] Open Scope Z_scope.

(** A key pair from one octet. *)
Definition sample_private (z : Z) : ec_private_key := EcPrivateKey (replicate 32 z).
Definition sample_pair (z : Z) : ec_key_pair :=
  EcKeyPair (EcPublicKey (snd (sample_donna (replicate 32 z) basepoint))) (sample_private z).
Definition sample_identity (z : Z) : ratchet_identity_key_pair :=
  RatchetIdentityKeyPair (ec_key_pair_get_public (sample_pair z)) (sample_private z).

Lemma sample_pair_matches z : key_pair_matches (sample_pair z).
Proof.
  split; [done|]. split; [|done]. unfold wf_public, sample_pair, sample_donna, scale. simpl. done.
Qed.

(** The octet 64 makes a clamped key. *)
Lemma sample_pair_signs : signing_pair (sample_pair 64).
Proof. split; [apply sample_pair_matches|]. split; reflexivity. Qed.

Definition alice_identity : ratchet_identity_key_pair := sample_identity 1.
Definition bob_identity : ratchet_identity_key_pair := sample_identity 2.
Definition alice_address : signal_protocol_address := Address (ascii_bytes "alice"%string) 1.
Definition bob_address : signal_protocol_address := Address (ascii_bytes "bob"%string) 1.

Definition bob_signed_pre_key : session_signed_pre_key :=
  SessionSignedPreKey 22 (sample_pair 3) 1600000000000
    (sample_hash 64 (ec_public_data (identity_public bob_identity))
      (ec_public_key_bytes (ec_key_pair_get_public (sample_pair 3)))).
Definition bob_one_time : session_pre_key := SessionPreKey 31 (sample_pair 4).

Definition own_bytes (ik : ratchet_identity_key_pair) : bytes * bytes :=
  (ec_public_key_bytes (identity_public ik), key_bytes (identity_private ik)).

Definition alice_store : store := Store ∅ ∅ ∅ (own_bytes alice_identity) 1001 ∅ ∅.
Definition bob_store : store :=
  Store ∅ {[31 := packed (pre_key_record bob_one_time)]}
    {[22 := packed (signed_pre_key_record bob_signed_pre_key)]} (own_bytes bob_identity) 1002 ∅ ∅.

Definition bob_bundle : session_pre_key_bundle :=
  SessionPreKeyBundle 1002 1 31 (Some (ec_key_pair_get_public (sample_pair 4))) 22
    (Some (ec_key_pair_get_public (sample_pair 3))) (Some (spk_signature bob_signed_pre_key))
    (Some (identity_public bob_identity)).

Lemma bob_signed_storable : signed_pre_key_storable bob_signed_pre_key.
Proof.
  split; [by vm_compute|split; by vm_compute|by vm_compute|]. unfold blen. simpl. by vm_compute.
Qed.
Lemma bob_one_time_storable : pre_key_storable bob_one_time.
Proof. split; [by vm_compute|split; by vm_compute]. Qed.

(** The sample cipher keeps lengths. *)
Lemma sample_encrypt_length mode key iv p c :
  encrypt_func (CryptoProvider := sample_provider) mode key iv p = inl c -> blen c = blen p.
Proof. intros E. inversion E; subst. unfold blen, xor_with. by rewrite length_map. Qed.
