(* ===== verification/SessionBuilder.v ===== *)
(** session_builder.c: sessions from a pre key bundle, from a received pre key
    message and from a key exchange.  A [session_record] the code updates in
    place is passed in and returned. *)
From stdpp Require Import base list gmap.
From Stdlib Require Import ZArith Lia.
From S2P Require Import Prelude Buffers Hkdf Curve Protobuf Messages Ratchet SessionState SessionStorage.
From S2P Require Import RatchetSession SessionRecord Protocol PreKeys Store.
#[local] Open Scope Z_scope.
#[local] Open Scope signal_scope.

(** The store and the context are the user state and the classes. *)
Record session_builder : Type := SessionBuilder { sb_remote_address : signal_protocol_address }.

Section Builder.
Context {U : Type} `{CP : CryptoProvider} `{CV : Curve25519} `{ST : Stores U}.

Definition session_builder_create (remote_address : signal_protocol_address) : M U session_builder :=
  malloc ;;; ret (SessionBuilder remote_address).

(** [if(!session_record_is_fresh(record)) session_record_archive_current_state(record)] *)
Definition archive_unless_fresh (record : session_record) : M U session_record :=
  if rec_is_fresh record then ret record else session_record_archive_current_state record.

(** The second component is the identifier of the one-time pre key to remove. *)
Definition session_builder_process_pre_key_signal_message_v3 (record : session_record)
    (message : pre_key_signal_message) : M U (session_record * option Z) :=
  if session_record_has_session_state record (pkm_version message) (Some (pkm_base_key message))
  then ret (record, None)
  else
    let* our_signed_pre_key := signal_protocol_signed_pre_key_load_key (pkm_signed_pre_key_id message) in
    let* our_identity_key := signal_protocol_identity_get_key_pair in
    let* our_one_time_pre_key :=
      match pkm_pre_key_id message with
      | Some id => let* k := signal_protocol_pre_key_load_key id in ret (Some (pk_key_pair k))
      | None => ret None
      end in
    let* parameters := bob_signal_protocol_parameters_create (Some our_identity_key)
      (Some (spk_key_pair our_signed_pre_key)) our_one_time_pre_key
      (Some (spk_key_pair our_signed_pre_key)) (Some (pkm_identity_key message))
      (Some (pkm_base_key message)) in
    let* record := archive_unless_fresh record in
    let* state := ratcheting_session_bob_initialize (rec_state record) parameters in
    let* local_registration_id := signal_protocol_identity_get_local_registration_id in
    let state := session_state_set_local_registration_id local_registration_id state in
    let state := session_state_set_remote_registration_id (pkm_registration_id message) state in
    let state := session_state_set_alice_base_key (pkm_base_key message) state in
    ret (session_record_set_state record state,
      match pkm_pre_key_id message with
      | Some id => if id =? PRE_KEY_MEDIUM_MAX_VALUE then None else Some id
      | None => None
      end).

Definition session_builder_process_pre_key_signal_message (builder : session_builder)
    (record : session_record) (message : pre_key_signal_message) : M U (session_record * option Z) :=
  let* trusted := signal_protocol_identity_is_trusted_identity (sb_remote_address builder)
    (Some (pkm_identity_key message)) in
  if trusted =? 0 then fail SG_ERR_UNTRUSTED_IDENTITY
  else
    let* r := session_builder_process_pre_key_signal_message_v3 record message in
    let* _ := signal_protocol_identity_save_identity (sb_remote_address builder)
      (Some (pkm_identity_key message)) in
    ret r.

Definition session_builder_process_pre_key_bundle (builder : session_builder)
    (bundle : session_pre_key_bundle) : M U Z :=
  let address := sb_remote_address builder in
  let* trusted := signal_protocol_identity_is_trusted_identity address (bd_identity_key bundle) in
  if trusted =? 0 then fail SG_ERR_UNTRUSTED_IDENTITY
  else
    match bd_signed_pre_key_public bundle with
    | None => fail SG_ERR_INVALID_KEY
    | Some signed_pre_key =>
        let* serialized_signed_pre_key := ec_public_key_serialize (Some signed_pre_key) in
        let* identity_key := deref (bd_identity_key bundle) in
        let* signature := deref (bd_signed_pre_key_signature bundle) in
        let* verified := curve_verify_signature identity_key serialized_signed_pre_key signature in
        if verified =? 0 then fail SG_ERR_INVALID_KEY
        else
          let* record := signal_protocol_session_load_session address in
          let* our_base_key := curve_generate_key_pair in
          let their_one_time_pre_key_id :=
            match bd_pre_key_public bundle with
            | Some _ => Some (bd_pre_key_id bundle)
            | None => None
            end in
          let* our_identity_key := signal_protocol_identity_get_key_pair in
          let* parameters := alice_signal_protocol_parameters_create (Some our_identity_key)
            (Some our_base_key) (bd_identity_key bundle) (Some signed_pre_key)
            (bd_pre_key_public bundle) (Some signed_pre_key) in
          let* record := archive_unless_fresh record in
          let* state := ratcheting_session_alice_initialize (rec_state record) parameters in
          let state := session_state_set_unacknowledged_pre_key_message their_one_time_pre_key_id
            (bd_signed_pre_key_id bundle) (ec_key_pair_get_public our_base_key) state in
          let* local_registration_id := signal_protocol_identity_get_local_registration_id in
          let state := session_state_set_local_registration_id local_registration_id state in
          let state := session_state_set_remote_registration_id (bd_registration_id bundle) state in
          let state := session_state_set_alice_base_key (ec_key_pair_get_public our_base_key) state in
          let* _ := signal_protocol_session_store_session address (session_record_set_state record state) in
          signal_protocol_identity_save_identity address (bd_identity_key bundle)
    end.

(** ** Key exchange messages *)

Definition verify_base_key (message : key_exchange_message) : M U unit :=
  let* message_base_key_serialized := ec_public_key_serialize (Some (kem_base_key message)) in
  let* result := curve_verify_signature (kem_identity_key message) message_base_key_serialized
    (kem_base_key_signature message) in
  if negb (result =? 1) then fail SG_ERR_INVALID_KEY else ret tt.

Definition session_builder_process_initiate (builder : session_builder) (message : key_exchange_message)
    : M U key_exchange_message :=
  let address := sb_remote_address builder in
  let* record := signal_protocol_session_load_session address in
  verify_base_key message ;;;
  let state := rec_state record in
  let* '(parameters, flags) :=
    if negb (st_has_pending_key_exchange state) then
      let* identity_key_pair := signal_protocol_identity_get_key_pair in
      let* our_base_key := curve_generate_key_pair in
      let* our_ratchet_key := curve_generate_key_pair in
      let* parameters := symmetric_signal_protocol_parameters_create (Some identity_key_pair)
        (Some our_base_key) (Some our_ratchet_key) (Some (kem_base_key message))
        (Some (kem_ratchet_key message)) (Some (kem_identity_key message)) in
      ret (parameters, KEY_EXCHANGE_RESPONSE_FLAG)
    else
      let* parameters := symmetric_signal_protocol_parameters_create
        (session_state_get_pending_key_exchange_identity_key state)
        (session_state_get_pending_key_exchange_base_key state)
        (session_state_get_pending_key_exchange_ratchet_key state) (Some (kem_base_key message))
        (Some (kem_ratchet_key message)) (Some (kem_identity_key message)) in
      ret (parameters, Z.lor KEY_EXCHANGE_RESPONSE_FLAG KEY_EXCHANGE_SIMULTAENOUS_INITIATE_FLAG) in
  let* record := archive_unless_fresh record in
  let* state := ratcheting_session_symmetric_initialize (rec_state record) parameters in
  let* _ := signal_protocol_session_store_session address (session_record_set_state record state) in
  let* _ := signal_protocol_identity_save_identity address (Some (kem_identity_key message)) in
  let base_public := ec_key_pair_get_public (sym_our_base_key parameters) in
  let* serialized := ec_public_key_serialize (Some base_public) in
  let* base_key_signature := curve_calculate_signature
    (identity_private (sym_our_identity_key parameters)) serialized in
  key_exchange_message_create (st_session_version state) (kem_sequence message) flags base_public
    base_key_signature (ec_key_pair_get_public (sym_our_ratchet_key parameters))
    (identity_public (sym_our_identity_key parameters)).

(** The session is stored before the signature of the base key is checked, and
    once more after it. *)
Definition session_builder_process_response (builder : session_builder) (message : key_exchange_message)
    : M U Z :=
  let address := sb_remote_address builder in
  let* record := signal_protocol_session_load_session address in
  let state := rec_state record in
  if negb (st_has_pending_key_exchange state) ||
     negb (session_state_get_pending_key_exchange_sequence state =? kem_sequence message)
  then
    if negb (key_exchange_message_is_response_for_simultaneous_initiate message)
    then fail SG_ERR_STALE_KEY_EXCHANGE
    else ret SG_SUCCESS
  else
    let* parameters := symmetric_signal_protocol_parameters_create
      (session_state_get_pending_key_exchange_identity_key state)
      (session_state_get_pending_key_exchange_base_key state)
      (session_state_get_pending_key_exchange_ratchet_key state) (Some (kem_base_key message))
      (Some (kem_ratchet_key message)) (Some (kem_identity_key message)) in
    let* record := archive_unless_fresh record in
    let* state := ratcheting_session_symmetric_initialize (rec_state record) parameters in
    let record := session_record_set_state record state in
    let* _ := signal_protocol_session_store_session address record in
    (if 3 <=? st_session_version state then verify_base_key message else ret tt) ;;;
    let* _ := signal_protocol_session_store_session address record in
    signal_protocol_identity_save_identity address (Some (kem_identity_key message)).

Definition session_builder_process_key_exchange_message (builder : session_builder)
    (message : key_exchange_message) : M U (option key_exchange_message) :=
  let* trusted := signal_protocol_identity_is_trusted_identity (sb_remote_address builder)
    (Some (kem_identity_key message)) in
  if trusted =? 0 then fail SG_ERR_UNTRUSTED_IDENTITY
  else if key_exchange_message_is_initiate message then
    let* response := session_builder_process_initiate builder message in
    ret (Some response)
  else
    let* _ := session_builder_process_response builder message in
    ret None.

(** Every failure is reported as [SG_ERR_INVALID_KEY]. *)
Definition session_builder_process (builder : session_builder) : M U key_exchange_message :=
  let address := sb_remote_address builder in
  map_err (fun _ => SG_ERR_INVALID_KEY) (
    let* random_value := signal_protocol_key_helper_get_random_sequence 65534 in
    let sequence := random_value + 1 in
    let* base_key := curve_generate_key_pair in
    let* ratchet_key := curve_generate_key_pair in
    let* identity_key := signal_protocol_identity_get_key_pair in
    let* serialized := ec_public_key_serialize (Some (ec_key_pair_get_public base_key)) in
    let* base_key_signature := curve_calculate_signature (identity_private identity_key) serialized in
    if negb (length base_key_signature =? CURVE_SIGNATURE_LEN)%nat then fail SG_ERR_UNKNOWN
    else
      let* record := signal_protocol_session_load_session address in
      let state := session_state_set_pending_key_exchange sequence base_key ratchet_key identity_key
        (rec_state record) in
      let* _ := signal_protocol_session_store_session address (session_record_set_state record state) in
      key_exchange_message_create CIPHERTEXT_CURRENT_VERSION sequence KEY_EXCHANGE_INITIATE_FLAG
        (ec_key_pair_get_public base_key) base_key_signature (ec_key_pair_get_public ratchet_key)
        (identity_public identity_key)).
End Builder.
