(* ===== verification/SessionCipher.v ===== *)
(** session_cipher.c: encryption and decryption in a session.  A
    [session_state] the code updates in place is passed in and returned; on an
    error the code drops the copy it was working on, and so does the model. *)
From stdpp Require Import base list gmap.
From Stdlib Require Import ZArith Lia.
From S2P Require Import Prelude Buffers Hkdf Curve Protobuf Messages Ratchet SessionState SessionStorage.
From S2P Require Import RatchetSession SessionRecord Protocol PreKeys Store SessionBuilder.
#[local] Open Scope Z_scope.
#[local] Open Scope signal_scope.

(** [cp_inside_callback] is set while the decryption callback runs, and every
    operation on the cipher is refused then. *)
Record session_cipher (U : Type) : Type := SessionCipher {
  cp_remote_address : signal_protocol_address;
  cp_builder : session_builder;
  cp_decrypt_callback : option (bytes -> M U Z);
  cp_inside_callback : bool
}.
Arguments SessionCipher {U}.
Arguments cp_remote_address {U}.
Arguments cp_builder {U}.
Arguments cp_decrypt_callback {U}.
Arguments cp_inside_callback {U}.

Inductive ciphertext_message : Type :=
| CiphertextSignal (m : signal_message)
| CiphertextPreKey (m : pre_key_signal_message).

(** The limit on skipped messages, and the code that skips them. *)
Definition MAX_FORWARD : Z := 2000.

(** The counter, most significant octet first, and twelve zeros. *)
Definition counter_iv (counter : Z) : bytes :=
  [u8 (Z.shiftr counter 24); u8 (Z.shiftr counter 16); u8 (Z.shiftr counter 8); u8 counter] ++
  replicate 12 0.

Section Cipher.
Context {U : Type} `{CP : CryptoProvider} `{CV : Curve25519} `{ST : Stores U}.

Definition session_cipher_create (remote_address : signal_protocol_address) : M U (session_cipher U) :=
  let* builder := session_builder_create remote_address in
  malloc ;;; ret (SessionCipher remote_address builder None false).

Definition session_cipher_set_decryption_callback (cipher : session_cipher U)
    (callback : option (bytes -> M U Z)) : session_cipher U :=
  SessionCipher (cp_remote_address cipher) (cp_builder cipher) callback (cp_inside_callback cipher).

Definition session_cipher_get_ciphertext (version : Z) (message_keys : ratchet_message_keys)
    (plaintext : bytes) : M U bytes :=
  if 3 <=? version then
    signal_encrypt SG_CIPHER_AES_CBC_PKCS5 (cipher_key message_keys) (iv message_keys) plaintext
  else
    signal_encrypt SG_CIPHER_AES_CTR_NOPADDING (cipher_key message_keys)
      (counter_iv (counter message_keys)) plaintext.

Definition session_cipher_get_plaintext (version : Z) (message_keys : ratchet_message_keys)
    (ciphertext : bytes) : M U bytes :=
  if 3 <=? version then
    signal_decrypt SG_CIPHER_AES_CBC_PKCS5 (cipher_key message_keys) (iv message_keys) ciphertext
  else
    signal_decrypt SG_CIPHER_AES_CTR_NOPADDING (cipher_key message_keys)
      (counter_iv (counter message_keys)) ciphertext.

(** A null pointer the code checks for. *)
Definition require {A} (o : option A) (e : Z) : M U A :=
  match o with Some a => ret a | None => fail e end.

Definition session_cipher_encrypt (cipher : session_cipher U) (padded_message : bytes)
    : M U ciphertext_message :=
  if cp_inside_callback cipher then fail SG_ERR_INVAL else
  let* record := signal_protocol_session_load_session (cp_remote_address cipher) in
  let state := rec_state record in
  let* chain_key := require (session_state_get_sender_chain_key state) SG_ERR_UNKNOWN in
  let* message_keys := ratchet_chain_key_get_message_keys chain_key in
  let* sender_ephemeral := require (session_state_get_sender_ratchet_key state) SG_ERR_UNKNOWN in
  let previous_counter := st_previous_counter state in
  let session_version := st_session_version state in
  let* ciphertext := session_cipher_get_ciphertext session_version message_keys padded_message in
  let chain_key_index := ratchet_chain_key_get_index chain_key in
  let* local_identity_key := require (st_local_identity_public state) SG_ERR_UNKNOWN in
  let* remote_identity_key := require (st_remote_identity_public state) SG_ERR_UNKNOWN in
  let* message := signal_message_create session_version (mac_key message_keys) sender_ephemeral
    chain_key_index previous_counter ciphertext (Some local_identity_key) (Some remote_identity_key) in
  let* encrypted_message :=
    if st_has_pending_pre_key state then
      let pending := st_pending_pre_key state in
      let* base_key := require (ppk_base_key pending) SG_ERR_UNKNOWN in
      let* m := pre_key_signal_message_create session_version (st_local_registration_id state)
        (ppk_pre_key_id pending) (ppk_signed_pre_key_id pending) base_key local_identity_key message in
      ret (CiphertextPreKey m)
    else ret (CiphertextSignal message) in
  let* next_chain_key := ratchet_chain_key_create_next chain_key in
  let* state := session_state_set_sender_chain_key next_chain_key state in
  let* _ := signal_protocol_session_store_session (cp_remote_address cipher)
    (session_record_set_state record state) in
  ret encrypted_message.

Definition session_cipher_get_or_create_chain_key (state : session_state) (their_ephemeral : ec_public_key)
    : M U (ratchet_chain_key * session_state) :=
  match session_state_get_receiver_chain_key state their_ephemeral with
  | Some result_key => ret (result_key, state)
  | None =>
      let* root_key := require (st_root_key state) SG_ERR_UNKNOWN in
      let* our_ephemeral := require (sc_ratchet_key_pair (st_sender_chain state)) SG_ERR_UNKNOWN in
      let* receiver := ratchet_root_key_create_chain root_key (Some their_ephemeral)
        (Some (ec_key_pair_get_private our_ephemeral)) in
      let* our_new_ephemeral := curve_generate_key_pair in
      let* sender := ratchet_root_key_create_chain (fst receiver) (Some their_ephemeral)
        (Some (ec_key_pair_get_private our_new_ephemeral)) in
      let state := session_state_set_root_key (fst sender) state in
      let* state := session_state_add_receiver_chain state their_ephemeral (snd receiver) in
      let* previous := require (session_state_get_sender_chain_key state) SG_ERR_UNKNOWN in
      let index := ratchet_chain_key_get_index previous in
      let index := if 0 <? index then index - 1 else index in
      let state := session_state_set_previous_counter index state in
      let state := session_state_set_sender_chain our_new_ephemeral (snd sender) state in
      ret (snd receiver, state)
  end.

(** [while(index(cur_chain_key) < counter)]: store the keys of the messages
    that were skipped. *)
Fixpoint skip_loop (fuel : nat) (their_ephemeral : ec_public_key) (ctr : Z)
    (cur_chain_key : ratchet_chain_key) (state : session_state)
    : M U (ratchet_chain_key * session_state) :=
  if ratchet_chain_key_get_index cur_chain_key <? ctr then
    match fuel with
    | O => crash OutOfFuel
    | S fuel' =>
        let* message_keys := ratchet_chain_key_get_message_keys cur_chain_key in
        let* state := session_state_set_message_keys state their_ephemeral message_keys in
        let* next_chain_key := ratchet_chain_key_create_next cur_chain_key in
        skip_loop fuel' their_ephemeral ctr next_chain_key state
    end
  else ret (cur_chain_key, state).

Definition session_cipher_get_or_create_message_keys (state : session_state)
    (their_ephemeral : ec_public_key) (chain_key : ratchet_chain_key) (ctr : Z)
    : M U (ratchet_message_keys * session_state) :=
  if ctr <? ratchet_chain_key_get_index chain_key then
    match session_state_remove_message_keys state their_ephemeral ctr with
    | (Some message_keys, state) => ret (message_keys, state)
    | (None, _) => fail SG_ERR_DUPLICATE_MESSAGE
    end
  else if MAX_FORWARD <? u32 (ctr - ratchet_chain_key_get_index chain_key) then fail SG_ERR_INVALID_MESSAGE
  else
    let* '(cur_chain_key, state) :=
      skip_loop (Z.to_nat MAX_FORWARD) their_ephemeral ctr chain_key state in
    let* next_chain_key := ratchet_chain_key_create_next cur_chain_key in
    let* state := session_state_set_receiver_chain_key state their_ephemeral next_chain_key in
    let* message_keys := ratchet_chain_key_get_message_keys cur_chain_key in
    ret (message_keys, state).

Definition session_cipher_decrypt_from_state_and_signal_message (state : session_state)
    (ciphertext : signal_message) : M U (bytes * session_state) :=
  if negb (st_has_sender_chain state) then fail SG_ERR_INVALID_MESSAGE
  else if negb (sgm_message_version ciphertext =? st_session_version state) then fail SG_ERR_INVALID_MESSAGE
  else
    let their_ephemeral := sgm_sender_ratchet_key ciphertext in
    let* '(chain_key, state) := session_cipher_get_or_create_chain_key state their_ephemeral in
    let* '(message_keys, state) := session_cipher_get_or_create_message_keys state their_ephemeral
      chain_key (sgm_counter ciphertext) in
    let* remote_identity_key := require (st_remote_identity_public state) SG_ERR_UNKNOWN in
    let* local_identity_key := require (st_local_identity_public state) SG_ERR_UNKNOWN in
    let* result := signal_message_verify_mac ciphertext (Some remote_identity_key)
      (Some local_identity_key) (mac_key message_keys) in
    if negb (result =? 1) then fail SG_ERR_INVALID_MESSAGE
    else
      let* plaintext := session_cipher_get_plaintext (sgm_message_version ciphertext) message_keys
        (sgm_ciphertext ciphertext) in
      ret (plaintext, session_state_clear_unacknowledged_pre_key_message state).

(** Try a copy of a state: [None] when the message is not valid in it. *)
Definition try_state (state : session_state) (ciphertext : signal_message)
    : M U (option (bytes * session_state)) :=
  let* state_copy := session_state_copy state in
  let* r := attempt (session_cipher_decrypt_from_state_and_signal_message state_copy ciphertext) in
  match r with
  | inl p => ret (Some p)
  | inr e => if e =? SG_ERR_INVALID_MESSAGE then ret None else fail e
  end.

(** The archived states in order, from the [i]th on. *)
Fixpoint try_previous_states (record : session_record) (i : nat) (l : list session_state)
    (ciphertext : signal_message) : M U (bytes * session_record) :=
  match l with
  | [] => fail SG_ERR_INVALID_MESSAGE
  | state :: l' =>
      let* r := try_state state ciphertext in
      match r with
      | Some (plaintext, state_copy) =>
          let* record := session_record_promote_state
            (session_record_get_previous_states_remove record i) state_copy in
          ret (plaintext, record)
      | None => try_previous_states record (S i) l' ciphertext
      end
  end.

Definition session_cipher_decrypt_from_record_and_signal_message (record : session_record)
    (ciphertext : signal_message) : M U (bytes * session_record) :=
  let* r := try_state (rec_state record) ciphertext in
  match r with
  | Some (plaintext, state_copy) => ret (plaintext, session_record_set_state record state_copy)
  | None => try_previous_states record 0 (rec_previous_states record) ciphertext
  end.

(** The callback may do anything with the stores, but not use the cipher:
    [cp_inside_callback] is set around the call. *)
Definition session_cipher_decrypt_callback (cipher : session_cipher U) (plaintext : bytes) : M U unit :=
  match cp_decrypt_callback cipher with
  | Some callback =>
      let* result := callback plaintext in
      if result <? 0 then fail result else ret tt
  | None => ret tt
  end.

Definition session_cipher_decrypt_pre_key_signal_message (cipher : session_cipher U)
    (ciphertext : pre_key_signal_message) : M U bytes :=
  if cp_inside_callback cipher then fail SG_ERR_INVAL else
  let address := cp_remote_address cipher in
  let* record := signal_protocol_session_load_session address in
  let* '(record, unsigned_pre_key_id) :=
    session_builder_process_pre_key_signal_message (cp_builder cipher) record ciphertext in
  let* '(plaintext, record) :=
    session_cipher_decrypt_from_record_and_signal_message record (pkm_message ciphertext) in
  session_cipher_decrypt_callback cipher plaintext ;;;
  let* _ := signal_protocol_session_store_session address record in
  match unsigned_pre_key_id with
  | Some id => let* _ := signal_protocol_pre_key_remove_key id in ret plaintext
  | None => ret plaintext
  end.

Definition session_cipher_decrypt_signal_message (cipher : session_cipher U)
    (ciphertext : signal_message) : M U bytes :=
  if cp_inside_callback cipher then fail SG_ERR_INVAL else
  let address := cp_remote_address cipher in
  let* contains := signal_protocol_session_contains_session address in
  if contains =? 0 then fail SG_ERR_NO_SESSION
  else
    let* record := signal_protocol_session_load_session address in
    let* '(plaintext, record) :=
      session_cipher_decrypt_from_record_and_signal_message record ciphertext in
    session_cipher_decrypt_callback cipher plaintext ;;;
    let* _ := signal_protocol_session_store_session address record in
    ret plaintext.

Definition session_cipher_get_remote_registration_id (cipher : session_cipher U) : M U Z :=
  let* record := signal_protocol_session_load_session (cp_remote_address cipher) in
  ret (st_remote_registration_id (rec_state record)).

(** A result of [contains_session] other than 0 and 1 is returned as it is,
    with the version left at 0. *)
Definition session_cipher_get_session_version (cipher : session_cipher U) : M U Z :=
  let* contains := signal_protocol_session_contains_session (cp_remote_address cipher) in
  if contains =? 0 then fail SG_ERR_NO_SESSION
  else if negb (contains =? 1) then ret 0
  else
    let* record := signal_protocol_session_load_session (cp_remote_address cipher) in
    ret (st_session_version (rec_state record)).
End Cipher.
