(* ===== verification/StateMachine.v ===== *)
(** Session states as a transition system: the operations of session_state.c,
    the handshakes of ratchet.c and the decryption of session_cipher.c are its
    steps, and the bounds on the receiver chains and on the stored message
    keys are an invariant of every state it reaches, whatever the messages,
    the random source and the allocator do. *)
From stdpp Require Import base list gmap relations.
From Stdlib Require Import ZArith Lia.
From S2P Require Import Prelude Buffers Hkdf Curve Sample Vpool Protobuf Messages Ratchet SessionState.
From S2P Require Import SessionStorage RatchetSession SessionRecord Protocol PreKeys Store Scenario.
From S2P Require Import SessionCipher.
#[local] Open Scope Z_scope.
#[local] Open Scope signal_scope.

Section Bounded.
Context {U : Type} `{CP : CryptoProvider} `{CV : Curve25519}.

(** The setters of the other fields leave the chains alone. *)
Lemma bounded_scalar (f : session_state -> session_state) s :
  (forall t, st_receiver_chains (f t) = st_receiver_chains t) -> bounded s -> bounded (f s).
Proof. intros H. apply bounded_same_chains, H. Qed.

Ltac bounded_solve :=
  repeat match goal with
  | |- bounded (session_state_set_session_version _ _) => apply bounded_scalar; [by intros []|]
  | |- bounded (session_state_set_local_identity_key _ _) => apply bounded_scalar; [by intros []|]
  | |- bounded (session_state_set_remote_identity_key _ _) => apply bounded_scalar; [by intros []|]
  | |- bounded (session_state_set_root_key _ _) => apply bounded_scalar; [by intros []|]
  | |- bounded (session_state_set_previous_counter _ _) => apply bounded_scalar; [by intros []|]
  | |- bounded (session_state_set_sender_chain _ _ _) => apply bounded_scalar; [by intros []|]
  | |- bounded (session_state_clear_unacknowledged_pre_key_message _) => apply bounded_scalar; [by intros []|]
  end; try done.

Lemma bounded_chain_key s k : bounded s ->
  post (session_cipher_get_or_create_chain_key (U := U) s k) (fun r => bounded (snd r)).
Proof.
  intros H. unfold session_cipher_get_or_create_chain_key.
  destruct (session_state_get_receiver_chain_key s k); [by apply post_ret|].
  do 5 (apply post_bind_any; intros).
  eapply post_bind; [apply bounded_add_receiver_chain; bounded_solve|]. intros s' Hs. post_solve.
  simpl. bounded_solve.
Qed.

Lemma bounded_skip_loop fuel k ctr : forall ck s, bounded s ->
  post (skip_loop (U := U) fuel k ctr ck s) (fun r => bounded (snd r)).
Proof.
  induction fuel as [|fuel IH]; intros ck s H; cbn [skip_loop];
    (destruct (_ <? _); [|by apply post_ret]); [apply post_crash|].
  apply post_bind_any. intros mk. eapply post_bind; [by apply bounded_set_message_keys|].
  intros s' Hs. post_solve. by apply IH.
Qed.

Lemma bounded_message_keys s k ck ctr : bounded s ->
  post (session_cipher_get_or_create_message_keys (U := U) s k ck ctr) (fun r => bounded (snd r)).
Proof.
  intros H. unfold session_cipher_get_or_create_message_keys. destruct (_ <? _).
  - pose proof (bounded_remove_message_keys s k ctr H) as Hr.
    destruct (session_state_remove_message_keys s k ctr) as [[mk|] s']; post_solve. exact Hr.
  - destruct (_ <? _); [apply post_fail|].
    eapply post_bind; [by apply bounded_skip_loop|]. intros [ck' s'] H'. apply post_bind_any. intros nx.
    eapply post_bind; [by apply bounded_set_receiver_chain_key|]. intros s2 H2. post_solve. done.
Qed.

Lemma bounded_decrypt s m : bounded s ->
  post (session_cipher_decrypt_from_state_and_signal_message (U := U) s m) (fun r => bounded (snd r)).
Proof.
  intros H. unfold session_cipher_decrypt_from_state_and_signal_message.
  destruct (negb _); [apply post_fail|]. destruct (negb _); [apply post_fail|].
  eapply post_bind; [by apply bounded_chain_key|]. intros [ck s1] H1.
  eapply post_bind; [by apply bounded_message_keys|]. intros [mk s2] H2. post_solve. simpl. bounded_solve.
Qed.

Lemma bounded_alice s p : bounded s -> post (ratcheting_session_alice_initialize (U := U) s p) bounded.
Proof.
  intros H. unfold ratcheting_session_alice_initialize.
  do 6 (apply post_bind_any; intros). destruct (vpool_is_empty _); [apply post_fail|].
  do 2 (apply post_bind_any; intros).
  eapply (post_bind _ _ (fun r => match r with inl s' => bounded s' | inr _ => True end)).
  - intros w r w' E. unfold attempt in E.
    match type of E with context [session_state_add_receiver_chain ?s0 ?k ?c] =>
      assert (bounded s0) as H0 by bounded_solve;
      pose proof (bounded_add_receiver_chain (U := U) s0 k c H0 w) as Hadd;
      destruct (session_state_add_receiver_chain s0 k c w) as [[s'|e|g] w1] end;
      inversion E; subst; [|done]. by eapply Hadd.
  - intros [s'|e] Hr; post_solve; bounded_solve.
Qed.

Lemma bounded_bob s p : bounded s -> post (ratcheting_session_bob_initialize (U := U) s p) bounded.
Proof. intros H. unfold ratcheting_session_bob_initialize. post_solve; bounded_solve. Qed.

Lemma bounded_symmetric s p : bounded s -> post (ratcheting_session_symmetric_initialize (U := U) s p) bounded.
Proof.
  intros H. unfold ratcheting_session_symmetric_initialize.
  post_solve; [by apply bounded_alice|by apply bounded_bob].
Qed.

(** The steps of a session state. *)
Inductive step : session_state -> session_state -> Prop :=
| step_alice s p (w : world U) s' w' :
    ratcheting_session_alice_initialize s p w = (Ok s', w') -> step s s'
| step_bob s p (w : world U) s' w' :
    ratcheting_session_bob_initialize s p w = (Ok s', w') -> step s s'
| step_symmetric s p (w : world U) s' w' :
    ratcheting_session_symmetric_initialize s p w = (Ok s', w') -> step s s'
| step_decrypt s m (w : world U) p s' w' :
    session_cipher_decrypt_from_state_and_signal_message s m w = (Ok (p, s'), w') -> step s s'
| step_add_receiver_chain s k ck (w : world U) s' w' :
    session_state_add_receiver_chain s k ck w = (Ok s', w') -> step s s'
| step_set_receiver_chain_key s k ck (w : world U) s' w' :
    session_state_set_receiver_chain_key s k ck w = (Ok s', w') -> step s s'
| step_set_message_keys s k mk (w : world U) s' w' :
    session_state_set_message_keys s k mk w = (Ok s', w') -> step s s'
| step_remove_message_keys s k ctr : step s (snd (session_state_remove_message_keys s k ctr))
| step_set_sender_chain_key s ck (w : world U) s' w' :
    session_state_set_sender_chain_key ck s w = (Ok s', w') -> step s s'
| step_set_sender_chain s kp ck : step s (session_state_set_sender_chain kp ck s)
| step_set_session_version s v : step s (session_state_set_session_version v s)
| step_set_local_identity_key s k : step s (session_state_set_local_identity_key k s)
| step_set_remote_identity_key s k : step s (session_state_set_remote_identity_key k s)
| step_set_root_key s rk : step s (session_state_set_root_key rk s)
| step_set_previous_counter s c : step s (session_state_set_previous_counter c s)
| step_set_pending_key_exchange s q b r i : step s (session_state_set_pending_key_exchange q b r i s)
| step_set_unacknowledged s i j k : step s (session_state_set_unacknowledged_pre_key_message i j k s)
| step_clear_unacknowledged s : step s (session_state_clear_unacknowledged_pre_key_message s)
| step_set_remote_registration_id s i : step s (session_state_set_remote_registration_id i s)
| step_set_local_registration_id s i : step s (session_state_set_local_registration_id i s)
| step_set_needs_refresh s b : step s (session_state_set_needs_refresh b s)
| step_set_alice_base_key s k : step s (session_state_set_alice_base_key k s)
(** storing the state and loading it again *)
| step_store s (w : world U) s' w' : mem_ok w -> storable s ->
    session_state_copy s w = (Ok s', w') -> step s s'.

Lemma step_bounded s s' : step s s' -> bounded s -> bounded s'.
Proof.
  intros Hst Hb. destruct Hst as [s p w s' w' E|s p w s' w' E|s p w s' w' E|s m w p s' w' E|s k ck w s' w' E
    |s k ck w s' w' E|s k mk w s' w' E|s k ctr|s ck w s' w' E| | | | | | | | | | | | | |s w s' w' Hm Hs E];
    try (apply bounded_scalar; [by intros []|done]).
  - by eapply bounded_alice.
  - by eapply bounded_bob.
  - by eapply bounded_symmetric.
  - exact (bounded_decrypt s m Hb _ _ _ E).
  - by eapply bounded_add_receiver_chain.
  - by eapply bounded_set_receiver_chain_key.
  - by eapply bounded_set_message_keys.
  - by apply bounded_remove_message_keys.
  - unfold session_state_set_sender_chain_key in E. destruct (st_has_sender_chain s); [|done].
    inversion E; subst. eapply bounded_same_chains; [|exact Hb]. by destruct s.
  - rewrite session_state_copy_ok in E by done. by inversion E; subst.
Qed.

(** C20: memory stays bounded.  Every state that the operations of
    session_state.c, the three handshakes and the decryption of messages reach
    from a new session has at most 5 receiver chains with at most 2000 stored
    message keys each, whatever the messages, the keys, the random source and
    the failures of the allocator are. *)
Theorem session_memory_is_bounded s : rtc step session_state_init s ->
  (length (st_receiver_chains s) <= 5)%nat /\
  Forall (fun c => Z.of_nat (length (rc_message_keys c)) <= 2000) (st_receiver_chains s).
Proof.
  intros H. assert (bounded s) as [H1 H2].
  { revert H. cut (forall t, bounded t -> rtc step t s -> bounded s); [intros Hc; apply Hc, bounded_init|].
    intros t Ht H. induction H as [|t u s Htu _ IH]; [done|]. apply IH. by eapply step_bounded. }
  split; [exact H1|]. eapply Forall_impl; [exact H2|]. intros c Hc. unfold MAX_MESSAGE_KEYS in Hc. lia.
Qed.
End Bounded.

Definition one_chain : session_state :=
  set_receiver_chains [ReceiverChain (Some (ec_key_pair_get_public (sample_pair 3)))
    (Some (RatchetChainKey (HkdfContext 1) [] 0)) []] session_state_init.

Lemma session_memory_is_bounded_witness : (length (st_receiver_chains one_chain) <= 5)%nat.
Proof.
  apply (session_memory_is_bounded (U := unit) one_chain). eapply rtc_l; [|apply rtc_refl].
  eapply (step_add_receiver_chain _ (ec_key_pair_get_public (sample_pair 3))
    (RatchetChainKey (HkdfContext 1) [] 0) (fresh_world tt)). reflexivity.
Defined.
