(* ===== verification/Groups.v ===== *)
(** group_session_builder.c and group_cipher.c, with the calls of the sender
    key store of signal_protocol.c: the sender of a group makes a chain and
    distributes it; every message is encrypted under the key of one iteration
    and signed, and the receivers follow the chain. *)
From stdpp Require Import base list gmap.
From Stdlib Require Import ZArith Lia.
From S2P Require Import Prelude Buffers Hkdf Curve Sample Protobuf Messages Ratchet SessionState.
From S2P Require Import SessionStorage SenderKeys RatchetSession SessionRecord Protocol PreKeys Store.
From S2P Require Import Scenario SessionCipher.
#[local] Open Scope Z_scope.
#[local] Open Scope signal_scope.

(** [gc_inside_callback] is set while the decryption callback runs. *)
Record group_cipher (U : Type) : Type := GroupCipher {
  gc_sender_key_id : signal_protocol_sender_key_name;
  gc_decrypt_callback : option (bytes -> M U Z);
  gc_inside_callback : bool
}.
Arguments GroupCipher {U}.
Arguments gc_sender_key_id {U}.
Arguments gc_decrypt_callback {U}.
Arguments gc_inside_callback {U}.

Section Groups.
Context {U : Type} `{CP : CryptoProvider} `{CV : Curve25519} `{ST : Stores U}.

(** * The sender key store *)

Definition signal_protocol_sender_key_store_key (sender_key_name : signal_protocol_sender_key_name)
    (record : sender_key_record) : M U Z :=
  let* buffer := sender_key_record_serialize record in
  call_ (store_sender_key sender_key_name buffer).

Definition signal_protocol_sender_key_load_key (sender_key_name : signal_protocol_sender_key_name)
    : M U sender_key_record :=
  let* r := call (load_sender_key sender_key_name) in
  match r with
  | (result, buffer) =>
      if result =? 0 then
        match buffer with
        | Some _ => fail SG_ERR_UNKNOWN
        | None => sender_key_record_create
        end
      else if result =? 1 then
        match buffer with
        | None => fail (-1)
        | Some b => sender_key_record_deserialize b
        end
      else fail SG_ERR_UNKNOWN
  end.

(** * group_session_builder.c *)

Definition group_session_builder_process_session (sender_key_name : signal_protocol_sender_key_name)
    (distribution_message : sender_key_distribution_message) : M U Z :=
  let* record := signal_protocol_sender_key_load_key sender_key_name in
  let* record := sender_key_record_add_sender_key_state record (sdm_id distribution_message)
    (sdm_iteration distribution_message) (sdm_chain_key distribution_message)
    (sdm_signature_key distribution_message) in
  signal_protocol_sender_key_store_key sender_key_name record.

Definition group_session_builder_create_session (sender_key_name : signal_protocol_sender_key_name)
    : M U sender_key_distribution_message :=
  let* record := signal_protocol_sender_key_load_key sender_key_name in
  let* record :=
    if sender_key_record_is_empty record then
      let* sender_key_id := signal_protocol_key_helper_generate_sender_key_id in
      let* sender_key := signal_protocol_key_helper_generate_sender_key in
      let* sender_signing_key := signal_protocol_key_helper_generate_sender_signing_key in
      let* record := sender_key_record_set_sender_key_state record sender_key_id 0 (Some sender_key)
        sender_signing_key in
      let* _ := signal_protocol_sender_key_store_key sender_key_name record in
      ret record
    else ret record in
  let* state := sender_key_record_get_sender_key_state record in
  sender_key_distribution_message_create (sst_key_id state) (chn_iteration (sst_chain_key state))
    (chn_chain_key (sst_chain_key state)) (sst_signature_public_key state).

(** * group_cipher.c *)

Definition group_cipher_create (sender_key_id : signal_protocol_sender_key_name) : M U (group_cipher U) :=
  malloc ;;; ret (GroupCipher sender_key_id None false).

Definition group_cipher_set_decryption_callback (cipher : group_cipher U)
    (callback : option (bytes -> M U Z)) : group_cipher U :=
  GroupCipher (gc_sender_key_id cipher) callback (gc_inside_callback cipher).

(** [state] points into [record]: setting its chain key changes the head of
    the states. *)
Definition group_cipher_encrypt (cipher : group_cipher U) (padded_plaintext : bytes)
    : M U sender_key_message :=
  map_err (fun e => if e =? SG_ERR_INVALID_KEY_ID then SG_ERR_NO_SESSION else e) (
    if gc_inside_callback cipher then fail SG_ERR_INVAL else
    let* record := signal_protocol_sender_key_load_key (gc_sender_key_id cipher) in
    let* state := sender_key_record_get_sender_key_state record in
    match sst_signature_private_key state with
    | None => fail SG_ERR_NO_SESSION
    | Some signing_key_private =>
        let* sender_key := sender_chain_key_create_message_key (sst_chain_key state) in
        let* ciphertext := signal_encrypt SG_CIPHER_AES_CBC_PKCS5 (msg_cipher_key sender_key)
          (msg_iv sender_key) padded_plaintext in
        let* result_message := sender_key_message_create (sst_key_id state) (msg_iteration sender_key)
          ciphertext signing_key_private in
        let* next_chain_key := sender_chain_key_create_next (sst_chain_key state) in
        let state := sender_key_state_set_chain_key next_chain_key state in
        let* _ := signal_protocol_sender_key_store_key (gc_sender_key_id cipher)
          (SenderKeyRecord (state :: tail (srec_states record))) in
        ret result_message
    end).

(** [while(iteration(chain_key) < iteration)]: store the keys of the messages
    that were skipped. *)
Fixpoint group_skip_loop (fuel : nat) (iteration : Z) (chain_key : sender_chain_key)
    (state : sender_key_state) : M U (sender_chain_key * sender_key_state) :=
  if chn_iteration chain_key <? iteration then
    match fuel with
    | O => crash OutOfFuel
    | S fuel' =>
        let* message_key := sender_chain_key_create_message_key chain_key in
        let* state := sender_key_state_add_sender_message_key state message_key in
        let* next_chain_key := sender_chain_key_create_next chain_key in
        group_skip_loop fuel' iteration next_chain_key state
    end
  else ret (chain_key, state).

Definition group_cipher_get_sender_key (state : sender_key_state) (iteration : Z)
    : M U (sender_message_key * sender_key_state) :=
  let chain_key := sst_chain_key state in
  if iteration <? chn_iteration chain_key then
    if sender_key_state_has_sender_message_key state iteration then
      match sender_key_state_remove_sender_message_key state iteration with
      | (Some result_key, state) => ret (result_key, state)
      | (None, _) => fail SG_ERR_UNKNOWN
      end
    else fail SG_ERR_DUPLICATE_MESSAGE
  else if MAX_FORWARD <? u32 (iteration - chn_iteration chain_key) then fail SG_ERR_INVALID_MESSAGE
  else
    let* '(chain_key, state) := group_skip_loop (Z.to_nat MAX_FORWARD) iteration chain_key state in
    let* next_chain_key := sender_chain_key_create_next chain_key in
    let state := sender_key_state_set_chain_key next_chain_key state in
    let* result_key := sender_chain_key_create_message_key chain_key in
    ret (result_key, state).

Definition group_cipher_decrypt_callback (cipher : group_cipher U) (plaintext : bytes) : M U unit :=
  match gc_decrypt_callback cipher with
  | Some callback =>
      let* result := callback plaintext in
      if result <? 0 then fail result else ret tt
  | None => ret tt
  end.

Definition group_cipher_decrypt (cipher : group_cipher U) (ciphertext : sender_key_message) : M U bytes :=
  map_err (fun e => if (e =? SG_ERR_INVALID_KEY) || (e =? SG_ERR_INVALID_KEY_ID)
                    then SG_ERR_INVALID_MESSAGE else e) (
    if gc_inside_callback cipher then fail SG_ERR_INVAL else
    let* record := signal_protocol_sender_key_load_key (gc_sender_key_id cipher) in
    if sender_key_record_is_empty record then fail SG_ERR_NO_SESSION else
    let* state := sender_key_record_get_sender_key_state_by_id record (snm_key_id ciphertext) in
    sender_key_message_verify_signature ciphertext (sst_signature_public_key state) ;;;
    let* '(sender_key, state) := group_cipher_get_sender_key state (snm_iteration ciphertext) in
    let* result_buf := signal_decrypt SG_CIPHER_AES_CBC_PKCS5 (msg_cipher_key sender_key)
      (msg_iv sender_key) (snm_ciphertext ciphertext) in
    group_cipher_decrypt_callback cipher result_buf ;;;
    let* _ := signal_protocol_sender_key_store_key (gc_sender_key_id cipher)
      (SenderKeyRecord (update_sender_state (snm_key_id ciphertext) state (srec_states record))) in
    ret result_buf).
End Groups.

(** * The specification of a receiver *)

Section Spec.
Context `{CL : CryptoLaws}.

(** The keys of the first [n] iterations of a chain. *)
Definition sender_skipped (n : nat) (ck : sender_chain_key) : list sender_message_key :=
  map (fun i => SenderKey.message_key (SenderKey.nth_chain i ck)) (seq 0 n).

(** The key a receiver uses for an iteration and its state afterwards, or the
    error: behind the chain only the stored keys are left; ahead of it, by at
    most 2000, the chain moves just past the iteration and the keys in between
    are stored, the oldest stored keys making room beyond 2000. *)
Definition sender_result (s : sender_key_state) (iteration : Z)
    : (sender_message_key * sender_key_state) + Z :=
  let ck := sst_chain_key s in
  if iteration <? chn_iteration ck then
    match take_sender_key iteration (sst_message_keys s) with
    | Some (k, l) => inl (k, set_sender_message_keys l s)
    | None => inr SG_ERR_DUPLICATE_MESSAGE
    end
  else if 2000 <? iteration - chn_iteration ck then inr SG_ERR_INVALID_MESSAGE
  else
    let n := Z.to_nat (iteration - chn_iteration ck) in
    inl (SenderKey.message_key (SenderKey.nth_chain n ck),
         SenderKeyState (sst_key_id s) (SenderKey.nth_chain (S n) ck) (sst_signature_public_key s)
           (sst_signature_private_key s)
           (trim MAX_MESSAGE_KEYS (sst_message_keys s ++ sender_skipped n ck))).
End Spec.

(** * Lemmas *)

Lemma take_sender_key_spec it l : match take_sender_key it l with
  | Some (k, r) => exists l1 l2, l = l1 ++ k :: l2 /\ r = l1 ++ l2 /\ msg_iteration k = it /\
                   existsb (fun k => msg_iteration k =? it) l = true
  | None => existsb (fun k => msg_iteration k =? it) l = false
  end.
Proof.
  induction l as [|k l IH]; cbn [take_sender_key existsb]; [done|].
  destruct (Z.eqb_spec (msg_iteration k) it) as [E|E]; [by exists [], l|].
  destruct (take_sender_key it l) as [[k' r]|]; [|done].
  destruct IH as (l1 & l2 & -> & -> & Ek & Hl). by exists (k :: l1), l2.
Qed.

Section Run.
Context {U : Type} `{CL : CryptoLaws}.
Implicit Types w : world U.

Lemma sender_skipped_S n ck :
  sender_skipped (S n) ck = SenderKey.message_key ck :: sender_skipped n (SenderKey.next_chain ck).
Proof.
  unfold sender_skipped. cbn [seq map]. f_equal. rewrite <- seq_shift, map_map. apply map_ext.
  intros i. by rewrite sender_nth_S.
Qed.

Lemma sender_skipped_ok n ck : sender_chain_ok ck -> Forall message_key_ok (sender_skipped n ck).
Proof.
  intros H. apply Forall_map, Forall_forall. intros i _. apply message_key_ok_spec.
  by apply sender_chain_ok_nth.
Qed.

Lemma group_skip_loop_ok n : forall fuel it ck s w, mem_ok w -> (n <= fuel)%nat -> sender_chain_ok ck ->
  chn_iteration ck + Z.of_nat n = it -> is_u32 it -> (length (sst_message_keys s) <= MAX_MESSAGE_KEYS)%nat ->
  group_skip_loop fuel it ck s w = (Ok (SenderKey.nth_chain n ck,
    set_sender_message_keys (trim MAX_MESSAGE_KEYS (sst_message_keys s ++ sender_skipped n ck)) s), w).
Proof.
  induction n as [|n IH]; intros fuel it ck s w Hm Hf Hck Hit Hu Hl.
  - assert (group_skip_loop fuel it ck s = ret (ck, s)) as ->.
    { destruct fuel; cbn [group_skip_loop]; by rewrite (proj2 (Z.ltb_ge _ _)) by lia. }
    unfold sender_skipped. cbn [seq map]. rewrite app_nil_r, trim_id by done. by destruct s.
  - destruct fuel as [|fuel]; [lia|]. cbn [group_skip_loop]. rewrite (proj2 (Z.ltb_lt _ _)) by lia.
    erewrite bind_ok by by apply create_message_key_ok.
    erewrite bind_ok; cycle 1.
    { unfold sender_key_state_add_sender_message_key. by erewrite bind_ok by by apply malloc_ok. }
    erewrite bind_ok by by apply create_next_sender_ok.
    destruct Hck as [Hi Hk].
    assert (chn_iteration (SenderKey.next_chain ck) = chn_iteration ck + 1) as En.
    { cbn. apply u32_small. unfold is_u32 in *. lia. }
    rewrite (IH fuel it); [|done|lia|apply sender_chain_ok_next|lia|done|].
    + cbn [set_sender_message_keys sst_message_keys]. rewrite trim_app_trim, <- app_assoc, sender_nth_S.
      by rewrite sender_skipped_S.
    + cbn [set_sender_message_keys sst_message_keys]. rewrite length_trim. lia.
Qed.

Lemma sender_result_ok s it k s' : sender_state_ok s -> sender_result s it = inl (k, s') ->
  sender_state_ok s' /\ message_key_ok k.
Proof.
  intros [H1 H2 H3 H4 H5 H6]. unfold sender_result. destruct (_ <? _).
  - pose proof (take_sender_key_spec it (sst_message_keys s)) as Ht.
    destruct (take_sender_key it (sst_message_keys s)) as [[k0 l]|]; [|done].
    destruct Ht as (l1 & l2 & El & -> & _). intros [= <- <-]. rewrite El in H5, H6.
    apply Forall_app in H5 as [Ha [Hk Hb]%Forall_cons].
    split; [|done]. split; cbn; try done; [by apply Forall_app|]. rewrite length_app in *. cbn in *. lia.
  - destruct (_ <? _); [done|]. intros [= <- <-]. split.
    + split; try done; [apply sender_chain_ok_next| |].
      * cbn [sst_message_keys]. apply Forall_trim, Forall_app. split; [done|by apply sender_skipped_ok].
      * cbn [sst_message_keys]. rewrite length_trim. lia.
    + apply message_key_ok_spec. by apply sender_chain_ok_nth.
Qed.

Lemma get_sender_key_ok s it w : mem_ok w -> sender_state_ok s -> is_u32 it ->
  group_cipher_get_sender_key s it w =
  (match sender_result s it with inl r => Ok r | inr e => Err e end, w).
Proof.
  intros Hm [H1 H2 H3 H4 H5 H6] Hit. unfold group_cipher_get_sender_key, sender_result.
  destruct (Z.ltb_spec it (chn_iteration (sst_chain_key s))) as [Hlt|Hge].
  - unfold sender_key_state_has_sender_message_key, sender_key_state_remove_sender_message_key.
    pose proof (take_sender_key_spec it (sst_message_keys s)) as Ht.
    destruct (take_sender_key it (sst_message_keys s)) as [[k l]|].
    + destruct Ht as (_ & _ & _ & _ & _ & ->). done.
    + by rewrite Ht.
  - pose proof (sc_ok_iteration _ H2) as Hi.
    rewrite u32_small by (unfold is_u32 in *; lia). unfold MAX_FORWARD.
    destruct (Z.ltb_spec 2000 (it - chn_iteration (sst_chain_key s))); [done|].
    set (n := Z.to_nat (it - chn_iteration (sst_chain_key s))).
    erewrite bind_ok by (apply (group_skip_loop_ok n); [done|lia|done|lia|done|done]).
    cbv beta iota. erewrite bind_ok by by apply create_next_sender_ok.
    by erewrite bind_ok by by apply create_message_key_ok.
Qed.
End Run.

(** ** The stores *)

Section Stores.
Context {U : Type} `{CL : CryptoLaws} `{VL : CurveLaws} `{SL : StoreLaws U}.
Implicit Types w : world U.

Lemma load_sender_key_some n r w : mem_ok w -> sender_record_ok r ->
  s_sender_keys (view (w_user w)) !! n = Some (sender_record_bytes r) ->
  signal_protocol_sender_key_load_key n w = (Ok r, w).
Proof.
  intros Hm Hr E. unfold signal_protocol_sender_key_load_key. erewrite bind_ok.
  2:{ apply call_pure; [|shelve]. rewrite load_sender_key_law, E. reflexivity. Unshelve. lia. }
  by apply sender_key_record_deserialize_ok.
Qed.

Lemma load_sender_key_none n w : mem_ok w -> s_sender_keys (view (w_user w)) !! n = None ->
  signal_protocol_sender_key_load_key n w = (Ok (SenderKeyRecord []), w).
Proof.
  intros Hm E. unfold signal_protocol_sender_key_load_key. erewrite bind_ok.
  2:{ apply call_pure; [|shelve]. rewrite load_sender_key_law, E. reflexivity. Unshelve. lia. }
  simpl. unfold sender_key_record_create. by erewrite bind_ok by by apply malloc_ok.
Qed.

Lemma store_sender_key_ok n r w : mem_ok w -> sender_record_ok r -> exists u,
  signal_protocol_sender_key_store_key n r w = (Ok 0, with_user w u) /\
  view u = put_sender_key n (sender_record_bytes r) (view (w_user w)).
Proof.
  intros Hm Hr. destruct (store_sender_key_law n (sender_record_bytes r) (w_user w)) as (u & E & Hv).
  exists u. split; [|done]. unfold signal_protocol_sender_key_store_key.
  erewrite bind_ok by by apply sender_key_record_serialize_ok. unfold call_. by rewrite E.
Qed.

(** What a store has for a sender. *)
Record group_holds (u : U) (n : signal_protocol_sender_key_name) (r : sender_key_record) : Prop := {
  gh_stored : s_sender_keys (view u) !! n = Some (sender_record_bytes r);
  gh_ok : sender_record_ok r
}.

Lemma group_holds_put u u' n r : view u' = put_sender_key n (sender_record_bytes r) (view u) ->
  sender_record_ok r -> group_holds u' n r.
Proof. intros E Hr. split; [|done]. rewrite E. cbn. by rewrite lookup_insert_eq. Qed.
End Stores.
