(* ===== verification/DoubleRatchet.v ===== *)
(** The receiving half of session_cipher.c against a specification.

    [established] is the invariant of a session: it can be stored, both
    identities, the root key and the sending chain are there, and in every
    receiving chain the stored keys have different counters, all behind the
    chain.  [keys_for] is the pure function from a state and the position of a
    message to its keys; the lemmas show that the code computes it, keeps the
    invariant, and uses the keys of a position at most once. *)
From stdpp Require Import base list gmap.
From Stdlib Require Import ZArith Lia.
From S2P Require Import Prelude Buffers Hkdf Curve Protobuf Messages Ratchet SessionState SessionStorage.
From S2P Require Import RatchetSession SessionRecord Protocol PreKeys Store SessionBuilder SessionCipher.
#[local] Open Scope Z_scope.
#[local] Open Scope signal_scope.

(** * Lists of chains *)

Lemma update_chain_id k f l : (forall c, find_chain k l = Some c -> f c = c) -> update_chain k f l = l.
Proof.
  induction l as [|c l IH]; intros H; [done|]. simpl in *. destruct (chain_matches k c).
  - by rewrite H.
  - by rewrite IH.
Qed.

Lemma update_chain_twice k f g l : keeps_key g ->
  update_chain k f (update_chain k g l) = update_chain k (fun c => f (g c)) l.
Proof.
  intros Hg. induction l as [|c l IH]; [done|]. simpl. destruct (chain_matches k c) eqn:E; simpl.
  - by rewrite keeps_matches, E.
  - by rewrite E, IH.
Qed.

Lemma update_chain_ext k f g l : (forall c, find_chain k l = Some c -> f c = g c) ->
  update_chain k f l = update_chain k g l.
Proof.
  induction l as [|c l IH]; intros H; [done|]. simpl in *. destruct (chain_matches k c).
  - by rewrite H.
  - by rewrite IH.
Qed.

Lemma set_receiver_chains_twice l1 l2 s :
  set_receiver_chains l2 (set_receiver_chains l1 s) = set_receiver_chains l2 s.
Proof. by destruct s. Qed.
Lemma set_receiver_chains_id s : set_receiver_chains (st_receiver_chains s) s = s.
Proof. by destruct s. Qed.

(** Replace the stored keys of a chain. *)
Definition put_keys (k : ec_public_key) (l : list ratchet_message_keys) (s : session_state) : session_state :=
  set_receiver_chains (update_chain k (set_message_keys_list l) (st_receiver_chains s)) s.
(** Replace its chain key too. *)
Definition advance (k : ec_public_key) (ck : ratchet_chain_key) (l : list ratchet_message_keys)
    (s : session_state) : session_state :=
  set_receiver_chains (update_chain k (fun c => ReceiverChain (rc_ratchet_key c) (Some ck) l)
    (st_receiver_chains s)) s.

Lemma put_keys_id k s c : find_chain k (st_receiver_chains s) = Some c -> put_keys k (rc_message_keys c) s = s.
Proof.
  intros H. unfold put_keys. rewrite update_chain_id; [apply set_receiver_chains_id|].
  intros c' H'. rewrite H in H'. inversion H'; subst. by destruct c'.
Qed.

Lemma put_keys_twice k l1 l2 s : put_keys k l2 (put_keys k l1 s) = put_keys k l2 s.
Proof.
  unfold put_keys. rewrite st_receiver_chains_set, set_receiver_chains_twice.
  by rewrite update_chain_twice by done.
Qed.

Lemma find_put_keys k l s c : find_chain k (st_receiver_chains s) = Some c ->
  find_chain k (st_receiver_chains (put_keys k l s)) = Some (set_message_keys_list l c).
Proof.
  intros H. unfold put_keys. rewrite st_receiver_chains_set, find_update_same by done. by rewrite H.
Qed.

Lemma find_advance k ck l s c : find_chain k (st_receiver_chains s) = Some c ->
  find_chain k (st_receiver_chains (advance k ck l s)) = Some (ReceiverChain (rc_ratchet_key c) (Some ck) l).
Proof.
  intros H. unfold advance. rewrite st_receiver_chains_set, find_update_same by done. by rewrite H.
Qed.

(** * The invariant *)

Record chain_good (c : session_state_receiver_chain) : Prop := {
  cg_receiver : receiver_ok 3 c;
  cg_bound : (length (rc_message_keys c) <= MAX_MESSAGE_KEYS)%nat;
  cg_key : is_Some (rc_ratchet_key c);
  cg_behind : exists ck, rc_chain_key c = Some ck /\
    Forall (fun k => counter k < chain_index ck) (rc_message_keys c);
  cg_nodup : NoDup (map counter (rc_message_keys c))
}.

Record established (s : session_state) : Prop := {
  es_storable : storable s;
  es_version : st_session_version s = 3;
  es_has_sender : st_has_sender_chain s = true;
  es_pair : is_Some (sc_ratchet_key_pair (st_sender_chain s));
  es_chain : is_Some (sc_chain_key (st_sender_chain s));
  es_root : is_Some (st_root_key s);
  es_local : is_Some (st_local_identity_public s);
  es_remote : is_Some (st_remote_identity_public s);
  es_chains : Forall chain_good (st_receiver_chains s);
  es_pending : st_has_pending_pre_key s = true -> is_Some (ppk_base_key (st_pending_pre_key s))
}.

Lemma established_chains l s : established s -> (length l <= MAX_RECEIVER_CHAINS)%nat ->
  Forall chain_good l -> established (set_receiver_chains l s).
Proof.
  intros [Hs Hv H1 H2 H3 H4 H5 H6 H7 H8] Hlen Hl.
  assert (Forall (receiver_ok 3) l) by (eapply Forall_impl; [exact Hl|]; by intros ? []).
  assert (Forall (fun c => (length (rc_message_keys c) <= MAX_MESSAGE_KEYS)%nat) l)
    by (eapply Forall_impl; [exact Hl|]; by intros ? []).
  destruct Hs, s. simpl in *. split; try done. split; simpl; try done. congruence.
Qed.

Lemma find_good s k c : established s -> find_chain k (st_receiver_chains s) = Some c -> chain_good c.
Proof.
  intros H Hf. apply find_chain_elem in Hf as [Hin _].
  eapply Forall_forall; [apply (es_chains s H)|done].
Qed.

Lemma established_update k f s : established s ->
  (forall c, find_chain k (st_receiver_chains s) = Some c -> chain_good (f c)) ->
  established (set_receiver_chains (update_chain k f (st_receiver_chains s)) s).
Proof.
  intros H Hf. apply established_chains; [done| |].
  - rewrite length_update. apply (so_bounded s (es_storable s H)).
  - apply Forall_update; [apply (es_chains s H)|done].
Qed.

(** The facts about a session that decryption does not change. *)
Definition same_peers (s s' : session_state) : Prop :=
  st_local_identity_public s' = st_local_identity_public s /\
  st_remote_identity_public s' = st_remote_identity_public s /\
  st_session_version s' = st_session_version s.

Lemma same_peers_chains l s : same_peers s (set_receiver_chains l s).
Proof. by destruct s. Qed.
Lemma same_peers_trans s1 s2 s3 : same_peers s1 s2 -> same_peers s2 s3 -> same_peers s1 s3.
Proof. intros (? & ? & ?) (? & ? & ?). repeat split; congruence. Qed.

Section Skip.
Context {U : Type} `{CL : CryptoLaws} `{VL : CurveLaws}.
Implicit Types w : world U.

(** The keys of the next [n] messages of a chain. *)
Definition skipped (n : nat) (ck : ratchet_chain_key) : list ratchet_message_keys :=
  map (fun i => Ratchet.message_keys (Ratchet.nth_chain i ck)) (seq 0 n).

Lemma skipped_S n ck : skipped (S n) ck = Ratchet.message_keys ck :: skipped n (Ratchet.next_chain ck).
Proof.
  unfold skipped. cbn [seq map]. f_equal. rewrite <- seq_shift, map_map. apply map_ext.
  intros i. by rewrite nth_chain_S.
Qed.

Lemma version_kdf_wf v : wf_kdf (version_kdf v).
Proof. unfold wf_kdf, version_kdf. simpl. destruct (v =? 3); lia. Qed.

Lemma chain_ok_wf v ck : chain_ok v ck -> wf_kdf (chain_kdf ck).
Proof. intros H. rewrite (chain_ok_kdf v ck H). apply version_kdf_wf. Qed.

Lemma root_ok_wf v rk : root_ok v rk -> wf_kdf (root_kdf rk).
Proof. intros [-> _]. apply version_kdf_wf. Qed.

Lemma chain_ok_next v ck : chain_ok v ck -> chain_ok v (Ratchet.next_chain ck).
Proof.
  intros [H1 H2 H3]. split; simpl; [done|apply hmac_length_law|apply u32_range].
Qed.

Lemma chain_ok_nth v n ck : chain_ok v ck -> chain_ok v (Ratchet.nth_chain n ck).
Proof. intros H. induction n; [done|]. simpl. by apply chain_ok_next. Qed.

Lemma index_next ck : 0 <= chain_index ck -> chain_index ck + 1 < UINT32_MOD ->
  chain_index (Ratchet.next_chain ck) = chain_index ck + 1.
Proof. intros. simpl. apply u32_small. unfold is_u32. lia. Qed.

Lemma set_message_keys_ok k mk s c w : mem_ok w -> find_chain k (st_receiver_chains s) = Some c ->
  session_state_set_message_keys s k mk w =
  (Ok (put_keys k (trim MAX_MESSAGE_KEYS (rc_message_keys c ++ [mk])) s), w).
Proof.
  intros Hm Hf. unfold session_state_set_message_keys, session_state_find_receiver_chain.
  rewrite Hf. by erewrite bind_ok by by apply malloc_ok.
Qed.

(** The loop stops within the fuel, [n] steps on, with the keys stored. *)
Lemma skip_loop_ok n : forall fuel k ctr ck s c w,
  mem_ok w -> chain_ok 3 ck -> ctr = chain_index ck + Z.of_nat n -> is_u32 ctr ->
  find_chain k (st_receiver_chains s) = Some c -> (n <= fuel)%nat ->
  (length (rc_message_keys c) <= MAX_MESSAGE_KEYS)%nat ->
  skip_loop fuel k ctr ck s w =
  (Ok (Ratchet.nth_chain n ck, put_keys k (trim MAX_MESSAGE_KEYS (rc_message_keys c ++ skipped n ck)) s), w).
Proof.
  induction n as [|n IH]; intros fuel k ctr ck s c w Hm Hck Hctr Hu Hf Hfuel Hlen.
  - destruct fuel; simpl; unfold ratchet_chain_key_get_index;
      (rewrite (proj2 (Z.ltb_ge _ _)) by lia); rewrite app_nil_r, trim_id, put_keys_id by done; done.
  - destruct fuel as [|fuel]; [lia|]. simpl. unfold ratchet_chain_key_get_index.
    rewrite (proj2 (Z.ltb_lt _ _)) by lia.
    erewrite bind_ok by (apply get_message_keys_ok; [done|by eapply chain_ok_wf]).
    erewrite bind_ok by by apply set_message_keys_ok.
    erewrite bind_ok by by apply create_next_ok.
    erewrite IH; [| |by apply chain_ok_next| |done|by apply find_put_keys|lia|]; try done.
    + rewrite put_keys_twice. cbn [rc_message_keys set_message_keys_list].
      rewrite trim_app_trim, <- app_assoc. cbn [app]. rewrite <- skipped_S.
      by rewrite <- nth_chain_S.
    + destruct Hck as [_ _ Hi]. unfold is_u32 in *. rewrite index_next by lia. lia.
    + cbn [rc_message_keys set_message_keys_list]. rewrite length_trim. lia.
Qed.

Lemma counter_skipped n ck : is_u32 (chain_index ck) -> chain_index ck + Z.of_nat n <= UINT32_MOD ->
  map counter (skipped n ck) = map (fun i => chain_index ck + Z.of_nat i) (seq 0 n).
Proof.
  intros Hi Hn. unfold skipped. rewrite map_map. apply map_ext_in. intros i Hin%in_seq.
  unfold Ratchet.message_keys. cbn [counter]. rewrite chain_index_nth by done.
  apply u32_small. unfold is_u32 in *. lia.
Qed.

Lemma keys_before c ck n : chain_good c -> rc_chain_key c = Some ck ->
  chain_index ck + Z.of_nat n <= UINT32_MOD ->
  Forall (fun k => counter k < chain_index ck + Z.of_nat n) (rc_message_keys c ++ skipped n ck).
Proof.
  intros Hg Hck Hn. pose proof (receiver_ok_chain 3 c (cg_receiver c Hg)) as Hok. rewrite Hck in Hok.
  destruct (cg_behind c Hg) as (ck' & E & Hl). rewrite Hck in E. inversion E; subst ck'.
  apply Forall_app. split; [eapply Forall_impl; [exact Hl|]; simpl; lia|].
  apply Forall_forall. intros x Hx. assert (counter x ∈ map counter (skipped n ck)) as Hc
    by (apply list_elem_of_fmap; by exists x).
  rewrite counter_skipped in Hc by (done || apply (chain_ok_index 3 ck Hok)).
  apply list_elem_of_fmap in Hc as (i & -> & Hin). apply elem_of_seq in Hin. lia.
Qed.

(** The chain after the keys up to [ck] have been stored. *)
Lemma chain_good_advance c ck n : chain_good c -> rc_chain_key c = Some ck ->
  chain_index ck + Z.of_nat n + 1 < UINT32_MOD ->
  chain_good (ReceiverChain (rc_ratchet_key c) (Some (Ratchet.next_chain (Ratchet.nth_chain n ck)))
    (trim MAX_MESSAGE_KEYS (rc_message_keys c ++ skipped n ck))).
Proof.
  intros Hg Eck Hn. pose proof (keys_before c ck n Hg Eck ltac:(lia)) as Hkb.
  destruct Hg as [[R1 R2 R3] Hb Hk (ck' & E & Hlt) Hnd]. rewrite E in Eck. inversion Eck; subst ck'.
  rewrite E in R2. simpl in R2. pose proof (chain_ok_index 3 ck R2) as Hi.
  assert (chain_index (Ratchet.next_chain (Ratchet.nth_chain n ck)) = chain_index ck + Z.of_nat n + 1) as Hidx.
  { unfold is_u32 in Hi. rewrite index_next; rewrite chain_index_nth by done; rewrite u32_small;
      unfold is_u32; lia. }
  assert (map counter (skipped n ck) = map (fun i => chain_index ck + Z.of_nat i) (seq 0 n)) as Hcs
    by (apply counter_skipped; [done|lia]).
  split.
  - split; [done|by apply chain_ok_next, chain_ok_nth|]. cbn [rc_message_keys].
    apply Forall_trim, Forall_app. split; [done|]. apply Forall_forall. intros x Hx.
    unfold skipped in Hx. apply list_elem_of_fmap in Hx as (i & -> & _).
    apply wf_message_keys_spec, (chain_ok_index 3). by apply chain_ok_nth.
  - cbn [rc_message_keys]. rewrite length_trim. lia.
  - done.
  - eexists. split; [reflexivity|]. rewrite Hidx. apply Forall_trim.
    eapply Forall_impl; [exact Hkb|]. simpl. lia.
  - cbn [rc_message_keys]. unfold trim. rewrite <- skipn_map.
    eapply sublist_NoDup; [|apply sublist_drop]. rewrite map_app. apply NoDup_app. split; [done|].
    rewrite Hcs. split.
    + intros x Hx Hx'. apply list_elem_of_fmap in Hx as (y & -> & Hy).
      rewrite Forall_forall in Hlt. specialize (Hlt y Hy).
      apply list_elem_of_fmap in Hx' as (i & E' & _). lia.
    + apply NoDup_fmap_2; [intros i j; lia|apply NoDup_seq].
Qed.
End Skip.

(** * The specification of a receive *)

Section Receive.
Context {U : Type} `{CL : CryptoLaws} `{VL : CurveLaws}.
Implicit Types w : world U.

Definition stored_keys (s : session_state) (eph : ec_public_key) : list ratchet_message_keys :=
  match find_chain eph (st_receiver_chains s) with Some c => rc_message_keys c | None => [] end.

(** The chain of the messages sent with a ratchet key: the one that is there,
    or the next one of the root key. *)
Definition chain_for (s : session_state) (eph : ec_public_key) : option ratchet_chain_key :=
  match session_state_get_receiver_chain_key s eph with
  | Some ck => Some ck
  | None =>
      match st_root_key s, sc_ratchet_key_pair (st_sender_chain s) with
      | Some rk, Some kp => Some (snd (Ratchet.root_step rk (agree (ec_key_pair_get_private kp) eph)))
      | _, _ => None
      end
  end.

(** The keys of a position in a chain, or the error. *)
Definition keys_at (ck : ratchet_chain_key) (keys : list ratchet_message_keys) (ctr : Z)
    : ratchet_message_keys + Z :=
  if ctr <? chain_index ck then
    match take_key ctr keys with
    | Some (k, _) => inl k
    | None => inr SG_ERR_DUPLICATE_MESSAGE
    end
  else if MAX_FORWARD <? ctr - chain_index ck then inr SG_ERR_INVALID_MESSAGE
  else inl (Ratchet.message_keys (Ratchet.nth_chain (Z.to_nat (ctr - chain_index ck)) ck)).

Definition keys_for (s : session_state) (eph : ec_public_key) (ctr : Z) : ratchet_message_keys + Z :=
  match chain_for s eph with
  | Some ck => keys_at ck (stored_keys s eph) ctr
  | None => inr SG_ERR_UNKNOWN
  end.

(** The chain key and the stored keys after a position was received. *)
Definition after_at (ck : ratchet_chain_key) (keys : list ratchet_message_keys) (ctr : Z)
    : ratchet_chain_key * list ratchet_message_keys :=
  if ctr <? chain_index ck then
    (ck, match take_key ctr keys with Some (_, r) => r | None => keys end)
  else
    let n := Z.to_nat (ctr - chain_index ck) in
    (Ratchet.next_chain (Ratchet.nth_chain n ck), trim MAX_MESSAGE_KEYS (keys ++ skipped n ck)).

(** The receiving chain of a ratchet key. *)
Definition chain_is (s : session_state) (eph : ec_public_key)
    (a : ratchet_chain_key * list ratchet_message_keys) : Prop :=
  exists c, find_chain eph (st_receiver_chains s) = Some c /\ rc_chain_key c = Some (fst a) /\
    rc_message_keys c = snd a.

(** The position was received and its keys are gone. *)
Definition used (s : session_state) (eph : ec_public_key) (ctr : Z) : Prop :=
  exists c ck, find_chain eph (st_receiver_chains s) = Some c /\ rc_chain_key c = Some ck /\
    ctr < chain_index ck /\ ctr ∉ map counter (rc_message_keys c).

Lemma take_key_None ctr l : take_key ctr l = None <-> ctr ∉ map counter l.
Proof.
  pose proof (take_key_spec ctr l) as H. destruct (take_key ctr l) as [[k r]|].
  - destruct H as (l1 & l2 & -> & _ & E & _). split; [done|]. intros Hn. destruct Hn.
    rewrite map_app. apply elem_of_app. right. cbn [map]. rewrite E. left.
  - split; [|done]. intros _ Hin. apply list_elem_of_fmap in Hin as (k & E & Hk).
    rewrite Forall_forall in H. by apply (H k Hk).
Qed.

Lemma used_duplicate s eph ctr : used s eph ctr -> keys_for s eph ctr = inr SG_ERR_DUPLICATE_MESSAGE.
Proof.
  intros (c & ck & Hf & Hck & Hlt & Hn). unfold keys_for, chain_for, stored_keys,
    session_state_get_receiver_chain_key, session_state_find_receiver_chain.
  rewrite Hf, Hck. unfold keys_at. rewrite (proj2 (Z.ltb_lt _ _)) by done.
  by rewrite (proj2 (take_key_None _ _)).
Qed.

(** Removing the keys of a position. *)
Lemma chain_good_take c ctr k r : chain_good c -> take_key ctr (rc_message_keys c) = Some (k, r) ->
  chain_good (set_message_keys_list r c) /\ ctr ∉ map counter r.
Proof.
  intros [[R1 R2 R3] Hb Hk (ck & E & Hlt) Hnd] Ht.
  pose proof (take_key_spec ctr (rc_message_keys c)) as H. rewrite Ht in H.
  destruct H as (l1 & l2 & El & -> & Ek & _). rewrite El in R3, Hb, Hlt, Hnd.
  apply Forall_app in R3 as [R3a [_ R3b]%Forall_cons]. apply Forall_app in Hlt as [La [_ Lb]%Forall_cons].
  rewrite map_app in Hnd. cbn [map] in Hnd.
  assert (NoDup (counter k :: map counter (l1 ++ l2))) as [Hn Hnd']%NoDup_cons.
  { rewrite map_app. by rewrite <- Permutation_middle in Hnd. }
  split; [|by rewrite <- Ek].
  split; cbn [rc_message_keys set_message_keys_list]; [split; simpl; try done| | | |done].
  - by apply Forall_app.
  - rewrite length_app in *. simpl in Hb. lia.
  - done.
  - exists ck. split; [done|]. by apply Forall_app.
Qed.

(** The branch for a message that was not seen: the keys in between are stored
    and the chain moves past it. *)
Lemma forward_ok s eph c ck n ctr w : mem_ok w -> established s ->
  find_chain eph (st_receiver_chains s) = Some c -> rc_chain_key c = Some ck ->
  ctr = chain_index ck + Z.of_nat n -> Z.of_nat n <= MAX_FORWARD -> ctr + 1 < UINT32_MOD ->
  session_cipher_get_or_create_message_keys s eph ck ctr w =
  (Ok (Ratchet.message_keys (Ratchet.nth_chain n ck),
       advance eph (Ratchet.next_chain (Ratchet.nth_chain n ck))
         (trim MAX_MESSAGE_KEYS (rc_message_keys c ++ skipped n ck)) s), w).
Proof.
  intros Hm Hs Hf Hck -> Hn Hctr. pose proof (find_good s eph c Hs Hf) as Hg.
  pose proof (receiver_ok_chain 3 c (cg_receiver c Hg)) as Hok. rewrite Hck in Hok. simpl in Hok.
  pose proof (chain_ok_index 3 ck Hok) as Hi. unfold is_u32 in Hi.
  unfold session_cipher_get_or_create_message_keys, ratchet_chain_key_get_index, u32.
  rewrite (proj2 (Z.ltb_ge _ _)), Z.mod_small, (proj2 (Z.ltb_ge _ _)) by lia.
  erewrite bind_ok; cycle 1.
  { apply (skip_loop_ok n); try done; try (unfold is_u32, MAX_FORWARD in *; lia). apply Hg. }
  cbv beta iota. erewrite bind_ok by by apply create_next_ok.
  set (keys := trim MAX_MESSAGE_KEYS (rc_message_keys c ++ skipped n ck)).
  erewrite bind_ok; cycle 1.
  { unfold session_state_set_receiver_chain_key, session_state_find_receiver_chain.
    rewrite (find_put_keys eph keys s c Hf). unfold put_keys.
    rewrite st_receiver_chains_set, set_receiver_chains_twice, update_chain_twice by done. reflexivity. }
  by erewrite bind_ok by (apply get_message_keys_ok; [done|by eapply chain_ok_wf, chain_ok_nth]).
Qed.

Lemma used_advance s eph c ck n : established s ->
  find_chain eph (st_receiver_chains s) = Some c -> rc_chain_key c = Some ck ->
  chain_index ck + Z.of_nat n + 1 < UINT32_MOD ->
  used (advance eph (Ratchet.next_chain (Ratchet.nth_chain n ck))
    (trim MAX_MESSAGE_KEYS (rc_message_keys c ++ skipped n ck)) s) eph (chain_index ck + Z.of_nat n).
Proof.
  intros Hs Hf Hck Hn. pose proof (find_good s eph c Hs Hf) as Hg.
  pose proof (receiver_ok_chain 3 c (cg_receiver c Hg)) as Hok. rewrite Hck in Hok.
  pose proof (chain_ok_index 3 ck Hok) as Hi.
  do 2 eexists. split; [by apply find_advance|]. split; [reflexivity|]. cbn [rc_message_keys].
  unfold is_u32 in Hi.
  rewrite index_next; rewrite chain_index_nth, u32_small; try done; unfold is_u32; try lia.
  split; [lia|]. intros Hin. apply list_elem_of_fmap in Hin as (x & Ex & Hx).
  pose proof (keys_before c ck n Hg Hck ltac:(lia)) as Hall.
  apply (Forall_trim _ MAX_MESSAGE_KEYS) in Hall. rewrite Forall_forall in Hall.
  specialize (Hall x Hx). simpl in Hall. lia.
Qed.

(** [session_cipher_get_or_create_message_keys] computes [keys_at]; what it
    returned it will not return again. *)
Lemma message_keys_ok s eph c ck ctr w : mem_ok w -> established s ->
  find_chain eph (st_receiver_chains s) = Some c -> rc_chain_key c = Some ck ->
  0 <= ctr -> ctr + 1 < UINT32_MOD ->
  match keys_at ck (rc_message_keys c) ctr with
  | inl k => exists s', session_cipher_get_or_create_message_keys s eph ck ctr w = (Ok (k, s'), w) /\
      established s' /\ same_peers s s' /\ used s' eph ctr /\
      chain_is s' eph (after_at ck (rc_message_keys c) ctr)
  | inr e => session_cipher_get_or_create_message_keys s eph ck ctr w = (Err e, w)
  end.
Proof.
  intros Hm Hs Hf Hck H0 Hctr. pose proof (find_good s eph c Hs Hf) as Hg.
  pose proof (receiver_ok_chain 3 c (cg_receiver c Hg)) as Hok. rewrite Hck in Hok.
  pose proof (chain_ok_index 3 ck Hok) as Hi. unfold is_u32 in Hi. unfold keys_at, after_at.
  destruct (Z.ltb_spec ctr (chain_index ck)) as [Hlt|Hge].
  - unfold session_cipher_get_or_create_message_keys, ratchet_chain_key_get_index,
      session_state_remove_message_keys, session_state_find_receiver_chain.
    rewrite Hf, (proj2 (Z.ltb_lt _ _)) by done.
    destruct (take_key ctr (rc_message_keys c)) as [[k r]|] eqn:Ht; [|done].
    destruct (chain_good_take c ctr k r Hg Ht) as [Hg' Hn].
    eexists. split; [reflexivity|]. fold (put_keys eph r s). split; [|split; [|split]].
    + apply established_update; [done|]. intros c' Hc'. rewrite Hf in Hc'. by inversion Hc'; subst.
    + apply same_peers_chains.
    + exists (set_message_keys_list r c), ck. by rewrite (find_put_keys eph r s c Hf).
    + exists (set_message_keys_list r c). by rewrite (find_put_keys eph r s c Hf).
  - destruct (Z.ltb_spec MAX_FORWARD (ctr - chain_index ck)) as [Hfar|Hnear].
    + unfold session_cipher_get_or_create_message_keys, ratchet_chain_key_get_index, u32.
      rewrite (proj2 (Z.ltb_ge _ _)), Z.mod_small, (proj2 (Z.ltb_lt _ _)) by lia. done.
    + set (n := Z.to_nat (ctr - chain_index ck)).
      assert (ctr = chain_index ck + Z.of_nat n) as En by (unfold n; lia).
      eexists. split; [by apply (forward_ok s eph c ck n ctr); try done; unfold n; lia|].
      split; [|split; [apply same_peers_chains|split; [rewrite En; apply used_advance; try done; lia|]]];
        [|eexists; split; [by apply find_advance|done]].
      apply established_update; [done|]. intros c' Hc'. rewrite Hf in Hc'. inversion Hc'; subst c'.
      apply chain_good_advance; try done. lia.
Qed.

Lemma st_receiver_chains_root s rk :
  st_receiver_chains (session_state_set_root_key rk s) = st_receiver_chains s.
Proof. by destruct s. Qed.
Lemma sender_chain_key_root s rk l :
  session_state_get_sender_chain_key (set_receiver_chains l (session_state_set_root_key rk s)) =
  sc_chain_key (st_sender_chain s).
Proof. by destruct s. Qed.

(** A session whose sending half was replaced. *)
Lemma established_ratchet s rk kp ck l idx : established s -> root_ok 3 rk -> pair_ok kp -> chain_ok 3 ck ->
  is_u32 idx -> (length l <= MAX_RECEIVER_CHAINS)%nat -> Forall chain_good l ->
  established (session_state_set_sender_chain kp ck (session_state_set_previous_counter idx
    (set_receiver_chains l (session_state_set_root_key rk s)))).
Proof.
  intros Hs Hrk Hkp Hck Hidx Hlen Hl. pose proof (established_chains l s Hs Hlen Hl) as H.
  pose proof (so_sender s (es_storable s Hs)) as Hsc. rewrite (es_has_sender s Hs) in Hsc.
  destruct H as [Hst Hv H1 H2 H3 H4 H5 H6 H7 H8]. destruct Hst, s. simpl in *. subst.
  split; simpl; try done. split; simpl; try done; [by split; try apply Hsc|].
  by eapply bounded_same_chains; [|exact so_bounded].
Qed.

(** The sending half of a session: the ratchet key pair, the root key and the
    key of the sending chain. *)
Definition sending (s : session_state) (kp : ec_key_pair) (r : ratchet_root_key * ratchet_chain_key) : Prop :=
  sc_ratchet_key_pair (st_sender_chain s) = Some kp /\ st_root_key s = Some (fst r) /\
  sc_chain_key (st_sender_chain s) = Some (snd r).

(** A ratchet key that was not seen before: a receiving chain and a new
    sending chain. *)
Lemma chain_key_new s eph rk kp sck w : mem_ok w -> established s -> wf_public eph ->
  find_chain eph (st_receiver_chains s) = None -> st_root_key s = Some rk ->
  sc_ratchet_key_pair (st_sender_chain s) = Some kp -> sc_chain_key (st_sender_chain s) = Some sck ->
  exists s', session_cipher_get_or_create_chain_key s eph w =
    (Ok (snd (Ratchet.root_step rk (agree (ec_key_pair_get_private kp) eph)), s'), rng_step w) /\
    established s' /\ same_peers s s' /\
    find_chain eph (st_receiver_chains s') = Some (ReceiverChain (Some eph)
      (Some (snd (Ratchet.root_step rk (agree (ec_key_pair_get_private kp) eph)))) []) /\
    exists kp', key_pair_matches kp' /\ sending s' kp' (Ratchet.root_step
      (fst (Ratchet.root_step rk (agree (ec_key_pair_get_private kp) eph))) (agree (ec_key_pair_get_private kp') eph)).
Proof.
  intros Hm Hs Heph Hf Erk Ekp Esck.
  pose proof (so_root s (es_storable s Hs)) as Hrk. rewrite Erk, (es_version s Hs) in Hrk. simpl in Hrk.
  pose proof (so_sender s (es_storable s Hs)) as Hsnd. rewrite (es_has_sender s Hs), (es_version s Hs) in Hsnd.
  pose proof (sender_ok_pair 3 _ Hsnd) as Hkp. rewrite Ekp in Hkp. simpl in Hkp.
  pose proof (sender_ok_chain 3 _ Hsnd) as Hsck. rewrite Esck in Hsck. simpl in Hsck.
  unfold session_cipher_get_or_create_chain_key, session_state_get_receiver_chain_key,
    session_state_find_receiver_chain.
  rewrite Hf, Erk, Ekp. cbn [require]. do 2 (erewrite bind_ok by reflexivity).
  set (rc := Ratchet.root_step rk (agree (ec_key_pair_get_private kp) eph)).
  destruct (root_step_ok rk (agree (ec_key_pair_get_private kp) eph) Hrk) as [Hr1 Hr2].
  erewrite bind_ok by (apply create_chain_ok; [done|by eapply root_ok_wf|done|apply Hkp]).
  destruct (curve_generate_key_pair_ok w Hm) as (kp' & Egen & Hkp'). erewrite bind_ok by exact Egen.
  erewrite bind_ok by (apply create_chain_ok; [done|by eapply root_ok_wf|done|apply Hkp']).
  destruct (root_step_ok (fst rc) (agree (ec_key_pair_get_private kp') eph) Hr1) as [Hs1 Hs2].
  unfold session_state_add_receiver_chain.
  erewrite bind_ok by (erewrite bind_ok by (by apply malloc_ok); reflexivity).
  set (new := ReceiverChain (Some eph) (Some (snd rc)) []).
  rewrite (st_receiver_chains_root s). set (l := trim MAX_RECEIVER_CHAINS (st_receiver_chains s ++ [new])).
  erewrite bind_ok by (rewrite (sender_chain_key_root s), Esck; reflexivity).
  eexists. split; [reflexivity|]. split; [|split; [by destruct s|split; [|exists kp'; by destruct s]]].
  - apply established_ratchet; try done; [by apply matches_ok| |unfold l; rewrite length_trim; lia|].
    + destruct Hsck as [_ _ Hi]. unfold ratchet_chain_key_get_index, is_u32 in *.
      destruct (Z.ltb_spec 0 (chain_index sck)); lia.
    + apply Forall_trim, Forall_app. split; [apply Hs|]. apply Forall_singleton.
      split; [by apply receiver_ok_new|simpl; lia|done|by eexists|constructor].
  - transitivity (find_chain eph l); [by destruct s|]. unfold l.
    rewrite trim_snoc by (unfold MAX_RECEIVER_CHAINS; lia).
    rewrite find_chain_app by by apply find_chain_drop. unfold new. simpl.
    by rewrite chain_matches_refl.
Qed.

(** [session_cipher_get_or_create_chain_key] finds or makes the chain. *)
Lemma chain_key_ok s eph w : mem_ok w -> established s -> wf_public eph ->
  exists c ck s' w', session_cipher_get_or_create_chain_key s eph w = (Ok (ck, s'), w') /\
    mem_ok w' /\ w_user w' = w_user w /\ chain_for s eph = Some ck /\ established s' /\ same_peers s s' /\
    find_chain eph (st_receiver_chains s') = Some c /\ rc_chain_key c = Some ck /\
    rc_message_keys c = stored_keys s eph /\
    (find_chain eph (st_receiver_chains s) <> None -> s' = s /\ w' = w).
Proof.
  intros Hm Hs Heph. unfold chain_for, stored_keys, session_state_get_receiver_chain_key,
    session_state_find_receiver_chain.
  destruct (find_chain eph (st_receiver_chains s)) as [c|] eqn:Hf.
  - destruct (cg_behind c (find_good s eph c Hs Hf)) as (ck & Hck & _). rewrite Hck.
    exists c, ck, s, w. unfold session_cipher_get_or_create_chain_key,
      session_state_get_receiver_chain_key, session_state_find_receiver_chain.
    rewrite Hf, Hck. by split_and!.
  - destruct (es_root s Hs) as [rk Erk], (es_pair s Hs) as [kp Ekp], (es_chain s Hs) as [sck Esck].
    destruct (chain_key_new s eph rk kp sck w Hm Hs Heph Hf Erk Ekp Esck) as (s' & E & H1 & H2 & H3 & _).
    rewrite Erk, Ekp. do 4 eexists. split; [exact E|]. by split_and!.
Qed.

(** What decryption does with a message, given its keys. *)
Definition opened (m : signal_message) (s : session_state) (k : ratchet_message_keys) : callback bytes + Z :=
  match st_remote_identity_public s, st_local_identity_public s with
  | Some remote, Some local =>
      if decide (authentic m remote local (mac_key k)) then
        inl (decrypt_func SG_CIPHER_AES_CBC_PKCS5 (cipher_key k) (iv k) (sgm_ciphertext m))
      else inr SG_ERR_INVALID_MESSAGE
  | _, _ => inr SG_ERR_UNKNOWN
  end.

(** A message as [signal_message_deserialize] returns it. *)
Record message_ok (m : signal_message) : Prop := {
  mo_key : wf_public (sgm_sender_ratchet_key m);
  mo_length : (SIGNAL_MESSAGE_MAC_LENGTH <= length (sgm_serialized m))%nat;
  mo_counter : 0 <= sgm_counter m /\ sgm_counter m + 1 < UINT32_MOD
}.

(** The result of decrypting in an established session, on every branch. *)
Definition decrypt_result (s : session_state) (m : signal_message) : bytes + Z :=
  if negb (sgm_message_version m =? 3) then inr SG_ERR_INVALID_MESSAGE
  else
    match keys_for s (sgm_sender_ratchet_key m) (sgm_counter m) with
    | inr e => inr e
    | inl k =>
        match opened m s k with
        | inr e => inr e
        | inl (inl p) => inl p
        | inl (inr e) => inr (Z.neg e)
        end
    end.

Lemma established_clear s : established s -> established (session_state_clear_unacknowledged_pre_key_message s).
Proof.
  intros [Hst Hv H1 H2 H3 H4 H5 H6 H7 H8]. destruct Hst, s. simpl in *. split; simpl; try done.
  split; simpl; try done. by eapply bounded_same_chains; [|exact so_bounded].
Qed.

Lemma decrypt_from_state_ok s m w : mem_ok w -> established s -> message_ok m ->
  exists w', mem_ok w' /\ w_user w' = w_user w /\
  match decrypt_result s m with
  | inl p => exists s', session_cipher_decrypt_from_state_and_signal_message s m w = (Ok (p, s'), w') /\
      established s' /\ same_peers s s' /\ used s' (sgm_sender_ratchet_key m) (sgm_counter m) /\
      exists ck, chain_for s (sgm_sender_ratchet_key m) = Some ck /\
        chain_is s' (sgm_sender_ratchet_key m)
          (after_at ck (stored_keys s (sgm_sender_ratchet_key m)) (sgm_counter m))
  | inr e => session_cipher_decrypt_from_state_and_signal_message s m w = (Err e, w')
  end.
Proof.
  intros Hm Hs [Hk Hl [Hc0 Hc1]]. unfold decrypt_result, session_cipher_decrypt_from_state_and_signal_message.
  rewrite (es_has_sender s Hs), (es_version s Hs). cbn [negb].
  destruct (Z.eqb_spec (sgm_message_version m) 3) as [Ev|Ev]; cbn [negb]; [|by exists w].
  destruct (chain_key_ok s _ w Hm Hs Hk) as
    (c & ck & s1 & w1 & E1 & Hm1 & Hu1 & Hfor & Hs1 & Hp1 & Hf1 & Hck1 & Hst1 & _).
  erewrite bind_ok by exact E1. cbv beta iota. exists w1. split; [done|]. split; [done|].
  unfold keys_for. rewrite Hfor, <- Hst1.
  pose proof (message_keys_ok s1 _ c ck (sgm_counter m) w1 Hm1 Hs1 Hf1 Hck1 Hc0 Hc1) as H2.
  destruct (keys_at ck (rc_message_keys c) (sgm_counter m)) as [k|e];
    [|by erewrite bind_err by exact H2].
  destruct H2 as (s2 & E2 & Hs2 & Hp2 & Hu2 & Hci). erewrite bind_ok by exact E2. cbv beta iota.
  assert (same_peers s s2) as Hp by by eapply same_peers_trans. destruct Hp as (Hpl & Hpr & Hpv).
  unfold opened. rewrite <- Hpl, <- Hpr.
  destruct (es_remote s2 Hs2) as [remote Er], (es_local s2 Hs2) as [local El]. rewrite Er, El.
  cbn [require]. do 2 (erewrite bind_ok by reflexivity).
  erewrite bind_ok by by apply signal_message_verify_mac_ok.
  destruct (decide (authentic m remote local (mac_key k))) as [Ha|Ha]; [|done].
  change (negb (1 =? 1)) with false. cbv iota. rewrite Ev.
  unfold session_cipher_get_plaintext. change (3 <=? 3) with true. cbv iota. unfold signal_decrypt.
  destruct (decrypt_func _ _ _ _) as [p|e]; [|done]. eexists. split; [reflexivity|].
  split; [by apply established_clear|]. split; [|split].
  - unfold same_peers. by destruct s2.
  - unfold used in *. by destruct s2.
  - exists ck. split; [done|]. unfold chain_is in *. by destruct s2.
Qed.
End Receive.

(** * Delivery in any order

    The messages of one sending chain, numbered from its start, reach a
    receiver that has the same chain.  Whatever the order, and whichever are
    lost, each message decrypts to what was encrypted. *)

Lemma MAX_MESSAGE_KEYS_value : Z.of_nat MAX_MESSAGE_KEYS = 2000.
Proof. unfold MAX_MESSAGE_KEYS. lia. Qed.
#[local] Opaque MAX_MESSAGE_KEYS.

Section Delivery.
Context {U : Type} `{CL : CryptoLaws} `{VL : CurveLaws}.
Context (ck0 : ratchet_chain_key) (eph sender receiver : ec_public_key).
Context (Hck0 : chain_ok 3 ck0) (Hindex : chain_index ck0 = 0) (Heph : wf_public eph).
Implicit Types w : world U.

(** The keys of the [j]th message, and the message with a ciphertext. *)
Definition keys_of (j : nat) : ratchet_message_keys := Ratchet.message_keys (Ratchet.nth_chain j ck0).
Definition sent (previous : Z) (j : nat) (ct : bytes) : signal_message :=
  signal_message_of 3 (mac_key (keys_of j)) eph (Z.of_nat j) previous ct sender receiver.

(** A receiver that has decrypted the messages [D]. *)
Record received (D : list nat) (s : session_state) : Prop := {
  re_established : established s;
  re_remote : st_remote_identity_public s = Some sender;
  re_local : st_local_identity_public s = Some receiver;
  re_chain : exists i keys, (i <= MAX_MESSAGE_KEYS)%nat /\
    chain_is s eph (Ratchet.nth_chain i ck0, keys) /\ (forall j, (j ∈ D) -> (j < i)%nat) /\
    forall k, (k ∈ keys) <-> exists j, (j < i)%nat /\ (j ∉ D) /\ k = keys_of j
}.

Lemma index_nth0 i : Z.of_nat i < UINT32_MOD -> chain_index (Ratchet.nth_chain i ck0) = Z.of_nat i.
Proof.
  intros Hi. rewrite chain_index_nth, Hindex by apply Hck0. apply u32_small. unfold is_u32. lia.
Qed.

Lemma counter_keys_of j : Z.of_nat j < UINT32_MOD -> counter (keys_of j) = Z.of_nat j.
Proof. intros. unfold keys_of, Ratchet.message_keys. cbn [counter]. by apply index_nth0. Qed.

Lemma nth_chain_add n i (ck : ratchet_chain_key) :
  Ratchet.nth_chain n (Ratchet.nth_chain i ck) = Ratchet.nth_chain (n + i) ck.
Proof. unfold Ratchet.nth_chain. by rewrite Nat.iter_add. Qed.

Lemma skipped_elem n i k : (k ∈ skipped n (Ratchet.nth_chain i ck0)) <->
  exists j, (i <= j < i + n)%nat /\ k = keys_of j.
Proof.
  unfold skipped. rewrite list_elem_of_fmap. split.
  - intros (x & -> & Hx). apply elem_of_seq in Hx. exists (x + i)%nat. split; [lia|].
    by rewrite nth_chain_add.
  - intros (j & Hj & ->). exists (j - i)%nat. split; [|apply elem_of_seq; lia].
    rewrite nth_chain_add. unfold keys_of. f_equal. f_equal. lia.
Qed.

(** No more keys are stored than the chain has moved. *)
Lemma length_keys (i : nat) keys : NoDup (map counter keys) -> Z.of_nat i < UINT32_MOD ->
  (forall k, (k ∈ keys) -> exists j, (j < i)%nat /\ k = keys_of j) -> (length keys <= i)%nat.
Proof.
  intros Hnd Hi Hk. rewrite <- (length_map counter keys).
  transitivity (length (map Z.of_nat (seq 0 i))); [|by rewrite length_map, length_seq].
  apply submseteq_length, NoDup_submseteq; [done|]. intros z Hz.
  apply list_elem_of_fmap in Hz as (k & -> & Hin). destruct (Hk k Hin) as (j & Hj & ->).
  rewrite counter_keys_of by lia. apply list_elem_of_fmap. exists j. split; [done|]. apply elem_of_seq. lia.
Qed.

(** A key behind the chain is found and taken out. *)
Lemma take_received D i j keys : j ∉ D -> (j < i)%nat -> Z.of_nat i < UINT32_MOD ->
  (forall k, (k ∈ keys) <-> exists j, (j < i)%nat /\ (j ∉ D) /\ k = keys_of j) ->
  NoDup (map counter keys) ->
  exists r, take_key (Z.of_nat j) keys = Some (keys_of j, r) /\
    forall k, (k ∈ r) <-> exists j', (j' < i)%nat /\ (j' ∉ j :: D) /\ k = keys_of j'.
Proof.
  intros Hj Hlt Hi Hk Hnd. pose proof (take_key_spec (Z.of_nat j) keys) as Ht.
  destruct (take_key (Z.of_nat j) keys) as [[k r]|]; cycle 1.
  { rewrite Forall_forall in Ht. destruct (Ht (keys_of j)); [|apply counter_keys_of; lia].
    apply Hk. by exists j. }
  destruct Ht as (l1 & l2 & -> & -> & Ec & _).
  assert (k = keys_of j) as ->.
  { destruct (proj1 (Hk k)) as (j' & Hj' & _ & ->); [apply elem_of_app; right; left|].
    rewrite counter_keys_of in Ec by lia. f_equal. lia. }
  exists (l1 ++ l2). split; [done|]. intros k. rewrite map_app in Hnd. cbn [map] in Hnd.
  assert (NoDup (counter (keys_of j) :: map counter (l1 ++ l2))) as [Hn _]%NoDup_cons
    by (rewrite map_app; by rewrite <- Permutation_middle in Hnd).
  split.
  - intros Hin. destruct (proj1 (Hk k)) as (j' & Hj' & HD & ->).
    { apply elem_of_app in Hin as [|]; apply elem_of_app; [by left|by right; right]. }
    exists j'.
    split; [done|]. split; [|done]. intros [->|]%elem_of_cons; [|done].
    apply Hn. apply list_elem_of_fmap. by exists (keys_of j).
  - intros (j' & Hj' & [Hne HD]%not_elem_of_cons & ->).
    assert (keys_of j' ∈ l1 ++ keys_of j :: l2) as Hin by (apply Hk; eauto).
    apply elem_of_app in Hin as [Hin|[Heq|Hin]%elem_of_cons]; [by apply elem_of_app; left| |by apply elem_of_app; right].
    apply (f_equal counter) in Heq. rewrite !counter_keys_of in Heq by lia. lia.
Qed.

(** The chain after a message: the keys not yet used are stored. *)
Lemma after_received D s i j keys : received D s -> (i <= MAX_MESSAGE_KEYS)%nat ->
  chain_is s eph (Ratchet.nth_chain i ck0, keys) -> (forall j, (j ∈ D) -> (j < i)%nat) ->
  (forall k, (k ∈ keys) <-> exists j, (j < i)%nat /\ (j ∉ D) /\ k = keys_of j) ->
  j ∉ D -> (j < MAX_MESSAGE_KEYS)%nat ->
  keys_at (Ratchet.nth_chain i ck0) keys (Z.of_nat j) = inl (keys_of j) /\
  exists i' keys', (i' <= MAX_MESSAGE_KEYS)%nat /\ (forall j', (j' ∈ j :: D) -> (j' < i')%nat) /\
    after_at (Ratchet.nth_chain i ck0) keys (Z.of_nat j) = (Ratchet.nth_chain i' ck0, keys') /\
    forall k, (k ∈ keys') <-> exists j', (j' < i')%nat /\ (j' ∉ j :: D) /\ k = keys_of j'.
Proof.
  intros [Hs _ _ _] Hi (c & Hf & _ & Ekeys) HD Hk Hj Hlt. cbn [snd] in Ekeys.
  pose proof (cg_nodup c (find_good s eph c Hs Hf)) as Hnd. rewrite Ekeys in Hnd.
  pose proof MAX_MESSAGE_KEYS_value as Hmax.
  unfold keys_at, after_at, MAX_FORWARD. rewrite index_nth0 by (unfold UINT32_MOD; lia).
  destruct (Z.ltb_spec (Z.of_nat j) (Z.of_nat i)) as [Hji|Hji].
  - destruct (take_received D i j keys) as (r & -> & Hr); try done; try (unfold UINT32_MOD; lia).
    split; [done|]. exists i, r. split_and!; try done.
    intros j' [->|Hin]%elem_of_cons; [lia|by apply HD].
  - rewrite (proj2 (Z.ltb_ge _ _)) by lia.
    replace (Z.to_nat (Z.of_nat j - Z.of_nat i)) with (j - i)%nat by lia.
    rewrite nth_chain_add. replace (j - i + i)%nat with j by lia. split; [done|].
    exists (S j), (keys ++ skipped (j - i) (Ratchet.nth_chain i ck0)).
    split; [lia|]. split; [intros j' [->|Hin]%elem_of_cons; [lia|specialize (HD _ Hin); lia]|].
    assert (length keys <= i)%nat by (apply length_keys; [done|unfold UINT32_MOD; lia|];
      intros k (j' & ? & _ & ->)%Hk; by exists j').
    split.
    + rewrite trim_id; [done|]. rewrite length_app. unfold skipped. rewrite length_map, length_seq. lia.
    + intros k. rewrite elem_of_app, Hk, skipped_elem. setoid_rewrite not_elem_of_cons. split.
      * intros [(x & ? & ? & ->)|(x & ? & ->)]; exists x; split_and!; try lia; try done.
        intros Hx. specialize (HD _ Hx). lia.
      * intros (x & ? & [? ?] & ->). destruct (decide (x < i)%nat); [left|right]; exists x;
          split_and!; try done; lia.
Qed.

(** One delivery. *)
Lemma receive_ok D s j previous p ct w : mem_ok w -> received D s -> j ∉ D -> (j < MAX_MESSAGE_KEYS)%nat ->
  encrypt_func SG_CIPHER_AES_CBC_PKCS5 (cipher_key (keys_of j)) (iv (keys_of j)) p = inl ct ->
  exists s' w', session_cipher_decrypt_from_state_and_signal_message s (sent previous j ct) w = (Ok (p, s'), w') /\
    mem_ok w' /\ received (j :: D) s'.
Proof.
  intros Hm Hre Hj Hlt Hct. pose proof Hre as [Hs Hrem Hloc (i & keys & Hi & Hc & HD & Hk)].
  destruct (after_received D s i j keys Hre Hi Hc HD Hk Hj Hlt) as (Hat & i' & keys' & Hi' & HD' & Haf & Hk').
  pose proof MAX_MESSAGE_KEYS_value as Hmax.
  assert (message_ok (sent previous j ct)) as Hmo.
  { split; [done|apply length_created|]. cbn. unfold UINT32_MOD. lia. }
  assert (chain_for s eph = Some (Ratchet.nth_chain i ck0) /\ stored_keys s eph = keys) as [Hcf Hsk].
  { destruct Hc as (c & Hf & Hck & Hks). cbn [fst snd] in *. unfold chain_for, stored_keys,
      session_state_get_receiver_chain_key, session_state_find_receiver_chain. by rewrite Hf, Hck. }
  assert (decrypt_result s (sent previous j ct) = inl p) as Hres.
  { unfold decrypt_result. cbn [sgm_message_version sgm_sender_ratchet_key sgm_counter sent signal_message_of].
    change (negb (3 =? 3)) with false. cbv iota. unfold keys_for. rewrite Hcf, Hsk, Hat.
    unfold opened. rewrite Hrem, Hloc. rewrite decide_True by apply authentic_created.
    assert (wf_message_keys (keys_of j)) as [W1 _ W3 _]
      by (apply wf_message_keys_spec, (chain_ok_index 3), chain_ok_nth, Hck0).
    destruct (encrypt_law SG_CIPHER_AES_CBC_PKCS5 _ _ p W1 W3) as (ct' & E1 & E2).
    rewrite Hct in E1. inversion E1; subst ct'. cbn [sgm_ciphertext sent signal_message_of]. by rewrite E2. }
  destruct (decrypt_from_state_ok s _ w Hm Hs Hmo) as (w' & Hm' & _ & H). rewrite Hres in H.
  destruct H as (s' & E & Hs' & (Hl & Hr & _) & _ & ck & Hck & Hci).
  cbn [sgm_sender_ratchet_key sgm_counter sent signal_message_of] in Hck, Hci.
  rewrite Hcf in Hck. inversion Hck; subst ck. rewrite Hsk, Haf in Hci.
  exists s', w'. split; [exact E|]. split; [done|]. split; [done|by rewrite Hr|by rewrite Hl|].
  exists i', keys'. done.
Qed.

(** A receiver that has the chain and no message yet. *)
Lemma received_nil s c : established s -> st_remote_identity_public s = Some sender ->
  st_local_identity_public s = Some receiver -> find_chain eph (st_receiver_chains s) = Some c ->
  rc_chain_key c = Some ck0 -> received [] s.
Proof.
  intros Hs Hr Hl Hf Hck. split; try done. exists 0%nat, (rc_message_keys c). split; [lia|].
  split; [by exists c|]. split; [by intros j ?%elem_of_nil|]. intros k. split; [|intros (j & ? & _); lia].
  intros Hin. destruct (cg_behind c (find_good s eph c Hs Hf)) as (ck & E & Hlt).
  rewrite Hck in E. inversion E; subst ck. rewrite Forall_forall in Hlt. specialize (Hlt k Hin).
  simpl in Hlt. pose proof (receiver_ok_keys 3 c (cg_receiver c (find_good s eph c Hs Hf))) as Hw.
  rewrite Forall_forall in Hw. destruct (Hw k Hin) as [_ _ _ Hu]. unfold is_u32 in Hu. lia.
Qed.

(** Decrypt a sequence of messages, one after the other. *)
Fixpoint decrypt_all (s : session_state) (l : list signal_message) : M U (list bytes) :=
  match l with
  | [] => ret []
  | m :: l' =>
      let* '(p, s') := session_cipher_decrypt_from_state_and_signal_message s m in
      let* ps := decrypt_all s' l' in
      ret (p :: ps)
  end.

Lemma decrypt_all_ok l : forall D s w, mem_ok w -> received D s ->
  NoDup (map fst (map fst l)) -> Forall (fun d => (d ∉ D) /\ (d < MAX_MESSAGE_KEYS)%nat) (map fst (map fst l)) ->
  Forall (fun d => encrypt_func SG_CIPHER_AES_CBC_PKCS5 (cipher_key (keys_of (fst (fst d))))
    (iv (keys_of (fst (fst d)))) (snd (fst d)) = inl (snd d)) l ->
  forall previous, exists w',
    decrypt_all s (map (fun d => sent previous (fst (fst d)) (snd d)) l) w =
      (Ok (map (fun d => snd (fst d)) l), w').
Proof.
  induction l as [|[[j p] ct] l IH]; intros D s w Hm Hre Hnd HD Henc previous; [by exists w|].
  cbn [map fst snd] in *. apply NoDup_cons in Hnd as [Hn Hnd]. apply Forall_cons in HD as [[HjD Hj] HD].
  apply Forall_cons in Henc as [He Henc]. cbn [fst snd] in He.
  destruct (receive_ok D s j previous p ct w Hm Hre HjD Hj He) as (s' & w1 & E & Hm1 & Hre1).
  destruct (IH (j :: D) s' w1 Hm1 Hre1 Hnd) with (previous := previous) as (w' & E'); [|done|].
  { apply Forall_forall. intros d Hd. rewrite Forall_forall in HD. destruct (HD d Hd). split; [|done].
    intros [->|]%elem_of_cons; done. }
  exists w'. cbn [decrypt_all]. erewrite bind_ok by exact E. cbv beta iota.
  by erewrite bind_ok by exact E'.
Qed.
End Delivery.

(** * Properties *)

Section Properties.
Context {U : Type} `{CL : CryptoLaws} `{VL : CurveLaws}.
Implicit Types w : world U.

(** C3: messages of a sending chain can arrive in any order and some not at
    all.  A receiver that has the chain at its start decrypts any sequence of
    different messages among the first two thousand, each to the plaintext
    that was encrypted under the keys of its position. *)
Theorem delivered_in_any_order ck0 eph sender receiver s c previous (l : list (nat * bytes * bytes)) w :
  chain_ok 3 ck0 -> chain_index ck0 = 0 -> wf_public eph -> mem_ok w -> established s ->
  st_remote_identity_public s = Some sender -> st_local_identity_public s = Some receiver ->
  find_chain eph (st_receiver_chains s) = Some c -> rc_chain_key c = Some ck0 ->
  NoDup (map (fun d => fst (fst d)) l) ->
  Forall (fun d => Z.of_nat (fst (fst d)) < 2000 /\
    encrypt_func SG_CIPHER_AES_CBC_PKCS5 (cipher_key (keys_of ck0 (fst (fst d))))
      (iv (keys_of ck0 (fst (fst d)))) (snd (fst d)) = inl (snd d)) l ->
  exists w', decrypt_all s (map (fun d => sent ck0 eph sender receiver previous (fst (fst d)) (snd d)) l) w =
    (Ok (map (fun d => snd (fst d)) l), w').
Proof.
  intros Hck Hi He Hm Hs Hr Hl Hf Hc Hnd Hall. pose proof MAX_MESSAGE_KEYS_value.
  apply (decrypt_all_ok ck0 eph sender receiver Hck Hi He l [] s w); try done.
  - by apply (received_nil ck0 eph sender receiver Hi s c).
  - by rewrite map_map.
  - rewrite map_map. apply Forall_map. eapply Forall_impl; [exact Hall|].
    intros d [Hd _]. split; [apply not_elem_of_nil|cbn; lia].
  - eapply Forall_impl; [exact Hall|]. by intros d [_ Hd].
Qed.

(** C2: the receiving half of the double ratchet follows its specification.
    In an established session, decrypting a message has exactly the outcome
    [decrypt_result] gives: the keys of the position, from the chain or from
    the skipped keys, or the error ([SG_ERR_DUPLICATE_MESSAGE] behind the chain
    with no stored key, [SG_ERR_INVALID_MESSAGE] more than 2000 ahead or with a
    wrong MAC or version); a success keeps the session established, keeps its
    peers, and uses the position up. *)
Theorem decryption_follows_the_ratchet s m w : mem_ok w -> established s -> message_ok m ->
  exists w', mem_ok w' /\ w_user w' = w_user w /\
  match decrypt_result s m with
  | inl p => exists s', session_cipher_decrypt_from_state_and_signal_message s m w = (Ok (p, s'), w') /\
      established s' /\ same_peers s s' /\ used s' (sgm_sender_ratchet_key m) (sgm_counter m)
  | inr e => session_cipher_decrypt_from_state_and_signal_message s m w = (Err e, w')
  end.
Proof.
  intros Hm Hs Hmo. destruct (decrypt_from_state_ok s m w Hm Hs Hmo) as (w' & H1 & H2 & H).
  exists w'. split; [done|]. split; [done|]. destruct (decrypt_result s m); [|done].
  destruct H as (s' & E & H3 & H4 & H5 & _). by exists s'.
Qed.

(** C18: skipped keys.  When a message arrives [n] positions ahead, for [n] up to
    2000, [session_cipher_get_or_create_message_keys] returns the keys of its
    position after exactly [n] turns of its loop, moves the chain just past it,
    and stores the keys of the [n] positions in between, the oldest stored keys
    making room beyond 2000. *)
Theorem skipped_keys_are_stored s eph c ck n w : mem_ok w -> established s ->
  find_chain eph (st_receiver_chains s) = Some c -> rc_chain_key c = Some ck ->
  Z.of_nat n <= 2000 -> chain_index ck + Z.of_nat n + 1 < UINT32_MOD ->
  exists s', session_cipher_get_or_create_message_keys s eph ck (chain_index ck + Z.of_nat n) w =
    (Ok (Ratchet.message_keys (Ratchet.nth_chain n ck), s'), w) /\ established s' /\
    find_chain eph (st_receiver_chains s') = Some (ReceiverChain (rc_ratchet_key c)
      (Some (Ratchet.nth_chain (S n) ck)) (trim MAX_MESSAGE_KEYS (rc_message_keys c ++ skipped n ck))).
Proof.
  intros Hm Hs Hf Hck Hn Hmax. eexists. split; [by apply forward_ok|]. split.
  - apply established_update; [done|]. intros c' Hc'. rewrite Hf in Hc'. inversion Hc'; subst c'.
    apply chain_good_advance; try done. by eapply find_good.
  - by apply find_advance.
Qed.
End Properties.
