(* ===== verification/Sessions.v ===== *)
(** Sessions over the stores: what the operations of session_cipher.c and
    session_builder.c do to the application's stores, on success and on
    failure, and that what one side encrypts the other side decrypts. *)
From stdpp Require Import base list gmap.
From Stdlib Require Import ZArith Lia.
From S2P Require Import Prelude Buffers Hkdf Curve Protobuf Messages Ratchet SessionState SessionStorage.
From S2P Require Import Vpool RatchetSession SessionRecord Protocol PreKeys Store SessionBuilder.
From S2P Require Import SessionCipher DoubleRatchet.
#[local] Open Scope Z_scope.
#[local] Open Scope signal_scope.

(** * What is left alone *)

Section Frames.
Context {U : Type} `{CP : CryptoProvider} `{CV : Curve25519} `{ST : Stores U}.

Lemma frame_set_message_keys s k mk : frame (session_state_set_message_keys (U := U) s k mk).
Proof. unfold session_state_set_message_keys. frame_solve. Qed.
Lemma frame_add_receiver_chain s k ck : frame (session_state_add_receiver_chain (U := U) s k ck).
Proof. unfold session_state_add_receiver_chain. frame_solve. Qed.
Lemma frame_set_receiver_chain_key s k ck : frame (session_state_set_receiver_chain_key (U := U) s k ck).
Proof. unfold session_state_set_receiver_chain_key. frame_solve. Qed.
Lemma frame_vpool_append vp d : frame (vpool_append (U := U) vp d).
Proof. unfold vpool_append, vpool_insert, vpool_resize. frame_solve. Qed.
#[local] Hint Resolve frame_vpool_append : frame_db.
Lemma frame_append_agreement vp p k : frame (append_agreement (U := U) vp p k).
Proof. unfold append_agreement. frame_solve. Qed.
Lemma frame_calculate_derived_keys d : frame (ratcheting_session_calculate_derived_keys (U := U) d).
Proof. unfold ratcheting_session_calculate_derived_keys. frame_solve. Qed.
#[local] Hint Resolve frame_append_agreement frame_calculate_derived_keys frame_add_receiver_chain : frame_db.
Lemma frame_bob_initialize s p : frame (ratcheting_session_bob_initialize (U := U) s p).
Proof. unfold ratcheting_session_bob_initialize. frame_solve. Qed.
Lemma frame_alice_initialize s p : frame (ratcheting_session_alice_initialize (U := U) s p).
Proof. unfold ratcheting_session_alice_initialize. frame_solve. Qed.
Lemma frame_bob_parameters a b c d e f :
  frame (bob_signal_protocol_parameters_create (U := U) a b c d e f).
Proof. unfold bob_signal_protocol_parameters_create. frame_solve. Qed.
Lemma frame_alice_parameters a b c d e f :
  frame (alice_signal_protocol_parameters_create (U := U) a b c d e f).
Proof. unfold alice_signal_protocol_parameters_create. frame_solve. Qed.
Lemma frame_require {A} (o : option A) e : frame (@require U A o e).
Proof. unfold require. frame_solve. Qed.
#[local] Hint Resolve frame_set_message_keys frame_add_receiver_chain frame_set_receiver_chain_key
  frame_require : frame_db.
Lemma frame_skip_loop fuel : forall k ctr ck s, frame (skip_loop (U := U) fuel k ctr ck s).
Proof.
  induction fuel as [|fuel IH]; intros k ctr ck s; simpl; frame_solve.
Qed.
#[local] Hint Resolve frame_skip_loop : frame_db.
Lemma frame_get_or_create_chain_key s eph : frame (session_cipher_get_or_create_chain_key (U := U) s eph).
Proof. unfold session_cipher_get_or_create_chain_key. frame_solve. Qed.
Lemma frame_get_or_create_message_keys s eph ck ctr :
  frame (session_cipher_get_or_create_message_keys (U := U) s eph ck ctr).
Proof. unfold session_cipher_get_or_create_message_keys. frame_solve. Qed.
Lemma frame_get_ciphertext v mk p : frame (session_cipher_get_ciphertext (U := U) v mk p).
Proof. unfold session_cipher_get_ciphertext. frame_solve. Qed.
Lemma frame_get_plaintext v mk p : frame (session_cipher_get_plaintext (U := U) v mk p).
Proof. unfold session_cipher_get_plaintext. frame_solve. Qed.
#[local] Hint Resolve frame_get_or_create_chain_key frame_get_or_create_message_keys
  frame_get_ciphertext frame_get_plaintext : frame_db.
Lemma frame_decrypt_from_state s m : frame (session_cipher_decrypt_from_state_and_signal_message (U := U) s m).
Proof. unfold session_cipher_decrypt_from_state_and_signal_message. frame_solve. Qed.
#[local] Hint Resolve frame_decrypt_from_state frame_state_copy frame_promote : frame_db.
Lemma frame_try_state s m : frame (try_state (U := U) s m).
Proof. unfold try_state. frame_solve. Qed.
#[local] Hint Resolve frame_try_state : frame_db.
Lemma frame_try_previous r m l : forall i, frame (try_previous_states (U := U) r i l m).
Proof. induction l as [|s l IH]; intros i; simpl; frame_solve. Qed.
#[local] Hint Resolve frame_try_previous : frame_db.
Lemma frame_decrypt_from_record r m : frame (session_cipher_decrypt_from_record_and_signal_message (U := U) r m).
Proof. unfold session_cipher_decrypt_from_record_and_signal_message. frame_solve. Qed.
End Frames.
#[export] Hint Resolve frame_bob_initialize frame_alice_initialize frame_bob_parameters frame_alice_parameters
  frame_require frame_get_or_create_chain_key frame_get_or_create_message_keys
  frame_get_ciphertext frame_get_plaintext frame_decrypt_from_record : frame_db.

Section Failures.
Context {U : Type} `{CP : CryptoProvider} `{CV : Curve25519} `{SL : StoreLaws U}.

(** A callback that succeeds by its law. *)
Lemma no_err_call_ (f : U -> Z * U) : (forall u, exists u', f u = (0, u')) -> no_err (call_ f).
Proof. intros H w e w'. unfold call_. destruct (H (w_user w)) as (u & ->). done. Qed.

Lemma no_err_remove i : no_err (signal_protocol_pre_key_remove_key i).
Proof.
  apply no_err_call_. intros u. destruct (remove_pre_key_law i u) as (u' & E & _). eauto.
Qed.

Lemma keeps_save_identity {T} (f : U -> T) a k :
  (forall u a b u', view u' = put_identity a b (view u) -> f u' = f u) ->
  keeps f (signal_protocol_identity_save_identity a k).
Proof.
  intros Hf. assert (forall b, keeps f (call_ (save_identity a b))) as Hc.
  { intros b w. unfold call_. destruct (save_identity_law a b (w_user w)) as (u & -> & Hv). simpl. eauto. }
  unfold signal_protocol_identity_save_identity. destruct k; [|apply Hc].
  apply keeps_bind; [apply frame_keeps; frame_solve|]. intros b. apply Hc.
Qed.

Lemma frame_process_v3 r m : frame (session_builder_process_pre_key_signal_message_v3 (U := U) r m).
Proof.
  unfold session_builder_process_pre_key_signal_message_v3, archive_unless_fresh. frame_solve.
Qed.

Lemma err_keeps_store_session {T} (f : U -> T) a r :
  err_keeps f (signal_protocol_session_store_session a r).
Proof.
  unfold signal_protocol_session_store_session. apply err_keeps_bind.
  - apply frame_keeps, frame_record_serialize.
  - intros b w e w' E. exfalso. eapply no_err_call_; [|exact E].
    intros u. destruct (store_session_law a b u) as (u' & -> & _). eauto.
Qed.
End Failures.

(** * Authentication *)

Section Authentication.
Context {U : Type} `{CL : CryptoLaws} `{CV : Curve25519} `{ST : Stores U}.

Lemma post_hmac_init k : post (@signal_hmac_sha256_init U CP k) (fun c => hmac_represents c k []).
Proof.
  intros w c w' E. destruct (hmac_init_run k w) as (c' & E' & R). rewrite E in E'.
  by inversion E'; subst.
Qed.
Lemma post_hmac_update c k d b : hmac_represents c k d ->
  post (@signal_hmac_sha256_update U CP c b) (fun c' => hmac_represents c' k (d ++ b)).
Proof.
  intros R w c' w' E. destruct (hmac_update_run c k d b w R) as (c2 & E2 & R2). rewrite E in E2.
  by inversion E2; subst.
Qed.
Lemma post_hmac_final c k d : hmac_represents c k d ->
  post (@signal_hmac_sha256_final U CP c) (eq (hmac_spec k d)).
Proof. intros R w b w' E. rewrite (hmac_final_run c k d w R) in E. by inversion E. Qed.
Lemma post_public_serialize k : post (@ec_public_key_serialize U (Some k)) (eq (ec_public_key_bytes k)).
Proof. simpl. post_solve. done. Qed.

Lemma post_get_mac v s r k b :
  post (@signal_message_get_mac U CP v (Some s) (Some r) k b) (eq (mac_spec v s r k b)).
Proof.
  unfold signal_message_get_mac. eapply post_bind; [apply post_hmac_init|]. intros c R.
  eapply (post_bind _ _ (fun c' => hmac_represents c' k
    (if 3 <=? v then ec_public_key_bytes s ++ ec_public_key_bytes r else []))).
  { destruct (3 <=? v); [|by apply post_ret].
    eapply post_bind; [apply post_public_serialize|]. intros ? <-.
    eapply post_bind; [eapply post_hmac_update; exact R|]. intros c2 R2.
    eapply post_bind; [apply post_public_serialize|]. intros ? <-. apply (post_hmac_update c2 _ _ _ R2). }
  intros c' R'. eapply post_bind; [eapply post_hmac_update; exact R'|]. intros c2 R2.
  eapply post_bind; [eapply post_hmac_final; exact R2|]. intros ? <-.
  rewrite hmac_length_law. simpl. apply post_bind_any. intros _. by apply post_ret.
Qed.

(** A MAC that verifies is the MAC of the message. *)
Lemma post_verify_mac m s r k : (SIGNAL_MESSAGE_MAC_LENGTH <= length (sgm_serialized m))%nat ->
  post (@signal_message_verify_mac U CP m (Some s) (Some r) k) (fun b => b = 1 -> authentic m s r k).
Proof.
  intros Hl. unfold signal_message_verify_mac. eapply post_bind; [apply post_get_mac|]. intros ? <-.
  rewrite length_mac_spec, Nat.eqb_refl. cbn [negb]. apply post_ret.
  destruct (Z.eqb_spec (signal_constant_memcmp (mac_spec (sgm_message_version m) s r k (message_body m))
    (message_mac m) SIGNAL_MESSAGE_MAC_LENGTH) 0) as [E|E].
  - intros _. unfold authentic. symmetry. apply (signal_constant_memcmp_0 _ _ SIGNAL_MESSAGE_MAC_LENGTH);
      [apply length_mac_spec|unfold message_mac; rewrite length_drop; lia|done].
  - fold (message_body m) (message_mac m). by rewrite (proj2 (Z.eqb_neq _ _)).
Qed.

Lemma post_require {A B} (o : option A) e (k : A -> M U B) Q :
  (forall a, o = Some a -> post (k a) Q) -> post (bind (require o e) k) Q.
Proof.
  intros H w b w' E. minv E. destruct o as [a'|]; inversion H0; subst. by eapply H.
Qed.

(** The message keys come from the receiving chains; nothing else changes. *)
Definition other_chains (s s' : session_state) : Prop := exists l, s' = set_receiver_chains l s.

Lemma other_chains_refl s : other_chains s s.
Proof. exists (st_receiver_chains s). by rewrite set_receiver_chains_id. Qed.
Lemma other_chains_trans s1 s2 s3 : other_chains s1 s2 -> other_chains s2 s3 -> other_chains s1 s3.
Proof. intros [l1 ->] [l2 ->]. exists l2. apply set_receiver_chains_twice. Qed.
Lemma other_chains_peers s s' : other_chains s s' -> same_peers s s'.
Proof. intros [l ->]. apply same_peers_chains. Qed.

Lemma post_skip_chains fuel : forall k ctr ck s,
  post (skip_loop (U := U) fuel k ctr ck s) (fun r => other_chains s (snd r)).
Proof.
  induction fuel as [|fuel IH]; intros k ctr ck s; simpl;
    (destruct (_ <? ctr); [|apply post_ret, other_chains_refl]); [apply post_crash|].
  apply post_bind_any. intros mk. eapply (post_bind _ _ (other_chains s)).
  { unfold session_state_set_message_keys. post_solve; [by eexists|apply other_chains_refl]. }
  intros s' Hs'. apply post_bind_any. intros ck'. eapply post_weaken; [apply IH|].
  intros r. by apply other_chains_trans.
Qed.

Lemma post_message_keys_chains s eph ck ctr :
  post (session_cipher_get_or_create_message_keys (U := U) s eph ck ctr) (fun r => other_chains s (snd r)).
Proof.
  unfold session_cipher_get_or_create_message_keys. destruct (ctr <? _).
  { unfold session_state_remove_message_keys.
    destruct (session_state_find_receiver_chain s eph) as [c|]; [|apply post_fail].
    destruct (take_key ctr (rc_message_keys c)) as [[k l]|]; [|apply post_fail].
    apply post_ret. by eexists. }
  destruct (_ <? _); [apply post_fail|]. eapply post_bind; [apply post_skip_chains|].
  intros [ck' s1] H1. apply post_bind_any. intros nck.
  eapply (post_bind _ _ (other_chains s)); [|by post_solve].
  unfold session_state_set_receiver_chain_key. post_solve.
  eapply other_chains_trans; [exact H1|]. by eexists.
Qed.

Lemma post_chain_key_peers s eph :
  post (session_cipher_get_or_create_chain_key (U := U) s eph) (fun r => same_peers s (snd r)).
Proof.
  unfold session_cipher_get_or_create_chain_key, session_state_add_receiver_chain.
  destruct (session_state_get_receiver_chain_key s eph); [by apply post_ret|].
  do 5 (apply post_bind_any; intros ?). eapply (post_bind _ _ (same_peers s)).
  { apply post_bind_any. intros _. apply post_ret. by destruct s. }
  intros s' Hs'. apply post_bind_any. intros p. apply post_ret. by destruct s'.
Qed.

(** What was decrypted was authenticated with the peer's identity. *)
Definition authenticated (m : signal_message) (s : session_state) (p : bytes) : Prop :=
  exists remote local k, st_remote_identity_public s = Some remote /\
    st_local_identity_public s = Some local /\ authentic m remote local (mac_key k) /\
    session_cipher_get_plaintext (sgm_message_version m) k (sgm_ciphertext m) (World [] 0 tt) =
      (Ok p, World [] 0 tt).

Lemma post_decrypt_from_state s m : (SIGNAL_MESSAGE_MAC_LENGTH <= length (sgm_serialized m))%nat ->
  post (session_cipher_decrypt_from_state_and_signal_message (U := U) s m)
    (fun r => authenticated m s (fst r)).
Proof.
  intros Hl. unfold session_cipher_decrypt_from_state_and_signal_message.
  destruct (negb _); [apply post_fail|]. destruct (negb _); [apply post_fail|].
  eapply post_bind; [apply post_chain_key_peers|]. intros [ck s1] H1.
  eapply post_bind; [apply post_message_keys_chains|]. intros [k s2] H2. cbn [snd] in *.
  apply other_chains_peers in H2.
  destruct (same_peers_trans _ _ _ H1 H2) as (Hlo & Hre & _). rewrite Hlo, Hre.
  apply post_require. intros remote Er. apply post_require. intros local El.
  eapply post_bind; [by apply post_verify_mac|]. intros b Hb.
  destruct (Z.eqb_spec b 1) as [->|]; [|apply post_fail]. cbn [negb].
  intros w [p s'] w' E. minv E. inversion E; subst. exists remote, local, k.
  split; [done|]. split; [done|]. split; [by apply Hb|].
  unfold session_cipher_get_plaintext, signal_decrypt, lift_callback in *.
  destruct (3 <=? _), (decrypt_func _ _ _ _); inversion H; done.
Qed.

(** ** Through the record *)

Lemma post_try_state s m P : post (session_state_copy (U := U) s) P ->
  (SIGNAL_MESSAGE_MAC_LENGTH <= length (sgm_serialized m))%nat ->
  post (try_state (U := U) s m) (fun r => match r with
    | Some (p, _) => exists s', P s' /\ authenticated m s' p
    | None => True end).
Proof.
  intros HP Hl. unfold try_state. eapply post_bind; [exact HP|]. intros s' Hs'.
  intros w r w' E. minv E. unfold attempt in H.
  destruct (session_cipher_decrypt_from_state_and_signal_message s' m w) as [[[p s2]|e|f] w1] eqn:Ed;
    inversion H; subst; [|by destruct (e =? _); inversion E].
  inversion E; subst. exists s'. split; [done|]. by apply (post_decrypt_from_state s' m Hl _ _ _ Ed).
Qed.
End Authentication.

(** The states a record can decrypt with, and a copy of one of them. *)
Definition copy_of (r : session_record) (s' : session_state) : Prop :=
  exists U' (w w' : world U') s, s ∈ rec_state r :: rec_previous_states r /\
    session_state_copy s w = (Ok s', w').

Section RecordAuthentication.
Context {U : Type} `{CL : CryptoLaws} `{CV : Curve25519}.

Lemma post_copy r s : s ∈ rec_state r :: rec_previous_states r ->
  post (session_state_copy (U := U) s) (copy_of r).
Proof. intros Hin w s' w' E. by exists U, w, w', s. Qed.

Lemma post_try_previous r r' m l : (SIGNAL_MESSAGE_MAC_LENGTH <= length (sgm_serialized m))%nat ->
  (forall s, s ∈ l -> s ∈ rec_state r :: rec_previous_states r) -> forall i,
  post (try_previous_states (U := U) r' i l m)
    (fun x => exists s', copy_of r s' /\ authenticated m s' (fst x)).
Proof.
  intros Hl. induction l as [|s l IH]; intros Hin i; simpl; [apply post_fail|].
  eapply post_bind; [apply post_try_state; [apply (post_copy r), Hin; left|done]|].
  intros [[p s']|] Hx.
  - destruct Hx as (s2 & H1 & H2). apply post_bind_any. intros r2. apply post_ret. by exists s2.
  - apply IH. intros s2 H2. apply Hin. by right.
Qed.

Lemma post_decrypt_from_record r m : (SIGNAL_MESSAGE_MAC_LENGTH <= length (sgm_serialized m))%nat ->
  post (session_cipher_decrypt_from_record_and_signal_message (U := U) r m)
    (fun x => exists s', copy_of r s' /\ authenticated m s' (fst x)).
Proof.
  intros Hl. unfold session_cipher_decrypt_from_record_and_signal_message.
  eapply post_bind; [apply post_try_state; [apply (post_copy r); left|done]|].
  intros [[p s']|] Hx.
  - destruct Hx as (s2 & H1 & H2). apply post_ret. by exists s2.
  - apply post_try_previous; [done|]. intros s2 H2. by right.
Qed.
End RecordAuthentication.

(** * Running an established session *)

(** The sending chain moved on. *)
Definition with_sender_chain_key (ck : ratchet_chain_key) (s : session_state) : session_state :=
  match s with SessionState a b c d e f g h i j k l m n o p =>
    SessionState a b c d e f (SenderChain (sc_ratchet_key_pair g) (Some ck) (sc_message_keys g))
      h i j k l m n o p end.

Lemma established_sender_chain_key ck s : established s -> chain_ok 3 ck ->
  established (with_sender_chain_key ck s).
Proof.
  intros [Hst Hv H1 H2 H3 H4 H5 H6 H7 H8] Hck. destruct Hst, s. simpl in *. subst.
  split; simpl; try done. split; simpl; try done.
  - destruct so_sender. by split.
  - by eapply bounded_same_chains; [|exact so_bounded].
Qed.

Section Run.
Context {U : Type} `{CL : CryptoLaws} `{VL : CurveLaws} `{SL : StoreLaws U}.
Implicit Types w : world U.

Lemma try_state_ok s m w : mem_ok w -> established s -> message_ok m ->
  exists w', mem_ok w' /\ w_user w' = w_user w /\
  match decrypt_result s m with
  | inl p => exists s', try_state s m w = (Ok (Some (p, s')), w') /\
      session_cipher_decrypt_from_state_and_signal_message s m w = (Ok (p, s'), w') /\
      established s' /\ same_peers s s' /\ used s' (sgm_sender_ratchet_key m) (sgm_counter m)
  | inr e => try_state s m w = ((if e =? SG_ERR_INVALID_MESSAGE then Ok None else Err e), w')
  end.
Proof.
  intros Hm Hs Hmo. unfold try_state.
  destruct (decrypt_from_state_ok s m w Hm Hs Hmo) as (w' & Hm' & Hu & H).
  exists w'. split; [done|]. split; [done|].
  erewrite bind_ok by (apply session_state_copy_ok; [done|apply Hs]).
  destruct (decrypt_result s m) as [p|e].
  - destruct H as (s' & E & H1 & H2 & H3 & _). exists s'. split; [|done]. unfold bind, attempt. by rewrite E.
  - unfold bind, attempt. rewrite H. by destruct (e =? SG_ERR_INVALID_MESSAGE).
Qed.

(** The session a store holds for an address. *)
Record holds (u : U) (a : signal_protocol_address) (r : session_record) : Prop := {
  ho_bytes : s_sessions (view u) !! a = Some (record_bytes r);
  ho_record : record_ok r;
  ho_state : established (rec_state r)
}.

Lemma record_ok_set r s : record_ok r -> storable s -> record_ok (session_record_set_state r s).
Proof. by intros [] ?; split. Qed.
Lemma record_ok_stored r : record_ok r -> record_ok (stored r).
Proof. by intros []; split. Qed.

Definition plain_cipher (c : session_cipher U) : Prop :=
  cp_decrypt_callback c = None /\ cp_inside_callback c = false.

(** A successful decryption stores the session with the position used up. *)
Lemma decrypt_signal_message_ok c r m p w : mem_ok w -> plain_cipher c ->
  holds (w_user w) (cp_remote_address c) r -> message_ok m -> decrypt_result (rec_state r) m = inl p ->
  exists s' w', session_cipher_decrypt_signal_message c m w = (Ok p, w') /\ mem_ok w' /\
    (exists w1, session_cipher_decrypt_from_state_and_signal_message (rec_state r) m w = (Ok (p, s'), w1)) /\
    holds (w_user w') (cp_remote_address c) (session_record_set_state (stored r) s') /\
    view (w_user w') = put_session (cp_remote_address c)
      (record_bytes (session_record_set_state (stored r) s')) (view (w_user w)) /\
    used s' (sgm_sender_ratchet_key m) (sgm_counter m).
Proof.
  intros Hm [Hcb Hin] [Hb Hr Hs] Hmo Hres. unfold session_cipher_decrypt_signal_message.
  rewrite Hin. erewrite bind_ok by apply contains_session_ok. rewrite Hb. cbn [present].
  change (1 =? 0) with false. cbv iota.
  erewrite bind_ok by by apply load_session_some.
  destruct (try_state_ok (rec_state r) m w Hm Hs Hmo) as (w1 & Hm1 & Hu1 & Ht). rewrite Hres in Ht.
  destruct Ht as (s' & Et & Ed & Hs' & _ & Hused).
  unfold session_cipher_decrypt_from_record_and_signal_message.
  erewrite bind_ok by (erewrite bind_ok by exact Et; reflexivity). cbv beta iota.
  unfold session_cipher_decrypt_callback. rewrite Hcb. erewrite bind_ok by reflexivity.
  assert (record_ok (session_record_set_state (stored r) s')) as Hr'
    by (apply record_ok_set; [by apply record_ok_stored|apply Hs']).
  destruct (store_session_ok (cp_remote_address c) _ w1 Hm1 Hr') as (u & Eu & Hv).
  erewrite bind_ok by exact Eu. exists s'. eexists. split; [reflexivity|]. split; [done|].
  split; [by exists w1|]. rewrite Hu1 in Hv. cbn [w_user with_user]. split; [|by split].
  split; [|done|done]. rewrite Hv. simpl. by rewrite lookup_insert_eq.
Qed.

(** A message that is refused for another reason than its validity leaves the
    stores alone. *)
Lemma decrypt_signal_message_err c r m e w : mem_ok w -> plain_cipher c ->
  holds (w_user w) (cp_remote_address c) r -> message_ok m ->
  decrypt_result (rec_state r) m = inr e -> e <> SG_ERR_INVALID_MESSAGE ->
  exists w', session_cipher_decrypt_signal_message c m w = (Err e, w') /\ w_user w' = w_user w.
Proof.
  intros Hm [Hcb Hin] [Hb Hr Hs] Hmo Hres Hne. unfold session_cipher_decrypt_signal_message.
  rewrite Hin. erewrite bind_ok by apply contains_session_ok. rewrite Hb. cbn [present].
  change (1 =? 0) with false. cbv iota.
  erewrite bind_ok by by apply load_session_some.
  destruct (try_state_ok (rec_state r) m w Hm Hs Hmo) as (w1 & Hm1 & Hu1 & Ht). rewrite Hres in Ht.
  rewrite (proj2 (Z.eqb_neq _ _)) in Ht by done. exists w1. split; [|done].
  unfold session_cipher_decrypt_from_record_and_signal_message.
  erewrite bind_err; [reflexivity|]. by erewrite bind_err by exact Ht.
Qed.

Lemma decrypt_result_used s m : established s -> sgm_message_version m = 3 ->
  used s (sgm_sender_ratchet_key m) (sgm_counter m) ->
  decrypt_result s m = inr SG_ERR_DUPLICATE_MESSAGE.
Proof. intros Hs Hv Hu. unfold decrypt_result. rewrite Hv. simpl. by rewrite used_duplicate. Qed.

(** ** Encryption *)

(** The message an established session sends next. *)
Definition next_message (s : session_state) (kp : ec_key_pair) (ck : ratchet_chain_key)
    (local remote : ec_public_key) (ct : bytes) : signal_message :=
  signal_message_of 3 (mac_key (Ratchet.message_keys ck)) (ec_key_pair_get_public kp) (chain_index ck)
    (st_previous_counter s) ct local remote.

(** The next message of a chain is read by a session that has the chain. *)
Lemma decrypt_result_next sb sa kpa ck ct p sender receiver :
  chain_for sb (ec_key_pair_get_public kpa) = Some ck -> is_u32 (chain_index ck) ->
  st_remote_identity_public sb = Some sender -> st_local_identity_public sb = Some receiver ->
  encrypt_func SG_CIPHER_AES_CBC_PKCS5 (cipher_key (Ratchet.message_keys ck))
    (iv (Ratchet.message_keys ck)) p = inl ct ->
  decrypt_result sb (next_message sa kpa ck sender receiver ct) = inl p.
Proof.
  intros Hck Hidx Hre Hlo Hct. unfold decrypt_result, next_message.
  cbn [sgm_message_version sgm_sender_ratchet_key sgm_counter signal_message_of].
  change (negb (3 =? 3)) with false. cbv iota. unfold keys_for. rewrite Hck. unfold keys_at.
  rewrite Z.ltb_irrefl, Z.sub_diag. change (MAX_FORWARD <? 0) with false. cbv iota.
  change (Z.to_nat 0) with 0%nat. cbn [Ratchet.nth_chain Nat.iter nat_rect].
  unfold opened. rewrite Hre, Hlo, decide_True by apply authentic_created.
  assert (wf_message_keys (Ratchet.message_keys ck)) as [W1 _ W3 _] by by apply wf_message_keys_spec.
  destruct (encrypt_law SG_CIPHER_AES_CBC_PKCS5 _ _ p W1 W3) as (ct' & E1 & E2).
  rewrite Hct in E1. inversion E1; subst ct'. cbn [sgm_ciphertext signal_message_of]. by rewrite E2.
Qed.

Definition wrap (s : session_state) (local : ec_public_key) (m : signal_message) : ciphertext_message :=
  match st_has_pending_pre_key s, ppk_base_key (st_pending_pre_key s) with
  | true, Some base => CiphertextPreKey (pre_key_message_of 3 (st_local_registration_id s)
      (ppk_pre_key_id (st_pending_pre_key s)) (ppk_signed_pre_key_id (st_pending_pre_key s)) base local m)
  | _, _ => CiphertextSignal m
  end.

(** The branch that wraps the message of an unacknowledged session. *)
Lemma wrap_ok s local m w : mem_ok w -> established s -> st_local_identity_public s = Some local ->
  blen (sgm_serialized m) <= 2147483648 + 200 ->
  (if st_has_pending_pre_key s then
     let pending := st_pending_pre_key s in
     let* base_key := require (ppk_base_key pending) SG_ERR_UNKNOWN in
     let* m' := pre_key_signal_message_create 3 (st_local_registration_id s)
       (ppk_pre_key_id pending) (ppk_signed_pre_key_id pending) base_key local m in
     ret (CiphertextPreKey m')
   else ret (CiphertextSignal m)) w = (Ok (wrap s local m), w).
Proof.
  intros Hm Hs Hlo Hl. unfold wrap. pose proof (es_storable _ Hs) as Hst.
  pose proof (so_pre_key _ Hst) as Hp. pose proof (es_pending _ Hs) as Hpe.
  pose proof (so_local _ Hst) as Hwl. rewrite Hlo in Hwl.
  destruct (st_has_pending_pre_key s); [|done]. destruct (Hpe eq_refl) as [base Eb].
  destruct Hp as [P1 P2 P3]. rewrite Eb in *. cbn [require]. erewrite bind_ok by reflexivity.
  by erewrite bind_ok by (apply pre_key_signal_message_create_ok; try done; apply Hst).
Qed.

Lemma encrypt_ok c r kp ck local remote ct p w : mem_ok w -> cp_inside_callback c = false ->
  holds (w_user w) (cp_remote_address c) r ->
  sc_ratchet_key_pair (st_sender_chain (rec_state r)) = Some kp ->
  sc_chain_key (st_sender_chain (rec_state r)) = Some ck ->
  st_local_identity_public (rec_state r) = Some local ->
  st_remote_identity_public (rec_state r) = Some remote ->
  encrypt_func SG_CIPHER_AES_CBC_PKCS5 (cipher_key (Ratchet.message_keys ck))
    (iv (Ratchet.message_keys ck)) p = inl ct -> short ct ->
  exists w', session_cipher_encrypt c p w =
      (Ok (wrap (rec_state r) local (next_message (rec_state r) kp ck local remote ct)), w') /\
    mem_ok w' /\
    view (w_user w') = put_session (cp_remote_address c) (record_bytes (session_record_set_state (stored r)
      (with_sender_chain_key (Ratchet.next_chain ck) (rec_state r)))) (view (w_user w)) /\
    holds (w_user w') (cp_remote_address c) (session_record_set_state (stored r)
      (with_sender_chain_key (Ratchet.next_chain ck) (rec_state r))).
Proof.
  intros Hm Hin [Hb Hr Hs] Hkp Hck Hlo Hre Hct Hsh. pose proof (es_storable _ Hs) as Hst.
  pose proof (so_sender _ Hst) as Hsnd. rewrite (es_has_sender _ Hs), (es_version _ Hs) in Hsnd.
  pose proof (sender_ok_pair 3 _ Hsnd) as Hkpo. rewrite Hkp in Hkpo.
  pose proof (sender_ok_chain 3 _ Hsnd) as Hcko. rewrite Hck in Hcko.
  unfold session_cipher_encrypt. rewrite Hin. erewrite bind_ok by by apply load_session_some.
  cbn [rec_state stored].
  unfold session_state_get_sender_chain_key, session_state_get_sender_ratchet_key.
  rewrite Hck, Hkp, Hlo, Hre, (es_version _ Hs). cbn [require].
  erewrite bind_ok by reflexivity.
  erewrite bind_ok by (apply get_message_keys_ok; [done|by eapply chain_ok_wf]).
  erewrite bind_ok by reflexivity.
  erewrite bind_ok by (unfold session_cipher_get_ciphertext; change (3 <=? 3) with true;
    cbv iota; unfold signal_encrypt; rewrite Hct; reflexivity).
  do 2 (erewrite bind_ok by reflexivity).
  erewrite bind_ok by (apply signal_message_create_ok; try done; [apply Hkpo|apply Hcko|apply Hst]).
  fold (next_message (rec_state r) kp ck local remote ct).
  set (msg := next_message (rec_state r) kp ck local remote ct).
  erewrite bind_ok; cycle 1.
  { apply (wrap_ok (rec_state r) local msg w Hm Hs Hlo).
    apply length_signal_message_of; [apply Hkpo|apply Hcko|apply Hst|done]. }
  erewrite bind_ok by by apply create_next_ok.
  erewrite bind_ok by (unfold session_state_set_sender_chain_key; rewrite (es_has_sender _ Hs); reflexivity).
  fold (with_sender_chain_key (Ratchet.next_chain ck) (rec_state r)).
  assert (established (with_sender_chain_key (Ratchet.next_chain ck) (rec_state r))) as Hs'
    by (apply established_sender_chain_key; [done|by apply chain_ok_next]).
  assert (record_ok (session_record_set_state (stored r)
    (with_sender_chain_key (Ratchet.next_chain ck) (rec_state r)))) as Hr'
    by (apply record_ok_set; [by apply record_ok_stored|apply Hs']).
  destruct (store_session_ok (cp_remote_address c) _ w Hm Hr') as (u & Eu & Hv).
  erewrite bind_ok by exact Eu. eexists. split; [reflexivity|]. split; [done|]. split; [done|].
  split; [|done|done]. cbn [w_user with_user]. rewrite Hv. simpl. by rewrite lookup_insert_eq.
Qed.
End Run.

(** * Checks before a session is built *)

Section Checks.
Context {U : Type} `{CL : CryptoLaws} `{VL : CurveLaws} `{SL : StoreLaws U}.
Implicit Types w : world U.

Lemma is_trusted_inv a k w z w' : signal_protocol_identity_is_trusted_identity a k w = (Ok z, w') ->
  exists key, k = Some key /\ z = if trusts (view (w_user w)) a (ec_public_key_bytes key) then 1 else 0.
Proof.
  unfold signal_protocol_identity_is_trusted_identity. intros H.
  apply bind_Ok_inv in H as (b & w1 & E & H). destruct k as [key|]; [|discriminate]. exists key.
  split; [done|]. pose proof (frame_ec_public_key_serialize (Some key) w) as Hu. rewrite E in Hu.
  apply post_public_serialize in E. subst b. unfold call_ in H. rewrite trusted_law in H. simpl in Hu.
  rewrite Hu in H. destruct (trusts _ _ _); inversion H; done.
Qed.

Lemma verify_inv k m sg w z w' : curve_verify_signature k m sg w = (Ok z, w') -> z <> 0 ->
  length sg = CURVE_SIGNATURE_LEN /\ curve25519_verify sg (ec_public_data k) m = 0.
Proof.
  unfold curve_verify_signature, blen. intros H Hz.
  destruct (Z.eqb_spec (Z.of_nat (length sg)) (Z.of_nat CURVE_SIGNATURE_LEN)); [|discriminate].
  split; [lia|]. simpl in H. destruct (Z.eqb_spec (curve25519_verify sg (ec_public_data k) m) 0);
    inversion H; subst; done.
Qed.

Lemma verify_base_key_inv m w w' : verify_base_key (U := U) m w = (Ok tt, w') ->
  curve25519_verify (kem_base_key_signature m) (ec_public_data (kem_identity_key m))
    (ec_public_key_bytes (kem_base_key m)) = 0.
Proof.
  unfold verify_base_key. intros H. apply bind_Ok_inv in H as (b & w1 & E & H).
  apply post_public_serialize in E. subst b. apply bind_Ok_inv in H as (z & w2 & E & H).
  destruct (Z.eqb_spec z 1) as [->|]; [|discriminate]. by apply verify_inv in E as [_ E].
Qed.

Lemma frame_verify_base_key m : frame (verify_base_key (U := U) m).
Proof. unfold verify_base_key. frame_solve. Qed.
End Checks.
#[export] Hint Resolve frame_verify_base_key : frame_db.

(** * Properties *)

Section Properties.
Context {U : Type} `{CL : CryptoLaws} `{VL : CurveLaws} `{SL : StoreLaws U}.
Implicit Types w : world U.

(** C4: nothing is decrypted that is not authentic.  Whatever the stores hold
    and whatever allocations fail, when [session_cipher_decrypt_signal_message]
    returns a plaintext, the last eight octets of the message are the MAC of
    the rest under the identities of the peer and of this client, in a state
    of the session that was loaded, and the plaintext is the decryption of the
    ciphertext under the same message keys. *)
Theorem decrypted_is_authentic c m w p w' :
  (SIGNAL_MESSAGE_MAC_LENGTH <= length (sgm_serialized m))%nat ->
  session_cipher_decrypt_signal_message c m w = (Ok p, w') ->
  exists r w1 w2 s, signal_protocol_session_load_session (cp_remote_address c) w1 = (Ok r, w2) /\
    w_user w1 = w_user w /\ copy_of r s /\ authenticated m s p.
Proof.
  intros Hl H. unfold session_cipher_decrypt_signal_message in H.
  destruct (cp_inside_callback c); [discriminate|]. minv H.
  pose proof (frame_contains_session (cp_remote_address c) w) as Hu. rewrite H0 in Hu.
  destruct (a =? 0); [discriminate|]. apply bind_Ok_inv in H as (r & w2 & Hload & H).
  apply bind_Ok_inv in H as ([p' r'] & w3 & Hdec & H). apply (post_decrypt_from_record r m Hl) in Hdec.
  destruct Hdec as (s & Hc & Ha). apply bind_Ok_inv in H as (t & w4 & _ & H).
  apply bind_Ok_inv in H as (z & w5 & _ & H). inversion H; subst. by exists r, w0, w2, s.
Qed.



(** C7: replay protection.  After [session_cipher_decrypt_signal_message] has
    accepted a message, giving it the same message again reports
    [SG_ERR_DUPLICATE_MESSAGE] and leaves the stores alone. *)
Theorem replayed_message_is_duplicate c r m p w : mem_ok w -> plain_cipher c ->
  holds (w_user w) (cp_remote_address c) r -> message_ok m -> decrypt_result (rec_state r) m = inl p ->
  exists w1 w2, session_cipher_decrypt_signal_message c m w = (Ok p, w1) /\
    session_cipher_decrypt_signal_message c m w1 = (Err SG_ERR_DUPLICATE_MESSAGE, w2) /\
    w_user w2 = w_user w1.
Proof.
  intros Hm Hc Hh Hmo Hres.
  destruct (decrypt_signal_message_ok c r m p w Hm Hc Hh Hmo Hres) as (s' & w1 & E1 & Hm1 & _ & Hh1 & _ & Hused).
  assert (sgm_message_version m = 3) as Hv.
  { unfold decrypt_result in Hres. by destruct (Z.eqb_spec (sgm_message_version m) 3). }
  destruct (decrypt_signal_message_err c _ m SG_ERR_DUPLICATE_MESSAGE w1 Hm1 Hc Hh1 Hmo) as (w2 & E2 & Hu2).
  { apply decrypt_result_used; [apply Hh1|done|done]. }
  { done. }
  by exists w1, w2.
Qed.

(** C9: encryption.  In an established session [session_cipher_encrypt] returns
    the message with the counter of the sending chain, the encryption of the
    plaintext and the MAC under the keys of that chain position, wrapped in a
    pre key message while the session is unacknowledged, and stores the
    session with the sending chain one step further. *)
Theorem encrypt_sends_and_advances c r kp ck local remote ct p w : mem_ok w -> cp_inside_callback c = false ->
  holds (w_user w) (cp_remote_address c) r ->
  sc_ratchet_key_pair (st_sender_chain (rec_state r)) = Some kp ->
  sc_chain_key (st_sender_chain (rec_state r)) = Some ck ->
  st_local_identity_public (rec_state r) = Some local ->
  st_remote_identity_public (rec_state r) = Some remote ->
  encrypt_func SG_CIPHER_AES_CBC_PKCS5 (cipher_key (Ratchet.message_keys ck))
    (iv (Ratchet.message_keys ck)) p = inl ct -> short ct ->
  exists w', session_cipher_encrypt c p w =
      (Ok (wrap (rec_state r) local (next_message (rec_state r) kp ck local remote ct)), w') /\
    view (w_user w') = put_session (cp_remote_address c) (record_bytes (session_record_set_state (stored r)
      (with_sender_chain_key (Ratchet.next_chain ck) (rec_state r)))) (view (w_user w)) /\
    holds (w_user w') (cp_remote_address c) (session_record_set_state (stored r)
      (with_sender_chain_key (Ratchet.next_chain ck) (rec_state r))).
Proof.
  intros. destruct (encrypt_ok c r kp ck local remote ct p w) as (w' & E & _ & Hv & Hh); try done.
  by exists w'.
Qed.

(** While its decryption callback runs a cipher refuses to encrypt and to
    decrypt, with [SG_ERR_INVAL] and without touching anything. *)
Theorem cipher_is_not_reentrant (c : session_cipher U) p m pm w : cp_inside_callback c = true ->
  session_cipher_encrypt c p w = (Err SG_ERR_INVAL, w) /\
  session_cipher_decrypt_signal_message c m w = (Err SG_ERR_INVAL, w) /\
  session_cipher_decrypt_pre_key_signal_message c pm w = (Err SG_ERR_INVAL, w).
Proof.
  intros H. unfold session_cipher_encrypt, session_cipher_decrypt_signal_message,
    session_cipher_decrypt_pre_key_signal_message. by rewrite H.
Qed.

(** C22: a pre key bundle is checked before anything is written.  If
    [session_builder_process_pre_key_bundle] changes the stores at all, whatever
    its result, then the identity key of the bundle is trusted and its signed
    pre key carries a valid signature of that identity key. *)
Theorem bundle_is_checked bl b w :
  w_user (snd (session_builder_process_pre_key_bundle bl b w)) <> w_user w ->
  exists ik spk sg, bd_identity_key b = Some ik /\ bd_signed_pre_key_public b = Some spk /\
    bd_signed_pre_key_signature b = Some sg /\
    trusts (view (w_user w)) (sb_remote_address bl) (ec_public_key_bytes ik) = true /\
    length sg = CURVE_SIGNATURE_LEN /\
    curve25519_verify sg (ec_public_data ik) (ec_public_key_bytes spk) = 0.
Proof.
  unfold session_builder_process_pre_key_bundle. intros H.
  apply change_after in H as (z & w1 & E1 & Hu1 & H); [|frame_solve].
  apply is_trusted_inv in E1 as (ik & Eik & Hz). destruct (Z.eqb_spec z 0) as [|Hz0]; [done|].
  destruct (bd_signed_pre_key_public b) as [spk|]; [|done].
  apply change_after in H as (b1 & w2 & E2 & _ & H); [|frame_solve]. apply post_public_serialize in E2.
  apply change_after in H as (ik' & w3 & E3 & _ & H); [|frame_solve]. rewrite Eik in E3. inversion E3; subst.
  apply change_after in H as (sg & w4 & E4 & _ & H); [|frame_solve].
  destruct (bd_signed_pre_key_signature b) as [sg'|]; [|discriminate]. inversion E4; subst.
  apply change_after in H as (v & w5 & E5 & _ & H); [|frame_solve].
  destruct (Z.eqb_spec v 0) as [|Hv]; [done|]. apply (verify_inv _ _ _ _ _ _ E5) in Hv as [Hl Hv].
  exists ik', spk, sg. split_and!; try done. by destruct (trusts _ _ _).
Qed.

(** A received key exchange is checked before anything is written, when it
    initiates.  If [session_builder_process_key_exchange_message] changes the
    stores on such a message, its identity is trusted and the signature of its
    base key is valid. *)
Theorem initiate_is_checked bl m w : key_exchange_message_is_initiate m = true ->
  w_user (snd (session_builder_process_key_exchange_message bl m w)) <> w_user w ->
  trusts (view (w_user w)) (sb_remote_address bl) (ec_public_key_bytes (kem_identity_key m)) = true /\
  curve25519_verify (kem_base_key_signature m) (ec_public_data (kem_identity_key m))
    (ec_public_key_bytes (kem_base_key m)) = 0.
Proof.
  unfold session_builder_process_key_exchange_message. intros Hini H.
  apply change_after in H as (z & w1 & E1 & Hu1 & H); [|frame_solve].
  apply is_trusted_inv in E1 as (ik & [= <-] & Hz). destruct (Z.eqb_spec z 0) as [|Hz0]; [done|].
  rewrite Hini in H. split; [by destruct (trusts _ _ _)|].
  assert (forall B (f : key_exchange_message -> M U B) x, (forall a, frame (f a)) ->
    w_user (snd (bind (session_builder_process_initiate bl m) f x)) <> w_user x ->
    w_user (snd (session_builder_process_initiate bl m x)) <> w_user x) as Hstrip.
  { intros B f x Hf Hne E. apply Hne. unfold bind.
    destruct (session_builder_process_initiate bl m x) as [[a|e|g] x']; simpl in *; [|done|done].
    by rewrite Hf. }
  apply Hstrip in H; [|frame_solve]. unfold session_builder_process_initiate in H.
  apply change_after in H as (r & w2 & _ & _ & H); [|frame_solve].
  apply change_after in H as ([] & w3 & E3 & _ & _); [|frame_solve]. by apply verify_base_key_inv in E3.
Qed.

(** An identity that is not trusted gets nowhere: a bundle, a pre key
    message and a key exchange message of it are all refused with
    [SG_ERR_UNTRUSTED_IDENTITY], and the stores are left alone. *)
Theorem untrusted_identity_is_refused bl b r pm km ik w : mem_ok w ->
  bd_identity_key b = Some ik -> pkm_identity_key pm = ik -> kem_identity_key km = ik ->
  trusts (view (w_user w)) (sb_remote_address bl) (ec_public_key_bytes ik) = false ->
  session_builder_process_pre_key_bundle bl b w = (Err SG_ERR_UNTRUSTED_IDENTITY, w) /\
  session_builder_process_pre_key_signal_message bl r pm w = (Err SG_ERR_UNTRUSTED_IDENTITY, w) /\
  session_builder_process_key_exchange_message bl km w = (Err SG_ERR_UNTRUSTED_IDENTITY, w).
Proof.
  intros Hm Hb Hp Hk Ht. unfold session_builder_process_pre_key_bundle,
    session_builder_process_pre_key_signal_message, session_builder_process_key_exchange_message.
  rewrite Hb, Hp, Hk. do 3 (erewrite bind_ok by by apply is_trusted_ok). by rewrite Ht.
Qed.

(** A response that answers no pending key exchange of ours is refused with
    [SG_ERR_STALE_KEY_EXCHANGE], unless it is flagged as the response of a
    simultaneous initiate, which is ignored; the stores are left alone. *)
Theorem stale_response_is_refused bl m r w : mem_ok w ->
  s_sessions (view (w_user w)) !! sb_remote_address bl = Some (record_bytes r) -> record_ok r ->
  st_has_pending_key_exchange (rec_state r) = false \/
    session_state_get_pending_key_exchange_sequence (rec_state r) <> kem_sequence m ->
  session_builder_process_response bl m w =
  ((if key_exchange_message_is_response_for_simultaneous_initiate m then Ok 0
    else Err SG_ERR_STALE_KEY_EXCHANGE), w).
Proof.
  intros Hm Hb Hr Hp. unfold session_builder_process_response.
  erewrite bind_ok by by apply load_session_some. cbn [rec_state stored].
  assert (negb (st_has_pending_key_exchange (rec_state r)) ||
    negb (session_state_get_pending_key_exchange_sequence (rec_state r) =? kem_sequence m) = true) as ->.
  { destruct Hp as [->|Hp]; [done|]. by rewrite (proj2 (Z.eqb_neq _ _)), orb_true_r. }
  by destruct (key_exchange_message_is_response_for_simultaneous_initiate m).
Qed.
End Properties.
