(* ===== verification/Fingerprint.v ===== *)
(** Fingerprints (fingerprint.c): the digits two users read to each other, made
    by iterated hashing of an identity key, and the code one scans from the
    other's screen.  A [char *] is the list of octets it points to; the string
    ends at the first NUL. *)
From stdpp Require Import base list.
From Stdlib Require Import ZArith Lia.
From S2P Require Import Prelude Buffers Curve Sample Protobuf Messages SessionStorage PreKeys.
From S2P Require Import Scenario.
#[local] Open Scope Z_scope.
#[local] Open Scope signal_scope.

Definition VERSION : Z := 0.
Definition SHA512_DIGEST_LENGTH : nat := 64.

Record displayable_fingerprint : Type := DisplayableFingerprint {
  df_local_fingerprint : bytes;
  df_remote_fingerprint : bytes;
  df_display_text : bytes
}.

Record scannable_fingerprint : Type := ScannableFingerprint {
  sf_version : Z;
  sf_local_stable_identifier : option bytes;
  sf_local_identity_key : option ec_public_key;
  sf_remote_stable_identifier : option bytes;
  sf_remote_identity_key : option ec_public_key
}.

Record fingerprint : Type := Fingerprint {
  fp_displayable : option displayable_fingerprint;
  fp_scannable : option scannable_fingerprint
}.

Record fingerprint_generator : Type := FingerprintGenerator { fg_iterations : Z }.

(** [strcmp] on strings without their NUL: the sign of the first difference of
    the octets, a proper prefix being smaller. *)
Fixpoint strcmp (s1 s2 : bytes) : Z :=
  match s1, s2 with
  | [], [] => 0
  | [], _ :: _ => -1
  | _ :: _, [] => 1
  | a :: s1', b :: s2' => if a <? b then -1 else if b <? a then 1 else strcmp s1' s2'
  end.

(** [((uint64_t)data[i] & 0xFFL) << 32 | ... | (data[i + 4] & 0xFFL)]. *)
Definition display_chunk (data : bytes) (i : nat) : Z :=
  let octet j := Z.land (nth (i + j) data 0) 255 in
  Z.lor (Z.lor (Z.lor (Z.lor (Z.shiftl (octet 0%nat) 32) (Z.shiftl (octet 1%nat) 24))
    (Z.shiftl (octet 2%nat) 16)) (Z.shiftl (octet 3%nat) 8)) (octet 4%nat).

(** [snprintf("%05d", n)] for [0 <= n < 100000]. *)
Definition format_05d (n : Z) : bytes :=
  map (fun p => 48 + (n / p) mod 10) [10000; 1000; 100; 10; 1].

(** [for(i = 0; i < 30; i += 5)]. *)
Definition display_digits (data : bytes) : bytes :=
  concat (map (fun i => format_05d (display_chunk data i mod 100000)) [0; 5; 10; 15; 20; 25]%nat).

Section Fingerprints.
Context {U : Type} `{CP : CryptoProvider}.

Definition fingerprint_generator_create (iterations : Z) : M U fingerprint_generator :=
  malloc ;;; ret (FingerprintGenerator iterations).

(** The loop that hashes the last hash and the key again, in the block of
    [capacity] octets behind [in_data]. *)
Fixpoint hash_loop (n : nat) (capacity : Z) (identity_buffer hash_buffer : bytes) : M U bytes :=
  match n with
  | O => ret hash_buffer
  | S n' =>
      let in_data := hash_buffer ++ identity_buffer in
      if capacity <? blen in_data then crash OutOfBounds
      else
        let* hash_out_buffer := signal_sha512_digest in_data in
        if negb (blen hash_out_buffer =? Z.of_nat SHA512_DIGEST_LENGTH) then fail SG_ERR_INVAL
        else hash_loop n' capacity identity_buffer hash_out_buffer
  end.

Definition fingerprint_generator_create_display_string (generator : fingerprint_generator)
    (stable_identifier : bytes) (identity_key : ec_public_key) : M U bytes :=
  let* identity_buffer := ec_public_key_serialize (Some identity_key) in
  let str := c_string stable_identifier in
  let len := 2 + blen identity_buffer + blen str in
  alloc_or_nomem len ;;;
  let hash_buffer := [0; u8 VERSION] ++ identity_buffer ++ str in
  let capacity := Z.max len (Z.of_nat SHA512_DIGEST_LENGTH) + blen identity_buffer in
  alloc_or_nomem capacity ;;;
  let* data := hash_loop (Z.to_nat (fg_iterations generator)) capacity identity_buffer hash_buffer in
  if blen data <? 30 then fail SG_ERR_UNKNOWN
  else malloc ;;; ret (display_digits data).

Definition fingerprint_create (displayable : option displayable_fingerprint)
    (scannable : option scannable_fingerprint) : M U fingerprint :=
  malloc ;;; ret (Fingerprint displayable scannable).

Definition displayable_fingerprint_create (local_fingerprint remote_fingerprint : option bytes)
    : M U displayable_fingerprint :=
  match local_fingerprint, remote_fingerprint with
  | Some local_, Some remote =>
      malloc ;;;
      malloc ;;; let local_ := c_string local_ in
      malloc ;;; let remote := c_string remote in
      malloc ;;;
      let display_text := if strcmp local_ remote <=? 0 then local_ ++ remote else remote ++ local_ in
      ret (DisplayableFingerprint local_ remote display_text)
  | _, _ => fail SG_ERR_INVAL
  end.

Definition scannable_fingerprint_create (version : Z) (local_stable_identifier : option bytes)
    (local_identity_key : option ec_public_key) (remote_stable_identifier : option bytes)
    (remote_identity_key : option ec_public_key) : M U scannable_fingerprint :=
  match local_stable_identifier, local_identity_key, remote_stable_identifier, remote_identity_key with
  | Some local_id, Some local_key, Some remote_id, Some remote_key =>
      malloc ;;; malloc ;;; malloc ;;;
      ret (ScannableFingerprint version (Some (c_string local_id)) (Some local_key)
        (Some (c_string remote_id)) (Some remote_key))
  | _, _, _, _ => fail SG_ERR_INVAL
  end.

(** One half of the code: only when both the identifier and the key are
    there. *)
Definition serialize_half (identifier : option bytes) (key : option ec_public_key)
    : M U (option FingerprintData) :=
  match identifier, key with
  | Some id, Some k =>
      let identifier := signal_protocol_str_serialize_protobuf id in
      let* publickey := ec_public_key_serialize_protobuf k in
      ret (Some (FingerprintData_ (Some publickey) (Some identifier)))
  | _, _ => ret None
  end.

Definition scannable_fingerprint_serialize (scannable : scannable_fingerprint) : M U bytes :=
  let* local_fingerprint := serialize_half (sf_local_stable_identifier scannable)
    (sf_local_identity_key scannable) in
  let* remote_fingerprint := serialize_half (sf_remote_stable_identifier scannable)
    (sf_remote_identity_key scannable) in
  proto_pack (CombinedFingerprint_ (Some (sf_version scannable)) local_fingerprint remote_fingerprint).

Definition deserialize_half (half : option FingerprintData) : M U (option bytes * option ec_public_key) :=
  match half with
  | None => ret (None, None)
  | Some d =>
      let* identifier := match fd_identifier d with
        | Some b => let* s := or_nomem (signal_protocol_str_deserialize_protobuf b) in ret (Some s)
        | None => ret None
        end in
      let* key := match fd_publickey d with
        | Some b => let* k := curve_decode_point b in ret (Some k)
        | None => ret None
        end in
      ret (identifier, key)
  end.

Definition scannable_fingerprint_deserialize (data : bytes) : M U scannable_fingerprint :=
  let* combined_fingerprint := proto_unpack (A := CombinedFingerprint) data in
  let version := from_option id 0 (cf_version combined_fingerprint) in
  let* '(local_id, local_key) := deserialize_half (cf_localfingerprint combined_fingerprint) in
  let* '(remote_id, remote_key) := deserialize_half (cf_remotefingerprint combined_fingerprint) in
  scannable_fingerprint_create version local_id local_key remote_id remote_key.

(** [strcmp] follows its pointers. *)
Definition strcmp_ptr (s1 s2 : option bytes) : M U Z :=
  let* a := deref s1 in let* b := deref s2 in ret (strcmp (c_string a) (c_string b)).

Definition scannable_fingerprint_compare (scannable other : scannable_fingerprint) : M U Z :=
  match sf_remote_identity_key other, sf_local_identity_key other with
  | Some _, Some _ =>
      if negb (sf_version other =? sf_version scannable) then fail SG_ERR_FP_VERSION_MISMATCH
      else
        let* c := strcmp_ptr (sf_local_stable_identifier scannable) (sf_remote_stable_identifier other) in
        if negb (c =? 0) then fail SG_ERR_FP_IDENT_MISMATCH else
        let* c := strcmp_ptr (sf_remote_stable_identifier scannable) (sf_local_stable_identifier other) in
        if negb (c =? 0) then fail SG_ERR_FP_IDENT_MISMATCH else
        if negb (ec_public_key_compare (sf_local_identity_key scannable) (sf_remote_identity_key other) =? 0)
        then ret 0 else
        if negb (ec_public_key_compare (sf_remote_identity_key scannable) (sf_local_identity_key other) =? 0)
        then ret 0 else ret 1
  | _, _ => fail SG_ERR_FP_VERSION_MISMATCH
  end.

Definition fingerprint_generator_create_for (generator : fingerprint_generator)
    (local_stable_identifier : bytes) (local_identity_key : ec_public_key)
    (remote_stable_identifier : bytes) (remote_identity_key : ec_public_key) : M U fingerprint :=
  let* displayable_local :=
    fingerprint_generator_create_display_string generator local_stable_identifier local_identity_key in
  let* displayable_remote :=
    fingerprint_generator_create_display_string generator remote_stable_identifier remote_identity_key in
  let* displayable := displayable_fingerprint_create (Some displayable_local) (Some displayable_remote) in
  let* scannable := scannable_fingerprint_create VERSION (Some local_stable_identifier)
    (Some local_identity_key) (Some remote_stable_identifier) (Some remote_identity_key) in
  fingerprint_create (Some displayable) (Some scannable).
End Fingerprints.

(** * Lemmas *)

Lemma strcmp_antisym s1 : forall s2, strcmp s2 s1 = - strcmp s1 s2.
Proof.
  induction s1 as [|a s1 IH]; intros [|b s2]; try done. cbn.
  destruct (Z.ltb_spec a b), (Z.ltb_spec b a); try lia. apply IH.
Qed.

Lemma strcmp_0 s1 : forall s2, strcmp s1 s2 = 0 <-> s1 = s2.
Proof.
  induction s1 as [|a s1 IH]; intros [|b s2]; try done. cbn.
  destruct (Z.ltb_spec a b), (Z.ltb_spec b a); split; try lia; try (intros [= -> ->]; lia).
  - intros E%IH. subst. f_equal. lia.
  - intros [= -> ->]. by apply IH.
Qed.

Lemma c_string_idem b : c_string (c_string b) = c_string b.
Proof. induction b as [|c b IH]; cbn; [done|]. destruct (c =? 0) eqn:E; cbn; [done|]. by rewrite E, IH. Qed.

Lemma c_string_terminated b : c_string (c_string b ++ [0]) = c_string b.
Proof. induction b as [|c b IH]; cbn; [done|]. destruct (c =? 0) eqn:E; cbn; [done|]. by rewrite E, IH. Qed.

Lemma c_string_nonzero b : Forall (fun c => c <> 0) b -> c_string b = b.
Proof. induction 1 as [|c b Hc Hb IH]; cbn; [done|]. by rewrite (proj2 (Z.eqb_neq _ _) Hc), IH. Qed.

Lemma blen_c_string b : blen (c_string b) <= blen b.
Proof. unfold blen. induction b as [|c b IH]; cbn; [done|]. destruct (c =? 0); cbn; lia. Qed.

Definition is_digit (c : Z) : Prop := 48 <= c <= 57.

Lemma format_05d_digits n : Forall is_digit (format_05d n) /\ length (format_05d n) = 5%nat.
Proof.
  split; [|done]. apply Forall_map, Forall_forall. intros p _. unfold is_digit.
  pose proof (Z.mod_pos_bound (n / p) 10). cbn. lia.
Qed.

Lemma display_digits_shape d : Forall is_digit (display_digits d) /\ length (display_digits d) = 30%nat.
Proof.
  unfold display_digits. cbn [map concat]. split; [|done].
  repeat (apply Forall_app; split; [apply format_05d_digits|]). constructor.
Qed.

(** Different numbers have different digits. *)
Lemma format_05d_inj m n : 0 <= m < 100000 -> 0 <= n < 100000 -> format_05d m = format_05d n -> m = n.
Proof. intros Hm Hn [= H1 H2 H3 H4 H5]. rewrite Z.div_1_r in *. div_lia. Qed.

Lemma c_string_digits d : c_string (display_digits d) = display_digits d.
Proof.
  apply c_string_nonzero. eapply Forall_impl; [apply display_digits_shape|]. unfold is_digit. intros c. lia.
Qed.

(** ** The specification *)

Module Display.
Section Spec.
Context `{CL : CryptoLaws}.

Fixpoint rehash (n : nat) (key h : bytes) : bytes :=
  match n with
  | O => h
  | S n' => rehash n' key (sha512_spec (h ++ key))
  end.

(** The 30 digits of an identifier and a key. *)
Definition digits (n : nat) (id : bytes) (key : ec_public_key) : bytes :=
  display_digits (rehash n (ec_public_key_bytes key) ([0; 0] ++ ec_public_key_bytes key ++ id)).

(** The text both sides show: the smaller digits first. *)
Definition text (a b : bytes) : bytes := if strcmp a b <=? 0 then a ++ b else b ++ a.

Lemma text_comm a b : text a b = text b a.
Proof.
  unfold text. rewrite (strcmp_antisym a b). pose proof (strcmp_0 a b) as H0.
  destruct (Z.leb_spec (strcmp a b) 0), (Z.leb_spec (- strcmp a b) 0); try done; try lia.
  assert (strcmp a b = 0) as ->%H0 by lia. done.
Qed.
End Spec.
End Display.

(** An identifier, as a string, and a key as the library makes them. *)
Record party_ok (id : bytes) (key : ec_public_key) : Prop := {
  party_string : c_string id = id;
  party_short : blen id <= 1000000000;
  party_key : wf_public key
}.

Definition scan_code (version : Z) (lid : bytes) (lk : ec_public_key) (rid : bytes) (rk : ec_public_key)
    : scannable_fingerprint :=
  ScannableFingerprint version (Some lid) (Some lk) (Some rid) (Some rk).

Section Run.
Context {U : Type} `{CL : CryptoLaws}.
Implicit Types w : world U.

Lemma hash_loop_ok n capacity key : forall h w, blen h + blen key <= capacity -> 64 + blen key <= capacity ->
  hash_loop n capacity key h w = (Ok (Display.rehash n key h), w).
Proof.
  induction n as [|n IH]; intros h w H1 H2; [done|]. cbn [hash_loop Display.rehash].
  rewrite (proj2 (Z.ltb_ge _ _)) by (rewrite blen_app; lia).
  erewrite bind_ok by (unfold signal_sha512_digest; rewrite sha512_law; reflexivity).
  assert (blen (sha512_spec (h ++ key)) = 64) as Hl by (unfold blen; by rewrite sha512_length_law).
  rewrite Hl. cbn. apply IH; [by rewrite Hl|done].
Qed.

Lemma length_rehash n key h : (30 <= length h)%nat -> (30 <= length (Display.rehash n key h))%nat.
Proof.
  revert h. induction n as [|n IH]; intros h H; [done|]. cbn. apply IH. rewrite sha512_length_law. lia.
Qed.

Lemma create_display_string_ok g id key w : mem_ok w -> party_ok id key ->
  fingerprint_generator_create_display_string g id key w =
  (Ok (Display.digits (Z.to_nat (fg_iterations g)) id key), w).
Proof.
  intros Hm [Hs Hb Hk]. unfold fingerprint_generator_create_display_string.
  erewrite bind_ok by by apply ec_public_key_serialize_ok. rewrite Hs. cbv zeta.
  assert (blen (ec_public_key_bytes key) = 33) as Hl.
  { by apply blen_ec_public_key_bytes. }
  rewrite Hl. pose proof (blen_nonneg id).
  do 2 (erewrite bind_ok by (apply alloc_or_nomem_ok; [done|];
    unfold fits, SIZE_MAX, SIGNAL_BUFFER_HEADER, SHA512_DIGEST_LENGTH; lia)).
  erewrite bind_ok by (apply hash_loop_ok; rewrite ?blen_app, Hl; change (blen [0; u8 VERSION]) with 2;
    unfold SHA512_DIGEST_LENGTH; lia).
  rewrite (proj2 (Z.ltb_ge _ _)); [by erewrite bind_ok by by apply malloc_ok|].
  pose proof (length_rehash (Z.to_nat (fg_iterations g)) (ec_public_key_bytes key)
    ([0; u8 VERSION] ++ ec_public_key_bytes key ++ id)) as Hr.
  unfold blen in *. rewrite !length_app in Hr. lia.
Qed.

Lemma displayable_create_ok a b w : mem_ok w ->
  displayable_fingerprint_create (Some a) (Some b) w =
  (Ok (DisplayableFingerprint (c_string a) (c_string b) (Display.text (c_string a) (c_string b))), w).
Proof.
  intros Hm. unfold displayable_fingerprint_create. by do 4 (erewrite bind_ok by by apply malloc_ok).
Qed.

Lemma scannable_create_ok v lid lk rid rk w : mem_ok w ->
  scannable_fingerprint_create v (Some lid) (Some lk) (Some rid) (Some rk) w =
  (Ok (scan_code v (c_string lid) lk (c_string rid) rk), w).
Proof.
  intros Hm. unfold scannable_fingerprint_create. by do 3 (erewrite bind_ok by by apply malloc_ok).
Qed.

Lemma create_for_ok g lid lk rid rk w : mem_ok w -> party_ok lid lk -> party_ok rid rk ->
  let dl := Display.digits (Z.to_nat (fg_iterations g)) lid lk in
  let dr := Display.digits (Z.to_nat (fg_iterations g)) rid rk in
  fingerprint_generator_create_for g lid lk rid rk w =
  (Ok (Fingerprint (Some (DisplayableFingerprint dl dr (Display.text dl dr)))
    (Some (scan_code VERSION lid lk rid rk))), w).
Proof.
  intros Hm Hl Hr dl dr. unfold fingerprint_generator_create_for.
  do 2 (erewrite bind_ok by by apply create_display_string_ok).
  erewrite bind_ok by by apply displayable_create_ok. unfold Display.digits. rewrite !c_string_digits.
  erewrite bind_ok by by apply scannable_create_ok. rewrite (party_string _ _ Hl), (party_string _ _ Hr).
  unfold fingerprint_create. by erewrite bind_ok by by apply malloc_ok.
Qed.

(** ** The code on the wire *)

Definition half_of (id : bytes) (key : ec_public_key) : FingerprintData :=
  FingerprintData_ (Some (ec_public_key_bytes key)) (Some id).
Definition combined_of (v : Z) (lid : bytes) (lk : ec_public_key) (rid : bytes) (rk : ec_public_key)
    : CombinedFingerprint :=
  CombinedFingerprint_ (Some v) (Some (half_of lid lk)) (Some (half_of rid rk)).

Lemma serialize_half_ok id key w : mem_ok w -> party_ok id key ->
  serialize_half (Some id) (Some key) w = (Ok (Some (half_of id key)), w).
Proof.
  intros Hm H. unfold serialize_half, signal_protocol_str_serialize_protobuf.
  erewrite bind_ok by by apply ec_public_key_serialize_protobuf_ok. by rewrite (party_string _ _ H).
Qed.

Lemma deserialize_half_ok id key w : mem_ok w -> party_ok id key ->
  deserialize_half (Some (half_of id key)) w = (Ok (Some id, Some key), w).
Proof.
  intros Hm [Hs Hb Hk]. unfold deserialize_half, half_of. cbn [fd_identifier fd_publickey].
  rewrite (bind_ok _ _ w (Some id) w); cycle 1.
  { unfold or_nomem, signal_protocol_str_deserialize_protobuf, bind. rewrite try_malloc_ok by done. cbn.
    rewrite <- Hs at 1. by rewrite c_string_terminated, Hs. }
  rewrite (bind_ok _ _ w (Some key) w); [done|].
  by erewrite bind_ok by by apply curve_decode_point_ok.
Qed.

Lemma half_ub id key : party_ok id key -> slots_ub (to_slots (half_of id key)) <= 1000000100.
Proof.
  intros [_ Hb Hk]. cbn [to_slots FingerprintData_proto half_of fd_publickey fd_identifier].
  rewrite !slots_ub_cons, slots_ub_nil.
  assert (blen (ec_public_key_bytes key) <= 33) as Hl by (by rewrite blen_ec_public_key_bytes).
  pose proof (bytes_slot_ub (Some (ec_public_key_bytes key)) 33 ltac:(lia) Hl).
  pose proof (bytes_slot_ub (Some id) 1000000000 ltac:(lia) Hb). lia.
Qed.

Lemma combined_wf v lid lk rid rk : is_u32 v -> party_ok lid lk -> party_ok rid rk ->
  proto_wf (combined_of v lid lk rid rk).
Proof.
  intros Hv Hl Hr. split; [unfold combined_of, half_of; proto_typed_solve|].
  unfold wf_size, UINT32_MOD. eapply Z.le_lt_trans; [apply Z.add_le_mono_r, packed_ub|].
  cbn [to_slots CombinedFingerprint_proto combined_of cf_version cf_localfingerprint cf_remotefingerprint].
  rewrite !slots_ub_cons, slots_ub_nil. pose proof (int_slot_ub (Some v)).
  pose proof (msg_slot_ub (Some (half_of lid lk)) 1000000100 ltac:(lia) (half_ub _ _ Hl)).
  pose proof (msg_slot_ub (Some (half_of rid rk)) 1000000100 ltac:(lia) (half_ub _ _ Hr)). lia.
Qed.

Lemma scannable_serialize_ok v lid lk rid rk w : mem_ok w -> is_u32 v -> party_ok lid lk -> party_ok rid rk ->
  scannable_fingerprint_serialize (scan_code v lid lk rid rk) w = (Ok (packed (combined_of v lid lk rid rk)), w).
Proof.
  intros Hm Hv Hl Hr. unfold scannable_fingerprint_serialize, scan_code.
  do 2 (erewrite bind_ok by by apply serialize_half_ok). by apply proto_pack_ok, combined_wf.
Qed.

Lemma scannable_deserialize_ok v lid lk rid rk w : mem_ok w -> is_u32 v -> party_ok lid lk -> party_ok rid rk ->
  scannable_fingerprint_deserialize (packed (combined_of v lid lk rid rk)) w =
  (Ok (scan_code v lid lk rid rk), w).
Proof.
  intros Hm Hv Hl Hr. unfold scannable_fingerprint_deserialize.
  erewrite bind_ok by (apply proto_unpack_pack; [done|by apply combined_wf]).
  cbn [cf_version cf_localfingerprint cf_remotefingerprint combined_of from_option id].
  erewrite bind_ok by by apply deserialize_half_ok. cbv beta iota.
  erewrite bind_ok by by apply deserialize_half_ok. cbv beta iota.
  rewrite scannable_create_ok by done. by rewrite (party_string _ _ Hl), (party_string _ _ Hr).
Qed.

(** Comparison of two complete codes. *)
Lemma compare_codes v1 lid1 lk1 rid1 rk1 v2 lid2 lk2 rid2 rk2 w :
  scannable_fingerprint_compare (scan_code v1 lid1 lk1 rid1 rk1) (scan_code v2 lid2 lk2 rid2 rk2) w =
  (if negb (v2 =? v1) then Err SG_ERR_FP_VERSION_MISMATCH
   else if bool_decide (c_string lid1 = c_string rid2 /\ c_string rid1 = c_string lid2)
   then Ok (if (ec_public_key_compare (Some lk1) (Some rk2) =? 0) &&
               (ec_public_key_compare (Some rk1) (Some lk2) =? 0) then 1 else 0)
   else Err SG_ERR_FP_IDENT_MISMATCH, w).
Proof.
  unfold scannable_fingerprint_compare, scan_code, strcmp_ptr.
  cbn [sf_version sf_local_stable_identifier sf_local_identity_key sf_remote_stable_identifier
       sf_remote_identity_key]. destruct (negb (v2 =? v1)); [done|]. unfold bind, deref, ret. cbn -[ec_public_key_compare].
  destruct (Z.eqb_spec (strcmp (c_string lid1) (c_string rid2)) 0) as [E1|E1]; rewrite strcmp_0 in E1; cbn -[ec_public_key_compare];
    [|rewrite bool_decide_eq_false_2 by tauto; done].
  destruct (Z.eqb_spec (strcmp (c_string rid1) (c_string lid2)) 0) as [E2|E2]; rewrite strcmp_0 in E2; cbn -[ec_public_key_compare];
    [|rewrite bool_decide_eq_false_2 by tauto; done].
  rewrite bool_decide_eq_true_2 by done.
  do 2 (destruct (ec_public_key_compare _ _ =? 0); cbn -[ec_public_key_compare]; try done).
Qed.
End Run.

Section Always.
Context {U : Type} `{CP : CryptoProvider}.
Implicit Types w : world U.

(** Whatever the octets, a code that is read is complete. *)
Lemma scannable_deserialize_inv data w s w' : scannable_fingerprint_deserialize data w = (Ok s, w') ->
  exists v lid lk rid rk, s = scan_code v lid lk rid rk /\ c_string lid = lid /\ c_string rid = rid /\
    wf_public lk /\ wf_public rk.
Proof.
  unfold scannable_fingerprint_deserialize. intros H. minv H. minv H. destruct a0 as [lid lk].
  minv H. destruct a0 as [rid rk].
  assert (forall h (w1 w2 : world U) i k, deserialize_half h w1 = (Ok (i, Some k), w2) -> wf_public k) as Hk.
  { intros h w4 w5 i k E. unfold deserialize_half in E. destruct h as [[kb ib]|]; [|inversion E].
    minv E. minv E. inversion E; subst. destruct kb as [b|]; [|inversion H4].
    cbn in H4. minv H4. inversion H4; subst. by apply curve_decode_point_inv in H5 as [? _]. }
  unfold scannable_fingerprint_create in H. destruct lid as [lid|], lk as [lk|], rid as [rid|], rk as [rk|];
    try discriminate. do 3 minv H. inversion H; subst. unfold scan_code. do 5 eexists. split; [done|].
  rewrite !c_string_idem. split_and!; eauto.
Qed.

Lemma safe_scannable_deserialize data : safe (@scannable_fingerprint_deserialize U data).
Proof.
  unfold scannable_fingerprint_deserialize, deserialize_half, scannable_fingerprint_create, or_nomem,
    signal_protocol_str_deserialize_protobuf. safe_solve.
Qed.
End Always.

(** * Properties *)

Section Properties.
Context {U : Type} `{CL : CryptoLaws}.
Implicit Types w : world U.


(** A scanned code is checked.  Whatever octets are scanned and whichever
    allocations fail, reading and comparing them does not fault, and the
    answer is a match only when the code read holds our identity as the remote
    one and the other's as the local one, in our version. *)
Theorem scanned_code_is_checked data lid lk rid rk w : party_ok lid lk -> party_ok rid rk ->
  let scan := bind (scannable_fingerprint_deserialize data)
    (scannable_fingerprint_compare (scan_code VERSION lid lk rid rk)) in
  (forall f, fst (scan w) <> Fault f) /\
  (forall w', scan w = (Ok 1, w') ->
    scannable_fingerprint_deserialize data w = (Ok (scan_code VERSION rid rk lid lk), w')).
Proof.
  intros Hl Hr scan. split.
  - intros f. unfold scan. apply (safe_bind _ _ (fun s => exists v a b c d, s = scan_code v a b c d)).
    + apply safe_scannable_deserialize.
    + intros w1 s w2 E. apply scannable_deserialize_inv in E as (v & a & b & c & d & -> & _). eauto 8.
    + intros s (v & a & b & c & d & ->) w1 f1. rewrite compare_codes. cbn [fst].
      destruct (negb _); [done|]. by destruct (bool_decide _).
  - intros w' H. unfold scan in H. apply bind_Ok_inv in H as (s & w1 & E & H).
    pose proof E as (v & lid2 & lk2 & rid2 & rk2 & -> & C1 & C2 & W1 & W2)%scannable_deserialize_inv.
    rewrite compare_codes in H. destruct (Z.eqb_spec v VERSION) as [->|]; [|discriminate]. cbn [negb] in H.
    destruct (bool_decide _) eqn:B; [|discriminate]. apply bool_decide_eq_true in B as [B1 B2].
    rewrite C1, (party_string _ _ Hr) in B2. rewrite C2, (party_string _ _ Hl) in B1.
    destruct (Z.eqb_spec (ec_public_key_compare (Some lk) (Some rk2)) 0) as [K1|]; [|discriminate].
    destruct (Z.eqb_spec (ec_public_key_compare (Some rk) (Some lk2)) 0) as [K2|]; [|discriminate].
    destruct Hl as [_ _ Hlk], Hr as [_ _ Hrk]. rewrite ec_public_key_compare_0 in K1, K2 by (by intros ? [= <-]).
    inversion H; subst. by inversion K1; inversion K2; subst.
Qed.
End Properties.

(** ** The theorems at concrete inputs *)

Lemma sample_party name z : c_string name = name -> blen name <= 1000000000 ->
  party_ok name (ec_key_pair_get_public (sample_pair z)).
Proof. intros H1 H2. split; [exact H1|exact H2|apply sample_pair_matches]. Qed.

Definition alice_name : bytes := [43; 49; 52].
Definition bob_name : bytes := [43; 52; 57; 55].


Lemma scanned_code_is_checked_witness : exists s w', scannable_fingerprint_deserialize
    (packed (combined_of VERSION bob_name (ec_key_pair_get_public (sample_pair 2)) alice_name
      (ec_key_pair_get_public (sample_pair 1)))) (fresh_world tt) = (Ok s, w') /\
  s = scan_code VERSION bob_name (ec_key_pair_get_public (sample_pair 2)) alice_name
      (ec_key_pair_get_public (sample_pair 1)).
Proof.
  destruct (scanned_code_is_checked (packed (combined_of VERSION bob_name (ec_key_pair_get_public (sample_pair 2))
    alice_name (ec_key_pair_get_public (sample_pair 1)))) alice_name (ec_key_pair_get_public (sample_pair 1))
    bob_name (ec_key_pair_get_public (sample_pair 2)) (fresh_world tt)) as [_ H];
    [apply sample_party; by vm_compute|apply sample_party; by vm_compute|].
  do 2 eexists. split; [apply H; vm_compute; reflexivity|reflexivity].
Defined.
