(* ===== verification/GroupSessions.v ===== *)
(** Group messaging end to end: what a sender makes of its plaintexts is read
    by every receiver of its distribution message, and nothing is read that
    was not signed by the sender. *)
From Stdlib Require Import String.
From stdpp Require Import base list gmap.
From Stdlib Require Import ZArith Lia.
From S2P Require Import Prelude Buffers Hkdf Curve Sample Protobuf Messages Ratchet SessionState.
From S2P Require Import SessionStorage SenderKeys RatchetSession SessionRecord Protocol PreKeys Store.
From S2P Require Import Scenario SessionCipher Groups Sessions.
#[local] Open Scope Z_scope.
#[local] Open Scope signal_scope.

Section Sessions.
Context {U : Type} `{CL : CryptoLaws} `{VL : CurveLaws} `{SL : StoreLaws U}.
Implicit Types w : world U.

Definition plain_group_cipher (c : group_cipher U) : Prop :=
  gc_inside_callback c = false /\ gc_decrypt_callback c = None.

(** The sender is about to use the key of [ck] in the state [id]. *)
Definition sends_at (u : U) (n : signal_protocol_sender_key_name) (id : Z) (ck : sender_chain_key)
    (kp : ec_key_pair) : Prop :=
  exists l rest, group_holds u n (SenderKeyRecord
    (SenderKeyState id ck (ec_key_pair_get_public kp) (Some (ec_key_pair_get_private kp)) l :: rest)).

(** The receiver expects the key of [ck] in the state [id], signed with [pk]. *)
Definition receives_at (u : U) (n : signal_protocol_sender_key_name) (id : Z) (ck : sender_chain_key)
    (pk : ec_public_key) : Prop :=
  exists r s, group_holds u n r /\ List.find (fun s => sst_key_id s =? id) (srec_states r) = Some s /\
    sst_chain_key s = ck /\ sst_signature_public_key s = pk.

Lemma verify_created id it ct sg kp w' :
  length sg = SIGNATURE_LENGTH ->
  (forall w0 : world U, curve_verify_signature (ec_key_pair_get_public kp) (sender_key_body id it ct) sg w0 = (Ok 1, w0)) ->
  sender_key_message_verify_signature (SenderKeyMsg 3 id it ct (sender_key_body id it ct ++ sg))
    (ec_key_pair_get_public kp) w' = (Ok tt, w').
Proof.
  intros Hl Hv. rewrite (sender_key_message_verify_signature_split _ (sender_key_body id it ct) sg) by done.
  specialize (Hv w'). unfold curve_verify_signature, blen in Hv. rewrite Hl in Hv. cbn in Hv.
  destruct (_ =? 0); [done|discriminate].
Qed.

Lemma group_encrypt_ok c n id ck kp p ct w : mem_ok w -> plain_group_cipher c -> gc_sender_key_id c = n ->
  sends_at (w_user w) n id ck kp -> signing_pair kp ->
  encrypt_func SG_CIPHER_AES_CBC_PKCS5 (msg_cipher_key (SenderKey.message_key ck))
    (msg_iv (SenderKey.message_key ck)) p = inl ct -> short ct ->
  exists m w', group_cipher_encrypt c p w = (Ok m, w') /\ mem_ok w' /\
    sends_at (w_user w') n id (SenderKey.next_chain ck) kp /\
    snm_key_id m = id /\ snm_iteration m = chn_iteration ck /\ snm_ciphertext m = ct /\
    (forall w0 : world U, mem_ok w0 -> sender_key_message_deserialize (snm_serialized m) w0 = (Ok m, w0)) /\
    (forall w0 : world U, sender_key_message_verify_signature m (ec_key_pair_get_public kp) w0 = (Ok tt, w0)).
Proof.
  intros Hm [Hin _] <- (l & rest & [Hst Hok]) [(Hpriv & Hpub & Hd) Hsk] He Hs.
  pose proof (sr_ok_states _ Hok) as Hall. cbn [srec_states] in Hall.
  apply Forall_cons in Hall as [[S1 S2 S3 S4 S5 S6] Hrest]. cbn in S1, S2, S3, S4, S5, S6.
  destruct (sender_key_message_create_ok id (chn_iteration ck) ct (ec_key_pair_get_private kp) w Hm S1
    (sc_ok_iteration _ S2) Hs Hsk) as (sg & Hl & Ec & Hv).
  set (r' := SenderKeyRecord (SenderKeyState id (SenderKey.next_chain ck) (ec_key_pair_get_public kp)
    (Some (ec_key_pair_get_private kp)) l :: rest)).
  assert (sender_record_ok r') as Hr'.
  { split; [|apply Hok]. constructor; [|done]. split; try done. apply sender_chain_ok_next. }
  destruct (store_sender_key_ok (gc_sender_key_id c) r' (rng_step w) Hm Hr') as (u & Es & Hu).
  do 2 eexists. split.
  - unfold group_cipher_encrypt, map_err. rewrite Hin.
    erewrite bind_ok by (apply load_sender_key_some; [exact Hm|exact Hok|exact Hst]). erewrite bind_ok by reflexivity.
    cbn [sst_signature_private_key sst_chain_key sst_key_id].
    erewrite bind_ok by by apply create_message_key_ok.
    erewrite bind_ok by (unfold signal_encrypt; rewrite He; reflexivity).
    erewrite bind_ok by exact Ec. erewrite bind_ok by by apply create_next_sender_ok.
    erewrite bind_ok by exact Es. reflexivity.
  - split; [done|]. split; [exists l, rest; by eapply group_holds_put|]. do 3 (split; [done|]).
    split; [intros w0 Hm0; apply sender_key_message_deserialize_ok; try done; apply S2|].
    intros w0. apply verify_created; [done|]. intros w1. by apply Hv.
Qed.

Lemma find_update id s l s0 : List.find (fun s => sst_key_id s =? id) l = Some s0 -> sst_key_id s = id ->
  List.find (fun s => sst_key_id s =? id) (update_sender_state id s l) = Some s.
Proof.
  intros H E. induction l as [|x l IH]; [done|]. cbn in *. destruct (sst_key_id x =? id) eqn:Ex; cbn.
  - by rewrite E, Z.eqb_refl.
  - rewrite Ex. by apply IH.
Qed.

Lemma Forall_update_state (P : sender_key_state -> Prop) id s l : Forall P l -> P s ->
  Forall P (update_sender_state id s l).
Proof.
  intros H Hs. induction H as [|x l Hx Hl IH]; cbn; [done|].
  destruct (_ =? _); by constructor.
Qed.

Lemma length_update_state id s l : length (update_sender_state id s l) = length l.
Proof. induction l as [|x l IH]; cbn; [done|]. destruct (_ =? _); cbn; auto. Qed.

Lemma find_ok r id s : sender_record_ok r -> List.find (fun s => sst_key_id s =? id) (srec_states r) = Some s ->
  sender_state_ok s /\ sst_key_id s = id.
Proof.
  intros [Hr _] H. apply List.find_some in H as [Hin Hid]. apply Z.eqb_eq in Hid.
  rewrite Forall_forall in Hr. split; [|done]. apply Hr. by apply list_elem_of_In.
Qed.

Lemma sender_result_same s it k s' : sender_result s it = inl (k, s') ->
  sst_key_id s' = sst_key_id s /\ sst_signature_public_key s' = sst_signature_public_key s.
Proof.
  unfold sender_result. destruct (_ <? _).
  - destruct (take_sender_key _ _) as [[? ?]|]; [|done]. by intros [= <- <-].
  - destruct (_ <? _); [done|]. by intros [= <- <-].
Qed.

Lemma group_decrypt_ok c r s m k s' p w : mem_ok w -> plain_group_cipher c ->
  group_holds (w_user w) (gc_sender_key_id c) r ->
  List.find (fun s => sst_key_id s =? snm_key_id m) (srec_states r) = Some s -> is_u32 (snm_iteration m) ->
  sender_key_message_verify_signature m (sst_signature_public_key s) w = (Ok tt, w) ->
  sender_result s (snm_iteration m) = inl (k, s') ->
  decrypt_func SG_CIPHER_AES_CBC_PKCS5 (msg_cipher_key k) (msg_iv k) (snm_ciphertext m) = inl p ->
  exists w', group_cipher_decrypt c m w = (Ok p, w') /\ mem_ok w' /\
    group_holds (w_user w') (gc_sender_key_id c)
      (SenderKeyRecord (update_sender_state (snm_key_id m) s' (srec_states r))).
Proof.
  intros Hm [Hin Hcb] [Hst Hok] Hf Hit Hv Hres Hd. destruct (find_ok r _ s Hok Hf) as [Hs Hid].
  destruct (sender_result_ok _ _ _ _ Hs Hres) as [Hs' _].
  set (r' := SenderKeyRecord (update_sender_state (snm_key_id m) s' (srec_states r))).
  assert (sender_record_ok r') as Hr'.
  { destruct Hok as [H1 H2]. split; cbn [r' srec_states]; [by apply Forall_update_state|].
    by rewrite length_update_state. }
  destruct (store_sender_key_ok (gc_sender_key_id c) r' w Hm Hr') as (u & Es & Hu).
  exists (with_user w u). split; [|split; [done|by eapply group_holds_put]].
  unfold group_cipher_decrypt, map_err. rewrite Hin.
  erewrite bind_ok by (apply load_sender_key_some; [exact Hm|exact Hok|exact Hst]).
  assert (sender_key_record_is_empty r = false) as ->.
  { unfold sender_key_record_is_empty. by destruct (srec_states r). }
  erewrite bind_ok by (unfold sender_key_record_get_sender_key_state_by_id; rewrite Hf; reflexivity).
  erewrite bind_ok by exact Hv.
  erewrite bind_ok by (rewrite get_sender_key_ok, Hres by done; reflexivity). cbv beta iota.
  erewrite bind_ok by (unfold signal_decrypt; rewrite Hd; reflexivity).
  unfold group_cipher_decrypt_callback. rewrite Hcb. erewrite bind_ok by reflexivity.
  erewrite bind_ok by exact Es. done.
Qed.

(** The message at the front of the receiver's chain. *)
Lemma group_receive_next c id ck pk m p ct w : mem_ok w -> plain_group_cipher c ->
  receives_at (w_user w) (gc_sender_key_id c) id ck pk ->
  snm_key_id m = id -> snm_iteration m = chn_iteration ck -> snm_ciphertext m = ct ->
  (forall w0 : world U, sender_key_message_verify_signature m pk w0 = (Ok tt, w0)) ->
  decrypt_func SG_CIPHER_AES_CBC_PKCS5 (msg_cipher_key (SenderKey.message_key ck))
    (msg_iv (SenderKey.message_key ck)) ct = inl p ->
  exists w', group_cipher_decrypt c m w = (Ok p, w') /\ mem_ok w' /\
    receives_at (w_user w') (gc_sender_key_id c) id (SenderKey.next_chain ck) pk.
Proof.
  intros Hm Hc (r & s & Hh & Hf & Eck & Epk) Hid Hit Hct Hv Hd. subst ct.
  destruct (find_ok r id s (gh_ok _ _ _ Hh) Hf) as [Hs Esid].
  destruct (sender_result s (snm_iteration m)) as [[k s']|e] eqn:Hres; cycle 1.
  { exfalso. unfold sender_result in Hres. rewrite Eck, Hit, Z.ltb_irrefl, Z.sub_diag in Hres. done. }
  pose proof (sender_result_same _ _ _ _ Hres) as [Hsid Hspk].
  assert (k = SenderKey.message_key ck /\ sst_chain_key s' = SenderKey.next_chain ck) as [-> Hck'].
  { unfold sender_result in Hres. rewrite Eck, Hit, Z.ltb_irrefl, Z.sub_diag in Hres. cbn in Hres.
    by inversion Hres; subst. }
  destruct (group_decrypt_ok c r s m (SenderKey.message_key ck) s' p w) as (w' & E & Hm' & Hh'); try done.
  - by rewrite Hid.
  - rewrite Hit, <- Eck. apply Hs.
  - by rewrite Epk.
  - exists w'. split; [done|]. split; [done|]. eexists _, s'. split; [exact Hh'|].
    cbn [srec_states]. rewrite Hid. split; [|by rewrite Hspk].
    apply (find_update id s' _ s); [done|congruence].
Qed.

Lemma frame_load_sender_key n : frame (signal_protocol_sender_key_load_key n).
Proof.
  unfold signal_protocol_sender_key_load_key, sender_key_record_create. apply frame_bind.
  { apply frame_call. intros u. by rewrite load_sender_key_law. }
  intros [r b]. frame_solve.
Qed.

Lemma frame_group_skip_loop fuel it : forall ck s, frame (group_skip_loop (U := U) fuel it ck s).
Proof. induction fuel; intros ck s; cbn [group_skip_loop]; frame_solve. Qed.

Lemma frame_get_sender_key s it : frame (group_cipher_get_sender_key (U := U) s it).
Proof.
  unfold group_cipher_get_sender_key. frame_solve. apply frame_group_skip_loop.
Qed.

Lemma err_keeps_store_sender_key {T} (f : U -> T) n r : err_keeps f (signal_protocol_sender_key_store_key n r).
Proof.
  unfold signal_protocol_sender_key_store_key. apply err_keeps_bind.
  - apply frame_keeps, frame_sender_record_serialize.
  - intros b w e w' E. exfalso. eapply no_err_call_; [|exact E].
    intros u. destruct (store_sender_key_law n b u) as (u' & -> & _). eauto.
Qed.

(** ** Starting a group *)

Lemma generate_sender_key_id_ok w : exists id, is_u32 id /\
  signal_protocol_key_helper_generate_sender_key_id w = (Ok id, rng_step w).
Proof.
  unfold signal_protocol_key_helper_generate_sender_key_id, signal_protocol_key_helper_get_random_sequence.
  destruct (random_word_run w) as (z & Hz & Hrun). eexists. split; cycle 1.
  - rewrite (Hrun _ (fun x => ret (Z.land x INT32_MAX mod INT32_MAX))). reflexivity.
  - unfold is_u32, INT32_MAX, UINT32_MOD. pose proof (Z.mod_pos_bound (Z.land z 2147483647) 2147483647). lia.
Qed.

Lemma generate_sender_key_ok w : mem_ok w -> exists key, length key = 32%nat /\
  signal_protocol_key_helper_generate_sender_key w = (Ok key, rng_step w).
Proof.
  intros Hm. unfold signal_protocol_key_helper_generate_sender_key.
  destruct (random_law (w_rng w) 32) as (key & E & Hl). exists key. split; [done|].
  erewrite bind_ok by (apply alloc_or_nomem_ok; [done|by unfold fits]).
  unfold signal_crypto_random. by rewrite E.
Qed.

(** A new sender distributes the start of its chain. *)
Lemma create_session_ok n w : mem_ok w -> s_sender_keys (view (w_user w)) !! n = None ->
  exists id key kp w', is_u32 id /\ length key = 32%nat /\ signing_pair kp /\ mem_ok w' /\
    group_session_builder_create_session n w = (Ok (distribution_of id 0 key (ec_key_pair_get_public kp)), w') /\
    sends_at (w_user w') n id (SenderChainKey 0 key) kp.
Proof.
  intros Hm Hn. destruct (generate_sender_key_id_ok w) as (id & Hid & E1).
  destruct (generate_sender_key_ok (rng_step w) Hm) as (key & Hkey & E2).
  destruct (curve_generate_signing_pair_ok (rng_step (rng_step w)) Hm) as (kp & E3 & Hkp).
  pose proof Hkp as [(Hpriv & Hpub & _) _].
  set (s := SenderKeyState id (SenderChainKey 0 key) (ec_key_pair_get_public kp)
    (Some (ec_key_pair_get_private kp)) []).
  assert (sender_record_ok (SenderKeyRecord [s])) as Hr.
  { split; [|cbn; unfold MAX_STATES; lia]. constructor; [|done]. by apply sender_state_ok_new. }
  destruct (store_sender_key_ok n (SenderKeyRecord [s]) (rng_step (rng_step (rng_step w))) Hm Hr) as (u & E4 & Hu).
  exists id, key, kp, (with_user (rng_step (rng_step (rng_step w))) u). do 4 (split; [done|]).
  split; [|exists [], []; by eapply group_holds_put].
  unfold group_session_builder_create_session. erewrite bind_ok by by apply load_sender_key_none.
  erewrite bind_ok; cycle 1.
  { cbn [sender_key_record_is_empty srec_states]. erewrite bind_ok by exact E1.
    erewrite bind_ok by exact E2. erewrite bind_ok by exact E3.
    unfold sender_key_record_set_sender_key_state. erewrite bind_ok by by apply add_state_ok.
    erewrite bind_ok by exact E4. reflexivity. }
  erewrite bind_ok by reflexivity. by apply sender_key_distribution_message_create_ok.
Qed.

(** The state of the receiver before: no record, or a stored one. *)
Definition group_known (u : U) (n : signal_protocol_sender_key_name) : Prop :=
  s_sender_keys (view u) !! n = None \/ exists r, group_holds u n r.

Lemma process_session_ok n id it key pk w : mem_ok w -> group_known (w_user w) n ->
  is_u32 id -> is_u32 it -> length key = 32%nat -> wf_public pk ->
  exists w', group_session_builder_process_session n (distribution_of id it key pk) w = (Ok 0, w') /\
    mem_ok w' /\ receives_at (w_user w') n id (SenderChainKey it key) pk.
Proof.
  intros Hm Hk Hid Hit Hkey Hpk.
  assert (exists r, signal_protocol_sender_key_load_key n w = (Ok r, w) /\ sender_record_ok r) as (r & El & Hr).
  { destruct Hk as [Hn|[r [Hn Hr]]].
    - exists (SenderKeyRecord []). split; [by apply load_sender_key_none|]. split; [done|cbn; lia].
    - exists r. split; [by apply load_sender_key_some|done]. }
  set (s := SenderKeyState id (SenderChainKey it key) pk None []).
  assert (sender_record_ok (SenderKeyRecord (take MAX_STATES (s :: srec_states r)))) as Hr'.
  { apply sender_record_ok_add; [done|]. by apply sender_state_ok_new. }
  destruct (store_sender_key_ok n _ w Hm Hr') as (u & E & Hu).
  exists (with_user w u). split; [|split; [done|]].
  - unfold group_session_builder_process_session. erewrite bind_ok by exact El.
    unfold sender_key_record_add_sender_key_state. erewrite bind_ok by by apply add_state_ok. exact E.
  - exists (SenderKeyRecord (take MAX_STATES (s :: srec_states r))), s.
    split; [by eapply group_holds_put|]. cbn. by rewrite Z.eqb_refl.
Qed.

(** ** A stream of messages *)

(** Encrypt one after another and send the octets. *)
Fixpoint group_send (c : group_cipher U) (ps : list bytes) : M U (list bytes) :=
  match ps with
  | [] => ret []
  | p :: ps' =>
      let* m := group_cipher_encrypt c p in
      let* rest := group_send c ps' in
      ret (snm_serialized m :: rest)
  end.

(** Read the octets and decrypt one after another. *)
Fixpoint group_receive (c : group_cipher U) (ds : list bytes) : M U (list bytes) :=
  match ds with
  | [] => ret []
  | d :: ds' =>
      let* m := sender_key_message_deserialize d in
      let* p := group_cipher_decrypt c m in
      let* rest := group_receive c ds' in
      ret (p :: rest)
  end.

Lemma length_message_key ck : length (msg_cipher_key (SenderKey.message_key ck)) = 32%nat /\
  length (msg_iv (SenderKey.message_key ck)) = 16%nat.
Proof.
  cbn [SenderKey.message_key SenderKey.message_key_of msg_cipher_key msg_iv].
  rewrite !length_take, length_drop, length_hkdf. done.
Qed.

Lemma group_stream cs cr id kp ps : plain_group_cipher cs -> plain_group_cipher cr -> signing_pair kp ->
  (forall p key iv ct, p ∈ ps -> encrypt_func SG_CIPHER_AES_CBC_PKCS5 key iv p = inl ct -> short ct) ->
  forall ck ws wr, mem_ok ws -> mem_ok wr -> sends_at (w_user ws) (gc_sender_key_id cs) id ck kp ->
  receives_at (w_user wr) (gc_sender_key_id cr) id ck (ec_key_pair_get_public kp) ->
  exists ds ws' wr', group_send cs ps ws = (Ok ds, ws') /\ group_receive cr ds wr = (Ok ps, wr').
Proof.
  intros Hcs Hcr Hkp. induction ps as [|p ps IH]; intros Hsh ck ws wr Hms Hmr Hs Hr.
  { by exists [], ws, wr. }
  destruct (length_message_key ck) as [L1 L2].
  destruct (encrypt_law SG_CIPHER_AES_CBC_PKCS5 _ _ p L1 L2) as (ct & He & Hd).
  destruct (group_encrypt_ok cs _ id ck kp p ct ws Hms Hcs eq_refl Hs Hkp He) as
    (m & ws1 & E1 & Hm1 & Hs1 & Hid & Hit & Hct & Hwire & Hv); [by eapply Hsh; [left|]|].
  destruct (group_receive_next cr id ck _ m p ct wr Hmr Hcr Hr Hid Hit Hct Hv Hd) as (wr1 & E2 & Hm2 & Hr1).
  destruct (IH ltac:(intros; eapply Hsh; [by right|done]) _ ws1 wr1 Hm1 Hm2 Hs1 Hr1) as (ds & ws' & wr' & E3 & E4).
  exists (snm_serialized m :: ds), ws', wr'. split; cbn [group_send group_receive].
  - erewrite bind_ok by exact E1. by erewrite bind_ok by exact E3.
  - erewrite bind_ok by by apply Hwire. erewrite bind_ok by exact E2. by erewrite bind_ok by exact E4.
Qed.
End Sessions.

(** * Properties *)

Section Properties.
Context {U : Type} `{CL : CryptoLaws} `{VL : CurveLaws} `{SL : StoreLaws U}.
Implicit Types w : world U.


(** C16: the receiving chain of a group follows its specification.  In a
    well-formed state [group_cipher_get_sender_key] has exactly the outcome of
    [sender_result]: the key of the iteration, from the chain or from the
    stored keys, or the error ([SG_ERR_DUPLICATE_MESSAGE] behind the chain with
    no stored key, [SG_ERR_INVALID_MESSAGE] more than 2000 ahead); the new
    state is well-formed, at most 2000 keys included. *)
Theorem group_decryption_follows_the_chain s it w : mem_ok w -> sender_state_ok s -> is_u32 it ->
  match sender_result s it with
  | inl (k, s') => group_cipher_get_sender_key s it w = (Ok (k, s'), w) /\ sender_state_ok s' /\
      message_key_ok k
  | inr e => group_cipher_get_sender_key s it w = (Err e, w)
  end.
Proof.
  intros Hm Hs Hit. rewrite get_sender_key_ok by done.
  destruct (sender_result s it) as [[k s']|e] eqn:E; [|done].
  split; [done|]. by apply (sender_result_ok s it).
Qed.

Lemma verified_signature m pk w t w' : sender_key_message_verify_signature m pk w = (Ok t, w') ->
  let n := (length (snm_serialized m) - SIGNATURE_LENGTH)%nat in
  curve25519_verify (take SIGNATURE_LENGTH (drop n (snm_serialized m))) (ec_public_data pk)
    (take n (snm_serialized m)) = 0.
Proof.
  cbv zeta. unfold sender_key_message_verify_signature. intros H.
  apply bind_Ok_inv in H as (z & w1 & H1 & H2). unfold map_err, curve_verify_signature in H1.
  destruct (negb _); [done|]. inversion H1; subst. clear H1.
  destruct (Z.eqb_spec (curve25519_verify (take SIGNATURE_LENGTH
    (drop (length (snm_serialized m) - SIGNATURE_LENGTH) (snm_serialized m))) (ec_public_data pk)
    (take (length (snm_serialized m) - SIGNATURE_LENGTH) (snm_serialized m))) 0) as [E|E]; [exact E|].
  cbn in H2. discriminate.
Qed.

(** C17: nothing is read that was not signed.  Whatever the stores hold and
    whatever allocations fail, when [group_cipher_decrypt] returns a plaintext
    the last 64 octets of the message are a signature of the rest that is
    valid under the signing key of a state of the loaded record with the
    message's key id. *)
Theorem group_decrypted_is_signed c m w p w' : group_cipher_decrypt c m w = (Ok p, w') ->
  exists r w1 s, signal_protocol_sender_key_load_key (gc_sender_key_id c) w = (Ok r, w1) /\
    s ∈ srec_states r /\ sst_key_id s = snm_key_id m /\
    let n := (length (snm_serialized m) - SIGNATURE_LENGTH)%nat in
    curve25519_verify (take SIGNATURE_LENGTH (drop n (snm_serialized m)))
      (ec_public_data (sst_signature_public_key s)) (take n (snm_serialized m)) = 0.
Proof.
  unfold group_cipher_decrypt, map_err. intros H.
  set (body := if gc_inside_callback c then _ else _) in H.
  destruct (body w) as [[p0|e|f] w0] eqn:E; inversion H; subst. clear H.
  unfold body in E. destruct (gc_inside_callback c); [discriminate|].
  apply bind_Ok_inv in E as (r & w1 & Hload & E). destruct (sender_key_record_is_empty r); [discriminate|].
  apply bind_Ok_inv in E as (s & w2 & Hget & E). apply bind_Ok_inv in E as (t & w3 & Hver & _).
  unfold sender_key_record_get_sender_key_state_by_id in Hget.
  destruct (List.find _ (srec_states r)) as [s0|] eqn:Ef; inversion Hget; subst.
  apply List.find_some in Ef as [Hin Hid]. apply Z.eqb_eq in Hid.
  exists r; do 2 eexists. split; [exact Hload|]. split; [apply list_elem_of_In; exact Hin|]. split; [done|]. cbv zeta.
  exact (verified_signature _ _ _ _ _ Hver).
Qed.

(** A group message that is refused, for whatever reason, leaves the
    application's stores exactly as they were (for a cipher without a
    decryption callback). *)
Theorem refused_group_message_changes_nothing c m w e w' : gc_decrypt_callback c = None ->
  group_cipher_decrypt c m w = (Err e, w') -> w_user w' = w_user w.
Proof.
  intros Hcb H. unfold group_cipher_decrypt, map_err in H.
  set (body := if gc_inside_callback c then _ else _) in H.
  destruct (body w) as [[p0|e0|f] w0] eqn:E; inversion H; subst. clear H. revert E.
  cut (err_keeps id body); [intros Hk E; exact (Hk _ _ _ E)|]. unfold body. clear body.
  destruct (gc_inside_callback c); [by intros ??? [= <- <-]|].
  apply err_keeps_bind; [apply frame_keeps, frame_load_sender_key|]. intros r.
  destruct (sender_key_record_is_empty r); [by intros ??? [= <- <-]|].
  apply err_keeps_bind; [apply frame_keeps; frame_solve|]. intros s.
  apply err_keeps_bind; [apply frame_keeps; frame_solve|]. intros _.
  apply err_keeps_bind; [apply frame_keeps, frame_get_sender_key|]. intros [k s'].
  apply err_keeps_bind; [apply frame_keeps; frame_solve|]. intros b.
  unfold group_cipher_decrypt_callback. rewrite Hcb.
  apply err_keeps_bind; [apply frame_keeps; frame_solve|]. intros _.
  apply err_keeps_last; [apply err_keeps_store_sender_key|]. intros z. apply no_err_ret.
Qed.

(** A sender key record survives the store: five states with up to 2000
    stored keys each are written and read back equal, the cipher keys and
    initialization vectors derived again from the seeds that are stored. *)
Theorem sender_key_record_round_trip r w : mem_ok w -> sender_record_ok r ->
  bind (sender_key_record_serialize r) sender_key_record_deserialize w = (Ok r, w).
Proof.
  intros Hm Hr. erewrite bind_ok by by apply sender_key_record_serialize_ok.
  by apply sender_key_record_deserialize_ok.
Qed.
End Properties.

(** ** The theorems at concrete inputs *)

Definition sample_group : signal_protocol_sender_key_name :=
  SenderKeyName (ascii_bytes "group"%string) alice_address.
Definition sample_group_cipher : group_cipher store := GroupCipher sample_group None false.

(** A receiving chain at its eighth iteration. *)
Definition sample_sender_state : sender_key_state :=
  SenderKeyState 5 (SenderChainKey 7 (replicate 32 9)) (ec_key_pair_get_public (sample_pair 3)) None [].

Lemma sample_sender_state_ok : sender_state_ok sample_sender_state.
Proof.
  apply sender_state_ok_new; [split; by vm_compute|split; by vm_compute|reflexivity|apply sample_pair_matches|exact I].
Qed.


Lemma group_decryption_follows_the_chain_witness : exists k s',
  group_cipher_get_sender_key sample_sender_state 9 (fresh_world tt) = (Ok (k, s'), fresh_world tt) /\
  map msg_iteration (sst_message_keys s') = [7; 8].
Proof.
  destruct (group_decryption_follows_the_chain sample_sender_state 9 (fresh_world tt) eq_refl
    sample_sender_state_ok) as (E & _); [split; by vm_compute|].
  do 2 eexists. split; [exact E|reflexivity].
Defined.

Lemma sender_key_record_round_trip_witness :
  bind (sender_key_record_serialize (SenderKeyRecord [sample_sender_state])) sender_key_record_deserialize
    (fresh_world tt) = (Ok (SenderKeyRecord [sample_sender_state]), fresh_world tt).
Proof.
  apply (sender_key_record_round_trip _ (fresh_world tt) eq_refl). split.
  - constructor; [exact sample_sender_state_ok|constructor].
  - cbn. unfold MAX_STATES. lia.
Defined.

(** Alice's first message to the group and Bob's world after her distribution
    message; the same message with one octet of the signature changed. *)
Definition sample_group_run : option (sender_key_message * world store) :=
  match group_session_builder_create_session sample_group (fresh_world alice_store) with
  | (Ok dm, ws) =>
      match group_cipher_encrypt sample_group_cipher [1; 2] ws,
            group_session_builder_process_session sample_group dm (fresh_world bob_store) with
      | (Ok m, _), (Ok _, wr) => Some (m, wr)
      | _, _ => None
      end
  | _ => None
  end.
Definition sample_group_message : sender_key_message :=
  from_option fst (SenderKeyMsg 0 0 0 [] []) sample_group_run.
Definition sample_group_receiver : world store := from_option snd (fresh_world bob_store) sample_group_run.
Definition forged_group_message : sender_key_message :=
  let m := sample_group_message in
  SenderKeyMsg (snm_message_version m) (snm_key_id m) (snm_iteration m) (snm_ciphertext m)
    (alter (Z.lxor 1) (length (snm_serialized m) - 1)%nat (snm_serialized m)).

Lemma group_decrypted_is_signed_witness : exists r w1 s,
  signal_protocol_sender_key_load_key sample_group sample_group_receiver = (Ok r, w1) /\ s ∈ srec_states r /\
  sst_key_id s = snm_key_id sample_group_message.
Proof.
  assert (group_cipher_decrypt sample_group_cipher sample_group_message sample_group_receiver =
    (Ok [1; 2], snd (group_cipher_decrypt sample_group_cipher sample_group_message sample_group_receiver))) as E
    by (vm_compute; reflexivity).
  destruct (group_decrypted_is_signed _ _ _ _ _ E) as (r & w1 & s & E1 & Hin & Hid & _).
  exists r, w1, s. split; [exact E1|]. split; [exact Hin|exact Hid].
Defined.

Lemma refused_group_message_changes_nothing_witness : exists w',
  group_cipher_decrypt sample_group_cipher forged_group_message sample_group_receiver =
    (Err SG_ERR_INVALID_MESSAGE, w') /\ w_user w' = w_user sample_group_receiver.
Proof.
  assert (group_cipher_decrypt sample_group_cipher forged_group_message sample_group_receiver =
    (Err SG_ERR_INVALID_MESSAGE,
     snd (group_cipher_decrypt sample_group_cipher forged_group_message sample_group_receiver))) as E
    by (vm_compute; reflexivity).
  eexists. split; [exact E|].
  exact (refused_group_message_changes_nothing sample_group_cipher _ _ _ _ eq_refl E).
Defined.
