(* ===== verification/Handshake.v ===== *)
(** The asynchronous handshake end to end: a published bundle, the session one
    side builds from it, its first message, and the session the other side
    builds from the message. *)
From stdpp Require Import base list gmap.
From Stdlib Require Import ZArith Lia.
From S2P Require Import Prelude Buffers Hkdf Curve Protobuf Messages Ratchet SessionState SessionStorage.
From S2P Require Import RatchetSession SessionRecord Protocol PreKeys Store SessionBuilder SessionCipher.
From S2P Require Import DoubleRatchet Sessions Sample Scenario.
#[local] Open Scope Z_scope.
#[local] Open Scope signal_scope.

(** The setters that follow the initialization of a session. *)
Definition finish (local_id remote_id : Z) (base : ec_public_key) (s : session_state) : session_state :=
  session_state_set_alice_base_key base (session_state_set_remote_registration_id remote_id
    (session_state_set_local_registration_id local_id s)).

Lemma established_finish l r base s : established s -> is_u32 l -> is_u32 r -> wf_public base ->
  established (finish l r base s).
Proof.
  intros [Hst Hv H1 H2 H3 H4 H5 H6 H7 H8] Hl Hr Hb. destruct Hst, s. simpl in *.
  split; simpl; try done. split; simpl; try done.
  by eapply bounded_same_chains; [|exact so_bounded].
Qed.

Lemma established_unacknowledged pid sid base s : established s -> opt_all is_u32 pid -> is_u32 sid ->
  wf_public base -> established (session_state_set_unacknowledged_pre_key_message pid sid base s).
Proof.
  intros [Hst Hv H1 H2 H3 H4 H5 H6 H7 H8] Hp Hs Hb. destruct Hst, s. simpl in *.
  split; simpl; try done. split; simpl; try done.
  by eapply bounded_same_chains; [|exact so_bounded].
Qed.

Section Initialized.
Context {U : Type} `{CL : CryptoLaws} `{VL : CurveLaws}.
Implicit Types w : world U.

Lemma established_bob p w s w' : mem_ok w -> bob_ok p ->
  ratcheting_session_bob_initialize session_state_init p w = (Ok s, w') -> established s.
Proof.
  intros Hm Hp E.
  assert (storable s) as Hst by (eapply storable_bob; [apply storable_init|done|exact Hp|exact E|done]).
  rewrite bob_initialize_ok in E by done. inversion E; subst. by split.
Qed.

Lemma established_alice p w s w' : mem_ok w -> alice_ok p ->
  ratcheting_session_alice_initialize session_state_init p w = (Ok s, w') -> established s.
Proof.
  intros Hm Hp E.
  assert (storable s) as Hst by (eapply storable_alice; [apply storable_init|done|exact Hp|exact E|done]).
  destruct (alice_initialize_ok session_state_init p w Hm Hp) as (kp & s1 & Ea & _ & Hkp & Eadd).
  rewrite Ea in E. inversion E; subst. clear Ea E.
  unfold session_state_add_receiver_chain in Eadd. minv Eadd. inversion Eadd; subst. clear Eadd.
  destruct (derive_ok (alice_secret p)) as [_ Hd]. split; try done. cbn.
  apply Forall_singleton. split; cbn; try done; [|lia|by eexists|constructor].
  apply receiver_ok_new; [apply Hp|done].
Qed.

Lemma alice_identities p w s w' : mem_ok w -> alice_ok p ->
  ratcheting_session_alice_initialize session_state_init p w = (Ok s, w') ->
  st_local_identity_public s = Some (identity_public (alice_our_identity_key p)) /\
  st_remote_identity_public s = Some (alice_their_identity_key p).
Proof.
  intros Hm Hp E.
  destruct (alice_initialize_ok session_state_init p w Hm Hp) as (kp & s1 & Ea & _ & _ & Eadd).
  rewrite Ea in E. inversion E; subst.
  unfold session_state_add_receiver_chain in Eadd. minv Eadd. by inversion Eadd; subst.
Qed.

Lemma alice_chain_index p w s w' ck : mem_ok w -> alice_ok p ->
  ratcheting_session_alice_initialize session_state_init p w = (Ok s, w') ->
  sc_chain_key (st_sender_chain s) = Some ck -> chain_index ck = 0.
Proof.
  intros Hm Hp E Hck.
  destruct (alice_initialize_ok session_state_init p w Hm Hp) as (kp & s1 & Ea & _).
  rewrite Ea in E. inversion E; subst. destruct s1. by inversion Hck; subst.
Qed.
End Initialized.

(** * The two sides *)

Section Sides.
Context {U : Type} `{CL : CryptoLaws} `{VL : CurveLaws} `{SL : StoreLaws U}.
Implicit Types w : world U.

(** The session a bundle leads to. *)
Definition bundle_parameters (ik : ratchet_identity_key_pair) (base : ec_key_pair)
    (identity signed : ec_public_key) (one_time : option ec_public_key) : alice_signal_protocol_parameters :=
  AliceParameters ik base identity signed one_time signed.

Record bundle_valid (b : session_pre_key_bundle) (identity signed : ec_public_key) (sg : bytes) : Prop := {
  bv_identity : bd_identity_key b = Some identity;
  bv_signed : bd_signed_pre_key_public b = Some signed;
  bv_signature : bd_signed_pre_key_signature b = Some sg;
  bv_length : length sg = 64%nat;
  bv_verifies : curve25519_verify sg (ec_public_data identity) (ec_public_key_bytes signed) = 0;
  bv_wf_identity : wf_public identity;
  bv_wf_signed : wf_public signed;
  bv_one_time : opt_all wf_public (bd_pre_key_public b);
  bv_ids : is_u32 (bd_registration_id b) /\ is_u32 (bd_pre_key_id b) /\ is_u32 (bd_signed_pre_key_id b)
}.

(** The identifier the first message will carry. *)
Definition offered_id (b : session_pre_key_bundle) : option Z :=
  match bd_pre_key_public b with Some _ => Some (bd_pre_key_id b) | None => None end.

Lemma process_bundle_ok bl b identity signed sg ik w :
  let a := sb_remote_address bl in
  mem_ok w -> bundle_valid b identity signed sg -> owns (view (w_user w)) ik ->
  is_u32 (s_registration_id (view (w_user w))) ->
  trusts (view (w_user w)) a (ec_public_key_bytes identity) = true ->
  s_sessions (view (w_user w)) !! a = None ->
  exists base s0 w',
    curve_generate_key_pair w = (Ok base, rng_step w) /\
    ratcheting_session_alice_initialize session_state_init
      (bundle_parameters ik base identity signed (bd_pre_key_public b)) (rng_step w) =
      (Ok s0, rng_step (rng_step w)) /\ key_pair_matches base /\
    session_builder_process_pre_key_bundle bl b w = (Ok 0, w') /\ mem_ok w' /\
    let sa := finish (s_registration_id (view (w_user w))) (bd_registration_id b)
      (ec_key_pair_get_public base) (session_state_set_unacknowledged_pre_key_message (offered_id b)
        (bd_signed_pre_key_id b) (ec_key_pair_get_public base) s0) in
    holds (w_user w') a (SessionRecord sa [] true) /\
    view (w_user w') = put_identity a (Some (ec_public_key_bytes identity))
      (put_session a (record_bytes (SessionRecord sa [] true)) (view (w_user w))).
Proof.
  intros a Hm [Bi Bs Bg Bl Bv Wi Ws Wo (I1 & I2 & I3)] Hown Hreg Htr Hnone.
  destruct (curve_generate_key_pair_ok w Hm) as (base & Eb & Hbase).
  set (pa := bundle_parameters ik base identity signed (bd_pre_key_public b)).
  assert (alice_ok pa) as Hpa by (split; try done; [apply Hown|by apply matches_ok]).
  destruct (alice_initialize_ok session_state_init pa (rng_step w) Hm Hpa) as (kp & s1 & Ea & _).
  exists base. eexists. set (sa := finish _ _ _ _).
  assert (established sa) as Hsa.
  { apply established_finish; try done; [|apply Hbase]. apply established_unacknowledged; try done.
    - by eapply established_alice; [|exact Hpa|exact Ea].
    - unfold offered_id. by destruct (bd_pre_key_public b).
    - apply Hbase. }
  assert (record_ok (SessionRecord sa [] true)) as Hrec by (split; [apply Hsa|done|simpl; lia]).
  destruct (store_session_ok a _ (rng_step (rng_step w)) Hm Hrec) as (u1 & E1 & V1).
  destruct (save_identity_ok a identity (with_user (rng_step (rng_step w)) u1) Hm) as (u2 & E2 & V2).
  exists (with_user (with_user (rng_step (rng_step w)) u1) u2).
  split; [exact Eb|]. split; [exact Ea|]. split; [done|]. split; cycle 1.
  { split; [apply Hm|]. cbn [w_user with_user rng_step] in *. rewrite V1 in V2. split; [|exact V2].
    split; [|done|done]. rewrite V2. simpl. by rewrite lookup_insert_eq. }
  unfold session_builder_process_pre_key_bundle. fold a. rewrite Bi, Bs, Bg.
  erewrite bind_ok by by apply is_trusted_ok. rewrite Htr. change (1 =? 0) with false. cbv iota.
  erewrite bind_ok by by apply ec_public_key_serialize_ok. do 2 (erewrite bind_ok by apply deref_ok).
  erewrite bind_ok by (unfold curve_verify_signature, blen; rewrite Bl, Bv; reflexivity).
  change ((if 0 =? 0 then 1 else 0) =? 0) with false. cbv iota.
  erewrite bind_ok by by apply load_session_none. erewrite bind_ok by exact Eb.
  erewrite bind_ok by by apply get_key_pair_ok.
  erewrite bind_ok by (unfold alice_signal_protocol_parameters_create;
    erewrite bind_ok by (by apply malloc_ok); reflexivity).
  erewrite bind_ok by reflexivity. cbn [rec_state].
  erewrite bind_ok by exact Ea. erewrite bind_ok by apply get_registration_ok.
  erewrite bind_ok by exact E1. exact E2.
Qed.

(** The keys a pre key message names, as the receiver's stores hold them. *)
Definition one_time_held (st : store) (pid : option Z) (k : option session_pre_key) : Prop :=
  match pid, k with
  | Some i, Some k => pre_key_storable k /\ s_pre_keys st !! i = Some (packed (pre_key_record k))
  | None, None => True
  | _, _ => False
  end.

Record keys_held (st : store) (m : pre_key_signal_message) (ik : ratchet_identity_key_pair)
    (spk : session_signed_pre_key) (otk : option session_pre_key) : Prop := {
  kh_owns : owns st ik;
  kh_registration : is_u32 (s_registration_id st);
  kh_signed : signed_pre_key_storable spk;
  kh_signed_held : s_signed_pre_keys st !! pkm_signed_pre_key_id m = Some (packed (signed_pre_key_record spk));
  kh_one_time : one_time_held st (pkm_pre_key_id m) otk
}.

Record pre_key_message_ok (m : pre_key_signal_message) : Prop := {
  pm_ok_version : pkm_version m = 3;
  pm_ok_registration : is_u32 (pkm_registration_id m);
  pm_ok_base : wf_public (pkm_base_key m);
  pm_ok_identity : wf_public (pkm_identity_key m);
  pm_ok_message : message_ok (pkm_message m)
}.

Definition message_parameters (m : pre_key_signal_message) (ik : ratchet_identity_key_pair)
    (spk : session_signed_pre_key) (otk : option session_pre_key) : bob_signal_protocol_parameters :=
  BobParameters ik (spk_key_pair spk) (pk_key_pair <$> otk) (spk_key_pair spk) (pkm_identity_key m)
    (pkm_base_key m).

(** The one-time pre key that is used up; the key of last resort is kept. *)
Definition spent (pid : option Z) : option Z :=
  match pid with
  | Some id => if id =? PRE_KEY_MEDIUM_MAX_VALUE then None else Some id
  | None => None
  end.

Lemma message_parameters_ok st m ik spk otk : keys_held st m ik spk otk -> pre_key_message_ok m ->
  bob_ok (message_parameters m ik spk otk).
Proof.
  intros [[Hik _] _ Hspk _ Ho] Hm. split; try done; try apply Hspk; try apply Hm. simpl.
  unfold one_time_held in Ho. destruct (pkm_pre_key_id m), otk as [k|]; try done. apply Ho.
Qed.

Lemma process_message_ok bl m ik spk otk w :
  let a := sb_remote_address bl in
  mem_ok w -> pre_key_message_ok m -> keys_held (view (w_user w)) m ik spk otk ->
  trusts (view (w_user w)) a (ec_public_key_bytes (pkm_identity_key m)) = true ->
  exists s0 u, ratcheting_session_bob_initialize session_state_init (message_parameters m ik spk otk) w =
      (Ok s0, w) /\
    session_builder_process_pre_key_signal_message bl (SessionRecord session_state_init [] true) m w =
      (Ok (SessionRecord (finish (s_registration_id (view (w_user w))) (pkm_registration_id m)
        (pkm_base_key m) s0) [] true, spent (pkm_pre_key_id m)), with_user w u) /\
    view u = put_identity a (Some (ec_public_key_bytes (pkm_identity_key m))) (view (w_user w)).
Proof.
  intros a Hm Hmo Hkeys Htr. pose proof (message_parameters_ok _ m ik spk otk Hkeys Hmo) as Hbob.
  destruct Hkeys as [Hown Hreg Hspk Hheld Hone].
  destruct (save_identity_ok a (pkm_identity_key m) w Hm) as (u & Eu & Vu).
  eexists _, u. split; [by apply bob_initialize_ok|]. split; [|done].
  unfold session_builder_process_pre_key_signal_message. fold a.
  erewrite bind_ok by by apply is_trusted_ok. rewrite Htr. change (1 =? 0) with false. cbv iota.
  erewrite bind_ok; [erewrite bind_ok by exact Eu; reflexivity|].
  unfold session_builder_process_pre_key_signal_message_v3.
  rewrite (pm_ok_version m Hmo). cbn [session_record_has_session_state rec_state rec_previous_states state_is
    st_session_version session_state_init Z.eqb Pos.eqb andb orb existsb].
  erewrite bind_ok by by apply signed_pre_key_load_ok.
  erewrite bind_ok by by apply get_key_pair_ok.
  erewrite (bind_ok _ _ _ (pk_key_pair <$> otk)); cycle 1.
  { unfold one_time_held in Hone. destruct (pkm_pre_key_id m) as [i|], otk as [k|]; try done.
    erewrite bind_ok by (by apply pre_key_load_ok; destruct Hone). done. }
  erewrite bind_ok by (unfold bob_signal_protocol_parameters_create;
    erewrite bind_ok by (by apply malloc_ok); reflexivity).
  erewrite bind_ok by reflexivity. cbn [rec_state].
  erewrite bind_ok by by apply (bob_initialize_ok session_state_init (message_parameters m ik spk otk)).
  by erewrite bind_ok by apply get_registration_ok.
Qed.

(** The calls of [session_cipher_decrypt_pre_key_signal_message] in order. *)
Ltac run_first Hnone Ep Et Hcb E2 :=
  erewrite bind_ok by (by apply load_session_none);
  erewrite bind_ok by exact Ep; cbv beta iota;
  unfold session_cipher_decrypt_from_record_and_signal_message;
  erewrite bind_ok by (erewrite bind_ok by exact Et; reflexivity); cbv beta iota;
  unfold session_cipher_decrypt_callback; rewrite Hcb; erewrite bind_ok by reflexivity;
  erewrite bind_ok by exact E2.

(** The receiver decrypts the first message, stores the session and removes
    the one-time pre key. *)
Lemma decrypt_first_ok c m ik spk otk s0 p w :
  let a := cp_remote_address c in
  mem_ok w -> plain_cipher c -> cp_builder c = SessionBuilder a -> pre_key_message_ok m ->
  keys_held (view (w_user w)) m ik spk otk ->
  trusts (view (w_user w)) a (ec_public_key_bytes (pkm_identity_key m)) = true ->
  s_sessions (view (w_user w)) !! a = None ->
  ratcheting_session_bob_initialize session_state_init (message_parameters m ik spk otk) w = (Ok s0, w) ->
  decrypt_result s0 (pkm_message m) = inl p ->
  exists s' w', session_cipher_decrypt_pre_key_signal_message c m w = (Ok p, w') /\ mem_ok w' /\
    holds (w_user w') a (SessionRecord s' [] true) /\
    used s' (sgm_sender_ratchet_key (pkm_message m)) (sgm_counter (pkm_message m)) /\
    s_pre_keys (view (w_user w')) = match spent (pkm_pre_key_id m) with
      | Some i => delete i (s_pre_keys (view (w_user w)))
      | None => s_pre_keys (view (w_user w))
      end.
Proof.
  intros a Hm [Hcb Hin] Hbl Hmo Hkeys Htr Hnone Einit Hres.
  pose proof (message_parameters_ok _ m ik spk otk Hkeys Hmo) as Hbob.
  destruct (process_message_ok (cp_builder c) m ik spk otk w) as (s0' & u & Einit' & Ep & Vu);
    try done; [by rewrite Hbl|]. rewrite Einit in Einit'. inversion Einit'; subst s0'.
  rewrite Hbl in Vu. cbn [sb_remote_address] in Vu.
  set (sb := finish _ _ _ s0) in Ep.
  assert (established sb) as Hsb.
  { apply established_finish; try apply Hmo; [by eapply established_bob; [|exact Hbob|exact Einit]|].
    apply Hkeys. }
  assert (decrypt_result sb (pkm_message m) = inl p) as Hres'.
  { rewrite <- Hres. unfold sb, finish. by destruct s0. }
  destruct (try_state_ok sb (pkm_message m) (with_user w u) Hm Hsb (pm_ok_message m Hmo))
    as (w1 & Hm1 & Hu1 & Ht). rewrite Hres' in Ht. destruct Ht as (s' & Et & _ & Hs' & _ & Hused).
  assert (record_ok (SessionRecord s' [] true)) as Hr by (split; [apply Hs'|done|simpl; lia]).
  destruct (store_session_ok a _ w1 Hm1 Hr) as (u2 & E2 & V2). rewrite Hu1 in V2.
  cbn [w_user with_user] in V2. rewrite Vu in V2.
  assert (s_sessions (view u2) !! a = Some (record_bytes (SessionRecord s' [] true))) as Hl
    by (rewrite V2; simpl; by rewrite lookup_insert_eq).
  unfold session_cipher_decrypt_pre_key_signal_message. rewrite Hin. fold a.
  exists s'. destruct (spent (pkm_pre_key_id m)) as [i|] eqn:Esp.
  - destruct (pre_key_remove_ok i (with_user w1 u2)) as (u3 & E3 & V3). cbn [w_user with_user] in V3.
    exists (with_user (with_user w1 u2) u3). split; cycle 1.
    { split; [done|]. cbn [w_user with_user]. split; [split; [|done|done]; by rewrite V3|].
      split; [done|]. by rewrite V3, V2. }
    run_first Hnone Ep Et Hcb E2. by erewrite bind_ok by exact E3.
  - exists (with_user w1 u2). split; cycle 1.
    { split; [done|]. cbn [w_user with_user]. split; [by split|]. split; [done|]. by rewrite V2. }
    run_first Hnone Ep Et Hcb E2. done.
Qed.
End Sides.

(** * The meeting of the two sides *)

Section Meeting.
Context {U : Type} `{CL : CryptoLaws} `{VL : CurveLaws} `{SL : StoreLaws U}.
Implicit Types w : world U.

(** The first message of a chain that the root key leads to. *)
Lemma decrypt_result_first sb sa rb kpb kpa ck ct p sender receiver :
  established sb -> st_receiver_chains sb = [] -> st_root_key sb = Some rb ->
  sc_ratchet_key_pair (st_sender_chain sb) = Some kpb ->
  snd (Ratchet.root_step rb (agree (ec_key_pair_get_private kpb) (ec_key_pair_get_public kpa))) = ck ->
  st_remote_identity_public sb = Some sender -> st_local_identity_public sb = Some receiver ->
  chain_index ck = 0 ->
  encrypt_func SG_CIPHER_AES_CBC_PKCS5 (cipher_key (Ratchet.message_keys ck))
    (iv (Ratchet.message_keys ck)) p = inl ct ->
  decrypt_result sb (next_message sa kpa ck sender receiver ct) = inl p.
Proof.
  intros Hs Hch Hrb Hkp Hck Hre Hlo Hidx Hct. apply decrypt_result_next; [|by rewrite Hidx|done..].
  unfold chain_for, session_state_get_receiver_chain_key, session_state_find_receiver_chain.
  rewrite Hch, Hrb, Hkp. cbn [find_chain]. by rewrite Hck.
Qed.

(** Alice has Bob's bundle and Bob has the keys of it; neither has a session
    with the other, and each trusts the other's identity. *)
Record meeting (ca cb : session_cipher U) (wa wb : world U) (b : session_pre_key_bundle)
    (ika ikb : ratchet_identity_key_pair) (spk : session_signed_pre_key)
    (otk : option session_pre_key) (p : bytes) : Prop := {
  me_memory : mem_ok wa /\ mem_ok wb;
  me_ciphers : plain_cipher ca /\ plain_cipher cb /\ cp_builder cb = SessionBuilder (cp_remote_address cb);
  me_bundle : exists rid dev, b = SessionPreKeyBundle rid dev (default 0 (pk_id <$> otk))
    ((fun k => ec_key_pair_get_public (pk_key_pair k)) <$> otk) (spk_id spk)
    (Some (ec_key_pair_get_public (spk_key_pair spk))) (Some (spk_signature spk))
    (Some (identity_public ikb)) /\ is_u32 rid;
  me_signature : length (spk_signature spk) = 64%nat /\
    curve25519_verify (spk_signature spk) (ec_public_data (identity_public ikb))
      (ec_public_key_bytes (ec_key_pair_get_public (spk_key_pair spk))) = 0;
  me_keys : key_pair_matches (as_pair ika) /\ key_pair_matches (as_pair ikb) /\
    key_pair_matches (spk_key_pair spk) /\ opt_all key_pair_matches (pk_key_pair <$> otk);
  me_alice : owns (view (w_user wa)) ika /\ is_u32 (s_registration_id (view (w_user wa)));
  me_bob : owns (view (w_user wb)) ikb /\ is_u32 (s_registration_id (view (w_user wb))) /\
    signed_pre_key_storable spk /\
    s_signed_pre_keys (view (w_user wb)) !! spk_id spk = Some (packed (signed_pre_key_record spk)) /\
    one_time_held (view (w_user wb)) (pk_id <$> otk) otk;
  me_trust : trusts (view (w_user wa)) (cp_remote_address ca) (ec_public_key_bytes (identity_public ikb)) = true /\
    trusts (view (w_user wb)) (cp_remote_address cb) (ec_public_key_bytes (identity_public ika)) = true;
  me_new : s_sessions (view (w_user wa)) !! cp_remote_address ca = None /\
    s_sessions (view (w_user wb)) !! cp_remote_address cb = None;
  me_short : forall key iv c, encrypt_func SG_CIPHER_AES_CBC_PKCS5 key iv p = inl c -> short c
}.

Lemma meeting_bundle ca cb wa wb b ika ikb spk otk p : meeting ca cb wa wb b ika ikb spk otk p ->
  bundle_valid b (identity_public ikb) (ec_key_pair_get_public (spk_key_pair spk)) (spk_signature spk) /\
  offered_id b = pk_id <$> otk /\ bd_signed_pre_key_id b = spk_id spk /\
  bd_pre_key_public b = ec_key_pair_get_public <$> (pk_key_pair <$> otk).
Proof.
  intros [_ _ (rid & dev & -> & Hrid) [Hl Hv] (_ & (_ & Wi & _) & (_ & Ws & _) & Ho) _ (_ & _ & Hst & _ & Hot) _ _ _].
  split; [|by destruct otk]. split; try done; simpl.
  - destruct otk; [apply Ho|done].
  - split; [done|]. split; [|apply Hst]. unfold one_time_held in Hot.
    destruct otk as [k|]; simpl in *; [apply Hot|unfold is_u32, UINT32_MOD; lia].
Qed.

Lemma meeting_corresponds ca cb wa wb b ika ikb spk otk p base m :
  meeting ca cb wa wb b ika ikb spk otk p -> key_pair_matches base ->
  pkm_identity_key m = identity_public ika -> pkm_base_key m = ec_key_pair_get_public base ->
  corresponds (bundle_parameters ika base (identity_public ikb)
    (ec_key_pair_get_public (spk_key_pair spk)) (ec_key_pair_get_public <$> (pk_key_pair <$> otk)))
    (message_parameters m ikb spk otk).
Proof.
  intros [_ _ _ _ (H1 & H2 & H3 & H4) _ _ _ _ _] Hb E1 E2. by split.
Qed.

(** What Alice sends after she processed the bundle. *)
Lemma alice_sends ca bl b identity signed sg ik s0 kp ck base p ct w :
  let a := cp_remote_address ca in
  let sa := finish (s_registration_id (view (w_user w))) (bd_registration_id b)
      (ec_key_pair_get_public base) (session_state_set_unacknowledged_pre_key_message (offered_id b)
        (bd_signed_pre_key_id b) (ec_key_pair_get_public base) s0) in
  forall w1, mem_ok w1 -> cp_inside_callback ca = false -> holds (w_user w1) a (SessionRecord sa [] true) ->
  sb_remote_address bl = a -> bundle_valid b identity signed sg ->
  sc_ratchet_key_pair (st_sender_chain s0) = Some kp -> sc_chain_key (st_sender_chain s0) = Some ck ->
  st_local_identity_public s0 = Some (identity_public ik) -> st_remote_identity_public s0 = Some identity ->
  encrypt_func SG_CIPHER_AES_CBC_PKCS5 (cipher_key (Ratchet.message_keys ck))
    (iv (Ratchet.message_keys ck)) p = inl ct -> short ct ->
  exists w2, mem_ok w2 /\ session_cipher_encrypt ca p w1 =
    (Ok (CiphertextPreKey (pre_key_message_of 3 (s_registration_id (view (w_user w))) (offered_id b)
      (bd_signed_pre_key_id b) (ec_key_pair_get_public base) (identity_public ik)
      (next_message sa kp ck (identity_public ik) identity ct))), w2).
Proof.
  intros a sa w1 Hm Hin Hho Hbl Hbv Hkp Hck Hlo Hre Hct Hsh.
  destruct (encrypt_ok ca (SessionRecord sa [] true) kp ck (identity_public ik) identity ct p w1)
    as (w2 & E & Hm2 & _); try done; unfold sa; cbn [rec_state]; try (by destruct s0).
  exists w2. split; [done|]. rewrite E. unfold sa. cbn [rec_state]. unfold wrap. by destruct s0.
Qed.

(** The wire form of Alice's first message reads back. *)
Lemma first_message_wire sa kp ck local remote ct rid pid sid base w : mem_ok w ->
  wf_public (ec_key_pair_get_public kp) -> chain_ok 3 ck -> is_u32 (st_previous_counter sa) -> short ct ->
  is_u32 rid -> opt_all is_u32 pid -> is_u32 sid -> wf_public base -> wf_public local ->
  let m := pre_key_message_of 3 rid pid sid base local (next_message sa kp ck local remote ct) in
  pre_key_signal_message_deserialize (pkm_serialized m) w = (Ok m, w).
Proof.
  intros Hm Hk Hck Hp Hs Hr Hi Hd Hb Hl m. apply pre_key_signal_message_deserialize_ok; try done.
  - apply length_signal_message_of; try done. apply Hck.
  - apply signal_message_deserialize_ok; try done. apply Hck.
Qed.

(** Bob's view of it. *)
Lemma bob_understands ca cb wa wb b ika ikb spk otk p base s0 rid pid sa kp ck ct :
  meeting ca cb wa wb b ika ikb spk otk p -> key_pair_matches base ->
  ratcheting_session_alice_initialize session_state_init (bundle_parameters ika base (identity_public ikb)
    (ec_key_pair_get_public (spk_key_pair spk)) (ec_key_pair_get_public <$> (pk_key_pair <$> otk))) (rng_step wa) =
    (Ok s0, rng_step (rng_step wa)) ->
  sc_ratchet_key_pair (st_sender_chain s0) = Some kp -> sc_chain_key (st_sender_chain s0) = Some ck ->
  encrypt_func SG_CIPHER_AES_CBC_PKCS5 (cipher_key (Ratchet.message_keys ck))
    (iv (Ratchet.message_keys ck)) p = inl ct ->
  let m := pre_key_message_of 3 rid pid (spk_id spk) (ec_key_pair_get_public base) (identity_public ika)
    (next_message sa kp ck (identity_public ika) (identity_public ikb) ct) in
  exists sb0, ratcheting_session_bob_initialize session_state_init (message_parameters m ikb spk otk) wb =
    (Ok sb0, wb) /\ decrypt_result sb0 (pkm_message m) = inl p.
Proof.
  intros Hme Hbase Ea Hkp Hck Hct m.
  pose proof (meeting_corresponds _ _ _ _ _ _ _ _ _ _ base m Hme Hbase eq_refl eq_refl) as Hco.
  destruct (me_memory _ _ _ _ _ _ _ _ _ _ Hme) as [Hma Hmb].
  destruct (handshake _ _ session_state_init session_state_init (rng_step wa) wb Hma Hmb Hco eq_refl)
    as (sa' & sb0 & Ea' & Eb & Hstep).
  rewrite Ea in Ea'. inversion Ea'; subst sa'. exists sb0. split; [done|].
  destruct (corresponds_ok _ _ Hco) as [_ Hbob].
  assert (established sb0) as Hsb by (by eapply established_bob; [|exact Hbob|exact Eb]).
  destruct Hstep as [_ (kp' & ck' & rk & rb & Hkp' & Hm' & Hck' & _ & Hrb & Hchain) _].
  rewrite Hkp in Hkp'. inversion Hkp'; subst kp'. unfold session_state_get_sender_chain_key in Hck'.
  rewrite Hck in Hck'. inversion Hck'; subst ck'.
  pose proof (so_root sb0 (es_storable sb0 Hsb)) as Hrok. rewrite Hrb in Hrok. simpl in Hrok.
  specialize (Hchain wb Hmb). rewrite create_chain_ok in Hchain;
    [|done|by eapply root_ok_wf|apply Hm'|apply Hbob].
  assert (Ratchet.root_step rb (agree (ec_key_pair_get_private (spk_key_pair spk))
    (ec_key_pair_get_public kp)) = (rk, ck)) as Hroot by (cbn in Hchain |- *; congruence).
  rewrite (bob_initialize_ok _ _ _ Hmb Hbob) in Eb. inversion Eb; subst sb0.
  eapply (decrypt_result_first _ sa rb _ kp ck); try done; [by rewrite Hroot|].
  by apply (f_equal (fun r => chain_index (snd r))) in Hroot.
Qed.

(** The keys of an established session as its components. *)
Lemma established_sender s : established s -> exists kp ck,
  sc_ratchet_key_pair (st_sender_chain s) = Some kp /\ sc_chain_key (st_sender_chain s) = Some ck /\
  pair_ok kp /\ chain_ok 3 ck.
Proof.
  intros Hs. destruct (es_pair s Hs) as [kp Hkp], (es_chain s Hs) as [ck Hck].
  pose proof (so_sender _ (es_storable s Hs)) as H. rewrite (es_has_sender s Hs), (es_version s Hs) in H.
  pose proof (sender_ok_pair 3 _ H) as H1. rewrite Hkp in H1.
  pose proof (sender_ok_chain 3 _ H) as H2. rewrite Hck in H2. by exists kp, ck.
Qed.

End Meeting.

(** * A concrete meeting *)

Definition alice_cipher : session_cipher store := SessionCipher bob_address (SessionBuilder bob_address) None false.
Definition bob_cipher : session_cipher store := SessionCipher alice_address (SessionBuilder alice_address) None false.

Lemma sample_meeting : meeting alice_cipher bob_cipher (fresh_world alice_store) (fresh_world bob_store)
  bob_bundle alice_identity bob_identity bob_signed_pre_key (Some bob_one_time) [104; 105].
Proof.
  split; try done; [by exists 1002, 1|].
  intros key iv c E. unfold short. rewrite (sample_encrypt_length _ _ _ _ _ E). by vm_compute.
Qed.

