(* ===== verification/Conversation.v ===== *)
(** A conversation between the two parties of Scenario.v, evaluated: the
    concrete inputs at which the theorems of Sessions.v and DoubleRatchet.v
    are applied. *)
From stdpp Require Import base list gmap.
From Stdlib Require Import ZArith Lia.
From S2P Require Import Prelude Buffers Hkdf Curve Sample Protobuf Messages Ratchet SessionState.
From S2P Require Import SessionStorage RatchetSession SessionRecord Protocol PreKeys Store Scenario.
From S2P Require Import SessionBuilder SessionCipher DoubleRatchet Sessions Handshake.
#[local] Open Scope Z_scope.

(** Alice processes the bundle and sends a first message, Bob reads it and
    answers. *)
Definition alice_world1 : world store :=
  snd (session_builder_process_pre_key_bundle (SessionBuilder bob_address) bob_bundle (fresh_world alice_store)).
Definition alice_sent : outcome ciphertext_message * world store :=
  session_cipher_encrypt alice_cipher [104; 105] alice_world1.
Definition hello : option pre_key_signal_message :=
  match fst alice_sent with Ok (CiphertextPreKey m) => Some m | _ => None end.
Definition bob_read : outcome bytes * world store :=
  match hello with
  | Some m => session_cipher_decrypt_pre_key_signal_message bob_cipher m (fresh_world bob_store)
  | None => (Err 0, fresh_world bob_store)
  end.
Definition bob_sent : outcome ciphertext_message * world store :=
  session_cipher_encrypt bob_cipher [1; 2; 3] (snd bob_read).

Definition dummy_message : signal_message := SignalMsg 0 (EcPublicKey []) 0 0 [] [].
Definition answer : signal_message :=
  Eval vm_compute in match fst bob_sent with Ok (CiphertextSignal m) => m | _ => dummy_message end.
Definition alice_world : world store := Eval vm_compute in snd alice_sent.
Definition alice_record : session_record :=
  Eval vm_compute in match fst (signal_protocol_session_load_session bob_address alice_world) with
    | Ok r => r
    | _ => SessionRecord session_state_init [] true
    end.

Lemma alice_storable : storable (rec_state alice_record).
Proof.
  split; [by right|by vm_compute|by vm_compute|split; by vm_compute|by vm_compute|..].
  - split; [split; by vm_compute|split; by vm_compute|done].
  - apply Forall_singleton. split; [by vm_compute|split; by vm_compute|constructor].
  - split; [cbn; unfold MAX_RECEIVER_CHAINS; lia|]. apply Forall_singleton. cbn. lia.
  - done.
  - split; by vm_compute.
  - by vm_compute.
  - by vm_compute.
  - by left.
  - by vm_compute.
Qed.

Lemma alice_established : established (rec_state alice_record).
Proof.
  split; [apply alice_storable|done|done|by eexists..| |by eexists].
  apply Forall_singleton. split; [split; [by vm_compute|split; by vm_compute|constructor]| | | |].
  - cbn. lia.
  - by eexists.
  - eexists. split; [reflexivity|constructor].
  - constructor.
Qed.

Lemma alice_holds : holds (w_user alice_world) bob_address alice_record.
Proof.
  split; [by vm_compute| |apply alice_established].
  split; [apply alice_storable|constructor|cbn; unfold ARCHIVED_STATES_MAX_LENGTH; lia].
Qed.

Lemma answer_ok : message_ok answer.
Proof. split; [by vm_compute|cbn; unfold SIGNAL_MESSAGE_MAC_LENGTH; lia|by vm_compute]. Qed.

Lemma answer_readable : decrypt_result (rec_state alice_record) answer = inl [1; 2; 3].
Proof. by vm_compute. Qed.

Lemma replayed_message_is_duplicate_witness : exists w1 w2,
  session_cipher_decrypt_signal_message alice_cipher answer alice_world = (Ok [1; 2; 3], w1) /\
  session_cipher_decrypt_signal_message alice_cipher answer w1 = (Err SG_ERR_DUPLICATE_MESSAGE, w2) /\
  w_user w2 = w_user w1.
Proof.
  apply (replayed_message_is_duplicate alice_cipher alice_record);
    [by vm_compute|done|apply alice_holds|apply answer_ok|apply answer_readable].
Defined.

(** The same answer with its last octet changed. *)
Definition forged : signal_message :=
  SignalMsg (sgm_message_version answer) (sgm_sender_ratchet_key answer) (sgm_counter answer)
    (sgm_previous_counter answer) (sgm_ciphertext answer)
    (removelast (sgm_serialized answer) ++ [255]).

Lemma decrypted_is_authentic_witness : exists r w1 w2 s,
  signal_protocol_session_load_session bob_address w1 = (Ok r, w2) /\
  w_user w1 = w_user alice_world /\ copy_of r s /\ authenticated answer s [1; 2; 3].
Proof.
  apply (decrypted_is_authentic alice_cipher answer alice_world [1; 2; 3]
    (snd (session_cipher_decrypt_signal_message alice_cipher answer alice_world))).
  - vm_compute. lia.
  - vm_compute. reflexivity.
Defined.


Definition hello_message : pre_key_signal_message :=
  Eval vm_compute in match hello with
    | Some m => m
    | None => PreKeySignalMsg 0 0 None 0 (EcPublicKey []) (EcPublicKey []) dummy_message []
    end.
(** A pre key message with a message of someone else inside. *)
Definition forged_hello : pre_key_signal_message :=
  PreKeySignalMsg (pkm_version hello_message) (pkm_registration_id hello_message)
    (pkm_pre_key_id hello_message) (pkm_signed_pre_key_id hello_message) (pkm_base_key hello_message)
    (pkm_identity_key hello_message) forged (pkm_serialized hello_message).


Definition alice_ratchet_pair : ec_key_pair :=
  Eval vm_compute in default (sample_pair 0) (sc_ratchet_key_pair (st_sender_chain (rec_state alice_record))).
Definition alice_chain : ratchet_chain_key :=
  Eval vm_compute in default (RatchetChainKey (HkdfContext 0) [] 0) (sc_chain_key (st_sender_chain (rec_state alice_record))).

Lemma encrypt_sends_and_advances_witness : exists w',
  fst (session_cipher_encrypt alice_cipher [7] alice_world) =
    Ok (wrap (rec_state alice_record) (identity_public alice_identity)
      (next_message (rec_state alice_record) alice_ratchet_pair alice_chain (identity_public alice_identity)
        (identity_public bob_identity) (xor_with (cipher_key (Ratchet.message_keys alice_chain)) [7]))) /\
  holds (w_user w') bob_address (session_record_set_state (stored alice_record)
      (with_sender_chain_key (Ratchet.next_chain alice_chain) (rec_state alice_record))).
Proof.
  destruct (encrypt_sends_and_advances alice_cipher alice_record alice_ratchet_pair alice_chain
    (identity_public alice_identity) (identity_public bob_identity)
    (xor_with (cipher_key (Ratchet.message_keys alice_chain)) [7]) [7] alice_world)
    as (w' & E & _ & H);
    [reflexivity|reflexivity|apply alice_holds|reflexivity|reflexivity|vm_compute; reflexivity
    |vm_compute; reflexivity|vm_compute; reflexivity|unfold short; vm_compute; discriminate|].
  exists w'. split; [rewrite E; reflexivity|exact H].
Defined.

Lemma cipher_is_not_reentrant_witness :
  session_cipher_encrypt (SessionCipher bob_address (SessionBuilder bob_address) None true) [7] alice_world =
    (Err SG_ERR_INVAL, alice_world).
Proof.
  exact (proj1 (cipher_is_not_reentrant (SessionCipher bob_address (SessionBuilder bob_address) None true)
    [7] answer hello_message alice_world eq_refl)).
Defined.

Lemma bundle_is_checked_witness : exists ik, bd_identity_key bob_bundle = Some ik /\
  first_use alice_store bob_address (ec_public_key_bytes ik) = true.
Proof.
  destruct (bundle_is_checked (SessionBuilder bob_address) bob_bundle (fresh_world alice_store))
    as (ik & spk & sg & H1 & _ & _ & H2 & _).
  - intros E. apply (f_equal (fun s => s_sessions s !! bob_address)) in E. vm_compute in E. discriminate.
  - by exists ik.
Defined.

(** Alice starts a key exchange and Bob answers. *)
Definition alice_exchange : outcome key_exchange_message * world store :=
  session_builder_process (SessionBuilder bob_address) (fresh_world alice_store).
Definition dummy_exchange : key_exchange_message :=
  KeyExchangeMsg 0 0 0 0 (EcPublicKey []) [] (EcPublicKey []) (EcPublicKey []) (Clobbered []).
Definition initiate : key_exchange_message :=
  Eval vm_compute in match fst alice_exchange with Ok m => m | _ => dummy_exchange end.

Lemma initiate_is_checked_witness :
  first_use bob_store alice_address (ec_public_key_bytes (kem_identity_key initiate)) = true.
Proof.
  destruct (initiate_is_checked (SessionBuilder alice_address) initiate (fresh_world bob_store)) as [H _].
  - reflexivity.
  - intros E. apply (f_equal (fun s => s_sessions s !! alice_address)) in E. vm_compute in E. discriminate.
  - exact H.
Defined.

(** A store that knows another identity for Bob. *)
Definition wary_store : store :=
  Store ∅ ∅ ∅ (own_bytes alice_identity) 1001 {[bob_address := [1; 2; 3]]} ∅.
Definition bobs (m : key_exchange_message) : key_exchange_message :=
  KeyExchangeMsg (kem_version m) (kem_supported_version m) (kem_sequence m) (kem_flags m) (kem_base_key m)
    (kem_base_key_signature m) (kem_ratchet_key m) (identity_public bob_identity) (kem_serialized m).

Lemma untrusted_identity_is_refused_witness :
  session_builder_process_pre_key_bundle (SessionBuilder bob_address) bob_bundle (fresh_world wary_store) =
    (Err SG_ERR_UNTRUSTED_IDENTITY, fresh_world wary_store).
Proof.
  apply (untrusted_identity_is_refused (SessionBuilder bob_address) bob_bundle
    (SessionRecord session_state_init [] true)
    (PreKeySignalMsg 3 0 None 0 (EcPublicKey []) (identity_public bob_identity) dummy_message [])
    (bobs initiate) (identity_public bob_identity)); vm_compute; reflexivity.
Defined.

Lemma stale_response_is_refused_witness :
  session_builder_process_response (SessionBuilder bob_address) initiate alice_world =
    (Err SG_ERR_STALE_KEY_EXCHANGE, alice_world).
Proof.
  rewrite (stale_response_is_refused (SessionBuilder bob_address) initiate alice_record);
    [vm_compute; reflexivity|vm_compute; reflexivity|apply alice_holds|apply alice_holds|left; vm_compute; reflexivity].
Defined.

Lemma decryption_follows_the_ratchet_witness : exists s' w',
  session_cipher_decrypt_from_state_and_signal_message (rec_state alice_record) answer alice_world =
    (Ok ([1; 2; 3], s'), w').
Proof.
  destruct (decryption_follows_the_ratchet (rec_state alice_record) answer alice_world) as (w' & _ & _ & H);
    [by vm_compute|apply alice_established|apply answer_ok|].
  rewrite answer_readable in H. destruct H as (s' & E & _). by exists s', w'.
Defined.

(** The chain Alice has for Bob's signed pre key, and three messages on it. *)
Definition first_chain : session_state_receiver_chain :=
  Eval vm_compute in hd (ReceiverChain None None []) (st_receiver_chains (rec_state alice_record)).
Definition first_chain_key : ratchet_chain_key :=
  Eval vm_compute in default (RatchetChainKey (HkdfContext 0) [] 0) (rc_chain_key first_chain).
Definition bob_signed_public : ec_public_key := ec_key_pair_get_public (sample_pair 3).
Definition post_bag : list (nat * bytes * bytes) :=
  map (fun j => (j, [Z.of_nat j], xor_with (cipher_key (keys_of first_chain_key j)) [Z.of_nat j])) [2; 0; 1]%nat.

Lemma first_chain_ok : chain_ok 3 first_chain_key.
Proof. split; by vm_compute. Qed.

Lemma delivered_in_any_order_witness : exists w',
  decrypt_all (rec_state alice_record) (map (fun d => sent first_chain_key bob_signed_public
    (identity_public bob_identity) (identity_public alice_identity) 0 (fst (fst d)) (snd d)) post_bag) alice_world =
  (Ok [[2]; [0]; [1]], w').
Proof.
  apply (delivered_in_any_order first_chain_key bob_signed_public (identity_public bob_identity)
    (identity_public alice_identity) (rec_state alice_record) first_chain 0 post_bag alice_world);
    [apply first_chain_ok|reflexivity|reflexivity|reflexivity|apply alice_established|reflexivity
    |reflexivity|vm_compute; reflexivity|reflexivity| |].
  - apply (bool_decide_unpack _). by vm_compute.
  - repeat constructor.
Defined.

Lemma skipped_keys_are_stored_witness : exists s',
  session_cipher_get_or_create_message_keys (rec_state alice_record) bob_signed_public first_chain_key 5 alice_world =
  (Ok (Ratchet.message_keys (Ratchet.nth_chain 5 first_chain_key), s'), alice_world) /\
  length (stored_keys s' bob_signed_public) = 5%nat.
Proof.
  destruct (skipped_keys_are_stored (rec_state alice_record) bob_signed_public first_chain first_chain_key 5
    alice_world) as (s' & E & _ & Hf); [reflexivity|apply alice_established|vm_compute; reflexivity|reflexivity
    |lia|by vm_compute|].
  exists s'. split; [exact E|]. unfold stored_keys. rewrite Hf. by vm_compute.
Defined.

(** A response to Alice's key exchange in Bob's name, by someone else and with
    a signature of zeros. *)
Definition impostor : ratchet_identity_key_pair := sample_identity 9.
Definition forged_response : key_exchange_message :=
  KeyExchangeMsg 3 3 (kem_sequence initiate) KEY_EXCHANGE_RESPONSE_FLAG
    (ec_key_pair_get_public (sample_pair 10)) (replicate 64 0) (ec_key_pair_get_public (sample_pair 11))
    (identity_public impostor) (Clobbered []).
(** The remote identity and the chain of the session that is stored for Bob. *)
Definition stored_session (w : world store) : option (option ec_public_key * bool) :=
  match fst (signal_protocol_session_load_session bob_address w) with
  | Ok r => Some (st_remote_identity_public (rec_state r), st_has_sender_chain (rec_state r))
  | _ => None
  end.

