(* ===== verification/TurnTaking.v ===== *)
(** The conversation goes on: two sessions in step exchange messages turn by
    turn.  The party whose turn it is sends any number of messages, the other
    reads them, turns the ratchet and answers.  [faces] is the invariant
    between turns; reading the first message of a turn makes the reader the
    next sender. *)
From stdpp Require Import base list gmap.
From Stdlib Require Import ZArith Lia.
From S2P Require Import Prelude Buffers Hkdf Curve Sample Protobuf Messages Ratchet SessionState.
From S2P Require Import SessionStorage RatchetSession SessionRecord Protocol PreKeys Store Scenario.
From S2P Require Import SessionBuilder SessionCipher DoubleRatchet Sessions Handshake Conversation.
#[local] Open Scope Z_scope.
#[local] Open Scope signal_scope.

Section Turn.
Context {U : Type} `{CL : CryptoLaws} `{VL : CurveLaws} `{SL : StoreLaws U}.
Implicit Types w : world U.

(** ** What a receive does to the sending half *)

(** A decryption finds or makes the chain, and changes no more than the
    receiving chains after that. *)
Lemma decrypt_chains s m w p s' w' :
  session_cipher_decrypt_from_state_and_signal_message s m w = (Ok (p, s'), w') ->
  exists ck s1 w1 l, session_cipher_get_or_create_chain_key s (sgm_sender_ratchet_key m) w = (Ok (ck, s1), w1) /\
    s' = session_state_clear_unacknowledged_pre_key_message (set_receiver_chains l s1).
Proof.
  unfold session_cipher_decrypt_from_state_and_signal_message. intros H.
  destruct (negb (st_has_sender_chain s)); [discriminate|]. destruct (negb _); [discriminate|].
  apply bind_Ok_inv in H as ([ck s1] & w1 & H1 & H). exists ck, s1, w1.
  apply bind_Ok_inv in H as ([k s2] & w2 & H2 & H).
  destruct (post_message_keys_chains _ _ _ _ _ _ _ H2) as [l Hl]. cbn [snd] in Hl. exists l. split; [done|]. subst s2.
  do 3 (apply bind_Ok_inv in H as (? & ? & _ & H)). destruct (negb _); [discriminate|].
  apply bind_Ok_inv in H as (? & ? & _ & H). unfold ret in H. by injection H as _ <- _.
Qed.

Lemma sending_cleared s kp r l : sending s kp r ->
  sending (session_state_clear_unacknowledged_pre_key_message (set_receiver_chains l s)) kp r.
Proof. by destruct s. Qed.

(** The reader of the first message of a chain has a new sending half, one
    step of the root key further. *)
Lemma decrypt_turns s m w p s' w' rk kp : mem_ok w -> established s -> wf_public (sgm_sender_ratchet_key m) ->
  find_chain (sgm_sender_ratchet_key m) (st_receiver_chains s) = None ->
  st_root_key s = Some rk -> sc_ratchet_key_pair (st_sender_chain s) = Some kp ->
  session_cipher_decrypt_from_state_and_signal_message s m w = (Ok (p, s'), w') ->
  exists kp', key_pair_matches kp' /\ sending s' kp' (Ratchet.root_step
    (fst (Ratchet.root_step rk (agree (ec_key_pair_get_private kp) (sgm_sender_ratchet_key m))))
    (agree (ec_key_pair_get_private kp') (sgm_sender_ratchet_key m))).
Proof.
  intros Hm Hs Hk Hf Hrk Hkp H. apply decrypt_chains in H as (ck & s1 & w1 & l & H1 & ->).
  destruct (es_chain s Hs) as [sck Hsck].
  destruct (chain_key_new s _ rk kp sck w Hm Hs Hk Hf Hrk Hkp Hsck) as (s1' & E & _ & _ & _ & kp' & Hk' & Hs').
  rewrite H1 in E. injection E as _ <- _. exists kp'. split; [done|]. by apply sending_cleared.
Qed.

(** Later messages of the chain leave it as it is. *)
Lemma decrypt_keeps_sending s m w p s' w' kp r ck : chain_for s (sgm_sender_ratchet_key m) = Some ck ->
  find_chain (sgm_sender_ratchet_key m) (st_receiver_chains s) <> None ->
  established s -> sending s kp r ->
  session_cipher_decrypt_from_state_and_signal_message s m w = (Ok (p, s'), w') -> sending s' kp r.
Proof.
  intros Hck Hf Hs Hsd H. apply decrypt_chains in H as (ck' & s1 & w1 & l & H1 & ->).
  apply sending_cleared. enough (s1 = s) as -> by done.
  unfold session_cipher_get_or_create_chain_key, session_state_get_receiver_chain_key,
    session_state_find_receiver_chain in H1.
  destruct (find_chain _ _) as [c|] eqn:Ef; [|done].
  destruct (cg_behind c (find_good s _ c Hs Ef)) as (ck0 & E0 & _). rewrite E0 in H1. unfold ret in H1. congruence.
Qed.

Lemma decrypt_acknowledges s m w p s' w' :
  session_cipher_decrypt_from_state_and_signal_message s m w = (Ok (p, s'), w') -> st_has_pending_pre_key s' = false.
Proof. intros H. apply decrypt_chains in H as (ck & s1 & w1 & l & _ & ->). by destruct s1. Qed.

(** ** One message *)

(** [A]'s state and [B]'s within a turn of [A]: [B] has the chain [A] sends on,
    or can derive it. *)
Record within (la lb : ec_public_key) (kp : ec_key_pair) (ck : ratchet_chain_key) (sa sb : session_state) : Prop := {
  wi_pending : st_has_pending_pre_key sa = false;
  wi_pair : sc_ratchet_key_pair (st_sender_chain sa) = Some kp;
  wi_chain : sc_chain_key (st_sender_chain sa) = Some ck;
  wi_for : chain_for sb (ec_key_pair_get_public kp) = Some ck;
  wi_peers : st_local_identity_public sa = Some la /\ st_remote_identity_public sa = Some lb /\
    st_local_identity_public sb = Some lb /\ st_remote_identity_public sb = Some la
}.

Lemma chain_is_for s eph ck keys : chain_is s eph (ck, keys) -> chain_for s eph = Some ck /\
  find_chain eph (st_receiver_chains s) <> None.
Proof.
  intros (c & Hf & Hck & _). unfold chain_for, session_state_get_receiver_chain_key, session_state_find_receiver_chain.
  rewrite Hf, Hck. done.
Qed.

Lemma after_at_here ck keys : fst (after_at ck keys (chain_index ck)) = Ratchet.next_chain ck.
Proof. unfold after_at. rewrite Z.ltb_irrefl, Z.sub_diag. done. Qed.

(** One message from [A] to [B] over the wire; what was stored for [A] has the
    chain one step further, and so has what was stored for [B]. *)
Lemma deliver_one ca cb wa wb ra rb la lb kp ck p :
  plain_cipher ca -> plain_cipher cb -> mem_ok wa -> mem_ok wb ->
  holds (w_user wa) (cp_remote_address ca) ra -> holds (w_user wb) (cp_remote_address cb) rb ->
  within la lb kp ck (rec_state ra) (rec_state rb) -> chain_index ck + 1 < UINT32_MOD ->
  (forall key iv ct, encrypt_func SG_CIPHER_AES_CBC_PKCS5 key iv p = inl ct -> short ct) ->
  exists m wa' wb' ra' rb' w1,
    session_cipher_encrypt ca p wa = (Ok (CiphertextSignal m), wa') /\ mem_ok wa' /\
    signal_message_deserialize (sgm_serialized m) wb = (Ok m, wb) /\
    session_cipher_decrypt_signal_message cb m wb = (Ok p, wb') /\ mem_ok wb' /\
    holds (w_user wa') (cp_remote_address ca) ra' /\ holds (w_user wb') (cp_remote_address cb) rb' /\
    rec_state ra' = with_sender_chain_key (Ratchet.next_chain ck) (rec_state ra) /\
    sgm_sender_ratchet_key m = ec_key_pair_get_public kp /\
    session_cipher_decrypt_from_state_and_signal_message (rec_state rb) m wb = (Ok (p, rec_state rb'), w1) /\
    within la lb kp (Ratchet.next_chain ck) (rec_state ra') (rec_state rb') /\
    find_chain (ec_key_pair_get_public kp) (st_receiver_chains (rec_state rb')) <> None.
Proof.
  intros Hca Hcb Hma Hmb Hra Hrb [Hpe Hkp Hck Hfor (Hla & Hlb & Hlb' & Hla')] Hidx Hsh.
  destruct (established_sender _ (ho_state _ _ _ Hra)) as (kp' & ck' & Ekp & Eck & Hkpo & Hcko).
  assert (kp' = kp) as -> by congruence. assert (ck' = ck) as -> by congruence.
  assert (is_u32 (chain_index ck)) as Hi by apply Hcko.
  assert (wf_message_keys (Ratchet.message_keys ck)) as [W1 _ W3 _] by by apply wf_message_keys_spec.
  destruct (encrypt_law SG_CIPHER_AES_CBC_PKCS5 _ _ p W1 W3) as (ct & Ect & _). specialize (Hsh _ _ _ Ect).
  destruct (encrypt_ok ca ra kp ck la lb ct p wa) as (wa' & E1 & Hma' & _ & Hh1); [done|apply Hca|done..|].
  set (m := next_message (rec_state ra) kp ck la lb ct) in *.
  assert (wrap (rec_state ra) la m = CiphertextSignal m) as Hw by (unfold wrap; by rewrite Hpe). rewrite Hw in E1.
  assert (message_ok m) as Hmo.
  { split; [apply Hkpo| |split; [apply Hi|done]]. unfold m, next_message. cbn [sgm_serialized signal_message_of].
    rewrite length_app, length_mac_spec. unfold SIGNAL_MESSAGE_MAC_LENGTH. lia. }
  pose proof (decrypt_result_next (rec_state rb) (rec_state ra) kp ck ct p la lb Hfor Hi Hla' Hlb' Ect) as Hres. fold m in Hres.
  destruct (decrypt_signal_message_ok cb rb m p wb Hmb Hcb Hrb Hmo Hres) as (s' & wb' & E2 & Hmb' & [w1 Ed] & Hh2 & _).
  do 6 eexists. split; [exact E1|]. split; [done|]. split.
  { apply signal_message_deserialize_ok; try done; [apply Hkpo|]. apply (so_previous _ (es_storable _ (ho_state _ _ _ Hra))). }
  split; [exact E2|]. split; [done|]. split; [exact Hh1|]. split; [exact Hh2|]. split; [done|]. split; [done|].
  split; [exact Ed|]. cbn [rec_state session_record_set_state stored].
  destruct (decrypt_from_state_ok (rec_state rb) m wb Hmb (ho_state _ _ _ Hrb) Hmo) as (w2 & _ & _ & H). rewrite Hres in H.
  destruct H as (s2 & E3 & _ & (P1 & P2 & _) & _ & ck2 & Hf2 & Hci). rewrite Ed in E3. injection E3 as <- _.
  change (sgm_sender_ratchet_key m) with (ec_key_pair_get_public kp) in *. change (sgm_counter m) with (chain_index ck) in Hci.
  assert (ck2 = ck) as -> by congruence. rewrite (surjective_pairing (after_at _ _ _)), after_at_here in Hci.
  apply chain_is_for in Hci as [Hc1 Hc2]. split; [|done].
  split; [by destruct (rec_state ra)|by destruct (rec_state ra)|by destruct (rec_state ra)|done|].
  rewrite P1, P2. by destruct (rec_state ra).
Qed.

(** ** Bursts *)

(** Encrypt one after another and send the octets. *)
Fixpoint send_all (c : session_cipher U) (ps : list bytes) : M U (list bytes) :=
  match ps with
  | [] => ret []
  | p :: ps' =>
      let* m := session_cipher_encrypt c p in
      let* rest := send_all c ps' in
      ret (match m with CiphertextSignal m => sgm_serialized m | CiphertextPreKey m => pkm_serialized m end :: rest)
  end.

(** Read the octets and decrypt one after another. *)
Fixpoint read_all (c : session_cipher U) (ds : list bytes) : M U (list bytes) :=
  match ds with
  | [] => ret []
  | d :: ds' =>
      let* m := signal_message_deserialize d in
      let* p := session_cipher_decrypt_signal_message c m in
      let* rest := read_all c ds' in
      ret (p :: rest)
  end.

Definition sendable (p : bytes) : Prop :=
  forall key iv ct, encrypt_func SG_CIPHER_AES_CBC_PKCS5 key iv p = inl ct -> short ct.

(** The messages of a turn after its first one: neither sending half moves,
    but for the chain of the sender. *)
Lemma deliver_rest ca cb kp kpb r la lb ps : plain_cipher ca -> plain_cipher cb -> Forall sendable ps ->
  forall ck wa wb ra rb, mem_ok wa -> mem_ok wb ->
  holds (w_user wa) (cp_remote_address ca) ra -> holds (w_user wb) (cp_remote_address cb) rb ->
  within la lb kp ck (rec_state ra) (rec_state rb) -> sending (rec_state rb) kpb r ->
  find_chain (ec_key_pair_get_public kp) (st_receiver_chains (rec_state rb)) <> None ->
  st_has_pending_pre_key (rec_state rb) = false ->
  chain_index ck + Z.of_nat (length ps) < UINT32_MOD ->
  exists ds wa' wb' ra' rb' ck', send_all ca ps wa = (Ok ds, wa') /\ read_all cb ds wb = (Ok ps, wb') /\
    mem_ok wa' /\ mem_ok wb' /\
    holds (w_user wa') (cp_remote_address ca) ra' /\ holds (w_user wb') (cp_remote_address cb) rb' /\
    within la lb kp ck' (rec_state ra') (rec_state rb') /\ sending (rec_state rb') kpb r /\
    st_has_pending_pre_key (rec_state rb') = false /\
    st_root_key (rec_state ra') = st_root_key (rec_state ra) /\
    st_receiver_chains (rec_state ra') = st_receiver_chains (rec_state ra).
Proof.
  intros Hca Hcb Hps. induction Hps as [|p ps Hp Hps IH]; intros ck wa wb ra rb Hma Hmb Hra Hrb Hwi Hsd Hf Hpe Hidx.
  { by exists [], wa, wb, ra, rb, ck. }
  cbn [length] in Hidx. destruct (established_sender _ (ho_state _ _ _ Hra)) as (_ & ck0 & _ & Eck & _ & Hcko).
  assert (ck0 = ck) as -> by (pose proof (wi_chain _ _ _ _ _ _ Hwi); congruence).
  destruct (deliver_one ca cb wa wb ra rb la lb kp ck p) as
    (m & wa1 & wb1 & ra1 & rb1 & w1 & E1 & Hma1 & Ed & E2 & Hmb1 & Hra1 & Hrb1 & Era1 & Ekey & Est & Hwi1 & Hf1);
    [done..|lia|done|].
  pose proof (decrypt_keeps_sending _ m _ _ _ _ kpb r ck ltac:(rewrite Ekey; apply Hwi) ltac:(by rewrite Ekey)
    (ho_state _ _ _ Hrb) Hsd Est) as Hsd1.
  destruct (IH (Ratchet.next_chain ck) wa1 wb1 ra1 rb1) as (ds & wa' & wb' & ra' & rb' & ck' & S & R & H1 & H2 & H3 & H4 & H5 & H6 & H7 & H8 & H9);
    try done; [by eapply decrypt_acknowledges|rewrite index_next; [lia|apply (chain_ok_index _ _ Hcko)|lia]|].
  exists (sgm_serialized m :: ds), wa', wb', ra', rb', ck'. split; [|split].
  - cbn [send_all]. erewrite bind_ok by exact E1. by erewrite bind_ok by exact S.
  - cbn [read_all]. erewrite bind_ok by exact Ed. erewrite bind_ok by exact E2. by erewrite bind_ok by exact R.
  - rewrite H8, H9, Era1. by destruct (rec_state ra).
Qed.

(** ** Turns *)

(** It is [A]'s turn: [B] has not seen the ratchet key [A] sends with, and its
    root key leads to [A]'s sending chain and root key. *)
Record faces (sa sb : session_state) : Prop := {
  fa_pending : st_has_pending_pre_key sa = false;
  fa_keys : exists kp kpb rb, key_pair_matches kp /\ key_pair_matches kpb /\
    sc_ratchet_key_pair (st_sender_chain sb) = Some kpb /\ st_root_key sb = Some rb /\
    sending sa kp (Ratchet.root_step rb (agree (ec_key_pair_get_private kpb) (ec_key_pair_get_public kp))) /\
    find_chain (ec_key_pair_get_public kp) (st_receiver_chains sb) = None;
  fa_peers : exists la lb, st_local_identity_public sa = Some la /\ st_remote_identity_public sa = Some lb /\
    st_local_identity_public sb = Some lb /\ st_remote_identity_public sb = Some la
}.

Lemma faces_within sa sb : established sb -> faces sa sb -> exists la lb kp kpb rb ck,
  within la lb kp ck sa sb /\ chain_index ck = 0 /\ key_pair_matches kp /\ key_pair_matches kpb /\
  sc_ratchet_key_pair (st_sender_chain sb) = Some kpb /\ st_root_key sb = Some rb /\
  sending sa kp (Ratchet.root_step rb (agree (ec_key_pair_get_private kpb) (ec_key_pair_get_public kp))) /\
  find_chain (ec_key_pair_get_public kp) (st_receiver_chains sb) = None.
Proof.
  intros Hs [Hpe (kp & kpb & rb & Hk & Hkb & Ekb & Erb & Hsd & Hf) (la & lb & Hpeers)].
  pose proof Hsd as (S1 & S2 & S3). exists la, lb, kp, kpb, rb,
    (snd (Ratchet.root_step rb (agree (ec_key_pair_get_private kpb) (ec_key_pair_get_public kp)))).
  split; [|exact (conj eq_refl (conj Hk (conj Hkb (conj Ekb (conj Erb (conj Hsd Hf))))))]. split; [done|done|exact S3| |done].
  unfold chain_for, session_state_get_receiver_chain_key, session_state_find_receiver_chain. by rewrite Hf, Erb, Ekb.
Qed.

(** The random source gave a party a ratchet key that its peer had seen
    before, so that the peer takes its messages for those of an old chain. *)
Definition key_repeated (ca cb : session_cipher U) wa wb : Prop :=
  exists ra rb kp, holds (w_user wa) (cp_remote_address ca) ra /\ holds (w_user wb) (cp_remote_address cb) rb /\
    sc_ratchet_key_pair (st_sender_chain (rec_state rb)) = Some kp /\
    find_chain (ec_key_pair_get_public kp) (st_receiver_chains (rec_state ra)) <> None.

(** A turn delivers its messages and passes to the other side. *)
Lemma turn_passes ca cb p ps wa wb ra rb : plain_cipher ca -> plain_cipher cb ->
  Forall sendable (p :: ps) -> Z.of_nat (length (p :: ps)) < UINT32_MOD -> mem_ok wa -> mem_ok wb ->
  holds (w_user wa) (cp_remote_address ca) ra -> holds (w_user wb) (cp_remote_address cb) rb ->
  faces (rec_state ra) (rec_state rb) ->
  exists ds wa' wb' ra' rb', send_all ca (p :: ps) wa = (Ok ds, wa') /\ read_all cb ds wb = (Ok (p :: ps), wb') /\
    mem_ok wa' /\ mem_ok wb' /\
    holds (w_user wa') (cp_remote_address ca) ra' /\ holds (w_user wb') (cp_remote_address cb) rb' /\
    (faces (rec_state rb') (rec_state ra') \/ key_repeated ca cb wa' wb').
Proof.
  intros Hca Hcb Hps Hn Hma Hmb Hra Hrb Hfa. apply Forall_cons in Hps as [Hp Hps]. cbn [length] in Hn.
  destruct (faces_within _ _ (ho_state _ _ _ Hrb) Hfa) as
    (la & lb & kp & kpb & rk & ck & Hwi & Hidx & Hkp & Hkpb & Ekb & Erb & Hsd & Hf).
  destruct (deliver_one ca cb wa wb ra rb la lb kp ck p) as
    (m & wa1 & wb1 & ra1 & rb1 & w1 & E1 & Hma1 & Ed & E2 & Hmb1 & Hra1 & Hrb1 & Era1 & Ekey & Est & Hwi1 & Hf1);
    [done..|lia|done|].
  destruct (decrypt_turns _ m _ _ _ _ rk kpb Hmb (ho_state _ _ _ Hrb) ltac:(rewrite Ekey; apply Hkp) ltac:(by rewrite Ekey) Erb Ekb Est)
    as (kp' & Hkp' & Hsd'). rewrite Ekey in Hsd'. set (r1 := Ratchet.root_step rk _) in *.
  destruct (deliver_rest ca cb kp kp' _ la lb ps Hca Hcb Hps (Ratchet.next_chain ck) wa1 wb1 ra1 rb1 Hma1 Hmb1 Hra1 Hrb1 Hwi1 Hsd' Hf1)
    as (ds & wa' & wb' & ra' & rb' & ck' & S & R & H1 & H2 & H3 & H4 & H5 & H6 & H7 & H8 & H9);
    [by eapply decrypt_acknowledges|rewrite index_next; [lia|lia|lia]|].
  exists (sgm_serialized m :: ds), wa', wb', ra', rb'. split; [|split; [|do 4 (split; [done|])]].
  - cbn [send_all]. erewrite bind_ok by exact E1. by erewrite bind_ok by exact S.
  - cbn [read_all]. erewrite bind_ok by exact Ed. erewrite bind_ok by exact E2. by erewrite bind_ok by exact R.
  - destruct (find_chain (ec_key_pair_get_public kp') (st_receiver_chains (rec_state ra'))) eqn:Ef.
    { right. exists ra', rb', kp'. split; [done|]. split; [done|]. split; [apply H6|]. by rewrite Ef. }
    left. split; [done| |].
    + exists kp', kp, (fst r1). split; [done|]. split; [done|]. split; [apply H5|]. split.
      { rewrite H8, Era1. destruct Hsd as (_ & Hr & _). by destruct (rec_state ra). }
      split; [|done]. by rewrite (agree_comm kp kp' Hkp Hkp').
    + destruct (wi_peers _ _ _ _ _ _ H5) as (P1 & P2 & P3 & P4). by exists lb, la.
Qed.
End Turn.

Section Conversation.
Context {U : Type} `{CL : CryptoLaws} `{VL : CurveLaws} `{SL : StoreLaws U}.

(** The turns of a conversation: [ca] sends the first burst to [cb], which
    reads it, and then sends the next. *)
Fixpoint goes_on (bursts : list (list bytes)) (ca cb : session_cipher U) (wa wb : world U) : Prop :=
  match bursts with
  | [] => True
  | ps :: rest => exists ds wa' wb', send_all ca ps wa = (Ok ds, wa') /\ read_all cb ds wb = (Ok ps, wb') /\
      (goes_on rest cb ca wb' wa' \/ key_repeated ca cb wa' wb')
  end.

End Conversation.

(** ** Bob answers Alice *)

Definition bob_world : world store := Eval vm_compute in snd bob_read.
Definition bob_record : session_record :=
  Eval vm_compute in match fst (signal_protocol_session_load_session alice_address bob_world) with
    | Ok r => r
    | _ => SessionRecord session_state_init [] true
    end.

Lemma bob_storable : storable (rec_state bob_record).
Proof.
  split; [by right|by vm_compute|by vm_compute|split; by vm_compute|by vm_compute|..].
  - split; [split; by vm_compute|split; by vm_compute|done].
  - apply Forall_singleton. split; [by vm_compute|split; by vm_compute|constructor].
  - split; [cbn; unfold MAX_RECEIVER_CHAINS; lia|]. apply Forall_singleton. cbn. lia.
  - done.
  - split; by vm_compute.
  - by vm_compute.
  - by vm_compute.
  - by left.
  - by vm_compute.
Qed.

Lemma bob_holds : holds (w_user bob_world) alice_address bob_record.
Proof.
  split; [by vm_compute| |].
  - split; [apply bob_storable|constructor|cbn; unfold ARCHIVED_STATES_MAX_LENGTH; lia].
  - split; [apply bob_storable|done|done|by eexists..| |done].
    apply Forall_singleton. split; [split; [by vm_compute|split; by vm_compute|constructor]| | | |].
    + cbn. lia.
    + by eexists.
    + eexists. split; [reflexivity|constructor].
    + constructor.
Qed.

Definition bob_ratchet_pair : ec_key_pair :=
  Eval vm_compute in default (sample_pair 0) (sc_ratchet_key_pair (st_sender_chain (rec_state bob_record))).
Definition alice_root : ratchet_root_key :=
  Eval vm_compute in default (RatchetRootKey (HkdfContext 1) []) (st_root_key (rec_state alice_record)).

Lemma bob_faces_alice : faces (rec_state bob_record) (rec_state alice_record).
Proof.
  split; [reflexivity| |by do 2 eexists; split_and!; reflexivity].
  exists bob_ratchet_pair, alice_ratchet_pair, alice_root.
  split; [by vm_compute|]. split; [by vm_compute|]. split; [by vm_compute|]. split; [by vm_compute|].
  split; [split; [by vm_compute|split; by vm_compute]|by vm_compute].
Qed.

