(* ===== verification/Contracts.v ===== *)
(** What the cryptographic components promise: the key derivation, the curve
    keys, the memory pool, the chains, the handshakes and the session state,
    each with an instance on the sample provider and curve. *)
From stdpp Require Import base list gmap.
From Stdlib Require Import ZArith Lia.
From S2P Require Import Prelude Buffers Hkdf Curve Sample Vpool Protobuf Messages Ratchet SessionState.
From S2P Require Import SessionStorage RatchetSession SessionRecord Protocol PreKeys Store Scenario.
#[local] Open Scope Z_scope.
#[local] Open Scope signal_scope.

(** * Key derivation *)

Section Derivation.
Context {U : Type} `{CL : CryptoLaws}.
Implicit Types w : world U.


End Derivation.



(** * Curve keys *)

Section Keys.
Context {U : Type} `{CL : CryptoLaws} `{VL : CurveLaws}.
Implicit Types w : world U.

(** The encoding of public keys is canonical.  [curve_decode_point] accepts
    exactly the 33 octets [ec_public_key_serialize] writes for the key it
    returns; every other input is refused. *)
Theorem decode_point_accepts_serialized data k w : mem_ok w ->
  curve_decode_point data w = (Ok k, w) <->
  wf_public k /\ ec_public_key_serialize (Some k) w = (Ok data, w).
Proof.
  intros Hm. rewrite ec_public_key_serialize_ok by done. split.
  - intros H. by apply curve_decode_point_inv in H as [Hk ->].
  - intros [Hk [= <-]]. by apply curve_decode_point_ok.
Qed.

(** Generated keys work.  Two key pairs of [curve_generate_key_pair] agree
    on the same 32 octets from both ends, and what the first signs verifies
    under its public key. *)
Theorem generated_keys_agree m w : mem_ok w -> signable m -> exists kp1 kp2 shared sg w1 w2 w3,
  curve_generate_key_pair w = (Ok kp1, w1) /\ curve_generate_key_pair w1 = (Ok kp2, w2) /\
  curve_calculate_agreement (Some (ec_key_pair_get_public kp2)) (Some (ec_key_pair_get_private kp1)) w2 =
    (Ok shared, w2) /\
  curve_calculate_agreement (Some (ec_key_pair_get_public kp1)) (Some (ec_key_pair_get_private kp2)) w2 =
    (Ok shared, w2) /\ length shared = 32%nat /\
  curve_calculate_signature (ec_key_pair_get_private kp1) m w2 = (Ok sg, w3) /\
  curve_verify_signature (ec_key_pair_get_public kp1) m sg w3 = (Ok 1, w3).
Proof.
  intros Hm Hsig. destruct (curve_generate_signing_pair_ok w Hm) as (kp1 & E1 & Hk1 & Hsk).
  destruct (curve_generate_key_pair_ok (rng_step w) Hm) as (kp2 & E2 & Hk2).
  destruct Hk1 as (S1 & P1 & D1) eqn:?, Hk2 as (S2 & P2 & D2) eqn:?.
  destruct (curve_calculate_signature_ok (ec_key_pair_get_private kp1) m (rng_step (rng_step w)) Hm Hsk Hsig)
    as (sg & Es & _ & Hv).
  destruct (curve_calculate_agreement_ok (ec_key_pair_get_public kp2) (ec_key_pair_get_private kp1)
    (rng_step (rng_step w)) Hm P2 S1) as [A1 L1].
  destruct (curve_calculate_agreement_ok (ec_key_pair_get_public kp1) (ec_key_pair_get_private kp2)
    (rng_step (rng_step w)) Hm P1 S2) as [A2 _].
  exists kp1, kp2, (agree (ec_key_pair_get_private kp1) (ec_key_pair_get_public kp2)), sg. do 3 eexists.
  split_and!; [exact E1|exact E2|exact A1| |exact L1|exact Es|by apply Hv].
  by rewrite A2, (agree_comm kp1 kp2).
Qed.
End Keys.

Lemma decode_point_accepts_serialized_witness :
  curve_decode_point (ec_public_key_bytes (identity_public bob_identity)) (fresh_world tt) =
    (Ok (identity_public bob_identity), fresh_world tt).
Proof. apply (decode_point_accepts_serialized _ _ (fresh_world tt) eq_refl). by vm_compute. Defined.

Lemma generated_keys_agree_witness : exists kp w1,
  curve_generate_key_pair (fresh_world tt) = (Ok kp, w1).
Proof.
  destruct (generated_keys_agree [1; 2; 3] (fresh_world tt) eq_refl eq_refl) as (kp & ? & ? & ? & w1 & ? & ? & E & _).
  by exists kp, w1.
Defined.

(** * The memory pool *)

(** The pool is a list of octets.  Within its limit [vpool_insert] inserts
    at a position of the contents (at the end, beyond it), wherever the
    contents lie in the block and whether or not the block must grow or be
    compacted, and keeps the invariant. *)
Theorem vpool_insert_is_insertion {U} p where_ data (w : world U) : wf p -> mem_ok w -> 0 <= where_ ->
  v_off p + blen data <= v_limit p -> v_off p + blen data + v_blksize p <= SIZE_MAX ->
  exists p', vpool_insert p where_ data w = (Ok (p', true), w) /\ wf p' /\
    vpool_get_buf p' = take (Z.to_nat where_) (vpool_get_buf p) ++ data ++
                       drop (Z.to_nat where_) (vpool_get_buf p) /\
    vpool_get_length p' = vpool_get_length p + blen data.
Proof.
  intros. destruct (vpool_insert_run p where_ data w) as (p' & E & Hw & Hc & Ho & _); try done.
  by exists p'.
Qed.

(** [vpool_truncate] removes, or keeps, the range it is given, and refuses
    with [ERANGE] and no other change a range that does not lie inside. *)
Theorem vpool_truncate_is_slice p where_ size how : wf p -> 0 <= where_ -> 0 <= size ->
  let '(p', r) := vpool_truncate p where_ size how in
  if decide (where_ < vpool_get_length p /\ where_ + size <= vpool_get_length p) then
    r = 0 /\ wf p' /\ vpool_get_buf p' =
      match how with
      | VPOOL_EXCLUDE => take (Z.to_nat where_) (vpool_get_buf p) ++
                         drop (Z.to_nat where_ + Z.to_nat size) (vpool_get_buf p)
      | VPOOL_INCLUDE => take (Z.to_nat size) (drop (Z.to_nat where_) (vpool_get_buf p))
      end
  else r = ERANGE /\ p' = set_lasterr p ERANGE.
Proof.
  intros Hp Hw Hs. unfold vpool_get_length. case_decide as Hd.
  { apply vpool_truncate_run; tauto. }
  unfold vpool_truncate. destruct (Z.leb_spec (v_off p) where_); [done|].
  destruct (Z.ltb_spec (v_off p) size); [done|].
  destruct (Z.ltb_spec (v_off p - size) where_); [done|]. exfalso. apply Hd. lia.
Qed.

(** A pool with five octets in it, one dropped from its front. *)
Definition small_pool : vpool := Vpool [1; 2; 3; 4; 5; 0; 0; 0] 1 4 8 8 64 0.

Lemma small_pool_wf : wf small_pool.
Proof. split; unfold small_pool, SIZE_MAX; cbn; lia. Qed.

Lemma vpool_insert_is_insertion_witness : exists p',
  vpool_insert small_pool 2 [7; 7; 7; 7] (fresh_world tt) = (Ok (p', true), fresh_world tt) /\
  vpool_get_buf p' = [2; 3; 7; 7; 7; 7; 4; 5].
Proof.
  destruct (vpool_insert_is_insertion small_pool 2 [7; 7; 7; 7] (fresh_world tt)) as (p' & E & _ & H & _);
    [apply small_pool_wf|done|lia|by vm_compute|by vm_compute|by exists p'].
Defined.

Lemma vpool_truncate_is_slice_witness :
  vpool_get_buf (fst (vpool_truncate small_pool 1 2 VPOOL_EXCLUDE)) = [2; 5].
Proof.
  exact (proj2 (proj2 (vpool_truncate_is_slice small_pool 1 2 VPOOL_EXCLUDE small_pool_wf
    ltac:(lia) ltac:(lia)))).
Defined.

(** * The symmetric-key ratchet *)

Section Chain.
Context {U : Type} `{CL : CryptoLaws} `{VL : CurveLaws}.
Implicit Types w : world U.

(** [n] calls of [ratchet_chain_key_create_next]. *)
Fixpoint chain_steps (n : nat) (ck : ratchet_chain_key) : M U ratchet_chain_key :=
  match n with
  | O => ret ck
  | S n' => let* next := ratchet_chain_key_create_next ck in chain_steps n' next
  end.

Lemma chain_steps_ok n ck w : mem_ok w -> chain_steps n ck w = (Ok (Ratchet.nth_chain n ck), w).
Proof.
  intros Hm. revert ck. induction n as [|n IH]; intros ck; cbn [chain_steps]; [done|].
  erewrite bind_ok by by apply create_next_ok. by rewrite IH, nth_chain_S.
Qed.

(** The keys of a position.  [n] steps along a chain give the keys derived
    from its [n]th key: 32 octets of cipher key, 32 of MAC key and 16 of
    initialization vector cut out of 80 octets of HKDF output, numbered by the
    index of the chain plus [n], modulo 2^32. *)
Theorem keys_of_position n ck w : mem_ok w -> wf_kdf (chain_kdf ck) -> is_u32 (chain_index ck) ->
  exists k, bind (chain_steps n ck) ratchet_chain_key_get_message_keys w = (Ok k, w) /\ wf_message_keys k /\
    cipher_key k ++ mac_key k ++ iv k =
      Spec.hkdf (iteration_start_offset (chain_kdf ck))
        (hmac_spec (chain_key (Ratchet.nth_chain n ck)) message_key_seed) zero_salt message_keys_info 80 /\
    counter k = (chain_index ck + Z.of_nat n) mod UINT32_MOD.
Proof.
  intros Hm Hk Hi. exists (Ratchet.message_keys (Ratchet.nth_chain n ck)).
  erewrite bind_ok by by apply chain_steps_ok. split; [apply get_message_keys_ok; [done|by rewrite chain_kdf_nth]|].
  split; [|split].
  - apply wf_message_keys_spec. rewrite chain_index_nth by done. apply u32_range.
  - unfold Ratchet.message_keys, Ratchet.message_secrets. cbn [cipher_key mac_key iv].
    rewrite chain_kdf_nth. unfold DERIVED_MESSAGE_SECRETS_SIZE.
    set (d := Spec.hkdf _ _ _ _ _). assert (length d = 80%nat) as Hd by apply length_hkdf.
    rewrite <- (take_drop 32 d) at 4. f_equal. rewrite <- (take_drop 32 (drop 32 d)) at 2. f_equal.
    rewrite drop_drop. apply take_ge. rewrite length_drop. lia.
  - cbn [counter Ratchet.message_keys]. by rewrite chain_index_nth.
Qed.
End Chain.

Definition sample_chain (i : Z) : ratchet_chain_key := RatchetChainKey (HkdfContext 1) (replicate 32 7) i.

(** The last position of a chain is followed by the first. *)
Lemma keys_of_position_witness : exists k,
  bind (chain_steps 1 (sample_chain 4294967295)) ratchet_chain_key_get_message_keys (fresh_world tt) =
    (Ok k, fresh_world tt) /\ counter k = 0.
Proof.
  destruct (keys_of_position 1 (sample_chain 4294967295) (fresh_world tt)) as (k & E & _ & _ & Hc);
    [done|split; by vm_compute|split; by vm_compute|]. exists k. split; [exact E|]. rewrite Hc. reflexivity.
Defined.

(** * The handshakes *)

Section Handshakes.
Context {U : Type} `{CL : CryptoLaws} `{VL : CurveLaws}.

(** C10: X3DH agreement.  When Alice's parameters name the public halves of
    Bob's keys and Bob's those of Alice's, [ratcheting_session_alice_initialize]
    and [ratcheting_session_bob_initialize] both succeed and leave the two
    states in step: Alice receives on the chain Bob sends on, one turn of
    Bob's root key with Alice's ratchet key gives the chain Alice sends on and
    her root key, and each has the identity of the other. *)
Theorem x3dh_sides_agree pa pb sa sb (wa wb : world U) : mem_ok wa -> mem_ok wb -> corresponds pa pb ->
  find_chain (alice_their_ratchet_key pa) (st_receiver_chains sa) = None ->
  exists sa' sb', ratcheting_session_alice_initialize sa pa wa = (Ok sa', rng_step wa) /\
    ratcheting_session_bob_initialize sb pb wb = (Ok sb', wb) /\
    in_step (U := U) sa' sb' (bob_our_ratchet_key pb).
Proof. apply handshake. Qed.

(** C11: simultaneous initiation.  When two parties with different base keys
    run [ratcheting_session_symmetric_initialize] with mirrored parameters,
    one takes Alice's part and the other Bob's, whichever they are, both
    succeed and the states are in step. *)
Theorem symmetric_sides_agree p1 p2 s1 s2 (w1 w2 : world U) : mem_ok w1 -> mem_ok w2 ->
  mirrored p1 p2 -> mirrored p2 p1 ->
  ec_key_pair_get_public (sym_our_base_key p1) <> ec_key_pair_get_public (sym_our_base_key p2) ->
  find_chain (sym_their_ratchet_key p1) (st_receiver_chains s1) = None ->
  find_chain (sym_their_ratchet_key p2) (st_receiver_chains s2) = None ->
  exists s1' s2' w1' w2', ratcheting_session_symmetric_initialize s1 p1 w1 = (Ok s1', w1') /\
    ratcheting_session_symmetric_initialize s2 p2 w2 = (Ok s2', w2') /\
    (in_step (U := U) s1' s2' (sym_our_ratchet_key p2) \/ in_step (U := U) s2' s1' (sym_our_ratchet_key p1)).
Proof.
  intros Hm1 Hm2 H1 H2 Hne F1 F2. pose proof (symmetric_roles p1 p2 H1 H2 Hne) as Hroles.
  destruct (ratcheting_session_symmetric_is_alice p1) eqn:E1.
  - destruct (symmetric_handshake_alice p1 p2 s1 s2 w1 w2) as (s1' & s2' & R1 & R2 & Hin); try done.
    exists s1', s2'. do 2 eexists. split; [exact R1|]. split; [exact R2|]. by left.
  - destruct (symmetric_handshake_alice p2 p1 s2 s1 w2 w1) as (s2' & s1' & R1 & R2 & Hin); try done.
    exists s1', s2'. do 2 eexists. split; [exact R2|]. split; [exact R1|]. by right.
Qed.
End Handshakes.

Definition alice_parameters : alice_signal_protocol_parameters :=
  AliceParameters alice_identity (sample_pair 5) (identity_public bob_identity)
    (ec_key_pair_get_public (sample_pair 3)) (Some (ec_key_pair_get_public (sample_pair 4)))
    (ec_key_pair_get_public (sample_pair 3)).
Definition bob_parameters : bob_signal_protocol_parameters :=
  BobParameters bob_identity (sample_pair 3) (Some (sample_pair 4)) (sample_pair 3)
    (identity_public alice_identity) (ec_key_pair_get_public (sample_pair 5)).

Lemma x3dh_sides_agree_witness : exists sa' sb',
  ratcheting_session_alice_initialize session_state_init alice_parameters (fresh_world tt) =
    (Ok sa', rng_step (fresh_world tt)) /\
  ratcheting_session_bob_initialize session_state_init bob_parameters (fresh_world tt) =
    (Ok sb', fresh_world tt) /\
  session_state_get_receiver_chain_key sa' (ec_key_pair_get_public (sample_pair 3)) =
    session_state_get_sender_chain_key sb'.
Proof.
  destruct (x3dh_sides_agree alice_parameters bob_parameters session_state_init session_state_init
    (fresh_world tt) (fresh_world tt)) as (sa' & sb' & E1 & E2 & [H _ _]);
    [reflexivity|reflexivity| |reflexivity|exists sa', sb'; split_and!; assumption].
  split; first [reflexivity|apply sample_pair_matches].
Defined.

Definition symmetric_parameters (z z' : Z) : symmetric_signal_protocol_parameters :=
  SymmetricParameters (sample_identity z) (sample_pair (z + 10)) (sample_pair (z + 20))
    (ec_key_pair_get_public (sample_pair (z' + 10))) (ec_key_pair_get_public (sample_pair (z' + 20)))
    (identity_public (sample_identity z')).

Lemma symmetric_sides_agree_witness : exists s1' s2' w1' w2',
  ratcheting_session_symmetric_initialize session_state_init (symmetric_parameters 1 2) (fresh_world tt) =
    (Ok s1', w1') /\
  ratcheting_session_symmetric_initialize session_state_init (symmetric_parameters 2 1) (fresh_world tt) =
    (Ok s2', w2').
Proof.
  destruct (symmetric_sides_agree (symmetric_parameters 1 2) (symmetric_parameters 2 1)
    session_state_init session_state_init (fresh_world tt) (fresh_world tt))
    as (s1 & s2 & w1 & w2 & E1 & E2 & _);
    [reflexivity|reflexivity| | | |reflexivity|reflexivity|exists s1, s2, w1, w2; split; assumption].
  - split; first [reflexivity|apply sample_pair_matches].
  - split; first [reflexivity|apply sample_pair_matches].
  - vm_compute. discriminate.
Defined.

(** * Stored message keys *)

Lemma take_key_snoc l mk : Forall (fun k => counter k <> counter mk) l ->
  take_key (counter mk) (l ++ [mk]) = Some (mk, l).
Proof.
  induction l as [|k l IH]; intros H; cbn [take_key app].
  - by rewrite Z.eqb_refl.
  - apply Forall_cons in H as [Hk Hl]. rewrite (proj2 (Z.eqb_neq _ _)) by done. by rewrite IH.
Qed.

Lemma take_key_none ctr l : Forall (fun k => counter k <> ctr) l -> take_key ctr l = None.
Proof.
  induction l as [|k l IH]; intros H; cbn [take_key]; [done|].
  apply Forall_cons in H as [Hk Hl]. rewrite (proj2 (Z.eqb_neq _ _)) by done. by rewrite IH.
Qed.

Lemma existsb_none ctr l : Forall (fun k => counter k <> ctr) l ->
  existsb (fun k => counter k =? ctr) l = false.
Proof.
  intros H. apply not_true_is_false. intros (k & Hk & E)%existsb_counter.
  rewrite Forall_forall in H. by apply (H k Hk).
Qed.

Lemma has_keys_put s k l c : find_chain k (st_receiver_chains s) = Some c ->
  session_state_has_message_keys (set_receiver_chains
    (update_chain k (set_message_keys_list l) (st_receiver_chains s)) s) k =
  (fun ctr => existsb (fun mk => counter mk =? ctr) l).
Proof.
  intros H. unfold session_state_has_message_keys, session_state_find_receiver_chain.
  by rewrite st_receiver_chains_set, find_update_same, H by done.
Qed.

Section StoredKeys.
Context {U : Type}.
Implicit Types w : world U.

(** A stored key is handed out once.  Keys given to
    [session_state_set_message_keys] for a chain are found by
    [session_state_has_message_keys] and returned by
    [session_state_remove_message_keys]; after that neither finds them, and
    the keys of the other chains have not been touched. *)
Theorem stored_keys_are_taken_once s eph c mk w : mem_ok w ->
  find_chain eph (st_receiver_chains s) = Some c ->
  Forall (fun k => counter k <> counter mk) (rc_message_keys c) ->
  exists s1 s2, session_state_set_message_keys s eph mk w = (Ok s1, w) /\
    session_state_has_message_keys s1 eph (counter mk) = true /\
    session_state_remove_message_keys s1 eph (counter mk) = (Some mk, s2) /\
    session_state_has_message_keys s2 eph (counter mk) = false /\
    session_state_remove_message_keys s2 eph (counter mk) = (None, s2) /\
    forall eph', wf_public eph -> wf_public eph' -> eph <> eph' ->
      Forall (fun d => opt_all wf_public (rc_ratchet_key d)) (st_receiver_chains s) ->
      find_chain eph' (st_receiver_chains s2) = find_chain eph' (st_receiver_chains s).
Proof.
  intros Hm Hf Hfresh. unfold session_state_set_message_keys, session_state_find_receiver_chain. rewrite Hf.
  rewrite trim_snoc by (unfold MAX_MESSAGE_KEYS; lia). set (l := trim _ (rc_message_keys c)).
  assert (Forall (fun k => counter k <> counter mk) l) as Hl by by apply Forall_trim.
  erewrite bind_ok by by apply malloc_ok.
  set (s1 := set_receiver_chains (update_chain eph (set_message_keys_list (l ++ [mk])) (st_receiver_chains s)) s).
  set (s2 := set_receiver_chains (update_chain eph (set_message_keys_list l) (st_receiver_chains s1)) s1).
  exists s1, s2. split; [reflexivity|].
  assert (find_chain eph (st_receiver_chains s1) = Some (set_message_keys_list (l ++ [mk]) c)) as Hf1
    by (unfold s1; by rewrite st_receiver_chains_set, find_update_same, Hf by done).
  split.
  { unfold s1. rewrite (has_keys_put s eph _ c) by done. rewrite existsb_app. cbn. rewrite Z.eqb_refl.
    by rewrite orb_true_r. }
  unfold session_state_remove_message_keys at 1, session_state_find_receiver_chain. rewrite Hf1.
  cbn [set_message_keys_list rc_message_keys].
  rewrite take_key_snoc by done. split; [reflexivity|].
  assert (find_chain eph (st_receiver_chains s2) = Some (set_message_keys_list l c)) as Hf2
    by (unfold s2; by rewrite st_receiver_chains_set, find_update_same, Hf1 by done).
  split; [unfold s2; rewrite (has_keys_put s1 eph _ _ Hf1); by apply existsb_none|]. split.
  - unfold session_state_remove_message_keys, session_state_find_receiver_chain. rewrite Hf2.
    cbn [set_message_keys_list rc_message_keys]. by rewrite take_key_none.
  - intros eph' Hw Hw' Hne Hk. unfold s2. rewrite st_receiver_chains_set, find_update_other; try done.
    + unfold s1. rewrite st_receiver_chains_set, find_update_other; done.
    + unfold s1. rewrite st_receiver_chains_set. apply Forall_update; [done|].
      intros c' Hc'. rewrite Hf in Hc'. inversion Hc'; subst c'. apply find_chain_elem in Hf as [Hf _].
      rewrite Forall_forall in Hk. exact (Hk _ Hf).
Qed.
End StoredKeys.

Definition some_keys (i : Z) : ratchet_message_keys :=
  RatchetMessageKeys (replicate 32 1) (replicate 32 2) (replicate 16 3) i.

Definition keys_chain : session_state_receiver_chain :=
  ReceiverChain (Some (ec_key_pair_get_public (sample_pair 3))) None [some_keys 4; some_keys 9].

Lemma stored_keys_are_taken_once_witness : exists s1 s2,
  session_state_set_message_keys (set_receiver_chains [keys_chain] session_state_init)
    (ec_key_pair_get_public (sample_pair 3)) (some_keys 7) (fresh_world tt) = (Ok s1, fresh_world tt) /\
  session_state_remove_message_keys s1 (ec_key_pair_get_public (sample_pair 3)) 7 = (Some (some_keys 7), s2).
Proof.
  destruct (stored_keys_are_taken_once (set_receiver_chains [keys_chain] session_state_init)
    (ec_key_pair_get_public (sample_pair 3)) keys_chain (some_keys 7) (fresh_world tt))
    as (s1 & s2 & E1 & _ & E2 & _);
    [reflexivity|vm_compute; reflexivity| |exists s1, s2; split; [exact E1|exact E2]].
  repeat constructor; discriminate.
Defined.
