(* ===== verification/RoundTrips.v ===== *)
(** What goes over the wire and into the stores comes back: the protobuf
    encoding, the five kinds of messages, the session states and records and
    the pre keys, with the messages and states of the sample parties. *)
From stdpp Require Import base list gmap.
From Stdlib Require Import ZArith Lia.
From S2P Require Import Prelude Buffers Hkdf Curve Sample Protobuf ProtobufTypes Messages Ratchet SessionState.
From S2P Require Import SessionStorage RatchetSession SessionRecord Protocol PreKeys Store Scenario.
From S2P Require Import SessionCipher DoubleRatchet Sessions Conversation.
#[local] Open Scope Z_scope.
#[local] Open Scope signal_scope.

(** * Protocol buffers *)



Section Safety.
Context {U : Type}.

Lemma safe_signal_message_deserialize data : safe (@signal_message_deserialize U data).
Proof. unfold signal_message_deserialize. safe_solve. Qed.
#[local] Hint Resolve safe_signal_message_deserialize : safe_db.

End Safety.

(** * Messages *)

Section Messages.
Context {U : Type} `{CL : CryptoLaws} `{VL : CurveLaws}.
Implicit Types w : world U.

(** C27: a signal message survives the wire.  What [signal_message_create] makes
    has the fields it was given, [signal_message_deserialize] reads exactly it
    back from its octets, and [signal_message_verify_mac] accepts it under the
    identities and the MAC key it was made with. *)
Theorem signal_message_round_trip v k key c p ct s r w : mem_ok w -> 2 <= v <= 3 -> wf_public key ->
  is_u32 c -> is_u32 p -> short ct ->
  exists m, signal_message_create v k key c p ct (Some s) (Some r) w = (Ok m, w) /\
    sgm_message_version m = v /\ sgm_sender_ratchet_key m = key /\ sgm_counter m = c /\
    sgm_previous_counter m = p /\ sgm_ciphertext m = ct /\
    signal_message_deserialize (sgm_serialized m) w = (Ok m, w) /\
    signal_message_verify_mac m (Some s) (Some r) k w = (Ok 1, w).
Proof.
  intros Hm Hv Hk Hc Hp Hs. exists (signal_message_of v k key c p ct s r).
  split; [by apply signal_message_create_ok|]. do 5 (split; [done|]).
  split; [by apply signal_message_deserialize_ok|].
  rewrite signal_message_verify_mac_ok; [|done|apply length_created].
  rewrite decide_True by apply authentic_created. done.
Qed.

(** [signal_message_verify_mac] accepts a message exactly when its last
    eight octets are the truncated HMAC of the identity keys and the rest. *)
Theorem mac_is_checked m s r k w : mem_ok w -> (SIGNAL_MESSAGE_MAC_LENGTH <= length (sgm_serialized m))%nat ->
  exists z, signal_message_verify_mac m (Some s) (Some r) k w = (Ok z, w) /\
    (z = 1 <-> drop (length (sgm_serialized m) - 8) (sgm_serialized m) =
      take 8 (hmac_spec k ((if 3 <=? sgm_message_version m
        then ec_public_key_bytes s ++ ec_public_key_bytes r else []) ++
        take (length (sgm_serialized m) - 8) (sgm_serialized m)))).
Proof.
  intros Hm Hl. eexists. split; [by apply signal_message_verify_mac_ok|].
  transitivity (authentic m s r k); [|reflexivity]. destruct (decide (authentic m s r k)); split; done.
Qed.

(** A pre key message survives the wire with the message inside it. *)
Theorem pre_key_message_round_trip rid pid sid bk ik k key c p ct s r w : mem_ok w ->
  is_u32 rid -> opt_all is_u32 pid -> is_u32 sid -> wf_public bk -> wf_public ik ->
  wf_public key -> is_u32 c -> is_u32 p -> short ct ->
  exists m pm, signal_message_create 3 k key c p ct (Some s) (Some r) w = (Ok m, w) /\
    pre_key_signal_message_create 3 rid pid sid bk ik m w = (Ok pm, w) /\
    pkm_registration_id pm = rid /\ pkm_pre_key_id pm = pid /\ pkm_signed_pre_key_id pm = sid /\
    pkm_base_key pm = bk /\ pkm_identity_key pm = ik /\ pkm_message pm = m /\
    pre_key_signal_message_deserialize (pkm_serialized pm) w = (Ok pm, w).
Proof.
  intros Hm Hr Hp Hi Hb Hik Hk Hc Hpc Hs.
  set (m := signal_message_of 3 k key c p ct s r).
  assert (blen (sgm_serialized m) <= 2147483648 + 200) as Hl by by apply length_signal_message_of.
  exists m, (pre_key_message_of 3 rid pid sid bk ik m).
  split; [by apply signal_message_create_ok|]. split; [by apply pre_key_signal_message_create_ok|].
  do 6 (split; [done|]). apply pre_key_signal_message_deserialize_ok; try done.
  by apply signal_message_deserialize_ok.
Qed.

(** A key exchange message survives the wire, its flags and its sequence
    number unpacked from the one identifier field that carries both, for every
    sequence number below 2^27 and every flag below 2^5. *)
Theorem key_exchange_round_trip seq flags bk sg rk ik w : mem_ok w ->
  wf_public bk -> wf_public rk -> wf_public ik -> length sg = 64%nat ->
  0 <= seq < 134217728 -> 0 <= flags < 32 ->
  exists m data m', key_exchange_message_create 3 seq flags bk sg rk ik w = (Ok m, w) /\
    kem_serialized m = Serialized data /\ key_exchange_message_deserialize data w = (Ok m', w) /\
    kem_sequence m' = seq /\ kem_flags m' = flags /\ kem_base_key m' = bk /\
    kem_base_key_signature m' = sg /\ kem_ratchet_key m' = rk /\ kem_identity_key m' = ik /\
    kem_version m' = 3.
Proof.
  intros. do 3 eexists. split; [by apply key_exchange_message_create_ok|]. split; [reflexivity|].
  split; [by apply key_exchange_message_deserialize_ok|]. done.
Qed.

(** A sender key message survives the wire, and its signature, made with
    the private half of a signing key, verifies under the public half. *)
Theorem sender_key_message_round_trip id it ct kp w : mem_ok w -> is_u32 id -> is_u32 it -> short ct ->
  signing_pair kp ->
  exists m w1, sender_key_message_create id it ct (ec_key_pair_get_private kp) w = (Ok m, w1) /\
    snm_key_id m = id /\ snm_iteration m = it /\ snm_ciphertext m = ct /\
    sender_key_message_deserialize (snm_serialized m) w1 = (Ok m, w1) /\
    sender_key_message_verify_signature m (ec_key_pair_get_public kp) w1 = (Ok tt, w1).
Proof.
  intros Hm Hi Ht Hs [(_ & Hpub & Hd) Hsk].
  destruct (sender_key_message_create_ok id it ct _ w Hm Hi Ht Hs Hsk) as (sg & Hl & E & Hv).
  do 2 eexists. split; [exact E|]. do 3 (split; [done|]).
  split; [by apply sender_key_message_deserialize_ok|].
  rewrite (sender_key_message_verify_signature_split _ (sender_key_body id it ct) sg) by done.
  specialize (Hv _ Hd w). unfold curve_verify_signature in Hv. unfold blen in Hv. rewrite Hl in Hv.
  cbn in Hv. destruct (_ =? 0); [done|]. discriminate.
Qed.

(** A sender key distribution message survives the wire, and can be copied. *)
Theorem distribution_round_trip id it ck key w : mem_ok w -> is_u32 id -> is_u32 it ->
  length ck = 32%nat -> wf_public key ->
  exists m data, sender_key_distribution_message_create id it ck key w = (Ok m, w) /\
    sdm_serialized m = Some data /\ sdm_id m = id /\ sdm_iteration m = it /\
    sdm_chain_key m = Some ck /\ sdm_signature_key m = Some key /\
    sender_key_distribution_message_deserialize data w = (Ok m, w) /\
    sender_key_distribution_message_copy m w = (Ok m, w).
Proof.
  intros. do 2 eexists. split; [by apply sender_key_distribution_message_create_ok|].
  do 5 (split; [reflexivity|]). split; by apply sender_key_distribution_message_deserialize_ok.
Qed.
End Messages.

Definition some_public : ec_public_key := ec_key_pair_get_public (sample_pair 3).

Lemma some_public_wf : wf_public some_public.
Proof. apply sample_pair_matches. Qed.


(** A counter given twice, the first time in a longer encoding, and an unknown
    field. *)
Definition odd_octets : bytes := [16; 129; 0; 122; 1; 7; 16; 5].


Lemma signal_message_round_trip_witness : exists m,
  signal_message_create 3 [1; 2; 3] some_public 7 4294967295 [9; 9] (Some some_public)
    (Some some_public) (fresh_world tt) = (Ok m, fresh_world tt) /\
  signal_message_verify_mac m (Some some_public) (Some some_public) [1; 2; 3] (fresh_world tt) =
    (Ok 1, fresh_world tt).
Proof.
  destruct (signal_message_round_trip 3 [1; 2; 3] some_public 7 4294967295 [9; 9] some_public some_public
    (fresh_world tt)) as (m & E & _ & _ & _ & _ & _ & _ & V);
    [reflexivity|lia|apply some_public_wf|split; by vm_compute|split; by vm_compute|by vm_compute|].
  exists m. split; [exact E|exact V].
Defined.

Lemma mac_is_checked_witness : exists z,
  signal_message_verify_mac forged (Some some_public) (Some some_public) [1] (fresh_world tt) =
    (Ok z, fresh_world tt).
Proof.
  destruct (mac_is_checked forged some_public some_public [1] (fresh_world tt)) as (z & E & _);
    [reflexivity|cbn; unfold SIGNAL_MESSAGE_MAC_LENGTH; lia|]. exists z. exact E.
Defined.

Lemma pre_key_message_round_trip_witness : exists m pm,
  pre_key_signal_message_create 3 1 (Some 2) 3 some_public some_public m (fresh_world tt) =
    (Ok pm, fresh_world tt) /\
  pre_key_signal_message_deserialize (pkm_serialized pm) (fresh_world tt) = (Ok pm, fresh_world tt).
Proof.
  destruct (pre_key_message_round_trip 1 (Some 2) 3 some_public some_public [5] some_public 8 0 [1; 1]
    some_public some_public (fresh_world tt)) as (m & pm & _ & E & _ & _ & _ & _ & _ & _ & D);
    first [reflexivity|apply some_public_wf|exists m, pm; split; [exact E|exact D]|split; by vm_compute|by vm_compute].
Defined.

Lemma key_exchange_round_trip_witness : exists m data m',
  key_exchange_message_create 3 100000 5 some_public (replicate 64 1) some_public some_public (fresh_world tt) =
    (Ok m, fresh_world tt) /\
  key_exchange_message_deserialize data (fresh_world tt) = (Ok m', fresh_world tt) /\
  kem_sequence m' = 100000 /\ kem_flags m' = 5.
Proof.
  destruct (key_exchange_round_trip 100000 5 some_public (replicate 64 1) some_public some_public
    (fresh_world tt)) as (m & data & m' & E & _ & D & H1 & H2 & _);
    first [reflexivity|apply some_public_wf|lia|exists m, data, m'; split_and!; assumption].
Defined.

Lemma sender_key_message_round_trip_witness : exists m w1,
  sender_key_message_create 1 2 [3; 4] (sample_private 64) (fresh_world tt) = (Ok m, w1) /\
  sender_key_message_verify_signature m (ec_key_pair_get_public (sample_pair 64)) w1 = (Ok tt, w1).
Proof.
  destruct (sender_key_message_round_trip 1 2 [3; 4] (sample_pair 64) (fresh_world tt))
    as (m & w1 & E & _ & _ & _ & _ & V);
    [reflexivity|split; by vm_compute|split; by vm_compute|by vm_compute|apply sample_pair_signs|].
  exists m, w1. split; [exact E|exact V].
Defined.

Lemma distribution_round_trip_witness : exists m data,
  sender_key_distribution_message_create 1 2 (replicate 32 7) some_public (fresh_world tt) =
    (Ok m, fresh_world tt) /\
  sender_key_distribution_message_deserialize data (fresh_world tt) = (Ok m, fresh_world tt).
Proof.
  destruct (distribution_round_trip 1 2 (replicate 32 7) some_public (fresh_world tt))
    as (m & data & E & _ & _ & _ & _ & _ & D & _);
    [reflexivity|split; by vm_compute|split; by vm_compute|reflexivity|apply some_public_wf|].
  exists m, data. split; [exact E|exact D].
Defined.

(** * Stored sessions *)

Section Stored.
Context {U : Type}.
Implicit Types w : world U.

(** C26: a session survives the store.  A record with well-formed keys, within
    the bounds of session_state.c and session_record.c, is written in full
    (the current state with its chains, its stored keys and its pending
    handshakes, and up to forty archived states) and read back equal, no
    longer fresh; and so is a state by itself. *)
Theorem record_round_trip r w : mem_ok w -> record_ok r ->
  bind (session_record_serialize r) session_record_deserialize w =
    (Ok (SessionRecord (rec_state r) (rec_previous_states r) false), w) /\
  bind (session_state_serialize (rec_state r)) session_state_deserialize w = (Ok (rec_state r), w).
Proof.
  intros Hm Hr. split.
  - erewrite bind_ok by by apply session_record_serialize_ok. by apply session_record_deserialize_ok.
  - destruct Hr as [Hs _ _]. erewrite bind_ok by by apply session_state_serialize_ok.
    by apply session_state_deserialize_ok.
Qed.

(** Archiving.  [session_record_archive_current_state] starts a new state
    and keeps the old one in front of the archived ones, of which at most
    forty remain; a well-formed record stays well-formed. *)
Theorem archive_keeps_history r w : mem_ok w -> record_ok r ->
  exists r', session_record_archive_current_state r w = (Ok r', w) /\ record_ok r' /\
    rec_state r' = session_state_init /\
    exists dropped, rec_state r :: rec_previous_states r = rec_previous_states r' ++ dropped /\
      (length (rec_previous_states r') <= 40)%nat /\ (length dropped <= 1)%nat.
Proof.
  intros Hm Hr. eexists. split; [by apply archive_ok|]. destruct Hr as [H1 H2 H3].
  unfold ARCHIVED_STATES_MAX_LENGTH in *. split; [|split; [done|]].
  - split; [apply storable_init|by apply Forall_take; constructor|]. cbn [rec_previous_states]. rewrite length_take.
    unfold ARCHIVED_STATES_MAX_LENGTH. lia.
  - exists (drop 40 (rec_state r :: rec_previous_states r)). cbn [rec_previous_states].
    rewrite take_drop, length_take, length_drop. cbn [length]. split; [done|]. lia.
Qed.

Lemma decode_point_bad_length key w : length key <> 33%nat ->
  curve_decode_point key w = (Err SG_ERR_INVALID_KEY, w).
Proof.
  intros Hl. unfold curve_decode_point. destruct (_ && _); [done|].
  rewrite (proj2 (Z.eqb_neq _ _)); [done|]. unfold blen, DJB_KEY_LEN. lia.
Qed.

(** A broken sender chain is not noticed.  When a stored state has a sender
    chain whose ratchet key does not decode, [session_state_deserialize_protobuf]
    discards the error and returns success with a state that claims to have a
    sender chain and has an empty one. *)
Theorem broken_sender_chain_is_accepted key private ck mks w : mem_ok w -> length key <> 33%nat ->
  let ss := SessionStructure_ (Some 3) None None None None
    (Some (ChainStructure_ (Some key) (Some private) ck mks)) [] None None None None None None in
  exists s, session_state_deserialize_protobuf ss w = (Ok s, w) /\
    st_has_sender_chain s = true /\ sc_ratchet_key_pair (st_sender_chain s) = None /\
    sc_chain_key (st_sender_chain s) = None.
Proof.
  intros Hm Hl ss. unfold session_state_deserialize_protobuf, ss, session_state_create.
  erewrite bind_ok by (by erewrite bind_ok by by apply malloc_ok).
  do 3 (erewrite bind_ok by reflexivity).
  erewrite (bind_ok _ _ w (true, sender_chain_zero)); [eexists; by split_and!|].
  unfold decode_sender_chain, session_state_deserialize_protobuf_sender_chain. cbn.
  rewrite (bind_ok _ _ w (inr SG_ERR_INVALID_KEY) w); [reflexivity|]. unfold attempt.
  erewrite bind_err; [reflexivity|]. by erewrite bind_err by by apply decode_point_bad_length.
Qed.

Lemma bind_fault {A B} (m : M U A) (k : A -> M U B) w f w' : m w = (Fault f, w') -> bind m k w = (Fault f, w').
Proof. intros E. unfold bind. by rewrite E. Qed.

Lemma chain_kdf_unknown v w : mem_ok w -> v <> 2 -> v <> 3 -> chain_kdf_create v w = (Fault UseAfterFree, w).
Proof.
  intros Hm H2 H3. unfold chain_kdf_create, hkdf_create, attempt.
  rewrite (bind_ok _ _ w (inr SG_ERR_INVAL) w); [reflexivity|]. erewrite bind_ok by by apply malloc_ok.
  by rewrite !(proj2 (Z.eqb_neq _ _)) by done.
Qed.

(** An unknown session version is a use after free.  A stored state with a
    version other than 2 and 3 and a receiver chain with a chain key makes
    [session_state_deserialize_protobuf] release the context that [hkdf_create]
    has already freed. *)
Theorem unknown_version_uses_freed_context v index key w : mem_ok w -> v <> 2 -> v <> 3 ->
  session_state_deserialize_protobuf (SessionStructure_ (Some v) None None None None None
    [ChainStructure_ None None (Some (ChainKeyStructure_ (Some index) (Some key))) []]
    None None None None None None) w = (Fault UseAfterFree, w).
Proof.
  intros Hm H2 H3. unfold session_state_deserialize_protobuf, session_state_create.
  erewrite bind_ok by (by erewrite bind_ok by by apply malloc_ok).
  do 4 (erewrite bind_ok by reflexivity).
  apply bind_fault. cbn [ss_receiverchains mapM]. apply bind_fault.
  erewrite bind_ok by by apply malloc_ok. unfold session_state_deserialize_protobuf_receiver_chain.
  erewrite bind_ok by reflexivity. apply bind_fault. cbn. apply bind_fault. by apply chain_kdf_unknown.
Qed.
End Stored.

Lemma alice_record_ok : record_ok alice_record.
Proof.
  split; [apply alice_storable|constructor|cbn; unfold ARCHIVED_STATES_MAX_LENGTH; lia].
Qed.

Lemma record_round_trip_witness :
  bind (session_record_serialize alice_record) session_record_deserialize (fresh_world tt) =
    (Ok (SessionRecord (rec_state alice_record) (rec_previous_states alice_record) false), fresh_world tt).
Proof. exact (proj1 (record_round_trip alice_record (fresh_world tt) eq_refl alice_record_ok)). Defined.

Lemma archive_keeps_history_witness : exists r',
  session_record_archive_current_state alice_record (fresh_world tt) = (Ok r', fresh_world tt) /\ record_ok r'.
Proof.
  destruct (archive_keeps_history alice_record (fresh_world tt) eq_refl alice_record_ok) as (r' & E & H & _).
  exists r'. split; [exact E|exact H].
Defined.

Lemma broken_sender_chain_is_accepted_witness : exists s,
  session_state_deserialize_protobuf (SessionStructure_ (Some 3) None None None None
    (Some (ChainStructure_ (Some [5; 1]) (Some []) None [])) [] None None None None None None)
    (fresh_world tt) = (Ok s, fresh_world tt) /\ st_has_sender_chain s = true.
Proof.
  destruct (broken_sender_chain_is_accepted [5; 1] [] None [] (fresh_world tt) eq_refl ltac:(discriminate))
    as (s & E & H & _). exists s. split; [exact E|exact H].
Defined.

Lemma unknown_version_uses_freed_context_witness :
  session_state_deserialize_protobuf (SessionStructure_ (Some 4) None None None None None
    [ChainStructure_ None None (Some (ChainKeyStructure_ (Some 0) (Some [1]))) []]
    None None None None None None) (fresh_world tt) = (Fault UseAfterFree, fresh_world tt).
Proof. apply (unknown_version_uses_freed_context 4 0 [1] (fresh_world tt)); [reflexivity|lia|lia]. Defined.

(** * Pre keys *)

Section PreKeyStore.
Context {U : Type} `{CL : CryptoLaws} `{VL : CurveLaws} `{SL : StoreLaws U}.
Implicit Types w : world U.

(** A batch of pre keys.  [signal_protocol_key_helper_generate_pre_keys]
    makes as many pre keys as asked, each with matching halves and an
    identifier between 1 and 2^24 - 2, and no identifier twice, for any start
    whose range does not leave 32 bits and any count up to the number of
    identifiers. *)
Theorem generated_pre_keys_are_distinct start count w : mem_ok w -> 1 <= start -> 0 <= count ->
  start - 1 + count <= UINT32_MOD -> count <= PRE_KEY_MEDIUM_MAX_VALUE - 1 ->
  exists l w', signal_protocol_key_helper_generate_pre_keys start count w = (Ok l, w') /\
    Z.of_nat (length l) = count /\ NoDup (map pk_id l) /\
    Forall (fun k => 1 <= pk_id k <= PRE_KEY_MEDIUM_MAX_VALUE - 1 /\ key_pair_matches (pk_key_pair k)) l.
Proof.
  intros Hm Hs Hc H1 H2. destruct (generate_pre_keys_loop_ok start (Z.to_nat count) 0 w Hm) as (l & E & Hids & Hl).
  exists l. eexists. split; [exact E|]. split; [|split].
  - rewrite <- (length_map pk_id), Hids, length_map, length_seq. lia.
  - rewrite Hids. apply NoDup_fmap_2_strong; [|apply NoDup_ListNoDup, seq_NoDup].
    intros i j Hi Hj Eij. apply elem_of_seq in Hi, Hj.
    apply (pre_key_id_inj start count) in Eij; lia.
  - apply Forall_forall. intros k Hk. split; [|rewrite Forall_forall in Hl; by apply Hl].
    assert (pk_id k ∈ map pk_id l) as Hin by by apply list_elem_of_fmap_2.
    rewrite Hids in Hin. apply list_elem_of_fmap in Hin as (j & -> & _). apply pre_key_id_range.
Qed.

(** A signed pre key can be used.  What
    [signal_protocol_key_helper_generate_signed_pre_key] makes carries a
    signature that verifies under the identity key, and after it has been
    stored, loading its identifier gives it back. *)
Theorem signed_pre_key_is_usable ik id t w : mem_ok w ->
  signing_pair (EcKeyPair (identity_public ik) (identity_private ik)) -> is_u32 id ->
  0 <= t < 18446744073709551616 ->
  exists k w1 w2, signal_protocol_key_helper_generate_signed_pre_key ik id t w = (Ok k, w1) /\
    curve_verify_signature (identity_public ik)
      (ec_public_key_bytes (ec_key_pair_get_public (spk_key_pair k))) (spk_signature k) w1 = (Ok 1, w1) /\
    signal_protocol_signed_pre_key_store_key k w1 = (Ok 0, w2) /\
    signal_protocol_signed_pre_key_load_key id w2 = (Ok k, w2).
Proof.
  intros Hm [Hik Hsk] Hid Ht. destruct (generate_signed_pre_key_ok ik id t w Hm Hik Hsk) as (k & E & <- & <- & Hkp & Hl & Hv).
  assert (signed_pre_key_storable k) as Hk.
  { split; [done|by apply matches_ok|done|]. unfold blen. rewrite Hl. lia. }
  destruct (signed_pre_key_store_ok k (rng_step (rng_step w)) Hm Hk) as (u & Es & Hu).
  exists k. do 2 eexists. split; [exact E|]. split; [apply Hv|]. split; [exact Es|].
  apply signed_pre_key_load_ok; [done|done|]. cbn. rewrite Hu. cbn. by rewrite lookup_insert_eq.
Qed.
End PreKeyStore.

Lemma generated_pre_keys_are_distinct_witness : exists l w',
  signal_protocol_key_helper_generate_pre_keys 16777213 4 (fresh_world tt) = (Ok l, w') /\ NoDup (map pk_id l).
Proof.
  destruct (generated_pre_keys_are_distinct 16777213 4 (fresh_world tt)) as (l & w' & E & _ & H & _);
    [reflexivity|lia|lia|by vm_compute|by vm_compute|]. exists l, w'. split; [exact E|exact H].
Defined.

Lemma signed_pre_key_is_usable_witness : exists k w1 w2,
  signal_protocol_key_helper_generate_signed_pre_key (sample_identity 64) 7 1600000000000 (fresh_world bob_store) =
    (Ok k, w1) /\ signal_protocol_signed_pre_key_load_key 7 w2 = (Ok k, w2).
Proof.
  destruct (signed_pre_key_is_usable (sample_identity 64) 7 1600000000000 (fresh_world bob_store))
    as (k & w1 & w2 & E & _ & _ & L);
    [reflexivity|apply sample_pair_signs|split; by vm_compute|lia|].
  exists k, w1, w2. split; [exact E|exact L].
Defined.
