(* ===== verification/MachineInt.v ===== *)
(** Signed machine arithmetic of the curve code: [i32] and [i64] are the values
    of C expressions of these types, [None] where a signed operation overflows,
    which C leaves undefined.  Right shifts of negative numbers are arithmetic
    and left shifts multiply, as the code relies on.  The lemmas follow a
    computation with a bound on the absolute value of each variable. *)
From stdpp Require Import base list.
From Stdlib Require Import ZArith Lia.
From S2P Require Import Prelude.
#[local] Open Scope Z_scope.

Definition i32 (z : Z) : option Z :=
  if (-2147483648 <=? z) && (z <=? 2147483647) then Some z else None.
Definition i64 (z : Z) : option Z :=
  if (-9223372036854775808 <=? z) && (z <=? 9223372036854775807) then Some z else None.

(** [uint64]: arithmetic wraps around; [signed char]: conversions do. *)
Definition u64 (z : Z) : Z := z mod 18446744073709551616.
Definition is_u64 (z : Z) : Prop := 0 <= z < 18446744073709551616.
Definition s8 (z : Z) : Z := (z + 128) mod 256 - 128.

Declare Scope checked_scope.
Delimit Scope checked_scope with checked.
Notation "'let!' x := m 'in' k" := (match m with Some x => k | None => None end)
  (at level 10, x name, m at level 200, k at level 200) : checked_scope.
Notation "'let!' ' p := m 'in' k" := (match m with Some p => k | None => None end)
  (at level 10, p strict pattern, m at level 200, k at level 200) : checked_scope.
#[local] Open Scope checked_scope.

(** A loop that may fail. *)
Fixpoint fold_checked {S A : Type} (f : S -> A -> option S) (s : S) (l : list A) : option S :=
  match l with
  | [] => Some s
  | x :: l' => let! s' := f s x in fold_checked f s' l'
  end.

(** [x0 + x1 + ... + xn], from the left. *)
Fixpoint sum64_from (acc : Z) (l : list Z) : option Z :=
  match l with
  | [] => Some acc
  | x :: l' => let! a := i64 (acc + x) in sum64_from a l'
  end.
Definition sum64 (l : list Z) : option Z :=
  match l with
  | [] => Some 0
  | x :: l' => sum64_from x l'
  end.

(** [carry = (lo + (1 << (n - 1))) >> n; hi += carry; lo -= carry << n]. *)
Definition carry64 (n lo hi : Z) : option (Z * Z) :=
  let! t := i64 (lo + 2 ^ (n - 1)) in
  let carry := Z.shiftr t n in
  let! hi := i64 (hi + carry) in
  let! s := i64 (Z.shiftl carry n) in
  let! lo := i64 (lo - s) in
  Some (lo, hi).

(** * Lemmas *)

Lemma i32_ok z : Z.abs z <= 2147483647 -> i32 z = Some z.
Proof.
  intros H. unfold i32. rewrite (proj2 (Z.leb_le _ _)), (proj2 (Z.leb_le _ _)) by lia. done.
Qed.
Lemma i64_ok z : Z.abs z <= 9223372036854775807 -> i64 z = Some z.
Proof.
  intros H. unfold i64. rewrite (proj2 (Z.leb_le _ _)), (proj2 (Z.leb_le _ _)) by lia. done.
Qed.

Lemma abs_mul_le a b A B : Z.abs a <= A -> Z.abs b <= B -> Z.abs (a * b) <= A * B.
Proof. intros. rewrite Z.abs_mul. apply Z.mul_le_mono_nonneg; lia. Qed.
Lemma abs_scale_le k b B : 0 <= k -> Z.abs b <= B -> Z.abs (k * b) <= k * B.
Proof. intros. rewrite Z.abs_mul, (Z.abs_eq k) by lia. apply Z.mul_le_mono_nonneg_l; lia. Qed.
Lemma abs_sub_le a b A B : Z.abs a <= A -> Z.abs b <= B -> Z.abs (a - b) <= A + B.
Proof. lia. Qed.
Lemma abs_add_le a b A B : Z.abs a <= A -> Z.abs b <= B -> Z.abs (a + b) <= A + B.
Proof. lia. Qed.

(** The sum of a list, in the order of [sum64]. *)
Fixpoint sum_from (acc : Z) (l : list Z) : Z :=
  match l with
  | [] => acc
  | x :: l' => sum_from (acc + x) l'
  end.

Lemma sum64_from_ok l bs : Forall2 (fun x b => Z.abs x <= b) l bs -> forall acc A,
  Z.abs acc <= A -> sum_from A bs <= 9223372036854775807 ->
  sum64_from acc l = Some (sum_from acc l) /\ Z.abs (sum_from acc l) <= sum_from A bs.
Proof.
  assert (forall bs A, Forall (fun b => 0 <= b) bs -> A <= sum_from A bs) as Hmono.
  { induction bs0 as [|b bs0 IH]; intros A Hb; [done|]. apply Forall_cons_1 in Hb as [Hb Hbs]. cbn.
    specialize (IH (A + b) Hbs). lia. }
  induction 1 as [|x b l bs Hx Hl IH]; intros acc A HA Hs; [done|]. cbn in *.
  assert (Forall (fun b => 0 <= b) bs) as Hbs.
  { clear -Hl. induction Hl as [|y c l bs Hy Hl IH]; constructor; [lia|done]. }
  pose proof (Hmono bs (A + b) Hbs). rewrite i64_ok by lia. apply IH; [lia|done].
Qed.

Lemma sum64_ok x b l bs : Z.abs x <= b -> Forall2 (fun x b => Z.abs x <= b) l bs ->
  sum_from b bs <= 9223372036854775807 ->
  sum64 (x :: l) = Some (sum_from x l) /\ Z.abs (sum_from x l) <= sum_from b bs.
Proof. intros Hx Hl Hs. by apply sum64_from_ok. Qed.

Lemma carry_bounds lo L m p : m = 2 * p -> 0 < p -> Z.abs lo <= L ->
  let c := (lo + p) / m in
  Z.abs c <= L / m + 1 /\ Z.abs (lo - c * m) <= p /\ Z.abs (c * m) <= L + m.
Proof.
  intros E Hp HL c. pose proof (Z.div_mod (lo + p) m ltac:(lia)) as Hd. fold c in Hd.
  pose proof (Z.mod_pos_bound (lo + p) m ltac:(lia)) as Hr. pose proof (Z.div_mod L m ltac:(lia)) as HdL.
  pose proof (Z.mod_pos_bound L m ltac:(lia)) as HrL. rewrite (Z.mul_comm c m). split; [|lia].
  assert (c < L / m + 2) by (apply (Z.mul_lt_mono_pos_l m); lia).
  assert (- (L / m) - 2 < c) by (apply (Z.mul_lt_mono_pos_l m); lia).
  lia.
Qed.

(** The carry of [lo] leaves a remainder of at most half of [2 ^ n]. *)
Lemma carry64_ok n lo hi L H : 0 < n -> Z.abs lo <= L -> Z.abs hi <= H ->
  L + 2 ^ n <= 9223372036854775807 -> H + (L / 2 ^ n + 1) <= 9223372036854775807 ->
  exists c, carry64 n lo hi = Some (lo - c * 2 ^ n, hi + c) /\ Z.abs c <= L / 2 ^ n + 1 /\
    Z.abs (lo - c * 2 ^ n) <= 2 ^ (n - 1) /\ c = (lo + 2 ^ (n - 1)) / 2 ^ n.
Proof.
  intros Hn HL HH H1 H2. assert (2 ^ n = 2 * 2 ^ (n - 1)) as E.
  { rewrite <- Z.pow_succ_r by lia. f_equal. lia. }
  assert (0 < 2 ^ (n - 1)) as Hp by (apply Z.pow_pos_nonneg; lia).
  set (c := (lo + 2 ^ (n - 1)) / 2 ^ n). exists c.
  destruct (carry_bounds lo L (2 ^ n) (2 ^ (n - 1)) E Hp HL) as (Hc & Hr & Hs). fold c in Hc, Hr, Hs.
  unfold carry64. rewrite i64_ok; cycle 1.
  { revert E Hp H1. clear -HL. generalize (2 ^ n), (2 ^ (n - 1)). lia. }
  rewrite Z.shiftr_div_pow2 by lia. fold c. rewrite i64_ok by (clear -HH Hc H2; lia).
  rewrite Z.shiftl_mul_pow2 by lia. rewrite i64_ok by (clear -Hs H1; lia).
  rewrite i64_ok; [done|]. revert E Hp H1 Hr. clear -HL. generalize (2 ^ n), (2 ^ (n - 1)). lia.
Qed.

(** ** Following a computation

    Goals have the form [exists r, <computation> = Some r /\ Q r].  [chk] runs
    the next checked operation; the bound of its value is added to the
    context. *)

Lemma chk_step {A B} (m : option A) (a : A) (k : A -> option B) (Q : B -> Prop) : m = Some a ->
  (exists r, k a = Some r /\ Q r) ->
  exists r, match m with Some x => k x | None => None end = Some r /\ Q r.
Proof. by intros ->. Qed.

(** A bound with its constant computed. *)
Ltac note_bound H :=
  lazymatch type of H with
  | Z.abs ?x <= ?B => let v := eval vm_compute in B in change (Z.abs x <= v) in H
  end.

Ltac bound_of e :=
  lazymatch goal with
  | H : Z.abs e <= ?B |- _ => constr:(H)
  end.

Ltac chk_op :=
  lazymatch goal with
  | |- exists r, match ?chk (?a * ?b) with Some x => _ | None => None end = Some r /\ _ =>
      let H := fresh "B" in
      (first [ let Ha := bound_of a in let Hb := bound_of b in pose proof (abs_mul_le a b _ _ Ha Hb) as H
             | let Hb := bound_of b in pose proof (abs_scale_le a b _ ltac:(lia) Hb) as H ]);
      note_bound H;
      refine (chk_step _ (a * b) _ _ _ _);
      [first [apply i32_ok | apply i64_ok]; (eapply Z.le_trans; [exact H|vm_compute; discriminate]) |]
  | |- exists r, match ?chk (?a + ?b) with Some x => _ | None => None end = Some r /\ _ =>
      let H := fresh "B" in
      let Ha := bound_of a in let Hb := bound_of b in pose proof (abs_add_le a b _ _ Ha Hb) as H;
      note_bound H;
      refine (chk_step _ (a + b) _ _ _ _);
      [first [apply i32_ok | apply i64_ok]; (eapply Z.le_trans; [exact H|vm_compute; discriminate]) |]
  end; cbv beta.

Lemma chk_sum_step {B} x b l bs (k : Z -> option B) (Q : B -> Prop) : Z.abs x <= b ->
  Forall2 (fun x b => Z.abs x <= b) l bs -> sum_from b bs <= 9223372036854775807 ->
  (Z.abs (sum_from x l) <= sum_from b bs -> exists r, k (sum_from x l) = Some r /\ Q r) ->
  exists r, match sum64 (x :: l) with Some y => k y | None => None end = Some r /\ Q r.
Proof. intros H1 H2 H3 Hk. destruct (sum64_ok x b l bs H1 H2 H3) as [-> H]. by apply Hk. Qed.

Ltac chk_sum :=
  let H := fresh "B" in
  eapply chk_sum_step;
  [ eassumption | repeat (apply Forall2_cons_2; [eassumption|]); apply Forall2_nil_2
  | vm_compute; discriminate | intros H; cbn [sum_from] in H |- *; note_bound H ].

Ltac chk_carry :=
  lazymatch goal with
  | |- exists r, match carry64 ?n ?lo ?hi with Some _ => _ | None => None end = Some r /\ _ =>
      let c := fresh "c" in let E := fresh "E" in let Bc := fresh "B" in let Bl := fresh "B" in
      let Bh := fresh "B" in
      let Hl := bound_of lo in let Hh := bound_of hi in
      edestruct (carry64_ok n lo hi _ _ ltac:(lia) Hl Hh) as (c & E & Bc & Bl & _);
      [vm_compute; discriminate | vm_compute; discriminate |];
      note_bound Bc; note_bound Bl; pose proof (abs_add_le hi c _ _ Hh Bc) as Bh; note_bound Bh;
      refine (chk_step _ _ _ _ E _); clear E
  end; cbv beta iota.
