(* ===== verification/FieldElement.v ===== *)
(** Field elements modulo 2^255 - 19 (curve25519/ed25519/fe_*.c): ten signed
    limbs of alternately 26 and 25 bits.  Every operation is the C code with
    its 32- and 64-bit arithmetic; the lemmas show that under the documented
    bounds no operation overflows and that the result is the sum, product or
    encoding modulo p it is meant to be. *)
From stdpp Require Import base list.
From Stdlib Require Import ZArith Lia.
From S2P Require Import Prelude MachineInt.
#[local] Open Scope Z_scope.
#[local] Open Scope checked_scope.

(** [typedef crypto_int32 fe[10]]. *)
Record fe : Type := Fe {
  fe_l0 : Z; fe_l1 : Z; fe_l2 : Z; fe_l3 : Z; fe_l4 : Z;
  fe_l5 : Z; fe_l6 : Z; fe_l7 : Z; fe_l8 : Z; fe_l9 : Z
}.

(** The stores [h[0] = h0; ... h[9] = h9], which convert to 32 bits. *)
Definition fe_store (h0 h1 h2 h3 h4 h5 h6 h7 h8 h9 : Z) : option fe :=
  let! h0 := i32 h0 in let! h1 := i32 h1 in let! h2 := i32 h2 in let! h3 := i32 h3 in
  let! h4 := i32 h4 in let! h5 := i32 h5 in let! h6 := i32 h6 in let! h7 := i32 h7 in
  let! h8 := i32 h8 in let! h9 := i32 h9 in
  Some (Fe h0 h1 h2 h3 h4 h5 h6 h7 h8 h9).

Definition fe_0 : fe := Fe 0 0 0 0 0 0 0 0 0 0.
Definition fe_1 : fe := Fe 1 0 0 0 0 0 0 0 0 0.
Definition fe_copy (f : fe) : fe := f.

Definition fe_add (f g : fe) : option fe :=
  let '(Fe f0 f1 f2 f3 f4 f5 f6 f7 f8 f9) := f in
  let '(Fe g0 g1 g2 g3 g4 g5 g6 g7 g8 g9) := g in
  fe_store (f0 + g0) (f1 + g1) (f2 + g2) (f3 + g3) (f4 + g4) (f5 + g5) (f6 + g6) (f7 + g7) (f8 + g8)
    (f9 + g9).

Definition fe_sub (f g : fe) : option fe :=
  let '(Fe f0 f1 f2 f3 f4 f5 f6 f7 f8 f9) := f in
  let '(Fe g0 g1 g2 g3 g4 g5 g6 g7 g8 g9) := g in
  fe_store (f0 - g0) (f1 - g1) (f2 - g2) (f3 - g3) (f4 - g4) (f5 - g5) (f6 - g6) (f7 - g7) (f8 - g8)
    (f9 - g9).

Definition fe_neg (f : fe) : option fe :=
  let '(Fe f0 f1 f2 f3 f4 f5 f6 f7 f8 f9) := f in
  fe_store (- f0) (- f1) (- f2) (- f3) (- f4) (- f5) (- f6) (- f7) (- f8) (- f9).

(** Replace [f] by [g] if [b] is 1: [f ^ ((f ^ g) & -b)]. *)
Definition fe_cmov (f g : fe) (b : Z) : fe :=
  let '(Fe f0 f1 f2 f3 f4 f5 f6 f7 f8 f9) := f in
  let '(Fe g0 g1 g2 g3 g4 g5 g6 g7 g8 g9) := g in
  let sel x y := Z.lxor x (Z.land (Z.lxor x y) (- b)) in
  Fe (sel f0 g0) (sel f1 g1) (sel f2 g2) (sel f3 g3) (sel f4 g4) (sel f5 g5) (sel f6 g6) (sel f7 g7)
    (sel f8 g8) (sel f9 g9).

(** The carries at the end of [fe_mul], [fe_sq] and [fe_sq2], which have the
    same text in the three functions. *)
Definition fe_carry (h0 h1 h2 h3 h4 h5 h6 h7 h8 h9 : Z) : option fe :=
  let! '(h0, h1) := carry64 26 h0 h1 in let! '(h4, h5) := carry64 26 h4 h5 in
  let! '(h1, h2) := carry64 25 h1 h2 in let! '(h5, h6) := carry64 25 h5 h6 in
  let! '(h2, h3) := carry64 26 h2 h3 in let! '(h6, h7) := carry64 26 h6 h7 in
  let! '(h3, h4) := carry64 25 h3 h4 in let! '(h7, h8) := carry64 25 h7 h8 in
  let! '(h4, h5) := carry64 26 h4 h5 in let! '(h8, h9) := carry64 26 h8 h9 in
  let! '(h9, carry9) := carry64 25 h9 0 in
  let! c19 := i64 (carry9 * 19) in let! h0 := i64 (h0 + c19) in
  let! '(h0, h1) := carry64 26 h0 h1 in
  fe_store h0 h1 h2 h3 h4 h5 h6 h7 h8 h9.

Definition fe_mul (f g : fe) : option fe :=
  let '(Fe f0 f1 f2 f3 f4 f5 f6 f7 f8 f9) := f in
  let '(Fe g0 g1 g2 g3 g4 g5 g6 g7 g8 g9) := g in
  let! g1_19 := i32 (19 * g1) in let! g2_19 := i32 (19 * g2) in let! g3_19 := i32 (19 * g3) in
  let! g4_19 := i32 (19 * g4) in let! g5_19 := i32 (19 * g5) in let! g6_19 := i32 (19 * g6) in
  let! g7_19 := i32 (19 * g7) in let! g8_19 := i32 (19 * g8) in let! g9_19 := i32 (19 * g9) in
  let! f1_2 := i32 (2 * f1) in let! f3_2 := i32 (2 * f3) in let! f5_2 := i32 (2 * f5) in
  let! f7_2 := i32 (2 * f7) in let! f9_2 := i32 (2 * f9) in let! f0g0 := i64 (f0 * g0) in
  let! f0g1 := i64 (f0 * g1) in let! f0g2 := i64 (f0 * g2) in let! f0g3 := i64 (f0 * g3) in
  let! f0g4 := i64 (f0 * g4) in let! f0g5 := i64 (f0 * g5) in let! f0g6 := i64 (f0 * g6) in
  let! f0g7 := i64 (f0 * g7) in let! f0g8 := i64 (f0 * g8) in let! f0g9 := i64 (f0 * g9) in
  let! f1g0 := i64 (f1 * g0) in let! f1g1_2 := i64 (f1_2 * g1) in let! f1g2 := i64 (f1 * g2) in
  let! f1g3_2 := i64 (f1_2 * g3) in let! f1g4 := i64 (f1 * g4) in let! f1g5_2 := i64 (f1_2 * g5) in
  let! f1g6 := i64 (f1 * g6) in let! f1g7_2 := i64 (f1_2 * g7) in let! f1g8 := i64 (f1 * g8) in
  let! f1g9_38 := i64 (f1_2 * g9_19) in let! f2g0 := i64 (f2 * g0) in let! f2g1 := i64 (f2 * g1) in
  let! f2g2 := i64 (f2 * g2) in let! f2g3 := i64 (f2 * g3) in let! f2g4 := i64 (f2 * g4) in
  let! f2g5 := i64 (f2 * g5) in let! f2g6 := i64 (f2 * g6) in let! f2g7 := i64 (f2 * g7) in
  let! f2g8_19 := i64 (f2 * g8_19) in let! f2g9_19 := i64 (f2 * g9_19) in
  let! f3g0 := i64 (f3 * g0) in let! f3g1_2 := i64 (f3_2 * g1) in let! f3g2 := i64 (f3 * g2) in
  let! f3g3_2 := i64 (f3_2 * g3) in let! f3g4 := i64 (f3 * g4) in let! f3g5_2 := i64 (f3_2 * g5) in
  let! f3g6 := i64 (f3 * g6) in let! f3g7_38 := i64 (f3_2 * g7_19) in
  let! f3g8_19 := i64 (f3 * g8_19) in let! f3g9_38 := i64 (f3_2 * g9_19) in
  let! f4g0 := i64 (f4 * g0) in let! f4g1 := i64 (f4 * g1) in let! f4g2 := i64 (f4 * g2) in
  let! f4g3 := i64 (f4 * g3) in let! f4g4 := i64 (f4 * g4) in let! f4g5 := i64 (f4 * g5) in
  let! f4g6_19 := i64 (f4 * g6_19) in let! f4g7_19 := i64 (f4 * g7_19) in
  let! f4g8_19 := i64 (f4 * g8_19) in let! f4g9_19 := i64 (f4 * g9_19) in
  let! f5g0 := i64 (f5 * g0) in let! f5g1_2 := i64 (f5_2 * g1) in let! f5g2 := i64 (f5 * g2) in
  let! f5g3_2 := i64 (f5_2 * g3) in let! f5g4 := i64 (f5 * g4) in
  let! f5g5_38 := i64 (f5_2 * g5_19) in let! f5g6_19 := i64 (f5 * g6_19) in
  let! f5g7_38 := i64 (f5_2 * g7_19) in let! f5g8_19 := i64 (f5 * g8_19) in
  let! f5g9_38 := i64 (f5_2 * g9_19) in let! f6g0 := i64 (f6 * g0) in let! f6g1 := i64 (f6 * g1) in
  let! f6g2 := i64 (f6 * g2) in let! f6g3 := i64 (f6 * g3) in let! f6g4_19 := i64 (f6 * g4_19) in
  let! f6g5_19 := i64 (f6 * g5_19) in let! f6g6_19 := i64 (f6 * g6_19) in
  let! f6g7_19 := i64 (f6 * g7_19) in let! f6g8_19 := i64 (f6 * g8_19) in
  let! f6g9_19 := i64 (f6 * g9_19) in let! f7g0 := i64 (f7 * g0) in let! f7g1_2 := i64 (f7_2 * g1) in
  let! f7g2 := i64 (f7 * g2) in let! f7g3_38 := i64 (f7_2 * g3_19) in
  let! f7g4_19 := i64 (f7 * g4_19) in let! f7g5_38 := i64 (f7_2 * g5_19) in
  let! f7g6_19 := i64 (f7 * g6_19) in let! f7g7_38 := i64 (f7_2 * g7_19) in
  let! f7g8_19 := i64 (f7 * g8_19) in let! f7g9_38 := i64 (f7_2 * g9_19) in
  let! f8g0 := i64 (f8 * g0) in let! f8g1 := i64 (f8 * g1) in let! f8g2_19 := i64 (f8 * g2_19) in
  let! f8g3_19 := i64 (f8 * g3_19) in let! f8g4_19 := i64 (f8 * g4_19) in
  let! f8g5_19 := i64 (f8 * g5_19) in let! f8g6_19 := i64 (f8 * g6_19) in
  let! f8g7_19 := i64 (f8 * g7_19) in let! f8g8_19 := i64 (f8 * g8_19) in
  let! f8g9_19 := i64 (f8 * g9_19) in let! f9g0 := i64 (f9 * g0) in
  let! f9g1_38 := i64 (f9_2 * g1_19) in let! f9g2_19 := i64 (f9 * g2_19) in
  let! f9g3_38 := i64 (f9_2 * g3_19) in let! f9g4_19 := i64 (f9 * g4_19) in
  let! f9g5_38 := i64 (f9_2 * g5_19) in let! f9g6_19 := i64 (f9 * g6_19) in
  let! f9g7_38 := i64 (f9_2 * g7_19) in let! f9g8_19 := i64 (f9 * g8_19) in
  let! f9g9_38 := i64 (f9_2 * g9_19) in
  let! h0 := sum64 [f0g0; f1g9_38; f2g8_19; f3g7_38; f4g6_19; f5g5_38; f6g4_19; f7g3_38; f8g2_19; f9g1_38] in
  let! h1 := sum64 [f0g1; f1g0; f2g9_19; f3g8_19; f4g7_19; f5g6_19; f6g5_19; f7g4_19; f8g3_19; f9g2_19] in
  let! h2 := sum64 [f0g2; f1g1_2; f2g0; f3g9_38; f4g8_19; f5g7_38; f6g6_19; f7g5_38; f8g4_19; f9g3_38] in
  let! h3 := sum64 [f0g3; f1g2; f2g1; f3g0; f4g9_19; f5g8_19; f6g7_19; f7g6_19; f8g5_19; f9g4_19] in
  let! h4 := sum64 [f0g4; f1g3_2; f2g2; f3g1_2; f4g0; f5g9_38; f6g8_19; f7g7_38; f8g6_19; f9g5_38] in
  let! h5 := sum64 [f0g5; f1g4; f2g3; f3g2; f4g1; f5g0; f6g9_19; f7g8_19; f8g7_19; f9g6_19] in
  let! h6 := sum64 [f0g6; f1g5_2; f2g4; f3g3_2; f4g2; f5g1_2; f6g0; f7g9_38; f8g8_19; f9g7_38] in
  let! h7 := sum64 [f0g7; f1g6; f2g5; f3g4; f4g3; f5g2; f6g1; f7g0; f8g9_19; f9g8_19] in
  let! h8 := sum64 [f0g8; f1g7_2; f2g6; f3g5_2; f4g4; f5g3_2; f6g2; f7g1_2; f8g0; f9g9_38] in
  let! h9 := sum64 [f0g9; f1g8; f2g7; f3g6; f4g5; f5g4; f6g3; f7g2; f8g1; f9g0] in
  fe_carry h0 h1 h2 h3 h4 h5 h6 h7 h8 h9.

Definition fe_sq (f : fe) : option fe :=
  let '(Fe f0 f1 f2 f3 f4 f5 f6 f7 f8 f9) := f in
  let! f0_2 := i32 (2 * f0) in let! f1_2 := i32 (2 * f1) in let! f2_2 := i32 (2 * f2) in
  let! f3_2 := i32 (2 * f3) in let! f4_2 := i32 (2 * f4) in let! f5_2 := i32 (2 * f5) in
  let! f6_2 := i32 (2 * f6) in let! f7_2 := i32 (2 * f7) in let! f5_38 := i32 (38 * f5) in
  let! f6_19 := i32 (19 * f6) in let! f7_38 := i32 (38 * f7) in let! f8_19 := i32 (19 * f8) in
  let! f9_38 := i32 (38 * f9) in let! f0f0 := i64 (f0 * f0) in let! f0f1_2 := i64 (f0_2 * f1) in
  let! f0f2_2 := i64 (f0_2 * f2) in let! f0f3_2 := i64 (f0_2 * f3) in
  let! f0f4_2 := i64 (f0_2 * f4) in let! f0f5_2 := i64 (f0_2 * f5) in
  let! f0f6_2 := i64 (f0_2 * f6) in let! f0f7_2 := i64 (f0_2 * f7) in
  let! f0f8_2 := i64 (f0_2 * f8) in let! f0f9_2 := i64 (f0_2 * f9) in
  let! f1f1_2 := i64 (f1_2 * f1) in let! f1f2_2 := i64 (f1_2 * f2) in
  let! f1f3_4 := i64 (f1_2 * f3_2) in let! f1f4_2 := i64 (f1_2 * f4) in
  let! f1f5_4 := i64 (f1_2 * f5_2) in let! f1f6_2 := i64 (f1_2 * f6) in
  let! f1f7_4 := i64 (f1_2 * f7_2) in let! f1f8_2 := i64 (f1_2 * f8) in
  let! f1f9_76 := i64 (f1_2 * f9_38) in let! f2f2 := i64 (f2 * f2) in
  let! f2f3_2 := i64 (f2_2 * f3) in let! f2f4_2 := i64 (f2_2 * f4) in
  let! f2f5_2 := i64 (f2_2 * f5) in let! f2f6_2 := i64 (f2_2 * f6) in
  let! f2f7_2 := i64 (f2_2 * f7) in let! f2f8_38 := i64 (f2_2 * f8_19) in
  let! f2f9_38 := i64 (f2 * f9_38) in let! f3f3_2 := i64 (f3_2 * f3) in
  let! f3f4_2 := i64 (f3_2 * f4) in let! f3f5_4 := i64 (f3_2 * f5_2) in
  let! f3f6_2 := i64 (f3_2 * f6) in let! f3f7_76 := i64 (f3_2 * f7_38) in
  let! f3f8_38 := i64 (f3_2 * f8_19) in let! f3f9_76 := i64 (f3_2 * f9_38) in
  let! f4f4 := i64 (f4 * f4) in let! f4f5_2 := i64 (f4_2 * f5) in
  let! f4f6_38 := i64 (f4_2 * f6_19) in let! f4f7_38 := i64 (f4 * f7_38) in
  let! f4f8_38 := i64 (f4_2 * f8_19) in let! f4f9_38 := i64 (f4 * f9_38) in
  let! f5f5_38 := i64 (f5 * f5_38) in let! f5f6_38 := i64 (f5_2 * f6_19) in
  let! f5f7_76 := i64 (f5_2 * f7_38) in let! f5f8_38 := i64 (f5_2 * f8_19) in
  let! f5f9_76 := i64 (f5_2 * f9_38) in let! f6f6_19 := i64 (f6 * f6_19) in
  let! f6f7_38 := i64 (f6 * f7_38) in let! f6f8_38 := i64 (f6_2 * f8_19) in
  let! f6f9_38 := i64 (f6 * f9_38) in let! f7f7_38 := i64 (f7 * f7_38) in
  let! f7f8_38 := i64 (f7_2 * f8_19) in let! f7f9_76 := i64 (f7_2 * f9_38) in
  let! f8f8_19 := i64 (f8 * f8_19) in let! f8f9_38 := i64 (f8 * f9_38) in
  let! f9f9_38 := i64 (f9 * f9_38) in
  let! h0 := sum64 [f0f0; f1f9_76; f2f8_38; f3f7_76; f4f6_38; f5f5_38] in
  let! h1 := sum64 [f0f1_2; f2f9_38; f3f8_38; f4f7_38; f5f6_38] in
  let! h2 := sum64 [f0f2_2; f1f1_2; f3f9_76; f4f8_38; f5f7_76; f6f6_19] in
  let! h3 := sum64 [f0f3_2; f1f2_2; f4f9_38; f5f8_38; f6f7_38] in
  let! h4 := sum64 [f0f4_2; f1f3_4; f2f2; f5f9_76; f6f8_38; f7f7_38] in
  let! h5 := sum64 [f0f5_2; f1f4_2; f2f3_2; f6f9_38; f7f8_38] in
  let! h6 := sum64 [f0f6_2; f1f5_4; f2f4_2; f3f3_2; f7f9_76; f8f8_19] in
  let! h7 := sum64 [f0f7_2; f1f6_2; f2f5_2; f3f4_2; f8f9_38] in
  let! h8 := sum64 [f0f8_2; f1f7_4; f2f6_2; f3f5_4; f4f4; f9f9_38] in
  let! h9 := sum64 [f0f9_2; f1f8_2; f2f7_2; f3f6_2; f4f5_2] in
  fe_carry h0 h1 h2 h3 h4 h5 h6 h7 h8 h9.

Definition fe_sq2 (f : fe) : option fe :=
  let '(Fe f0 f1 f2 f3 f4 f5 f6 f7 f8 f9) := f in
  let! f0_2 := i32 (2 * f0) in let! f1_2 := i32 (2 * f1) in let! f2_2 := i32 (2 * f2) in
  let! f3_2 := i32 (2 * f3) in let! f4_2 := i32 (2 * f4) in let! f5_2 := i32 (2 * f5) in
  let! f6_2 := i32 (2 * f6) in let! f7_2 := i32 (2 * f7) in let! f5_38 := i32 (38 * f5) in
  let! f6_19 := i32 (19 * f6) in let! f7_38 := i32 (38 * f7) in let! f8_19 := i32 (19 * f8) in
  let! f9_38 := i32 (38 * f9) in let! f0f0 := i64 (f0 * f0) in let! f0f1_2 := i64 (f0_2 * f1) in
  let! f0f2_2 := i64 (f0_2 * f2) in let! f0f3_2 := i64 (f0_2 * f3) in
  let! f0f4_2 := i64 (f0_2 * f4) in let! f0f5_2 := i64 (f0_2 * f5) in
  let! f0f6_2 := i64 (f0_2 * f6) in let! f0f7_2 := i64 (f0_2 * f7) in
  let! f0f8_2 := i64 (f0_2 * f8) in let! f0f9_2 := i64 (f0_2 * f9) in
  let! f1f1_2 := i64 (f1_2 * f1) in let! f1f2_2 := i64 (f1_2 * f2) in
  let! f1f3_4 := i64 (f1_2 * f3_2) in let! f1f4_2 := i64 (f1_2 * f4) in
  let! f1f5_4 := i64 (f1_2 * f5_2) in let! f1f6_2 := i64 (f1_2 * f6) in
  let! f1f7_4 := i64 (f1_2 * f7_2) in let! f1f8_2 := i64 (f1_2 * f8) in
  let! f1f9_76 := i64 (f1_2 * f9_38) in let! f2f2 := i64 (f2 * f2) in
  let! f2f3_2 := i64 (f2_2 * f3) in let! f2f4_2 := i64 (f2_2 * f4) in
  let! f2f5_2 := i64 (f2_2 * f5) in let! f2f6_2 := i64 (f2_2 * f6) in
  let! f2f7_2 := i64 (f2_2 * f7) in let! f2f8_38 := i64 (f2_2 * f8_19) in
  let! f2f9_38 := i64 (f2 * f9_38) in let! f3f3_2 := i64 (f3_2 * f3) in
  let! f3f4_2 := i64 (f3_2 * f4) in let! f3f5_4 := i64 (f3_2 * f5_2) in
  let! f3f6_2 := i64 (f3_2 * f6) in let! f3f7_76 := i64 (f3_2 * f7_38) in
  let! f3f8_38 := i64 (f3_2 * f8_19) in let! f3f9_76 := i64 (f3_2 * f9_38) in
  let! f4f4 := i64 (f4 * f4) in let! f4f5_2 := i64 (f4_2 * f5) in
  let! f4f6_38 := i64 (f4_2 * f6_19) in let! f4f7_38 := i64 (f4 * f7_38) in
  let! f4f8_38 := i64 (f4_2 * f8_19) in let! f4f9_38 := i64 (f4 * f9_38) in
  let! f5f5_38 := i64 (f5 * f5_38) in let! f5f6_38 := i64 (f5_2 * f6_19) in
  let! f5f7_76 := i64 (f5_2 * f7_38) in let! f5f8_38 := i64 (f5_2 * f8_19) in
  let! f5f9_76 := i64 (f5_2 * f9_38) in let! f6f6_19 := i64 (f6 * f6_19) in
  let! f6f7_38 := i64 (f6 * f7_38) in let! f6f8_38 := i64 (f6_2 * f8_19) in
  let! f6f9_38 := i64 (f6 * f9_38) in let! f7f7_38 := i64 (f7 * f7_38) in
  let! f7f8_38 := i64 (f7_2 * f8_19) in let! f7f9_76 := i64 (f7_2 * f9_38) in
  let! f8f8_19 := i64 (f8 * f8_19) in let! f8f9_38 := i64 (f8 * f9_38) in
  let! f9f9_38 := i64 (f9 * f9_38) in
  let! h0 := sum64 [f0f0; f1f9_76; f2f8_38; f3f7_76; f4f6_38; f5f5_38] in
  let! h1 := sum64 [f0f1_2; f2f9_38; f3f8_38; f4f7_38; f5f6_38] in
  let! h2 := sum64 [f0f2_2; f1f1_2; f3f9_76; f4f8_38; f5f7_76; f6f6_19] in
  let! h3 := sum64 [f0f3_2; f1f2_2; f4f9_38; f5f8_38; f6f7_38] in
  let! h4 := sum64 [f0f4_2; f1f3_4; f2f2; f5f9_76; f6f8_38; f7f7_38] in
  let! h5 := sum64 [f0f5_2; f1f4_2; f2f3_2; f6f9_38; f7f8_38] in
  let! h6 := sum64 [f0f6_2; f1f5_4; f2f4_2; f3f3_2; f7f9_76; f8f8_19] in
  let! h7 := sum64 [f0f7_2; f1f6_2; f2f5_2; f3f4_2; f8f9_38] in
  let! h8 := sum64 [f0f8_2; f1f7_4; f2f6_2; f3f5_4; f4f4; f9f9_38] in
  let! h9 := sum64 [f0f9_2; f1f8_2; f2f7_2; f3f6_2; f4f5_2] in let! h0 := i64 (h0 + h0) in
  let! h1 := i64 (h1 + h1) in let! h2 := i64 (h2 + h2) in let! h3 := i64 (h3 + h3) in
  let! h4 := i64 (h4 + h4) in let! h5 := i64 (h5 + h5) in let! h6 := i64 (h6 + h6) in
  let! h7 := i64 (h7 + h7) in let! h8 := i64 (h8 + h8) in let! h9 := i64 (h9 + h9) in
  fe_carry h0 h1 h2 h3 h4 h5 h6 h7 h8 h9.

(** [fe_sq(t, x); for(i = 1; i < n; ++i) fe_sq(t, t)]. *)
Fixpoint fe_sqn (n : nat) (x : fe) : option fe :=
  match n with
  | O => Some x
  | S n' => let! t := fe_sq x in fe_sqn n' t
  end.

(** pow225521.h. *)
Definition fe_invert (z : fe) : option fe :=
  let! t0 := fe_sqn 1 z in
  let! t1 := fe_sqn 2 t0 in
  let! t1 := fe_mul z t1 in
  let! t0 := fe_mul t0 t1 in
  let! t2 := fe_sqn 1 t0 in
  let! t1 := fe_mul t1 t2 in
  let! t2 := fe_sqn 5 t1 in
  let! t1 := fe_mul t2 t1 in
  let! t2 := fe_sqn 10 t1 in
  let! t2 := fe_mul t2 t1 in
  let! t3 := fe_sqn 20 t2 in
  let! t2 := fe_mul t3 t2 in
  let! t2 := fe_sqn 10 t2 in
  let! t1 := fe_mul t2 t1 in
  let! t2 := fe_sqn 50 t1 in
  let! t2 := fe_mul t2 t1 in
  let! t3 := fe_sqn 100 t2 in
  let! t2 := fe_mul t3 t2 in
  let! t2 := fe_sqn 50 t2 in
  let! t1 := fe_mul t2 t1 in
  let! t1 := fe_sqn 5 t1 in
  fe_mul t1 t0.

(** pow22523.h. *)
Definition fe_pow22523 (z : fe) : option fe :=
  let! t0 := fe_sqn 1 z in
  let! t1 := fe_sqn 2 t0 in
  let! t1 := fe_mul z t1 in
  let! t0 := fe_mul t0 t1 in
  let! t0 := fe_sqn 1 t0 in
  let! t0 := fe_mul t1 t0 in
  let! t1 := fe_sqn 5 t0 in
  let! t0 := fe_mul t1 t0 in
  let! t1 := fe_sqn 10 t0 in
  let! t1 := fe_mul t1 t0 in
  let! t2 := fe_sqn 20 t1 in
  let! t1 := fe_mul t2 t1 in
  let! t1 := fe_sqn 10 t1 in
  let! t0 := fe_mul t1 t0 in
  let! t1 := fe_sqn 50 t0 in
  let! t1 := fe_mul t1 t0 in
  let! t2 := fe_sqn 100 t1 in
  let! t1 := fe_mul t2 t1 in
  let! t1 := fe_sqn 50 t1 in
  let! t0 := fe_mul t1 t0 in
  let! t0 := fe_sqn 2 t0 in
  fe_mul t0 z.

(** ** Encoding *)

Definition byte_at (s : bytes) (i : nat) : Z := nth i s 0.

Definition load_3 (s : bytes) (i : nat) : Z :=
  Z.lor (Z.lor (byte_at s i) (Z.shiftl (byte_at s (i + 1)) 8)) (Z.shiftl (byte_at s (i + 2)) 16).
Definition load_4 (s : bytes) (i : nat) : Z :=
  Z.lor (Z.lor (Z.lor (byte_at s i) (Z.shiftl (byte_at s (i + 1)) 8)) (Z.shiftl (byte_at s (i + 2)) 16))
    (Z.shiftl (byte_at s (i + 3)) 24).

Definition fe_frombytes (s : bytes) : option fe :=
  let h0 := load_4 s 0 in
  let h1 := Z.shiftl (load_3 s 4) 6 in
  let h2 := Z.shiftl (load_3 s 7) 5 in
  let h3 := Z.shiftl (load_3 s 10) 3 in
  let h4 := Z.shiftl (load_3 s 13) 2 in
  let h5 := load_4 s 16 in
  let h6 := Z.shiftl (load_3 s 20) 7 in
  let h7 := Z.shiftl (load_3 s 23) 5 in
  let h8 := Z.shiftl (load_3 s 26) 4 in
  let h9 := Z.shiftl (Z.land (load_3 s 29) 8388607) 2 in
  let! '(h9, carry9) := carry64 25 h9 0 in
  let! c19 := i64 (carry9 * 19) in let! h0 := i64 (h0 + c19) in
  let! '(h1, h2) := carry64 25 h1 h2 in let! '(h3, h4) := carry64 25 h3 h4 in
  let! '(h5, h6) := carry64 25 h5 h6 in let! '(h7, h8) := carry64 25 h7 h8 in
  let! '(h0, h1) := carry64 26 h0 h1 in let! '(h2, h3) := carry64 26 h2 h3 in
  let! '(h4, h5) := carry64 26 h4 h5 in let! '(h6, h7) := carry64 26 h6 h7 in
  let! '(h8, h9) := carry64 26 h8 h9 in
  fe_store h0 h1 h2 h3 h4 h5 h6 h7 h8 h9.

(** [q = (h + q) >> n]. *)
Definition fe_quotient_step (n h q : Z) : option Z :=
  let! t := i32 (h + q) in Some (Z.shiftr t n).

(** [carry = lo >> n; hi += carry; lo -= carry << n]. *)
Definition carry32 (n lo hi : Z) : option (Z * Z) :=
  let carry := Z.shiftr lo n in
  let! hi := i32 (hi + carry) in
  let! s := i32 (Z.shiftl carry n) in
  let! lo := i32 (lo - s) in
  Some (lo, hi).

(** The stores to [s]: the low octet of each expression. *)
Definition fe_pack (h0 h1 h2 h3 h4 h5 h6 h7 h8 h9 : Z) : bytes :=
  [u8 (Z.shiftr h0 0); u8 (Z.shiftr h0 8); u8 (Z.shiftr h0 16);
   u8 (Z.lor (Z.shiftr h0 24) (Z.shiftl h1 2)); u8 (Z.shiftr h1 6); u8 (Z.shiftr h1 14);
   u8 (Z.lor (Z.shiftr h1 22) (Z.shiftl h2 3)); u8 (Z.shiftr h2 5); u8 (Z.shiftr h2 13);
   u8 (Z.lor (Z.shiftr h2 21) (Z.shiftl h3 5)); u8 (Z.shiftr h3 3); u8 (Z.shiftr h3 11);
   u8 (Z.lor (Z.shiftr h3 19) (Z.shiftl h4 6)); u8 (Z.shiftr h4 2); u8 (Z.shiftr h4 10);
   u8 (Z.shiftr h4 18); u8 (Z.shiftr h5 0); u8 (Z.shiftr h5 8); u8 (Z.shiftr h5 16);
   u8 (Z.lor (Z.shiftr h5 24) (Z.shiftl h6 1)); u8 (Z.shiftr h6 7); u8 (Z.shiftr h6 15);
   u8 (Z.lor (Z.shiftr h6 23) (Z.shiftl h7 3)); u8 (Z.shiftr h7 5); u8 (Z.shiftr h7 13);
   u8 (Z.lor (Z.shiftr h7 21) (Z.shiftl h8 4)); u8 (Z.shiftr h8 4); u8 (Z.shiftr h8 12);
   u8 (Z.lor (Z.shiftr h8 20) (Z.shiftl h9 6)); u8 (Z.shiftr h9 2); u8 (Z.shiftr h9 10);
   u8 (Z.shiftr h9 18)].

Definition fe_tobytes (h : fe) : option bytes :=
  let '(Fe h0 h1 h2 h3 h4 h5 h6 h7 h8 h9) := h in
  let! t := i32 (19 * h9) in
  let! q := fe_quotient_step 25 t 16777216 in
  let! q := fe_quotient_step 26 h0 q in let! q := fe_quotient_step 25 h1 q in
  let! q := fe_quotient_step 26 h2 q in let! q := fe_quotient_step 25 h3 q in
  let! q := fe_quotient_step 26 h4 q in let! q := fe_quotient_step 25 h5 q in
  let! q := fe_quotient_step 26 h6 q in let! q := fe_quotient_step 25 h7 q in
  let! q := fe_quotient_step 26 h8 q in let! q := fe_quotient_step 25 h9 q in
  let! q19 := i32 (19 * q) in let! h0 := i32 (h0 + q19) in
  let! '(h0, h1) := carry32 26 h0 h1 in let! '(h1, h2) := carry32 25 h1 h2 in
  let! '(h2, h3) := carry32 26 h2 h3 in let! '(h3, h4) := carry32 25 h3 h4 in
  let! '(h4, h5) := carry32 26 h4 h5 in let! '(h5, h6) := carry32 25 h5 h6 in
  let! '(h6, h7) := carry32 26 h6 h7 in let! '(h7, h8) := carry32 25 h7 h8 in
  let! '(h8, h9) := carry32 26 h8 h9 in let! '(h9, carry9) := carry32 25 h9 0 in
  Some (fe_pack h0 h1 h2 h3 h4 h5 h6 h7 h8 h9).

(** additions/compare.c: 0 if the 32 octets are equal and -1 if not, from
    [(1 & ((differentbits - 1) >> 8)) - 1] on an [unsigned int]. *)
Definition crypto_verify_32 (x y : bytes) : Z :=
  let differentbits := fold_left (fun d i => Z.lor d (Z.lxor (byte_at x i) (byte_at y i))) (seq 0 32) 0 in
  let r := u32 (Z.land 1 (Z.shiftr (u32 (differentbits - 1)) 8) - 1) in
  if r <? 2147483648 then r else r - 4294967296.

Definition fe_isnegative (f : fe) : option Z :=
  let! s := fe_tobytes f in Some (Z.land (byte_at s 0) 1).

Definition fe_isnonzero (f : fe) : option Z :=
  let! s := fe_tobytes f in Some (crypto_verify_32 s (replicate 32 0)).
