(* ===== verification/FieldProofs.v ===== *)
(** The arithmetic of field elements is the arithmetic modulo p = 2^255 - 19,
    without overflow under the bounds the code documents. *)
From stdpp Require Import base list.
From Stdlib Require Import ZArith Lia.
From S2P Require Import Prelude MachineInt FieldElement.
#[local] Open Scope Z_scope.
#[local] Open Scope checked_scope.

(** 2^255 - 19 *)
Definition P25519 : Z := 57896044618658097711785492504343953926634992332820282019728792003956564819949.

(** The integer ten limbs stand for: t[0] + 2^26 t[1] + 2^51 t[2] + ... + 2^230 t[9]. *)
Definition limbs_val (h0 h1 h2 h3 h4 h5 h6 h7 h8 h9 : Z) : Z :=
  h0 + 2^26 * h1 + 2^51 * h2 + 2^77 * h3 + 2^102 * h4 + 2^128 * h5 + 2^153 * h6 + 2^179 * h7 +
  2^204 * h8 + 2^230 * h9.
Definition fe_val (f : fe) : Z :=
  let '(Fe h0 h1 h2 h3 h4 h5 h6 h7 h8 h9) := f in limbs_val h0 h1 h2 h3 h4 h5 h6 h7 h8 h9.

(** Bounds on the limbs of even and of odd index. *)
Definition fe_bounded (E O : Z) (f : fe) : Prop :=
  let '(Fe h0 h1 h2 h3 h4 h5 h6 h7 h8 h9) := f in
  (Z.abs h0 <= E /\ Z.abs h2 <= E /\ Z.abs h4 <= E /\ Z.abs h6 <= E /\ Z.abs h8 <= E) /\
  (Z.abs h1 <= O /\ Z.abs h3 <= O /\ Z.abs h5 <= O /\ Z.abs h7 <= O /\ Z.abs h9 <= O).

(** 1.01 * 2^25 and 1.01 * 2^24, 1.1 * 2^26 and 1.1 * 2^25, 1.65 * 2^26 and
    1.65 * 2^25: what the comments call the bounds of the results of
    multiplication, of addition, and of the arguments of multiplication. *)
Definition tight : fe -> Prop := fe_bounded 33889976 16944988.
Definition loose : fe -> Prop := fe_bounded 73819750 36909875.
Definition wide : fe -> Prop := fe_bounded 110729625 55364812.

Definition eq_mod (a b : Z) : Prop := a mod P25519 = b mod P25519.
#[global] Instance eq_mod_equiv : Equivalence eq_mod.
Proof. split; [intros a; done|intros a b; done|intros a b c; unfold eq_mod; congruence]. Qed.
#[global] Instance eq_mod_add : Proper (eq_mod ==> eq_mod ==> eq_mod) Z.add.
Proof. intros a a' Ha b b' Hb. unfold eq_mod in *. by rewrite Zplus_mod, Ha, Hb, <- Zplus_mod. Qed.
#[global] Instance eq_mod_sub : Proper (eq_mod ==> eq_mod ==> eq_mod) Z.sub.
Proof. intros a a' Ha b b' Hb. unfold eq_mod in *. by rewrite Zminus_mod, Ha, Hb, <- Zminus_mod. Qed.
#[global] Instance eq_mod_mul : Proper (eq_mod ==> eq_mod ==> eq_mod) Z.mul.
Proof. intros a a' Ha b b' Hb. unfold eq_mod in *. by rewrite Zmult_mod, Ha, Hb, <- Zmult_mod. Qed.
#[global] Instance eq_mod_opp : Proper (eq_mod ==> eq_mod) Z.opp.
Proof. intros a a' Ha. rewrite <- !Z.sub_0_l. by rewrite Ha. Qed.

Lemma eq_mod_multiple a b k : a = b + k * P25519 -> eq_mod a b.
Proof. intros ->. unfold eq_mod. apply Z_mod_plus_full. Qed.

Declare Scope field_scope.
Infix "≡p" := eq_mod (at level 70) : field_scope.
#[local] Open Scope field_scope.

Lemma fe_store_ok h0 h1 h2 h3 h4 h5 h6 h7 h8 h9 :
  Z.abs h0 <= 2147483647 -> Z.abs h1 <= 2147483647 -> Z.abs h2 <= 2147483647 -> Z.abs h3 <= 2147483647 ->
  Z.abs h4 <= 2147483647 -> Z.abs h5 <= 2147483647 -> Z.abs h6 <= 2147483647 -> Z.abs h7 <= 2147483647 ->
  Z.abs h8 <= 2147483647 -> Z.abs h9 <= 2147483647 ->
  fe_store h0 h1 h2 h3 h4 h5 h6 h7 h8 h9 = Some (Fe h0 h1 h2 h3 h4 h5 h6 h7 h8 h9).
Proof. intros. unfold fe_store. by rewrite !i32_ok by done. Qed.

(** A bound from the context, weakened to a constant. *)
Ltac weaken := eapply Z.le_trans; [eassumption|vm_compute; discriminate].

Lemma fe_carry_ok h0 h1 h2 h3 h4 h5 h6 h7 h8 h9 :
  Z.abs h0 <= 3500000000000000000 -> Z.abs h2 <= 3500000000000000000 -> Z.abs h4 <= 3500000000000000000 ->
  Z.abs h6 <= 3500000000000000000 -> Z.abs h8 <= 3500000000000000000 ->
  Z.abs h1 <= 2000000000000000000 -> Z.abs h3 <= 2000000000000000000 -> Z.abs h5 <= 2000000000000000000 ->
  Z.abs h7 <= 2000000000000000000 -> Z.abs h9 <= 2000000000000000000 ->
  exists h, fe_carry h0 h1 h2 h3 h4 h5 h6 h7 h8 h9 = Some h /\
    tight h /\ fe_val h ≡p limbs_val h0 h1 h2 h3 h4 h5 h6 h7 h8 h9.
Proof.
  intros. assert (Z.abs 0 <= 0) by done. assert (Z.abs 19 <= 19) by done. unfold fe_carry.
  do 11 chk_carry. do 2 chk_op. chk_carry.
  rewrite fe_store_ok by weaken. eexists. split; [reflexivity|]. split.
  - unfold tight, fe_bounded. repeat split; weaken.
  - unfold fe_val, limbs_val. eapply eq_mod_multiple with (k := - c9). unfold P25519. 
    ring.
Qed.

(** The part of a product above 2^255, in units of 2^255. *)
Definition high_part (f g : fe) : Z :=
  let '(Fe f0 f1 f2 f3 f4 f5 f6 f7 f8 f9) := f in
  let '(Fe g0 g1 g2 g3 g4 g5 g6 g7 g8 g9) := g in
  (f2 * g8 + f4 * g6 + f6 * g4 + f8 * g2) +
  2^1 * (f1 * g9 + f3 * g7 + f5 * g5 + f7 * g3 + f9 * g1) +
  2^26 * (f2 * g9 + f3 * g8 + f4 * g7 + f5 * g6 + f6 * g5 + f7 * g4 + f8 * g3 + f9 * g2) +
  2^51 * (f4 * g8 + f6 * g6 + f8 * g4) +
  2^52 * (f3 * g9 + f5 * g7 + f7 * g5 + f9 * g3) +
  2^77 * (f4 * g9 + f5 * g8 + f6 * g7 + f7 * g6 + f8 * g5 + f9 * g4) +
  2^102 * (f6 * g8 + f8 * g6) +
  2^103 * (f5 * g9 + f7 * g7 + f9 * g5) +
  2^128 * (f6 * g9 + f7 * g8 + f8 * g7 + f9 * g6) +
  2^153 * (f8 * g8) +
  2^154 * (f7 * g9 + f9 * g7) +
  2^179 * (f8 * g9 + f9 * g8) +
  2^205 * (f9 * g9).

(** From the limbs before the carries to the result; [n] is the factor of the
    product. *)
Ltac carry_out n :=
  edestruct fe_carry_ok as (h & E & Ht & Hv); cycle -1;
  [ exists h; split; [exact E|]; split; [exact Ht|]; rewrite Hv;
    lazymatch goal with
    | |- context [fe_val ?f * fe_val ?g] => apply (eq_mod_multiple _ _ (- n * high_part f g))
    end; unfold high_part, fe_val, limbs_val, P25519; ring
  | weaken .. ].

Lemma fe_mul_ok f g : wide f -> wide g ->
  exists h, fe_mul f g = Some h /\ tight h /\ fe_val h ≡p fe_val f * fe_val g.
Proof.
  destruct f as [f0 f1 f2 f3 f4 f5 f6 f7 f8 f9], g as [g0 g1 g2 g3 g4 g5 g6 g7 g8 g9].
  intros [(?&?&?&?&?) (?&?&?&?&?)] [(?&?&?&?&?) (?&?&?&?&?)]. unfold fe_mul.
  do 114 chk_op. do 10 chk_sum. carry_out 1.
Qed.

Lemma fe_sq_ok f : wide f -> exists h, fe_sq f = Some h /\ tight h /\ fe_val h ≡p fe_val f * fe_val f.
Proof.
  destruct f as [f0 f1 f2 f3 f4 f5 f6 f7 f8 f9]. intros [(?&?&?&?&?) (?&?&?&?&?)]. unfold fe_sq.
  repeat chk_op. do 10 chk_sum. carry_out 1.
Qed.

Lemma fe_sq2_ok f : wide f ->
  exists h, fe_sq2 f = Some h /\ tight h /\ fe_val h ≡p 2 * (fe_val f * fe_val f).
Proof.
  destruct f as [f0 f1 f2 f3 f4 f5 f6 f7 f8 f9]. intros [(?&?&?&?&?) (?&?&?&?&?)]. unfold fe_sq2.
  repeat chk_op. do 10 chk_sum. do 10 chk_op. carry_out 2.
Qed.

(** ** Sums, differences and selection *)

Lemma fe_add_ok f g E1 O1 E2 O2 : fe_bounded E1 O1 f -> fe_bounded E2 O2 g ->
  E1 + E2 <= 2147483647 -> O1 + O2 <= 2147483647 ->
  exists h, fe_add f g = Some h /\ fe_bounded (E1 + E2) (O1 + O2) h /\ fe_val h = fe_val f + fe_val g.
Proof.
  destruct f as [f0 f1 f2 f3 f4 f5 f6 f7 f8 f9], g as [g0 g1 g2 g3 g4 g5 g6 g7 g8 g9].
  intros [(?&?&?&?&?) (?&?&?&?&?)] [(?&?&?&?&?) (?&?&?&?&?)] ??. unfold fe_add.
  rewrite fe_store_ok by (eapply Z.le_trans; [apply abs_add_le; eassumption|done]).
  eexists. split; [reflexivity|]. split; [split; repeat split; by apply abs_add_le|]. unfold fe_val, limbs_val. ring.
Qed.

Lemma fe_sub_ok f g E1 O1 E2 O2 : fe_bounded E1 O1 f -> fe_bounded E2 O2 g ->
  E1 + E2 <= 2147483647 -> O1 + O2 <= 2147483647 ->
  exists h, fe_sub f g = Some h /\ fe_bounded (E1 + E2) (O1 + O2) h /\ fe_val h = fe_val f - fe_val g.
Proof.
  destruct f as [f0 f1 f2 f3 f4 f5 f6 f7 f8 f9], g as [g0 g1 g2 g3 g4 g5 g6 g7 g8 g9].
  intros [(?&?&?&?&?) (?&?&?&?&?)] [(?&?&?&?&?) (?&?&?&?&?)] ??. unfold fe_sub.
  rewrite fe_store_ok by (eapply Z.le_trans; [apply abs_sub_le; eassumption|done]).
  eexists. split; [reflexivity|]. split; [split; repeat split; by apply abs_sub_le|]. unfold fe_val, limbs_val. ring.
Qed.

Lemma fe_neg_ok f E O : fe_bounded E O f -> E <= 2147483647 -> O <= 2147483647 ->
  exists h, fe_neg f = Some h /\ fe_bounded E O h /\ fe_val h = - fe_val f.
Proof.
  destruct f as [f0 f1 f2 f3 f4 f5 f6 f7 f8 f9]. intros [(?&?&?&?&?) (?&?&?&?&?)] ??. unfold fe_neg.
  rewrite fe_store_ok by (rewrite Z.abs_opp; by eapply Z.le_trans).
  eexists. split; [reflexivity|]. split; [split; repeat split; by rewrite Z.abs_opp|]. unfold fe_val, limbs_val. ring.
Qed.

Lemma fe_cmov_ok f g (b : bool) : fe_cmov f g (Z.b2z b) = if b then g else f.
Proof.
  destruct f as [f0 f1 f2 f3 f4 f5 f6 f7 f8 f9], g as [g0 g1 g2 g3 g4 g5 g6 g7 g8 g9].
  unfold fe_cmov. destruct b; cbn [Z.b2z Z.opp].
  - f_equal; rewrite Z.land_m1_r, <- Z.lxor_assoc, Z.lxor_nilpotent; apply Z.lxor_0_l.
  - f_equal; rewrite Z.land_0_r; apply Z.lxor_0_r.
Qed.

Lemma fe_bounded_weaken E O E' O' f : fe_bounded E O f -> E <= E' -> O <= O' -> fe_bounded E' O' f.
Proof.
  destruct f as [f0 f1 f2 f3 f4 f5 f6 f7 f8 f9]. intros [(?&?&?&?&?) (?&?&?&?&?)] ??. split; repeat split; by eapply Z.le_trans.
Qed.
Lemma tight_loose f : tight f -> loose f.
Proof. intros H. eapply fe_bounded_weaken; [exact H|lia|lia]. Qed.
Lemma tight_wide f : tight f -> wide f.
Proof. intros H. eapply fe_bounded_weaken; [exact H|lia|lia]. Qed.
Lemma loose_wide f : loose f -> wide f.
Proof. intros H. eapply fe_bounded_weaken; [exact H|lia|lia]. Qed.
Create HintDb field_db.
#[export] Hint Resolve tight_loose tight_wide loose_wide : field_db.

(** ** Powers *)

(** [x] is a power of [z], ready for multiplication. *)
Definition power_of (z x : fe) (e : Z) : Prop := 0 <= e /\ tight x /\ fe_val x ≡p fe_val z ^ e.

Lemma power_mul z x y a b : power_of z x a -> power_of z y b ->
  exists t, fe_mul x y = Some t /\ power_of z t (a + b).
Proof.
  intros (Ha & Tx & Hx) (Hb & Ty & Hy). destruct (fe_mul_ok x y) as (t & E & Ht & Hv); [by apply tight_wide..|].
  exists t. split; [done|]. split; [lia|]. split; [done|]. rewrite Hv, Hx, Hy, Z.pow_add_r by lia. done.
Qed.

Lemma power_sq z x a : power_of z x a -> exists t, fe_sq x = Some t /\ power_of z t (2 * a).
Proof.
  intros (Ha & Tx & Hx). destruct (fe_sq_ok x) as (t & E & Ht & Hv); [by apply tight_wide|].
  exists t. split; [done|]. split; [lia|]. split; [done|]. rewrite Hv, Hx, <- Z.pow_add_r by lia.
  by rewrite Z.add_diag.
Qed.

Lemma power_sqn z n : forall x a, power_of z x a ->
  exists t, fe_sqn n x = Some t /\ power_of z t (2 ^ Z.of_nat n * a).
Proof.
  induction n as [|n IH]; intros x a H.
  { exists x. split; [done|]. by rewrite Z.mul_1_l. }
  destruct (power_sq z x a H) as (t & E & Ht). destruct (IH t _ Ht) as (t' & E' & Ht').
  exists t'. cbn [fe_sqn]. rewrite E. split; [done|].
  rewrite Nat2Z.inj_succ, Z.pow_succ_r by lia. by replace (2 * 2 ^ Z.of_nat n * a) with (2 ^ Z.of_nat n * (2 * a)) by lia.
Qed.

(** [z] itself has wider limbs than the powers made of it. *)
Lemma power_first z : wide z -> exists t, fe_sqn 1 z = Some t /\ power_of z t 2.
Proof.
  intros Hz. destruct (fe_sq_ok z Hz) as (t & E & Ht & Hv). exists t. cbn [fe_sqn]. rewrite E.
  split; [done|]. split; [lia|]. split; [done|]. by rewrite Hv, Z.pow_2_r.
Qed.
Lemma power_mul_first z y b : wide z -> power_of z y b -> exists t, fe_mul z y = Some t /\ power_of z t (b + 1).
Proof.
  intros Hz (Hb & Ty & Hy). destruct (fe_mul_ok z y) as (t & E & Ht & Hv); [done|by apply tight_wide|].
  exists t. split; [done|]. split; [lia|]. split; [done|].
  rewrite Hv, Hy, Z.pow_add_r, Z.pow_1_r by lia. by rewrite Z.mul_comm.
Qed.
Lemma power_mul_last z y b : wide z -> power_of z y b -> exists t, fe_mul y z = Some t /\ power_of z t (b + 1).
Proof.
  intros Hz (Hb & Ty & Hy). destruct (fe_mul_ok y z) as (t & E & Ht & Hv); [by apply tight_wide|done|].
  exists t. split; [done|]. split; [lia|]. split; [done|].
  by rewrite Hv, Hy, Z.pow_add_r, Z.pow_1_r by lia.
Qed.

(** Run the next operation of a chain of powers, computing the exponent. *)
Ltac note_power H :=
  lazymatch type of H with
  | power_of ?z ?x ?e => let v := eval vm_compute in e in change (power_of z x v) in H
  end.
Ltac power_step :=
  let t := fresh "t" in let E := fresh "E" in let H := fresh "H" in
  lazymatch goal with
  | Hz : wide ?z |- exists r, match ?op with Some _ => _ | None => None end = Some r /\ _ =>
      lazymatch op with
      | fe_sqn 1 z => destruct (power_first z Hz) as (t & E & H)
      | fe_sqn ?n ?x => match goal with Hx : power_of z x _ |- _ => destruct (power_sqn z n x _ Hx) as (t & E & H) end
      | fe_mul z ?y => match goal with Hy : power_of z y _ |- _ => destruct (power_mul_first z y _ Hz Hy) as (t & E & H) end
      | fe_mul ?x ?y => match goal with Hx : power_of z x _, Hy : power_of z y _ |- _ =>
                          destruct (power_mul z x y _ _ Hx Hy) as (t & E & H) end
      end; note_power H; refine (chk_step _ _ _ _ E _); clear E; cbv beta
  end.

Lemma fe_invert_ok z : wide z ->
  exists t, fe_invert z = Some t /\ tight t /\ fe_val t ≡p fe_val z ^ (P25519 - 2).
Proof.
  intros Hz. unfold fe_invert. do 21 power_step.
  match goal with |- exists r, fe_mul ?x ?y = Some r /\ _ =>
    match goal with Hx : power_of z x _, Hy : power_of z y _ |- _ =>
      destruct (power_mul z x y _ _ Hx Hy) as (r & E & Hr) end end.
  note_power Hr. exists r. split; [exact E|]. destruct Hr as (_ & Ht & Hv). split; [exact Ht|exact Hv].
Qed.

(** (p - 5) / 8 *)
Lemma fe_pow22523_ok z : wide z ->
  exists t, fe_pow22523 z = Some t /\ tight t /\ fe_val t ≡p fe_val z ^ ((P25519 - 5) / 8).
Proof.
  intros Hz. unfold fe_pow22523. do 21 power_step.
  match goal with |- exists r, fe_mul ?x ?y = Some r /\ _ =>
    match goal with Hx : power_of z x _ |- _ => destruct (power_mul_last z x _ Hz Hx) as (r & E & Hr) end end.
  note_power Hr. exists r. split; [exact E|]. destruct Hr as (_ & Ht & Hv). split; [exact Ht|exact Hv].
Qed.
