(* ===== verification/FieldEncoding.v ===== *)
(** The encoding of field elements as 32 octets: [fe_tobytes] writes the
    canonical representative and [fe_frombytes] reads 255 bits. *)
From stdpp Require Import base list.
From Stdlib Require Import ZArith Lia.
From S2P Require Import Prelude MachineInt FieldElement FieldProofs.
#[local] Open Scope Z_scope.
#[local] Open Scope checked_scope.
#[local] Open Scope field_scope.

(** The integer of octets, the least significant first. *)
Fixpoint le_val (b : bytes) : Z :=
  match b with
  | [] => 0
  | x :: b' => x + 256 * le_val b'
  end.

(** Powers of two as numerals. *)
Ltac compute_powers :=
  repeat match goal with
  | |- context [2 ^ ?e] => let v := eval vm_compute in (2 ^ e) in change (2 ^ e) with v
  | H : context [2 ^ ?e] |- _ => let v := eval vm_compute in (2 ^ e) in change (2 ^ e) with v in H
  end.

(** Octets of a number, with what is below and above them. *)
Lemma octet_of h a : 0 <= a ->
  h = h mod 2 ^ a + 2 ^ a * ((h / 2 ^ a) mod 256) + 2 ^ (a + 8) * (h / 2 ^ (a + 8)).
Proof.
  intros Ha. assert (0 < 2 ^ a) as Hp by (apply Z.pow_pos_nonneg; lia).
  assert (2 ^ (a + 8) = 2 ^ a * 256) as -> by (rewrite Z.pow_add_r by lia; done).
  rewrite <- Z.div_div by lia.
  pose proof (Z.div_mod h (2 ^ a) ltac:(lia)). pose proof (Z.div_mod (h / 2 ^ a) 256 ltac:(lia)). nia.
Qed.

Lemma octets_of h a : 0 <= a ->
  h = h mod 2 ^ a + 2 ^ a * ((h / 2 ^ a) mod 256) + 2 ^ (a + 8) * ((h / 2 ^ (a + 8)) mod 256) +
      2 ^ (a + 16) * (h / 2 ^ (a + 16)).
Proof.
  intros Ha. rewrite (octet_of h a Ha) at 1.
  assert (0 < 2 ^ (a + 8)) as Hp by (apply Z.pow_pos_nonneg; lia).
  assert (2 ^ (a + 16) = 2 ^ (a + 8) * 256) as -> by (rewrite !Z.pow_add_r by lia; lia).
  rewrite <- Z.div_div by lia. pose proof (Z.div_mod (h / 2 ^ (a + 8)) 256 ltac:(lia)). nia.
Qed.

(** Joining bit fields adds. *)
Lemma lor_shiftl a b k : 0 <= k -> 0 <= a < 2 ^ k -> Z.lor a (Z.shiftl b k) = a + 2 ^ k * b.
Proof.
  intros Hk Ha. rewrite <- Z.add_nocarry_lor; [by rewrite Z.shiftl_mul_pow2, Z.mul_comm by lia|].
  apply Z.bits_inj'. intros i Hi. rewrite Z.land_spec, Z.bits_0.
  destruct (Z.lt_ge_cases i k) as [H|H]; [by rewrite (Z.shiftl_spec_low b k i H), andb_false_r|].
  rewrite <- (Z.mod_small a (2 ^ k)), Z.mod_pow2_bits_high by lia. done.
Qed.

Lemma u8_join a b k : 0 <= k <= 8 -> 0 <= a < 2 ^ k ->
  u8 (Z.lor a (Z.shiftl b k)) = a + 2 ^ k * (b mod 2 ^ (8 - k)).
Proof.
  intros Hk Ha. rewrite lor_shiftl by lia. unfold u8.
  assert (256 = 2 ^ k * 2 ^ (8 - k)) as -> by (rewrite <- Z.pow_add_r by lia; by replace (k + (8 - k)) with 8 by lia).
  assert (0 < 2 ^ (8 - k)) by (apply Z.pow_pos_nonneg; lia).
  rewrite Z.rem_mul_r by lia. rewrite (Z.add_comm a), (Z.mul_comm (2 ^ k)).
  rewrite Z.div_add_l, (Z.div_small a) by lia. rewrite Z.add_0_r, (Z.add_comm _ a), Z_mod_plus_full.
  rewrite Z.mod_small by lia. ring.
Qed.

Lemma u8_shiftr h n : 0 <= n -> u8 (Z.shiftr h n) = (h / 2 ^ n) mod 256.
Proof. intros. unfold u8. by rewrite Z.shiftr_div_pow2. Qed.

(** Limbs after the last carries. *)
Definition limb26 (h : Z) : Prop := 0 <= h < 67108864.
Definition limb25 (h : Z) : Prop := 0 <= h < 33554432.

(** The top bits of a limb go to the octet of the next limb. *)
Ltac join_octet h n k :=
  rewrite (u8_join (Z.shiftr h n) _ k) by
    (rewrite ?Z.shiftr_div_pow2 by lia; unfold limb26, limb25 in *; (lia || (cbn; div_lia)));
  rewrite (Z.shiftr_div_pow2 h n) by lia.

Lemma fe_pack_val h0 h1 h2 h3 h4 h5 h6 h7 h8 h9 :
  limb26 h0 -> limb25 h1 -> limb26 h2 -> limb25 h3 -> limb26 h4 ->
  limb25 h5 -> limb26 h6 -> limb25 h7 -> limb26 h8 -> limb25 h9 ->
  le_val (fe_pack h0 h1 h2 h3 h4 h5 h6 h7 h8 h9) = limbs_val h0 h1 h2 h3 h4 h5 h6 h7 h8 h9.
Proof.
  intros. unfold fe_pack.
  join_octet h0 24 2. join_octet h1 22 3. join_octet h2 21 5. join_octet h3 19 6. join_octet h5 24 1.
  join_octet h6 23 3. join_octet h7 21 4. join_octet h8 20 6. rewrite !u8_shiftr by lia.
  assert ((h4 / 2 ^ 18) mod 256 = h4 / 2 ^ 18) as -> by (unfold limb26 in *; cbn; apply Z.mod_small; div_lia).
  assert ((h9 / 2 ^ 18) mod 256 = h9 / 2 ^ 18) as -> by (unfold limb25 in *; cbn; apply Z.mod_small; div_lia).
  pose proof (octets_of h0 8 ltac:(lia)). pose proof (octets_of h1 6 ltac:(lia)).
  pose proof (octets_of h2 5 ltac:(lia)). pose proof (octets_of h3 3 ltac:(lia)).
  pose proof (octets_of h4 2 ltac:(lia)). pose proof (octets_of h5 8 ltac:(lia)).
  pose proof (octets_of h6 7 ltac:(lia)). pose proof (octets_of h7 5 ltac:(lia)).
  pose proof (octets_of h8 4 ltac:(lia)). pose proof (octets_of h9 2 ltac:(lia)).
  unfold limbs_val. cbn [le_val]. compute_powers. rewrite !Z.div_1_r. lia.
Qed.

(** ** fe_tobytes *)

Lemma quotient_step_ok n h q H Q : 0 <= n -> Z.abs h <= H -> Z.abs q <= Q -> H + Q <= 2147483647 ->
  fe_quotient_step n h q = Some ((h + q) / 2 ^ n) /\ Z.abs ((h + q) / 2 ^ n) <= (H + Q) / 2 ^ n + 1.
Proof.
  intros Hn Hh Hq Hs. unfold fe_quotient_step. rewrite i32_ok by lia. rewrite Z.shiftr_div_pow2 by lia.
  split; [done|]. assert (0 < 2 ^ n) as Hp by (apply Z.pow_pos_nonneg; lia).
  pose proof (abs_add_le h q H Q Hh Hq) as Ha. revert Ha Hp. generalize (h + q), (H + Q), (2 ^ n). clear.
  intros z B m Ha Hm. pose proof (Z.div_mod z m ltac:(lia)). pose proof (Z.mod_pos_bound z m ltac:(lia)).
  pose proof (Z.div_mod B m ltac:(lia)). pose proof (Z.mod_pos_bound B m ltac:(lia)).
  assert (z / m < B / m + 1) by (apply (Z.mul_lt_mono_pos_l m); lia).
  assert (- (B / m) - 2 < z / m) by (apply (Z.mul_lt_mono_pos_l m); lia). lia.
Qed.

Lemma carry32_ok n lo hi L H : 0 <= n -> Z.abs lo <= L -> Z.abs hi <= H ->
  L + 2 ^ n <= 2147483647 -> H + (L / 2 ^ n + 1) <= 2147483647 ->
  exists c, carry32 n lo hi = Some (lo - c * 2 ^ n, hi + c) /\ Z.abs c <= L / 2 ^ n + 1 /\
    0 <= lo - c * 2 ^ n < 2 ^ n.
Proof.
  intros Hn HL HH H1 H2. assert (0 < 2 ^ n) as Hp by (apply Z.pow_pos_nonneg; lia).
  unfold carry32. rewrite Z.shiftr_div_pow2, Z.shiftl_mul_pow2 by lia. exists (lo / 2 ^ n).
  revert Hp H1 H2. generalize (2 ^ n) as m. intros m Hm H1 H2.
  pose proof (Z.div_mod lo m ltac:(lia)). pose proof (Z.mod_pos_bound lo m ltac:(lia)).
  pose proof (Z.div_mod L m ltac:(lia)). pose proof (Z.mod_pos_bound L m ltac:(lia)).
  assert (lo / m < L / m + 1) by (apply (Z.mul_lt_mono_pos_l m); lia).
  assert (- (L / m) - 2 < lo / m) by (apply (Z.mul_lt_mono_pos_l m); lia).
  rewrite (Z.mul_comm (lo / m) m).
  rewrite i32_ok by lia. rewrite i32_ok by lia. rewrite i32_ok by lia. split; [done|]. lia.
Qed.

Ltac chk_quotient :=
  lazymatch goal with
  | |- exists r, match fe_quotient_step ?n ?h ?q with Some _ => _ | None => None end = Some r /\ _ =>
      let E := fresh "E" in let B := fresh "B" in
      let Hh := bound_of h in let Hq := bound_of q in
      edestruct (quotient_step_ok n h q _ _ ltac:(lia) Hh Hq) as [E B]; [vm_compute; discriminate|];
      note_bound B; refine (chk_step _ _ _ _ E _); clear E
  end; cbv beta.

Ltac chk_carry32 :=
  lazymatch goal with
  | |- exists r, match carry32 ?n ?lo ?hi with Some _ => _ | None => None end = Some r /\ _ =>
      let c := fresh "c" in let E := fresh "E" in let Bc := fresh "B" in let Rl := fresh "R" in
      let Bh := fresh "B" in
      let Hl := bound_of lo in let Hh := bound_of hi in
      edestruct (carry32_ok n lo hi _ _ ltac:(lia) Hl Hh) as (c & E & Bc & Rl);
      [vm_compute; discriminate | vm_compute; discriminate |];
      note_bound Bc; pose proof (abs_add_le hi c _ _ Hh Bc) as Bh; note_bound Bh;
      refine (chk_step _ _ _ _ E _); clear E
  end; cbv beta iota.

(** A quotient of quotients. *)
Lemma div_nest a b m n : 0 < m -> 0 < n -> (b + a / m) / n = (a + m * b) / (m * n).
Proof. intros. rewrite <- Z.div_div by lia. rewrite (Z.mul_comm m b), Z.div_add by lia. by rewrite Z.add_comm. Qed.

(** The estimate of the quotient by p is exact. *)
Lemma quotient_exact w h9 : Z.abs w <= 2 ^ 231 -> Z.abs h9 <= 36909875 ->
  let v := w + 2 ^ 230 * h9 in
  let q := (v + (19 * h9 + 16777216) / 2 ^ 25) / 2 ^ 255 in
  0 <= v - P25519 * q < P25519.
Proof.
  intros Hw Hh v q. unfold P25519. subst v. revert Hw q. compute_powers. intros Hw q.
  set (t := (19 * h9 + 16777216) / 33554432) in q.
  pose proof (Z.div_mod (19 * h9 + 16777216) 33554432 ltac:(lia)) as E1.
  pose proof (Z.mod_pos_bound (19 * h9 + 16777216) 33554432 ltac:(lia)) as R1. fold t in E1.
  revert E1 R1. generalize ((19 * h9 + 16777216) mod 33554432). intros r1 E1 R1.
  unfold q. clear q.
  match goal with |- context [?a / ?b] => pose proof (Z.div_mod a b ltac:(lia)) as E2;
    pose proof (Z.mod_pos_bound a b ltac:(lia)) as R2; revert E2 R2; generalize (a mod b), (a / b) end.
  intros r2 q E2 R2. lia.
Qed.

Lemma length_fe_pack h0 h1 h2 h3 h4 h5 h6 h7 h8 h9 :
  length (fe_pack h0 h1 h2 h3 h4 h5 h6 h7 h8 h9) = 32%nat /\ Forall is_u8 (fe_pack h0 h1 h2 h3 h4 h5 h6 h7 h8 h9).
Proof.
  split; [done|]. unfold fe_pack, u8. repeat (constructor; [apply Z.mod_pos_bound; done|]). constructor.
Qed.

Lemma limbs_range h0 h1 h2 h3 h4 h5 h6 h7 h8 h9 :
  limb26 h0 -> limb25 h1 -> limb26 h2 -> limb25 h3 -> limb26 h4 ->
  limb25 h5 -> limb26 h6 -> limb25 h7 -> limb26 h8 -> limb25 h9 ->
  0 <= limbs_val h0 h1 h2 h3 h4 h5 h6 h7 h8 h9 < 2 ^ 255.
Proof. unfold limbs_val, limb25, limb26. compute_powers. lia. Qed.

(** The quotient [fe_tobytes] computes. *)
Definition tobytes_quotient (h0 h1 h2 h3 h4 h5 h6 h7 h8 h9 : Z) : Z :=
  (h9 + (h8 + (h7 + (h6 + (h5 + (h4 + (h3 + (h2 + (h1 + (h0 + (19 * h9 + 16777216) / 2 ^ 25) / 2 ^ 26) / 2 ^ 25)
    / 2 ^ 26) / 2 ^ 25) / 2 ^ 26) / 2 ^ 25) / 2 ^ 26) / 2 ^ 25) / 2 ^ 26) / 2 ^ 25.

Lemma tobytes_quotient_ok h0 h1 h2 h3 h4 h5 h6 h7 h8 h9 : loose (Fe h0 h1 h2 h3 h4 h5 h6 h7 h8 h9) ->
  0 <= limbs_val h0 h1 h2 h3 h4 h5 h6 h7 h8 h9 - P25519 * tobytes_quotient h0 h1 h2 h3 h4 h5 h6 h7 h8 h9 < P25519.
Proof.
  intros [(?&?&?&?&?) (?&?&?&?&?)].
  pose (w := h0 + 2^26 * h1 + 2^51 * h2 + 2^77 * h3 + 2^102 * h4 + 2^128 * h5 + 2^153 * h6 + 2^179 * h7 + 2^204 * h8).
  assert (Z.abs w <= 2 ^ 231) as Hw.
  { unfold w. repeat (eapply Z.le_trans; [apply abs_add_le; [|apply abs_scale_le; [by vm_compute|eassumption]]|]).
    all: try eassumption; try apply Z.le_refl. by vm_compute. }
  pose proof (quotient_exact w h9 Hw ltac:(done)) as Hq. cbv zeta in Hq.
  assert (tobytes_quotient h0 h1 h2 h3 h4 h5 h6 h7 h8 h9 =
    (w + 2 ^ 230 * h9 + (19 * h9 + 16777216) / 2 ^ 25) / 2 ^ 255) as ->; [|exact Hq].
  unfold tobytes_quotient. generalize ((19 * h9 + 16777216) / 2 ^ 25). intros t.
  do 9 match goal with
  | |- context [(?b + ?a / ?m) / ?n] =>
      lazymatch a with context [_ / _] => fail | _ => rewrite (div_nest a b m n) by (by vm_compute) end
  end. unfold w. f_equal. ring.
Qed.

Lemma fe_tobytes_ok h : loose h -> exists s, fe_tobytes h = Some s /\
  length s = 32%nat /\ Forall is_u8 s /\ le_val s = fe_val h mod P25519.
Proof.
  destruct h as [h0 h1 h2 h3 h4 h5 h6 h7 h8 h9]. intros Hl. pose proof (tobytes_quotient_ok _ _ _ _ _ _ _ _ _ _ Hl) as Hq.
  destruct Hl as [(?&?&?&?&?) (?&?&?&?&?)]. unfold fe_tobytes.
  assert (Z.abs 16777216 <= 16777216) by done. assert (Z.abs 0 <= 0) by done.
  chk_op. do 11 chk_quotient. unfold tobytes_quotient in Hq. revert Hq.
  match goal with |- context [P25519 * ?q] => match goal with Hb : Z.abs q <= _ |- _ => revert Hb; generalize q end end.
  intros q Bq Hq. chk_op. chk_op. do 10 chk_carry32.
  eexists. split; [reflexivity|].
  edestruct length_fe_pack as [L1 L2]. split; [exact L1|]. split; [exact L2|]. clear L1 L2.
  rewrite fe_pack_val by assumption. pose proof (limbs_range _ _ _ _ _ _ _ _ _ _ R R0 R1 R2 R3 R4 R5 R6 R7 R8) as Hr.
  unfold fe_val.
  rewrite <- (Z.mod_unique_pos (limbs_val h0 h1 h2 h3 h4 h5 h6 h7 h8 h9) P25519 q _ Hq) by ring.
  assert (limbs_val h0 h1 h2 h3 h4 h5 h6 h7 h8 h9 + 19 * q = 
    limbs_val (h0 + 19 * q - c * 2 ^ 26) (h1 + c - c0 * 2 ^ 25) (h2 + c0 - c1 * 2 ^ 26) (h3 + c1 - c2 * 2 ^ 25)
      (h4 + c2 - c3 * 2 ^ 26) (h5 + c3 - c4 * 2 ^ 25) (h6 + c4 - c5 * 2 ^ 26) (h7 + c5 - c6 * 2 ^ 25)
      (h8 + c6 - c7 * 2 ^ 26) (h9 + c7 - c8 * 2 ^ 25) + 2 ^ 255 * c8) as E by (unfold limbs_val; ring).
  revert Hr Hq E. generalize (limbs_val h0 h1 h2 h3 h4 h5 h6 h7 h8 h9). clear.
  match goal with |- context [0 <= ?x < 2 ^ 255] => generalize x end. unfold P25519. compute_powers. lia.
Qed.

(** ** fe_frombytes *)

Lemma load_3_ok s i : is_u8 (byte_at s i) -> is_u8 (byte_at s (i + 1)) -> is_u8 (byte_at s (i + 2)) ->
  load_3 s i = byte_at s i + 256 * byte_at s (i + 1) + 65536 * byte_at s (i + 2) /\ 0 <= load_3 s i < 16777216.
Proof.
  unfold is_u8, load_3. intros H0 H1 H2. rewrite (lor_shiftl _ _ 8) by (compute_powers; lia).
  rewrite (lor_shiftl _ _ 16) by (compute_powers; lia). compute_powers. lia.
Qed.
Lemma load_4_ok s i : is_u8 (byte_at s i) -> is_u8 (byte_at s (i + 1)) -> is_u8 (byte_at s (i + 2)) ->
  is_u8 (byte_at s (i + 3)) ->
  load_4 s i = byte_at s i + 256 * byte_at s (i + 1) + 65536 * byte_at s (i + 2) + 16777216 * byte_at s (i + 3) /\
  0 <= load_4 s i < 4294967296.
Proof.
  unfold is_u8, load_4. intros H0 H1 H2 H3. rewrite (lor_shiftl _ _ 8) by (compute_powers; lia).
  rewrite (lor_shiftl _ _ 16) by (compute_powers; lia). rewrite (lor_shiftl _ _ 24) by (compute_powers; lia).
  compute_powers. lia.
Qed.

Lemma byte_at_ok s i : Forall is_u8 s -> is_u8 (byte_at s i).
Proof.
  intros H. unfold byte_at. destruct (Nat.lt_ge_cases i (length s)) as [Hi|Hi].
  - eapply List.Forall_forall; [exact H|by apply nth_In].
  - rewrite nth_overflow by done. by split.
Qed.

(** Limbs read with shifts, before the carries. *)
Lemma frombytes_carry h0 h1 h2 h3 h4 h5 h6 h7 h8 h9 :
  Z.abs h0 <= 4294967296 -> Z.abs h1 <= 4294967296 -> Z.abs h2 <= 4294967296 -> Z.abs h3 <= 4294967296 ->
  Z.abs h4 <= 4294967296 -> Z.abs h5 <= 4294967296 -> Z.abs h6 <= 4294967296 -> Z.abs h7 <= 4294967296 ->
  Z.abs h8 <= 4294967296 -> Z.abs h9 <= 33554432 ->
  exists h, (let! '(h9, carry9) := carry64 25 h9 0 in
    let! c19 := i64 (carry9 * 19) in let! h0 := i64 (h0 + c19) in
    let! '(h1, h2) := carry64 25 h1 h2 in let! '(h3, h4) := carry64 25 h3 h4 in
    let! '(h5, h6) := carry64 25 h5 h6 in let! '(h7, h8) := carry64 25 h7 h8 in
    let! '(h0, h1) := carry64 26 h0 h1 in let! '(h2, h3) := carry64 26 h2 h3 in
    let! '(h4, h5) := carry64 26 h4 h5 in let! '(h6, h7) := carry64 26 h6 h7 in
    let! '(h8, h9) := carry64 26 h8 h9 in
    fe_store h0 h1 h2 h3 h4 h5 h6 h7 h8 h9) = Some h /\
    tight h /\ fe_val h ≡p limbs_val h0 h1 h2 h3 h4 h5 h6 h7 h8 h9.
Proof.
  intros. assert (Z.abs 0 <= 0) by done. assert (Z.abs 19 <= 19) by done.
  chk_carry. do 2 chk_op. do 9 chk_carry. rewrite fe_store_ok by weaken. eexists. split; [reflexivity|]. split.
  - unfold tight, fe_bounded. repeat split; weaken.
  - unfold fe_val, limbs_val. apply (eq_mod_multiple _ _ (- c)). unfold P25519. ring.
Qed.

Lemma le_val_app a b : le_val (a ++ b) = le_val a + 256 ^ Z.of_nat (length a) * le_val b.
Proof.
  induction a as [|x a IH]; cbn [app le_val length]; [lia|].
  rewrite IH, Nat2Z.inj_succ, Z.pow_succ_r by lia. ring.
Qed.

Lemma le_val_range b : Forall is_u8 b -> 0 <= le_val b < 256 ^ Z.of_nat (length b).
Proof.
  induction 1 as [|x b Hx Hb IH]; [done|]. cbn [le_val length]. unfold is_u8 in Hx.
  rewrite Nat2Z.inj_succ, Z.pow_succ_r by lia. lia.
Qed.

(** The top bit of the last octet is ignored. *)
Lemma le_val_255 s : length s = 32%nat -> Forall is_u8 s ->
  le_val s mod 2 ^ 255 = le_val (take 31 s) + 2 ^ 248 * (byte_at s 31 mod 128).
Proof.
  intros Hl Hs. pose proof (byte_at_ok s 31 Hs) as Hb. unfold is_u8 in Hb.
  assert (le_val s = le_val (take 31 s) + 2 ^ 248 * byte_at s 31) as E.
  { rewrite <- (take_drop 31 s) at 1. rewrite le_val_app, length_take, Hl. f_equal.
    do 32 (destruct s as [|? s]; [discriminate|]). destruct s; [|discriminate]. unfold byte_at. cbn [drop le_val nth].
    change (256 ^ Z.of_nat (31 `min` 32)) with (2 ^ 248). ring. }
  pose proof (le_val_range (take 31 s) (Forall_take _ 31 _ Hs)) as Hr. rewrite length_take, Hl in Hr.
  change (256 ^ Z.of_nat (31 `min` 32)) with (2 ^ 248) in Hr. symmetry.
  apply (Z.mod_unique_pos _ _ (byte_at s 31 / 128)); rewrite ?E; revert Hr; generalize (le_val (take 31 s));
    intros v Hr; pose proof (Z.div_mod (byte_at s 31) 128 ltac:(lia)) as Hd;
    pose proof (Z.mod_pos_bound (byte_at s 31) 128 ltac:(lia)); compute_powers; lia.
Qed.

Lemma fe_frombytes_ok s : length s = 32%nat -> Forall is_u8 s ->
  exists h, fe_frombytes s = Some h /\ tight h /\ fe_val h ≡p le_val s mod 2 ^ 255.
Proof.
  intros Hl Hs. assert (forall i, is_u8 (byte_at s i)) as Hb by (intros i; by apply byte_at_ok).
  destruct (load_4_ok s 0) as [L0 R0]; [done..|]. destruct (load_4_ok s 16) as [L5 R5]; [done..|].
  destruct (load_3_ok s 4) as [L1 R1]; [done..|]. destruct (load_3_ok s 7) as [L2 R2]; [done..|].
  destruct (load_3_ok s 10) as [L3 R3]; [done..|]. destruct (load_3_ok s 13) as [L4 R4]; [done..|].
  destruct (load_3_ok s 20) as [L6 R6]; [done..|]. destruct (load_3_ok s 23) as [L7 R7]; [done..|].
  destruct (load_3_ok s 26) as [L8 R8]; [done..|]. destruct (load_3_ok s 29) as [L9 R9]; [done..|].
  unfold fe_frombytes. change 8388607 with (Z.ones 23). rewrite Z.land_ones, !Z.shiftl_mul_pow2 by lia.
  pose proof (Z.mod_pos_bound (load_3 s 29) (2 ^ 23) ltac:(lia)) as R9'.
  edestruct frombytes_carry as (h & E & Ht & Hv); cycle -1.
  { exists h. split; [exact E|]. split; [exact Ht|]. rewrite Hv. clear E Hv.
    assert ((load_3 s 29) mod 2 ^ 23 = byte_at s 29 + 256 * byte_at s 30 + 65536 * (byte_at s 31 mod 128)) as ->.
    { rewrite L9. pose proof (Hb 29%nat). pose proof (Hb 30%nat). unfold is_u8 in *. cbn [Nat.add].
      compute_powers. div_lia. }
    rewrite L0, L1, L2, L3, L4, L5, L6, L7, L8. clear -Hl Hb Hs.
    assert (le_val s mod 2 ^ 255 = le_val (take 31 s) + 2 ^ 248 * (byte_at s 31 mod 128)) as ->.
    { by apply le_val_255. }
    do 32 (destruct s as [|? s]; [discriminate|]). unfold limbs_val, byte_at. cbn [take le_val nth Nat.add].
    unfold eq_mod. f_equal. ring. }
  all: clear -R0 R1 R2 R3 R4 R5 R6 R7 R8 R9'; compute_powers; lia.
Qed.
