(* ===== verification/Scalar.v ===== *)
(** Scalars modulo the order of the base point (curve25519/ed25519/sc_*.c):
    24 limbs of 21 bits in 64-bit variables, reduced by folding the upper limbs
    into the lower ones.  The local variables s0, ..., s23 are a list; the three
    kinds of statements the reduction is made of are the constructors of
    [sc_statement]. *)
From stdpp Require Import base list.
From Stdlib Require Import ZArith Lia.
From S2P Require Import Prelude MachineInt FieldElement.
#[local] Open Scope Z_scope.
#[local] Open Scope checked_scope.

Definition limb_at (s : list Z) (i : nat) : Z := nth i s 0.

(** The multiples of an upper limb that go to six lower ones; [true] for
    [-=]. *)
Definition sc_factors : list (bool * Z) :=
  [(false, 666643); (false, 470296); (false, 654183); (true, 997805); (false, 136657); (true, 683901)].

(** [s_i += x * k] or [s_i -= x * k], for successive [i]. *)
Fixpoint fold_into (x : Z) (i : nat) (ks : list (bool * Z)) (s : list Z) : option (list Z) :=
  match ks with
  | [] => Some s
  | (neg, k) :: ks' =>
      let! t := i64 (x * k) in
      let! v := i64 (if neg then limb_at s i - t else limb_at s i + t) in
      fold_into x (S i) ks' (<[i := v]> s)
  end.

Inductive sc_statement : Type :=
| Fold (i : nat)    (** [s_(i-12) += s_i * 666643; ... s_(i-7) -= s_i * 683901; s_i = 0] *)
| Round (i : nat)   (** [carry = (s_i + (1<<20)) >> 21; s_(i+1) += carry; s_i -= carry << 21] *)
| Floor (i : nat).  (** [carry = s_i >> 21; s_(i+1) += carry; s_i -= carry << 21] *)

Definition sc_run_one (st : sc_statement) (s : list Z) : option (list Z) :=
  match st with
  | Fold i =>
      let! s := fold_into (limb_at s i) (i - 12) sc_factors s in
      Some (<[i := 0]> s)
  | Round i =>
      let! '(lo, hi) := carry64 21 (limb_at s i) (limb_at s (S i)) in
      Some (<[S i := hi]> (<[i := lo]> s))
  | Floor i =>
      let carry := Z.shiftr (limb_at s i) 21 in
      let! hi := i64 (limb_at s (S i) + carry) in
      let! t := i64 (Z.shiftl carry 21) in
      let! lo := i64 (limb_at s i - t) in
      Some (<[S i := hi]> (<[i := lo]> s))
  end.

Fixpoint sc_run (sts : list sc_statement) (s : list Z) : option (list Z) :=
  match sts with
  | [] => Some s
  | st :: sts' => let! s := sc_run_one st s in sc_run sts' s
  end.

(** The statements of [sc_reduce], which [sc_muladd] ends with as well. *)
Definition sc_upper : list sc_statement :=
  [Fold 23; Fold 22; Fold 21; Fold 20; Fold 19; Fold 18; Round 6; Round 8; Round 10; Round 12;
   Round 14; Round 16; Round 7; Round 9; Round 11; Round 13; Round 15].
Definition sc_middle : list sc_statement :=
  [Fold 17; Fold 16; Fold 15; Fold 14; Fold 13; Fold 12; Round 0; Round 2; Round 4; Round 6;
   Round 8; Round 10; Round 1; Round 3; Round 5; Round 7; Round 9; Round 11].
Definition sc_lower : list sc_statement :=
  [Fold 12; Floor 0; Floor 1; Floor 2; Floor 3; Floor 4; Floor 5; Floor 6; Floor 7; Floor 8;
   Floor 9; Floor 10; Floor 11].
Definition sc_last : list sc_statement :=
  [Fold 12; Floor 0; Floor 1; Floor 2; Floor 3; Floor 4; Floor 5; Floor 6; Floor 7; Floor 8;
   Floor 9; Floor 10].
Definition sc_reduction : list sc_statement := sc_upper ++ sc_middle ++ sc_lower ++ sc_last.

(** The carries [sc_muladd] begins with. *)
Definition sc_product_carries : list sc_statement :=
  [Round 0; Round 2; Round 4; Round 6; Round 8; Round 10; Round 12; Round 14; Round 16; Round 18;
   Round 20; Round 22; Round 1; Round 3; Round 5; Round 7; Round 9; Round 11; Round 13; Round 15;
   Round 17; Round 19; Round 21].

(** The limbs of 64 octets. *)
Definition sc_load64 (s : bytes) : list Z :=
  [Z.land 2097151 (load_3 s 0); Z.land 2097151 (Z.shiftr (load_4 s 2) 5);
   Z.land 2097151 (Z.shiftr (load_3 s 5) 2); Z.land 2097151 (Z.shiftr (load_4 s 7) 7);
   Z.land 2097151 (Z.shiftr (load_4 s 10) 4); Z.land 2097151 (Z.shiftr (load_3 s 13) 1);
   Z.land 2097151 (Z.shiftr (load_4 s 15) 6); Z.land 2097151 (Z.shiftr (load_3 s 18) 3);
   Z.land 2097151 (load_3 s 21); Z.land 2097151 (Z.shiftr (load_4 s 23) 5);
   Z.land 2097151 (Z.shiftr (load_3 s 26) 2); Z.land 2097151 (Z.shiftr (load_4 s 28) 7);
   Z.land 2097151 (Z.shiftr (load_4 s 31) 4); Z.land 2097151 (Z.shiftr (load_3 s 34) 1);
   Z.land 2097151 (Z.shiftr (load_4 s 36) 6); Z.land 2097151 (Z.shiftr (load_3 s 39) 3);
   Z.land 2097151 (load_3 s 42); Z.land 2097151 (Z.shiftr (load_4 s 44) 5);
   Z.land 2097151 (Z.shiftr (load_3 s 47) 2); Z.land 2097151 (Z.shiftr (load_4 s 49) 7);
   Z.land 2097151 (Z.shiftr (load_4 s 52) 4); Z.land 2097151 (Z.shiftr (load_3 s 55) 1);
   Z.land 2097151 (Z.shiftr (load_4 s 57) 6); Z.shiftr (load_4 s 60) 3].

(** The limbs of 32 octets. *)
Definition sc_load32 (s : bytes) : list Z :=
  [Z.land 2097151 (load_3 s 0); Z.land 2097151 (Z.shiftr (load_4 s 2) 5);
   Z.land 2097151 (Z.shiftr (load_3 s 5) 2); Z.land 2097151 (Z.shiftr (load_4 s 7) 7);
   Z.land 2097151 (Z.shiftr (load_4 s 10) 4); Z.land 2097151 (Z.shiftr (load_3 s 13) 1);
   Z.land 2097151 (Z.shiftr (load_4 s 15) 6); Z.land 2097151 (Z.shiftr (load_3 s 18) 3);
   Z.land 2097151 (load_3 s 21); Z.land 2097151 (Z.shiftr (load_4 s 23) 5);
   Z.land 2097151 (Z.shiftr (load_3 s 26) 2); Z.shiftr (load_4 s 28) 7].

Definition sc_pack (s0 s1 s2 s3 s4 s5 s6 s7 s8 s9 s10 s11 : Z) : bytes :=
  [u8 (Z.shiftr s0 0); u8 (Z.shiftr s0 8); u8 (Z.lor (Z.shiftr s0 16) (Z.shiftl s1 5));
   u8 (Z.shiftr s1 3); u8 (Z.shiftr s1 11); u8 (Z.lor (Z.shiftr s1 19) (Z.shiftl s2 2));
   u8 (Z.shiftr s2 6); u8 (Z.lor (Z.shiftr s2 14) (Z.shiftl s3 7)); u8 (Z.shiftr s3 1);
   u8 (Z.shiftr s3 9); u8 (Z.lor (Z.shiftr s3 17) (Z.shiftl s4 4)); u8 (Z.shiftr s4 4);
   u8 (Z.shiftr s4 12); u8 (Z.lor (Z.shiftr s4 20) (Z.shiftl s5 1)); u8 (Z.shiftr s5 7);
   u8 (Z.lor (Z.shiftr s5 15) (Z.shiftl s6 6)); u8 (Z.shiftr s6 2); u8 (Z.shiftr s6 10);
   u8 (Z.lor (Z.shiftr s6 18) (Z.shiftl s7 3)); u8 (Z.shiftr s7 5); u8 (Z.shiftr s7 13);
   u8 (Z.shiftr s8 0); u8 (Z.shiftr s8 8); u8 (Z.lor (Z.shiftr s8 16) (Z.shiftl s9 5));
   u8 (Z.shiftr s9 3); u8 (Z.shiftr s9 11); u8 (Z.lor (Z.shiftr s9 19) (Z.shiftl s10 2));
   u8 (Z.shiftr s10 6); u8 (Z.lor (Z.shiftr s10 14) (Z.shiftl s11 7)); u8 (Z.shiftr s11 1);
   u8 (Z.shiftr s11 9); u8 (Z.shiftr s11 17)].

Definition sc_store (s : list Z) : bytes :=
  sc_pack (limb_at s 0) (limb_at s 1) (limb_at s 2) (limb_at s 3) (limb_at s 4) (limb_at s 5)
    (limb_at s 6) (limb_at s 7) (limb_at s 8) (limb_at s 9) (limb_at s 10) (limb_at s 11).

Definition sc_reduce (s : bytes) : option bytes :=
  let! r := sc_run sc_reduction (sc_load64 s) in Some (sc_store r).

(** [acc + a_j * b_(i-j) + a_(j+1) * b_(i-j-1) + ...] over [n] products. *)
Fixpoint sc_dot (a b : list Z) (i j n : nat) (acc : Z) : option Z :=
  match n with
  | O => Some acc
  | S n' =>
      let! t := i64 (limb_at a j * limb_at b (i - j)) in
      let! acc := i64 (acc + t) in
      sc_dot a b i (S j) n' acc
  end.

(** The limbs s0, ..., s22 of [a * b + c]: [c_i + a_0 * b_i + ... + a_i * b_0]
    up to 11, then [a_(i-11) * b_11 + ... + a_11 * b_(i-11)]. *)
Definition sc_product_limb (a b c : list Z) (i : nat) : option Z :=
  if (i <? 12)%nat then sc_dot a b i 0 (S i) (limb_at c i) else sc_dot a b i (i - 11) (23 - i) 0.

Fixpoint sc_product (a b c : list Z) (i n : nat) : option (list Z) :=
  match n with
  | O => Some [0]
  | S n' =>
      let! x := sc_product_limb a b c i in
      let! l := sc_product a b c (S i) n' in
      Some (x :: l)
  end.

Definition sc_muladd (a b c : bytes) : option bytes :=
  let! s := sc_product (sc_load32 a) (sc_load32 b) (sc_load32 c) 0 23 in
  let! r := sc_run (sc_product_carries ++ sc_reduction) s in
  Some (sc_store r).
