(* ===== verification/ScalarProofs.v ===== *)
(** The reduction of scalars: [sc_reduce] and [sc_muladd] return the canonical
    representative modulo the group order, without overflow.  The ranges of the
    limbs are computed by an interval analysis of the list of statements, which
    is proved sound once. *)
From stdpp Require Import base list.
From Stdlib Require Import ZArith Lia.
From S2P Require Import Prelude MachineInt FieldElement FieldEncoding Scalar.
#[local] Open Scope Z_scope.
#[local] Open Scope checked_scope.

(** The order of the base point: 2^252 + 27742317777372353535851937790883648493. *)
Definition L25519 : Z := 7237005577332262213973186563042994240857116359379907606001950938285454250989.

Fixpoint limbs21 (s : list Z) : Z :=
  match s with
  | [] => 0
  | x :: s' => x + 2097152 * limbs21 s'
  end.

Lemma limbs21_insert s : forall i v, (i < length s)%nat ->
  limbs21 (<[i := v]> s) = limbs21 s + 2097152 ^ Z.of_nat i * (v - limb_at s i).
Proof.
  induction s as [|x s IH]; intros [|i] v Hi; cbn [length] in Hi; try lia; cbn [insert list_insert limbs21].
  - unfold limb_at. cbn [nth]. rewrite Z.pow_0_r. ring.
  - change (list_insert i v s) with (<[i := v]> s). rewrite IH by lia. unfold limb_at. cbn [nth].
    rewrite Nat2Z.inj_succ, Z.pow_succ_r by lia. ring.
Qed.

Lemma limb_at_insert s i j v : (i < length s)%nat ->
  limb_at (<[i := v]> s) j = if decide (i = j) then v else limb_at s j.
Proof.
  intros Hi. unfold limb_at. rewrite !nth_lookup. destruct (decide (i = j)) as [->|Hn].
  - by rewrite list_lookup_insert_eq by done.
  - by rewrite list_lookup_insert_ne by done.
Qed.

(** ** Interval analysis *)

Definition iv : Type := Z * Z.
Definition in_iv (x : Z) (r : iv) : Prop := fst r <= x <= snd r.
Definition iv_at (b : list iv) (i : nat) : iv := nth i b (0, 0).

Definition fits64 (r : iv) : bool := (-9223372036854775807 <=? fst r) && (snd r <=? 9223372036854775807).
Definition chk_iv (r : iv) : option iv := if fits64 r then Some r else None.
(** Scaling by a nonnegative factor. *)
Definition iv_scale (r : iv) (k : Z) : iv := (fst r * k, snd r * k).
Definition iv_add (r t : iv) : iv := (fst r + fst t, snd r + snd t).
Definition iv_sub (r t : iv) : iv := (fst r - snd t, snd r - fst t).

Fixpoint iv_fold (x : iv) (i : nat) (ks : list (bool * Z)) (b : list iv) : option (list iv) :=
  match ks with
  | [] => Some b
  | (neg, k) :: ks' =>
      if (0 <=? k) && (i <? length b)%nat then
        let! t := chk_iv (iv_scale x k) in
        let! v := chk_iv (if neg then iv_sub (iv_at b i) t else iv_add (iv_at b i) t) in
        iv_fold x (S i) ks' (<[i := v]> b)
      else None
  end.

(** The carries, where [half] is what is added before the shift. *)
Definition iv_carry (half : Z) (i : nat) (b : list iv) : option (list iv) :=
  let c := ((fst (iv_at b i) + half) / 2097152, (snd (iv_at b i) + half) / 2097152) in
  if (S i <? length b)%nat then
    let! _ := chk_iv (iv_add (iv_at b i) (half, half)) in
    let! hi := chk_iv (iv_add (iv_at b (S i)) c) in
    let! _ := chk_iv (iv_scale c 2097152) in
    Some (<[S i := hi]> (<[i := (- half, 2097151 - half)]> b))
  else None.

Definition iv_run_one (st : sc_statement) (b : list iv) : option (list iv) :=
  match st with
  | Fold i =>
      if (12 <=? i)%nat && (i <? length b)%nat then
        let! b := iv_fold (iv_at b i) (i - 12) sc_factors b in Some (<[i := (0, 0)]> b)
      else None
  | Round i => iv_carry 1048576 i b
  | Floor i => iv_carry 0 i b
  end.

Fixpoint iv_run (sts : list sc_statement) (b : list iv) : option (list iv) :=
  match sts with
  | [] => Some b
  | st :: sts' => let! b := iv_run_one st b in iv_run sts' b
  end.

Lemma chk_iv_ok r r' x : chk_iv r = Some r' -> in_iv x r -> i64 x = Some x /\ in_iv x r'.
Proof.
  unfold chk_iv, fits64. destruct (Z.leb_spec (-9223372036854775807) (fst r)); [|done].
  destruct (Z.leb_spec (snd r) 9223372036854775807); [|done]. intros [= <-] Hx. split; [|done].
  apply i64_ok. unfold in_iv in Hx. lia.
Qed.

Lemma iv_at_ok s b i : Forall2 in_iv s b -> in_iv (limb_at s i) (iv_at b i).
Proof.
  intros H. revert i. unfold limb_at, iv_at. induction H as [|x r s b Hx H IH]; intros [|i]; cbn; try done.
Qed.

Lemma insert_ok s b i x r : Forall2 in_iv s b -> in_iv x r -> Forall2 in_iv (<[i := x]> s) (<[i := r]> b).
Proof. intros. by apply Forall2_insert. Qed.

Lemma iv_scale_ok x r k : in_iv x r -> 0 <= k -> in_iv (x * k) (iv_scale r k).
Proof. unfold in_iv. cbn. intros [H1 H2] Hk. split; apply Z.mul_le_mono_nonneg_r; lia. Qed.

(** The sum of multiples a fold adds. *)
Fixpoint factors_val (ks : list (bool * Z)) : Z :=
  match ks with
  | [] => 0
  | (neg, k) :: ks' => (if neg : bool then - k else k) + 2097152 * factors_val ks'
  end.

Lemma iv_fold_ok x r : in_iv x r -> forall ks i s b b', Forall2 in_iv s b -> iv_fold r i ks b = Some b' ->
  exists s', fold_into x i ks s = Some s' /\ Forall2 in_iv s' b' /\ length s' = length s /\
    limbs21 s' = limbs21 s + 2097152 ^ Z.of_nat i * (x * factors_val ks) /\
    (forall j, (i + length ks <= j)%nat -> limb_at s' j = limb_at s j).
Proof.
  intros Hx. induction ks as [|[neg k] ks IH]; intros i s b b' Hs E; cbn [iv_fold fold_into] in *.
  { inversion E; subst. exists s. split_and!; try done. cbn [factors_val]. ring. }
  destruct (Z.leb_spec 0 k) as [Hk|]; [|done]. destruct (Nat.ltb_spec i (length b)) as [Hi|]; [|done]. cbn [andb] in E.
  rewrite <- (Forall2_length _ _ _ Hs) in Hi.
  destruct (chk_iv (iv_scale r k)) as [t|] eqn:Et; [|done].
  destruct (chk_iv_ok _ _ (x * k) Et) as [-> Ht]; [by apply iv_scale_ok|].
  destruct (chk_iv (if neg then _ else _)) as [v|] eqn:Ev; [|done].
  pose proof (iv_at_ok s b i Hs) as Hl.
  destruct (chk_iv_ok _ _ (if neg then limb_at s i - x * k else limb_at s i + x * k) Ev) as [-> Hv].
  { destruct neg; unfold in_iv, iv_sub, iv_add in *; cbn [fst snd]; lia. }
  destruct (IH _ _ _ _ (insert_ok _ _ i _ _ Hs Hv) E) as (s' & E' & Hs' & Hlen & Hval & Hsame).
  exists s'. split; [exact E'|]. split; [exact Hs'|]. rewrite length_insert in Hlen. split; [exact Hlen|]. split.
  - rewrite Hval, limbs21_insert by done. cbn [factors_val].
    rewrite Nat2Z.inj_succ, Z.pow_succ_r by lia. destruct neg; ring.
  - intros j Hj. cbn [length] in Hj. rewrite Hsame by lia. rewrite limb_at_insert by done.
    by rewrite decide_False by lia.
Qed.

(** A carry moves a multiple of 2^21 to the next limb. *)
Lemma iv_carry_ok half i s b b' : 0 <= half <= 2097151 -> Forall2 in_iv s b -> iv_carry half i b = Some b' ->
  let lo := limb_at s i in
  let hi := limb_at s (S i) in
  let c := (lo + half) / 2097152 in
  let s' := <[S i := hi + c]> (<[i := lo - c * 2097152]> s) in
  i64 (lo + half) = Some (lo + half) /\ i64 (hi + c) = Some (hi + c) /\
  i64 (c * 2097152) = Some (c * 2097152) /\ i64 (lo - c * 2097152) = Some (lo - c * 2097152) /\
  Forall2 in_iv s' b' /\ length s' = length s /\ limbs21 s' = limbs21 s.
Proof.
  intros Hh Hs E lo hi c s'. unfold iv_carry in E. destruct (Nat.ltb_spec (S i) (length b)) as [Hi|]; [|done].
  rewrite <- (Forall2_length _ _ _ Hs) in Hi. pose proof (iv_at_ok s b i Hs) as Hlo. fold lo in Hlo.
  pose proof (iv_at_ok s b (S i) Hs) as Hhi. fold hi in Hhi. set (l := iv_at b i) in *. set (h := iv_at b (S i)) in *.
  assert (in_iv c ((fst l + half) / 2097152, (snd l + half) / 2097152)) as Hc.
  { unfold in_iv in *. cbn [fst snd]. split; apply Z.div_le_mono; lia. }
  destruct (chk_iv (iv_add l (half, half))) as [t1|] eqn:E1; [|done].
  destruct (chk_iv_ok _ _ (lo + half) E1) as [K1 _]; [unfold in_iv, iv_add in *; cbn [fst snd]; lia|].
  destruct (chk_iv (iv_add h _)) as [v|] eqn:E2; [|done].
  destruct (chk_iv_ok _ _ (hi + c) E2) as [K2 Hv]; [unfold in_iv, iv_add in *; cbn [fst snd] in *; lia|].
  destruct (chk_iv (iv_scale _ _)) as [t3|] eqn:E3; [|done].
  destruct (chk_iv_ok _ _ (c * 2097152) E3) as [K3 _]; [by apply iv_scale_ok|]. inversion E; subst b'. clear E.
  assert (- half <= lo - c * 2097152 <= 2097151 - half) as Hr.
  { unfold c. pose proof (Z.div_mod (lo + half) 2097152 ltac:(lia)).
    pose proof (Z.mod_pos_bound (lo + half) 2097152 ltac:(lia)). lia. }
  split; [done|]. split; [done|]. split; [done|]. split; [apply i64_ok; lia|].
  split; [by apply insert_ok; [apply insert_ok|]|]. unfold s'. rewrite !length_insert. split; [done|].
  rewrite limbs21_insert by (rewrite length_insert; lia). rewrite limbs21_insert by lia.
  rewrite limb_at_insert by lia. rewrite decide_False by lia. fold lo hi.
  rewrite Nat2Z.inj_succ, Z.pow_succ_r by lia. ring.
Qed.

Definition is_carry (st : sc_statement) : bool := match st with Fold _ => false | _ => true end.

(** A statement does not overflow, stays in its intervals and changes the
    value by a multiple of the order, a carry not at all. *)
Lemma sc_run_one_ok st s b b' : Forall2 in_iv s b -> iv_run_one st b = Some b' ->
  exists s' k, sc_run_one st s = Some s' /\ Forall2 in_iv s' b' /\ limbs21 s' = limbs21 s + k * L25519 /\
    (is_carry st = true -> k = 0) /\ (st = Fold 12 -> k = - limb_at s 12).
Proof.
  intros Hs E. destruct st as [i|i|i]; cbn [iv_run_one sc_run_one is_carry] in *.
  - destruct (Nat.leb_spec 12 i) as [H12|]; [|done]. destruct (Nat.ltb_spec i (length b)) as [Hi|]; [|done].
    rewrite <- (Forall2_length _ _ _ Hs) in Hi. cbn [andb] in E.
    destruct (iv_fold _ _ _ _) as [b1|] eqn:E1; [|done]. inversion E; subst b'.
    destruct (iv_fold_ok _ _ (iv_at_ok s b i Hs) _ _ _ _ _ Hs E1) as (s1 & F1 & Hs1 & Hlen & Hval & Hsame).
    rewrite F1. exists (<[i := 0]> s1), (- limb_at s i * 2097152 ^ Z.of_nat (i - 12)).
    split; [reflexivity|]. split; [by apply insert_ok|].
    split; [|split; [done|intros [= ->]; change (2097152 ^ Z.of_nat (12 - 12)) with 1; ring]].
    rewrite limbs21_insert by lia. rewrite Hsame by (cbn; lia). rewrite Hval.
    replace (Z.of_nat i) with (12 + Z.of_nat (i - 12)) by lia. rewrite Z.pow_add_r by lia.
    change (factors_val sc_factors) with (2097152 ^ 12 - L25519).
    ring.
  - destruct (iv_carry_ok 1048576 i s b b' ltac:(lia) Hs E) as (K1 & K2 & K3 & K4 & H5 & H6 & H7).
    eexists _, 0. split; [|split; [exact H5|split; [rewrite H7; ring|done]]].
    unfold carry64. change (2 ^ (21 - 1)) with 1048576. rewrite K1, Z.shiftr_div_pow2 by lia.
    change (2 ^ 21) with 2097152. rewrite K2, Z.shiftl_mul_pow2 by lia. change (2 ^ 21) with 2097152.
    by rewrite K3, K4.
  - destruct (iv_carry_ok 0 i s b b' ltac:(lia) Hs E) as (K1 & K2 & K3 & K4 & H5 & H6 & H7).
    rewrite Z.add_0_r in *.
    eexists _, 0. split; [|split; [exact H5|split; [rewrite H7; ring|done]]].
    rewrite Z.shiftr_div_pow2 by lia. change (2 ^ 21) with 2097152. rewrite K2, Z.shiftl_mul_pow2 by lia.
    change (2 ^ 21) with 2097152. by rewrite K3, K4.
Qed.

Lemma sc_run_ok sts : forall s b b', Forall2 in_iv s b -> iv_run sts b = Some b' ->
  exists s' k, sc_run sts s = Some s' /\ Forall2 in_iv s' b' /\ limbs21 s' = limbs21 s + k * L25519 /\
    (forallb is_carry sts = true -> k = 0).
Proof.
  induction sts as [|st sts IH]; intros s b b' Hs E; cbn [iv_run sc_run] in *.
  { inversion E; subst. exists s, 0. split_and!; try done. ring. }
  destruct (iv_run_one st b) as [b1|] eqn:E1; [|done].
  destruct (sc_run_one_ok _ _ _ _ Hs E1) as (s1 & k1 & F1 & H1 & V1 & C1 & _). rewrite F1.
  destruct (IH _ _ _ H1 E) as (s2 & k2 & F2 & H2 & V2 & C2). exists s2, (k1 + k2).
  split; [done|]. split; [done|]. split; [rewrite V2, V1; ring|]. cbn [forallb]. intros [Ha Hb]%andb_prop.
  rewrite (C1 Ha), (C2 Hb). done.
Qed.

Lemma sc_run_app a b s : sc_run (a ++ b) s = let! s := sc_run a s in sc_run b s.
Proof.
  revert s. induction a as [|st a IH]; intros s; cbn [app sc_run]; [done|].
  destruct (sc_run_one st s); [apply IH|done].
Qed.

(** The range of a value from the ranges of its limbs. *)
Fixpoint limbs_iv (b : list iv) : iv :=
  match b with
  | [] => (0, 0)
  | r :: b' => iv_add r (iv_scale (limbs_iv b') 2097152)
  end.
Lemma limbs_iv_ok s b : Forall2 in_iv s b -> in_iv (limbs21 s) (limbs_iv b).
Proof.
  induction 1 as [|x r s b Hx H IH]; [done|]. cbn [limbs21 limbs_iv]. unfold in_iv, iv_add, iv_scale in *. cbn [fst snd].
  lia.
Qed.

Definition limb21 (x : Z) : Prop := 0 <= x < 2097152.

Ltac join21 h n k :=
  rewrite (u8_join (Z.shiftr h n) _ k) by
    (rewrite ?Z.shiftr_div_pow2 by lia; unfold limb21 in *; (lia || (cbn; div_lia)));
  rewrite (Z.shiftr_div_pow2 h n) by lia.

Lemma sc_pack_val s0 s1 s2 s3 s4 s5 s6 s7 s8 s9 s10 s11 :
  Forall limb21 [s0; s1; s2; s3; s4; s5; s6; s7; s8; s9; s10] -> 0 <= s11 < 33554432 ->
  le_val (sc_pack s0 s1 s2 s3 s4 s5 s6 s7 s8 s9 s10 s11) =
  limbs21 [s0; s1; s2; s3; s4; s5; s6; s7; s8; s9; s10; s11].
Proof.
  intros H H11. repeat (apply Forall_cons_1 in H as [? H]). clear H. unfold sc_pack.
  join21 s0 16 5. join21 s1 19 2. join21 s2 14 7. join21 s3 17 4. join21 s4 20 1. join21 s5 15 6.
  join21 s6 18 3. join21 s8 16 5. join21 s9 19 2. join21 s10 14 7. rewrite !u8_shiftr by lia.
  assert ((s7 / 2 ^ 13) mod 256 = s7 / 2 ^ 13) as -> by (unfold limb21 in *; cbn; apply Z.mod_small; div_lia).
  assert ((s11 / 2 ^ 17) mod 256 = s11 / 2 ^ 17) as -> by (cbn; apply Z.mod_small; div_lia).
  pose proof (octet_of s0 8 ltac:(lia)). pose proof (octets_of s1 3 ltac:(lia)).
  pose proof (octet_of s2 6 ltac:(lia)). pose proof (octets_of s3 1 ltac:(lia)).
  pose proof (octets_of s4 4 ltac:(lia)). pose proof (octet_of s5 7 ltac:(lia)).
  pose proof (octets_of s6 2 ltac:(lia)). pose proof (octet_of s7 5 ltac:(lia)).
  pose proof (octet_of s8 8 ltac:(lia)). pose proof (octets_of s9 3 ltac:(lia)).
  pose proof (octet_of s10 6 ltac:(lia)). pose proof (octets_of s11 1 ltac:(lia)).
  cbn [le_val limbs21]. compute_powers. rewrite !Z.div_1_r. lia.
Qed.

Lemma sc_pack_shape s0 s1 s2 s3 s4 s5 s6 s7 s8 s9 s10 s11 :
  length (sc_pack s0 s1 s2 s3 s4 s5 s6 s7 s8 s9 s10 s11) = 32%nat /\
  Forall is_u8 (sc_pack s0 s1 s2 s3 s4 s5 s6 s7 s8 s9 s10 s11).
Proof.
  split; [done|]. unfold sc_pack, u8. repeat (constructor; [apply Z.mod_pos_bound; done|]). constructor.
Qed.

Lemma limbs21_split n : forall s, limbs21 s = limbs21 (take n s) + 2097152 ^ Z.of_nat n * limbs21 (drop n s).
Proof.
  induction n as [|n IH]; intros [|x s]; cbn [take drop limbs21]; try (cbn; lia).
  rewrite (IH s), Nat2Z.inj_succ, Z.pow_succ_r by lia. cbn [limbs21]. ring.
Qed.

(** The three parts of the reduction: everything up to a value between
    [-2^252] and [2^252], its carries, and the final correction. *)
Definition sc_first : list sc_statement := sc_upper ++ sc_middle ++ [Fold 12].
Definition sc_floors : list sc_statement := map Floor (seq 0 12).
Definition sc_end : list sc_statement := map Floor (seq 0 11).
Lemma sc_reduction_parts : sc_reduction = sc_first ++ sc_floors ++ Fold 12 :: sc_end.
Proof. reflexivity. Qed.

(** What the analysis has to show of the intervals [b] of the limbs. *)
Definition sc_ready (b : list iv) : bool :=
  match iv_run sc_first b with
  | None => false
  | Some b1 =>
      match iv_run sc_floors b1 with
      | None => false
      | Some b2 =>
          match iv_run (Fold 12 :: sc_end) b2 with
          | None => false
          | Some b3 => (- 2 ^ 252 <=? fst (limbs_iv b1)) && (snd (limbs_iv b1) <? 2 ^ 252) &&
              bool_decide (length b2 = 24%nat /\ take 12 b2 = replicate 12 (0, 2097151) /\
                drop 13 b2 = replicate 11 (0, 0) /\ length b3 = 24%nat /\ take 11 b3 = replicate 11 (0, 2097151) /\
                drop 12 b3 = replicate 12 (0, 0))
          end
      end
  end.

Lemma limbs21_range l : Forall limb21 l -> 0 <= limbs21 l < 2097152 ^ Z.of_nat (length l).
Proof.
  induction 1 as [|x l Hx Hl IH]; [done|]. cbn [limbs21 length]. unfold limb21 in Hx.
  rewrite Nat2Z.inj_succ, Z.pow_succ_r by lia. lia.
Qed.

Lemma limbs21_app a b : limbs21 (a ++ b) = limbs21 a + 2097152 ^ Z.of_nat (length a) * limbs21 b.
Proof.
  induction a as [|x a IH]; cbn [app limbs21 length]; [cbn; lia|].
  rewrite IH, Nat2Z.inj_succ, Z.pow_succ_r by lia. ring.
Qed.

Lemma in_iv_replicate n r : forall l, Forall2 in_iv l (replicate n r) -> Forall (fun x => in_iv x r) l.
Proof.
  induction n as [|n IH]; intros l H; cbn [replicate] in H; inversion H; subst; constructor; auto.
Qed.

(** After the carries: digits below the limb [n] and zeros above. *)
Lemma top_limb n m s b : Forall2 in_iv s b -> (n < length b)%nat ->
  take n b = replicate n (0, 2097151) -> drop (S n) b = replicate m (0, 0) ->
  limbs21 s = limbs21 (take n s ++ [limb_at s n]) /\ Forall limb21 (take n s) /\ length (take n s) = n.
Proof.
  intros Hs Hn Ht Hd. pose proof (Forall2_take _ _ _ n Hs) as H1. rewrite Ht in H1.
  pose proof (Forall2_drop _ _ _ (S n) Hs) as H2. rewrite Hd in H2. rewrite <- (Forall2_length _ _ _ Hs) in Hn.
  pose proof (in_iv_replicate _ _ _ H1) as H1'. pose proof (in_iv_replicate _ _ _ H2) as H2'.
  split; [|split].
  - rewrite (limbs21_split n s), limbs21_app, length_take, Nat.min_l by lia. f_equal. f_equal.
    destruct (lookup_lt_is_Some_2 s n Hn) as [x Hx]. rewrite (drop_S s x n Hx). unfold limb_at. rewrite nth_lookup, Hx.
    cbn [limbs21 default from_option id]. f_equal. f_equal. clear -H2'.
    induction H2' as [|y l Hy Hl IH]; [done|]. cbn. unfold in_iv in Hy. cbn in Hy. lia.
  - eapply Forall_impl; [exact H1'|]. intros x [Hx1 Hx2]. cbn in *. split; lia.
  - rewrite length_take. lia.
Qed.

Lemma sc_reduction_ok s b : Forall2 in_iv s b -> sc_ready b = true ->
  exists r, sc_run sc_reduction s = Some r /\ length (sc_store r) = 32%nat /\ Forall is_u8 (sc_store r) /\
    le_val (sc_store r) = limbs21 s mod L25519.
Proof.
  intros Hs Hb. unfold sc_ready in Hb. destruct (iv_run sc_first b) as [b1|] eqn:E1; [|done].
  destruct (iv_run sc_floors b1) as [b2|] eqn:E2; [|done].
  destruct (iv_run (Fold 12 :: sc_end) b2) as [b3|] eqn:E3; [|done].
  apply andb_prop in Hb as [[Hlo%Z.leb_le Hhi%Z.ltb_lt]%andb_prop (L2 & T2 & D2 & L3 & T3 & D3)%bool_decide_eq_true].
  destruct (sc_run_ok _ _ _ _ Hs E1) as (s1 & k1 & R1 & H1 & V1 & _).
  destruct (sc_run_ok _ _ _ _ H1 E2) as (s2 & k2 & R2 & H2 & V2 & C2). rewrite C2 in V2 by done.
  cbn [iv_run] in E3. destruct (iv_run_one (Fold 12) b2) as [b4|] eqn:E4; [|done].
  destruct (sc_run_one_ok _ _ _ _ H2 E4) as (s3 & k3 & R3 & H3 & V3 & _ & K3). rewrite K3 in V3 by done.
  destruct (sc_run_ok _ _ _ _ H3 E3) as (s4 & k4 & R4 & H4 & V4 & C4). rewrite C4 in V4 by done.
  exists s4. split.
  { rewrite sc_reduction_parts, sc_run_app, R1, sc_run_app, R2. cbn [sc_run]. by rewrite R3. }
  unfold sc_store. edestruct sc_pack_shape as [S1 S2]. split; [exact S1|]. split; [exact S2|]. clear S1 S2.
  destruct (top_limb 12 11 s2 b2 H2 ltac:(lia) T2 D2) as (X2 & F2 & N2).
  destruct (top_limb 11 12 s4 b3 H4 ltac:(lia) T3 D3) as (X4 & F4 & N4).
  pose proof (limbs_iv_ok _ _ H1) as B1. unfold in_iv in B1.
  assert (0 <= limbs21 s4 < L25519) as Hrange.
  { pose proof (limbs21_range _ F2) as Y2. rewrite N2 in Y2. rewrite limbs21_app, N2 in X2. cbn [limbs21] in X2.
    change (2097152 ^ Z.of_nat 12) with (2 ^ 252) in *. rewrite V4, V3, V2.
    revert Hlo Hhi B1 X2 Y2 V2. generalize (limbs21 s1), (limbs21 s2), (limbs21 (take 12 s2)), (limb_at s2 12).
    unfold L25519. compute_powers. clear. intros. lia. }
  assert (0 <= limb_at s4 11 < 33554432) as F11.
  { pose proof (limbs21_range _ F4) as Y4. rewrite N4 in Y4. rewrite limbs21_app, N4 in X4. cbn [limbs21] in X4.
    change (2097152 ^ Z.of_nat 11) with (2 ^ 231) in *. revert X4 Y4 Hrange.
    generalize (limbs21 s4), (limbs21 (take 11 s4)), (limb_at s4 11). unfold L25519. compute_powers. clear. lia. }
  pose proof (Forall2_length _ _ _ H4) as N5. rewrite L3 in N5.
  assert (take 11 s4 = [limb_at s4 0; limb_at s4 1; limb_at s4 2; limb_at s4 3; limb_at s4 4;
    limb_at s4 5; limb_at s4 6; limb_at s4 7; limb_at s4 8; limb_at s4 9; limb_at s4 10]) as El.
  { clear -N5. do 12 (destruct s4 as [|? s4]; [discriminate|]). done. }
  rewrite El in F4, X4. rewrite sc_pack_val by done. cbn [app] in X4. rewrite <- X4.
  apply (Z.mod_unique_pos (limbs21 s) L25519 (- (k1 - limb_at s2 12))); [done|]. rewrite V4, V3, V2, V1. ring.
Qed.

(** ** Loading *)

Lemma le_val_drop s i : Forall is_u8 s -> (i <= length s)%nat -> le_val (drop i s) = le_val s / 256 ^ Z.of_nat i.
Proof.
  intros Hs Hi. rewrite <- (take_drop i s) at 2. rewrite le_val_app, length_take, Nat.min_l by done.
  pose proof (le_val_range _ (Forall_take _ i _ Hs)) as Hr. rewrite length_take, Nat.min_l in Hr by done.
  rewrite Z.mul_comm, Z.div_add, Z.div_small by lia. done.
Qed.

(** [n] octets from [i], as bits of the whole. *)
Lemma le_val_octets s i n : Forall is_u8 s -> (i + n <= length s)%nat ->
  le_val (take n (drop i s)) = (le_val s / 256 ^ Z.of_nat i) mod 256 ^ Z.of_nat n.
Proof.
  intros Hs Hi. rewrite <- le_val_drop by (done || lia). set (d := drop i s).
  assert (Forall is_u8 (take n d)) as Hd by (apply Forall_take, Forall_drop, Hs).
  assert (length (take n d) = n) as Hn by (unfold d; rewrite length_take, length_drop; lia).
  pose proof (le_val_range _ Hd) as Hr. rewrite Hn in Hr.
  apply (Z.mod_unique_pos _ _ (le_val (drop n d))); [done|].
  rewrite <- (take_drop n d) at 1. rewrite le_val_app, Hn. ring.
Qed.

Lemma take_drop_nth s i n : (i + n <= length s)%nat -> take n (drop i s) = map (fun j => byte_at s (i + j)) (seq 0 n).
Proof.
  intros H. apply list_eq. intros k. destruct (Nat.lt_ge_cases k n) as [Hk|Hk].
  - rewrite lookup_take, decide_True, lookup_drop by done. change (map ?f ?l) with (f <$> l).
    rewrite list_lookup_fmap, lookup_seq_lt by done. cbn. unfold byte_at. rewrite nth_lookup.
    destruct (lookup_lt_is_Some_2 s (i + k)) as [x Hx]; [lia|]. by rewrite Hx.
  - rewrite !lookup_ge_None_2; [done|rewrite length_map, length_seq; lia|rewrite length_take; lia].
Qed.

Lemma load_3_bits s i : Forall is_u8 s -> (i + 3 <= length s)%nat ->
  load_3 s i = (le_val s / 256 ^ Z.of_nat i) mod 2 ^ 24.
Proof.
  intros Hs Hi. change (2 ^ 24) with (256 ^ Z.of_nat 3). rewrite <- le_val_octets, take_drop_nth by done.
  destruct (load_3_ok s i) as [-> _]; [by apply byte_at_ok..|]. cbn [map seq le_val]. rewrite Nat.add_0_r. ring.
Qed.
Lemma load_4_bits s i : Forall is_u8 s -> (i + 4 <= length s)%nat ->
  load_4 s i = (le_val s / 256 ^ Z.of_nat i) mod 2 ^ 32.
Proof.
  intros Hs Hi. change (2 ^ 32) with (256 ^ Z.of_nat 4). rewrite <- le_val_octets, take_drop_nth by done.
  destruct (load_4_ok s i) as [-> _]; [by apply byte_at_ok..|]. cbn [map seq le_val]. rewrite Nat.add_0_r. ring.
Qed.

(** Bits of bits. *)
Lemma bits_of_bits v a w r n : 0 <= a -> 0 <= r -> 0 <= n -> n + r <= w ->
  Z.land (Z.ones n) (Z.shiftr ((v / 2 ^ a) mod 2 ^ w) r) = (v / 2 ^ (a + r)) mod 2 ^ n.
Proof.
  intros Ha Hr Hn Hw. rewrite Z.land_comm, Z.land_ones by lia. apply Z.bits_inj'. intros i Hi.
  destruct (Z.lt_ge_cases i n) as [H|H].
  - rewrite !Z.mod_pow2_bits_low by lia. rewrite Z.shiftr_spec by lia. rewrite Z.mod_pow2_bits_low by lia.
    rewrite <- !Z.shiftr_div_pow2 by lia. rewrite !Z.shiftr_spec by lia. f_equal. lia.
  - by rewrite !Z.mod_pow2_bits_high by lia.
Qed.

Definition digit21 (v : Z) (i : nat) : Z := (v / 2097152 ^ Z.of_nat i) mod 2097152.

Lemma limbs21_digits v n : limbs21 (map (digit21 v) (seq 0 n)) = v mod 2097152 ^ Z.of_nat n.
Proof.
  induction n as [|n IH]; [cbn; by rewrite Z.mod_1_r|].
  rewrite seq_S, map_app, limbs21_app, IH, length_map, length_seq. cbn [map limbs21 Nat.add].
  rewrite Nat2Z.inj_succ, Z.pow_succ_r, (Z.mul_comm 2097152 (_ ^ _)) by lia.
  rewrite Z.rem_mul_r by (try apply Z.pow_nonzero; lia). unfold digit21. ring.
Qed.

Lemma digit21_range v i : in_iv (digit21 v i) (0, 2097151).
Proof. unfold in_iv, digit21. cbn. pose proof (Z.mod_pos_bound (v / 2097152 ^ Z.of_nat i) 2097152). lia. Qed.

(** One load of the table: [i] octets in, [r] bits further. *)
Ltac load_digit :=
  lazymatch goal with
  | |- Z.land 2097151 (Z.shiftr ?l ?r) = _ => idtac
  | |- Z.land 2097151 ?l = _ => rewrite <- (Z.shiftr_0_r l)
  end;
  first [rewrite load_3_bits by (done || lia) | rewrite load_4_bits by (done || lia)];
  change 2097151 with (Z.ones 21);
  lazymatch goal with
  | |- context [256 ^ ?i] => let e := eval vm_compute in (8 * i) in change (256 ^ i) with (2 ^ e)
  end;
  rewrite bits_of_bits by lia; reflexivity.

Lemma sc_load64_digits s : length s = 64%nat -> Forall is_u8 s ->
  sc_load64 s = map (digit21 (le_val s)) (seq 0 23) ++ [le_val s / 2 ^ 483].
Proof.
  intros Hl Hs. unfold sc_load64. cbn [map seq app].
  repeat (apply f_equal2; [try load_digit|]); [|done].
  rewrite load_4_bits by (done || lia). rewrite Z.shiftr_div_pow2 by lia.
  pose proof (le_val_range s Hs) as Hr. rewrite Hl in Hr. change (256 ^ Z.of_nat 64) with (2 ^ 512) in Hr.
  change (256 ^ Z.of_nat 60) with (2 ^ 480).
  rewrite Z.mod_small, Z.div_div by (compute_powers; (lia || (revert Hr; generalize (le_val s); compute_powers; intros; div_lia))).
  done.
Qed.

Lemma sc_load32_digits s : length s = 32%nat -> Forall is_u8 s ->
  sc_load32 s = map (digit21 (le_val s)) (seq 0 11) ++ [le_val s / 2 ^ 231].
Proof.
  intros Hl Hs. unfold sc_load32. cbn [map seq app].
  repeat (apply f_equal2; [try load_digit|]); [|done].
  rewrite load_4_bits by (done || lia). rewrite Z.shiftr_div_pow2 by lia.
  pose proof (le_val_range s Hs) as Hr. rewrite Hl in Hr. change (256 ^ Z.of_nat 32) with (2 ^ 256) in Hr.
  change (256 ^ Z.of_nat 28) with (2 ^ 224).
  rewrite Z.mod_small, Z.div_div by (compute_powers; (lia || (revert Hr; generalize (le_val s); compute_powers; intros; div_lia))).
  done.
Qed.

(** The limbs of a number with [n] digits and a rest above them. *)
Lemma limbs21_split_digits v n : limbs21 (map (digit21 v) (seq 0 n) ++ [v / 2097152 ^ Z.of_nat n]) = v.
Proof.
  rewrite limbs21_app, limbs21_digits, length_map, length_seq. cbn [limbs21].
  pose proof (Z.div_mod v (2097152 ^ Z.of_nat n)) as H. rewrite H at 3; [ring|]. apply Z.pow_nonzero; lia.
Qed.

Lemma digits_iv v n top : in_iv (v / 2097152 ^ Z.of_nat n) (0, top) ->
  Forall2 in_iv (map (digit21 v) (seq 0 n) ++ [v / 2097152 ^ Z.of_nat n]) (replicate n (0, 2097151) ++ [(0, top)]).
Proof.
  intros Ht. apply Forall2_app; [|by constructor]. clear Ht. generalize 0%nat.
  induction n as [|n IH]; intros k; cbn; [constructor|]. constructor; [apply digit21_range|apply IH].
Qed.

Lemma sc_reduce_ok s : length s = 64%nat -> Forall is_u8 s ->
  exists r, sc_reduce s = Some r /\ length r = 32%nat /\ Forall is_u8 r /\ le_val r = le_val s mod L25519.
Proof.
  intros Hl Hs. pose proof (le_val_range s Hs) as Hr. rewrite Hl in Hr. change (256 ^ Z.of_nat 64) with (2 ^ 512) in Hr.
  edestruct (sc_reduction_ok (sc_load64 s) (replicate 23 (0, 2097151) ++ [(0, 536870911)])) as (r & E & H1 & H2 & H3).
  - rewrite sc_load64_digits by done. apply (digits_iv (le_val s) 23). unfold in_iv. cbn [fst snd].
    change (2097152 ^ Z.of_nat 23) with (2 ^ 483). revert Hr. generalize (le_val s). compute_powers. intros; div_lia.
  - vm_compute. reflexivity.
  - exists (sc_store r). unfold sc_reduce. rewrite E. split; [done|]. split; [done|]. split; [done|].
    rewrite H3, sc_load64_digits by done. f_equal. apply (limbs21_split_digits (le_val s) 23).
Qed.

(** ** Multiplication *)

Fixpoint dot (a b : list Z) (i j n : nat) : Z :=
  match n with
  | O => 0
  | S n' => limb_at a j * limb_at b (i - j) + dot a b i (S j) n'
  end.

Definition small_limbs (a : list Z) : Prop := forall j, 0 <= limb_at a j <= 33554431.

Lemma sc_dot_ok a b i n : small_limbs a -> small_limbs b -> forall j acc A, 0 <= acc <= A ->
  A + Z.of_nat n * 1125899906842624 <= 9223372036854775807 ->
  sc_dot a b i j n acc = Some (acc + dot a b i j n) /\
  0 <= acc + dot a b i j n <= A + Z.of_nat n * 1125899906842624.
Proof.
  intros Ha Hb. induction n as [|n IH]; intros j acc A Hacc HA; cbn [sc_dot dot].
  { rewrite Z.add_0_r. split; [done|lia]. }
  assert (0 <= limb_at a j * limb_at b (i - j) <= 1125899906842624) as Ht.
  { specialize (Ha j). specialize (Hb (i - j)%nat). nia. }
  rewrite i64_ok by lia. rewrite i64_ok by lia. rewrite Z.add_assoc.
  destruct (IH (S j) (acc + limb_at a j * limb_at b (i - j)) (A + 1125899906842624)) as [E R]; [lia|lia|].
  split; [exact E|lia].
Qed.

Definition product_limb (a b c : list Z) (i : nat) : Z :=
  if (i <? 12)%nat then limb_at c i + dot a b i 0 (S i) else 0 + dot a b i (i - 11) (23 - i).

Lemma sc_product_ok a b c : small_limbs a -> small_limbs b -> small_limbs c -> forall n i,
  sc_product a b c i n = Some (map (product_limb a b c) (seq i n) ++ [0]) /\
  Forall2 in_iv (map (product_limb a b c) (seq i n) ++ [0]) (replicate n (0, 13510798915665919) ++ [(0, 0)]).
Proof.
  intros Ha Hb Hc. induction n as [|n IH]; intros i; cbn [sc_product seq map replicate app].
  { split; [done|]. by constructor. }
  assert (sc_product_limb a b c i = Some (product_limb a b c i) /\
    in_iv (product_limb a b c i) (0, 13510798915665919)) as [E R].
  { unfold sc_product_limb, product_limb, in_iv. cbn [fst snd]. destruct (Nat.ltb_spec i 12) as [Hi|Hi].
    - destruct (sc_dot_ok a b i (S i) Ha Hb 0 (limb_at c i) 33554431 (Hc i)) as [E R]; [lia|]. split; [exact E|lia].
    - destruct (sc_dot_ok a b i (23 - i) Ha Hb (i - 11) 0 0) as [E R]; [lia|lia|]. split; [exact E|lia]. }
  destruct (IH (S i)) as [E' R']. rewrite E, E'. split; [done|]. by constructor.
Qed.

(** The limbs of the product have the value of the product. *)
Lemma product_val a b c : length a = 12%nat -> length b = 12%nat -> length c = 12%nat ->
  limbs21 (map (product_limb a b c) (seq 0 23) ++ [0]) = limbs21 a * limbs21 b + limbs21 c.
Proof.
  intros La Lb Lc.
  do 12 (destruct a as [|? a]; [discriminate|]). destruct a; [|discriminate].
  do 12 (destruct b as [|? b]; [discriminate|]). destruct b; [|discriminate].
  do 12 (destruct c as [|? c]; [discriminate|]). destruct c; [|discriminate].
  cbn [map seq app]. unfold product_limb, limb_at. cbn [Nat.ltb Nat.leb Nat.sub dot nth limbs21]. unfold limb_at.
  cbn [nth Nat.sub]. ring.
Qed.

Lemma small_limbs_load s : length s = 32%nat -> Forall is_u8 s -> small_limbs (sc_load32 s).
Proof.
  intros Hl Hs j. pose proof (le_val_range s Hs) as Hr. rewrite Hl in Hr. change (256 ^ Z.of_nat 32) with (2 ^ 256) in Hr.
  rewrite sc_load32_digits by done.
  assert (Forall2 in_iv (map (digit21 (le_val s)) (seq 0 11) ++ [le_val s / 2 ^ 231])
    (replicate 11 (0, 2097151) ++ [(0, 33554431)])) as H.
  { apply (digits_iv (le_val s) 11). unfold in_iv. cbn [fst snd]. change (2097152 ^ Z.of_nat 11) with (2 ^ 231).
    revert Hr. generalize (le_val s). compute_powers. intros; div_lia. }
  pose proof (iv_at_ok _ _ j H) as Hj. unfold in_iv in Hj. revert Hj.
  generalize (limb_at (map (digit21 (le_val s)) (seq 0 11) ++ [le_val s / 2 ^ 231]) j). clear.
  do 12 (destruct j as [|j]; [cbn; lia|]). destruct j; cbn; lia.
Qed.

Lemma product_ready : exists b, iv_run sc_product_carries (replicate 23 (0, 13510798915665919) ++ [(0, 0)]) = Some b /\
  sc_ready b = true.
Proof.
  assert (match iv_run sc_product_carries (replicate 23 (0, 13510798915665919) ++ [(0, 0)]) with
    Some b => sc_ready b | None => false end = true) as H by (vm_compute; reflexivity).
  destruct (iv_run _ _) as [b|]; [|discriminate H]. exists b. split; [reflexivity|exact H].
Qed.

Lemma sc_muladd_ok a b c : length a = 32%nat -> Forall is_u8 a -> length b = 32%nat -> Forall is_u8 b ->
  length c = 32%nat -> Forall is_u8 c ->
  exists r, sc_muladd a b c = Some r /\ length r = 32%nat /\ Forall is_u8 r /\
    le_val r = (le_val a * le_val b + le_val c) mod L25519.
Proof.
  intros La Ha Lb Hb Lc Hc.
  assert (forall s, length s = 32%nat -> Forall is_u8 s ->
    length (sc_load32 s) = 12%nat /\ limbs21 (sc_load32 s) = le_val s) as Hload.
  { intros s Hl Hs. split; [done|]. rewrite sc_load32_digits by done. apply (limbs21_split_digits (le_val s) 11). }
  destruct (Hload a La Ha) as [La' Va], (Hload b Lb Hb) as [Lb' Vb], (Hload c Lc Hc) as [Lc' Vc].
  destruct (sc_product_ok _ _ _ (small_limbs_load a La Ha) (small_limbs_load b Lb Hb) (small_limbs_load c Lc Hc) 23 0)
    as [Ep Rp].
  destruct product_ready as (b1 & E1 & Hready). destruct (sc_run_ok _ _ _ _ Rp E1) as (s1 & k & R1 & H1 & V1 & C1). rewrite C1 in V1 by done.
  destruct (sc_reduction_ok s1 b1 H1 Hready) as (r & E & N1 & N2 & N3).
  exists (sc_store r). unfold sc_muladd. rewrite Ep, sc_run_app, R1, E. split; [done|]. split; [done|]. split; [done|].
  rewrite N3, V1, product_val by done. rewrite Va, Vb, Vc. f_equal. ring.
Qed.
