(* ===== verification/Sha512.v ===== *)
(** SHA-512 (curve25519/ed25519/nacl_sha512/): the compression of blocks with
    the message schedule in sixteen words that are replaced in place, the
    padding, and the proof that this is the hash of FIPS 180-4. *)
From stdpp Require Import base list.
From Stdlib Require Import ZArith Lia.
From S2P Require Import Prelude MachineInt FieldElement FieldEncoding.
#[local] Open Scope Z_scope.

Definition load_bigendian (x : bytes) (i : nat) : Z :=
  Z.lor (Z.lor (Z.lor (Z.lor (Z.lor (Z.lor (Z.lor (byte_at x (i + 7)) (Z.shiftl (byte_at x (i + 6)) 8))
    (Z.shiftl (byte_at x (i + 5)) 16)) (Z.shiftl (byte_at x (i + 4)) 24)) (Z.shiftl (byte_at x (i + 3)) 32))
    (Z.shiftl (byte_at x (i + 2)) 40)) (Z.shiftl (byte_at x (i + 1)) 48)) (Z.shiftl (byte_at x i) 56).

(** Eight octets, each the low octet of [u] shifted further. *)
Definition store_bigendian (u : Z) : bytes :=
  map (fun n => u8 (Z.shiftr u n)) [56; 48; 40; 32; 24; 16; 8; 0].

Definition SHR (x c : Z) : Z := Z.shiftr x c.
Definition ROTR (x c : Z) : Z := Z.lor (Z.shiftr x c) (u64 (Z.shiftl x (64 - c))).
Definition Ch (x y z : Z) : Z := Z.lxor (Z.land x y) (Z.land (Z.lxor x 18446744073709551615) z).
Definition Maj (x y z : Z) : Z := Z.lxor (Z.lxor (Z.land x y) (Z.land x z)) (Z.land y z).
Definition Sigma0 (x : Z) : Z := Z.lxor (Z.lxor (ROTR x 28) (ROTR x 34)) (ROTR x 39).
Definition Sigma1 (x : Z) : Z := Z.lxor (Z.lxor (ROTR x 14) (ROTR x 18)) (ROTR x 41).
Definition sigma0 (x : Z) : Z := Z.lxor (Z.lxor (ROTR x 1) (ROTR x 8)) (SHR x 7).
Definition sigma1 (x : Z) : Z := Z.lxor (Z.lxor (ROTR x 19) (ROTR x 61)) (SHR x 6).

(** The constants of the calls of [F], in order. *)
Definition sha512_k : list Z :=
  [4794697086780616226; 8158064640168781261; 13096744586834688815; 16840607885511220156;
   4131703408338449720; 6480981068601479193; 10538285296894168987; 12329834152419229976;
   15566598209576043074; 1334009975649890238; 2608012711638119052; 6128411473006802146;
   8268148722764581231; 9286055187155687089; 11230858885718282805; 13951009754708518548;
   16472876342353939154; 17275323862435702243; 1135362057144423861; 2597628984639134821;
   3308224258029322869; 5365058923640841347; 6679025012923562964; 8573033837759648693;
   10970295158949994411; 12119686244451234320; 12683024718118986047; 13788192230050041572;
   14330467153632333762; 15395433587784984357; 489312712824947311; 1452737877330783856;
   2861767655752347644; 3322285676063803686; 5560940570517711597; 5996557281743188959;
   7280758554555802590; 8532644243296465576; 9350256976987008742; 10552545826968843579;
   11727347734174303076; 12113106623233404929; 14000437183269869457; 14369950271660146224;
   15101387698204529176; 15463397548674623760; 17586052441742319658; 1182934255886127544;
   1847814050463011016; 2177327727835720531; 2830643537854262169; 3796741975233480872;
   4115178125766777443; 5681478168544905931; 6601373596472566643; 7507060721942968483;
   8399075790359081724; 8693463985226723168; 9568029438360202098; 10144078919501101548;
   10430055236837252648; 11840083180663258601; 13761210420658862357; 14299343276471374635;
   14566680578165727644; 15097957966210449927; 16922976911328602910; 17689382322260857208;
   500013540394364858; 748580250866718886; 1242879168328830382; 1977374033974150939;
   2944078676154940804; 3659926193048069267; 4368137639120453308; 4836135668995329356;
   5532061633213252278; 6448918945643986474; 6902733635092675308; 7801388544844847127].

(** The variables [a], ..., [h]. *)
Record sha_state : Type := Sha {
  sha_a : Z; sha_b : Z; sha_c : Z; sha_d : Z; sha_e : Z; sha_f : Z; sha_g : Z; sha_h : Z
}.

(** [F(w, k)]. *)
Definition sha_F (st : sha_state) (w k : Z) : sha_state :=
  let '(Sha a b c d e f g h) := st in
  let T1 := u64 (h + Sigma1 e + Ch e f g + k + w) in
  let T2 := u64 (Sigma0 a + Maj a b c) in
  Sha (u64 (T1 + T2)) a b c (u64 (d + T1)) e f g.

Definition word_at (w : list Z) (i : nat) : Z := nth i w 0.

(** [M(w_i, w_(i+14), w_(i+9), w_(i+1))], the indices modulo 16. *)
Definition sha_M (w : list Z) (i : nat) : list Z :=
  <[i := u64 (sigma1 (word_at w ((i + 14) mod 16)) + word_at w ((i + 9) mod 16) +
              sigma0 (word_at w ((i + 1) mod 16)) + word_at w i)]> w.
Definition sha_EXPAND (w : list Z) : list Z := fold_left sha_M (seq 0 16) w.

(** Sixteen calls of [F]. *)
Definition sha_rounds (st : sha_state) (w ks : list Z) : sha_state :=
  fold_left (fun st p => sha_F st (fst p) (snd p)) (zip w ks) st.

Definition sha_add (s t : sha_state) : sha_state :=
  Sha (u64 (sha_a s + sha_a t)) (u64 (sha_b s + sha_b t)) (u64 (sha_c s + sha_c t)) (u64 (sha_d s + sha_d t))
    (u64 (sha_e s + sha_e t)) (u64 (sha_f s + sha_f t)) (u64 (sha_g s + sha_g t)) (u64 (sha_h s + sha_h t)).

(** The body of the loop over blocks. *)
Definition sha_block (state : sha_state) (block : bytes) : sha_state :=
  let w := map (load_bigendian block) [0; 8; 16; 24; 32; 40; 48; 56; 64; 72; 80; 88; 96; 104; 112; 120]%nat in
  let st := sha_rounds state w (take 16 sha512_k) in
  let w := sha_EXPAND w in
  let st := sha_rounds st w (take 16 (drop 16 sha512_k)) in
  let w := sha_EXPAND w in
  let st := sha_rounds st w (take 16 (drop 32 sha512_k)) in
  let w := sha_EXPAND w in
  let st := sha_rounds st w (take 16 (drop 48 sha512_k)) in
  let w := sha_EXPAND w in
  let st := sha_rounds st w (take 16 (drop 64 sha512_k)) in
  sha_add st state.

(** [while(inlen >= 128)], [n] times. *)
Fixpoint sha_blocks (n : nat) (state : sha_state) (data : bytes) : sha_state :=
  match n with
  | O => state
  | S n' => sha_blocks n' (sha_block state (take 128 data)) (drop 128 data)
  end.

Definition sha_load (s : bytes) : sha_state :=
  Sha (load_bigendian s 0) (load_bigendian s 8) (load_bigendian s 16) (load_bigendian s 24)
    (load_bigendian s 32) (load_bigendian s 40) (load_bigendian s 48) (load_bigendian s 56).
Definition sha_store (st : sha_state) : bytes :=
  store_bigendian (sha_a st) ++ store_bigendian (sha_b st) ++ store_bigendian (sha_c st) ++
  store_bigendian (sha_d st) ++ store_bigendian (sha_e st) ++ store_bigendian (sha_f st) ++
  store_bigendian (sha_g st) ++ store_bigendian (sha_h st).

Definition crypto_hashblocks_sha512 (statebytes data : bytes) : bytes :=
  sha_store (sha_blocks (length data / 128) (sha_load statebytes) data).

Definition sha512_iv : bytes :=
  [106; 9; 230; 103; 243; 188; 201; 8; 187; 103; 174; 133; 132; 202; 167; 59; 60; 110; 243; 114;
   254; 148; 248; 43; 165; 79; 245; 58; 95; 29; 54; 241; 81; 14; 82; 127; 173; 230; 130; 209; 155;
   5; 104; 140; 43; 62; 108; 31; 31; 131; 217; 171; 251; 65; 189; 107; 91; 224; 205; 25; 19; 126;
   33; 121].

(** The nine octets of the length in bits. *)
Definition sha_length (bytes_ : Z) : bytes :=
  map (fun n => u8 (Z.shiftr bytes_ n)) [61; 53; 45; 37; 29; 21; 13; 5] ++ [u8 (Z.shiftl bytes_ 3)].

Definition crypto_hash_sha512 (data : bytes) : bytes :=
  let bytes_ := u64 (blen data) in
  let h := crypto_hashblocks_sha512 sha512_iv data in
  let inlen := (length data mod 128)%nat in
  let rest := drop (length data - inlen) data in
  let padded :=
    if (inlen <? 112)%nat
    then rest ++ [128] ++ replicate (119 - (inlen + 1)) 0 ++ sha_length bytes_
    else rest ++ [128] ++ replicate (247 - (inlen + 1)) 0 ++ sha_length bytes_ in
  crypto_hashblocks_sha512 h padded.

(** * FIPS 180-4

    The standard's own definitions: words as numbers, rotations as quotient
    and remainder, the constants as roots of primes. *)

Module Fips.

(** Operations on words (sections 2.2.2, 3.2 and 4.1.3). *)
Definition rotr (n x : Z) : Z := x / 2 ^ n + 2 ^ (64 - n) * (x mod 2 ^ n).
Definition shr (n x : Z) : Z := x / 2 ^ n.
Definition ch (x y z : Z) : Z := Z.lxor (Z.land x y) (Z.ldiff z x).
Definition maj (x y z : Z) : Z := Z.lxor (Z.lxor (Z.land x y) (Z.land x z)) (Z.land y z).
Definition Sum0 (x : Z) : Z := Z.lxor (Z.lxor (rotr 28 x) (rotr 34 x)) (rotr 39 x).
Definition Sum1 (x : Z) : Z := Z.lxor (Z.lxor (rotr 14 x) (rotr 18 x)) (rotr 41 x).
Definition sig0 (x : Z) : Z := Z.lxor (Z.lxor (rotr 1 x) (rotr 8 x)) (shr 7 x).
Definition sig1 (x : Z) : Z := Z.lxor (Z.lxor (rotr 19 x) (rotr 61 x)) (shr 6 x).

(** The integer [e]-th root, bit by bit. *)
Fixpoint root (bits : nat) (e n acc : Z) : Z :=
  match bits with
  | O => acc
  | S b => let acc' := acc + 2 ^ Z.of_nat b in root b e n (if acc' ^ e <=? n then acc' else acc)
  end.
Definition is_prime (n : nat) : bool := forallb (fun d => negb (n mod d =? 0)%nat) (seq 2 (n - 2)).
Definition primes (n : nat) : list Z := map Z.of_nat (filter (fun k => is_prime k = true) (seq 2 n)).

(** Sixty-four bits of the fractional parts of the cube roots of the first
    eighty primes (4.2.3) and of the square roots of the first eight (5.3.5). *)
Definition K : list Z := map (fun p => root 70 3 (p * 2 ^ 192) 0 mod 2 ^ 64) (primes 408).
Definition H0 : list Z := map (fun p => root 70 2 (p * 2 ^ 128) 0 mod 2 ^ 64) (primes 18).

(** Big-endian values (3.1). *)
Definition be_val (b : bytes) : Z := fold_left (fun acc x => 256 * acc + x) b 0.

(** The message schedule (6.4.2, step 1): the words of the block, then [n]
    further ones. *)
Definition next_word (w : list Z) : Z :=
  let t := length w in
  (sig1 (word_at w (t - 2)) + word_at w (t - 7) + sig0 (word_at w (t - 15)) + word_at w (t - 16)) mod 2 ^ 64.
Fixpoint schedule (n : nat) (w : list Z) : list Z :=
  match n with
  | O => w
  | S n' => let l := schedule n' w in l ++ [next_word l]
  end.
Definition words (block : bytes) : list Z := map (fun i => be_val (take 8 (drop (8 * i) block))) (seq 0 16).

(** Steps 2 to 4. *)
Definition round (st : sha_state) (wk : Z * Z) : sha_state :=
  let '(Sha a b c d e f g h) := st in
  let T1 := h + Sum1 e + ch e f g + snd wk + fst wk in
  let T2 := Sum0 a + maj a b c in
  Sha ((T1 + T2) mod 2 ^ 64) a b c ((d + T1) mod 2 ^ 64) e f g.
Definition compress (state : sha_state) (block : bytes) : sha_state :=
  sha_add (fold_left round (zip (schedule 64 (words block)) K) state) state.

Fixpoint compress_all (n : nat) (state : sha_state) (data : bytes) : sha_state :=
  match n with
  | O => state
  | S n' => compress_all n' (compress state (take 128 data)) (drop 128 data)
  end.

(** [n] octets of a number, the most significant first. *)
Definition be_octets (n : nat) (z : Z) : bytes := map (fun i => (z / 256 ^ Z.of_nat (n - 1 - i)) mod 256) (seq 0 n).

(** Padding (5.1.2): the bit 1, as many zeros as needed to leave 128 bits in
    the last block, and the length in bits. *)
Definition zeros (len : nat) : nat := Z.to_nat ((111 - Z.of_nat len) mod 128).
Definition pad (m : bytes) : bytes := m ++ [128] ++ replicate (zeros (length m)) 0 ++ be_octets 16 (8 * blen m).

Definition state_list (st : sha_state) : list Z :=
  [sha_a st; sha_b st; sha_c st; sha_d st; sha_e st; sha_f st; sha_g st; sha_h st].
Definition digest (st : sha_state) : bytes := concat (map (be_octets 8) (state_list st)).
Definition initial : sha_state :=
  Sha (word_at H0 0) (word_at H0 1) (word_at H0 2) (word_at H0 3)
    (word_at H0 4) (word_at H0 5) (word_at H0 6) (word_at H0 7).

Definition sha512 (m : bytes) : bytes :=
  digest (compress_all (length (pad m) / 128) initial (pad m)).
End Fips.

(** ** Octets and words *)

Lemma take_drop_8 (s : bytes) i : (i + 8 <= length s)%nat ->
  take 8 (drop i s) = [byte_at s i; byte_at s (i + 1); byte_at s (i + 2); byte_at s (i + 3); byte_at s (i + 4);
    byte_at s (i + 5); byte_at s (i + 6); byte_at s (i + 7)].
Proof.
  intros H. apply list_eq. intros k. destruct (Nat.lt_ge_cases k 8) as [Hk|Hk].
  - rewrite lookup_take, decide_True, lookup_drop by done. destruct (lookup_lt_is_Some_2 s (i + k)) as [x Hx]; [lia|].
    assert (byte_at s (i + k) = x) as Ex by (unfold byte_at; by rewrite nth_lookup, Hx). rewrite Hx, <- Ex.
    do 8 (destruct k as [|k]; [rewrite ?Nat.add_0_r; reflexivity|]). lia.
  - rewrite !lookup_ge_None_2; [done|cbn; lia|rewrite length_take; lia].
Qed.

Lemma load_bigendian_ok s i : Forall is_u8 s -> (i + 8 <= length s)%nat ->
  load_bigendian s i = Fips.be_val (take 8 (drop i s)) /\ is_u64 (load_bigendian s i).
Proof.
  intros Hs Hi. rewrite take_drop_8 by done. unfold load_bigendian, Fips.be_val, is_u64. cbn [fold_left].
  assert (forall j, is_u8 (byte_at s j)) as Hb by (intros j; by apply byte_at_ok). unfold is_u8 in Hb.
  pose proof (Hb i). pose proof (Hb (i + 1)%nat). pose proof (Hb (i + 2)%nat). pose proof (Hb (i + 3)%nat).
  pose proof (Hb (i + 4)%nat). pose proof (Hb (i + 5)%nat). pose proof (Hb (i + 6)%nat). pose proof (Hb (i + 7)%nat).
  clear Hb. rewrite (lor_shiftl _ _ 8), (lor_shiftl _ _ 16), (lor_shiftl _ _ 24), (lor_shiftl _ _ 32), (lor_shiftl _ _ 40),
    (lor_shiftl _ _ 48), (lor_shiftl _ _ 56) by (compute_powers; lia).
  compute_powers. lia.
Qed.


Lemma K_ok : Fips.K = sha512_k.
Proof. vm_compute. reflexivity. Qed.

Lemma initial_ok : sha_load sha512_iv = Fips.initial.
Proof. vm_compute. reflexivity. Qed.

(** ** Words stay words *)

Lemma u64_ok z : is_u64 (u64 z).
Proof. unfold is_u64, u64. apply Z.mod_pos_bound. lia. Qed.

Lemma lxor_u64 a b : is_u64 a -> is_u64 b -> is_u64 (Z.lxor a b).
Proof.
  unfold is_u64. intros Ha Hb. split; [apply Z.lxor_nonneg; lia|].
  destruct (Z.eq_dec (Z.lxor a b) 0) as [->|Hne]; [lia|].
  assert (0 <= Z.lxor a b) by (apply Z.lxor_nonneg; lia).
  apply (Z.log2_lt_pow2 _ 64); [lia|]. eapply Z.le_lt_trans; [apply Z.log2_lxor; lia|].
  assert (forall c, 0 <= c < 18446744073709551616 -> Z.log2 c < 64).
  { intros c Hc. destruct (Z.eq_dec c 0) as [->|]; [done|]. apply Z.log2_lt_pow2; [lia|]. apply Hc. }
  apply Z.max_lub_lt; auto.
Qed.

Lemma ROTR_ok x n : is_u64 x -> 0 <= n <= 64 -> ROTR x n = Fips.rotr n x.
Proof.
  unfold is_u64, ROTR, Fips.rotr, u64. intros Hx Hn.
  change 18446744073709551616 with (2 ^ 64) in *.
  assert (2 ^ 64 = 2 ^ n * 2 ^ (64 - n)) as E by (rewrite <- Z.pow_add_r by lia; by replace (n + (64 - n)) with 64 by lia).
  assert (0 < 2 ^ n) by (apply Z.pow_pos_nonneg; lia). assert (0 < 2 ^ (64 - n)) by (apply Z.pow_pos_nonneg; lia).
  rewrite Z.shiftl_mul_pow2, E, Z.mul_mod_distr_r by lia.
  rewrite <- Z.shiftl_mul_pow2, Z.shiftr_div_pow2, lor_shiftl by lia || (split; [apply Z.div_pos; lia|];
    apply Z.div_lt_upper_bound; lia).
  done.
Qed.

Lemma land_not64 x z : is_u64 x -> is_u64 z -> Z.land (Z.lxor x 18446744073709551615) z = Z.ldiff z x.
Proof.
  unfold is_u64. intros Hx Hz. apply Z.bits_inj'. intros i Hi.
  rewrite Z.land_spec, Z.lxor_spec, Z.ldiff_spec. change 18446744073709551615 with (Z.ones 64).
  destruct (Z.lt_ge_cases i 64) as [H|H].
  - rewrite Z.ones_spec_low by lia. destruct (Z.testbit x i), (Z.testbit z i); done.
  - rewrite <- (Z.mod_small z (2 ^ 64)), Z.mod_pow2_bits_high by lia. by rewrite andb_false_r.
Qed.

Lemma Ch_ok x y z : is_u64 x -> is_u64 z -> Ch x y z = Fips.ch x y z.
Proof. intros. unfold Ch, Fips.ch. by rewrite land_not64. Qed.
Lemma Sigma0_ok x : is_u64 x -> Sigma0 x = Fips.Sum0 x.
Proof. intros. unfold Sigma0, Fips.Sum0. by rewrite !ROTR_ok by (done || lia). Qed.
Lemma Sigma1_ok x : is_u64 x -> Sigma1 x = Fips.Sum1 x.
Proof. intros. unfold Sigma1, Fips.Sum1. by rewrite !ROTR_ok by (done || lia). Qed.
Lemma sigma0_ok x : is_u64 x -> sigma0 x = Fips.sig0 x.
Proof. intros. unfold sigma0, Fips.sig0, SHR, Fips.shr. by rewrite !ROTR_ok, Z.shiftr_div_pow2 by (done || lia). Qed.
Lemma sigma1_ok x : is_u64 x -> sigma1 x = Fips.sig1 x.
Proof. intros. unfold sigma1, Fips.sig1, SHR, Fips.shr. by rewrite !ROTR_ok, Z.shiftr_div_pow2 by (done || lia). Qed.

(** ** Rounds *)

Definition state_ok (st : sha_state) : Prop := Forall is_u64 (Fips.state_list st).

Lemma u64_sum a b : u64 (u64 a + u64 b) = u64 (a + b).
Proof. unfold u64. by rewrite <- Zplus_mod. Qed.
Lemma u64_sum_r a b : u64 (a + u64 b) = u64 (a + b).
Proof. unfold u64. by rewrite Zplus_mod_idemp_r. Qed.

Lemma sha_F_ok st w k : state_ok st -> sha_F st w k = Fips.round st (w, k) /\ state_ok (sha_F st w k).
Proof.
  destruct st as [a b c d e f g h]. unfold state_ok, Fips.state_list. cbn [sha_a sha_b sha_c sha_d sha_e sha_f sha_g sha_h].
  rewrite !Forall_cons. intros (Ha & Hb & Hc & Hd & He & Hf & Hg & Hh & _). split.
  - unfold sha_F, Fips.round. cbn [fst snd].
    rewrite u64_sum, u64_sum_r, (Sigma0_ok a), (Sigma1_ok e), (Ch_ok e f g) by done. reflexivity.
  - cbn [sha_F sha_a sha_b sha_c sha_d sha_e sha_f sha_g sha_h]. split_and!; auto using u64_ok.
Qed.

Lemma sha_rounds_ok w ks st : state_ok st ->
  sha_rounds st w ks = fold_left Fips.round (zip w ks) st /\ state_ok (sha_rounds st w ks).
Proof.
  unfold sha_rounds. generalize (zip w ks). intros l. revert st. induction l as [|[x k] l IH]; intros st H; [done|].
  cbn [fold_left fst snd]. destruct (sha_F_ok st x k H) as [<- H']. by apply IH.
Qed.

Lemma sha_add_ok s t : state_ok (sha_add s t).
Proof. unfold state_ok, Fips.state_list, sha_add. rewrite !Forall_cons. split_and!; try apply u64_ok. done. Qed.

Lemma sha_rounds_app st w1 w2 k1 k2 : length w1 = length k1 ->
  sha_rounds st (w1 ++ w2) (k1 ++ k2) = sha_rounds (sha_rounds st w1 k1) w2 k2.
Proof. intros. unfold sha_rounds. by rewrite zip_with_app, fold_left_app by done. Qed.

(** ** The schedule: sixteen words replaced in place are the next sixteen *)

Lemma word_at_ok w i : Forall is_u64 w -> is_u64 (word_at w i).
Proof.
  intros H. unfold word_at. rewrite nth_lookup. destruct (w !! i) eqn:E; cbn; [|unfold is_u64; lia].
  by apply (Forall_lookup_1 _ _ _ _ H E).
Qed.

Lemma word_at_app_r l w i : (length l <= i)%nat -> word_at (l ++ w) i = word_at w (i - length l).
Proof. intros. unfold word_at. by rewrite app_nth2. Qed.

Lemma next_word_app l w : (16 <= length w)%nat -> Fips.next_word (l ++ w) = Fips.next_word w.
Proof.
  intros H. unfold Fips.next_word. rewrite length_app, !word_at_app_r by lia.
  assert (forall c, (c <= length w -> length l + length w - c - length l = length w - c)%nat) as E by lia.
  by rewrite !E by lia.
Qed.

Lemma schedule_length n w : length (Fips.schedule n w) = (length w + n)%nat.
Proof. induction n as [|n IH]; cbn; [lia|]. rewrite length_app, IH. cbn. lia. Qed.

Lemma schedule_app n l w : (16 <= length w)%nat -> Fips.schedule n (l ++ w) = l ++ Fips.schedule n w.
Proof.
  intros H. induction n as [|n IH]; [done|]. cbn. rewrite IH, next_word_app, app_assoc; [done|].
  rewrite schedule_length. lia.
Qed.

Lemma schedule_add m n w : Fips.schedule (m + n) w = Fips.schedule m (Fips.schedule n w).
Proof. induction m as [|m IH]; [done|]. cbn. by rewrite IH. Qed.

Lemma schedule_ok n w : Forall is_u64 w -> Forall is_u64 (Fips.schedule n w).
Proof.
  intros H. induction n as [|n IH]; [done|]. cbn. apply Forall_app. split; [done|].
  apply Forall_singleton. apply u64_ok.
Qed.

(** The sixteen words with the first [i] replaced. *)
Lemma sha_M_next u v : length (u ++ v) = 16%nat -> v <> [] -> Forall is_u64 (v ++ u) ->
  sha_M (u ++ v) (length u) = u ++ Fips.next_word (v ++ u) :: tail v.
Proof.
  intros Hl Hv Hok. destruct v as [|x v]; [done|]. unfold sha_M. rewrite insert_app_r_alt, Nat.sub_diag by lia.
  cbn [insert list_insert tail]. do 2 f_equal. unfold Fips.next_word.
  assert (length ((x :: v) ++ u) = 16%nat) as Hl' by (rewrite length_app in *; lia). rewrite Hl'.
  assert (forall j, (j < 16)%nat -> word_at (u ++ x :: v) ((length u + j) mod 16) = word_at ((x :: v) ++ u) j) as E.
  { intros j Hj. rewrite length_app in *. cbn [length] in *. unfold word_at.
    destruct (Nat.lt_ge_cases j (length (x :: v))) as [H|H]; cbn [length] in H.
    - rewrite Nat.mod_small by lia. rewrite app_nth2, (app_nth1 _ u) by (cbn [length]; lia). f_equal. lia.
    - assert ((length u + j) mod 16 = length u + j - 16)%nat as ->.
      { symmetry. apply (Nat.mod_unique _ _ 1); lia. }
      rewrite app_nth1, (app_nth2 _ u) by (cbn [length]; lia). f_equal. cbn [length]. lia. }
  rewrite !E by lia. rewrite <- (sigma1_ok (word_at _ (16 - 2))), <- (sigma0_ok (word_at _ (16 - 15))) by by apply word_at_ok.
  assert (word_at (u ++ x :: v) (length u) = word_at ((x :: v) ++ u) (16 - 16)) as ->; [|done].
  rewrite <- (E (16 - 16)%nat) by lia. rewrite length_app in *. cbn [length] in *. rewrite Nat.add_0_r, Nat.mod_small by lia.
  done.
Qed.

Lemma sha_EXPAND_steps w n : length w = 16%nat -> Forall is_u64 w -> (n <= 16)%nat ->
  Fips.schedule n w = w ++ take n (fold_left sha_M (seq 0 n) w) /\
  drop n (fold_left sha_M (seq 0 n) w) = drop n w /\ length (fold_left sha_M (seq 0 n) w) = 16%nat.
Proof.
  intros Hl Hw. induction n as [|n IH]; intros Hn; [by rewrite app_nil_r|].
  destruct IH as (IH1 & IH2 & IH3); [lia|]. rewrite seq_S, fold_left_app. cbn [fold_left Nat.add].
  set (z := fold_left sha_M (seq 0 n) w) in *. rewrite <- (take_drop n z).
  assert (length (take n z) = n) as Hu by (rewrite length_take; lia).
  assert (Forall is_u64 (Fips.schedule n w)) as Hs by by apply schedule_ok.
  assert (drop n z ++ take n z = drop n (Fips.schedule n w)) as Ew.
  { rewrite IH1, IH2, drop_app_le by lia. done. }
  assert (drop n z <> []) as Hd by (intros E; apply (f_equal length) in E; rewrite length_drop in E; cbn in E; lia).
  pose proof (sha_M_next (take n z) (drop n z)) as HM. rewrite Hu in HM. rewrite HM; clear HM;
    [|by rewrite take_drop|done|rewrite Ew; by apply Forall_drop].
  assert (Fips.next_word (drop n z ++ take n z) = Fips.next_word (Fips.schedule n w)) as ->.
  { rewrite Ew, <- (next_word_app (take n (Fips.schedule n w))); [by rewrite take_drop|].
    rewrite length_drop, schedule_length. lia. }
  destruct (drop n z) as [|y d] eqn:Ed; [done|]. cbn [tail]. split_and!.
  - cbn [Fips.schedule]. rewrite IH1 at 1. rewrite <- (app_assoc w). f_equal.
    rewrite (cons_middle _ (take n z) d), app_assoc, take_app_length'; [done|]. rewrite length_app, Hu. cbn. lia.
  - rewrite (cons_middle _ (take n z) d), app_assoc, drop_app_length' by (rewrite length_app, Hu; cbn; lia).
    replace (S n) with (n + 1)%nat by lia. rewrite <- drop_drop, <- IH2. done.
  - rewrite length_app, Hu. apply (f_equal length) in Ed. rewrite length_drop in Ed. cbn in *. lia.
Qed.

Lemma schedule_EXPAND w : length w = 16%nat -> Forall is_u64 w -> Fips.schedule 16 w = w ++ sha_EXPAND w.
Proof.
  intros Hl Hw. destruct (sha_EXPAND_steps w 16 Hl Hw) as (E & _ & Hl'); [lia|].
  rewrite E. unfold sha_EXPAND. by rewrite take_ge by lia.
Qed.

Lemma EXPAND_length w : length w = 16%nat -> Forall is_u64 w -> length (sha_EXPAND w) = 16%nat /\ Forall is_u64 (sha_EXPAND w).
Proof.
  intros Hl Hw. pose proof (schedule_EXPAND w Hl Hw) as E. split.
  - apply (f_equal length) in E. rewrite schedule_length, length_app in E. lia.
  - pose proof (schedule_ok 16 w Hw) as H. rewrite E in H. by apply Forall_app in H as [_ H].
Qed.

(** One more window of the schedule. *)
Lemma schedule_window l w : length w = 16%nat -> Forall is_u64 w ->
  Fips.schedule 16 (l ++ w) = (l ++ w) ++ sha_EXPAND w.
Proof. intros Hl Hw. rewrite schedule_app, schedule_EXPAND, app_assoc by (done || lia). done. Qed.

Lemma schedule_64 w : length w = 16%nat -> Forall is_u64 w ->
  let w1 := sha_EXPAND w in let w2 := sha_EXPAND w1 in let w3 := sha_EXPAND w2 in
  Fips.schedule 64 w = w ++ w1 ++ w2 ++ w3 ++ sha_EXPAND w3.
Proof.
  intros Hl Hw w1 w2 w3. destruct (EXPAND_length w Hl Hw) as [Hl1 Hw1]. destruct (EXPAND_length w1 Hl1 Hw1) as [Hl2 Hw2].
  destruct (EXPAND_length w2 Hl2 Hw2) as [Hl3 Hw3].
  change 64%nat with (16 + (16 + (16 + 16)))%nat. rewrite !schedule_add, (schedule_EXPAND w) by done.
  fold w1. rewrite schedule_window by done. fold w2. rewrite schedule_window by done. fold w3.
  rewrite schedule_window by done. by rewrite <- !app_assoc.
Qed.

Lemma words_ok block : Forall is_u8 block -> length block = 128%nat ->
  map (load_bigendian block) [0; 8; 16; 24; 32; 40; 48; 56; 64; 72; 80; 88; 96; 104; 112; 120]%nat = Fips.words block /\
  Forall is_u64 (Fips.words block) /\ length (Fips.words block) = 16%nat.
Proof.
  intros Hb Hl.
  assert (forall i, (i < 16)%nat -> load_bigendian block (8 * i) = Fips.be_val (take 8 (drop (8 * i) block)) /\
                    is_u64 (load_bigendian block (8 * i))) as Hi.
  { intros i Hi. apply load_bigendian_ok; [done|lia]. }
  change [0; 8; 16; 24; 32; 40; 48; 56; 64; 72; 80; 88; 96; 104; 112; 120]%nat with (map (fun i => 8 * i)%nat (seq 0 16)).
  rewrite map_map. unfold Fips.words. split_and!; [|apply Forall_forall|by rewrite length_map].
  - apply map_ext_in. intros i Hin. apply in_seq in Hin. apply Hi. lia.
  - intros x Hx. apply list_elem_of_In, in_map_iff in Hx as (i & <- & Hin). apply in_seq in Hin.
    destruct (Hi i) as [<- ?]; [lia|done].
Qed.

Lemma sha512_k_split : sha512_k = take 16 sha512_k ++ take 16 (drop 16 sha512_k) ++ take 16 (drop 32 sha512_k) ++
  take 16 (drop 48 sha512_k) ++ take 16 (drop 64 sha512_k).
Proof. reflexivity. Qed.

Lemma sha_block_ok st block : state_ok st -> Forall is_u8 block -> length block = 128%nat ->
  sha_block st block = Fips.compress st block /\ state_ok (sha_block st block).
Proof.
  intros Hst Hb Hl. unfold sha_block, Fips.compress. destruct (words_ok block Hb Hl) as (-> & Hw & Hlw).
  rewrite K_ok. destruct (sha_rounds_ok (Fips.schedule 64 (Fips.words block)) sha512_k st Hst) as [<- _].
  set (w := Fips.words block) in *. destruct (EXPAND_length w Hlw Hw) as [Hl1 Hw1].
  destruct (EXPAND_length _ Hl1 Hw1) as [Hl2 Hw2]. destruct (EXPAND_length _ Hl2 Hw2) as [Hl3 Hw3].
  split; [|apply sha_add_ok]. rewrite schedule_64 by done. rewrite sha512_k_split at 6.
  by rewrite !sha_rounds_app by done.
Qed.

Lemma sha_blocks_ok n st data : state_ok st -> Forall is_u8 data -> (128 * n <= length data)%nat ->
  sha_blocks n st data = Fips.compress_all n st data /\ state_ok (sha_blocks n st data).
Proof.
  revert st data. induction n as [|n IH]; intros st data Hst Hd Hl; [done|]. cbn [sha_blocks Fips.compress_all].
  destruct (sha_block_ok st (take 128 data) Hst) as [<- H]; [by apply Forall_take|rewrite length_take; lia|].
  apply IH; [done|by apply Forall_drop|rewrite length_drop; lia].
Qed.

(** ** The state as octets *)

Lemma store_bigendian_ok u : store_bigendian u = Fips.be_octets 8 u.
Proof. unfold store_bigendian, Fips.be_octets. cbn [map seq]. by rewrite !u8_shiftr by lia. Qed.

Lemma be_octets_ok n z : Forall is_u8 (Fips.be_octets n z) /\ length (Fips.be_octets n z) = n.
Proof.
  unfold Fips.be_octets. rewrite length_map, length_seq. split; [|done]. apply Forall_forall. intros x Hx.
  apply list_elem_of_In, in_map_iff in Hx as (i & <- & _). unfold is_u8. apply Z.mod_pos_bound. lia.
Qed.

Lemma be_val_octets u : is_u64 u -> Fips.be_val (Fips.be_octets 8 u) = u.
Proof.
  unfold is_u64, Fips.be_val, Fips.be_octets. intros Hu. cbn [map seq fold_left Nat.sub Z.of_nat Pos.of_succ_nat Pos.succ].
  rewrite Z.pow_0_r, Z.div_1_r, Z.pow_1_r.
  repeat match goal with |- context [256 ^ ?e] => let v := eval vm_compute in (256 ^ e) in change (256 ^ e) with v end.
  Z.div_mod_to_equations. lia.
Qed.

Lemma load_store st s : state_ok st -> s = sha_store st -> sha_load s = st.
Proof.
  intros Hst ->. destruct st as [a b c d e f g h]. unfold state_ok, Fips.state_list in Hst.
  rewrite !Forall_cons in Hst. destruct Hst as (Ha & Hb & Hc & Hd & He & Hf & Hg & Hh & _).
  cbn [sha_a sha_b sha_c sha_d sha_e sha_f sha_g sha_h] in *. unfold sha_store, sha_load.
  cbn [sha_a sha_b sha_c sha_d sha_e sha_f sha_g sha_h]. rewrite !store_bigendian_ok.
  set (s := Fips.be_octets 8 a ++ _).
  assert (Forall is_u8 s /\ length s = 64%nat) as [Hs Hl].
  { unfold s. rewrite !Forall_app, !length_app, !(proj2 (be_octets_ok _ _)). split_and!; auto; apply be_octets_ok. }
  assert (forall i u, is_u64 u -> (i + 8 <= 64)%nat -> take 8 (drop i s) = Fips.be_octets 8 u -> load_bigendian s i = u) as Hld.
  { intros i u Hu Hi E. rewrite (proj1 (load_bigendian_ok s i Hs ltac:(lia))), E. by apply be_val_octets. }
  f_equal; apply Hld; (done || lia || reflexivity).
Qed.

Lemma sha_store_ok st : sha_store st = Fips.digest st.
Proof. unfold sha_store, Fips.digest, Fips.state_list. cbn [map concat]. by rewrite !store_bigendian_ok, app_nil_r. Qed.

(** ** Whole messages *)

Lemma compress_all_app m n st d1 d2 : length d1 = (128 * m)%nat ->
  Fips.compress_all (m + n) st (d1 ++ d2) = Fips.compress_all n (Fips.compress_all m st d1) d2.
Proof.
  revert st d1. induction m as [|m IH]; intros st d1 H; [by destruct d1|]. cbn [Nat.add Fips.compress_all].
  rewrite take_app_le, drop_app_le by lia. apply IH. rewrite length_drop. lia.
Qed.

(** The blocks read are those that are there. *)
Lemma compress_all_take n st d : Fips.compress_all n st d = Fips.compress_all n st (take (128 * n) d).
Proof.
  revert st d. induction n as [|n IH]; intros st d; [done|]. cbn [Fips.compress_all].
  rewrite take_take, Nat.min_l by lia. rewrite IH. rewrite (IH _ (drop 128 (take _ d))).
  rewrite skipn_firstn_comm. replace (128 * S n - 128)%nat with (128 * n)%nat by lia. rewrite take_take. do 2 f_equal. lia.
Qed.

(** The length field: a count of octets, shifted by three. *)
Lemma div_8 n k : 0 <= k -> (8 * n) / 2 ^ (k + 3) = n / 2 ^ k.
Proof.
  intros. rewrite Z.pow_add_r by lia. change (2 ^ 3) with 8. rewrite (Z.mul_comm _ 8).
  assert (0 < 2 ^ k) by (apply Z.pow_pos_nonneg; lia). apply Z.div_mul_cancel_l; lia.
Qed.

Lemma sha_length_ok n : 0 <= n < 2 ^ 64 -> replicate 7 0 ++ sha_length n = Fips.be_octets 16 (8 * n).
Proof.
  intros Hn. unfold sha_length, Fips.be_octets.
  assert (forall e, 67 <= e -> (8 * n) / 2 ^ e = 0) as Hz.
  { intros e He. apply Z.div_small. split; [lia|]. apply Z.lt_le_trans with (2 ^ 67); [lia|by apply Z.pow_le_mono_r]. }
  assert (forall i, 256 ^ Z.of_nat i = 2 ^ (8 * Z.of_nat i)) as E by (intros; by rewrite Z.pow_mul_r by lia).
  cbn [map seq Nat.sub replicate app]. rewrite !E, !u8_shiftr by lia.
  rewrite <- !(div_8 n) by lia. change (8 * Z.of_nat 0) with 0. rewrite Z.pow_0_r, Z.div_1_r.
  unfold u8. rewrite Z.shiftl_mul_pow2, (Z.mul_comm n) by lia.
  repeat (apply (f_equal2 cons); [try (rewrite Hz by lia; reflexivity); reflexivity|]). reflexivity.
Qed.

Lemma zeros_ok n : let r := (n mod 128)%nat in
  Fips.zeros n = (if r <? 112 then 111 - r else 239 - r)%nat.
Proof.
  intros r. unfold Fips.zeros. assert (n = 128 * (n / 128) + r)%nat as E by (apply Nat.div_mod; lia).
  assert (r < 128)%nat by (apply Nat.mod_upper_bound; lia).
  destruct (r <? 112)%nat eqn:Hr; [apply Nat.ltb_lt in Hr|apply Nat.ltb_ge in Hr].
  - rewrite <- (Z.mod_unique_pos _ 128 (- Z.of_nat (n / 128)) (111 - Z.of_nat r)); lia.
  - rewrite <- (Z.mod_unique_pos _ 128 (- Z.of_nat (n / 128) - 1) (239 - Z.of_nat r)); lia.
Qed.

(** The last one or two blocks, as the code builds them. *)
Lemma padded_ok m : blen m < 2 ^ 64 ->
  let inlen := (length m mod 128)%nat in
  let rest := drop (length m - inlen) m in
  let padded :=
    if (inlen <? 112)%nat
    then rest ++ [128] ++ replicate (119 - (inlen + 1)) 0 ++ sha_length (u64 (blen m))
    else rest ++ [128] ++ replicate (247 - (inlen + 1)) 0 ++ sha_length (u64 (blen m)) in
  Fips.pad m = take (length m - inlen) m ++ padded /\ (exists k, length padded = 128 * S k)%nat.
Proof.
  intros Hm inlen rest padded. assert (inlen < 128)%nat by (apply Nat.mod_upper_bound; lia).
  assert (inlen <= length m)%nat by (apply Nat.Div0.mod_le).
  assert (u64 (blen m) = blen m) as Eu by (apply Z.mod_small; unfold blen in *; lia).
  assert (length (sha_length (blen m)) = 9%nat) as Hl9 by done.
  assert (length rest = inlen) as Hlr by (unfold rest; rewrite length_drop; lia).
  split.
  - unfold Fips.pad, padded. rewrite zeros_ok, <- sha_length_ok, Eu by (unfold blen in *; lia). fold inlen.
    rewrite <- (take_drop (length m - inlen) m) at 1. fold rest. rewrite <- app_assoc. f_equal.
    rewrite (app_assoc (replicate _ 0) (replicate 7 0)), <- replicate_add.
    destruct (inlen <? 112)%nat eqn:Hr; [apply Nat.ltb_lt in Hr|apply Nat.ltb_ge in Hr];
      do 2 f_equal; [replace (111 - inlen + 7)%nat with (119 - (inlen + 1))%nat by lia|
        replace (239 - inlen + 7)%nat with (247 - (inlen + 1))%nat by lia]; done.
  - unfold padded. rewrite Eu. destruct (inlen <? 112)%nat eqn:Hr; [apply Nat.ltb_lt in Hr; exists 0%nat|apply Nat.ltb_ge in Hr; exists 1%nat];
      rewrite !length_app, length_replicate, Hl9, Hlr; cbn [length]; lia.
Qed.

Lemma u8_ok z : is_u8 (u8 z).
Proof. unfold is_u8, u8. apply Z.mod_pos_bound. lia. Qed.

Lemma zeros_octets n : Forall is_u8 (replicate n 0).
Proof. apply Forall_replicate. unfold is_u8. lia. Qed.

Lemma sha_length_octets n : Forall is_u8 (sha_length n).
Proof.
  unfold sha_length. rewrite Forall_app, Forall_singleton. split; [|apply u8_ok].
  apply Forall_forall. intros x Hx. apply list_elem_of_In, in_map_iff in Hx as (k & <- & _). apply u8_ok.
Qed.

Lemma initial_state_ok : state_ok Fips.initial.
Proof.
  assert (forallb (fun z => (0 <=? z) && (z <? 18446744073709551616)) (Fips.state_list Fips.initial) = true) as H
    by (vm_compute; reflexivity).
  apply Forall_forall. intros x Hx. apply list_elem_of_In in Hx. rewrite forallb_forall in H. specialize (H x Hx).
  unfold is_u64. apply andb_prop in H as [H1 H2]. apply Z.leb_le in H1. apply Z.ltb_lt in H2. lia.
Qed.

Lemma sha512_ok m : Forall is_u8 m -> blen m < 2 ^ 64 ->
  crypto_hash_sha512 m = Fips.sha512 m.
Proof.
  intros Hm Hl. unfold crypto_hash_sha512. pose proof (padded_ok m Hl) as Hp. cbn zeta in Hp.
  set (padded := if (_ <? 112)%nat then _ else _) in *. set (inlen := (length m mod 128)%nat) in *.
  destruct Hp as (Hpad & k & Hk). set (q := (length m / 128)%nat).
  assert (length m = 128 * q + inlen)%nat as Hq by (apply Nat.div_mod; lia).
  assert (Forall is_u8 padded) as Hpu.
  { unfold padded. destruct (_ <? 112)%nat; rewrite !Forall_app, Forall_singleton; split_and!;
      try apply zeros_octets; try apply sha_length_octets; try (by apply Forall_drop); unfold is_u8; lia. }
  unfold crypto_hashblocks_sha512. rewrite initial_ok. fold q.
  destruct (sha_blocks_ok q Fips.initial m initial_state_ok Hm) as [E1 H1]; [lia|].
  rewrite (load_store _ _ H1 eq_refl). rewrite Hk.
  replace (128 * S k / 128)%nat with (S k) by (rewrite Nat.mul_comm, Nat.div_mul; lia).
  rewrite (proj1 (sha_blocks_ok (S k) _ padded H1 Hpu ltac:(lia))), E1, sha_store_ok. unfold Fips.sha512. f_equal.
  rewrite Hpad, length_app, Hk, length_take. replace ((length m - inlen) `min` length m + 128 * S k)%nat with ((q + S k) * 128)%nat by lia.
  rewrite Nat.div_mul, compress_all_app by (rewrite ?length_take; lia).
  rewrite (compress_all_take q Fips.initial m). by replace (length m - inlen)%nat with (128 * q)%nat by lia.
Qed.

Lemma sha_store_shape st : length (sha_store st) = 64%nat /\ Forall is_u8 (sha_store st).
Proof.
  unfold sha_store. rewrite !store_bigendian_ok, !length_app, !Forall_app, !(proj2 (be_octets_ok _ _)).
  split; [done|]. split_and!; apply be_octets_ok.
Qed.

Lemma sha512_shape m : length (crypto_hash_sha512 m) = 64%nat /\ Forall is_u8 (crypto_hash_sha512 m).
Proof. apply sha_store_shape. Qed.

(** C35: the hash of nacl_sha512 (the in-place schedule, the rounds, the padding
    in a 256-octet buffer and the two passes over blocks) is SHA-512 as FIPS
    180-4 defines it, for every message shorter than 2^64 octets; the
    constants in the code are the roots of primes of the standard. *)
Theorem sha512_is_fips m : Forall is_u8 m -> blen m < 2 ^ 64 ->
  crypto_hash_sha512 m = Fips.sha512 m.
Proof. apply sha512_ok. Qed.

Lemma sha512_is_fips_witness : crypto_hash_sha512 [97; 98; 99] = Fips.sha512 [97; 98; 99].
Proof. apply sha512_is_fips; [repeat constructor; unfold is_u8; lia|reflexivity]. Defined.
