(* ===== verification/GroupElement.v ===== *)
(** Points of the Edwards curve in the representations of ge.h and the
    operations of curve25519/ed25519/ge_*.c on them, statement by statement.
    The tables of base points are in [BaseTable]. *)
From stdpp Require Import base list.
From Stdlib Require Import ZArith Lia.
From S2P Require Import Prelude MachineInt FieldElement.
#[local] Open Scope Z_scope.
#[local] Open Scope checked_scope.

Record ge_p2 : Type := P2 { p2_X : fe; p2_Y : fe; p2_Z : fe }.
Record ge_p3 : Type := P3 { p3_X : fe; p3_Y : fe; p3_Z : fe; p3_T : fe }.
Record ge_p1p1 : Type := P1p1 { p1_X : fe; p1_Y : fe; p1_Z : fe; p1_T : fe }.
Record ge_precomp : Type := Precomp { yplusx : fe; yminusx : fe; xy2d : fe }.
Record ge_cached : Type := Cached { YplusX : fe; YminusX : fe; c_Z : fe; T2d : fe }.

(** d.h, d2.h and sqrtm1.h *)
Definition d : fe :=
  Fe (-10913610) 13857413 (-15372611) 6949391 114729 (-8787816) (-6275908) (-3247719) (-18696448) (-12055116).
Definition d2 : fe :=
  Fe (-21827239) (-5839606) (-30745221) 13898782 229458 15978800 (-12551817) (-6495438) 29715968 9444199.
Definition sqrtm1 : fe :=
  Fe (-32595792) (-7943725) 9377950 3500415 12389472 (-272473) (-25146209) (-2005654) 326686 11406482.

Definition ge_p2_0 : ge_p2 := P2 fe_0 fe_1 fe_1.
Definition ge_p3_0 : ge_p3 := P3 fe_0 fe_1 fe_1 fe_0.
Definition ge_precomp_0 : ge_precomp := Precomp fe_1 fe_1 fe_0.

(** ** Conversions *)

Definition ge_p3_to_p2 (p : ge_p3) : ge_p2 := P2 (fe_copy (p3_X p)) (fe_copy (p3_Y p)) (fe_copy (p3_Z p)).

Definition ge_p3_to_cached (p : ge_p3) : option ge_cached :=
  let! rYplusX := fe_add (p3_Y p) (p3_X p) in
  let! rYminusX := fe_sub (p3_Y p) (p3_X p) in
  let rZ := fe_copy (p3_Z p) in
  let! rT2d := fe_mul (p3_T p) d2 in
  Some (Cached rYplusX rYminusX rZ rT2d).

Definition ge_p1p1_to_p2 (p : ge_p1p1) : option ge_p2 :=
  let! rX := fe_mul (p1_X p) (p1_T p) in
  let! rY := fe_mul (p1_Y p) (p1_Z p) in
  let! rZ := fe_mul (p1_Z p) (p1_T p) in
  Some (P2 rX rY rZ).

Definition ge_p1p1_to_p3 (p : ge_p1p1) : option ge_p3 :=
  let! rX := fe_mul (p1_X p) (p1_T p) in
  let! rY := fe_mul (p1_Y p) (p1_Z p) in
  let! rZ := fe_mul (p1_Z p) (p1_T p) in
  let! rT := fe_mul (p1_X p) (p1_Y p) in
  Some (P3 rX rY rZ rT).

(** ** Addition and doubling *)

Definition ge_add (p : ge_p3) (q : ge_cached) : option ge_p1p1 :=
  let! rX := fe_add (p3_Y p) (p3_X p) in
  let! rY := fe_sub (p3_Y p) (p3_X p) in
  let! rZ := fe_mul rX (YplusX q) in
  let! rY := fe_mul rY (YminusX q) in
  let! rT := fe_mul (T2d q) (p3_T p) in
  let! rX := fe_mul (p3_Z p) (c_Z q) in
  let! t0 := fe_add rX rX in
  let! rX := fe_sub rZ rY in
  let! rY := fe_add rZ rY in
  let! rZ := fe_add t0 rT in
  let! rT := fe_sub t0 rT in
  Some (P1p1 rX rY rZ rT).

Definition ge_sub (p : ge_p3) (q : ge_cached) : option ge_p1p1 :=
  let! rX := fe_add (p3_Y p) (p3_X p) in
  let! rY := fe_sub (p3_Y p) (p3_X p) in
  let! rZ := fe_mul rX (YminusX q) in
  let! rY := fe_mul rY (YplusX q) in
  let! rT := fe_mul (T2d q) (p3_T p) in
  let! rX := fe_mul (p3_Z p) (c_Z q) in
  let! t0 := fe_add rX rX in
  let! rX := fe_sub rZ rY in
  let! rY := fe_add rZ rY in
  let! rZ := fe_sub t0 rT in
  let! rT := fe_add t0 rT in
  Some (P1p1 rX rY rZ rT).

Definition ge_madd (p : ge_p3) (q : ge_precomp) : option ge_p1p1 :=
  let! rX := fe_add (p3_Y p) (p3_X p) in
  let! rY := fe_sub (p3_Y p) (p3_X p) in
  let! rZ := fe_mul rX (yplusx q) in
  let! rY := fe_mul rY (yminusx q) in
  let! rT := fe_mul (xy2d q) (p3_T p) in
  let! t0 := fe_add (p3_Z p) (p3_Z p) in
  let! rX := fe_sub rZ rY in
  let! rY := fe_add rZ rY in
  let! rZ := fe_add t0 rT in
  let! rT := fe_sub t0 rT in
  Some (P1p1 rX rY rZ rT).

Definition ge_msub (p : ge_p3) (q : ge_precomp) : option ge_p1p1 :=
  let! rX := fe_add (p3_Y p) (p3_X p) in
  let! rY := fe_sub (p3_Y p) (p3_X p) in
  let! rZ := fe_mul rX (yminusx q) in
  let! rY := fe_mul rY (yplusx q) in
  let! rT := fe_mul (xy2d q) (p3_T p) in
  let! t0 := fe_add (p3_Z p) (p3_Z p) in
  let! rX := fe_sub rZ rY in
  let! rY := fe_add rZ rY in
  let! rZ := fe_sub t0 rT in
  let! rT := fe_add t0 rT in
  Some (P1p1 rX rY rZ rT).

Definition ge_p2_dbl (p : ge_p2) : option ge_p1p1 :=
  let! rX := fe_sq (p2_X p) in
  let! rZ := fe_sq (p2_Y p) in
  let! rT := fe_sq2 (p2_Z p) in
  let! rY := fe_add (p2_X p) (p2_Y p) in
  let! t0 := fe_sq rY in
  let! rY := fe_add rZ rX in
  let! rZ := fe_sub rZ rX in
  let! rX := fe_sub t0 rY in
  let! rT := fe_sub rT rZ in
  Some (P1p1 rX rY rZ rT).

Definition ge_p3_dbl (p : ge_p3) : option ge_p1p1 := ge_p2_dbl (ge_p3_to_p2 p).

(** ** Encoding *)

(** [s[31] ^= b << 7]. *)
Definition xor_sign (s : bytes) (b : Z) : bytes :=
  take 31 s ++ [u8 (Z.lxor (byte_at s 31) (Z.shiftl b 7))].

(** [ge_tobytes] and [ge_p3_tobytes] have the same body on the first three
    coordinates. *)
Definition ge_encode (X Y Z_ : fe) : option bytes :=
  let! recip := fe_invert Z_ in
  let! x := fe_mul X recip in
  let! y := fe_mul Y recip in
  let! s := fe_tobytes y in
  let! n := fe_isnegative x in
  Some (xor_sign s n).
Definition ge_tobytes (h : ge_p2) : option bytes := ge_encode (p2_X h) (p2_Y h) (p2_Z h).
Definition ge_p3_tobytes (h : ge_p3) : option bytes := ge_encode (p3_X h) (p3_Y h) (p3_Z h).

(** The value is the returned code and, when it is 0, the point stored in [h]. *)
Definition ge_frombytes_negate_vartime (s : bytes) : option (Z * option ge_p3) :=
  let! hY := fe_frombytes s in
  let hZ := fe_1 in
  let! u := fe_sq hY in
  let! v := fe_mul u d in
  let! u := fe_sub u hZ in
  let! v := fe_add v hZ in
  let! v3 := fe_sq v in
  let! v3 := fe_mul v3 v in
  let! hX := fe_sq v3 in
  let! hX := fe_mul hX v in
  let! hX := fe_mul hX u in
  let! hX := fe_pow22523 hX in
  let! hX := fe_mul hX v3 in
  let! hX := fe_mul hX u in
  let! vxx := fe_sq hX in
  let! vxx := fe_mul vxx v in
  let! check := fe_sub vxx u in
  let! nz := fe_isnonzero check in
  let! root :=
    if nz =? 0 then Some (Some hX)
    else
      let! check := fe_add vxx u in
      let! nz := fe_isnonzero check in
      if negb (nz =? 0) then Some None
      else let! hX := fe_mul hX sqrtm1 in Some (Some hX) in
  match root with
  | None => Some (-1, None)
  | Some hX =>
      let! neg := fe_isnegative hX in
      let! hX := if neg =? Z.shiftr (byte_at s 31) 7 then fe_neg hX else Some hX in
      let! hT := fe_mul hX hY in
      Some (0, Some (P3 hX hY hZ hT))
  end.
