(* ===== verification/ScalarMult.v ===== *)
(** Multiplication of points by scalars
    (curve25519/ed25519/ge_scalarmult_base.c and ge_double_scalarmult.c). *)
From stdpp Require Import base list.
From Stdlib Require Import ZArith Lia.
From S2P Require Import Prelude MachineInt FieldElement GroupElement BaseTable.
#[local] Open Scope Z_scope.
#[local] Open Scope checked_scope.

(** ** ge_scalarmult_base.c *)

Definition equal (b c : Z) : Z :=
  let x := Z.lxor (u8 b) (u8 c) in
  Z.shiftr (u32 (x - 1)) 31.

Definition negative (b : Z) : Z := Z.shiftr (u64 b) 63.

Definition cmov (t u : ge_precomp) (b : Z) : ge_precomp :=
  Precomp (fe_cmov (yplusx t) (yplusx u) b) (fe_cmov (yminusx t) (yminusx u) b) (fe_cmov (xy2d t) (xy2d u) b).

Definition select (pos : nat) (b : Z) : option ge_precomp :=
  let bnegative := negative b in
  let babs := u8 (b - Z.shiftl (Z.land (- bnegative) b) 1) in
  let! row := base !! pos in
  let t := ge_precomp_0 in
  let! u := row !! 0%nat in let t := cmov t u (equal babs 1) in
  let! u := row !! 1%nat in let t := cmov t u (equal babs 2) in
  let! u := row !! 2%nat in let t := cmov t u (equal babs 3) in
  let! u := row !! 3%nat in let t := cmov t u (equal babs 4) in
  let! u := row !! 4%nat in let t := cmov t u (equal babs 5) in
  let! u := row !! 5%nat in let t := cmov t u (equal babs 6) in
  let! u := row !! 6%nat in let t := cmov t u (equal babs 7) in
  let! u := row !! 7%nat in let t := cmov t u (equal babs 8) in
  let! mxy2d := fe_neg (xy2d t) in
  let minust := Precomp (fe_copy (yminusx t)) (fe_copy (yplusx t)) mxy2d in
  Some (cmov t minust bnegative).

(** The loop that sets [e[2 * i]] and [e[2 * i + 1]]. *)
Definition nibbles (a : bytes) : list Z :=
  flat_map (fun i => [Z.land (Z.shiftr (byte_at a i) 0) 15; Z.land (Z.shiftr (byte_at a i) 4) 15]) (seq 0 32).

(** The loop over [carry] and, for the last digit, [e[63] += carry]. *)
Fixpoint recode (e : list Z) (carry : Z) : list Z :=
  match e with
  | [] => []
  | [x] => [s8 (x + carry)]
  | x :: e' =>
      let x := s8 (x + carry) in
      let carry := s8 (x + 8) in
      let carry := Z.shiftr carry 4 in
      s8 (x - Z.shiftl carry 4) :: recode e' carry
  end.

(** One turn of the loops over odd and over even [i]. *)
Definition madd_step (e : list Z) (h : ge_p3) (i : nat) : option ge_p3 :=
  let! ei := e !! i in
  let! t := select (i / 2) ei in
  let! r := ge_madd h t in
  ge_p1p1_to_p3 r.

Definition ge_scalarmult_base (a : bytes) : option ge_p3 :=
  let e := recode (nibbles a) 0 in
  let h := ge_p3_0 in
  let! h := fold_checked (madd_step e) h (map (fun k => 2 * k + 1)%nat (seq 0 32)) in
  let! r := ge_p3_dbl h in let! s := ge_p1p1_to_p2 r in
  let! r := ge_p2_dbl s in let! s := ge_p1p1_to_p2 r in
  let! r := ge_p2_dbl s in let! s := ge_p1p1_to_p2 r in
  let! r := ge_p2_dbl s in let! h := ge_p1p1_to_p3 r in
  fold_checked (madd_step e) h (map (fun k => 2 * k)%nat (seq 0 32)).

(** ** ge_double_scalarmult.c *)

Definition digit (r : list Z) (i : nat) : Z := nth i r 0.

(** [for (k = i + b; k < 256; ++k)], [n] turns left. *)
Fixpoint slide_carry (n : nat) (r : list Z) (k : nat) : list Z :=
  match n with
  | O => r
  | S n' => if digit r k =? 0 then <[k := 1]> r else slide_carry n' (<[k := 0]> r) (S k)
  end.

(** [for (b = 1; b <= 6 && i + b < 256; ++b)]; [bs] are the values left. *)
Fixpoint slide_window (bs : list nat) (r : list Z) (i : nat) : list Z :=
  match bs with
  | [] => r
  | b :: bs' =>
      if (256 <=? i + b)%nat then r
      else if digit r (i + b) =? 0 then slide_window bs' r i
      else
        let s := Z.shiftl (digit r (i + b)) (Z.of_nat b) in
        if digit r i + s <=? 15 then
          slide_window bs' (<[(i + b)%nat := 0]> (<[i := s8 (digit r i + s)]> r)) i
        else if -15 <=? digit r i - s then
          slide_window bs' (slide_carry (256 - (i + b)) (<[i := s8 (digit r i - s)]> r) (i + b)) i
        else r
  end.

Definition slide_step (r : list Z) (i : nat) : list Z :=
  if digit r i =? 0 then r else slide_window [1; 2; 3; 4; 5; 6]%nat r i.

Definition slide (a : bytes) : list Z :=
  let r := map (fun i => Z.land 1 (Z.shiftr (byte_at a (i / 8)) (Z.of_nat (i mod 8)))) (seq 0 256) in
  fold_left slide_step (seq 0 256) r.

(** [Ai[1]], ..., [Ai[7]], each from the one before. *)
Fixpoint cached_multiples (n : nat) (A2 : ge_p3) (c : ge_cached) : option (list ge_cached) :=
  match n with
  | O => Some [c]
  | S n' =>
      let! t := ge_add A2 c in let! u := ge_p1p1_to_p3 t in let! c' := ge_p3_to_cached u in
      let! l := cached_multiples n' A2 c' in
      Some (c :: l)
  end.

(** [for (i = 255; i >= 0; --i) if (aslide[i] || bslide[i]) break], giving [i + 1]. *)
Fixpoint slide_top (aslide bslide : list Z) (n : nat) : nat :=
  match n with
  | O => O
  | S i => if (digit aslide i =? 0) && (digit bslide i =? 0) then slide_top aslide bslide i else n
  end.

(** The body of the last loop. *)
Definition double_step (Ai : list ge_cached) (aslide bslide : list Z) (r : ge_p2) (i : nat) : option ge_p2 :=
  let! t := ge_p2_dbl r in
  let! t :=
    if 0 <? digit aslide i then
      let! u := ge_p1p1_to_p3 t in let! c := Ai !! Z.to_nat (digit aslide i / 2) in ge_add u c
    else if digit aslide i <? 0 then
      let! u := ge_p1p1_to_p3 t in let! c := Ai !! Z.to_nat (- digit aslide i / 2) in ge_sub u c
    else Some t in
  let! t :=
    if 0 <? digit bslide i then
      let! u := ge_p1p1_to_p3 t in let! c := Bi !! Z.to_nat (digit bslide i / 2) in ge_madd u c
    else if digit bslide i <? 0 then
      let! u := ge_p1p1_to_p3 t in let! c := Bi !! Z.to_nat (- digit bslide i / 2) in ge_msub u c
    else Some t in
  ge_p1p1_to_p2 t.

Definition ge_double_scalarmult_vartime (a : bytes) (A : ge_p3) (b : bytes) : option ge_p2 :=
  let aslide := slide a in
  let bslide := slide b in
  let! Ai0 := ge_p3_to_cached A in
  let! t := ge_p3_dbl A in let! A2 := ge_p1p1_to_p3 t in
  let! Ai := cached_multiples 7 A2 Ai0 in
  let r := ge_p2_0 in
  fold_checked (double_step Ai aslide bslide) r (rev (seq 0 (slide_top aslide bslide 256))).
