(* ===== verification/Signatures.v ===== *)
(** Signatures with Curve25519 keys (curve25519/ed25519/additions/curve_sigs.c
    and sign_modified.c) and the Ed25519 routines they rest on (sign.c,
    open.c).  Buffers are lists of octets; the contents of fresh memory, which
    no routine reads before writing it, are zeros. *)
From stdpp Require Import base list.
From Stdlib Require Import ZArith Lia.
From S2P Require Import Prelude MachineInt FieldElement Scalar Sha512 GroupElement ScalarMult.
#[local] Open Scope Z_scope.
#[local] Open Scope checked_scope.

(** [memmove(buf + off, data, len)] inside [buf]. *)
Definition put (buf : bytes) (off : nat) (data : bytes) : bytes :=
  take off buf ++ data ++ drop (off + length data) buf.

(** [buf[i] = f(buf[i])]. *)
Definition set_octet (i : nat) (f : Z -> Z) (buf : bytes) : bytes := put buf i [u8 (f (byte_at buf i))].

(** ** sign_modified.c *)

Definition crypto_sign_modified (sm m sk pk random : bytes) : option bytes :=
  let mlen := length m in
  let sm := put sm 64 m in
  let sm := put sm 32 (take 32 sk) in
  let sm := put sm 0 (254 :: replicate 31 255) in
  let sm := put sm (mlen + 64) (take 64 random) in
  let nonce := crypto_hash_sha512 (take (mlen + 128) sm) in
  let sm := put sm 32 (take 32 pk) in
  let! nonce := sc_reduce nonce in
  let! R := ge_scalarmult_base nonce in
  let! Rbytes := ge_p3_tobytes R in
  let sm := put sm 0 Rbytes in
  let hram := crypto_hash_sha512 (take (mlen + 64) sm) in
  let! hram := sc_reduce hram in
  let! S := sc_muladd hram sk nonce in
  Some (put sm 32 S).

(** ** sign.c *)

(** The result is the signed message; [sk] holds the seed and the public key. *)
Definition crypto_sign (m sk : bytes) : option bytes :=
  let mlen := length m in
  let pk := take 32 (drop 32 sk) in
  let az := crypto_hash_sha512 (take 32 sk) in
  let az := set_octet 0 (fun b => Z.land b 248) az in
  let az := set_octet 31 (fun b => Z.land b 63) az in
  let az := set_octet 31 (fun b => Z.lor b 64) az in
  let sm := replicate (mlen + 64) 0 in
  let sm := put sm 64 m in
  let sm := put sm 32 (take 32 (drop 32 az)) in
  let nonce := crypto_hash_sha512 (take (mlen + 32) (drop 32 sm)) in
  let sm := put sm 32 pk in
  let! nonce := sc_reduce nonce in
  let! R := ge_scalarmult_base nonce in
  let! Rbytes := ge_p3_tobytes R in
  let sm := put sm 0 Rbytes in
  let hram := crypto_hash_sha512 (take (mlen + 64) sm) in
  let! hram := sc_reduce hram in
  let! S := sc_muladd hram (take 32 az) nonce in
  Some (put sm 32 S).

(** ** open.c *)

(** The label [badsig]: the code, [*mlen] and the buffer [m]. *)
Definition badsig (smlen : nat) (m : bytes) : Z * Z * bytes := (-1, u64 (-1), put m 0 (replicate smlen 0)).

Definition crypto_sign_open (m sm pk : bytes) : option (Z * Z * bytes) :=
  let smlen := length sm in
  if (smlen <? 64)%nat then Some (badsig smlen m)
  else if negb (Z.land (byte_at sm 63) 224 =? 0) then Some (badsig smlen m)
  else
    let! '(code, A) := ge_frombytes_negate_vartime pk in
    match A with
    | None => Some (badsig smlen m)
    | Some A =>
        let pkcopy := take 32 pk in
        let rcopy := take 32 sm in
        let scopy := take 32 (drop 32 sm) in
        let m := put m 0 sm in
        let m := put m 32 pkcopy in
        let h := crypto_hash_sha512 (take smlen m) in
        let! h := sc_reduce h in
        let! R := ge_double_scalarmult_vartime h A scopy in
        let! rcheck := ge_tobytes R in
        if crypto_verify_32 rcheck rcopy =? 0 then
          let m := put m 0 (take (smlen - 64) (drop 64 m)) in
          let m := put m (smlen - 64) (replicate 64 0) in
          Some (0, u64 (Z.of_nat (smlen - 64)), m)
        else Some (badsig smlen m)
    end.

(** ** curve_sigs.c *)

Definition curve25519_keygen (curve25519_privkey_in : bytes) : option bytes :=
  let! ed := ge_scalarmult_base curve25519_privkey_in in
  let! ed_y_plus_one := fe_add (p3_Y ed) (p3_Z ed) in
  let! one_minus_ed_y := fe_sub (p3_Z ed) (p3_Y ed) in
  let! inv_one_minus_ed_y := fe_invert one_minus_ed_y in
  let! mont_x := fe_mul ed_y_plus_one inv_one_minus_ed_y in
  fe_tobytes mont_x.

(** [alloc] tells whether [malloc] succeeds.  The value is the returned code
    and [signature_out]. *)
Definition curve25519_sign (alloc : bool) (curve25519_privkey msg random : bytes) : option (Z * bytes) :=
  if negb alloc then Some (-1, replicate 64 0)
  else
    let sigbuf := replicate (length msg + 128) 0 in
    let! ed_pubkey_point := ge_scalarmult_base curve25519_privkey in
    let! ed_pubkey := ge_p3_tobytes ed_pubkey_point in
    let sign_bit := Z.land (byte_at ed_pubkey 31) 128 in
    let! sigbuf := crypto_sign_modified sigbuf msg curve25519_privkey ed_pubkey random in
    let signature_out := take 64 sigbuf in
    let signature_out := set_octet 63 (fun b => Z.land b 127) signature_out in
    let signature_out := set_octet 63 (fun b => Z.lor b sign_bit) signature_out in
    Some (0, signature_out).

(** The Edwards public key of a Montgomery one, without its sign. *)
Definition verify_ed_y (curve25519_pubkey : bytes) : option bytes :=
  let! mont_x := fe_frombytes curve25519_pubkey in
  let one := fe_1 in
  let! mont_x_minus_one := fe_sub mont_x one in
  let! mont_x_plus_one := fe_add mont_x one in
  let! inv_mont_x_plus_one := fe_invert mont_x_plus_one in
  let! ed_y := fe_mul mont_x_minus_one inv_mont_x_plus_one in
  fe_tobytes ed_y.

(** [alloc1] and [alloc2] tell whether the two calls of [malloc] succeed. *)
Definition curve25519_verify (alloc1 alloc2 : bool) (signature curve25519_pubkey msg : bytes) : option Z :=
  if negb alloc1 then Some (-1)
  else if negb alloc2 then Some (-1)
  else
    let verifybuf := replicate (length msg + 64) 0 in
    let verifybuf2 := replicate (length msg + 64) 0 in
    let! ed_pubkey := verify_ed_y curve25519_pubkey in
    let ed_pubkey := set_octet 31 (fun b => Z.land b 127) ed_pubkey in
    let ed_pubkey := set_octet 31 (fun b => Z.lor b (Z.land (byte_at signature 63) 128)) ed_pubkey in
    let verifybuf := put verifybuf 0 (take 64 signature) in
    let verifybuf := set_octet 63 (fun b => Z.land b 127) verifybuf in
    let verifybuf := put verifybuf 64 msg in
    let! '(result, some_retval, verifybuf2) := crypto_sign_open verifybuf2 verifybuf ed_pubkey in
    Some result.
