(* ===== verification/Donna.v ===== *)
(** Curve25519 (curve25519/curve25519-donna.c): field elements as arrays of
    64-bit limbs, the Montgomery ladder, and the encoding of the result.
    Signed arithmetic is checked: [None] is an overflow.  The conversions to
    32 bits and the left shifts of [s32_eq] and [fcontract] wrap around, as compilers
    implement them.  Arrays of nineteen limbs are cut to the ten that are read
    again once their degree is reduced. *)
From stdpp Require Import base list.
From Stdlib Require Import ZArith Lia.
From S2P Require Import Prelude MachineInt FieldElement Scalar.
#[local] Open Scope Z_scope.
#[local] Open Scope checked_scope.

(** [(s32) z]. *)
Definition s32 (z : Z) : Z := (z + 2147483648) mod 4294967296 - 2147483648.

(** ** Sums and differences *)

Fixpoint map2_checked (f : Z -> Z -> Z) (a b : list Z) : option (list Z) :=
  match a, b with
  | x :: a', y :: b' => let! z := i64 (f x y) in let! l := map2_checked f a' b' in Some (z :: l)
  | _, _ => Some []
  end.

Definition fsum (output in_ : list Z) : option (list Z) := map2_checked Z.add output in_.
Definition fdifference (output in_ : list Z) : option (list Z) := map2_checked (fun o i => i - o) output in_.
Definition fscalar_product (in_ : list Z) (scalar : Z) : option (list Z) :=
  map2_checked (fun x _ => x * scalar) in_ in_.

(** ** Products *)

(** The expressions of [fproduct] and [fsquare_inner]: [Prod k i j] is
    [k * ((limb) ((s32) in2[i])) * ((s32) in[j])], sums are from the left. *)
Inductive lexp : Type :=
| Prod (k : Z) (i j : nat)
| Sum (a b : lexp)
| Scale (k : Z) (a : lexp).

Declare Scope lexp_scope.
Delimit Scope lexp_scope with lexp.
Infix "⊕" := Sum (at level 50, left associativity) : lexp_scope.
#[local] Open Scope lexp_scope.

Fixpoint eval (in2 in_ : list Z) (e : lexp) : option Z :=
  match e with
  | Prod k i j => let! t := i64 (k * s32 (limb_at in2 i)) in i64 (t * s32 (limb_at in_ j))
  | Sum a b => let! x := eval in2 in_ a in let! y := eval in2 in_ b in i64 (x + y)
  | Scale k a => let! x := eval in2 in_ a in i64 (k * x)
  end.

Fixpoint eval_all (in2 in_ : list Z) (es : list lexp) : option (list Z) :=
  match es with
  | [] => Some []
  | e :: es' => let! x := eval in2 in_ e in let! l := eval_all in2 in_ es' in Some (x :: l)
  end.

Definition fproduct_limbs : list lexp :=
  [ Prod 1 0 0;
    Prod 1 0 1 ⊕ Prod 1 1 0;
    Prod 2 1 1 ⊕ Prod 1 0 2 ⊕ Prod 1 2 0;
    Prod 1 1 2 ⊕ Prod 1 2 1 ⊕ Prod 1 0 3 ⊕ Prod 1 3 0;
    Prod 1 2 2 ⊕ Scale 2 (Prod 1 1 3 ⊕ Prod 1 3 1) ⊕ Prod 1 0 4 ⊕ Prod 1 4 0;
    Prod 1 2 3 ⊕ Prod 1 3 2 ⊕ Prod 1 1 4 ⊕ Prod 1 4 1 ⊕ Prod 1 0 5 ⊕ Prod 1 5 0;
    Scale 2 (Prod 1 3 3 ⊕ Prod 1 1 5 ⊕ Prod 1 5 1) ⊕ Prod 1 2 4 ⊕ Prod 1 4 2 ⊕ Prod 1 0 6 ⊕ Prod 1 6 0;
    Prod 1 3 4 ⊕ Prod 1 4 3 ⊕ Prod 1 2 5 ⊕ Prod 1 5 2 ⊕ Prod 1 1 6 ⊕ Prod 1 6 1 ⊕ Prod 1 0 7 ⊕ Prod 1 7 0;
    Prod 1 4 4 ⊕ Scale 2 (Prod 1 3 5 ⊕ Prod 1 5 3 ⊕ Prod 1 1 7 ⊕ Prod 1 7 1) ⊕ Prod 1 2 6 ⊕ Prod 1 6 2
     ⊕ Prod 1 0 8 ⊕ Prod 1 8 0;
    Prod 1 4 5 ⊕ Prod 1 5 4 ⊕ Prod 1 3 6 ⊕ Prod 1 6 3 ⊕ Prod 1 2 7 ⊕ Prod 1 7 2 ⊕ Prod 1 1 8 ⊕ Prod 1 8 1
     ⊕ Prod 1 0 9 ⊕ Prod 1 9 0;
    Scale 2 (Prod 1 5 5 ⊕ Prod 1 3 7 ⊕ Prod 1 7 3 ⊕ Prod 1 1 9 ⊕ Prod 1 9 1) ⊕ Prod 1 4 6 ⊕ Prod 1 6 4
     ⊕ Prod 1 2 8 ⊕ Prod 1 8 2;
    Prod 1 5 6 ⊕ Prod 1 6 5 ⊕ Prod 1 4 7 ⊕ Prod 1 7 4 ⊕ Prod 1 3 8 ⊕ Prod 1 8 3 ⊕ Prod 1 2 9 ⊕ Prod 1 9 2;
    Prod 1 6 6 ⊕ Scale 2 (Prod 1 5 7 ⊕ Prod 1 7 5 ⊕ Prod 1 3 9 ⊕ Prod 1 9 3) ⊕ Prod 1 4 8 ⊕ Prod 1 8 4;
    Prod 1 6 7 ⊕ Prod 1 7 6 ⊕ Prod 1 5 8 ⊕ Prod 1 8 5 ⊕ Prod 1 4 9 ⊕ Prod 1 9 4;
    Scale 2 (Prod 1 7 7 ⊕ Prod 1 5 9 ⊕ Prod 1 9 5) ⊕ Prod 1 6 8 ⊕ Prod 1 8 6;
    Prod 1 7 8 ⊕ Prod 1 8 7 ⊕ Prod 1 6 9 ⊕ Prod 1 9 6;
    Prod 1 8 8 ⊕ Scale 2 (Prod 1 7 9 ⊕ Prod 1 9 7);
    Prod 1 8 9 ⊕ Prod 1 9 8;
    Prod 2 9 9 ].

Definition fsquare_limbs : list lexp :=
  [ Prod 1 0 0;
    Prod 2 0 1;
    Scale 2 (Prod 1 1 1 ⊕ Prod 1 0 2);
    Scale 2 (Prod 1 1 2 ⊕ Prod 1 0 3);
    Prod 1 2 2 ⊕ Prod 4 1 3 ⊕ Prod 2 0 4;
    Scale 2 (Prod 1 2 3 ⊕ Prod 1 1 4 ⊕ Prod 1 0 5);
    Scale 2 (Prod 1 3 3 ⊕ Prod 1 2 4 ⊕ Prod 1 0 6 ⊕ Prod 2 1 5);
    Scale 2 (Prod 1 3 4 ⊕ Prod 1 2 5 ⊕ Prod 1 1 6 ⊕ Prod 1 0 7);
    Prod 1 4 4 ⊕ Scale 2 (Prod 1 2 6 ⊕ Prod 1 0 8 ⊕ Scale 2 (Prod 1 1 7 ⊕ Prod 1 3 5));
    Scale 2 (Prod 1 4 5 ⊕ Prod 1 3 6 ⊕ Prod 1 2 7 ⊕ Prod 1 1 8 ⊕ Prod 1 0 9);
    Scale 2 (Prod 1 5 5 ⊕ Prod 1 4 6 ⊕ Prod 1 2 8 ⊕ Scale 2 (Prod 1 3 7 ⊕ Prod 1 1 9));
    Scale 2 (Prod 1 5 6 ⊕ Prod 1 4 7 ⊕ Prod 1 3 8 ⊕ Prod 1 2 9);
    Prod 1 6 6 ⊕ Scale 2 (Prod 1 4 8 ⊕ Scale 2 (Prod 1 5 7 ⊕ Prod 1 3 9));
    Scale 2 (Prod 1 6 7 ⊕ Prod 1 5 8 ⊕ Prod 1 4 9);
    Scale 2 (Prod 1 7 7 ⊕ Prod 1 6 8 ⊕ Prod 2 5 9);
    Scale 2 (Prod 1 7 8 ⊕ Prod 1 6 9);
    Prod 1 8 8 ⊕ Prod 4 7 9;
    Prod 2 8 9;
    Prod 2 9 9 ].

Definition fproduct (in2 in_ : list Z) : option (list Z) := eval_all in2 in_ fproduct_limbs.
Definition fsquare_inner (in_ : list Z) : option (list Z) := eval_all in_ in_ fsquare_limbs.

(** ** Reduction *)

(** [output[i] += x << n]. *)
Definition add_shifted (output : list Z) (i : nat) (x n : Z) : option (list Z) :=
  let! s := i64 (Z.shiftl x n) in
  let! y := i64 (limb_at output i + s) in
  Some (<[i := y]> output).

(** The three statements of [output[i] += 19 * output[j]]. *)
Definition add_19 (output : list Z) (i j : nat) : option (list Z) :=
  let! output := add_shifted output i (limb_at output j) 4 in
  let! output := add_shifted output i (limb_at output j) 1 in
  add_shifted output i (limb_at output j) 0.

Definition freduce_degree (output : list Z) : option (list Z) :=
  fold_checked (fun output i => add_19 output i (i + 10)) output [8; 7; 6; 5; 4; 3; 2; 1; 0]%nat.

Definition div_by_2_26 (v : Z) : option Z :=
  let highword := u32 (Z.shiftr (u64 v) 32) in
  let sign := Z.shiftr (s32 highword) 31 in
  let roundoff := Z.shiftr (u32 sign) 6 in
  let! t := i64 (v + roundoff) in
  Some (Z.shiftr t 26).

Definition div_by_2_25 (v : Z) : option Z :=
  let highword := u32 (Z.shiftr (u64 v) 32) in
  let sign := Z.shiftr (s32 highword) 31 in
  let roundoff := Z.shiftr (u32 sign) 7 in
  let! t := i64 (v + roundoff) in
  Some (Z.shiftr t 25).

(** [output[i] -= over << n; output[i + 1] += over]. *)
Definition carry_over (output : list Z) (i : nat) (over n : Z) : option (list Z) :=
  let! s := i64 (Z.shiftl over n) in
  let! x := i64 (limb_at output i - s) in
  let! y := i64 (limb_at output (i + 1) + over) in
  Some (<[(i + 1)%nat := y]> (<[i := x]> output)).

Definition coefficients_step (output : list Z) (i : nat) : option (list Z) :=
  let! over := div_by_2_26 (limb_at output i) in
  let! output := carry_over output i over 26 in
  let! over := div_by_2_25 (limb_at output (i + 1)) in
  carry_over output (i + 1) over 25.

Definition freduce_coefficients (output : list Z) : option (list Z) :=
  let output := <[10%nat := 0]> output in
  let! output := fold_checked coefficients_step output [0; 2; 4; 6; 8]%nat in
  let! output := add_19 output 0 10 in
  let output := <[10%nat := 0]> output in
  let! over := div_by_2_26 (limb_at output 0) in
  carry_over output 0 over 26.

(** [freduce_degree(t); freduce_coefficients(t)], the ten limbs that are kept. *)
Definition freduce (t : list Z) : option (list Z) :=
  let! t := freduce_degree t in
  let! t := freduce_coefficients t in
  Some (take 10 t).

Definition fmul (in_ in2 : list Z) : option (list Z) := let! t := fproduct in_ in2 in freduce t.
Definition fsquare (in_ : list Z) : option (list Z) := let! t := fsquare_inner in_ in freduce t.

(** ** Encoding *)

Definition fexpand_limb (input : bytes) (start : nat) (shift mask : Z) : Z :=
  Z.land (Z.shiftr (load_4 input start) shift) mask.
Definition fexpand (input : bytes) : list Z :=
  [fexpand_limb input 0 0 67108863; fexpand_limb input 3 2 33554431; fexpand_limb input 6 3 67108863;
   fexpand_limb input 9 5 33554431; fexpand_limb input 12 6 67108863; fexpand_limb input 16 0 33554431;
   fexpand_limb input 19 1 67108863; fexpand_limb input 22 3 33554431; fexpand_limb input 25 4 67108863;
   fexpand_limb input 28 6 33554431].

Definition s32_eq (a b : Z) : Z :=
  let a := Z.lnot (Z.lxor a b) in
  let a := Z.land a (s32 (Z.shiftl a 16)) in
  let a := Z.land a (s32 (Z.shiftl a 8)) in
  let a := Z.land a (s32 (Z.shiftl a 4)) in
  let a := Z.land a (s32 (Z.shiftl a 2)) in
  let a := Z.land a (s32 (Z.shiftl a 1)) in
  Z.shiftr a 31.

Definition s32_gte (a b : Z) : option Z := let! a := i32 (a - b) in Some (Z.lnot (Z.shiftr a 31)).

(** The bits of limb [i]. *)
Definition limb_bits (i : nat) : Z := if Nat.odd i then 25 else 26.
Definition limb_mask (i : nat) : Z := if Nat.odd i then 33554431 else 67108863.

(** Make limb [i] non-negative, borrowing [factor] times the quotient from
    limb [j]. *)
Definition borrow (i j : nat) (factor : Z) (input : list Z) : option (list Z) :=
  let mask := Z.shiftr (limb_at input i) 31 in
  let! carry := i32 (- Z.shiftr (Z.land (limb_at input i) mask) (limb_bits i)) in
  let! s := i32 (Z.shiftl carry (limb_bits i)) in
  let! x := i32 (limb_at input i + s) in
  let! f := i32 (carry * factor) in
  let! y := i32 (limb_at input j - f) in
  Some (<[j := y]> (<[i := x]> input)).

Definition borrow_pass (input : list Z) : option (list Z) :=
  let! input := fold_checked (fun input i => borrow i (i + 1) 1 input) input (seq 0 9) in
  borrow 9 0 19 input.

(** Carry what limb [i] has above its width to limb [j]. *)
Definition carry_limb (i j : nat) (factor : Z) (input : list Z) : option (list Z) :=
  let carry := Z.shiftr (limb_at input i) (limb_bits i) in
  let input := <[i := Z.land (limb_at input i) (limb_mask i)]> input in
  let! f := i32 (factor * carry) in
  let! y := i32 (limb_at input j + f) in
  Some (<[j := y]> input).

Definition carry_pass (input : list Z) : option (list Z) :=
  let! input := fold_checked (fun input i => carry_limb i (i + 1) 1 input) input (seq 0 9) in
  carry_limb 9 0 19 input.

(** The mask that tells whether the limbs are those of 2^255 - 19 or more. *)
Definition contract_mask (input : list Z) : option Z :=
  let! mask := s32_gte (limb_at input 0) 67108845 in
  Some (fold_left (fun mask i => Z.land mask (s32_eq (limb_at input i) (limb_mask i))) (seq 1 9) mask).

(** [input[0] -= mask & 0x3ffffed] and the same for the other limbs. *)
Definition subtract_masked (mask : Z) (input : list Z) : option (list Z) :=
  fold_checked (fun input i =>
    let m := if (i =? 0)%nat then 67108845 else limb_mask i in
    let! x := i32 (limb_at input i - Z.land mask m) in
    Some (<[i := x]> input)) input (seq 0 10).

(** The left shifts before packing; that of limb 4 may leave 32 bits. *)
Definition align_limbs (input : list Z) : list Z :=
  fold_left (fun input '(i, n) => <[i := s32 (Z.shiftl (limb_at input i) n)]> input)
    [(1%nat, 2); (2%nat, 3); (3%nat, 5); (4%nat, 6); (6%nat, 1); (7%nat, 3); (8%nat, 4); (9%nat, 6)]
    input.

(** The macro [F(i, s)]. *)
Definition pack_limb (input : list Z) (output : bytes) (i s : nat) : bytes :=
  let x := limb_at input i in
  let output := <[s := u8 (Z.lor (byte_at output s) (Z.land x 255))]> output in
  let output := <[(s + 1)%nat := u8 (Z.land (Z.shiftr x 8) 255)]> output in
  let output := <[(s + 2)%nat := u8 (Z.land (Z.shiftr x 16) 255)]> output in
  <[(s + 3)%nat := u8 (Z.land (Z.shiftr x 24) 255)]> output.

Definition pack_limbs (input : list Z) : bytes :=
  let output := <[16%nat := 0]> (<[0%nat := 0]> (replicate 32 0)) in
  fold_left (fun output '(i, s) => pack_limb input output i s)
    [(0, 0); (1, 3); (2, 6); (3, 9); (4, 12); (5, 16); (6, 19); (7, 22); (8, 25); (9, 28)]%nat output.

Definition fcontract (input_limbs : list Z) : option bytes :=
  let input := map s32 input_limbs in
  let! input := borrow_pass input in
  let! input := borrow_pass input in
  let! input := borrow 0 1 1 input in
  let! input := carry_pass input in
  let! input := carry_pass input in
  let! mask := contract_mask input in
  let! input := subtract_masked mask input in
  let input := align_limbs input in
  Some (pack_limbs input).

(** ** The ladder *)

(** Two points, [Q] and [Q'], in projective coordinates. *)
Record ladder : Type := Ladder { l_x : list Z; l_z : list Z; l_xprime : list Z; l_zprime : list Z }.

(** 2 Q and Q + Q' from Q, Q' and Q - Q'. *)
Definition fmonty (l : ladder) (qmqp : list Z) : option ladder :=
  let '(Ladder x z xprime zprime) := l in
  let origx := x in
  let! x := fsum x z in
  let! z := fdifference z origx in
  let origxprime := xprime in
  let! xprime := fsum xprime zprime in
  let! zprime := fdifference zprime origxprime in
  let! xxprime := fproduct xprime z in
  let! zzprime := fproduct x zprime in
  let! xxprime := freduce xxprime in
  let! zzprime := freduce zzprime in
  let origxprime := xxprime in
  let! xxprime := fsum xxprime zzprime in
  let! zzprime := fdifference zzprime origxprime in
  let! xxxprime := fsquare xxprime in
  let! zzzprime := fsquare zzprime in
  let! zzprime := fproduct zzzprime qmqp in
  let! zzprime := freduce zzprime in
  let x3 := xxxprime in
  let z3 := zzprime in
  let! xx := fsquare x in
  let! zz := fsquare z in
  let! x2 := fproduct xx zz in
  let! x2 := freduce x2 in
  let! zz := fdifference zz xx in
  let! zzz := fscalar_product zz 121665 in
  let! zzz := freduce_coefficients (zzz ++ replicate 9 0) in
  let! zzz := fsum (take 10 zzz) xx in
  let! z2 := fproduct zz zzz in
  let! z2 := freduce z2 in
  Some (Ladder x2 z2 x3 z3).

Fixpoint swap_conditional (a b : list Z) (iswap : Z) : list Z * list Z :=
  match a, b with
  | x :: a', y :: b' =>
      let swap := s32 (- iswap) in
      let t := Z.land swap (Z.lxor (s32 x) (s32 y)) in
      let '(a', b') := swap_conditional a' b' iswap in
      (Z.lxor (s32 x) t :: a', Z.lxor (s32 y) t :: b')
  | _, _ => (a, b)
  end.

Definition swap_ladder (l : ladder) (bit : Z) : ladder :=
  let '(nqx, nqpqx) := swap_conditional (l_x l) (l_xprime l) bit in
  let '(nqz, nqpqz) := swap_conditional (l_z l) (l_zprime l) bit in
  Ladder nqx nqz nqpqx nqpqz.

(** The body of the inner loop; the pointers are exchanged so that the new
    points are the next ones. *)
Definition cmult_bit (q : list Z) (l : ladder) (bit : Z) : option ladder :=
  let l := swap_ladder l bit in
  let! l := fmonty l q in
  Some (swap_ladder l bit).

(** The inner loop, [n] turns left. *)
Fixpoint cmult_byte (n : nat) (q : list Z) (l : ladder) (byte : Z) : option ladder :=
  match n with
  | O => Some l
  | S n' =>
      let! l := cmult_bit q l (Z.shiftr byte 7) in
      cmult_byte n' q l (u8 (Z.shiftl byte 1))
  end.

Definition limbs_of (x : Z) : list Z := x :: replicate 9 0.

Definition cmult (n : bytes) (q : list Z) : option (list Z * list Z) :=
  let l := Ladder (limbs_of 1) (limbs_of 0) (take 10 q) (limbs_of 1) in
  let! l := fold_checked (fun l i => cmult_byte 8 q l (byte_at n (31 - i))) l (seq 0 32) in
  Some (l_x l, l_z l).

(** [n] squarings. *)
Fixpoint fsquare_n (n : nat) (x : list Z) : option (list Z) :=
  match n with
  | O => Some x
  | S n' => let! y := fsquare x in fsquare_n n' y
  end.

Definition crecip (z : list Z) : option (list Z) :=
  let! z2 := fsquare z in
  let! t1 := fsquare z2 in
  let! t0 := fsquare t1 in
  let! z9 := fmul t0 z in
  let! z11 := fmul z9 z2 in
  let! t0 := fsquare z11 in
  let! z2_5_0 := fmul t0 z9 in
  let! t0 := fsquare_n 5 z2_5_0 in
  let! z2_10_0 := fmul t0 z2_5_0 in
  let! t1 := fsquare_n 10 z2_10_0 in
  let! z2_20_0 := fmul t1 z2_10_0 in
  let! t1 := fsquare_n 20 z2_20_0 in
  let! t0 := fmul t1 z2_20_0 in
  let! t0 := fsquare_n 10 t0 in
  let! z2_50_0 := fmul t0 z2_10_0 in
  let! t1 := fsquare_n 50 z2_50_0 in
  let! z2_100_0 := fmul t1 z2_50_0 in
  let! t0 := fsquare_n 100 z2_100_0 in
  let! t1 := fmul t0 z2_100_0 in
  let! t1 := fsquare_n 50 t1 in
  let! t0 := fmul t1 z2_50_0 in
  let! t1 := fsquare_n 5 t0 in
  fmul t1 z11.

(** The returned code and [mypublic]. *)
Definition curve25519_donna (secret basepoint : bytes) : option (Z * bytes) :=
  let e := map (byte_at secret) (seq 0 32) in
  let bp := fexpand basepoint in
  let! '(x, z) := cmult e bp in
  let! zmone := crecip z in
  let! z := fmul x zmone in
  let! mypublic := fcontract z in
  Some (0, mypublic).
