(* ===== verification/FastArith.v ===== *)
(** Modular arithmetic that evaluates quickly: sums, products and powers
    modulo a number on arbitrary-precision integers with machine words.  It is
    used for the numeric facts about p, the curve and its tables. *)
From Bignums Require Import BigZ.
From stdpp Require Import base tactics.
From Stdlib Require Import ZArith Lia.
From S2P Require Import Prelude.
#[local] Open Scope Z_scope.

Definition mul_mod (m a b : bigZ) : bigZ := BigZ.modulo (BigZ.mul a b) m.

Fixpoint pow_mod_pos (m a : bigZ) (e : positive) : bigZ :=
  match e with
  | xH => BigZ.modulo a m
  | xO e' => let r := pow_mod_pos m a e' in mul_mod m r r
  | xI e' => let r := pow_mod_pos m a e' in mul_mod m a (mul_mod m r r)
  end.

(** a ^ e modulo m. *)
Definition pow_mod (a e m : Z) : Z :=
  match e with
  | Zpos e' => BigZ.to_Z (pow_mod_pos (BigZ.of_Z m) (BigZ.of_Z a) e')
  | _ => 1 mod m
  end.

Lemma mul_mod_ok m a b : BigZ.to_Z (mul_mod m a b) = (BigZ.to_Z a * BigZ.to_Z b) mod BigZ.to_Z m.
Proof. unfold mul_mod. by rewrite BigZ.spec_modulo, BigZ.spec_mul. Qed.

Lemma pow_mod_pos_ok m a e : BigZ.to_Z (pow_mod_pos m a e) = BigZ.to_Z a ^ Zpos e mod BigZ.to_Z m.
Proof.
  induction e as [e IH|e IH|]; cbn [pow_mod_pos]; cbv zeta; rewrite ?mul_mod_ok, ?IH.
  - rewrite Pos2Z.inj_xI, Z.pow_add_r, (Z.mul_comm 2), Z.pow_mul_r, Z.pow_2_r, Z.pow_1_r, (Z.mul_comm _ (BigZ.to_Z a)) by lia.
    by rewrite Zmult_mod_idemp_r, <- Zmult_mod_idemp_r, <- Zmult_mod, Zmult_mod_idemp_r.
  - rewrite Pos2Z.inj_xO, (Z.mul_comm 2), Z.pow_mul_r, Z.pow_2_r by lia. by rewrite <- Zmult_mod.
  - by rewrite BigZ.spec_modulo, Z.pow_1_r.
Qed.

Lemma pow_mod_ok a e m : 0 <= e -> pow_mod a e m = a ^ e mod m.
Proof.
  intros He. destruct e as [|e|e]; [done| |lia]. cbn [pow_mod]. by rewrite pow_mod_pos_ok, !BigZ.spec_of_Z.
Qed.
