(* ===== verification/Primality.v ===== *)
(** 2^255 - 19 and the order of the base point are prime: Pocklington's
    criterion and chains of certificates. *)
From stdpp Require Import base list.
From Stdlib Require Import ZArith Lia Zdivisibility Zmod.
From S2P Require Import Prelude FieldProofs ScalarProofs FastArith.
#[local] Open Scope Z_scope.

(** ** Prime divisors *)

(** No divisor between [2] and [2 + n - 1]. *)
Fixpoint no_divisor (n : nat) (k p : Z) : bool :=
  match n with
  | O => true
  | S n' => negb (p mod k =? 0) && no_divisor n' (k + 1) p
  end.

Lemma no_divisor_ok n : forall k p d, no_divisor n k p = true -> 0 < k -> k <= d < k + Z.of_nat n -> ~ (d | p).
Proof.
  induction n as [|n IH]; intros k p e H Hk Hd; [lia|]. cbn [no_divisor] in H. apply andb_prop in H as [H1 H2].
  destruct (Z.eq_dec e k) as [->|]; [|by apply (IH (k + 1) p e H2); lia].
  intros Hdiv. apply Z.mod0_divide in Hdiv. rewrite Hdiv in H1. done.
Qed.

(** Trial division, for the small primes. *)
Definition small_prime (p : Z) : bool := (1 <? p) && no_divisor (Z.to_nat (p - 2)) 2 p.

Lemma small_prime_ok p : small_prime p = true -> Z.prime p.
Proof.
  unfold small_prime. intros H. apply andb_prop in H as [H1 H2]. apply Z.ltb_lt in H1. split; [done|].
  intros n Hn. apply (no_divisor_ok _ _ _ _ H2); lia.
Qed.

Lemma prime_divisor n : 1 < n -> exists r, Z.prime r /\ (r | n).
Proof.
  intros Hn. assert (0 <= n) as H0 by lia. revert n H0 Hn.
  refine (Z_lt_induction _ _). intros n IH Hn.
  destruct (Znumtheory.prime_dec n) as [Hp|Hp].
  { exists n. split; [by apply Znumtheory.prime_alt|apply Z.divide_refl]. }
  destruct (Znumtheory.not_prime_divide n Hn Hp) as (m & Hm & Hd).
  destruct (IH m) as (r & Hr & Hrm); [lia..|]. exists r. split; [done|]. by transitivity m.
Qed.

(** ** Pocklington's criterion *)

(** A prime [q] with a^((n-1)/q) - 1 invertible modulo [n] divides [r - 1]. *)
Lemma pocklington_step n a q r : Z.prime q -> Z.prime r -> (r | n) -> 1 < n -> (q | n - 1) ->
  a ^ (n - 1) mod n = 1 -> Z.gcd (a ^ ((n - 1) / q) - 1) n = 1 -> (q | r - 1).
Proof.
  intros Hq Hr Hrn Hn [k Hk] Ha Hg. pose proof (Z.prime_ge_2 _ Hq). pose proof (Z.prime_ge_2 _ Hr).
  assert ((n - 1) / q = k) as Ek by (rewrite Hk; apply Z.div_mul; lia). rewrite Ek in Hg.
  assert (0 < k) as Hk0 by nia. set (x := Zmod.of_Z r (a ^ k)).
  assert (a ^ (n - 1) mod r = 1) as Har.
  { rewrite <- (Z.mod_mod_divide _ n r) by done. rewrite Ha. apply Z.mod_small. lia. }
  assert (Zmod.pow x q = Zmod.one) as Hxq.
  { unfold x. rewrite <- Zmod.of_Z_pow, <- Z.pow_mul_r, <- Hk by lia. apply Zmod.unsigned_inj.
    rewrite Zmod.unsigned_of_Z, Har, Zmod.unsigned_1_pos; lia. }
  assert (x <> Zmod.one) as Hx1.
  { intros E. assert ((r | a ^ k - 1)) as Hd.
    { apply Z.mod_divide; [lia|]. unfold x in E. rewrite <- (Zmod.of_Z_1 r), Zmod.of_Z_inj in E.
      rewrite Zminus_mod, E, Z.sub_diag. apply Z.mod_0_l. lia. }
    pose proof (Z.gcd_greatest _ _ _ Hd Hrn) as Hd1. rewrite Hg in Hd1. apply Z.divide_1_r_nonneg in Hd1; lia. }
  assert (x <> Zmod.zero) as Hx0.
  { intros E. rewrite E, Zmod.pow_0_l in Hxq by lia. symmetry in Hxq. by apply Zmod.one_neq_zero in Hxq; [|lia]. }
  destruct (Z.BoolSpec_divide_nz q (r - 1)) as [|Hnd]; [lia|done|].
  destruct (Z.Bezout_coprime _ _ (Z.coprime_prime_l q (r - 1) Hq Hnd)) as (u & v & Huv).
  exfalso. apply Hx1. assert (Z.gcd (Zmod.to_Z x) r = 1) as Hc.
  { rewrite Z.gcd_comm. apply Z.coprime_prime_small; [done|]. pose proof (Zmod.unsigned_pos_bound x).
    apply Zmod.unsigned_nz in Hx0. lia. }
  rewrite <- (Zmod.pow_1_r x), <- Huv, Zmod.pow_add_r_coprime, (Z.mul_comm u), (Z.mul_comm v) by done.
  rewrite !Zmod.pow_mul_r_coprime, Hxq by done. pose proof (Zmod.fermat_nz x Hx0 Hr) as Hf.
  rewrite Z.sub_1_r, Hf, !Zmod.pow_1_l. apply Zmod.mul_1_l.
Qed.

Definition product (qs : list Z) : Z := foldr Z.mul 1 qs.

Lemma product_divides qs m : Forall Z.prime qs -> NoDup qs -> Forall (fun q => (q | m)) qs -> (product qs | m).
Proof.
  intros Hp Hnd Hd. revert m Hd. induction qs as [|q qs IH]; intros m Hd; cbn; [apply Z.divide_1_l|].
  apply Forall_cons_1 in Hp as [Hq Hqs], Hd as [Hqm Hd]. apply NoDup_cons in Hnd as [Hnin Hnd].
  destruct (IH Hqs Hnd m Hd) as [c Hc]. fold (product qs) in *.
  assert (Z.coprime q (product qs)) as Hco.
  { clear IH Hc Hd Hnd. induction qs as [|q' qs IH]; cbn; [apply Z.coprime_1_r|].
    apply Forall_cons_1 in Hqs as [Hq' Hqs]. apply not_elem_of_cons in Hnin as [Hne Hnin].
    apply Z.coprime_mul_r; [|by apply IH]. apply Z.coprime_prime_l; [done|]. intros Hdiv.
    apply Hne. by apply Z.divide_prime_prime. }
  rewrite Hc in Hqm |- *. rewrite (Z.mul_comm c) in Hqm.
  apply Z.gauss in Hqm; [|exact Hco]. destruct Hqm as [e ->]. exists e. ring.
Qed.

Lemma pocklington n a qs : 1 < n -> Forall Z.prime qs -> NoDup qs -> (product qs | n - 1) ->
  n < (product qs + 1) * (product qs + 1) -> a ^ (n - 1) mod n = 1 ->
  Forall (fun q => Z.gcd (a ^ ((n - 1) / q) - 1) n = 1) qs -> Z.prime n.
Proof.
  intros Hn Hp Hnd HF Hlt Ha Hg. set (F := product qs) in *.
  assert (forall r, Z.prime r -> (r | n) -> F + 1 <= r) as Hbig.
  { intros r Hr Hrn. pose proof (Z.prime_ge_2 _ Hr).
    assert ((F | r - 1)) as Hd.
    { apply product_divides; [done..|]. rewrite Forall_forall in *. intros q Hq.
      apply (pocklington_step n a q r); auto. transitivity F; [|done].
      unfold F. clear -Hq. induction qs as [|q' qs IH]; [by apply elem_of_nil in Hq|].
      apply elem_of_cons in Hq as [->|Hq]; cbn; [apply Z.divide_factor_l|].
      apply Z.divide_mul_r. by apply IH. }
    apply Z.divide_pos_le in Hd; lia. }
  split; [done|]. intros m Hm [c Hc].
  destruct (prime_divisor m) as (r & Hr & Hrm); [lia|]. destruct (prime_divisor c) as (r' & Hr' & Hrc); [nia|].
  assert (F + 1 <= r) by (apply Hbig; [done|]; transitivity m; [done|by exists c]).
  assert (F + 1 <= r') by (apply Hbig; [done|]; transitivity c; [done|exists m; lia]).
  assert (0 < c) by nia. apply Z.divide_pos_le in Hrm; [|lia]. apply Z.divide_pos_le in Hrc; [|lia].
  assert (0 <= F).
  { unfold F. clear -Hp. induction Hp as [|q qs Hq Hqs IH]; cbn; [lia|]. pose proof (Z.prime_ge_2 _ Hq).
    fold (product qs). nia. }
  nia.
Qed.

(** ** Certificates *)

(** A number and the prime factors of its predecessor, for the base 2. *)
Definition check_certificate (n : Z) (qs : list Z) : bool :=
  (1 <? n) && ((n - 1) mod product qs =? 0) && (n <? (product qs + 1) * (product qs + 1)) &&
  (pow_mod 2 (n - 1) n =? 1) &&
  forallb (fun q => Z.gcd (pow_mod 2 ((n - 1) / q) n - 1) n =? 1) qs && forallb (fun q => 0 <? q) qs.

Lemma certificate_ok n qs : check_certificate n qs = true -> Forall Z.prime qs -> NoDup qs -> Z.prime n.
Proof.
  unfold check_certificate. intros H Hp Hnd.
  apply andb_prop in H as [H Hpos]. apply andb_prop in H as [H Hg]. apply andb_prop in H as [H Hf].
  apply andb_prop in H as [H Hlt]. apply andb_prop in H as [Hn HF].
  apply Z.ltb_lt in Hn, Hlt. apply Z.eqb_eq in HF, Hf. rewrite pow_mod_ok in Hf by lia.
  apply (pocklington n 2 qs); try done.
  - apply Z.mod_divide; [|done]. clear -Hp. induction Hp as [|q qs Hq Hqs IH]; cbn; [lia|].
    pose proof (Z.prime_ge_2 _ Hq). fold (product qs). nia.
  - apply Forall_forall. intros q Hq. apply list_elem_of_In in Hq. rewrite forallb_forall in Hg. specialize (Hg q Hq).
    apply Z.eqb_eq in Hg. rewrite forallb_forall in Hpos.
    pose proof (proj1 (Z.ltb_lt 0 q) (Hpos q Hq)). rewrite pow_mod_ok in Hg by (apply Z.div_pos; lia).
    apply (proj1 (Z.coprime_mod_l_iff _ n)). rewrite <- Zminus_mod_idemp_l. by apply (proj2 (Z.coprime_mod_l_iff _ n)).
Qed.

(** The chain, each number with primes established before it. *)
Fixpoint check_chain (known : list Z) (chain : list (Z * list Z)) : bool :=
  match chain with
  | [] => true
  | (n, qs) :: rest =>
      forallb (fun q => existsb (Z.eqb q) known) qs && bool_decide (NoDup qs) && check_certificate n qs &&
      check_chain (n :: known) rest
  end.

Lemma check_chain_ok known chain : Forall Z.prime known -> check_chain known chain = true ->
  Forall (fun c => Z.prime (fst c)) chain.
Proof.
  intros Hk. revert known Hk. induction chain as [|[n qs] chain IH]; intros known Hk H; [done|]. cbn [check_chain] in H.
  apply andb_prop in H as [H Hrest]. apply andb_prop in H as [H Hc]. apply andb_prop in H as [Hqs Hnd].
  apply bool_decide_eq_true in Hnd.
  assert (Z.prime n) as Hn.
  { apply (certificate_ok n qs Hc); [|done]. apply Forall_forall. intros q Hq. apply list_elem_of_In in Hq.
    rewrite forallb_forall in Hqs. specialize (Hqs q Hq). apply existsb_exists in Hqs as (q' & Hin & E).
    apply Z.eqb_eq in E as ->. rewrite Forall_forall in Hk. apply Hk. by apply list_elem_of_In. }
  constructor; [done|]. apply (IH (n :: known)); [by constructor|done].
Qed.

Lemma small_primes_ok l : forallb small_prime l = true -> Forall Z.prime l.
Proof.
  intros H. apply Forall_forall. intros p Hp. apply list_elem_of_In in Hp. rewrite forallb_forall in H.
  by apply small_prime_ok, H.
Qed.

Definition small_primes : list Z := [97; 103; 127; 419; 991; 1723; 4153].
Definition prime_chain : list (Z * list Z) :=
  [(430751, [1723]); (569003, [419; 97]); (8574133, [991; 103]); (2773320623, [569003]);
   (72106336199, [2773320623]); (1919519569386763, [8574133; 127]); (31757755568855353, [430751; 4153]);
   (75445702479781427272750846543864801, [1919519569386763; 72106336199]);
   (74058212732561358302231226437062788676166966415465897661863160754340907,
    [75445702479781427272750846543864801; 31757755568855353]);
   (P25519, [74058212732561358302231226437062788676166966415465897661863160754340907])].

Lemma prime_P25519 : Z.prime P25519.
Proof.
  assert (forallb small_prime small_primes = true) as Hs by (vm_compute; reflexivity).
  assert (check_chain small_primes prime_chain = true) as H by (vm_compute; reflexivity).
  pose proof (check_chain_ok _ _ (small_primes_ok _ Hs) H) as Hc. unfold prime_chain in Hc. rewrite !Forall_cons in Hc.
  by destruct Hc as (_ & _ & _ & _ & _ & _ & _ & _ & _ & Hp & _).
Qed.

(** ** The order of the base point *)

Definition order_primes : list Z := [2551; 3797].
Definition order_chain : list (Z * list Z) :=
  [(1224481, [2551]); (531581, [3797]); (1257559732178653, [1224481; 531581]);
   (4434155615661930479, [1257559732178653]); (172054593956031949258510691, [4434155615661930479]);
   (19757330305831588566944191468367130476339, [172054593956031949258510691]);
   (276602624281642239937218680557139826668747, [19757330305831588566944191468367130476339]);
   (L25519, [276602624281642239937218680557139826668747])].

Lemma prime_L25519 : Z.prime L25519.
Proof.
  assert (forallb small_prime order_primes = true) as Hs by (vm_compute; reflexivity).
  assert (check_chain order_primes order_chain = true) as H by (vm_compute; reflexivity).
  pose proof (check_chain_ok _ _ (small_primes_ok _ Hs) H) as Hc. unfold order_chain in Hc. rewrite !Forall_cons in Hc.
  by destruct Hc as (_ & _ & _ & _ & _ & _ & _ & Hp & _).
Qed.
