(* ===== verification/Edwards.v ===== *)
(** The group of an Edwards curve -x^2 + y^2 = 1 + d x^2 y^2 over a field in
    which -1 is a square and [d] is not: the addition law is complete, and the
    points form a commutative group. *)
From stdpp Require Import base list.
From Stdlib Require Import ZArith Lia Ring Field Field_tac.
From S2P Require Import Prelude.

(** What the group law needs of the field and of [d]. *)
Class Edwards : Type := {
  F : Type;
  f0 : F; f1 : F;
  fadd : F -> F -> F; fmul : F -> F -> F; fsub : F -> F -> F; fopp : F -> F;
  fdiv : F -> F -> F; finv : F -> F;
  F_field : field_theory f0 f1 fadd fmul fsub fopp fdiv finv eq;
  finv_0 : finv f0 = f0;
  #[global] F_dec :: EqDecision F;
  curve_d : F;
  sqrt_minus_1 : F;
  two_nonzero : fadd f1 f1 <> f0;
  sqrt_minus_1_law : fmul sqrt_minus_1 sqrt_minus_1 = fopp f1;
  d_nonsquare : forall x, fmul x x <> curve_d
}.

Declare Scope curve_scope.
Delimit Scope curve_scope with curve.
Notation "0" := f0 : curve_scope.
Notation "1" := f1 : curve_scope.
Infix "+" := fadd : curve_scope.
Infix "-" := fsub : curve_scope.
Infix "*" := fmul : curve_scope.
Infix "/" := fdiv : curve_scope.
Notation "- x" := (fopp x) : curve_scope.

Section Field.
Context `{E : Edwards}.
Open Scope curve_scope.
Add Field F_field_section : F_field.

Lemma mul_zero a b : a * b = 0 -> a = 0 \/ b = 0.
Proof.
  intros H. destruct (decide (a = 0)) as [|Ha]; [by left|right].
  transitivity (finv a * (a * b)); [field; done|]. rewrite H. ring.
Qed.

Lemma mul_nonzero a b : a <> 0 -> b <> 0 -> a * b <> 0.
Proof. intros Ha Hb H. by destruct (mul_zero _ _ H). Qed.

Lemma mul_cancel m a b : m <> 0 -> m * a = m * b -> a = b.
Proof.
  intros Hm H. transitivity (finv m * (m * a)); [field; done|]. rewrite H. field. done.
Qed.

Lemma sub_zero a b : a - b = 0 -> a = b.
Proof. intros H. transitivity (a - b + b); [ring|]. rewrite H. ring. Qed.

Lemma double_zero a : a + a = 0 -> a = 0.
Proof.
  intros H. assert ((1 + 1) * a = 0) as H2 by (rewrite <- H; ring).
  destruct (mul_zero _ _ H2) as [H3|]; [by apply two_nonzero in H3|done].
Qed.

Lemma d_nonzero : curve_d <> 0.
Proof. intros H. apply (d_nonsquare 0). rewrite H. ring. Qed.

(** [d] times a square is a square only at zero. *)
Lemma d_square a b : curve_d * (b * b) = a * a -> b = 0.
Proof.
  intros H. destruct (decide (b = 0)) as [|Hb]; [done|]. exfalso. apply (d_nonsquare (a / b)).
  transitivity (a * a * finv (b * b)); [field; done|]. rewrite <- H. field. done.
Qed.

(** ** The curve *)

Definition on_curve (x y : F) : Prop := y * y - x * x = 1 + curve_d * (x * x * (y * y)).
#[global] Instance on_curve_dec x y : Decision (on_curve x y).
Proof. unfold on_curve. apply _. Defined.

Definition curve_t (x1 y1 x2 y2 : F) : F := curve_d * (x1 * x2 * (y1 * y2)).

(** [x^2 y^2] in terms of smaller monomials. *)
Lemma on_curve_mono x y k : curve_d * k = 1 -> on_curve x y -> x * x * (y * y) = k * (y * y - x * x - 1).
Proof.
  unfold on_curve. intros Hk ->. transitivity (curve_d * k * (x * x * (y * y))); [rewrite Hk; ring|ring].
Qed.

(** The abscissas of an ordinate are the square roots of (y^2 - 1) / (d y^2 + 1). *)
Lemma denominator_nonzero y : curve_d * (y * y) + 1 <> 0.
Proof.
  intros H. assert (curve_d * (y * y) = sqrt_minus_1 * sqrt_minus_1) as Hs.
  { rewrite sqrt_minus_1_law. transitivity (curve_d * (y * y) + 1 - 1); [ring|]. rewrite H. ring. }
  apply d_square in Hs as ->. apply F_field.(F_1_neq_0). rewrite <- H. ring.
Qed.

Lemma on_curve_quotient x y : on_curve x y <-> x * x * (curve_d * (y * y) + 1) = y * y - 1.
Proof.
  unfold on_curve. split; intros H.
  - transitivity (x * x + (1 + curve_d * (x * x * (y * y))) - 1); [ring|]. rewrite <- H. ring.
  - transitivity (1 + (y * y - 1) - x * x); [ring|]. rewrite <- H. ring.
Qed.

Lemma square_roots a b : a * a = b * b -> a = b \/ a = - b.
Proof.
  intros H. destruct (mul_zero (a - b) (a + b)) as [H0|H0].
  - transitivity (a * a - b * b); [ring|]. rewrite H. ring.
  - left. by apply sub_zero.
  - right. transitivity (a + b - b); [ring|]. rewrite H0. ring.
Qed.

(** The candidate for the square root of u/v made from a power [c] of u v^7. *)
Lemma root_candidate u v c : c * (v * v * v) * u * (c * (v * v * v) * u) * v =
  u * ((v * v * v) * (v * v * v) * v * u * (c * c)).
Proof. ring. Qed.
Lemma root_base x v u : x * x * v = u -> (v * v * v) * (v * v * v) * v * u = v * v * (v * v) * x * (v * v * (v * v) * x).
Proof. intros <-. ring. Qed.
Lemma root_times_i x v u : x * x * v = - u -> x * sqrt_minus_1 * (x * sqrt_minus_1) * v = u.
Proof.
  intros H. transitivity (x * x * v * (sqrt_minus_1 * sqrt_minus_1)); [ring|]. rewrite sqrt_minus_1_law, H. ring.
Qed.
Lemma quotient_zero x v u : v <> 0 -> x * x * v = u -> u = 0 -> x = 0.
Proof.
  intros Hv H ->. destruct (mul_zero _ _ H) as [H0|]; [|done]. by destruct (mul_zero _ _ H0).
Qed.
Lemma opp_square x v u : x * x * v = u -> - x * - x * v = u.
Proof. intros <-. ring. Qed.
Lemma sub_self x : x - x = 0.
Proof. ring. Qed.
Lemma add_opp_self x : - x + x = 0.
Proof. ring. Qed.
Lemma add_zero x y : x + y = 0 -> x = - y.
Proof. intros H. transitivity (x + y - y); [ring|]. rewrite H. ring. Qed.
Lemma mul_1 x : x * 1 = x.
Proof. ring. Qed.
Lemma mul_m1 x : x * - (1) = - x.
Proof. ring. Qed.
Lemma mul_0 x : x * 0 = 0.
Proof. ring. Qed.
Lemma mul_comm x y : x * y = y * x.
Proof. ring. Qed.
Lemma opp_opp x : - - x = x.
Proof. ring. Qed.
Lemma opp_0 : - (0 : F) = 0.
Proof. ring. Qed.
Lemma opp_zero x : - x = 0 -> x = 0.
Proof. intros H. rewrite <- (opp_opp x), H. ring. Qed.

(** If the product of coordinates were a square root of 1, [d] would be a
    square. *)
Lemma complete_step x1 y1 x2 y2 e : on_curve x1 y1 -> on_curve x2 y2 ->
  curve_t x1 y1 x2 y2 = e -> e * e = 1 -> False.
Proof.
  unfold on_curve, curve_t. intros H1 H2 He Hee. pose proof sqrt_minus_1_law as Hi. set (i := sqrt_minus_1) in *.
  assert (He0 : e <> 0).
  { intros ->. apply F_field.(F_1_neq_0). rewrite <- Hee. ring. }
  assert (Hxy : x1 * y1 <> 0) by (intros H; apply He0; rewrite <- He; transitivity (curve_d * (x1 * y1 * (x2 * y2)));
    [ring|rewrite H; ring]).
  assert (Hx2 : x2 <> 0) by (intros H; apply He0; rewrite <- He, H; ring).
  assert (Hsum : curve_d * ((x1 * y1) * (x1 * y1)) * (y2 * y2 - x2 * x2) = y1 * y1 - x1 * x1).
  { rewrite H2, H1. transitivity (curve_d * (x1 * x1 * (y1 * y1)) +
      curve_d * (x1 * x2 * (y1 * y2)) * (curve_d * (x1 * x2 * (y1 * y2)))); [ring|]. rewrite He, Hee. ring. }
  assert (Hroot : forall s, s * s = 1 ->
    curve_d * ((x1 * y1 * (i * x2 + s * y2)) * (x1 * y1 * (i * x2 + s * y2))) = (i * x1 + s * e * y1) * (i * x1 + s * e * y1)).
  { intros s Hs.
    transitivity (curve_d * ((x1 * y1) * (x1 * y1)) * (i * i * (x2 * x2) + s * s * (y2 * y2)) +
      (1 + 1) * s * i * (x1 * y1) * (curve_d * (x1 * x2 * (y1 * y2)))); [ring|].
    rewrite He, Hi, Hs. transitivity (curve_d * ((x1 * y1) * (x1 * y1)) * (y2 * y2 - x2 * x2) +
      (1 + 1) * s * i * (x1 * y1) * e); [ring|]. rewrite Hsum.
    transitivity (i * i * (x1 * x1) + s * s * (e * e) * (y1 * y1) + (1 + 1) * s * i * (x1 * y1) * e);
      [rewrite Hi, Hs, Hee; ring|ring]. }
  assert (Hplus : i * x2 + 1 * y2 = 0).
  { assert (1 * 1 = 1) as H11 by ring. pose proof (d_square _ _ (Hroot 1 H11)) as H.
    by destruct (mul_zero _ _ H). }
  assert (Hminus : i * x2 + - (1) * y2 = 0).
  { assert (- (1) * - (1) = 1) as H11 by ring. pose proof (d_square _ _ (Hroot (- (1)) H11)) as H.
    by destruct (mul_zero _ _ H). }
  apply Hx2, double_zero.
  assert (Hix : i * (x2 + x2) = 0) by (transitivity ((i * x2 + 1 * y2) + (i * x2 + - (1) * y2));
    [ring|rewrite Hplus, Hminus; ring]).
  destruct (mul_zero _ _ Hix) as [Hi0|]; [|done]. exfalso. rewrite Hi0 in Hi. apply F_field.(F_1_neq_0).
  transitivity (- (0 * 0)); [rewrite Hi; ring|ring].
Qed.

Lemma complete x1 y1 x2 y2 : on_curve x1 y1 -> on_curve x2 y2 ->
  1 + curve_t x1 y1 x2 y2 <> 0 /\ 1 - curve_t x1 y1 x2 y2 <> 0.
Proof.
  intros H1 H2. split; intros H.
  - apply (complete_step x1 y1 x2 y2 (- (1)) H1 H2); [|ring].
    transitivity (1 + curve_t x1 y1 x2 y2 - 1); [ring|]. rewrite H. ring.
  - apply (complete_step x1 y1 x2 y2 1 H1 H2); [|ring]. symmetry. by apply sub_zero.
Qed.

Lemma quotient_eq a b c e m n : m <> 0 -> n <> 0 -> c <> 0 -> e <> 0 ->
  (m * a) * (n * e) = (n * b) * (m * c) -> a / c = b / e.
Proof.
  intros Hm Hn Hc He H. field_simplify_eq; [|split; done].
  apply (mul_cancel (m * n)); [by apply mul_nonzero|]. transitivity (m * a * (n * e)); [ring|]. rewrite H. ring.
Qed.

(** The sum of two points of the curve. *)
Definition sum_x (x1 y1 x2 y2 : F) : F := (x1 * y2 + y1 * x2) / (1 + curve_t x1 y1 x2 y2).
Definition sum_y (x1 y1 x2 y2 : F) : F := (y1 * y2 + x1 * x2) / (1 - curve_t x1 y1 x2 y2).

Lemma closure_identity x1 y1 x2 y2 k : curve_d * k = 1 ->
  x1 * x1 * (y1 * y1) = k * (y1 * y1 - x1 * x1 - 1) -> x2 * x2 * (y2 * y2) = k * (y2 * y2 - x2 * x2 - 1) ->
  let t := curve_d * (x1 * x2 * (y1 * y2)) in
  let A := x1 * y2 + y1 * x2 in let B := y1 * y2 + x1 * x2 in
  B * B * (1 + t) * (1 + t) - A * A * (1 - t) * (1 - t) =
  (1 + t) * (1 + t) * (1 - t) * (1 - t) + curve_d * A * A * B * B.
Proof. intros Hk H1 H2 t A B. unfold t, A, B. ring_simplify [H1 H2 Hk]. ring [H1 H2 Hk]. Qed.

Lemma sum_on_curve x1 y1 x2 y2 : on_curve x1 y1 -> on_curve x2 y2 ->
  on_curve (sum_x x1 y1 x2 y2) (sum_y x1 y1 x2 y2).
Proof.
  intros H1 H2. destruct (complete _ _ _ _ H1 H2) as [Hp Hm]. unfold on_curve, sum_x, sum_y.
  assert (curve_d * finv curve_d = 1) as Hk by (field; apply d_nonzero).
  pose proof (closure_identity x1 y1 x2 y2 _ Hk (on_curve_mono _ _ _ Hk H1) (on_curve_mono _ _ _ Hk H2)) as Hid.
  cbn zeta in Hid. unfold curve_t in *. set (t := curve_d * _) in *.
  set (A := x1 * y2 + y1 * x2) in *. set (B := y1 * y2 + x1 * x2) in *.
  apply (mul_cancel ((1 + t) * (1 + t) * ((1 - t) * (1 - t)))); [by repeat apply mul_nonzero|].
  transitivity (B * B * (1 + t) * (1 + t) - A * A * (1 - t) * (1 - t)); [field; done|].
  rewrite Hid. field. done.
Qed.

(** ** Associativity *)

Section Associativity.
Context (x1 y1 x2 y2 x3 y3 k : F).
Context (Hk : curve_d * k = 1).
Context (H1 : x1 * x1 * (y1 * y1) = k * (y1 * y1 - x1 * x1 - 1)).
Context (H2 : x2 * x2 * (y2 * y2) = k * (y2 * y2 - x2 * x2 - 1)).
Context (H3 : x3 * x3 * (y3 * y3) = k * (y3 * y3 - x3 * x3 - 1)).
Let t12 := curve_d * (x1 * x2 * (y1 * y2)).
Let t23 := curve_d * (x2 * x3 * (y2 * y3)).
Let a12 := x1 * y2 + y1 * x2.
Let b12 := y1 * y2 + x1 * x2.
Let a23 := x2 * y3 + y2 * x3.
Let b23 := y2 * y3 + x2 * x3.

Lemma assoc_identity_x :
  ((1 - t12) * a12 * y3 + (1 + t12) * b12 * x3) *
    ((1 + t23) * (1 - t23) + curve_d * (x1 * a23 * (y1 * b23))) =
  ((1 + t23) * b23 * x1 + (1 - t23) * y1 * a23) *
    ((1 + t12) * (1 - t12) + curve_d * (a12 * x3 * (b12 * y3))).
Proof. unfold t12, t23, a12, b12, a23, b23. ring_simplify [H1 H2 H3 Hk]. ring [H1 H2 H3 Hk]. Qed.

Lemma assoc_identity_y :
  ((1 + t12) * b12 * y3 + (1 - t12) * a12 * x3) *
    ((1 + t23) * (1 - t23) - curve_d * (x1 * a23 * (y1 * b23))) =
  ((1 + t23) * b23 * y1 + (1 - t23) * x1 * a23) *
    ((1 + t12) * (1 - t12) - curve_d * (a12 * x3 * (b12 * y3))).
Proof. unfold t12, t23, a12, b12, a23, b23. ring_simplify [H1 H2 H3 Hk]. ring [H1 H2 H3 Hk]. Qed.
End Associativity.

Section Sums.
Context (x1 y1 x2 y2 x3 y3 : F).
Context (H1 : on_curve x1 y1) (H2 : on_curve x2 y2) (H3 : on_curve x3 y3).

Lemma sum_assoc :
  sum_x (sum_x x1 y1 x2 y2) (sum_y x1 y1 x2 y2) x3 y3 = sum_x x1 y1 (sum_x x2 y2 x3 y3) (sum_y x2 y2 x3 y3) /\
  sum_y (sum_x x1 y1 x2 y2) (sum_y x1 y1 x2 y2) x3 y3 = sum_y x1 y1 (sum_x x2 y2 x3 y3) (sum_y x2 y2 x3 y3).
Proof.
  destruct (complete _ _ _ _ H1 H2) as [Hp Hm]. destruct (complete _ _ _ _ H2 H3) as [Hp' Hm'].
  destruct (complete _ _ _ _ (sum_on_curve _ _ _ _ H1 H2) H3) as [Hu Hu'].
  destruct (complete _ _ _ _ H1 (sum_on_curve _ _ _ _ H2 H3)) as [Hv Hv'].
  assert (curve_d * finv curve_d = 1) as Hk by (field; apply d_nonzero).
  pose proof (assoc_identity_x x1 y1 x2 y2 x3 y3 _ Hk (on_curve_mono _ _ _ Hk H1) (on_curve_mono _ _ _ Hk H2)
    (on_curve_mono _ _ _ Hk H3)) as Hx.
  pose proof (assoc_identity_y x1 y1 x2 y2 x3 y3 _ Hk (on_curve_mono _ _ _ Hk H1) (on_curve_mono _ _ _ Hk H2)
    (on_curve_mono _ _ _ Hk H3)) as Hy.
  revert Hu Hu' Hv Hv'. unfold sum_x, sum_y, curve_t in *.
  set (t12 := curve_d * (x1 * x2 * (y1 * y2))) in *. set (t23 := curve_d * (x2 * x3 * (y2 * y3))) in *.
  set (a12 := x1 * y2 + y1 * x2) in *. set (b12 := y1 * y2 + x1 * x2) in *.
  set (a23 := x2 * y3 + y2 * x3) in *. set (b23 := y2 * y3 + x2 * x3) in *. intros Hu Hu' Hv Hv'.
  assert ((1 + t12) * (1 - t12) <> 0) as Hd12 by by apply mul_nonzero.
  assert ((1 + t23) * (1 - t23) <> 0) as Hd23 by by apply mul_nonzero.
  split; apply (quotient_eq _ _ _ _ ((1 + t12) * (1 - t12)) ((1 + t23) * (1 - t23))); try done.
  - transitivity (((1 - t12) * a12 * y3 + (1 + t12) * b12 * x3) *
      ((1 + t23) * (1 - t23) + curve_d * (x1 * a23 * (y1 * b23)))); [field; done|]. rewrite Hx. field. done.
  - transitivity (((1 + t12) * b12 * y3 + (1 - t12) * a12 * x3) *
      ((1 + t23) * (1 - t23) - curve_d * (x1 * a23 * (y1 * b23)))); [field; done|]. rewrite Hy. field. done.
Qed.
End Sums.

(** ** The group *)

Record point : Type := Point { p_x : F; p_y : F; p_ok : bool_decide (on_curve p_x p_y) = true }.

Lemma point_on_curve (p : point) : on_curve (p_x p) (p_y p).
Proof. apply (bool_decide_eq_true_1 _ (p_ok p)). Qed.

Lemma point_eq (p q : point) : p_x p = p_x q -> p_y p = p_y q -> p = q.
Proof. destruct p as [x y H], q as [x' y' H']. cbn. intros -> ->. f_equal. apply proof_irrel. Qed.

Lemma same_ordinate (p q : point) : p_y p = p_y q -> p_x p = p_x q \/ p_x p = - p_x q.
Proof.
  intros H. apply square_roots. apply (mul_cancel _ _ _ (denominator_nonzero (p_y p))).
  rewrite (mul_comm _ (p_x p * p_x p)), (mul_comm _ (p_x q * p_x q)).
  transitivity (p_y p * p_y p - 1); [apply on_curve_quotient, point_on_curve|]. rewrite H.
  symmetry. apply on_curve_quotient, point_on_curve.
Qed.

Definition make_point (x y : F) (H : on_curve x y) : point := Point x y (bool_decide_eq_true_2 _ H).

Lemma origin_on_curve : on_curve 0 1.
Proof. unfold on_curve. ring. Qed.
Definition origin : point := make_point 0 1 origin_on_curve.

Definition padd (p q : point) : point :=
  make_point (sum_x (p_x p) (p_y p) (p_x q) (p_y q)) (sum_y (p_x p) (p_y p) (p_x q) (p_y q))
    (sum_on_curve _ _ _ _ (point_on_curve p) (point_on_curve q)).

Lemma opp_on_curve p : on_curve (- p_x p) (p_y p).
Proof. pose proof (point_on_curve p) as H. unfold on_curve in *. transitivity (p_y p * p_y p - p_x p * p_x p); [ring|]. rewrite H. ring. Qed.
Definition popp (p : point) : point := make_point (- p_x p) (p_y p) (opp_on_curve p).

Lemma padd_comm p q : padd p q = padd q p.
Proof.
  apply point_eq; cbn; unfold sum_x, sum_y, curve_t; f_equal; try ring; f_equal; ring.
Qed.

Lemma padd_assoc p q r : padd (padd p q) r = padd p (padd q r).
Proof.
  destruct (sum_assoc _ _ _ _ _ _ (point_on_curve p) (point_on_curve q) (point_on_curve r)) as [Hx Hy].
  by apply point_eq.
Qed.

Lemma padd_0_r p : padd p origin = p.
Proof.
  apply point_eq; cbn; unfold sum_x, sum_y, curve_t.
  - replace (1 + _) with 1 by ring. field. apply F_field.(F_1_neq_0).
  - replace (1 - _) with 1 by ring. field. apply F_field.(F_1_neq_0).
Qed.
Lemma padd_0_l p : padd origin p = p.
Proof. rewrite padd_comm. apply padd_0_r. Qed.

Lemma padd_opp_r p : padd p (popp p) = origin.
Proof.
  pose proof (point_on_curve p) as H. destruct (complete _ _ _ _ H (opp_on_curve p)) as [Hp Hm].
  apply point_eq; cbn; unfold sum_x, sum_y, curve_t in *; unfold on_curve in H.
  - apply (mul_cancel (1 + curve_d * (p_x p * - p_x p * (p_y p * p_y p)))); [done|]. field. done.
  - apply (mul_cancel (1 - curve_d * (p_x p * - p_x p * (p_y p * p_y p)))); [done|].
    transitivity (p_y p * p_y p - p_x p * p_x p); [field; done|]. rewrite H. ring.
Qed.
Lemma padd_opp_l p : padd (popp p) p = origin.
Proof. rewrite padd_comm. apply padd_opp_r. Qed.
End Field.
