(* ===== verification/Coordinates.v ===== *)
(** Multiples of points, and the coordinate systems of ge.h: what it means
    that projective, extended, completed and cached coordinates stand for a
    point, and the formulas of addition and doubling. *)
From stdpp Require Import base list.
From Stdlib Require Import ZArith Lia Ring Field Field_tac.
From S2P Require Import Prelude Edwards.

Section Multiples.
Context `{E : Edwards}.

Fixpoint nmul (n : nat) (p : point) : point :=
  match n with
  | O => origin
  | S n' => padd p (nmul n' p)
  end.
Definition zmul (z : Z) (p : point) : point :=
  if Z.leb 0 z then nmul (Z.to_nat z) p else popp (nmul (Z.to_nat (- z)) p).

Lemma padd_cancel p q r : padd p q = padd p r -> q = r.
Proof.
  intros H. rewrite <- (padd_0_l q), <- (padd_0_l r), <- (padd_opp_l p), !padd_assoc. by rewrite H.
Qed.

Lemma popp_add p q : popp (padd p q) = padd (popp p) (popp q).
Proof.
  apply (padd_cancel (padd p q)). rewrite padd_opp_r, padd_assoc, <- (padd_assoc q), (padd_comm q).
  by rewrite (padd_assoc (popp p)), padd_opp_r, padd_0_r, padd_opp_r.
Qed.
Lemma popp_0 : popp origin = origin.
Proof. apply (padd_cancel origin). by rewrite padd_opp_r, padd_0_r. Qed.
Lemma popp_popp p : popp (popp p) = p.
Proof. apply (padd_cancel (popp p)). by rewrite padd_opp_r, padd_opp_l. Qed.

Lemma zmul_0 p : zmul 0 p = origin.
Proof. done. Qed.

Lemma zmul_succ z p : zmul (Z.succ z) p = padd p (zmul z p).
Proof.
  unfold zmul. destruct (Z.leb_spec 0 z), (Z.leb_spec 0 (Z.succ z)); try lia.
  - by rewrite Z2Nat.inj_succ by lia.
  - assert (z = -1)%Z as -> by lia. change (origin = padd p (popp (padd p origin))).
    by rewrite padd_0_r, padd_opp_r.
  - replace (Z.to_nat (- z)) with (S (Z.to_nat (- Z.succ z))) by lia. cbn [nmul].
    by rewrite popp_add, <- padd_assoc, padd_opp_r, padd_0_l.
Qed.

Lemma zmul_1 p : zmul 1 p = p.
Proof. change 1%Z with (Z.succ 0). by rewrite zmul_succ, zmul_0, padd_0_r. Qed.

Lemma zmul_pred z p : zmul (Z.pred z) p = padd (popp p) (zmul z p).
Proof.
  rewrite <- (Z.succ_pred z) at 2. by rewrite zmul_succ, <- padd_assoc, padd_opp_l, padd_0_l.
Qed.

(** Induction in both directions. *)
Lemma zmul_add a b p : zmul (a + b) p = padd (zmul a p) (zmul b p).
Proof.
  induction a as [|a IH|a IH] using Z.peano_ind.
  - by rewrite Z.add_0_l, zmul_0, padd_0_l.
  - by rewrite Z.add_succ_l, !zmul_succ, IH, padd_assoc.
  - by rewrite Z.add_pred_l, !zmul_pred, IH, padd_assoc.
Qed.

Lemma zmul_opp a p : zmul (- a) p = popp (zmul a p).
Proof. apply (padd_cancel (zmul a p)). by rewrite <- zmul_add, Z.add_opp_diag_r, padd_opp_r. Qed.

Lemma zmul_sub a b p : zmul (a - b) p = padd (zmul a p) (popp (zmul b p)).
Proof. by rewrite <- Z.add_opp_r, zmul_add, zmul_opp. Qed.

Lemma zmul_mul a b p : zmul (a * b) p = zmul a (zmul b p).
Proof.
  induction a as [|a IH|a IH] using Z.peano_ind; [done| |].
  - by rewrite Z.mul_succ_l, Z.add_comm, zmul_add, zmul_succ, IH.
  - by rewrite Z.mul_pred_l, zmul_sub, zmul_pred, IH, padd_comm.
Qed.

Lemma zmul_padd a p q : zmul a (padd p q) = padd (zmul a p) (zmul a q).
Proof.
  induction a as [|a IH|a IH] using Z.peano_ind; [by rewrite !zmul_0, padd_0_r| |].
  - rewrite !zmul_succ, IH, !padd_assoc. f_equal. rewrite <- !padd_assoc. f_equal. apply padd_comm.
  - rewrite !zmul_pred, IH, popp_add, !padd_assoc. f_equal. rewrite <- !padd_assoc. f_equal. apply padd_comm.
Qed.

Lemma zmul_origin a : zmul a origin = origin.
Proof.
  induction a as [|a IH|a IH] using Z.peano_ind; [done|by rewrite zmul_succ, IH, padd_0_r|].
  by rewrite zmul_pred, IH, popp_0, padd_0_r.
Qed.

Lemma zmul_popp a p : zmul a (popp p) = popp (zmul a p).
Proof. by rewrite <- (zmul_1 p) at 1; rewrite <- zmul_opp, <- zmul_mul, Z.mul_opp_r, Z.mul_1_r, zmul_opp. Qed.

Lemma zmul_double a p : zmul (2 * a) p = padd (zmul a p) (zmul a p).
Proof. by rewrite <- Z.add_diag, zmul_add. Qed.

(** Multiples modulo the order of a point. *)
Lemma zmul_mod n a p : n <> 0%Z -> zmul n p = origin -> zmul (a mod n) p = zmul a p.
Proof.
  intros Hn H. rewrite (Z.div_mod a n) at 2 by done.
  by rewrite zmul_add, Z.mul_comm, zmul_mul, H, zmul_origin, padd_0_l.
Qed.
End Multiples.

(** ** Coordinates *)

Section Coordinates.
Context `{E : Edwards}.
Open Scope curve_scope.
Add Field coordinates_field : F_field.

Definition rep_projective (X Y Z : F) (p : point) : Prop := Z <> 0 /\ X = p_x p * Z /\ Y = p_y p * Z.
Definition rep_extended (X Y Z T : F) (p : point) : Prop :=
  Z <> 0 /\ X = p_x p * Z /\ Y = p_y p * Z /\ T = p_x p * p_y p * Z.
Definition rep_completed (X Y Z T : F) (p : point) : Prop :=
  Z <> 0 /\ T <> 0 /\ X = p_x p * Z /\ Y = p_y p * T.
Definition rep_cached (YpX YmX Z T2d : F) (p : point) : Prop :=
  Z <> 0 /\ YpX = (p_y p + p_x p) * Z /\ YmX = (p_y p - p_x p) * Z /\
  T2d = (1 + 1) * curve_d * (p_x p * p_y p) * Z.

Lemma origin_projective : rep_projective 0 1 1 origin.
Proof. split; [apply F_field.(F_1_neq_0)|]. cbn. split; ring. Qed.
Lemma origin_extended : rep_extended 0 1 1 0 origin.
Proof. split; [apply F_field.(F_1_neq_0)|]. cbn. split_and!; ring. Qed.
Lemma origin_cached : rep_cached 1 1 1 0 origin.
Proof. split; [apply F_field.(F_1_neq_0)|]. cbn. split_and!; ring. Qed.

(** A point with Z = 1. *)
Lemma cached_1 A B C p : A = p_y p + p_x p -> B = p_y p - p_x p ->
  C = (1 + 1) * curve_d * (p_x p * p_y p) -> rep_cached A B 1 C p.
Proof. intros -> -> ->. split; [apply F_field.(F_1_neq_0)|]. split_and!; ring. Qed.

(** The negative of a point, from its coordinates. *)
Lemma extended_make x y (H : on_curve (- x) y) : rep_extended x y 1 (x * y) (popp (make_point (- x) y H)).
Proof. split; [apply F_field.(F_1_neq_0)|]. cbn. split_and!; ring. Qed.

Lemma affine_projective p : rep_projective (p_x p) (p_y p) 1 p.
Proof. split; [apply F_field.(F_1_neq_0)|]. split; ring. Qed.

Lemma affine_extended p : rep_extended (p_x p) (p_y p) 1 (p_x p * p_y p) p.
Proof. split; [apply F_field.(F_1_neq_0)|]. split_and!; ring. Qed.

Lemma origin_unique X Y Z p : rep_projective X Y Z p -> X = 0 -> Y = Z -> p = origin.
Proof.
  intros (HZ & HX & HY) H0 H1. apply point_eq; apply (mul_cancel Z); try done; cbn.
  - transitivity (p_x p * Z); [ring|]. rewrite <- HX, H0. ring.
  - transitivity (p_y p * Z); [ring|]. rewrite <- HY, H1. ring.
Qed.

Lemma ordinate_1 p : p_y p = 1 -> p = origin.
Proof.
  intros H. apply (origin_unique (p_x p) 1 1); [|pose proof (point_on_curve p) as Hc; apply on_curve_quotient in Hc|done].
  - split; [apply F_field.(F_1_neq_0)|]. rewrite H. split; ring.
  - apply (quotient_zero _ _ _ (denominator_nonzero (p_y p)) Hc). rewrite H. ring.
Qed.

(** ** The Montgomery form

    The u-coordinate of a point, with 0 in place of infinity, and back. *)
Definition mont_u (p : point) : F := (p_y p + 1) * finv (1 - p_y p).
Definition edwards_y (u : F) : F := (u - 1) * finv (u + 1).

Lemma edwards_y_mont_u p : p <> origin -> edwards_y (mont_u p) = p_y p.
Proof.
  intros Hp. assert (1 - p_y p <> 0) as Hy.
  { intros H. apply Hp, ordinate_1. symmetry. by apply sub_zero. }
  assert (p_y p + 1 + (1 - p_y p) <> 0) as H2.
  { intros H. apply two_nonzero. rewrite <- H. ring. }
  unfold edwards_y, mont_u. field. split; [exact Hy|exact H2].
Qed.

Lemma mont_u_quotient u p : u * (1 - p_y p) = p_y p + 1 -> 1 - p_y p <> 0 -> mont_u p = u.
Proof. intros H Hy. unfold mont_u. rewrite <- H. field. exact Hy. Qed.

Lemma mont_u_projective X Y Z p : rep_projective X Y Z p -> (Y + Z) * finv (Z - Y) = mont_u p.
Proof.
  intros (HZ & -> & ->). unfold mont_u. destruct (decide (1 - p_y p = 0)) as [H|H].
  - assert (Z - p_y p * Z = 0) as H' by (transitivity ((1 - p_y p) * Z); [ring|]; rewrite H; ring).
    rewrite H, H', finv_0. ring.
  - assert (Z - p_y p * Z <> 0) as H'.
    { intros E0. apply (mul_nonzero _ _ H HZ). rewrite <- E0. ring. }
    field. split; [exact H|exact H'].
Qed.

(** Coordinates determine the point. *)
Lemma projective_unique X Y Z p x y : rep_projective X Y Z p -> X = x * Z -> Y = y * Z -> x = p_x p /\ y = p_y p.
Proof.
  intros (HZ & -> & ->) HX HY. split; apply (mul_cancel Z); try done.
  - transitivity (x * Z); [ring|]. rewrite <- HX. ring.
  - transitivity (y * Z); [ring|]. rewrite <- HY. ring.
Qed.

Lemma projective_affine X Y Z p : rep_projective X Y Z p -> X * finv Z = p_x p /\ Y * finv Z = p_y p.
Proof. intros (HZ & -> & ->). split; field; done. Qed.

Lemma sum_unique x1 y1 x2 y2 x y : on_curve x1 y1 -> on_curve x2 y2 ->
  (1 + curve_t x1 y1 x2 y2) * x = x1 * y2 + y1 * x2 -> (1 - curve_t x1 y1 x2 y2) * y = y1 * y2 + x1 * x2 ->
  x = sum_x x1 y1 x2 y2 /\ y = sum_y x1 y1 x2 y2.
Proof.
  intros H1 H2 Hx Hy. destruct (complete _ _ _ _ H1 H2) as [Hp Hm]. unfold sum_x, sum_y. split.
  - apply (mul_cancel _ _ _ Hp). rewrite Hx. field. done.
  - apply (mul_cancel _ _ _ Hm). rewrite Hy. field. done.
Qed.

Lemma extended_projective X Y Z T p : rep_extended X Y Z T p -> rep_projective X Y Z p.
Proof. intros (H & HX & HY & _). by split. Qed.

Lemma completed_projective X Y Z T p : rep_completed X Y Z T p -> rep_projective (X * T) (Y * Z) (Z * T) p.
Proof. intros (HZ & HT & -> & ->). split; [by apply mul_nonzero|]. split; ring. Qed.

Lemma completed_extended X Y Z T p : rep_completed X Y Z T p -> rep_extended (X * T) (Y * Z) (Z * T) (X * Y) p.
Proof. intros (HZ & HT & -> & ->). split; [by apply mul_nonzero|]. split_and!; ring. Qed.

Lemma extended_cached X Y Z T p : rep_extended X Y Z T p ->
  rep_cached (Y + X) (Y - X) Z (T * ((1 + 1) * curve_d)) p.
Proof. intros (HZ & -> & -> & ->). split; [done|]. split_and!; ring. Qed.

(** The negative of a cached point. *)
Lemma cached_opp A B Z C p : rep_cached A B Z C p -> rep_cached B A Z (- C) (popp p).
Proof. intros (HZ & -> & -> & ->). split; [done|]. cbn. split_and!; ring. Qed.

Lemma add_completed X1 Y1 Z1 T1 p A B Z2 C q : rep_extended X1 Y1 Z1 T1 p -> rep_cached A B Z2 C q ->
  rep_completed ((Y1 + X1) * A - (Y1 - X1) * B) ((Y1 + X1) * A + (Y1 - X1) * B)
    ((Z1 * Z2 + Z1 * Z2) + C * T1) ((Z1 * Z2 + Z1 * Z2) - C * T1) (padd p q).
Proof.
  intros (HZ1 & -> & -> & ->) (HZ2 & -> & -> & ->).
  destruct (complete _ _ _ _ (point_on_curve p) (point_on_curve q)) as [Hp Hm].
  unfold rep_completed. cbn. unfold sum_x, sum_y. unfold curve_t in *.
  set (x1 := p_x p) in *. set (y1 := p_y p) in *. set (x2 := p_x q) in *. set (y2 := p_y q) in *.
  assert ((1 + 1) * (Z1 * Z2) <> 0) as H2.
  { apply mul_nonzero; [apply two_nonzero|by apply mul_nonzero]. }
  split_and!.
  - intros H. apply (mul_nonzero _ _ H2 Hp). rewrite <- H. ring.
  - intros H. apply (mul_nonzero _ _ H2 Hm). rewrite <- H. ring.
  - field. done.
  - field. done.
Qed.

Lemma sub_completed X1 Y1 Z1 T1 p A B Z2 C q : rep_extended X1 Y1 Z1 T1 p -> rep_cached A B Z2 C q ->
  rep_completed ((Y1 + X1) * B - (Y1 - X1) * A) ((Y1 + X1) * B + (Y1 - X1) * A)
    ((Z1 * Z2 + Z1 * Z2) - C * T1) ((Z1 * Z2 + Z1 * Z2) + C * T1) (padd p (popp q)).
Proof.
  intros Hp Hq. pose proof (add_completed _ _ _ _ _ _ _ _ _ _ Hp (cached_opp _ _ _ _ _ Hq)) as H.
  replace (- C * T1) with (- (C * T1)) in H by ring.
  replace (Z1 * Z2 + Z1 * Z2 - C * T1) with (Z1 * Z2 + Z1 * Z2 + - (C * T1)) by ring.
  replace (Z1 * Z2 + Z1 * Z2 + C * T1) with (Z1 * Z2 + Z1 * Z2 - - (C * T1)) by ring. done.
Qed.

Lemma madd_completed X1 Y1 Z1 T1 p A B C q : rep_extended X1 Y1 Z1 T1 p -> rep_cached A B 1 C q ->
  rep_completed ((Y1 + X1) * A - (Y1 - X1) * B) ((Y1 + X1) * A + (Y1 - X1) * B)
    ((Z1 + Z1) + C * T1) ((Z1 + Z1) - C * T1) (padd p q).
Proof.
  intros Hp Hq. pose proof (add_completed _ _ _ _ _ _ _ _ _ _ Hp Hq) as H. by replace (Z1 * 1) with Z1 in H by ring.
Qed.

Lemma msub_completed X1 Y1 Z1 T1 p A B C q : rep_extended X1 Y1 Z1 T1 p -> rep_cached A B 1 C q ->
  rep_completed ((Y1 + X1) * B - (Y1 - X1) * A) ((Y1 + X1) * B + (Y1 - X1) * A)
    ((Z1 + Z1) - C * T1) ((Z1 + Z1) + C * T1) (padd p (popp q)).
Proof.
  intros Hp Hq. pose proof (sub_completed _ _ _ _ _ _ _ _ _ _ Hp Hq) as H. by replace (Z1 * 1) with Z1 in H by ring.
Qed.

Lemma double_completed X Y Z p : rep_projective X Y Z p ->
  rep_completed ((X + Y) * (X + Y) - (Y * Y + X * X)) (Y * Y + X * X) (Y * Y - X * X)
    ((1 + 1) * (Z * Z) - (Y * Y - X * X)) (padd p p).
Proof.
  intros (HZ & -> & ->). destruct (complete _ _ _ _ (point_on_curve p) (point_on_curve p)) as [Hp Hm].
  pose proof (point_on_curve p) as Hc. unfold rep_completed. cbn. unfold sum_x, sum_y.
  unfold curve_t, on_curve in *. set (x := p_x p) in *. set (y := p_y p) in *.
  assert (Z * Z <> 0) as HZZ by by apply mul_nonzero.
  assert (y * Z * (y * Z) - x * Z * (x * Z) = Z * Z * (1 + curve_d * (x * x * (y * y)))) as Hz.
  { transitivity (Z * Z * (y * y - x * x)); [ring|]. by rewrite Hc. }
  rewrite Hz. split_and!.
  - by apply mul_nonzero.
  - intros H. apply (mul_nonzero _ _ HZZ Hm). rewrite <- H. ring.
  - field. done.
  - apply (mul_cancel (1 - curve_d * (x * x * (y * y)))); [done|]. field. done.
Qed.
End Coordinates.

(** Keep the operations folded. *)
#[global] Arguments padd {E} : simpl never.
#[global] Arguments popp {E} : simpl never.
#[global] Arguments zmul {E} : simpl never.
