(* ===== verification/Montgomery.v ===== *)
(** The Montgomery ladder on the Edwards curve.  A pair X : Z stands for a
    point when it is its u-coordinate, infinity included; the step of the
    ladder doubles one of two points and adds them, given the u-coordinate of
    their difference, and the ladder computes multiples of a point. *)
From stdpp Require Import base list.
From Stdlib Require Import ZArith Lia Ring Field Field_tac.
From S2P Require Import Prelude Edwards Coordinates.

Section Montgomery.
Context `{E : Edwards}.
Open Scope curve_scope.
Add Field montgomery_field : F_field.

(** (A - 2) / 4 for the curve v^2 = u^3 + A u^2 + u. *)
Context (a24 : F) (a24_law : (a24 + 1) * curve_d = - a24).

(** ** Representation *)

(** X = s (1 + y) and Z = s (1 - y) for some s other than 0. *)
Definition rep_u (X Z : F) (p : point) : Prop := X + Z <> 0 /\ X - Z = p_y p * (X + Z).

Lemma rep_u_origin : rep_u 1 0 origin.
Proof. split; [intros H; apply F_field.(F_1_neq_0); rewrite <- H; ring|cbn; ring]. Qed.

Lemma rep_u_point u p : p <> origin -> mont_u p = u -> rep_u u 1 p.
Proof.
  intros Hp <-. assert (1 - p_y p <> 0) as Hy.
  { intros H. apply Hp, ordinate_1. symmetry. by apply sub_zero. }
  assert ((mont_u p + 1) * (1 - p_y p) = 1 + 1) as H1 by (unfold mont_u; field; exact Hy).
  split.
  - intros H. apply two_nonzero. rewrite <- H1, H. ring.
  - apply (mul_cancel _ _ _ Hy). transitivity (p_y p * ((mont_u p + 1) * (1 - p_y p))); [|ring].
    rewrite H1. unfold mont_u. field. exact Hy.
Qed.

Lemma rep_u_quotient X Z p : rep_u X Z p -> X * finv Z = mont_u p.
Proof.
  intros [Hs H]. set (s := X + Z) in *. set (y := p_y p) in *.
  assert ((1 + 1) * X = s * (y + 1)) as HX by (transitivity (s + (X - Z)); [unfold s; ring|rewrite H; ring]).
  assert ((1 + 1) * Z = s * (1 - y)) as HZ by (transitivity (s - (X - Z)); [unfold s; ring|rewrite H; ring]).
  unfold mont_u. fold y. destruct (decide (1 - y = 0)) as [Hy|Hy].
  - rewrite Hy in *. assert (Z = 0) as ->.
    { apply (mul_cancel (1 + 1)); [apply two_nonzero|]. rewrite HZ. ring. }
    rewrite finv_0. ring.
  - assert (Z <> 0) as HZ0.
    { intros ->. apply (mul_nonzero _ _ Hs Hy). rewrite <- HZ. ring. }
    apply (mul_cancel ((1 + 1) * Z * (1 - y))).
    { repeat apply mul_nonzero; [apply two_nonzero|done|done]. }
    transitivity ((1 + 1) * X * (1 - y)); [field; exact HZ0|].
    transitivity ((1 + 1) * Z * (y + 1)); [rewrite HX, HZ; ring|]. field. exact Hy.
Qed.

(** ** The step *)

Definition double_x (x z : F) : F := (x + z) * (x + z) * ((x - z) * (x - z)).
Definition double_z (x z : F) : F :=
  let e := (x + z) * (x + z) - (x - z) * (x - z) in e * (a24 * e + (x + z) * (x + z)).
Definition add_x (x z x' z' : F) : F :=
  let a := (x' + z') * (x - z) in let b := (x + z) * (x' - z') in (a + b) * (a + b).
Definition add_z (q x z x' z' : F) : F :=
  let a := (x' + z') * (x - z) in let b := (x + z) * (x' - z') in (a - b) * (a - b) * q.

Lemma a24_1 : a24 + 1 <> 0.
Proof.
  intros H. assert (a24 = 0) as Ha.
  { transitivity (- - a24); [ring|]. rewrite <- a24_law, H. ring. }
  apply F_field.(F_1_neq_0). rewrite <- H, Ha. ring.
Qed.

Lemma double_ok x z p : rep_u x z p -> rep_u (double_x x z) (double_z x z) (padd p p).
Proof.
  intros [Hs H]. unfold double_x, double_z. cbv zeta. set (A := x + z) in *. rewrite H. set (y := p_y p) in *.
  pose proof (point_on_curve p) as Hc. destruct (complete _ _ _ _ Hc Hc) as [_ Hm].
  apply on_curve_quotient in Hc. pose proof (denominator_nonzero y) as Hd. fold y in Hc, Hm. set (xx := p_x p) in *.
  set (D := curve_d * (y * y) + 1) in *. unfold curve_t in Hm.
  assert ((1 + a24 * ((1 - y * y) * (1 - y * y))) =
    (a24 + 1) * (D * (1 - curve_d * (xx * xx * (y * y))))) as Hsum.
  { transitivity ((a24 + 1) * (D - curve_d * (xx * xx * D) * (y * y))); [|ring]. rewrite Hc. unfold D.
    transitivity ((a24 + 1) + ((a24 + 1) * curve_d) * (y * y + y * y - y * y * (y * y))); [rewrite a24_law; ring|ring]. }
  assert (forall a b c : F, a <> 0 -> a * b = a * c -> b = c) as Hcancel by (intros; by eapply mul_cancel).
  assert (A * A * (y * A * (y * A)) +
    (A * A - y * A * (y * A)) * (a24 * (A * A - y * A * (y * A)) + A * A) =
    A * A * (A * A) * ((a24 + 1) * (D * (1 - curve_d * (xx * xx * (y * y)))))) as Ht by (rewrite <- Hsum; ring).
  split.
  - rewrite Ht. repeat apply mul_nonzero; try done. apply a24_1.
  - rewrite Ht. change (p_y (padd p p)) with (sum_y xx y xx y). unfold sum_y, curve_t.
    transitivity (A * A * (A * A) * ((a24 + 1) * (D * (y * y + xx * xx)))); [|field; exact Hm].
    transitivity (A * A * (A * A) * ((a24 + 1) * (D * (y * y) + xx * xx * D))); [|ring]. rewrite Hc. unfold D.
    transitivity (A * A * (A * A) * ((a24 + 1) * curve_d * (y * y * (y * y)) + (a24 + 1) * (y * y + y * y - 1)));
      [rewrite a24_law; ring|ring].
Qed.

Lemma add_identity y1 y2 D1 D2 w1 w2 : D1 = curve_d * (y1 * y1) + 1 -> D2 = curve_d * (y2 * y2) + 1 ->
  w1 * w1 * D1 = y1 * y1 - 1 -> w2 * w2 * D2 = y2 * y2 - 1 -> D1 <> 0 -> D2 <> 0 ->
  ((1 + y1 * y2) * (1 + y1 * y2) -
    w1 * w1 * (w2 * w2) * ((curve_d * (y1 * y2) - 1) * (curve_d * (y1 * y2) - 1))) * ((y1 - y2) * (y1 - y2)) =
  ((1 - y1 * y2) * (1 - y1 * y2) -
    w1 * w1 * (w2 * w2) * ((curve_d * (y1 * y2) + 1) * (curve_d * (y1 * y2) + 1))) * ((y1 + y2) * (y1 + y2)).
Proof.
  intros E1 E2 H1 H2 N1 N2. apply (mul_cancel (D1 * D2)); [by apply mul_nonzero|].
  transitivity (((1 + y1 * y2) * (1 + y1 * y2) * (D1 * D2) -
    w1 * w1 * D1 * (w2 * w2 * D2) * ((curve_d * (y1 * y2) - 1) * (curve_d * (y1 * y2) - 1))) * ((y1 - y2) * (y1 - y2)));
    [ring|].
  transitivity (((1 - y1 * y2) * (1 - y1 * y2) * (D1 * D2) -
    w1 * w1 * D1 * (w2 * w2 * D2) * ((curve_d * (y1 * y2) + 1) * (curve_d * (y1 * y2) + 1))) * ((y1 + y2) * (y1 + y2)));
    [|ring].
  rewrite H1, H2, E1, E2. ring.
Qed.

(** The ordinates of the sum and of the difference of two points. *)
Lemma sum_difference p q : let y3 := p_y (padd p q) in let y4 := p_y (padd p (popp q)) in
  (1 + y3) * (1 + y4) * ((p_y p - p_y q) * (p_y p - p_y q)) =
  (1 - y3) * (1 - y4) * ((p_y p + p_y q) * (p_y p + p_y q)).
Proof.
  cbv zeta. pose proof (point_on_curve p) as Hp. pose proof (point_on_curve q) as Hq.
  destruct (complete _ _ _ _ Hp Hq) as [N1 N2].
  apply on_curve_quotient in Hp, Hq.
  pose proof (add_identity _ _ _ _ _ _ eq_refl eq_refl Hp Hq (denominator_nonzero _) (denominator_nonzero _)) as H.
  change (p_y (padd p q)) with (sum_y (p_x p) (p_y p) (p_x q) (p_y q)).
  change (p_y (padd p (popp q))) with (sum_y (p_x p) (p_y p) (- p_x q) (p_y q)).
  unfold sum_y, curve_t in *. set (w1 := p_x p) in *. set (y1 := p_y p) in *. set (w2 := p_x q) in *. set (y2 := p_y q) in *.
  assert (1 - curve_d * (w1 * - w2 * (y1 * y2)) = 1 + curve_d * (w1 * w2 * (y1 * y2))) as -> by ring.
  apply (mul_cancel ((1 + curve_d * (w1 * w2 * (y1 * y2))) * (1 - curve_d * (w1 * w2 * (y1 * y2)))));
    [by apply mul_nonzero|].
  transitivity (((1 + y1 * y2) * (1 + y1 * y2) -
    w1 * w1 * (w2 * w2) * ((curve_d * (y1 * y2) - 1) * (curve_d * (y1 * y2) - 1))) * ((y1 - y2) * (y1 - y2)));
    [field; split; [exact N1|exact N2]|].
  rewrite H. field. split; [exact N1|exact N2].
Qed.

(** If both ordinates are 0 the difference is 0 or of order two. *)
Lemma zero_ordinates p q : p_y p = 0 -> p_y q = 0 ->
  p_y (padd p (popp q)) = 1 \/ p_y (padd p (popp q)) = - (1).
Proof.
  intros Hp Hq. pose proof (point_on_curve p) as Cp. pose proof (point_on_curve q) as Cq. unfold on_curve in Cp, Cq.
  rewrite Hp in Cp. rewrite Hq in Cq.
  assert (p_x p * p_x p = p_x q * p_x q) as Hs.
  { transitivity (- (0 * 0 - p_x p * p_x p)); [ring|]. rewrite Cp. transitivity (- (0 * 0 - p_x q * p_x q)); [rewrite Cq; ring|ring]. }
  assert (p_x q * p_x q = - (1)) as Hq1.
  { transitivity (- (0 * 0 - p_x q * p_x q)); [ring|]. rewrite Cq. ring. }
  change (p_y (padd p (popp q))) with (sum_y (p_x p) (p_y p) (- p_x q) (p_y q)). unfold sum_y, curve_t. rewrite Hp, Hq.
  assert (forall c, c = 1 \/ c = - (1) -> (0 * 0 + c) / (1 - curve_d * (p_x p * - p_x q * (0 * 0))) = 1 \/
    (0 * 0 + c) / (1 - curve_d * (p_x p * - p_x q * (0 * 0))) = - (1)) as Hc.
  { assert (1 - curve_d * (p_x p * - p_x q * (0 * 0)) = 1) as -> by ring.
    intros c [->| ->]; [left|right]; field; apply F_field.(F_1_neq_0). }
  apply Hc. destruct (square_roots _ _ Hs) as [->| ->]; [left|right].
  - transitivity (- (p_x q * p_x q)); [ring|]. rewrite Hq1. ring.
  - transitivity (p_x q * p_x q); [ring|]. exact Hq1.
Qed.

(** [q] is the u-coordinate of the difference, which is neither the neutral
    element nor the point with u-coordinate 0. *)
Lemma ladder_add_ok q x z x' z' p p' : rep_u x z p -> rep_u x' z' p' -> q <> 0 ->
  rep_u q 1 (padd p' (popp p)) -> rep_u (add_x x z x' z') (add_z q x z x' z') (padd p p').
Proof.
  intros [Hs H] [Hs' H'] Hq [Hq1 Hq2]. unfold add_x, add_z. cbv zeta.
  set (A := x + z) in *. set (A' := x' + z') in *. rewrite H, H'.
  pose proof (sum_difference p' p) as Hsd. cbv zeta in Hsd. rewrite (padd_comm p' p) in Hsd.
  pose proof (zero_ordinates p' p) as Hz0.
  set (y3 := p_y (padd p p')) in *. set (y4 := p_y (padd p' (popp p))) in *.
  set (y1 := p_y p) in *. set (y2 := p_y p') in *.
  assert (1 + y4 = q * (1 - y4)) as Hy4.
  { apply sub_zero. transitivity (y4 * (q + 1) - (q - 1)); [ring|]. rewrite Hq2. ring. }
  assert (1 - y4 <> 0) as N4.
  { intros E0. apply two_nonzero. rewrite E0 in Hy4. transitivity ((1 + y4) + (1 - y4)); [ring|]. rewrite Hy4, E0. ring. }
  assert (q * ((y1 - y2) * (y1 - y2)) * (1 + y3) = (y1 + y2) * (y1 + y2) * (1 - y3)) as Hmain.
  { apply (mul_cancel _ _ _ N4). transitivity ((1 + y3) * (1 + y4) * ((y2 - y1) * (y2 - y1))); [rewrite Hy4; ring|].
    rewrite Hsd. ring. }
  assert (A <> 0 /\ A' <> 0) as [NA NA'] by done.
  set (S := A * A' * (A * A')). assert (S <> 0) as NS by (by repeat apply mul_nonzero).
  assert ((A' * (y1 * A) + A * (y2 * A')) * (A' * (y1 * A) + A * (y2 * A')) = S * ((y1 + y2) * (y1 + y2))) as -> by (unfold S; ring).
  assert ((A' * (y1 * A) - A * (y2 * A')) * (A' * (y1 * A) - A * (y2 * A')) * q = S * (q * ((y1 - y2) * (y1 - y2)))) as ->
    by (unfold S; ring).
  assert (S * ((y1 + y2) * (y1 + y2)) - S * (q * ((y1 - y2) * (y1 - y2))) =
    y3 * (S * ((y1 + y2) * (y1 + y2)) + S * (q * ((y1 - y2) * (y1 - y2))))) as Hdiff.
  { apply sub_zero. transitivity (S * ((y1 + y2) * (y1 + y2) * (1 - y3) - q * ((y1 - y2) * (y1 - y2)) * (1 + y3))); [ring|].
    rewrite Hmain. ring. }
  split; [|exact Hdiff]. intros E0.
  assert ((y1 + y2) * (y1 + y2) + q * ((y1 - y2) * (y1 - y2)) = 0) as Esum.
  { apply (mul_cancel _ _ _ NS). transitivity (S * ((y1 + y2) * (y1 + y2)) + S * (q * ((y1 - y2) * (y1 - y2)))); [ring|].
    rewrite E0. ring. }
  assert ((y1 + y2) * (y1 + y2) - q * ((y1 - y2) * (y1 - y2)) = 0) as Edif.
  { apply (mul_cancel _ _ _ NS). transitivity (S * ((y1 + y2) * (y1 + y2)) - S * (q * ((y1 - y2) * (y1 - y2)))); [ring|].
    rewrite Hdiff, E0. ring. }
  assert (y1 + y2 = 0) as P1.
  { assert ((y1 + y2) * (y1 + y2) = 0) as E1.
    { apply double_zero. transitivity ((y1 + y2) * (y1 + y2) + q * ((y1 - y2) * (y1 - y2)) +
        ((y1 + y2) * (y1 + y2) - q * ((y1 - y2) * (y1 - y2)))); [ring|]. rewrite Esum, Edif. ring. }
    by destruct (mul_zero _ _ E1). }
  assert (y1 - y2 = 0) as M1.
  { rewrite P1 in Esum. assert (q * ((y1 - y2) * (y1 - y2)) = 0) as E1 by (rewrite <- Esum; ring).
    destruct (mul_zero _ _ E1) as [|E2]; [done|]. by destruct (mul_zero _ _ E2). }
  assert (y1 = 0) as Z1.
  { apply double_zero. transitivity (y1 + y2 + (y1 - y2)); [ring|]. rewrite P1, M1. ring. }
  assert (y2 = 0) as Z2.
  { apply double_zero. transitivity (y1 + y2 - (y1 - y2)); [ring|]. rewrite P1, M1. ring. }
  destruct (Hz0 Z2 Z1) as [E1|E1]; fold y4 in E1.
  - apply N4. rewrite E1. ring.
  - apply Hq. rewrite E1 in Hy4. apply double_zero. transitivity (q * (1 - - (1))); [ring|]. rewrite <- Hy4. ring.
Qed.

(** ** The ladder *)

Definition quad : Type := F * F * F * F.
Definition swap (b : bool) (l : quad) : quad :=
  let '(x, z, x', z') := l in if b then (x', z', x, z) else l.
Definition monty (q : F) (l : quad) : quad :=
  let '(x, z, x', z') := l in (double_x x z, double_z x z, add_x x z x' z', add_z q x z x' z').
Definition ladder_bit (q : F) (l : quad) (b : bool) : quad := swap b (monty q (swap b l)).

(** The bits of the scalar, the highest first. *)
Definition x25519 (q : F) (bits : list bool) : F :=
  let '(x, z, _, _) := fold_left (ladder_bit q) bits (1, 0, q, 1) in x * finv z.
Definition bits_val (bits : list bool) : Z := fold_left (fun n b => (2 * n + Z.b2z b)%Z) bits 0%Z.

(** The two points are successive multiples. *)
Definition ladder_inv (p : point) (l : quad) (n : Z) : Prop :=
  let '(x, z, x', z') := l in rep_u x z (zmul n p) /\ rep_u x' z' (zmul (n + 1) p).

Lemma rep_u_popp X Z p : rep_u X Z p -> rep_u X Z (popp p).
Proof. done. Qed.

Lemma ladder_bit_ok q p l n b : q <> 0 -> rep_u q 1 p -> ladder_inv p l n ->
  ladder_inv p (ladder_bit q l b) (2 * n + Z.b2z b).
Proof.
  destruct l as [[[x z] x'] z']. intros Hq Hp [H H']. unfold ladder_bit. destruct b; cbn [swap monty Z.b2z ladder_inv].
  - split.
    + replace (2 * n + 1)%Z with (n + 1 + n)%Z by lia. rewrite zmul_add. apply ladder_add_ok; [done..|].
      rewrite <- zmul_sub. replace (n - (n + 1))%Z with (- (1))%Z by lia. rewrite zmul_opp, zmul_1. by apply rep_u_popp.
    + replace (2 * n + 1 + 1)%Z with (2 * (n + 1))%Z by lia. rewrite zmul_double. by apply double_ok.
  - rewrite Z.add_0_r. split.
    + rewrite zmul_double. by apply double_ok.
    + replace (2 * n + 1)%Z with (n + (n + 1))%Z by lia. rewrite zmul_add. apply ladder_add_ok; [done..|].
      rewrite <- zmul_sub. replace (n + 1 - n)%Z with 1%Z by lia. by rewrite zmul_1.
Qed.

Lemma ladder_ok q p bits : q <> 0 -> rep_u q 1 p -> forall l n, ladder_inv p l n ->
  ladder_inv p (fold_left (ladder_bit q) bits l) (fold_left (fun n b => (2 * n + Z.b2z b)%Z) bits n).
Proof.
  intros Hq Hp. induction bits as [|b bits IH]; intros l n Hl; [done|]. cbn [fold_left]. by apply IH, ladder_bit_ok.
Qed.

(** With u-coordinate 0 every product of X and Z is 0. *)
Definition ladder_zero (l : quad) : Prop := let '(x, z, x', z') := l in x * z = 0 /\ x' * z' = 0.

Lemma monty_zero l : ladder_zero l -> ladder_zero (monty 0 l).
Proof.
  destruct l as [[[x z] x'] z']. cbn [monty ladder_zero]. intros [H H']. split.
  - unfold double_x, double_z. cbv zeta. transitivity ((x + z) * (x + z) * ((x - z) * (x - z)) *
      ((1 + 1) * (1 + 1) * (x * z) * (a24 * ((1 + 1) * (1 + 1) * (x * z)) + (x + z) * (x + z)))); [ring|]. rewrite H. ring.
  - unfold add_z. cbv zeta. ring.
Qed.

Lemma ladder_zero_ok bits : forall l, ladder_zero l -> ladder_zero (fold_left (ladder_bit 0) bits l).
Proof.
  induction bits as [|b bits IH]; intros l Hl; [done|]. cbn [fold_left]. apply IH. unfold ladder_bit.
  assert (forall l, ladder_zero l -> ladder_zero (swap b l)) as Hs.
  { intros [[[x z] x'] z'] [H H']. destruct b; done. }
  apply Hs, monty_zero, Hs, Hl.
Qed.

Lemma finv_zero x : finv x = 0 -> x = 0.
Proof.
  intros H. destruct (decide (x = 0)) as [|Hx]; [done|]. exfalso. apply F_field.(F_1_neq_0).
  transitivity (finv x * x); [field; exact Hx|]. rewrite H. ring.
Qed.

Lemma mont_u_zero p : mont_u p = 0 <-> p_x p = 0.
Proof.
  pose proof (point_on_curve p) as Hc. apply on_curve_quotient in Hc. split; intros H.
  - apply (quotient_zero _ _ _ (denominator_nonzero _) Hc). unfold mont_u in H.
    destruct (mul_zero _ _ H) as [H0|H0]; [|apply finv_zero in H0].
    + transitivity ((p_y p + 1) * (p_y p - 1)); [ring|]. rewrite H0. ring.
    + transitivity (- (1 - p_y p) * (p_y p + 1)); [ring|]. rewrite H0. ring.
  - rewrite H in Hc. assert ((p_y p + 1) * (1 - p_y p) = 0) as H0.
    { transitivity (- (p_y p * p_y p - 1)); [ring|]. rewrite <- Hc. ring. }
    unfold mont_u. destruct (mul_zero _ _ H0) as [->| ->]; [ring|]. rewrite finv_0. ring.
Qed.

Lemma zmul_x_zero n p : p_x p = 0 -> p_x (zmul n p) = 0.
Proof.
  intros H. assert (forall p q, p_x p = 0 -> p_x q = 0 -> p_x (padd p q) = 0) as Hadd.
  { clear. intros p q Hp Hq. change (p_x (padd p q)) with (sum_x (p_x p) (p_y p) (p_x q) (p_y q)). unfold sum_x, curve_t.
    rewrite Hp, Hq. assert (1 + curve_d * (0 * 0 * (p_y p * p_y q)) = 1) as -> by ring. field. apply F_field.(F_1_neq_0). }
  induction n as [|n IH|n IH] using Z.peano_ind; [done| |].
  - rewrite zmul_succ. by apply Hadd.
  - rewrite zmul_pred. apply Hadd; [|done]. change (- p_x p = 0). rewrite H. ring.
Qed.

(** The ladder multiplies, for every point and every scalar. *)
Lemma x25519_ok q p bits : mont_u p = q -> x25519 q bits = mont_u (zmul (bits_val bits) p).
Proof.
  intros Hq. unfold x25519. destruct (decide (q = 0)) as [->|H0].
  - assert (mont_u (zmul (bits_val bits) p) = 0) as -> by (apply mont_u_zero, zmul_x_zero; by apply mont_u_zero).
    assert (ladder_zero (1, 0, 0, 1)) as Hz by (split; ring). apply (ladder_zero_ok bits) in Hz.
    destruct (fold_left _ bits _) as [[[x z] x'] z']. destruct Hz as [Hz _].
    destruct (mul_zero _ _ Hz) as [->| ->]; [ring|]. rewrite finv_0. ring.
  - assert (p <> origin) as Hp.
    { intros ->. apply H0. rewrite <- Hq. by apply mont_u_zero. }
    pose proof (rep_u_point q p Hp Hq) as Hr.
    assert (ladder_inv p (1, 0, q, 1) 0) as Hl.
    { split; [apply rep_u_origin|]. by rewrite Z.add_0_l, zmul_1. }
    apply (ladder_ok q p bits H0 Hr) in Hl. fold (bits_val bits) in Hl.
    destruct (fold_left _ bits _) as [[[x z] x'] z']. destruct Hl as [Hl _]. by apply rep_u_quotient.
Qed.
End Montgomery.
