(* ===== verification/Ed25519.v ===== *)
(** The curve of ge.h: the integers modulo 2^255 - 19 with the constants of
    d.h and sqrtm1.h satisfy what the group law needs, and field elements
    stand for residues. *)
From stdpp Require Import base list.
From Stdlib Require Import ZArith Lia Zdivisibility Zmod.
From S2P Require Import Prelude MachineInt FieldElement FieldProofs FastArith GroupElement Primality Edwards.
#[local] Open Scope Z_scope.
#[local] Open Scope field_scope.

(** The residue of an integer, and of a field element. *)
Definition fz (z : Z) : Zmod P25519 := Zmod.of_Z P25519 z.

Lemma P25519_pos : 0 < P25519.
Proof. done. Qed.

Lemma fz_eq a b : fz a = fz b <-> a ≡p b.
Proof. apply Zmod.of_Z_inj. Qed.
Lemma fz_to_Z x : fz (Zmod.to_Z x) = x.
Proof. apply Zmod.of_Z_to_Z. Qed.

#[global] Instance zmod_eq_dec m : EqDecision (Zmod m).
Proof.
  intros x y. destruct (Zmod.eqb x y) eqn:H; [left; by apply Zmod.eqb_eq|right]. intros ->. by rewrite Zmod.eqb_refl in H.
Defined.

Lemma half_pos : 0 <= (P25519 - 1) / 2 /\ (P25519 - 1) / 2 <> 0 /\ 0 <= P25519 - 1 < P25519.
Proof. split_and!; vm_compute; congruence. Qed.

(** A quadratic residue has the Euler power 1. *)
Lemma nonsquare_power a x : pow_mod a ((P25519 - 1) / 2) P25519 = P25519 - 1 -> Zmod.mul x x <> fz a.
Proof.
  intros Ha Hx. rewrite pow_mod_ok in Ha by apply half_pos.
  assert (Zmod.pow (fz a) ((P25519 - 1) / 2) = fz (P25519 - 1)) as Hp.
  { unfold fz. rewrite <- Zmod.of_Z_pow by apply half_pos. apply Zmod.of_Z_inj. rewrite Ha. symmetry.
    apply Z.mod_small, half_pos. }
  assert (x <> Zmod.zero) as H0.
  { intros ->. rewrite Zmod.mul_0_l in Hx. rewrite <- Hx, Zmod.pow_0_l in Hp by apply half_pos.
    apply (f_equal Zmod.to_Z) in Hp. unfold fz in Hp. rewrite Zmod.unsigned_of_Z, Zmod.unsigned_0 in Hp. by vm_compute in Hp. }
  rewrite <- Hx, <- Zmod.pow_2_r, <- Zmod.pow_mul_r_nonneg in Hp by (lia || apply half_pos).
  replace (2 * ((P25519 - 1) / 2)) with (Z.pred P25519) in Hp by (vm_compute; reflexivity).
  rewrite (Zmod.fermat_nz x H0 prime_P25519) in Hp. apply (f_equal Zmod.to_Z) in Hp. unfold fz in Hp.
  rewrite Zmod.unsigned_of_Z, Zmod.unsigned_1_pos in Hp by done. by vm_compute in Hp.
Qed.

Lemma zmod_neq (x y : Zmod P25519) : Zmod.eqb x y = false -> x <> y.
Proof. intros H ->. by rewrite Zmod.eqb_refl in H. Qed.

#[global, refine] Instance ed25519 : Edwards := {|
  F := Zmod P25519;
  f0 := Zmod.zero; f1 := Zmod.one;
  fadd := Zmod.add; fmul := Zmod.mul; fsub := Zmod.sub; fopp := Zmod.opp;
  fdiv := Zmod.mdiv; finv := Zmod.inv;
  F_field := Zmod.field_theory P25519 prime_P25519;
  finv_0 := Zmod.inv_0 P25519;
  curve_d := fz (fe_val d);
  sqrt_minus_1 := fz (fe_val sqrtm1)
|}.
Proof.
  - apply zmod_neq. vm_compute. reflexivity.
  - apply Zmod.eqb_eq. vm_compute. reflexivity.
  - intros x. apply nonsquare_power. vm_compute. reflexivity.
Defined.

(** The constant is the one of the comment: -121665/121666. *)
Lemma curve_d_ok : Zmod.mul (fz 121666) curve_d = fz (-121665).
Proof. apply Zmod.eqb_eq. vm_compute. reflexivity. Qed.

#[local] Open Scope curve_scope.

Definition fv (f : fe) : F := fz (fe_val f).

Lemma fz_add a b : fz (a + b)%Z = fz a + fz b.
Proof. apply Zmod.of_Z_add. Qed.
Lemma fz_sub a b : fz (a - b)%Z = fz a - fz b.
Proof. apply Zmod.of_Z_sub. Qed.
Lemma fz_mul a b : fz (a * b)%Z = fz a * fz b.
Proof. apply Zmod.of_Z_mul. Qed.
Lemma fz_opp a : fz (- a)%Z = - fz a.
Proof. apply Zmod.of_Z_opp. Qed.
Lemma fz_0 : fz 0 = 0.
Proof. apply Zmod.of_Z_0. Qed.
Lemma fz_1 : fz 1 = 1.
Proof. apply Zmod.of_Z_1. Qed.
Lemma fz_pow a n : (0 <= n)%Z -> fz (a ^ n)%Z = Zmod.pow (fz a) n.
Proof. apply Zmod.of_Z_pow. Qed.
Lemma fz_2 : fz 2 = 1 + 1.
Proof. rewrite <- fz_1, <- fz_add. done. Qed.

(** The inverse is the power the code computes. *)
Lemma finv_pow x : finv x = Zmod.pow x (P25519 - 2).
Proof.
  destruct (decide (x = Zmod.zero)) as [->|H].
  - change (Zmod.inv Zmod.zero = Zmod.pow (@Zmod.zero P25519) (P25519 - 2)).
    rewrite Zmod.pow_0_l by done. apply Zmod.inv_0.
  - symmetry. apply (Zmod.fermat_inv x H prime_P25519).
Qed.
