(* ===== verification/GroupProofs.v ===== *)
(** The operations on group elements compute in the group of the curve: each
    succeeds on representations with limbs in the documented bounds and gives
    a representation of the sum, difference or double. *)
From stdpp Require Import base list.
From Stdlib Require Import ZArith Lia.
From S2P Require Import Prelude MachineInt FieldElement FieldProofs GroupElement Edwards Coordinates Ed25519.
#[local] Open Scope Z_scope.
#[local] Open Scope field_scope.
#[local] Open Scope curve_scope.

(** ** Field operations on residues

    [bnd n f]: the limbs are at most [n] times those of a product. *)
Definition bnd (n : Z) (f : fe) : Prop := fe_bounded (n * 33889976) (n * 16944988) f.

Lemma bnd_tight f : tight f -> bnd 1 f.
Proof. intros H. eapply fe_bounded_weaken; [exact H|lia|lia]. Qed.
Lemma bnd_wide n f : (n <= 3)%Z -> bnd n f -> wide f.
Proof. intros Hn H. eapply fe_bounded_weaken; [exact H|lia|lia]. Qed.
Lemma bnd_weaken m n f : (m <= n)%Z -> bnd m f -> bnd n f.
Proof. intros Hn H. eapply fe_bounded_weaken; [exact H|lia|lia]. Qed.

(** A field element with its bound and its residue. *)
Definition is_fe (n : Z) (f : fe) (x : F) : Prop := bnd n f /\ fv f = x.

Lemma is_fe_weaken m n f x : (m <= n)%Z -> is_fe m f x -> is_fe n f x.
Proof. intros Hn [H <-]. split; [by apply (bnd_weaken m)|done]. Qed.

Lemma is_fe_0 : is_fe 1 fe_0 0.
Proof. split; [|apply fz_0]. split; repeat split; done. Qed.
Lemma is_fe_1 : is_fe 1 fe_1 1.
Proof. split; [|apply fz_1]. split; repeat split; done. Qed.

Lemma fv_eq h v : fe_val h ≡p v -> fv h = fz v.
Proof. intros H. by apply fz_eq. Qed.

Lemma mul_ok m n f g x y : (m <= 3)%Z -> (n <= 3)%Z -> is_fe m f x -> is_fe n g y ->
  exists h, fe_mul f g = Some h /\ is_fe 1 h (x * y).
Proof.
  intros Hm Hn [Hf <-] [Hg <-]. destruct (fe_mul_ok f g) as (h & E & Ht & Hv); [by apply (bnd_wide m)|by apply (bnd_wide n)|].
  exists h. split; [done|]. split; [by apply bnd_tight|]. rewrite (fv_eq _ _ Hv). apply fz_mul.
Qed.

Lemma sq_ok m f x : (m <= 3)%Z -> is_fe m f x -> exists h, fe_sq f = Some h /\ is_fe 1 h (x * x).
Proof.
  intros Hm [Hf <-]. destruct (fe_sq_ok f) as (h & E & Ht & Hv); [by apply (bnd_wide m)|].
  exists h. split; [done|]. split; [by apply bnd_tight|]. rewrite (fv_eq _ _ Hv). apply fz_mul.
Qed.

Lemma sq2_ok m f x : (m <= 3)%Z -> is_fe m f x -> exists h, fe_sq2 f = Some h /\ is_fe 1 h ((1 + 1) * (x * x)).
Proof.
  intros Hm [Hf <-]. destruct (fe_sq2_ok f) as (h & E & Ht & Hv); [by apply (bnd_wide m)|].
  exists h. split; [done|]. split; [by apply bnd_tight|]. rewrite (fv_eq _ _ Hv), !fz_mul, fz_2. done.
Qed.

Lemma add_ok m n f g x y : (m + n <= 60)%Z -> is_fe m f x -> is_fe n g y ->
  exists h, fe_add f g = Some h /\ is_fe (m + n) h (x + y).
Proof.
  intros Hmn [Hf <-] [Hg <-]. destruct (fe_add_ok f g _ _ _ _ Hf Hg) as (h & E & Hb & Hv); [lia..|].
  exists h. split; [done|]. split; [eapply fe_bounded_weaken; [exact Hb|lia|lia]|]. unfold fv. rewrite Hv. apply fz_add.
Qed.

Lemma sub_ok m n f g x y : (m + n <= 60)%Z -> is_fe m f x -> is_fe n g y ->
  exists h, fe_sub f g = Some h /\ is_fe (m + n) h (x - y).
Proof.
  intros Hmn [Hf <-] [Hg <-]. destruct (fe_sub_ok f g _ _ _ _ Hf Hg) as (h & E & Hb & Hv); [lia..|].
  exists h. split; [done|]. split; [eapply fe_bounded_weaken; [exact Hb|lia|lia]|]. unfold fv. rewrite Hv. apply fz_sub.
Qed.

Lemma neg_ok m f x : (m <= 60)%Z -> is_fe m f x -> exists h, fe_neg f = Some h /\ is_fe m h (- x).
Proof.
  intros Hm [Hf <-]. destruct (fe_neg_ok f _ _ Hf) as (h & E & Hb & Hv); [lia..|].
  exists h. split; [done|]. split; [done|]. unfold fv. rewrite Hv. apply fz_opp.
Qed.

Lemma invert_ok m f x : (m <= 3)%Z -> is_fe m f x -> exists h, fe_invert f = Some h /\ is_fe 1 h (finv x).
Proof.
  intros Hm [Hf <-]. destruct (fe_invert_ok f) as (h & E & Ht & Hv); [by apply (bnd_wide m)|].
  exists h. split; [done|]. split; [by apply bnd_tight|]. rewrite (fv_eq _ _ Hv), finv_pow. by apply fz_pow.
Qed.

(** Run the next field operation. *)
Ltac fe_step :=
  let h := fresh "h" in let E := fresh "E" in let H := fresh "H" in
  lazymatch goal with
  | |- exists r, match ?op with Some _ => _ | None => None end = Some r /\ _ =>
      lazymatch op with
      | fe_mul ?f ?g => lazymatch goal with Hf : is_fe ?m f _ |- _ => lazymatch goal with Hg : is_fe ?n g _ |- _ =>
          destruct (mul_ok m n f g _ _ ltac:(lia) ltac:(lia) Hf Hg) as (h & E & H) end end
      | fe_add ?f ?g => lazymatch goal with Hf : is_fe ?m f _ |- _ => lazymatch goal with Hg : is_fe ?n g _ |- _ =>
          destruct (add_ok m n f g _ _ ltac:(lia) Hf Hg) as (h & E & H) end end
      | fe_sub ?f ?g => lazymatch goal with Hf : is_fe ?m f _ |- _ => lazymatch goal with Hg : is_fe ?n g _ |- _ =>
          destruct (sub_ok m n f g _ _ ltac:(lia) Hf Hg) as (h & E & H) end end
      | fe_sq ?f => lazymatch goal with Hf : is_fe ?m f _ |- _ => destruct (sq_ok m f _ ltac:(lia) Hf) as (h & E & H) end
      | fe_sq2 ?f => lazymatch goal with Hf : is_fe ?m f _ |- _ => destruct (sq2_ok m f _ ltac:(lia) Hf) as (h & E & H) end
      | fe_neg ?f => lazymatch goal with Hf : is_fe ?m f _ |- _ => destruct (neg_ok m f _ ltac:(lia) Hf) as (h & E & H) end
      | fe_invert ?f => lazymatch goal with Hf : is_fe ?m f _ |- _ => destruct (invert_ok m f _ ltac:(lia) Hf) as (h & E & H) end
      end; refine (chk_step _ _ _ _ E _); clear E; cbv beta;
      lazymatch type of H with
      | is_fe ?m ?f ?x => let v := eval vm_compute in m in change (is_fe v f x) in H
      end
  end.

(** ** Representations *)

Definition rep_p2 (h : ge_p2) (p : point) : Prop :=
  exists X Y Z, is_fe 1 (p2_X h) X /\ is_fe 1 (p2_Y h) Y /\ is_fe 1 (p2_Z h) Z /\ rep_projective X Y Z p.
Definition rep_p3 (h : ge_p3) (p : point) : Prop :=
  exists X Y Z T, is_fe 1 (p3_X h) X /\ is_fe 1 (p3_Y h) Y /\ is_fe 1 (p3_Z h) Z /\ is_fe 1 (p3_T h) T /\
    rep_extended X Y Z T p.
Definition rep_p1p1 (h : ge_p1p1) (p : point) : Prop :=
  exists X Y Z T, is_fe 3 (p1_X h) X /\ is_fe 3 (p1_Y h) Y /\ is_fe 3 (p1_Z h) Z /\ is_fe 3 (p1_T h) T /\
    rep_completed X Y Z T p.
Definition rep_ge_cached (c : ge_cached) (p : point) : Prop :=
  exists A B Z C, is_fe 2 (YplusX c) A /\ is_fe 2 (YminusX c) B /\ is_fe 1 (c_Z c) Z /\ is_fe 1 (T2d c) C /\
    rep_cached A B Z C p.
Definition rep_precomp (c : ge_precomp) (p : point) : Prop :=
  exists A B C, is_fe 1 (yplusx c) A /\ is_fe 1 (yminusx c) B /\ is_fe 1 (xy2d c) C /\ rep_cached A B 1 C p.

Lemma ge_p2_0_ok : rep_p2 ge_p2_0 origin.
Proof. exists 0, 1, 1. split_and!; [apply is_fe_0|apply is_fe_1|apply is_fe_1|apply origin_projective]. Qed.
Lemma ge_p3_0_ok : rep_p3 ge_p3_0 origin.
Proof. exists 0, 1, 1, 0. split_and!; [apply is_fe_0|apply is_fe_1|apply is_fe_1|apply is_fe_0|apply origin_extended]. Qed.
Lemma ge_precomp_0_ok : rep_precomp ge_precomp_0 origin.
Proof. exists 1, 1, 0. split_and!; [apply is_fe_1|apply is_fe_1|apply is_fe_0|apply origin_cached]. Qed.

Lemma d2_ok : is_fe 1 d2 ((1 + 1) * curve_d).
Proof.
  split; [split; repeat split; done|]. unfold fv. rewrite <- fz_2.
  change curve_d with (fz (fe_val d)). rewrite <- fz_mul. apply fz_eq. vm_compute. reflexivity.
Qed.

Lemma ge_p3_to_p2_ok h p : rep_p3 h p -> rep_p2 (ge_p3_to_p2 h) p.
Proof.
  intros (X & Y & Z & T & HX & HY & HZ & HT & H). exists X, Y, Z. split_and!; [done..|]. by eapply extended_projective.
Qed.

Lemma ge_p3_to_cached_ok h p : rep_p3 h p -> exists c, ge_p3_to_cached h = Some c /\ rep_ge_cached c p.
Proof.
  intros (X & Y & Z & T & HX & HY & HZ & HT & H). unfold ge_p3_to_cached. pose proof d2_ok as Hd2.
  do 2 fe_step. cbv zeta. fe_step. eexists. split; [reflexivity|].
  exists (Y + X), (Y - X), Z, (T * ((1 + 1) * curve_d)). split_and!; [done..|]. by apply extended_cached.
Qed.

Lemma ge_p1p1_to_p2_ok h p : rep_p1p1 h p -> exists r, ge_p1p1_to_p2 h = Some r /\ rep_p2 r p.
Proof.
  intros (X & Y & Z & T & HX & HY & HZ & HT & H). unfold ge_p1p1_to_p2. do 3 fe_step.
  eexists. split; [reflexivity|]. exists (X * T), (Y * Z), (Z * T). split_and!; [done..|]. by apply completed_projective.
Qed.

Lemma ge_p1p1_to_p3_ok h p : rep_p1p1 h p -> exists r, ge_p1p1_to_p3 h = Some r /\ rep_p3 r p.
Proof.
  intros (X & Y & Z & T & HX & HY & HZ & HT & H). unfold ge_p1p1_to_p3. do 4 fe_step.
  eexists. split; [reflexivity|]. exists (X * T), (Y * Z), (Z * T), (X * Y). split_and!; [done..|]. by apply completed_extended.
Qed.

(** The four coordinates of a result, their bounds weakened. *)
Ltac completed :=
  eexists; split; [reflexivity|]; do 4 eexists; split_and!;
  [eapply is_fe_weaken; [|eassumption]; lia ..|].

Lemma ge_add_ok h c p q : rep_p3 h p -> rep_ge_cached c q -> exists r, ge_add h c = Some r /\ rep_p1p1 r (padd p q).
Proof.
  intros (X & Y & Z & T & HX & HY & HZ & HT & H) (A & B & Z2 & C & HA & HB & HZ2 & HC & Hc).
  unfold ge_add. do 11 fe_step. completed. by apply add_completed.
Qed.

Lemma ge_sub_ok h c p q : rep_p3 h p -> rep_ge_cached c q ->
  exists r, ge_sub h c = Some r /\ rep_p1p1 r (padd p (popp q)).
Proof.
  intros (X & Y & Z & T & HX & HY & HZ & HT & H) (A & B & Z2 & C & HA & HB & HZ2 & HC & Hc).
  unfold ge_sub. do 11 fe_step. completed. by apply sub_completed.
Qed.

Lemma ge_madd_ok h c p q : rep_p3 h p -> rep_precomp c q -> exists r, ge_madd h c = Some r /\ rep_p1p1 r (padd p q).
Proof.
  intros (X & Y & Z & T & HX & HY & HZ & HT & H) (A & B & C & HA & HB & HC & Hc).
  unfold ge_madd. do 10 fe_step. completed. by apply madd_completed.
Qed.

Lemma ge_msub_ok h c p q : rep_p3 h p -> rep_precomp c q ->
  exists r, ge_msub h c = Some r /\ rep_p1p1 r (padd p (popp q)).
Proof.
  intros (X & Y & Z & T & HX & HY & HZ & HT & H) (A & B & C & HA & HB & HC & Hc).
  unfold ge_msub. do 10 fe_step. completed. by apply msub_completed.
Qed.

Lemma ge_p2_dbl_ok h p : rep_p2 h p -> exists r, ge_p2_dbl h = Some r /\ rep_p1p1 r (padd p p).
Proof.
  intros (X & Y & Z & HX & HY & HZ & H). unfold ge_p2_dbl. do 9 fe_step. completed. by apply double_completed.
Qed.

Lemma ge_p3_dbl_ok h p : rep_p3 h p -> exists r, ge_p3_dbl h = Some r /\ rep_p1p1 r (padd p p).
Proof. intros H. apply ge_p2_dbl_ok. by apply ge_p3_to_p2_ok. Qed.
