(* ===== verification/TableProofs.v ===== *)
(** The tables of base.h and base2.h hold the multiples of the base point the
    comments say: every entry is compared with the point computed from the
    addition law. *)
From Bignums Require Import BigZ.
From stdpp Require Import base list.
From Stdlib Require Import ZArith Lia Zmod.
From S2P Require Import Prelude MachineInt FieldElement FieldProofs FieldEncoding ScalarProofs FastArith GroupElement BaseTable Edwards Coordinates Ed25519 GroupProofs.
#[local] Open Scope Z_scope.

(** The base point (x, 4/5), with x even. *)
Definition base_x : Z := 15112221349535400772501151409588531511454012693041857206046113283949847762202.
Definition base_y : Z := 46316835694926478169428394003475163141307993866256225615783033603165251855960.

Definition on_curve_z (x y : Z) : bool :=
  Zmod.eqb (fsub (fmul (fz y) (fz y)) (fmul (fz x) (fz x)))
    (fadd f1 (fmul curve_d (fmul (fmul (fz x) (fz x)) (fmul (fz y) (fz y))))).

Lemma on_curve_z_ok x y : on_curve_z x y = true -> on_curve (fz x) (fz y).
Proof. intros H. by apply Zmod.eqb_eq in H. Qed.

Lemma base_on_curve : on_curve (fz base_x) (fz base_y).
Proof. apply on_curve_z_ok. vm_compute. reflexivity. Qed.
Definition base_point : point := make_point (fz base_x) (fz base_y) base_on_curve.

Lemma base_y_ok : Zmod.mul (fz 5) (p_y base_point) = fz 4.
Proof. apply Zmod.eqb_eq. vm_compute. reflexivity. Qed.

(** ** Residues of fast integers *)

Definition p_big : bigZ := BigZ.of_Z P25519.
Definition rz (x : bigZ) : F := fz (BigZ.to_Z x).

Definition mulz (a b : bigZ) : bigZ := mul_mod p_big a b.
Lemma mulz_ok a b : rz (mulz a b) = fmul (rz a) (rz b).
Proof.
  unfold rz, mulz. rewrite mul_mod_ok. unfold p_big. rewrite BigZ.spec_of_Z, <- fz_mul.
  apply fz_eq. apply Z.mod_mod. done.
Qed.
Lemma rz_add a b : rz (BigZ.add a b) = fadd (rz a) (rz b).
Proof. unfold rz. by rewrite BigZ.spec_add, fz_add. Qed.
Lemma rz_sub a b : rz (BigZ.sub a b) = fsub (rz a) (rz b).
Proof. unfold rz. by rewrite BigZ.spec_sub, fz_sub. Qed.
Lemma rz_of a : rz (BigZ.of_Z a) = fz a.
Proof. unfold rz. by rewrite BigZ.spec_of_Z. Qed.

Declare Scope big_scope.
Infix "⋆" := mulz (at level 40, left associativity) : big_scope.
#[local] Open Scope big_scope.
#[local] Open Scope bigZ_scope.

Definition big_1 : bigZ := BigZ.of_Z 1.
Definition big_d : bigZ := BigZ.of_Z (fe_val d).
Lemma rz_1 : rz big_1 = f1.
Proof. unfold big_1. by rewrite rz_of, fz_1. Qed.
Lemma rz_d : rz big_d = curve_d.
Proof. apply rz_of. Qed.

(** Equal modulo p. *)
Definition eqz (a b : bigZ) : bool := BigZ.eqb (BigZ.modulo (a - b) p_big) BigZ.zero.
Lemma eqz_ok a b : eqz a b = true -> rz a = rz b.
Proof.
  unfold eqz. rewrite BigZ.spec_eqb, BigZ.spec_modulo, BigZ.spec_sub. unfold p_big. rewrite BigZ.spec_of_Z, Z.eqb_eq.
  change (BigZ.to_Z BigZ.zero) with 0%Z. intros H. apply fz_eq. apply Z.mod_divide in H; [|done]. destruct H as [k H].
  apply (eq_mod_multiple _ _ k). lia.
Qed.

(** ** Checking an entry *)

Definition raw : Type := bigZ * bigZ.
Definition stands_for (q : raw) (p : point) : Prop := rz (fst q) = p_x p /\ rz (snd q) = p_y p.

Definition base_raw : raw := (BigZ.of_Z base_x, BigZ.of_Z base_y).
Lemma stands_for_base : stands_for base_raw base_point.
Proof. split; apply rz_of. Qed.

Definition small_limbs (f : fe) : bool :=
  let '(Fe h0 h1 h2 h3 h4 h5 h6 h7 h8 h9) := f in
  forallb (fun h => Z.abs h <=? 33889976)%Z [h0; h2; h4; h6; h8] &&
  forallb (fun h => Z.abs h <=? 16944988)%Z [h1; h3; h5; h7; h9].

Lemma small_limbs_ok f : small_limbs f = true -> bnd 1 f.
Proof.
  destruct f as [h0 h1 h2 h3 h4 h5 h6 h7 h8 h9]. unfold small_limbs. cbn [forallb].
  rewrite !andb_true_iff, !Z.leb_le. unfold bnd, fe_bounded. intros H. lia.
Qed.

(** An entry stands for the point. *)
Definition entry_ok (c : ge_precomp) (p : raw) : bool :=
  small_limbs (yplusx c) && small_limbs (yminusx c) && small_limbs (xy2d c) &&
  eqz (BigZ.of_Z (fe_val (yplusx c))) (snd p + fst p) && eqz (BigZ.of_Z (fe_val (yminusx c))) (snd p - fst p) &&
  eqz (BigZ.of_Z (fe_val (xy2d c))) ((big_1 + big_1) ⋆ big_d ⋆ (fst p ⋆ snd p)).

Lemma entry_rep c q p : stands_for q p -> entry_ok c q = true -> rep_precomp c p.
Proof.
  intros [Hx Hy]. unfold entry_ok. rewrite !andb_true_iff. intros (((((H1 & H2) & H3) & HA) & HB) & HC).
  apply eqz_ok in HA, HB, HC. rewrite rz_of in HA, HB, HC. exists (fv (yplusx c)), (fv (yminusx c)), (fv (xy2d c)).
  split_and!; [split; [by apply small_limbs_ok|done]..|]. unfold fv. apply cached_1.
  - by rewrite HA, rz_add, Hx, Hy.
  - by rewrite HB, rz_sub, Hx, Hy.
  - by rewrite HC, !mulz_ok, rz_add, rz_1, rz_d, Hx, Hy.
Qed.

(** [r] is the sum of [p] and [q], without a division. *)
Definition sum_rel (p q r : raw) : bool :=
  let t := big_d ⋆ (fst p ⋆ fst q ⋆ (snd p ⋆ snd q)) in
  eqz ((big_1 + t) ⋆ fst r) (fst p ⋆ snd q + snd p ⋆ fst q) &&
  eqz ((big_1 - t) ⋆ snd r) (snd p ⋆ snd q + fst p ⋆ fst q).

Lemma sum_rel_ok p q r P Q : stands_for p P -> stands_for q Q -> sum_rel p q r = true -> stands_for r (padd P Q).
Proof.
  intros [Px Py] [Qx Qy]. unfold sum_rel. rewrite andb_true_iff. intros [Hx Hy]. apply eqz_ok in Hx, Hy.
  rewrite rz_add, !mulz_ok in Hx, Hy. rewrite rz_add in Hx. rewrite rz_sub in Hy.
  rewrite !mulz_ok, rz_1, rz_d, Px, Py, Qx, Qy in Hx, Hy.
  exact (sum_unique _ _ _ _ _ _ (point_on_curve P) (point_on_curve Q) Hx Hy).
Qed.

(** The coordinates an entry claims; the constant is 1/2. *)
Definition half : bigZ := BigZ.of_Z 28948022309329048855892746252171976963317496166410141009864396001978282409975.
Definition entry_raw (c : ge_precomp) : raw :=
  let yp := BigZ.of_Z (fe_val (yplusx c)) in let ym := BigZ.of_Z (fe_val (yminusx c)) in
  (half ⋆ (yp - ym), half ⋆ (yp + ym)).

(** Consecutive entries are [acc], [step + acc], [2 step + acc], ... *)
Fixpoint row_ok (row : list ge_precomp) (acc step : raw) : bool :=
  match row with
  | [] => true
  | c :: row' =>
      entry_ok c acc &&
      match row' with
      | [] => true
      | c' :: _ => let next := entry_raw c' in sum_rel step acc next && row_ok row' next step
      end
  end.

Lemma row_ok_spec row q r k s p : stands_for q (zmul k p) -> stands_for r (zmul s p) -> row_ok row q r = true ->
  forall j c, row !! j = Some c -> rep_precomp c (zmul (k + Z.of_nat j * s)%Z p).
Proof.
  intros Hq Hr. revert k q Hq. induction row as [|c0 row IH]; intros k q Hq H j c Hj; [done|]. cbn [row_ok] in H.
  apply andb_true_iff in H as [H0 H]. destruct j as [|j]; cbn in Hj.
  - inversion Hj; subst. rewrite Z.add_0_r. by apply (entry_rep c q).
  - destruct row as [|c' row]; [done|]. cbv zeta in H. apply andb_true_iff in H as [H1 H].
    apply (sum_rel_ok _ _ _ _ _ Hr Hq) in H1. rewrite <- zmul_add in H1. specialize (IH _ _ H1 H j c Hj).
    by replace (k + Z.of_nat (S j) * s)%Z with (s + k + Z.of_nat j * s)%Z by lia.
Qed.

(** Doubling in projective coordinates. *)
Fixpoint double_n (n : nat) (q : bigZ * bigZ * bigZ) : bigZ * bigZ * bigZ :=
  match n with
  | O => q
  | S n' =>
      let '(X, Y, Z) := q in
      let A := (X + Y) ⋆ (X + Y) in let YY := Y ⋆ Y in let XX := X ⋆ X in
      let Y3 := YY + XX in let Z3 := YY - XX in let X3 := A - Y3 in
      let T3 := (big_1 + big_1) ⋆ (Z ⋆ Z) - Z3 in
      double_n n' (X3 ⋆ T3, Y3 ⋆ Z3, Z3 ⋆ T3)
  end.

Lemma double_n_spec n : forall X Y Z k p, rep_projective (rz X) (rz Y) (rz Z) (zmul k p) ->
  let '(X', Y', Z') := double_n n (X, Y, Z) in rep_projective (rz X') (rz Y') (rz Z') (zmul (2 ^ Z.of_nat n * k)%Z p).
Proof.
  induction n as [|n IH]; intros X Y Z k p H; [by rewrite Z.mul_1_l|]. cbn [double_n].
  apply double_completed, completed_projective in H. rewrite <- zmul_double in H.
  replace (2 ^ Z.of_nat (S n) * k)%Z with (2 ^ Z.of_nat n * (2 * k))%Z by (rewrite Nat2Z.inj_succ, Z.pow_succ_r; lia).
  apply IH. rewrite !mulz_ok, !rz_sub, !rz_add, !mulz_ok, !rz_add, rz_1. done.
Qed.

(** [q] is 256 times [p]. *)
Definition is_256_times (p q : raw) : bool :=
  let '(X, Y, Z) := double_n 8 (fst p, snd p, big_1) in eqz X (fst q ⋆ Z) && eqz Y (snd q ⋆ Z).

Lemma is_256_times_ok k P p q : stands_for p (zmul k P) -> is_256_times p q = true -> stands_for q (zmul (256 * k)%Z P).
Proof.
  intros [Px Py]. unfold is_256_times. pose proof (affine_projective (zmul k P)) as H.
  rewrite <- Px, <- Py, <- rz_1 in H. apply (double_n_spec 8) in H.
  destruct (double_n 8 _) as [[X Y] Z]. rewrite andb_true_iff. intros [HX HY]. apply eqz_ok in HX, HY.
  rewrite mulz_ok in HX, HY. exact (projective_unique _ _ _ _ _ _ H HX HY).
Qed.

Definition row_head (row : list ge_precomp) : raw := entry_raw (hd ge_precomp_0 row).

Fixpoint table_ok (rows : list (list ge_precomp)) (p : raw) : bool :=
  match rows with
  | [] => true
  | row :: rows' =>
      (length row =? 8)%nat && row_ok row p p &&
      match rows' with
      | [] => true
      | row' :: _ => let next := row_head row' in is_256_times p next && table_ok rows' next
      end
  end.

Lemma table_ok_spec rows q k p : stands_for q (zmul k p) -> table_ok rows q = true ->
  forall i row, rows !! i = Some row -> length row = 8%nat /\
    forall j c, row !! j = Some c -> rep_precomp c (zmul ((Z.of_nat j + 1) * (256 ^ Z.of_nat i * k))%Z p).
Proof.
  revert q k. induction rows as [|row0 rows IH]; intros q k Hq H i row Hi; [done|]. cbn [table_ok] in H.
  apply andb_true_iff in H as [H Hrest]. apply andb_true_iff in H as [Hl Hrow]. destruct i as [|i]; cbn in Hi.
  - inversion Hi; subst. split; [by apply Nat.eqb_eq|]. intros j c Hj.
    pose proof (row_ok_spec _ _ _ _ _ _ Hq Hq Hrow j c Hj) as Hc.
    by replace ((Z.of_nat j + 1) * (256 ^ Z.of_nat 0 * k))%Z with (k + Z.of_nat j * k)%Z by lia.
  - destruct rows as [|row1 rows]; [done|]. cbv zeta in Hrest. apply andb_true_iff in Hrest as [H1 Hrest].
    apply (is_256_times_ok _ _ _ _ Hq) in H1. destruct (IH _ _ H1 Hrest i row Hi) as [Hl' Hj]. split; [done|].
    intros j c Hc. specialize (Hj j c Hc). rewrite Nat2Z.inj_succ, Z.pow_succ_r by lia.
    by replace ((Z.of_nat j + 1) * (256 * 256 ^ Z.of_nat i * k))%Z
      with ((Z.of_nat j + 1) * (256 ^ Z.of_nat i * (256 * k)))%Z by lia.
Qed.

Lemma base_table_checks : table_ok base base_raw = true.
Proof. vm_compute. reflexivity. Qed.

(** Twice the base point. *)
Definition base_double : raw :=
  (BigZ.of_Z 24727413235106541002554574571675588834622768167397638456726423682521233608206,
   BigZ.of_Z 15549675580280190176352668710449542251549572066445060580507079593062643049417).

Lemma base_double_ok : stands_for base_double (zmul 2 base_point).
Proof.
  change 2%Z with (2 * 1)%Z. rewrite zmul_double, zmul_1.
  apply (sum_rel_ok _ _ _ _ _ stands_for_base stands_for_base). vm_compute. reflexivity.
Qed.

Lemma Bi_checks : row_ok Bi base_raw base_double = true.
Proof. vm_compute. reflexivity. Qed.

(** (j+1) * 256^i * B *)
Lemma base_ok i row : base !! i = Some row -> length row = 8%nat /\
  forall j c, row !! j = Some c -> rep_precomp c (zmul ((Z.of_nat j + 1) * 256 ^ Z.of_nat i)%Z base_point).
Proof.
  intros Hi. assert (stands_for base_raw (zmul 1 base_point)) as H by (rewrite zmul_1; apply stands_for_base).
  destruct (table_ok_spec _ _ _ _ H base_table_checks i row Hi) as [Hl Hj]. split; [done|]. intros j c Hc.
  specialize (Hj j c Hc). by rewrite Z.mul_1_r in Hj.
Qed.

Lemma length_base : length base = 32%nat.
Proof. done. Qed.

(** (2 j + 1) * B *)
Lemma Bi_ok j c : Bi !! j = Some c -> rep_precomp c (zmul (2 * Z.of_nat j + 1)%Z base_point).
Proof.
  intros Hj. assert (stands_for base_raw (zmul 1 base_point)) as H by (rewrite zmul_1; apply stands_for_base).
  pose proof (row_ok_spec _ _ _ _ _ _ H base_double_ok Bi_checks j c Hj) as Hc.
  by replace (2 * Z.of_nat j + 1)%Z with (1 + Z.of_nat j * 2)%Z by lia.
Qed.

(** ** The order of the base point *)

(** Extended coordinates. *)
Definition ext : Type := bigZ * bigZ * bigZ * bigZ.
Definition rep_ext (q : ext) (p : point) : Prop :=
  let '(X, Y, Z, T) := q in rep_extended (rz X) (rz Y) (rz Z) (rz T) p.

Definition complete_ext (X Y Z T : bigZ) : ext := (X ⋆ T, Y ⋆ Z, Z ⋆ T, X ⋆ Y).

Definition double_ext (q : ext) : ext :=
  let '(X, Y, Z, T) := q in
  let YY := Y ⋆ Y in let XX := X ⋆ X in let Y3 := YY + XX in let Z3 := YY - XX in
  complete_ext ((X + Y) ⋆ (X + Y) - Y3) Y3 Z3 ((big_1 + big_1) ⋆ (Z ⋆ Z) - Z3).

(** The base point, cached. *)
Definition base_A : bigZ := snd base_raw + fst base_raw.
Definition base_B : bigZ := snd base_raw - fst base_raw.
Definition base_C : bigZ := (big_1 + big_1) ⋆ big_d ⋆ (fst base_raw ⋆ snd base_raw).
Definition add_base (q : ext) : ext :=
  let '(X, Y, Z, T) := q in
  let A := (Y + X) ⋆ base_A in let B := (Y - X) ⋆ base_B in let C := base_C ⋆ T in let D := Z + Z in
  complete_ext (A - B) (A + B) (D + C) (D - C).

Lemma double_ext_ok q p : rep_ext q p -> rep_ext (double_ext q) (padd p p).
Proof.
  destruct q as [[[X Y] Z] T]. cbn [rep_ext double_ext complete_ext]. intros H.
  apply extended_projective, double_completed, completed_extended in H.
  by rewrite !mulz_ok, !rz_sub, !rz_add, !mulz_ok, !rz_add, rz_1.
Qed.

Lemma base_cached : rep_cached (rz base_A) (rz base_B) f1 (rz base_C) base_point.
Proof.
  destruct stands_for_base as [Hx Hy]. apply cached_1; unfold base_A, base_B, base_C.
  - by rewrite rz_add, Hx, Hy.
  - by rewrite rz_sub, Hx, Hy.
  - by rewrite !mulz_ok, rz_add, rz_1, rz_d, Hx, Hy.
Qed.

Lemma add_base_ok q p : rep_ext q p -> rep_ext (add_base q) (padd p base_point).
Proof.
  destruct q as [[[X Y] Z] T]. cbn [rep_ext add_base complete_ext]. intros H.
  pose proof (completed_extended _ _ _ _ _ (madd_completed _ _ _ _ _ _ _ _ _ H base_cached)) as Hr.
  by rewrite !mulz_ok, !rz_add, !rz_sub, !mulz_ok, !rz_add, !rz_sub.
Qed.

(** Double and add. *)
Fixpoint times_base (n : positive) : ext :=
  match n with
  | xH => (fst base_raw, snd base_raw, big_1, fst base_raw ⋆ snd base_raw)
  | xO n' => double_ext (times_base n')
  | xI n' => add_base (double_ext (times_base n'))
  end.

Lemma times_base_ok n : rep_ext (times_base n) (zmul (Zpos n) base_point).
Proof.
  induction n as [n IH|n IH|]; cbn [times_base].
  - rewrite Pos2Z.inj_xI, zmul_add, zmul_double, zmul_1. by apply add_base_ok, double_ext_ok.
  - rewrite Pos2Z.inj_xO, zmul_double. by apply double_ext_ok.
  - rewrite zmul_1. destruct stands_for_base as [Hx Hy]. cbn [rep_ext]. rewrite mulz_ok, rz_1, Hx, Hy.
    apply affine_extended.
Qed.

Definition is_origin (q : ext) : bool := let '(X, Y, Z, T) := q in eqz X BigZ.zero && eqz Y Z.

Lemma is_origin_ok q p : rep_ext q p -> is_origin q = true -> p = origin.
Proof.
  destruct q as [[[X Y] Z] T]. cbn [rep_ext is_origin]. rewrite andb_true_iff. intros H [HX HY].
  apply eqz_ok in HX, HY. apply (origin_unique _ _ _ _ (extended_projective _ _ _ _ _ H)); [|done].
  rewrite HX. unfold rz. apply fz_0.
Qed.

Definition is_origin_at (z : Z) : bool := match z with Zpos n => is_origin (times_base n) | _ => false end.

Lemma base_order : zmul L25519 base_point = origin.
Proof.
  assert (is_origin_at L25519 = true) as H by (vm_compute; reflexivity). revert H.
  generalize L25519. intros [|n|n] H; [done| |done]. exact (is_origin_ok _ _ (times_base_ok n) H).
Qed.
