(* ===== verification/ScalarMultProofs.v ===== *)
(** [ge_scalarmult_base] computes multiples of the base point. *)
From stdpp Require Import base list.
From Stdlib Require Import ZArith Lia.
From S2P Require Import Prelude MachineInt FieldElement FieldProofs FieldEncoding GroupElement BaseTable ScalarMult.
From S2P Require Import Edwards Coordinates Ed25519 GroupProofs TableProofs.
#[local] Open Scope Z_scope.
#[local] Open Scope checked_scope.

(** ** Selection from the table *)

Lemma cmov_ok t u (b : bool) : cmov t u (Z.b2z b) = if b then u else t.
Proof. unfold cmov. rewrite !fe_cmov_ok. by destruct b, t, u. Qed.
Lemma cmov_0 t u : cmov t u 0 = t.
Proof. apply (cmov_ok t u false). Qed.
Lemma cmov_1 t u : cmov t u 1 = u.
Proof. apply (cmov_ok t u true). Qed.

Lemma precomp_opp c p : rep_precomp c p ->
  exists n, fe_neg (xy2d c) = Some n /\ rep_precomp (Precomp (yminusx c) (yplusx c) n) (popp p).
Proof.
  intros (A & B & C & HA & HB & HC & H). destruct (neg_ok 1 (xy2d c) C) as (n & E & Hn); [lia|done|].
  exists n. split; [done|]. exists B, A, (fopp C). split_and!; [done..|]. by apply cached_opp.
Qed.

(** The entry with the absolute value of the digit. *)
Definition chosen (row : list ge_precomp) (m : nat) : ge_precomp :=
  match m with O => ge_precomp_0 | S j => nth j row ge_precomp_0 end.

Lemma select_unfold pos b row : base !! pos = Some row -> length row = 8%nat -> -8 <= b <= 8 ->
  select pos b =
    let t := chosen row (Z.to_nat (Z.abs b)) in
    let! n := fe_neg (xy2d t) in
    Some (if b <? 0 then Precomp (yminusx t) (yplusx t) n else t).
Proof.
  intros Hrow Hl Hb. unfold select. rewrite Hrow.
  do 8 (destruct row as [|? row]; [done|]). destruct row; [|done]. cbn [lookup list_lookup].
  assert (b = -8 \/ b = -7 \/ b = -6 \/ b = -5 \/ b = -4 \/ b = -3 \/ b = -2 \/ b = -1 \/ b = 0 \/ b = 1 \/ b = 2 \/
    b = 3 \/ b = 4 \/ b = 5 \/ b = 6 \/ b = 7 \/ b = 8) as Hcases by lia.
  repeat (destruct Hcases as [->|Hcases]); [..|rewrite Hcases];
    repeat match goal with
    | |- context [negative ?z] => let v := eval vm_compute in (negative z) in change (negative z) with v
    | |- context [u8 ?z] => let v := eval vm_compute in (u8 z) in change (u8 z) with v
    end;
    repeat match goal with
    | |- context [equal ?x ?y] => let v := eval vm_compute in (equal x y) in change (equal x y) with v
    end; rewrite ?cmov_0, ?cmov_1; cbv zeta; cbn [chosen nth Z.abs Z.to_nat Pos.to_nat Pos.iter_op Nat.add Z.ltb Z.compare];
    rewrite ?cmov_0, ?cmov_1; unfold fe_copy; destruct (fe_neg _); rewrite ?cmov_0, ?cmov_1; reflexivity.
Qed.

Lemma chosen_ok pos row m : base !! pos = Some row -> (m <= 8)%nat ->
  rep_precomp (chosen row m) (zmul (Z.of_nat m * 256 ^ Z.of_nat pos) base_point).
Proof.
  intros Hrow Hm. destruct (base_ok pos row Hrow) as [Hl Hj]. destruct m as [|j]; [apply ge_precomp_0_ok|]. cbn [chosen].
  destruct (lookup_lt_is_Some_2 row j) as [c Hc]; [lia|]. rewrite (nth_lookup_Some _ _ _ _ Hc).
  specialize (Hj j c Hc). by replace (Z.of_nat (S j)) with (Z.of_nat j + 1) by lia.
Qed.

Lemma select_ok pos b : (pos < 32)%nat -> -8 <= b <= 8 ->
  exists t, select pos b = Some t /\ rep_precomp t (zmul (b * 256 ^ Z.of_nat pos) base_point).
Proof.
  intros Hpos Hb. destruct (lookup_lt_is_Some_2 base pos) as [row Hrow]; [rewrite length_base; lia|].
  rewrite (select_unfold pos b row Hrow (proj1 (base_ok pos row Hrow)) Hb). cbv zeta.
  pose proof (chosen_ok pos row (Z.to_nat (Z.abs b)) Hrow ltac:(lia)) as Hc. rewrite Z2Nat.id in Hc by lia.
  destruct (precomp_opp _ _ Hc) as (n & -> & Hn). eexists. split; [reflexivity|].
  destruct (Z.ltb_spec b 0).
  - rewrite <- zmul_opp in Hn. by replace (b * 256 ^ Z.of_nat pos) with (- (Z.abs b * 256 ^ Z.of_nat pos)) by lia.
  - by replace (b * 256 ^ Z.of_nat pos) with (Z.abs b * 256 ^ Z.of_nat pos) by lia.
Qed.

(** ** Digits *)

(** The value of digits in base 16. *)
Fixpoint val16 (e : list Z) : Z :=
  match e with
  | [] => 0
  | x :: e' => x + 16 * val16 e'
  end.

Lemma val16_app a b : val16 (a ++ b) = val16 a + 16 ^ Z.of_nat (length a) * val16 b.
Proof.
  induction a as [|x a IH]; cbn [app val16 length]; [lia|].
  rewrite IH, Nat2Z.inj_succ, Z.pow_succ_r by lia. ring.
Qed.

Lemma land_15 x : Z.land x 15 = x mod 16.
Proof. change 15 with (Z.ones 4). by rewrite Z.land_ones by lia. Qed.

Definition nibble (x : Z) : Prop := 0 <= x < 16.

Lemma nibbles_of (s : bytes) : Forall is_u8 s ->
  let l := flat_map (fun x => [Z.land (Z.shiftr x 0) 15; Z.land (Z.shiftr x 4) 15]) s in
  val16 l = le_val s /\ Forall nibble l /\ length l = (2 * length s)%nat.
Proof.
  induction 1 as [|x s Hx Hs IH]; [done|]. cbn [flat_map app val16 le_val length]. destruct IH as (-> & Hn & ->).
  rewrite !land_15, Z.shiftr_0_r, Z.shiftr_div_pow2 by lia. unfold is_u8 in Hx. change (2 ^ 4) with 16. split_and!.
  - Z.div_mod_to_equations. lia.
  - constructor; [apply Z.mod_pos_bound; lia|]. constructor; [apply Z.mod_pos_bound; lia|done].
  - lia.
Qed.

Lemma nibbles_bytes a : length a = 32%nat ->
  nibbles a = flat_map (fun x => [Z.land (Z.shiftr x 0) 15; Z.land (Z.shiftr x 4) 15]) a.
Proof.
  intros Hl. unfold nibbles. do 32 (destruct a as [|? a]; [done|]). destruct a; [|done]. reflexivity.
Qed.

(** ** Signed digits *)

Definition signed_digit (x : Z) : Prop := -8 <= x <= 8.

Lemma s8_small x : -128 <= x < 128 -> s8 x = x.
Proof. intros H. unfold s8. rewrite Z.mod_small; lia. Qed.

Lemma recode_cons x e carry : e <> [] ->
  recode (x :: e) carry =
    let x := s8 (x + carry) in let carry := Z.shiftr (s8 (x + 8)) 4 in
    s8 (x - Z.shiftl carry 4) :: recode e carry.
Proof. by destruct e. Qed.

(** The digits keep their value; the last is not above 7, so that no carry is
    left. *)
Lemma recode_ok e x c : Forall nibble e -> 0 <= x <= 7 -> 0 <= c <= 1 ->
  Forall signed_digit (recode (e ++ [x]) c) /\ val16 (recode (e ++ [x]) c) = val16 (e ++ [x]) + c /\
  length (recode (e ++ [x]) c) = S (length e).
Proof.
  intros He Hx. revert c. induction He as [|y e Hy He IH]; intros c Hc.
  - cbn [app recode val16 length]. rewrite s8_small by lia. split_and!; [|lia|done].
    constructor; [unfold signed_digit; lia|done].
  - change ((y :: e) ++ [x]) with (y :: (e ++ [x])). rewrite recode_cons by by destruct e. cbv zeta. unfold nibble in Hy.
    rewrite (s8_small (y + c)), (s8_small (y + c + 8)), Z.shiftr_div_pow2 by lia. change (2 ^ 4) with 16.
    assert (0 <= (y + c + 8) / 16 <= 1 /\ -8 <= y + c - 16 * ((y + c + 8) / 16) <= 8) as [Hq Hd] by (Z.div_mod_to_equations; lia).
    rewrite Z.shiftl_mul_pow2, (Z.mul_comm _ (2 ^ 4)) by lia. change (2 ^ 4) with 16.
    rewrite s8_small by lia. destruct (IH _ Hq) as (H1 & H2 & H3). cbn [val16 length]. split_and!; [by constructor| |lia].
    rewrite H2. lia.
Qed.

Lemma split_last (a : bytes) n : length a = S n -> a = take n a ++ [byte_at a n].
Proof.
  intros Hl. rewrite <- (take_drop n a) at 1. f_equal. destruct (lookup_lt_is_Some_2 a n) as [x Hx]; [lia|].
  rewrite (drop_S a x n Hx), drop_ge by lia. unfold byte_at. by rewrite (nth_lookup_Some _ _ _ _ Hx).
Qed.

Lemma digits_ok a : length a = 32%nat -> Forall is_u8 a -> byte_at a 31 <= 127 ->
  let e := recode (nibbles a) 0 in
  Forall signed_digit e /\ val16 e = le_val a /\ length e = 64%nat.
Proof.
  intros Hl Ha H31. rewrite nibbles_bytes by done. destruct (nibbles_of a Ha) as (Hv & Hn & Hln). cbv zeta.
  set (f := fun x => _) in *. rewrite Hl in Hln.
  assert (flat_map f a = (flat_map f (take 31 a) ++ [Z.land (Z.shiftr (byte_at a 31) 0) 15]) ++
    [Z.land (Z.shiftr (byte_at a 31) 4) 15]) as El.
  { rewrite (split_last a 31 Hl) at 1. rewrite flat_map_app, <- app_assoc. done. }
  pose proof (byte_at_ok a 31 Ha) as Hb. unfold is_u8 in Hb. rewrite El in *.
  apply Forall_app in Hn as [He _]. rewrite length_app in Hln. cbn [length] in Hln.
  destruct (recode_ok _ (Z.land (Z.shiftr (byte_at a 31) 4) 15) 0 He) as (H1 & H2 & H3); [|lia|].
  { rewrite land_15, Z.shiftr_div_pow2 by lia. change (2 ^ 4) with 16. Z.div_mod_to_equations. lia. }
  split_and!; [done| |lia]. rewrite H2, Hv. lia.
Qed.

(** ** The loops *)

(** The sum of the digits at [idx], with their weights. *)
Definition digit_sum (e : list Z) (idx : list nat) : Z :=
  foldr (fun i acc => nth i e 0 * 256 ^ Z.of_nat (i / 2) + acc) 0 idx.

Lemma madd_loop e idx h p : Forall signed_digit e -> length e = 64%nat -> Forall (fun i => (i < 64)%nat) idx ->
  rep_p3 h p -> exists h', fold_checked (madd_step e) h idx = Some h' /\
    rep_p3 h' (padd p (zmul (digit_sum e idx) base_point)).
Proof.
  intros He Hl Hidx. revert h p. induction Hidx as [|i idx Hi Hidx IH]; intros h p Hp.
  { exists h. split; [done|]. change (digit_sum e []) with 0. by rewrite zmul_0, padd_0_r. }
  cbn [fold_checked digit_sum foldr]. destruct (lookup_lt_is_Some_2 e i) as [x Hx]; [lia|].
  rewrite (nth_lookup_Some _ _ _ _ Hx). unfold madd_step at 1. rewrite Hx.
  assert (signed_digit x) as Hd by exact (Forall_lookup_1 _ _ _ _ He Hx).
  destruct (select_ok (i / 2) x) as (t & -> & Ht); [apply Nat.Div0.div_lt_upper_bound; lia|done|].
  destruct (ge_madd_ok _ _ _ _ Hp Ht) as (r & -> & Hr). destruct (ge_p1p1_to_p3_ok _ _ Hr) as (h1 & -> & Hh1).
  destruct (IH _ _ Hh1) as (h' & -> & Hh'). exists h'. split; [done|].
  by rewrite zmul_add, <- padd_assoc.
Qed.

(** [n] doublings. *)
Lemma double_p2 h p : rep_p2 h p -> exists r s, ge_p2_dbl h = Some r /\ ge_p1p1_to_p2 r = Some s /\ rep_p1p1 r (zmul 2 p) /\ rep_p2 s (zmul 2 p).
Proof.
  intros H. destruct (ge_p2_dbl_ok _ _ H) as (r & E & Hr). change 2 with (2 * 1). rewrite zmul_double, zmul_1.
  destruct (ge_p1p1_to_p2_ok _ _ Hr) as (s & E' & Hs). eauto 10.
Qed.

Lemma digit_sum_app e a b : digit_sum e (a ++ b) = digit_sum e a + digit_sum e b.
Proof. induction a as [|i a IH]; [done|]. cbn [digit_sum app foldr]. fold (digit_sum e (a ++ b)) (digit_sum e a). lia. Qed.

Lemma digit_sum_1 e i : digit_sum e [i] = nth i e 0 * 256 ^ Z.of_nat (i / 2).
Proof. unfold digit_sum. cbn [foldr]. lia. Qed.

Lemma take_two (e : list Z) k : (k + 2 <= length e)%nat -> take (k + 2) e = take k e ++ [nth k e 0; nth (k + 1) e 0].
Proof.
  intros H. destruct (lookup_lt_is_Some_2 e k) as [x Hx]; [lia|]. destruct (lookup_lt_is_Some_2 e (k + 1)) as [y Hy]; [lia|].
  rewrite (nth_lookup_Some _ _ _ _ Hx), (nth_lookup_Some _ _ _ _ Hy).
  replace (k + 2)%nat with (S (S k)) by lia. rewrite (take_S_r _ _ y), (take_S_r _ _ x), <- app_assoc; [done|done|].
  by rewrite <- Hy, Nat.add_1_r.
Qed.

Lemma digit_sums e n : (2 * n <= length e)%nat ->
  val16 (take (2 * n) e) = digit_sum e (map (fun k => 2 * k)%nat (seq 0 n)) +
                           16 * digit_sum e (map (fun k => 2 * k + 1)%nat (seq 0 n)).
Proof.
  induction n as [|n IH]; intros Hl; [done|]. rewrite seq_S, !map_app, !digit_sum_app. cbn [map Nat.add].
  rewrite !digit_sum_1. replace (2 * S n)%nat with (2 * n + 2)%nat by lia. rewrite take_two by lia.
  rewrite val16_app, length_take, Nat.min_l, IH by lia. cbn [val16].
  assert ((2 * n) / 2 = n)%nat as -> by (rewrite Nat.mul_comm; by apply Nat.div_mul).
  assert ((2 * n + 1) / 2 = n)%nat as -> by (symmetry; apply (Nat.div_unique _ _ _ 1); lia).
  rewrite Nat2Z.inj_mul, Z.pow_mul_r by lia. change (16 ^ Z.of_nat 2) with 256. ring.
Qed.

Lemma index_bound (f : nat -> nat) n b : (forall k, (k < n)%nat -> (f k < b)%nat) -> Forall (fun i => (i < b)%nat) (map f (seq 0 n)).
Proof.
  intros H. apply List.Forall_forall. intros i Hi. apply in_map_iff in Hi as (k & <- & Hk). apply in_seq in Hk. apply H. lia.
Qed.

Lemma scalarmult_base_ok a : length a = 32%nat -> Forall is_u8 a -> byte_at a 31 <= 127 ->
  exists h, ge_scalarmult_base a = Some h /\ rep_p3 h (zmul (le_val a) base_point).
Proof.
  intros Hl Ha H31. destruct (digits_ok a Hl Ha H31) as (He & Hv & Hle). unfold ge_scalarmult_base.
  set (e := recode (nibbles a) 0) in *. cbv zeta.
  destruct (madd_loop e (map (fun k => 2 * k + 1)%nat (seq 0 32)) ge_p3_0 origin He Hle) as (h1 & -> & H1);
    [apply index_bound; lia|apply ge_p3_0_ok|].
  rewrite padd_0_l in H1. set (o := digit_sum e _) in H1.
  destruct (double_p2 _ _ (ge_p3_to_p2_ok _ _ H1)) as (r1 & s1 & E1 & E1' & _ & Hs1).
  unfold ge_p3_dbl. rewrite E1, E1'.
  destruct (double_p2 _ _ Hs1) as (r2 & s2 & -> & -> & _ & Hs2).
  destruct (double_p2 _ _ Hs2) as (r3 & s3 & -> & -> & _ & Hs3).
  destruct (double_p2 _ _ Hs3) as (r4 & _ & -> & _ & Hr4 & _).
  destruct (ge_p1p1_to_p3_ok _ _ Hr4) as (h2 & -> & H2).
  assert (Forall (fun i => i < 64)%nat (map (fun k => 2 * k)%nat (seq 0 32))) as Hidx by (apply index_bound; lia).
  destruct (madd_loop e _ _ _ He Hle Hidx H2) as (h3 & -> & H3).
  exists h3. split; [done|]. rewrite <- !zmul_mul, <- zmul_add in H3.
  replace (le_val a) with (2 * (2 * (2 * 2)) * o + digit_sum e (map (fun k => 2 * k)%nat (seq 0 32))); [done|].
  rewrite <- Hv. rewrite <- (take_ge e (2 * 32)) at 2 by lia. rewrite digit_sums by lia. unfold o. ring.
Qed.
