(* ===== verification/SlideProofs.v ===== *)
(** [slide] recodes a scalar with odd digits of absolute value at most 15, and
    [ge_double_scalarmult_vartime] computes a A + b B with them. *)
From stdpp Require Import base list.
From Stdlib Require Import ZArith Lia.
From S2P Require Import Prelude MachineInt FieldElement FieldProofs FieldEncoding GroupElement BaseTable ScalarMult.
From S2P Require Import Edwards Coordinates Ed25519 GroupProofs TableProofs ScalarMultProofs.
#[local] Open Scope Z_scope.
#[local] Open Scope checked_scope.

(** ** Digits in base 2 *)

Fixpoint val2 (r : list Z) : Z :=
  match r with
  | [] => 0
  | x :: r' => x + 2 * val2 r'
  end.

Lemma val2_app a b : val2 (a ++ b) = val2 a + 2 ^ Z.of_nat (length a) * val2 b.
Proof.
  induction a as [|x a IH]; cbn [app val2 length]; [lia|].
  rewrite IH, Nat2Z.inj_succ, Z.pow_succ_r by lia. ring.
Qed.

Lemma digit_insert r k j v : (k < length r)%nat -> digit (<[k := v]> r) j = if decide (j = k) then v else digit r j.
Proof.
  intros Hk. unfold digit. rewrite !nth_lookup. destruct (decide (j = k)) as [->|Hne].
  - by rewrite list_lookup_insert_eq.
  - by rewrite list_lookup_insert_ne.
Qed.

Lemma val2_insert r k v : (k < length r)%nat -> val2 (<[k := v]> r) = val2 r + (v - digit r k) * 2 ^ Z.of_nat k.
Proof.
  revert k. induction r as [|x r IH]; intros k Hk; [cbn in Hk; lia|]. destruct k as [|k]; cbn [insert list_insert val2].
  - unfold digit. cbn. lia.
  - cbn in Hk. fold (@insert nat Z (list Z) _ k v r). rewrite IH by lia. unfold digit. cbn [nth].
    rewrite Nat2Z.inj_succ, Z.pow_succ_r by lia. ring.
Qed.

(** ** The carry *)

Definition is_bit (x : Z) : Prop := x = 0 \/ x = 1.

Lemma slide_carry_ok n r k : (k + n = 256)%nat -> length r = 256%nat -> (k <= 253)%nat ->
  (forall j, (k <= j)%nat -> is_bit (digit r j)) -> (forall j, (253 <= j)%nat -> digit r j = 0) ->
  let r' := slide_carry n r k in
  length r' = 256%nat /\ val2 r' = val2 r + 2 ^ Z.of_nat k /\
  exists m, (k <= m <= 253)%nat /\ digit r m = 0 /\
    forall j, digit r' j = if decide (k <= j < m)%nat then 0 else if decide (j = m) then 1 else digit r j.
Proof.
  revert r k. induction n as [|n IH]; intros r k Hn Hl Hk Hbits Htop; [lia|]. cbn [slide_carry].
  destruct (Z.eqb_spec (digit r k) 0) as [H0|H0].
  - rewrite length_insert, val2_insert, H0 by lia. split_and!; [done|lia|]. exists k. split; [lia|]. split; [done|]. intros j.
    rewrite digit_insert by lia. destruct (decide (k <= j < k)%nat); [lia|done].
  - assert (digit r k = 1) as H1 by (destruct (Hbits k); [lia|done|done]).
    assert (k <> 253)%nat as Hne by (intros ->; rewrite Htop in H1 by lia; done).
    destruct (IH (<[k := 0]> r) (S k)) as (Hl' & Hv & m & Hm & Hm0 & Hj); [lia|by rewrite length_insert|lia| | |].
    + intros j Hj. rewrite digit_insert by lia. destruct (decide (j = k)); [by left|]. apply Hbits. lia.
    + intros j Hj. rewrite digit_insert by lia. destruct (decide (j = k)); [done|]. by apply Htop.
    + split; [done|]. split.
      * rewrite Hv, val2_insert, H1, Nat2Z.inj_succ, Z.pow_succ_r by lia. lia.
      * exists m. split; [lia|]. split; [by rewrite digit_insert, decide_False in Hm0 by lia|]. intros j. rewrite Hj, digit_insert by lia.
        repeat destruct (decide _); try lia; done.
Qed.

(** ** One window *)

(** What holds before position [i] is recoded. *)
Definition recoded (x : Z) : Prop := x = 0 \/ (Z.odd x = true /\ -15 <= x <= 15).
Definition top_clear (i : nat) (r : list Z) : Prop :=
  (forall j, (253 <= j)%nat -> digit r j = 0) \/ (forall j, (i <= j)%nat -> j <> 253%nat -> digit r j = 0).
Record slide_inv (A : Z) (i : nat) (r : list Z) : Prop := {
  inv_length : length r = 256%nat;
  inv_val : val2 r = A;
  inv_done : forall j, (j < i)%nat -> recoded (digit r j);
  inv_bits : forall j, (i <= j)%nat -> is_bit (digit r j);
  inv_top : top_clear i r
}.

(** Before the window looks at [i + b]. *)
Record window_inv (A : Z) (i b : nat) (r : list Z) : Prop := {
  win_length : length r = 256%nat;
  win_val : val2 r = A;
  win_done : forall j, (j < i)%nat -> recoded (digit r j);
  win_digit : Z.odd (digit r i) = true /\ -15 <= digit r i <= 15;
  win_small : (b <= 4)%nat -> 1 <= digit r i < 2 ^ Z.of_nat b;
  win_zero : forall j, (i < j < i + b)%nat -> digit r j = 0;
  win_bits : forall j, (i + b <= j)%nat -> is_bit (digit r j);
  win_top : top_clear (S i) r;
  win_low : (b <= 4)%nat -> (forall j, (i < j)%nat -> digit r j = 0) \/ (forall j, (253 <= j)%nat -> digit r j = 0)
}.

Lemma window_done A i b r : window_inv A i b r -> slide_inv A (S i) r.
Proof.
  intros [Hl Hv Hd Hx Hs Hz Hb Ht Hlow]. split; [done|done| | |done].
  - intros j Hj. destruct (decide (j = i)) as [->|]; [by right|]. apply Hd. lia.
  - intros j Hj. destruct (decide (j < i + b)%nat); [left; apply Hz; lia|apply Hb; lia].
Qed.

(** The bit at [i + b] is zero. *)
Lemma window_skip A i b r : window_inv A i b r -> digit r (i + b) = 0 -> window_inv A i (S b) r.
Proof.
  intros [Hl Hv Hd Hx Hs Hz Hb Ht Hlow] H0. split; try done.
  - intros Hb4. specialize (Hs ltac:(lia)). rewrite Nat2Z.inj_succ, Z.pow_succ_r by lia. lia.
  - intros j Hj. destruct (decide (j = i + b)%nat) as [->|]; [done|]. apply Hz. lia.
  - intros j Hj. apply Hb. lia.
  - intros Hb4. apply Hlow. lia.
Qed.

(** The bit is absorbed in the digit. *)
Lemma window_absorb A i b r : window_inv A i b r -> (1 <= b <= 3)%nat -> (i + b < 256)%nat -> digit r (i + b) = 1 ->
  window_inv A i (S b) (<[(i + b)%nat := 0]> (<[i := s8 (digit r i + 2 ^ Z.of_nat b)]> r)).
Proof.
  intros [Hl Hv Hd [Ho Hx] Hs Hz Hb Ht Hlow] Hb3 Hib H1. specialize (Hs ltac:(lia)). specialize (Hlow ltac:(lia)).
  set (x := digit r i) in *.
  assert (Z.odd (2 ^ Z.of_nat b) = false /\ 2 ^ Z.of_nat b <= 8) as [Hev H8].
  { assert (b = 1 \/ b = 2 \/ b = 3)%nat as [->|[->| ->]] by lia; split; (reflexivity || done). }
  rewrite s8_small by lia.
  assert (forall j, digit (<[(i + b)%nat := 0]> (<[i := x + 2 ^ Z.of_nat b]> r)) j =
    if decide (j = i + b)%nat then 0 else if decide (j = i) then x + 2 ^ Z.of_nat b else digit r j) as Hg.
  { intros j. by rewrite !digit_insert by (rewrite ?length_insert; lia). }
  split.
  - by rewrite !length_insert.
  - rewrite !val2_insert, digit_insert, decide_False, H1 by (rewrite ?length_insert; lia).
    fold x. rewrite Nat2Z.inj_add, Z.pow_add_r by lia. rewrite <- Hv. ring.
  - intros j Hj. rewrite Hg, !decide_False by lia. by apply Hd.
  - rewrite Hg, decide_False, decide_True by lia. split; [|lia]. by rewrite Z.odd_add, Ho, Hev.
  - intros _. rewrite Hg, decide_False, decide_True by lia. rewrite Nat2Z.inj_succ, Z.pow_succ_r by lia. lia.
  - intros j Hj. rewrite Hg. destruct (decide (j = i + b)%nat); [done|]. rewrite decide_False by lia. apply Hz. lia.
  - intros j Hj. rewrite Hg, !decide_False by lia. apply Hb. lia.
  - destruct Hlow as [H|H]; [right|left]; intros j Hj; intros; rewrite Hg; destruct (decide (j = i + b)%nat); try done.
    + rewrite decide_False by lia. apply H. lia.
    + destruct (decide (j = i)) as [->|]; [|by apply H]. unfold x in Ho. by rewrite H in Ho by lia.
  - intros _. destruct Hlow as [H|H]; [left|right]; intros j Hj; rewrite Hg; destruct (decide (j = i + b)%nat); try done.
    + rewrite decide_False by lia. apply H. lia.
    + destruct (decide (j = i)) as [->|]; [|by apply H]. unfold x in Ho. by rewrite H in Ho by lia.
Qed.

(** The bit is carried and the digit becomes negative. *)
Lemma window_carry A i r : window_inv A i 4 r -> (i + 4 < 256)%nat -> digit r (i + 4) = 1 ->
  window_inv A i 5 (slide_carry (256 - (i + 4)) (<[i := s8 (digit r i - 16)]> r) (i + 4)).
Proof.
  intros [Hl Hv Hd [Ho Hx] Hs Hz Hb Ht Hlow] Hib H1. specialize (Hs ltac:(lia)). specialize (Hlow ltac:(lia)).
  change (2 ^ Z.of_nat 4) with 16 in Hs. set (x := digit r i) in *.
  destruct Hlow as [H|Htop]; [rewrite H in H1 by lia; done|].
  assert (i + 4 < 253)%nat as Hi.
  { destruct (Nat.lt_ge_cases (i + 4) 253) as [|Hge]; [done|]. by rewrite Htop in H1 by lia. }
  rewrite s8_small by lia.
  assert (forall j, digit (<[i := x - 16]> r) j = if decide (j = i) then x - 16 else digit r j) as Hg.
  { intros j. by rewrite digit_insert by lia. }
  destruct (slide_carry_ok (256 - (i + 4)) (<[i := x - 16]> r) (i + 4)) as (Hl' & Hv' & m & Hm & Hm0 & Hj);
    [lia|by rewrite length_insert|lia| | |].
  { intros j Hj. rewrite Hg, decide_False by lia. by apply Hb. }
  { intros j Hj. rewrite Hg, decide_False by lia. by apply Htop. }
  assert (m <> i + 4)%nat as Hmne by (intros ->; rewrite Hg, decide_False in Hm0 by lia; congruence).
  set (r' := slide_carry _ _ _) in *. rewrite val2_insert in Hv' by lia. fold x in Hv'.
  split.
  - done.
  - rewrite Hv', Nat2Z.inj_add, Z.pow_add_r by lia. change (2 ^ Z.of_nat 4) with 16. rewrite <- Hv. ring.
  - intros j Hji. rewrite Hj, !decide_False, Hg, decide_False by lia. by apply Hd.
  - rewrite Hj, !decide_False, Hg, decide_True by lia. split; [|lia]. by rewrite Z.odd_sub, Ho.
  - lia.
  - intros j Hji. rewrite Hj. destruct (decide (i + 4 <= j < m)%nat); [done|]. rewrite decide_False by lia.
    rewrite Hg, decide_False by lia. apply Hz. lia.
  - intros j Hji. rewrite Hj. destruct (decide (i + 4 <= j < m)%nat); [by left|]. destruct (decide (j = m)); [by right|].
    rewrite Hg, decide_False by lia. apply Hb. lia.
  - destruct (decide (m = 253)%nat) as [->|Hm3]; [right|left].
    + intros j Hji Hne. rewrite Hj. destruct (decide (i + 4 <= j < 253)%nat); [done|]. rewrite decide_False by lia.
      rewrite Hg, decide_False by lia. destruct (decide (j < i + 4)%nat); [apply Hz; lia|apply Htop; lia].
    + intros j Hji. rewrite Hj, !decide_False, Hg, decide_False by lia. by apply Htop.
  - lia.
Qed.

Lemma slide_window_ok A i n : forall b r, (1 <= b)%nat -> window_inv A i b r ->
  slide_inv A (S i) (slide_window (seq b n) r i).
Proof.
  induction n as [|n IH]; intros b r Hb1 H; [by eapply window_done|]. cbn [seq slide_window].
  destruct (Nat.leb_spec 256 (i + b)) as [|Hib]; [by eapply window_done|].
  destruct (Z.eqb_spec (digit r (i + b)) 0) as [H0|H0]; [apply IH; [lia|by apply window_skip]|].
  assert (digit r (i + b) = 1) as H1 by (destruct (win_bits _ _ _ _ H (i + b)%nat); [lia|done|done]).
  rewrite H1, Z.shiftl_1_l. destruct (win_digit _ _ _ _ H) as [_ Hx].
  destruct (Nat.le_gt_cases b 4) as [Hb4|Hb4].
  - pose proof (win_small _ _ _ _ H Hb4) as Hs. destruct (decide (b = 4)%nat) as [->|].
    + change (2 ^ Z.of_nat 4) with 16 in *. destruct (Z.leb_spec (digit r i + 16) 15); [lia|].
      destruct (Z.leb_spec (-15) (digit r i - 16)); [|lia]. apply IH; [lia|]. by apply window_carry.
    + assert (2 ^ Z.of_nat b <= 8) by (assert (b = 1 \/ b = 2 \/ b = 3)%nat as [->|[->| ->]] by lia; done).
      destruct (Z.leb_spec (digit r i + 2 ^ Z.of_nat b) 15); [|lia]. apply IH; [lia|]. apply window_absorb; [done|lia|lia|done].
  - assert (2 ^ 5 <= 2 ^ Z.of_nat b) as H5 by (apply Z.pow_le_mono_r; lia). change (2 ^ 5) with 32 in H5.
    destruct (Z.leb_spec (digit r i + 2 ^ Z.of_nat b) 15); [lia|].
    destruct (Z.leb_spec (-15) (digit r i - 2 ^ Z.of_nat b)); [lia|]. by eapply window_done.
Qed.

Lemma slide_step_ok A i r : slide_inv A i r -> slide_inv A (S i) (slide_step r i).
Proof.
  intros H. destruct H as [Hl Hv Hd Hb Ht]. unfold slide_step. destruct (Z.eqb_spec (digit r i) 0) as [H0|H0].
  - split; [done|done| | |].
    + intros j Hj. destruct (decide (j = i)) as [->|]; [by left|]. apply Hd. lia.
    + intros j Hj. apply Hb. lia.
    + destruct Ht as [H|H]; [by left|right]. intros j Hj Hne. apply H; [lia|done].
  - assert (digit r i = 1) as H1 by (destruct (Hb i); [lia|done|done]).
    apply (slide_window_ok A i 6 1); [lia|]. split; [done|done|done| | | | | |].
    + rewrite H1. split; [done|lia].
    + intros _. rewrite H1. cbn. lia.
    + intros j Hj. lia.
    + intros j Hj. apply Hb. lia.
    + destruct Ht as [H|H]; [by left|right]. intros j Hj Hne. apply H; [lia|done].
    + intros _. destruct Ht as [H|H]; [by right|left]. intros j Hj.
      destruct (decide (i = 253)%nat) as [->|Hne]; [apply H; lia|]. by rewrite H in H1 by lia.
Qed.

(** ** The bits of the scalar *)

Definition octet_bits (x : Z) : list Z := map (fun k => Z.land 1 (Z.shiftr x k)) [0; 1; 2; 3; 4; 5; 6; 7].

Lemma octet_bits_ok x : is_u8 x -> val2 (octet_bits x) = x /\ Forall is_bit (octet_bits x).
Proof.
  intros Hx.
  assert (forallb (fun x => (val2 (octet_bits x) =? x) && forallb (fun b => (b =? 0) || (b =? 1)) (octet_bits x))
    (map Z.of_nat (seq 0 256)) = true) as H by (vm_compute; reflexivity).
  rewrite forallb_forall in H. specialize (H x). unfold is_u8 in Hx.
  assert (In x (map Z.of_nat (seq 0 256))) as Hin.
  { apply in_map_iff. exists (Z.to_nat x). split; [lia|]. apply in_seq. lia. }
  apply H, andb_prop in Hin as [H1 H2]. split; [by apply Z.eqb_eq|]. apply List.Forall_forall. intros b Hb.
  rewrite forallb_forall in H2. specialize (H2 b Hb). apply orb_prop in H2 as [E|E]; apply Z.eqb_eq in E; [by left|by right].
Qed.

Lemma bits_of (s : bytes) : Forall is_u8 s ->
  val2 (flat_map octet_bits s) = le_val s /\ Forall is_bit (flat_map octet_bits s) /\
  length (flat_map octet_bits s) = (8 * length s)%nat.
Proof.
  induction 1 as [|x s Hx Hs (IH1 & IH2 & IH3)]; [done|]. cbn [flat_map le_val]. destruct (octet_bits_ok x Hx) as [Hv Hb].
  rewrite val2_app, Hv, IH1, Forall_app, length_app, IH3. split_and!; [done|done|done|]. cbn [length map octet_bits]. lia.
Qed.

Lemma slide_bits a : length a = 32%nat ->
  map (fun i => Z.land 1 (Z.shiftr (byte_at a (i / 8)) (Z.of_nat (i mod 8)))) (seq 0 256) = flat_map octet_bits a.
Proof. intros Hl. do 32 (destruct a as [|? a]; [done|]). destruct a; [|done]. reflexivity. Qed.

(** Scalars below 2^253. *)
Lemma slide_ok a : length a = 32%nat -> Forall is_u8 a -> byte_at a 31 < 32 ->
  length (slide a) = 256%nat /\ val2 (slide a) = le_val a /\ forall j, recoded (digit (slide a) j).
Proof.
  intros Hl Ha H31. unfold slide. rewrite slide_bits by done. destruct (bits_of a Ha) as (Hv & Hb & Hlen). rewrite Hl in Hlen.
  assert (forall j, is_bit (digit (flat_map octet_bits a) j)) as Hbits.
  { intros j. unfold digit. rewrite nth_lookup. destruct (_ !! j) eqn:E; cbn; [|by left]. exact (Forall_lookup_1 _ _ _ _ Hb E). }
  assert (slide_inv (le_val a) 0 (flat_map octet_bits a)) as H0.
  { split; [done|done|lia|intros j _; apply Hbits|]. left. intros j Hj.
    rewrite (split_last a 31 Hl), flat_map_app. unfold digit.
    assert (length (flat_map octet_bits (take 31 a)) = 248%nat) as Hl31.
    { destruct (bits_of (take 31 a)) as (_ & _ & ->); [by apply Forall_take|]. rewrite length_take. lia. }
    rewrite app_nth2, Hl31 by lia. cbn [flat_map]. rewrite app_nil_r.
    pose proof (byte_at_ok a 31 Ha) as H8. unfold is_u8 in H8.
    assert (forallb (fun x => forallb (fun k => nth k (octet_bits x) 0 =? 0) [5; 6; 7]%nat) (map Z.of_nat (seq 0 32)) = true)
      as Hc by (vm_compute; reflexivity).
    rewrite forallb_forall in Hc. specialize (Hc (byte_at a 31)).
    rewrite forallb_forall in Hc.
    destruct (Nat.lt_ge_cases (j - 248) 8) as [Hlt|Hge]; [|by rewrite nth_overflow].
    apply Z.eqb_eq, Hc; [|cbn; lia]. apply in_map_iff. exists (Z.to_nat (byte_at a 31)). split; [lia|apply in_seq; lia]. }
  assert (forall n, (n <= 256)%nat ->
    slide_inv (le_val a) n (fold_left slide_step (seq 0 n) (flat_map octet_bits a))) as Hn.
  { induction n as [|n IH]; intros Hn; [done|]. rewrite seq_S, fold_left_app. cbn [fold_left Nat.add]. apply slide_step_ok, IH. lia. }
  destruct (Hn 256%nat) as [Hl' Hv' Hd' _ _]; [done|]. split_and!; [done|done|]. intros j.
  destruct (Nat.lt_ge_cases j 256) as [Hj|Hj]; [by apply Hd'|]. left. unfold digit. apply nth_overflow. lia.
Qed.

(** ** a A + b B *)

Lemma cached_multiples_ok n A2 c A k : rep_p3 A2 (zmul 2 A) -> rep_ge_cached c (zmul k A) ->
  exists l, cached_multiples n A2 c = Some l /\ length l = S n /\
    forall j c', l !! j = Some c' -> rep_ge_cached c' (zmul (k + 2 * Z.of_nat j) A).
Proof.
  intros HA2. revert c k. induction n as [|n IH]; intros c k Hc; cbn [cached_multiples].
  { exists [c]. split_and!; [done|done|]. intros [|j] c' Hj; cbn in Hj; [|done]. inversion Hj; subst. by rewrite Z.add_0_r. }
  destruct (ge_add_ok _ _ _ _ HA2 Hc) as (t & -> & Ht). destruct (ge_p1p1_to_p3_ok _ _ Ht) as (u & -> & Hu).
  destruct (ge_p3_to_cached_ok _ _ Hu) as (c1 & -> & Hc1). rewrite <- zmul_add in Hc1.
  destruct (IH _ _ Hc1) as (l & -> & Hl & Hj). exists (c :: l). split_and!; [done|cbn; lia|].
  intros [|j] c' Hc'; cbn in Hc'; [inversion Hc'; subst; by rewrite Z.add_0_r|].
  specialize (Hj j c' Hc'). by replace (k + 2 * Z.of_nat (S j)) with (2 + k + 2 * Z.of_nat j) by lia.
Qed.

(** The digit of a table of odd multiples. *)
Lemma odd_half x : Z.odd x = true -> 0 < x <= 15 -> 2 * Z.of_nat (Z.to_nat (x / 2)) + 1 = x /\ (Z.to_nat (x / 2) < 8)%nat.
Proof.
  intros Ho Hx. rewrite Z2Nat.id by (apply Z.div_pos; lia). rewrite Zodd_mod in Ho. apply Z.eqb_eq in Ho.
  split; [rewrite (Z.div_mod x 2) at 2 by lia; lia|]. apply Nat2Z.inj_lt. rewrite Z2Nat.id by (apply Z.div_pos; lia).
  apply Z.div_lt_upper_bound; lia.
Qed.

Lemma recoded_opp x : recoded x -> x < 0 -> Z.odd (- x) = true /\ 0 < - x <= 15.
Proof. intros [->|[Ho Hx]] Hn; [lia|]. rewrite Z.odd_opp. split; [done|lia]. Qed.

Lemma recoded_pos x : recoded x -> 0 < x -> Z.odd x = true /\ 0 < x <= 15.
Proof. intros [->|[Ho Hx]] Hn; [lia|]. split; [done|lia]. Qed.

Lemma val2_drop (l : list Z) i : val2 (drop i l) = digit l i + 2 * val2 (drop (S i) l).
Proof.
  destruct (Nat.lt_ge_cases i (length l)) as [Hi|Hi].
  - destruct (lookup_lt_is_Some_2 l i Hi) as [x Hx]. rewrite (drop_S l x i Hx). unfold digit.
    by rewrite (nth_lookup_Some _ _ _ _ Hx).
  - unfold digit. rewrite !drop_ge, nth_overflow by lia. done.
Qed.

Lemma val2_zeros (l : list Z) i : (forall j, (i <= j)%nat -> digit l j = 0) -> val2 (drop i l) = 0.
Proof.
  remember (length l - i)%nat as k. revert i Heqk. induction k as [|k IH]; intros i Hk H.
  - by rewrite drop_ge by lia.
  - rewrite val2_drop, H, IH by (lia || (intros; apply H; lia)). done.
Qed.

Lemma slide_top_ok aslide bslide n : (forall j, (n <= j)%nat -> digit aslide j = 0 /\ digit bslide j = 0) ->
  let m := slide_top aslide bslide n in forall j, (m <= j)%nat -> digit aslide j = 0 /\ digit bslide j = 0.
Proof.
  induction n as [|n IH]; intros H; [done|]. cbn [slide_top].
  destruct ((digit aslide n =? 0) && (digit bslide n =? 0)) eqn:E; [|done].
  apply andb_prop in E as [E1 E2]. apply Z.eqb_eq in E1, E2. apply IH. intros j Hj.
  destruct (decide (j = n)) as [->|]; [done|]. apply H. lia.
Qed.

Section DoubleStep.
Context (A : point) (Ai : list ge_cached) (Hlen : length Ai = 8%nat).
Context (HAi : forall j c, Ai !! j = Some c -> rep_ge_cached c (zmul (1 + 2 * Z.of_nat j) A)).
Context (aslide bslide : list Z).
Context (Ha : forall j, recoded (digit aslide j)) (Hb : forall j, recoded (digit bslide j)).

Lemma pick_A x : Z.odd x = true -> 0 < x <= 15 -> exists c, Ai !! Z.to_nat (x / 2) = Some c /\ rep_ge_cached c (zmul x A).
Proof.
  intros Ho Hx. destruct (odd_half x Ho Hx) as [E Hi]. destruct (lookup_lt_is_Some_2 Ai (Z.to_nat (x / 2))) as [c Hc]; [lia|].
  exists c. split; [done|]. specialize (HAi _ _ Hc). by rewrite Z.add_comm, E in HAi.
Qed.
Lemma pick_B x : Z.odd x = true -> 0 < x <= 15 -> exists c, Bi !! Z.to_nat (x / 2) = Some c /\ rep_precomp c (zmul x base_point).
Proof.
  intros Ho Hx. destruct (odd_half x Ho Hx) as [E Hi]. destruct (lookup_lt_is_Some_2 Bi (Z.to_nat (x / 2))) as [c Hc]; [done|].
  exists c. split; [done|]. pose proof (Bi_ok _ _ Hc) as H. by rewrite E in H.
Qed.

Lemma double_step_ok r p i : rep_p2 r p ->
  exists r', double_step Ai aslide bslide r i = Some r' /\
    rep_p2 r' (padd (padd (zmul 2 p) (zmul (digit aslide i) A)) (zmul (digit bslide i) base_point)).
Proof.
  intros Hp. unfold double_step. destruct (double_p2 _ _ Hp) as (t & s & -> & _ & Ht & _).
  assert (exists t1, (if 0 <? digit aslide i then
      let! u := ge_p1p1_to_p3 t in let! c := Ai !! Z.to_nat (digit aslide i / 2) in ge_add u c
    else if digit aslide i <? 0 then
      let! u := ge_p1p1_to_p3 t in let! c := Ai !! Z.to_nat (- digit aslide i / 2) in ge_sub u c
    else Some t) = Some t1 /\ rep_p1p1 t1 (padd (zmul 2 p) (zmul (digit aslide i) A))) as (t1 & -> & Ht1).
  { destruct (ge_p1p1_to_p3_ok _ _ Ht) as (u & -> & Hu). specialize (Ha i).
    destruct (Z.ltb_spec 0 (digit aslide i)) as [H|H].
    - destruct (recoded_pos _ Ha H) as [Ho Hx]. destruct (pick_A _ Ho Hx) as (c & -> & Hc). by apply ge_add_ok.
    - destruct (Z.ltb_spec (digit aslide i) 0) as [H'|H'].
      + destruct (recoded_opp _ Ha H') as [Ho Hx]. destruct (pick_A _ Ho Hx) as (c & -> & Hc).
        destruct (ge_sub_ok _ _ _ _ Hu Hc) as (r1 & E & Hr1). exists r1. split; [done|].
        by rewrite <- zmul_opp, Z.opp_involutive in Hr1.
      + exists t. split; [done|]. assert (digit aslide i = 0) as -> by lia. by rewrite zmul_0, padd_0_r. }
  assert (exists t2, (if 0 <? digit bslide i then
      let! u := ge_p1p1_to_p3 t1 in let! c := Bi !! Z.to_nat (digit bslide i / 2) in ge_madd u c
    else if digit bslide i <? 0 then
      let! u := ge_p1p1_to_p3 t1 in let! c := Bi !! Z.to_nat (- digit bslide i / 2) in ge_msub u c
    else Some t1) = Some t2 /\
    rep_p1p1 t2 (padd (padd (zmul 2 p) (zmul (digit aslide i) A)) (zmul (digit bslide i) base_point))) as (t2 & -> & Ht2).
  { destruct (ge_p1p1_to_p3_ok _ _ Ht1) as (u & -> & Hu). specialize (Hb i).
    destruct (Z.ltb_spec 0 (digit bslide i)) as [H|H].
    - destruct (recoded_pos _ Hb H) as [Ho Hx]. destruct (pick_B _ Ho Hx) as (c & -> & Hc). by apply ge_madd_ok.
    - destruct (Z.ltb_spec (digit bslide i) 0) as [H'|H'].
      + destruct (recoded_opp _ Hb H') as [Ho Hx]. destruct (pick_B _ Ho Hx) as (c & -> & Hc).
        destruct (ge_msub_ok _ _ _ _ Hu Hc) as (r1 & E & Hr1). exists r1. split; [done|].
        by rewrite <- zmul_opp, Z.opp_involutive in Hr1.
      + exists t1. split; [done|]. assert (digit bslide i = 0) as -> by lia. by rewrite zmul_0, padd_0_r. }
  by apply ge_p1p1_to_p2_ok.
Qed.

(** The digits from [i] on. *)
Definition tail_point (i : nat) : point :=
  padd (zmul (val2 (drop i aslide)) A) (zmul (val2 (drop i bslide)) base_point).

Lemma tail_step i : tail_point i =
  padd (padd (zmul 2 (tail_point (S i))) (zmul (digit aslide i) A)) (zmul (digit bslide i) base_point).
Proof using A aslide bslide.
  unfold tail_point. rewrite (val2_drop aslide i), (val2_drop bslide i), !zmul_add, zmul_padd, <- !zmul_mul.
  set (a1 := zmul (digit aslide i) A). set (b1 := zmul (digit bslide i) base_point).
  set (a2 := zmul (2 * _) A). set (b2 := zmul (2 * _) base_point).
  rewrite (padd_comm a1 a2), !padd_assoc. f_equal. rewrite (padd_comm b1 b2), <- !padd_assoc. f_equal. apply padd_comm.
Qed.

Lemma double_loop n r : rep_p2 r (tail_point n) ->
  exists r', fold_checked (double_step Ai aslide bslide) r (rev (seq 0 n)) = Some r' /\ rep_p2 r' (tail_point 0).
Proof.
  revert r. induction n as [|n IH]; intros r Hr; [by exists r|]. rewrite seq_S, rev_app_distr. cbn [rev app fold_checked Nat.add].
  destruct (double_step_ok _ _ n Hr) as (r1 & -> & Hr1). rewrite <- tail_step in Hr1. by apply IH.
Qed.

Lemma tail_top i : (forall j, (i <= j)%nat -> digit aslide j = 0 /\ digit bslide j = 0) -> tail_point i = origin.
Proof using A aslide bslide.
  intros H. unfold tail_point. rewrite !val2_zeros by (intros; by apply H). by rewrite !zmul_0, padd_0_r.
Qed.
End DoubleStep.

Lemma double_scalarmult_ok a b A P : length a = 32%nat -> Forall is_u8 a -> byte_at a 31 < 32 ->
  length b = 32%nat -> Forall is_u8 b -> byte_at b 31 < 32 -> rep_p3 A P ->
  exists r, ge_double_scalarmult_vartime a A b = Some r /\
    rep_p2 r (padd (zmul (le_val a) P) (zmul (le_val b) base_point)).
Proof.
  intros Hla Ha H31a Hlb Hb H31b HA. destruct (slide_ok a Hla Ha H31a) as (Hsa & Hva & Hda).
  destruct (slide_ok b Hlb Hb H31b) as (Hsb & Hvb & Hdb). unfold ge_double_scalarmult_vartime. cbv zeta.
  destruct (ge_p3_to_cached_ok _ _ HA) as (c0 & -> & Hc0).
  destruct (ge_p3_dbl_ok _ _ HA) as (t & -> & Ht). destruct (ge_p1p1_to_p3_ok _ _ Ht) as (A2 & -> & HA2).
  rewrite <- (zmul_1 P), <- zmul_double in HA2. rewrite <- (zmul_1 P) in Hc0.
  destruct (cached_multiples_ok 7 A2 c0 P 1 HA2 Hc0) as (Ai & -> & Hl & HAi).
  destruct (double_loop P Ai Hl HAi (slide a) (slide b) Hda Hdb (slide_top (slide a) (slide b) 256) ge_p2_0) as (r & -> & Hr).
  - rewrite tail_top; [apply ge_p2_0_ok|]. apply slide_top_ok. intros j Hj.
    unfold digit. rewrite !nth_overflow by lia. done.
  - exists r. split; [done|]. unfold tail_point in Hr. rewrite !drop_0, Hva, Hvb in Hr. done.
Qed.
