(* ===== verification/PointEncoding.v ===== *)
(** The encoding of points as 32 octets: [ge_tobytes] writes y and the parity
    of x, and [ge_frombytes_negate_vartime] finds the negative of the point
    again, with a square root modulo p. *)
From stdpp Require Import base list.
From Stdlib Require Import ZArith Lia Ring Field Field_tac Zdivisibility Zmod.
From S2P Require Import Prelude MachineInt FieldElement FieldProofs FieldEncoding GroupElement Primality.
From S2P Require Import Edwards Coordinates Ed25519 GroupProofs.
#[local] Open Scope Z_scope.

(** ** Octets *)

Lemma le_val_inj a b : Forall is_u8 a -> Forall is_u8 b -> length a = length b -> le_val a = le_val b -> a = b.
Proof.
  intros Ha. revert b. induction Ha as [|x a Hx Ha IH]; intros [|y b] Hb Hl H; try done.
  apply Forall_cons in Hb as [Hy Hb]. cbn [le_val] in H. unfold is_u8 in *.
  assert (x = y /\ le_val a = le_val b) as [-> H'] by lia. f_equal. apply IH; [done|by injection Hl|done].
Qed.

Lemma fold_lor_0 (f : nat -> Z) l acc : fold_left (fun d i => Z.lor d (f i)) l acc = 0 <->
  acc = 0 /\ forall i, In i l -> f i = 0.
Proof.
  revert acc. induction l as [|i l IH]; intros acc; cbn [fold_left In].
  - split; [done|]. by intros [H _].
  - rewrite IH, Z.lor_eq_0_iff. split.
    + intros [[Ha Hi] H]. split; [done|]. intros j [<-|Hj]; auto.
    + intros [Ha H]. split; [split; auto|auto].
Qed.

Lemma lor_lxor_u8 a b : is_u8 a -> is_u8 b -> is_u8 (Z.lor a b) /\ is_u8 (Z.lxor a b).
Proof.
  unfold is_u8. intros Ha Hb.
  assert (forall z, (forall n, 8 <= n -> Z.testbit z n = false) -> 0 <= z < 256) as H.
  { intros z Hz. assert (z = z mod 2 ^ 8) as ->; [|apply Z.mod_pos_bound; done]. apply Z.bits_inj'. intros n Hn.
    destruct (Z.lt_ge_cases n 8) as [H8|H8]; [by rewrite Z.mod_pow2_bits_low|].
    rewrite Z.mod_pow2_bits_high by lia. by apply Hz. }
  assert (forall z n, 0 <= z < 256 -> 8 <= n -> Z.testbit z n = false) as Hb8.
  { intros z n Hz Hn. rewrite <- (Z.mod_small z (2 ^ 8)) by done. apply Z.mod_pow2_bits_high. lia. }
  split; apply H; intros n Hn; [rewrite Z.lor_spec|rewrite Z.lxor_spec]; by rewrite !Hb8.
Qed.

Lemma crypto_verify_32_ok x y : length x = 32%nat -> length y = 32%nat -> Forall is_u8 x -> Forall is_u8 y ->
  crypto_verify_32 x y = if decide (x = y) then 0 else -1.
Proof.
  intros Lx Ly Hx Hy. unfold crypto_verify_32. cbv zeta.
  set (f := fun i => Z.lxor (byte_at x i) (byte_at y i)).
  set (D := fold_left (fun d i => Z.lor d (Z.lxor (byte_at x i) (byte_at y i))) (seq 0 32) 0).
  assert (D = 0 <-> x = y) as HD.
  { change D with (fold_left (fun d i => Z.lor d (f i)) (seq 0 32) 0). rewrite fold_lor_0. split.
    - intros [_ H]. apply (nth_ext _ _ 0 0); [congruence|]. intros n Hn. apply Z.lxor_eq. apply H. apply in_seq. lia.
    - intros ->. split; [done|]. intros i _. apply Z.lxor_nilpotent. }
  assert (is_u8 D) as HR.
  { unfold D. assert (is_u8 0) as H0 by (split; lia). revert H0. generalize 0, (seq 0 32).
    intros a l. revert a. induction l as [|i l IH]; intros a Ha; cbn [fold_left]; [done|]. apply IH.
    apply lor_lxor_u8; [done|]. apply lor_lxor_u8; by apply byte_at_ok. }
  clearbody D. assert (Z.land 1 (Z.shiftr (u32 (D - 1)) 8) = Z.b2z (D =? 0)) as ->.
  { rewrite Z.land_comm. change 1 with (Z.ones 1) at 2. rewrite Z.land_ones, Z.shiftr_div_pow2 by lia.
    unfold is_u8 in HR. destruct (Z.eqb_spec D 0) as [->|Hn]; [done|]. unfold u32, UINT32_MOD.
    rewrite (Z.mod_small (D - 1)) by lia. rewrite Z.div_small by lia. done. }
  case_decide as E.
  - apply HD in E. by rewrite E.
  - destruct (Z.eqb_spec D 0) as [E'|_]; [by apply HD in E'|done].
Qed.

Lemma le_val_byte_31 s : length s = 32%nat -> le_val s = le_val (take 31 s) + 2 ^ 248 * byte_at s 31.
Proof.
  intros Hl. rewrite <- (take_drop 31 s) at 1. rewrite le_val_app, length_take, Hl. f_equal.
  do 32 (destruct s as [|? s]; [discriminate|]). destruct s; [|discriminate]. unfold byte_at. cbn [drop le_val nth].
  change (256 ^ Z.of_nat (31 `min` 32)) with (2 ^ 248). ring.
Qed.

Lemma le_val_take_31 s : length s = 32%nat -> Forall is_u8 s -> 0 <= le_val (take 31 s) < 2 ^ 248.
Proof. intros Hl Hs. pose proof (le_val_range _ (Forall_take _ 31 _ Hs)) as H. by rewrite length_take, Hl in H. Qed.

Lemma byte_31 s : length s = 32%nat -> Forall is_u8 s -> byte_at s 31 = le_val s / 2 ^ 248.
Proof.
  intros Hl Hs. pose proof (le_val_take_31 s Hl Hs) as Hr. pose proof (le_val_byte_31 s Hl) as E.
  rewrite E, Z.mul_comm, Z.div_add by done. by rewrite Z.div_small, Z.add_0_l.
Qed.

Lemma byte_0 s : Forall is_u8 s -> byte_at s 0 mod 2 = le_val s mod 2.
Proof.
  destruct 1 as [|x s Hx Hs]; [done|]. unfold byte_at. cbn [nth le_val].
  rewrite Z.add_comm. replace (256 * le_val s) with (128 * le_val s * 2) by ring. by rewrite Z.add_comm, Z_mod_plus_full.
Qed.

(** The last octet replaced. *)
Lemma last_octet s b : length s = 32%nat -> Forall is_u8 s -> is_u8 b ->
  length (take 31 s ++ [b]) = 32%nat /\ Forall is_u8 (take 31 s ++ [b]) /\
  le_val (take 31 s ++ [b]) = le_val (take 31 s) + 2 ^ 248 * b.
Proof.
  intros Hl Hs Hb. rewrite length_app, length_take, Hl. split; [done|]. split.
  - apply Forall_app. split; [by apply Forall_take|by apply Forall_singleton].
  - rewrite le_val_app, length_take, Hl. cbn [le_val]. change (256 ^ Z.of_nat (31 `min` 32)) with (2 ^ 248). ring.
Qed.

Lemma xor_sign_ok s b : length s = 32%nat -> Forall is_u8 s -> le_val s < 2 ^ 255 -> b = 0 \/ b = 1 ->
  length (xor_sign s b) = 32%nat /\ Forall is_u8 (xor_sign s b) /\ le_val (xor_sign s b) = le_val s + 2 ^ 255 * b.
Proof.
  intros Hl Hs Hr Hb. unfold xor_sign. pose proof (byte_at_ok s 31 Hs) as H31. pose proof (le_val_range s Hs) as H0.
  pose proof (byte_31 s Hl Hs) as E31.
  assert (byte_at s 31 < 128) as H128.
  { rewrite E31. apply Z.div_lt_upper_bound; [done|]. exact Hr. }
  assert (Z.lxor (byte_at s 31) (Z.shiftl b 7) = byte_at s 31 + 128 * b) as ->.
  { destruct Hb as [->| ->]; [by rewrite Z.shiftl_0_l, Z.lxor_0_r, Z.add_0_r|].
    change (Z.shiftl 1 7) with 128. rewrite Z.add_nocarry_lxor; [done|]. apply Z.bits_inj'. intros n Hn.
    rewrite Z.land_spec, Z.bits_0. destruct (Z.eq_dec n 7) as [->|Hn7].
    - change (128 * 1) with (2 ^ 7). rewrite Z.pow2_bits_true by done.
      unfold is_u8 in H31. rewrite <- (Z.mod_small (byte_at s 31) (2 ^ 7)) by (change (2 ^ 7) with 128; lia).
      by rewrite Z.mod_pow2_bits_high.
    - change (128 * 1) with (2 ^ 7). rewrite (Z.pow2_bits_false 7) by congruence. apply andb_false_r. }
  unfold u8. unfold is_u8 in *. rewrite Z.mod_small by lia.
  destruct (last_octet s (byte_at s 31 + 128 * b) Hl Hs) as (L & F' & V); [unfold is_u8; lia|].
  split; [done|]. split; [done|]. rewrite V, (le_val_byte_31 s Hl). compute_powers. ring.
Qed.

(** ** Encoding *)

Lemma tobytes_ok f x : loose f -> fv f = x -> exists s, fe_tobytes f = Some s /\
  length s = 32%nat /\ Forall is_u8 s /\ le_val s = Zmod.to_Z x.
Proof.
  intros Hf <-. destruct (fe_tobytes_ok f Hf) as (s & E & L & H & V). exists s. split_and!; [done..|].
  rewrite V. symmetry. apply Zmod.to_Z_of_Z.
Qed.

Lemma is_fe_loose n f x : n <= 2 -> is_fe n f x -> loose f.
Proof. intros Hn [H _]. eapply fe_bounded_weaken; [exact H|lia|lia]. Qed.

Lemma to_Z_range (x : F) : 0 <= Zmod.to_Z x < P25519.
Proof. by apply Zmod.to_Z_pos_bound. Qed.

(** The parity of the canonical representative. *)
Definition parity (x : F) : Z := Zmod.to_Z x mod 2.
Lemma parity_01 x : parity x = 0 \/ parity x = 1.
Proof. unfold parity. pose proof (Z.mod_pos_bound (Zmod.to_Z x) 2). lia. Qed.

Lemma isnegative_ok f x : loose f -> fv f = x -> fe_isnegative f = Some (parity x).
Proof.
  intros Hf Hx. unfold fe_isnegative. destruct (tobytes_ok f x Hf Hx) as (s & -> & L & H & V).
  change 1 with (Z.ones 1). rewrite Z.land_ones by done. change (2 ^ 1) with 2. rewrite byte_0 by done.
  unfold parity. by rewrite V.
Qed.

Lemma isnonzero_ok f x : loose f -> fv f = x -> fe_isnonzero f = Some (if decide (x = f0) then 0 else -1).
Proof.
  intros Hf Hx. unfold fe_isnonzero. destruct (tobytes_ok f x Hf Hx) as (s & -> & L & H & V). f_equal.
  rewrite crypto_verify_32_ok by (done || by repeat constructor).
  assert (s = replicate 32 0 <-> x = f0) as Hiff.
  { split.
    - intros ->. apply Zmod.to_Z_inj. rewrite <- V. symmetry. apply Zmod.to_Z_0.
    - intros ->. apply le_val_inj; [done|by repeat constructor|done|]. rewrite V. apply Zmod.to_Z_0. }
  repeat case_decide; tauto.
Qed.

(** The number a point is written as. *)
Definition encoding (p : point) : Z := Zmod.to_Z (p_y p) + 2 ^ 255 * parity (p_x p).

Lemma encoding_parts p q : encoding p = encoding q -> p_y p = p_y q /\ parity (p_x p) = parity (p_x q).
Proof.
  unfold encoding. intros H. pose proof (to_Z_range (p_y p)) as Hp. pose proof (to_Z_range (p_y q)) as Hq.
  pose proof (parity_01 (p_x p)) as Ep. pose proof (parity_01 (p_x q)) as Eq.
  enough (Zmod.to_Z (p_y p) = Zmod.to_Z (p_y q) /\ parity (p_x p) = parity (p_x q)) as [Hy Hx].
  { split; [by apply Zmod.to_Z_inj|done]. }
  revert H Hp Hq Ep Eq. generalize (Zmod.to_Z (p_y p)), (Zmod.to_Z (p_y q)), (parity (p_x p)), (parity (p_x q)).
  unfold P25519. compute_powers. lia.
Qed.

#[local] Open Scope curve_scope.

Lemma encode_ok X Y Zc x y z p : is_fe 1 X x -> is_fe 1 Y y -> is_fe 1 Zc z -> rep_projective x y z p ->
  exists s, ge_encode X Y Zc = Some s /\ length s = 32%nat /\ Forall is_u8 s /\ le_val s = encoding p.
Proof.
  intros HX HY HZ H. unfold ge_encode. do 3 fe_step.
  destruct (projective_affine _ _ _ _ H) as [Ex Ey]. rewrite Ex in H1. rewrite Ey in H2.
  destruct (tobytes_ok h1 _ (is_fe_loose 1 _ _ ltac:(lia) H2) (proj2 H2)) as (s & -> & L & F' & V).
  rewrite (isnegative_ok h0 _ (is_fe_loose 1 _ _ ltac:(lia) H1) (proj2 H1)).
  destruct (xor_sign_ok s (parity (p_x p))) as (L' & F'' & V'); [done|done| |apply parity_01|].
  { rewrite V. pose proof (to_Z_range (p_y p)) as Hr. revert Hr. generalize (Zmod.to_Z (p_y p)).
    unfold P25519. compute_powers. lia. }
  eexists. split; [reflexivity|]. split; [done|]. split; [done|]. rewrite V', V. reflexivity.
Qed.

Lemma ge_tobytes_ok h p : rep_p2 h p ->
  exists s, ge_tobytes h = Some s /\ length s = 32%nat /\ Forall is_u8 s /\ le_val s = encoding p.
Proof. intros (X & Y & Z & HX & HY & HZ & H). by eapply encode_ok. Qed.

Lemma ge_p3_tobytes_ok h p : rep_p3 h p ->
  exists s, ge_p3_tobytes h = Some s /\ length s = 32%nat /\ Forall is_u8 s /\ le_val s = encoding p.
Proof.
  intros (X & Y & Z & T & HX & HY & HZ & HT & H). eapply encode_ok; [done..|]. by eapply extended_projective.
Qed.

(** ** Decoding *)

(** Euler's criterion, on squares. *)
Lemma euler_square (z : F) : z <> 0 -> let e : F := Zmod.pow z ((P25519 - 1) / 2) in e = 1 \/ e = - (1).
Proof.
  intros Hz e. apply (square_roots e 1). change (Zmod.mul e e = fmul f1 f1). unfold e.
  assert ((P25519 - 1) / 2 + (P25519 - 1) / 2 = Z.pred P25519)%Z as E by (vm_compute; reflexivity).
  destruct half_pos as (Hh & _). revert Hh E. generalize ((P25519 - 1) / 2)%Z. intros k Hk E.
  rewrite <- Zmod.pow_add_r_nonneg, E by done.
  rewrite (Zmod.fermat_nz z Hz prime_P25519). symmetry. apply (mul_1 (E:=ed25519)).
Qed.

Lemma root_exponent_pos : (0 <= (P25519 - 5) / 8)%Z.
Proof. vm_compute. congruence. Qed.

(** The power that [fe_pow22523] computes. *)
Definition root_power (w : F) : F := Zmod.pow w ((P25519 - 5) / 8).

Lemma root_power_ok (z : F) : let w := z * z in w * (root_power w * root_power w) = Zmod.pow z ((P25519 - 1) / 2).
Proof.
  intros w. unfold root_power.
  assert ((P25519 - 1) / 2 = 2 + (2 * ((P25519 - 5) / 8) + 2 * ((P25519 - 5) / 8)))%Z as -> by (vm_compute; reflexivity).
  pose proof root_exponent_pos as Hk. revert Hk.
  generalize ((P25519 - 5) / 8)%Z. intros k Hk. assert (w = Zmod.pow z 2) as -> by (symmetry; apply Zmod.pow_2_r).
  change (Zmod.mul (Zmod.pow z 2) (Zmod.mul (Zmod.pow (Zmod.pow z 2) k) (Zmod.pow (Zmod.pow z 2) k)) =
    Zmod.pow z (2 + (2 * k + 2 * k))).
  by rewrite <- Zmod.pow_mul_r_nonneg, <- !Zmod.pow_add_r_nonneg by lia.
Qed.

(** If u/v has a square root, the candidate is one, up to a factor i. *)
Lemma candidate_ok x0 u v : v <> 0 -> x0 * x0 * v = u ->
  let c := root_power (v * v * v * (v * v * v) * v * u) in let x := c * (v * v * v) * u in
  x * x * v = u \/ x * x * v = - u.
Proof.
  intros Hv H c x. unfold x. rewrite root_candidate. destruct (decide (u = 0)) as [->|Hu].
  { left. rewrite (mul_comm 0). apply mul_0. }
  unfold c. rewrite (root_base _ _ _ H), root_power_ok.
  destruct (euler_square (v * v * (v * v) * x0)) as [->| ->].
  - intros H0. destruct (mul_zero _ _ H0) as [H1|H1]; [by revert H1; repeat apply mul_nonzero|].
    apply Hu. rewrite <- H, H1. rewrite mul_0, mul_comm. apply mul_0.
  - left. apply mul_1.
  - right. apply mul_m1.
Qed.

Lemma pow22523_ok m f x : (m <= 3)%Z -> is_fe m f x -> exists h, fe_pow22523 f = Some h /\ is_fe 1 h (root_power x).
Proof.
  intros Hm [Hf <-]. destruct (fe_pow22523_ok f) as (h & E & Ht & Hv); [by apply (bnd_wide m)|].
  exists h. split; [done|]. split; [by apply bnd_tight|]. rewrite (fv_eq _ _ Hv).
  apply fz_pow, root_exponent_pos.
Qed.

(** The sum and the difference that are tested for zero stay in the range of
    [fe_tobytes], since 1 has small limbs. *)
Lemma sub_1_ok f x : is_fe 1 f x -> exists h, fe_sub f fe_1 = Some h /\ is_fe 2 h (x - 1) /\
  fe_bounded 33889977 16944988 h.
Proof.
  intros [Hf <-]. destruct (fe_sub_ok f fe_1 _ _ 1 0 Hf) as (h & E & Hb & Hv); [split; repeat split; done|lia..|].
  exists h. split; [done|]. split; [|eapply fe_bounded_weaken; [exact Hb|lia|lia]].
  split; [eapply fe_bounded_weaken; [exact Hb|lia|lia]|]. unfold fv. rewrite Hv, fz_sub. f_equal.
Qed.

Lemma check_sub_ok f g x y : is_fe 1 f x -> fv g = y -> fe_bounded 33889977 16944988 g ->
  exists h, fe_sub f g = Some h /\ loose h /\ fv h = x - y.
Proof.
  intros [Hf <-] <- Hg. destruct (fe_sub_ok f g _ _ _ _ Hf Hg) as (h & E & Hb & Hv); [lia..|].
  exists h. split; [done|]. split; [eapply fe_bounded_weaken; [exact Hb|lia|lia]|]. unfold fv. rewrite Hv. apply fz_sub.
Qed.
Lemma check_add_ok f g x y : is_fe 1 f x -> fv g = y -> fe_bounded 33889977 16944988 g ->
  exists h, fe_add f g = Some h /\ loose h /\ fv h = x + y.
Proof.
  intros [Hf <-] <- Hg. destruct (fe_add_ok f g _ _ _ _ Hf Hg) as (h & E & Hb & Hv); [lia..|].
  exists h. split; [done|]. split; [eapply fe_bounded_weaken; [exact Hb|lia|lia]|]. unfold fv. rewrite Hv. apply fz_add.
Qed.

Lemma d_ok : is_fe 1 d curve_d.
Proof. split; [split; repeat split; done|reflexivity]. Qed.
Lemma sqrtm1_ok : is_fe 1 sqrtm1 sqrt_minus_1.
Proof. split; [split; repeat split; done|reflexivity]. Qed.

(** The root the two tests settle on, in front of the rest [k]. *)
Definition root_found (x u v : F) (r : option fe) : Prop :=
  match r with
  | Some h => exists x', is_fe 1 h x' /\ x' * x' * v = u
  | None => x * x * v <> u /\ x * x * v <> - u
  end.

Lemma choose_root {B} hX u hu v x vxx (k : option fe -> option B) (Q : B -> Prop) :
  is_fe 1 hX x -> fv hu = u -> fe_bounded 33889977 16944988 hu -> is_fe 1 vxx (x * x * v) ->
  (forall r, root_found x u v r -> exists o, k r = Some o /\ Q o) ->
  exists o, (let! check := fe_sub vxx hu in
    let! nz := fe_isnonzero check in
    let! root :=
      if (nz =? 0)%Z then Some (Some hX)
      else
        let! check := fe_add vxx hu in
        let! nz := fe_isnonzero check in
        if negb (nz =? 0)%Z then Some None
        else let! hX := fe_mul hX sqrtm1 in Some (Some hX) in
    k root)%checked = Some o /\ Q o.
Proof.
  intros HX Hu Hb Hvxx Hk. destruct (check_sub_ok _ _ _ _ Hvxx Hu Hb) as (c1 & -> & L1 & V1).
  rewrite (isnonzero_ok _ _ L1 V1). case_decide as E1; cbn [Z.eqb].
  { apply Hk. exists x. split; [done|]. by apply sub_zero. }
  destruct (check_add_ok _ _ _ _ Hvxx Hu Hb) as (c2 & -> & L2 & V2).
  rewrite (isnonzero_ok _ _ L2 V2). case_decide as E2; cbn [Z.eqb negb].
  - destruct (mul_ok 1 1 hX sqrtm1 _ _ ltac:(lia) ltac:(lia) HX sqrtm1_ok) as (h & -> & H).
    apply Hk. exists (x * sqrt_minus_1). split; [done|]. apply root_times_i. by apply add_zero.
  - apply Hk. split; intros H.
    + apply E1. rewrite H. apply sub_self.
    + apply E2. rewrite H. apply add_opp_self.
Qed.

(** The ordinate in an encoding: the top bit does not belong to it. *)
Definition y_of (s : bytes) : F := fz (le_val s mod 2 ^ 255)%Z.

Definition decoded (s : bytes) (r : Z * option ge_p3) : Prop :=
  match snd r with
  | Some h => fst r = 0%Z /\ exists p, rep_p3 h (popp p) /\ p_y p = y_of s /\
      (parity (p_x p) = (byte_at s 31 / 128)%Z \/ p_x p = 0)
  | None => fst r = (-1)%Z /\ forall p, p_y p <> y_of s
  end.

Lemma parity_opp (x : F) : x <> 0 -> parity (- x) = (1 - parity x)%Z.
Proof.
  intros Hx. unfold parity. assert (Zmod.to_Z (fopp x) = P25519 - Zmod.to_Z x)%Z as ->.
  { assert (Zmod.to_Z x <> 0%Z) as H0. { intros H. apply Hx. apply Zmod.to_Z_inj. rewrite H. symmetry. apply Zmod.to_Z_0. }
    change (fopp x) with (Zmod.opp x). pose proof (to_Z_range x) as Hr. rewrite Zmod.unsigned_opp.
    revert Hr H0. generalize (Zmod.to_Z x). intros z Hr H0. symmetry. apply (Z.mod_unique_pos _ _ (-1)); lia. }
  pose proof (to_Z_range x) as Hr. revert Hr. generalize (Zmod.to_Z x). unfold P25519. intros z Hr. div_lia.
Qed.

(** The sign: the root whose parity is not the one asked for. *)
Lemma choose_sign hX x b : is_fe 1 hX x ->
  exists h x', (if (parity x =? b)%Z then fe_neg hX else Some hX) = Some h /\ is_fe 1 h x' /\
    (x' = x \/ x' = - x) /\ (b = 0%Z \/ b = 1%Z -> parity (- x') = b \/ x' = 0).
Proof.
  intros HX. pose proof (parity_01 x) as Hp. destruct (Z.eqb_spec (parity x) b) as [E|E].
  - destruct (neg_ok 1 hX _ ltac:(lia) HX) as (h & -> & H). exists h, (- x). split; [done|]. split; [done|].
    split; [by right|]. left. by rewrite opp_opp.
  - exists hX, x. split; [done|]. split; [done|]. split; [by left|]. intros Hb.
    destruct (decide (x = 0)) as [|H0]; [by right|left]. rewrite parity_opp by done. lia.
Qed.

Lemma ge_frombytes_ok s : length s = 32%nat -> Forall is_u8 s ->
  exists r, ge_frombytes_negate_vartime s = Some r /\ decoded s r.
Proof.
  intros Hl Hs. unfold ge_frombytes_negate_vartime.
  destruct (fe_frombytes_ok s Hl Hs) as (hY & E & Ht & Hv). refine (chk_step _ _ _ _ E _). clear E.
  assert (is_fe 1 hY (y_of s)) as HY by (split; [by apply bnd_tight|by apply fz_eq]). clear Ht Hv.
  pose proof d_ok as Hd. pose proof is_fe_1 as H1. do 2 fe_step.
  destruct (sub_1_ok _ _ H) as (hu & E & Hu & Bu). refine (chk_step _ _ _ _ E _). clear E. cbv beta zeta.
  fe_step. rewrite (mul_comm (_ * _)) in H2.
  pose proof (denominator_nonzero (y_of s)) as Hn. pose proof (fun x => on_curve_quotient x (y_of s)) as Hc.
  set (v := curve_d * (y_of s * y_of s) + 1) in *. set (u := y_of s * y_of s - 1) in *. do 5 fe_step.
  destruct (pow22523_ok 1 _ _ ltac:(lia) H7) as (hc & E & Hpow). refine (chk_step _ _ _ _ E _). clear E. cbv beta zeta.
  do 4 fe_step. eapply choose_root; [exact H9|exact (proj2 Hu)|exact Bu|exact H11|]. intros r Hr. cbv beta.
  destruct r as [hx|].
  - destruct Hr as (x' & Hx' & E'). rewrite (isnegative_ok hx _ (is_fe_loose 1 _ _ ltac:(lia) Hx') (proj2 Hx')).
    rewrite Z.shiftr_div_pow2 by done. change (2 ^ 7)%Z with 128%Z.
    destruct (choose_sign hx x' (byte_at s 31 / 128) Hx') as (hx2 & x2 & -> & Hx2 & Hsq & Hpar). fe_step.
    eexists. split; [reflexivity|]. split; [done|].
    assert (x2 * x2 * v = u) as E2 by (destruct Hsq as [->| ->]; [done|by apply opp_square]).
    assert (on_curve (- x2) (y_of s)) as Hon by (apply Hc; by apply opp_square).
    exists (make_point _ _ Hon). split_and!; [|done|].
    + exists x2, (y_of s), 1, (x2 * y_of s). split_and!; [done..|]. apply (extended_make _ _ Hon).
    + destruct Hpar as [Hpar|Hpar]; [|by left|right].
      * pose proof (byte_at_ok s 31 Hs) as Hb. unfold is_u8 in Hb. div_lia.
      * change (- x2 = 0). rewrite Hpar. apply opp_0.
  - eexists. split; [reflexivity|]. split; [done|]. intros p Hp. destruct Hr as [N1 N2].
    assert (on_curve (p_x p) (y_of s)) as Hx by (rewrite <- Hp; apply point_on_curve). apply Hc in Hx.
    destruct (candidate_ok (p_x p) u v Hn Hx) as [H'|H']; [by apply N1|by apply N2].
Qed.

(** An ordinate and a parity determine the point. *)
Lemma same_point p q : p_y p = p_y q -> parity (p_x p) = parity (p_x q) \/ p_x p = 0 \/ p_x q = 0 -> p = q.
Proof.
  intros Hy Hx. apply point_eq; [|done]. destruct (same_ordinate p q Hy) as [|E]; [done|].
  destruct (decide (p_x q = 0)) as [E0|E0].
  - rewrite E, E0. apply opp_0.
  - exfalso. destruct Hx as [Hx|[Hx|Hx]]; [|apply E0, opp_zero; congruence|done].
    pose proof (parity_01 (p_x q)). rewrite E, parity_opp in Hx by done. lia.
Qed.

Lemma encoding_inj p q : encoding p = encoding q -> p = q.
Proof. intros H. destruct (encoding_parts p q H) as [Hy Hx]. apply same_point; [done|by left]. Qed.

Lemma encoding_top s p : length s = 32%nat -> Forall is_u8 s -> le_val s = encoding p ->
  y_of s = p_y p /\ (byte_at s 31 / 128)%Z = parity (p_x p).
Proof.
  intros Hl Hs E. pose proof (byte_31 s Hl Hs) as E31. rewrite E in E31. unfold y_of. rewrite E. unfold encoding in *.
  pose proof (to_Z_range (p_y p)) as Hr. pose proof (parity_01 (p_x p)) as Hp.
  assert ((Zmod.to_Z (p_y p) + 2 ^ 255 * parity (p_x p)) mod 2 ^ 255 = Zmod.to_Z (p_y p))%Z as ->.
  { symmetry. revert Hr. generalize (Zmod.to_Z (p_y p)), (parity (p_x p)). intros z b Hr.
    apply (Z.mod_unique_pos _ _ b); [|ring]. revert Hr. unfold P25519. compute_powers. lia. }
  split; [apply fz_to_Z|]. rewrite E31, Z.div_div by done. revert Hr. generalize (Zmod.to_Z (p_y p)). intros z Hr.
  symmetry. apply (Z.div_unique_pos _ _ _ z); [|compute_powers; ring]. revert Hr. unfold P25519. compute_powers. lia.
Qed.

(** Decoding what was encoded gives the negative of the point. *)
Lemma ge_frombytes_encoding s p : length s = 32%nat -> Forall is_u8 s -> le_val s = encoding p ->
  exists h, ge_frombytes_negate_vartime s = Some (0%Z, Some h) /\ rep_p3 h (popp p).
Proof.
  intros Hl Hs E. destruct (encoding_top s p Hl Hs E) as [Hy Hp].
  destruct (ge_frombytes_ok s Hl Hs) as ([code [h|]] & -> & Hd).
  - destruct Hd as [Hc (q & Hq & Hqy & Hqx)]. cbn in Hc. subst code. exists h. split; [done|].
    assert (q = p) as <-; [|done]. apply same_point; [congruence|]. destruct Hqx as [H|H]; [left; congruence|by right; left].
  - destruct Hd as [_ Hd]. by destruct (Hd p).
Qed.
