(* ===== verification/SignatureProofs.v ===== *)
(** Signatures with Curve25519 keys: [curve25519_sign] computes the signature
    of the specification [XEd], [curve25519_verify] accepts exactly what the
    specification accepts, and it accepts what was signed. *)
From stdpp Require Import base list.
From Stdlib Require Import ZArith Lia Zmod.
From S2P Require Import Prelude MachineInt FieldElement FieldProofs FieldEncoding Scalar ScalarProofs Sha512.
From S2P Require Import GroupElement ScalarMult Signatures Edwards Coordinates Ed25519 GroupProofs TableProofs.
From S2P Require Import ScalarMultProofs SlideProofs PointEncoding.
#[local] Open Scope Z_scope.

(** ** Buffers *)

Lemma length_put buf off data : (off + length data <= length buf)%nat -> length (put buf off data) = length buf.
Proof. intros H. unfold put. rewrite !length_app, length_take, length_drop. lia. Qed.

(** Writing over a part of a concatenation. *)
Lemma put_mid a b c off b' : off = length a -> length b' = length b -> put (a ++ b ++ c) off b' = a ++ b' ++ c.
Proof.
  intros -> Hl. unfold put. rewrite take_app_length. f_equal. f_equal.
  rewrite Hl, drop_app_ge by lia. replace (length a + length b - length a)%nat with (length b) by lia. by rewrite drop_app_length.
Qed.
Lemma put_first b c b' : length b' = length b -> put (b ++ c) 0 b' = b' ++ c.
Proof. intros H. apply (put_mid [] b c 0 b'); done. Qed.
Lemma put_last a b off b' : off = length a -> length b' = length b -> put (a ++ b) off b' = a ++ b'.
Proof. intros H H'. pose proof (put_mid a b [] off b' H H') as E. by rewrite !app_nil_r in E. Qed.

Lemma set_octet_31 f s : length s = 32%nat -> set_octet 31 f s = take 31 s ++ [u8 (f (byte_at s 31))].
Proof. intros H. unfold set_octet, put. cbn [length Nat.add]. by rewrite drop_ge by lia. Qed.

Lemma byte_at_app a b n i : length a = n -> byte_at (a ++ b) (n + i) = byte_at b i.
Proof. intros <-. unfold byte_at. rewrite app_nth2 by lia. f_equal. lia. Qed.

(** ** Little-endian octets *)

Fixpoint le_octets (n : nat) (v : Z) : bytes :=
  match n with
  | O => []
  | S n' => v mod 256 :: le_octets n' (v / 256)
  end.

Lemma le_octets_shape n v : length (le_octets n v) = n /\ Forall is_u8 (le_octets n v).
Proof.
  revert v. induction n as [|n IH]; intros v; [done|]. cbn [le_octets length]. destruct (IH (v / 256)) as [-> H].
  split; [done|]. constructor; [apply u8_ok|done].
Qed.

Lemma le_octets_val s : Forall is_u8 s -> le_octets (length s) (le_val s) = s.
Proof.
  induction 1 as [|x s Hx Hs IH]; [done|]. cbn [length le_octets le_val]. unfold is_u8 in Hx.
  rewrite (Z.mul_comm 256), Z_mod_plus_full, Z.div_add, Z.mod_small, Z.div_small by lia. by rewrite Z.add_0_l, IH.
Qed.

Lemma le_octets_of s n v : length s = n -> Forall is_u8 s -> le_val s = v -> s = le_octets n v.
Proof. intros <- H <-. symmetry. by apply le_octets_val. Qed.

Lemma le_val_octets_32 v : 0 <= v < 2 ^ 256 -> le_val (le_octets 32 v) = v.
Proof.
  assert (forall n v, 0 <= v < 256 ^ Z.of_nat n -> le_val (le_octets n v) = v) as H.
  { clear. induction n as [|n IH]; intros v Hv; [cbn in *; lia|]. rewrite Nat2Z.inj_succ, Z.pow_succ_r in Hv by lia.
    cbn [le_octets le_val]. rewrite IH; [div_lia|]. split; [div_lia|]. apply Z.div_lt_upper_bound; lia. }
  apply (H 32%nat).
Qed.

(** ** Specification

    XEd25519: Ed25519 whose keys are Curve25519 keys.  The public key of the
    Edwards curve is the multiple of the base point by the private key, and
    the sign of its abscissa travels in the top bit of the signature. *)
Module XEd.
Definition encode (p : point) : bytes := le_octets 32 (encoding p).
Definition hash_mod (m : bytes) : Z := le_val (Fips.sha512 m) mod L25519.
Definition prefix : bytes := 254 :: replicate 31 255.

Definition public (k : bytes) : point := zmul (le_val k) base_point.

Definition sign (k m z : bytes) : bytes :=
  let A := public k in
  let r := hash_mod (prefix ++ k ++ m ++ z) in
  let R := encode (zmul r base_point) in
  let h := hash_mod (R ++ encode A ++ m) in
  R ++ le_octets 32 ((h * le_val k + r) mod L25519 + 2 ^ 255 * parity (p_x A)).

(** The ordinate of the key and the sign in the signature give the point [A];
    h and S must satisfy R = S B - h A. *)
Definition verifies (sig pub m : bytes) : Prop :=
  let R := take 32 sig in
  let S := le_val (drop 32 sig) mod 2 ^ 255 in
  let sign := byte_at sig 63 / 128 in
  let y := edwards_y (fz (le_val pub mod 2 ^ 255)) in
  let h := hash_mod (R ++ le_octets 32 (Zmod.to_Z y + 2 ^ 255 * sign) ++ m) in
  S < 2 ^ 253 /\ exists A, p_y A = y /\ (parity (p_x A) = sign \/ p_x A = f0) /\
    R = encode (padd (zmul S base_point) (popp (zmul h A))).
End XEd.

(** ** Scalars *)

Lemma L25519_range : 0 < L25519 < 2 ^ 253.
Proof. by vm_compute. Qed.

Lemma byte_31_small s : length s = 32%nat -> Forall is_u8 s -> le_val s < 2 ^ 253 -> byte_at s 31 < 32.
Proof. intros Hl Hs H. rewrite byte_31 by done. by apply Z.div_lt_upper_bound. Qed.

Lemma hash_ok m : Forall is_u8 m -> blen m < 2 ^ 64 ->
  exists r, sc_reduce (crypto_hash_sha512 m) = Some r /\ length r = 32%nat /\ Forall is_u8 r /\
    le_val r = XEd.hash_mod m /\ byte_at r 31 < 32.
Proof.
  intros Hm Hl. destruct (sha512_shape m) as [L H]. destruct (sc_reduce_ok _ L H) as (r & E & Lr & Hr & V).
  exists r. rewrite sha512_ok in V by done. split_and!; [done..|].
  apply byte_31_small; [done..|]. rewrite V. pose proof (Z.mod_pos_bound (le_val (Fips.sha512 m)) L25519 ltac:(done)) as Hb.
  destruct L25519_range as [_ H2]. revert Hb H2. generalize L25519, (2 ^ 253). lia.
Qed.

(** ** Signing *)

Lemma take_app_eq {A} (a b : list A) n : length a = n -> take n (a ++ b) = a.
Proof. intros <-. apply take_app_length. Qed.
Lemma drop_app_eq {A} (a b : list A) n : length a = n -> drop n (a ++ b) = b.
Proof. intros <-. apply drop_app_length. Qed.

(** What is written into the buffer before the nonce is computed. *)
Lemma sign_buffer m sk random n : length m = n -> length sk = 32%nat -> length random = 64%nat ->
  put (put (put (put (replicate (n + 128) 0) 64 m) 32 sk) 0 (254 :: replicate 31 255)) (n + 64) random =
  XEd.prefix ++ sk ++ m ++ random.
Proof.
  intros Hm Hs Hr. replace (n + 128)%nat with (32 + (32 + (n + 64)))%nat by lia. rewrite !replicate_add, !app_assoc.
  rewrite <- (app_assoc _ (replicate n 0)), (put_mid _ _ _ 64 m) by (rewrite ?length_app, ?length_replicate; lia).
  rewrite <- !app_assoc, (put_mid _ _ _ 32 sk) by (rewrite ?length_replicate; lia).
  rewrite put_first by done. rewrite !app_assoc, put_last; [by rewrite <- !app_assoc|..];
    rewrite ?length_app, ?length_replicate; cbn [length]; rewrite ?length_replicate; lia.
Qed.

Lemma crypto_sign_modified_ok m sk pk random : Forall is_u8 m -> blen m + 128 < 2 ^ 64 ->
  length sk = 32%nat -> Forall is_u8 sk -> length pk = 32%nat -> Forall is_u8 pk ->
  length random = 64%nat -> Forall is_u8 random ->
  let r := XEd.hash_mod (XEd.prefix ++ sk ++ m ++ random) in
  let R := XEd.encode (zmul r base_point) in
  let h := XEd.hash_mod (R ++ pk ++ m) in
  crypto_sign_modified (replicate (length m + 128) 0) m sk pk random =
  Some (R ++ le_octets 32 ((h * le_val sk + r) mod L25519) ++ m ++ random).
Proof.
  intros Hm Hn Ls Hs Lp Hp Lr Hr r R h. unfold crypto_sign_modified. cbv zeta.
  rewrite !(take_ge sk), !(take_ge random), !(take_ge pk) by lia. rewrite sign_buffer by done.
  assert (length XEd.prefix = 32%nat /\ Forall is_u8 XEd.prefix) as [Lx Hx].
  { split; [done|]. unfold XEd.prefix. constructor; [split; lia|]. apply Forall_replicate. split; lia. }
  assert (length (XEd.prefix ++ sk ++ m ++ random) = length m + 128)%nat as Lall.
  { rewrite !length_app, Lx, Ls, Lr. lia. }
  rewrite (take_ge (XEd.prefix ++ _)) by lia.
  destruct (hash_ok (XEd.prefix ++ sk ++ m ++ random)) as (nonce & -> & Ln & Hnn & Vn & Bn).
  { by rewrite !Forall_app. }
  { unfold blen in *. rewrite Lall. lia. }
  destruct (scalarmult_base_ok nonce Ln Hnn ltac:(lia)) as (hR & -> & HR).
  destruct (ge_p3_tobytes_ok _ _ HR) as (Rb & -> & LR & HRb & VR).
  assert (Rb = R) as ->. { unfold R, r, XEd.encode. rewrite <- Vn. by apply le_octets_of. }
  rewrite (put_mid XEd.prefix sk _ 32 pk) by (done || congruence). rewrite put_first by congruence.
  rewrite !app_assoc, <- app_assoc, <- !app_assoc, (app_assoc pk), (app_assoc R).
  rewrite (take_app_eq (R ++ pk ++ m) random) by (rewrite !length_app; lia).
  destruct (hash_ok (R ++ pk ++ m)) as (hram & -> & Lh & Hh & Vh & Bh).
  { by rewrite !Forall_app. }
  { unfold blen in *. rewrite !length_app. lia. }
  destruct (sc_muladd_ok hram sk nonce Lh Hh Ls Hs Ln Hnn) as (S & -> & LS & HS & VS). f_equal.
  rewrite <- app_assoc, <- app_assoc, (put_mid R pk _ 32 S) by congruence.
  do 2 f_equal. unfold h, r. rewrite <- Vh, <- Vn. by apply le_octets_of.
Qed.

Lemma land_128 x : is_u8 x -> Z.land x 128 = 128 * (x / 128).
Proof.
  unfold is_u8. intros H. apply Z.bits_inj'. intros n Hn. rewrite Z.land_spec. change 128 with (2 ^ 7).
  rewrite (Z.mul_comm (2 ^ 7)), <- Z.shiftl_mul_pow2, <- Z.shiftr_div_pow2 by lia.
  destruct (Z.lt_ge_cases n 7) as [Hl|Hl].
  - rewrite Z.shiftl_spec_low by done. rewrite Z.pow2_bits_false by lia. apply andb_false_r.
  - rewrite Z.shiftl_spec, Z.shiftr_spec by lia. replace (n - 7 + 7) with n by lia.
    destruct (Z.eq_dec n 7) as [->|Hne]; [by rewrite Z.pow2_bits_true, andb_true_r by lia|].
    rewrite <- (Z.mod_small x (2 ^ 8)) by done. by rewrite Z.mod_pow2_bits_high by lia.
Qed.

Lemma land_127 x : Z.land x 127 = x mod 128.
Proof. change 127 with (Z.ones 7). by rewrite Z.land_ones by lia. Qed.

Lemma lor_high x b : 0 <= x < 128 -> b = 0 \/ b = 1 -> Z.lor x (128 * b) = x + 128 * b.
Proof.
  intros Hx Hb. replace (128 * b) with (Z.shiftl b 7) by (rewrite Z.shiftl_mul_pow2 by lia; lia).
  rewrite lor_shiftl by (change (2 ^ 7) with 128; lia). rewrite Z.shiftl_mul_pow2 by lia. lia.
Qed.

(** Clear the top bit of the last octet, then set it to [b]. *)
Lemma set_sign s b : length s = 32%nat -> Forall is_u8 s -> b = 0 \/ b = 1 ->
  let s' := set_octet 31 (fun x => Z.lor x (128 * b)) (set_octet 31 (fun x => Z.land x 127) s) in
  length s' = 32%nat /\ Forall is_u8 s' /\ le_val s' = le_val s mod 2 ^ 255 + 2 ^ 255 * b.
Proof.
  intros Hl Hs Hb. cbv zeta. pose proof (byte_at_ok s 31 Hs) as H31. unfold is_u8 in H31.
  rewrite (set_octet_31 _ s Hl), land_127. unfold u8. rewrite (Z.mod_small (_ mod 128)) by div_lia.
  destruct (last_octet s (byte_at s 31 mod 128) Hl Hs) as (L1 & H1 & V1); [unfold is_u8; div_lia|].
  rewrite set_octet_31 by done.
  assert (byte_at (take 31 s ++ [byte_at s 31 mod 128]) 31 = byte_at s 31 mod 128) as ->.
  { unfold byte_at at 1. rewrite app_nth2; rewrite length_take, Hl; [done|]. cbn. lia. }
  rewrite take_app_le, take_take by (rewrite length_take, Hl; done). cbn [Nat.min].
  rewrite lor_high by (done || div_lia). unfold u8. rewrite Z.mod_small by div_lia.
  destruct (last_octet s (byte_at s 31 mod 128 + 128 * b) Hl Hs) as (L2 & H2 & V2); [unfold is_u8; div_lia|].
  split; [done|]. split; [done|]. rewrite V2, le_val_255 by done. compute_powers. ring.
Qed.

Lemma set_octet_app a b i f : length a = 32%nat -> set_octet (32 + i) f (a ++ b) = a ++ set_octet i f b.
Proof.
  intros H. unfold set_octet, put, byte_at. cbn [length].
  rewrite app_nth2, H by lia. replace (32 + i - 32)%nat with i by lia.
  rewrite take_app_ge, drop_app_ge by lia. rewrite H, <- app_assoc. repeat f_equal; lia.
Qed.

Lemma set_octet_prefix a b i f : (i < length a)%nat -> set_octet i f (a ++ b) = set_octet i f a ++ b.
Proof.
  intros H. unfold set_octet, put, byte_at. cbn [length]. rewrite app_nth1 by done.
  rewrite take_app_le, drop_app_le by lia. by rewrite <- !app_assoc.
Qed.

Lemma encode_shape p : length (XEd.encode p) = 32%nat /\ Forall is_u8 (XEd.encode p).
Proof. apply le_octets_shape. Qed.

Lemma encoding_range p : 0 <= encoding p < 2 ^ 256.
Proof.
  unfold encoding. pose proof (to_Z_range (p_y p)) as Hr. pose proof (parity_01 (p_x p)) as Hp.
  revert Hr Hp. generalize (Zmod.to_Z (p_y p)), (parity (p_x p)). unfold P25519. compute_powers. lia.
Qed.
Lemma encode_val p : le_val (XEd.encode p) = encoding p.
Proof. apply le_val_octets_32, encoding_range. Qed.

Lemma curve25519_sign_ok k m z : Forall is_u8 m -> blen m + 128 < 2 ^ 64 ->
  length k = 32%nat -> Forall is_u8 k -> byte_at k 31 <= 127 -> length z = 64%nat -> Forall is_u8 z ->
  curve25519_sign true k m z = Some (0, XEd.sign k m z).
Proof.
  intros Hm Hn Lk Hk Hk31 Lz Hz. unfold curve25519_sign. cbn [negb]. cbv zeta.
  destruct (scalarmult_base_ok k Lk Hk Hk31) as (A & -> & HA).
  destruct (ge_p3_tobytes_ok _ _ HA) as (pk & -> & Lp & Hp & Vp).
  rewrite crypto_sign_modified_ok by done. fold (XEd.public k) in *.
  destruct (encoding_top pk (XEd.public k) Lp Hp Vp) as [_ Hpar].
  assert (pk = XEd.encode (XEd.public k)) as -> by by apply le_octets_of.
  rewrite land_128 by by apply byte_at_ok. rewrite Hpar. unfold XEd.sign. cbv zeta.
  set (r := XEd.hash_mod _). set (R := XEd.encode (zmul r base_point)). set (h := XEd.hash_mod _).
  set (S := le_octets 32 ((h * le_val k + r) mod L25519)).
  assert (length S = 32%nat /\ Forall is_u8 S) as [LS HS] by apply le_octets_shape.
  assert (length R = 32%nat) as LR by apply encode_shape.
  rewrite app_assoc, take_app_eq by (rewrite length_app; lia).
  rewrite (set_octet_app R S 31) by done. rewrite (set_octet_app R _ 31) by done.
  destruct (set_sign S (parity (p_x (XEd.public k))) LS HS (parity_01 _)) as (L' & H' & V').
  do 3 f_equal. apply le_octets_of; [done|done|]. rewrite V'. f_equal.
  pose proof (Z.mod_pos_bound (h * le_val k + r) L25519 ltac:(done)) as Hr. destruct L25519_range as [_ HL].
  unfold S. assert (0 <= (h * le_val k + r) mod L25519 < 2 ^ 253) as Hs.
  { revert Hr HL. generalize L25519, (2 ^ 253). lia. }
  revert Hs. generalize ((h * le_val k + r) mod L25519). intros v Hv.
  rewrite le_val_octets_32; [apply Z.mod_small|]; revert Hv; compute_powers; lia.
Qed.

(** ** Verification *)

Lemma land_224 x : is_u8 x -> (Z.land x 224 =? 0) = (x <? 32).
Proof.
  intros H. assert (forallb (fun n => Bool.eqb (Z.land (Z.of_nat n) 224 =? 0) (Z.of_nat n <? 32)) (seq 0 256) = true) as C
    by (vm_compute; reflexivity).
  rewrite forallb_forall in C. specialize (C (Z.to_nat x)). unfold is_u8 in H. rewrite Z2Nat.id in C by lia.
  apply eqb_prop, C, in_seq. lia.
Qed.

(** The equation, for the three parts of a signed message and a public key. *)
Definition opens (R S pk msg : bytes) : Prop :=
  let h := XEd.hash_mod (R ++ pk ++ msg) in
  le_val S < 2 ^ 253 /\ exists A, p_y A = y_of pk /\ (parity (p_x A) = byte_at pk 31 / 128 \/ p_x A = f0) /\
    R = XEd.encode (padd (zmul (le_val S) base_point) (popp (zmul h A))).

Lemma badsig_ok (R S msg m : bytes) : length R = 32%nat -> length S = 32%nat -> length m = length (R ++ S ++ msg) ->
  badsig (length (R ++ S ++ msg)) m = (-1, 2 ^ 64 - 1, replicate (length msg + 64) 0).
Proof.
  intros LR LS Hm. unfold badsig. f_equal. replace m with (m ++ []) by apply app_nil_r.
  rewrite put_first by (by rewrite length_replicate). rewrite app_nil_r, !length_app, LR, LS. f_equal. lia.
Qed.

Lemma open_buffers (R S pk msg : bytes) : length R = 32%nat -> length S = 32%nat -> length pk = 32%nat ->
  put (put (replicate (length msg + 64) 0) 0 (R ++ S ++ msg)) 32 pk = R ++ pk ++ msg.
Proof.
  intros LR LS Lp. rewrite <- (app_nil_r (replicate _ _)), put_first by (rewrite !length_app, length_replicate; lia).
  rewrite app_nil_r. by rewrite (put_mid R S msg 32 pk) by congruence.
Qed.

Lemma open_message (R pk msg : bytes) : length R = 32%nat -> length pk = 32%nat ->
  put (put (R ++ pk ++ msg) 0 (take (length msg + 64 - 64) (drop 64 (R ++ pk ++ msg)))) (length msg + 64 - 64)
    (replicate 64 0) = msg ++ replicate 64 0.
Proof.
  intros LR Lp. rewrite Nat.add_sub, app_assoc, drop_app_eq by (rewrite length_app; lia). rewrite take_ge by lia.
  rewrite <- (take_drop (length msg) ((R ++ pk) ++ msg)). set (a := take (length msg) _). set (b := drop (length msg) _).
  assert (length a = length msg) as La by (unfold a; rewrite length_take, !length_app; lia).
  assert (length b = 64%nat) as Lb by (unfold b; rewrite length_drop, !length_app; lia).
  rewrite put_first by done. by rewrite put_last by (rewrite ?length_replicate; congruence).
Qed.

Lemma crypto_sign_open_ok R S pk msg : length R = 32%nat -> Forall is_u8 R -> length S = 32%nat -> Forall is_u8 S ->
  length pk = 32%nat -> Forall is_u8 pk -> Forall is_u8 msg -> blen msg + 64 < 2 ^ 64 ->
  crypto_sign_open (replicate (length msg + 64) 0) (R ++ S ++ msg) pk = Some (0, blen msg, msg ++ replicate 64 0) /\
    opens R S pk msg \/
  crypto_sign_open (replicate (length msg + 64) 0) (R ++ S ++ msg) pk = Some (-1, 2 ^ 64 - 1, replicate (length msg + 64) 0) /\
    ~ opens R S pk msg.
Proof.
  intros LR HR LS HS Lp Hp Hm Hn. unfold crypto_sign_open. cbv zeta.
  assert (length (R ++ S ++ msg) = length msg + 64)%nat as Lsm by (rewrite !length_app; lia).
  assert (byte_at (R ++ S ++ msg) 63 = byte_at S 31) as ->.
  { change 63%nat with (32 + 31)%nat. rewrite byte_at_app by done. unfold byte_at. by rewrite app_nth1 by lia. }
  rewrite land_224 by by apply byte_at_ok.
  replace (length (R ++ S ++ msg) <? 64)%nat with false by (symmetry; apply Nat.ltb_ge; lia).
  pose proof (byte_31 S LS HS) as E31. destruct (Z.ltb_spec (byte_at S 31) 32) as [H31|H31]; cbn [negb]; cycle 1.
  { right. rewrite badsig_ok by (rewrite ?length_replicate; congruence). split; [done|]. intros [Hlt _].
    apply byte_31_small in Hlt; [lia|done|done]. }
  destruct (ge_frombytes_ok pk Lp Hp) as ([code [A|]] & -> & Hd); cbn [decoded fst snd] in Hd; cycle 1.
  { right. rewrite badsig_ok by (rewrite ?length_replicate; congruence). split; [done|].
    intros [_ (A & HA & _)]. by apply (proj2 Hd A). }
  destruct Hd as [_ (P & HP & HPy & HPx)].
  rewrite (take_ge pk) by lia. rewrite (take_app_eq R), (drop_app_eq R), (take_app_eq S) by done.
  rewrite open_buffers by done. rewrite (take_ge (R ++ pk ++ msg)) by (rewrite Lsm, !length_app; lia).
  destruct (hash_ok (R ++ pk ++ msg)) as (h & -> & Lh & Hh & Vh & Bh).
  { by rewrite !Forall_app. }
  { unfold blen in *. rewrite !length_app. lia. }
  destruct (double_scalarmult_ok h S A (popp P) Lh Hh Bh LS HS H31 HP) as (Rp & -> & HRp).
  destruct (ge_tobytes_ok _ _ HRp) as (rc & -> & Lrc & Hrc & Vrc).
  rewrite zmul_popp, padd_comm in Vrc. rewrite Vh in Vrc.
  set (Q := padd _ _) in Vrc. assert (rc = XEd.encode Q) as -> by by apply le_octets_of.
  rewrite crypto_verify_32_ok by done.
  assert (le_val S < 2 ^ 253) as HS253.
  { rewrite E31 in H31. pose proof (Z.div_mod (le_val S) (2 ^ 248) ltac:(done)) as Hdm.
    pose proof (Z.mod_pos_bound (le_val S) (2 ^ 248) ltac:(done)). revert Hdm H H31.
    generalize (le_val S / 2 ^ 248), (le_val S mod 2 ^ 248). compute_powers. lia. }
  case_decide as E; cbn [Z.eqb].
  - left. rewrite Lsm, open_message by done. split.
    { repeat f_equal. rewrite Nat.add_sub. unfold blen. unfold u64. apply Z.mod_small. unfold blen in Hn. lia. }
    split; [done|]. exists P. split; [done|]. split; [done|]. by symmetry.
  - right. rewrite badsig_ok by (rewrite ?Lsm; by rewrite ?length_app, ?LR, ?Lp; lia). split; [done|].
    intros [_ (A' & HA' & Hx' & ER)]. apply E. symmetry. assert (A' = P) as ->; [|exact ER].
    apply same_point; [congruence|]. destruct HPx as [HPx|HPx], Hx' as [Hx'|Hx']; auto. left. congruence.
Qed.

Lemma verify_ed_y_ok pub : length pub = 32%nat -> Forall is_u8 pub ->
  exists s, verify_ed_y pub = Some s /\ length s = 32%nat /\ Forall is_u8 s /\
    le_val s = Zmod.to_Z (edwards_y (y_of pub)).
Proof.
  intros Hl Hp. unfold verify_ed_y. destruct (fe_frombytes_ok pub Hl Hp) as (u & E & Ht & Hv).
  refine (chk_step _ _ _ _ E _). clear E. cbv beta zeta.
  assert (is_fe 1 u (y_of pub)) as Hu by (split; [by apply bnd_tight|by apply fz_eq]). pose proof is_fe_1 as H1.
  do 4 fe_step. apply tobytes_ok; [apply (is_fe_loose 1 _ _ ltac:(lia) H3)|exact (proj2 H3)].
Qed.

Lemma y_of_sign s (y : F) b : b = 0 \/ b = 1 -> le_val s = Zmod.to_Z y + 2 ^ 255 * b -> y_of s = y.
Proof.
  intros Hb Hv. unfold y_of. rewrite Hv. rewrite <- (fz_to_Z y) at 2. f_equal. pose proof (to_Z_range y) as Hr.
  symmetry. revert Hr. generalize (Zmod.to_Z y). intros v Hr. apply (Z.mod_unique_pos _ _ b); [|ring].
  revert Hr. unfold P25519. compute_powers. lia.
Qed.

(** The octets of a key with its sign. *)
Lemma signed_key s (y : F) b : length s = 32%nat -> Forall is_u8 s -> le_val s = Zmod.to_Z y -> is_u8 b ->
  let s' := set_octet 31 (fun x => Z.lor x (Z.land b 128)) (set_octet 31 (fun x => Z.land x 127) s) in
  s' = le_octets 32 (Zmod.to_Z y + 2 ^ 255 * (b / 128)) /\ y_of s' = y /\ byte_at s' 31 / 128 = b / 128.
Proof.
  intros Hl Hs Hv Hb. cbv zeta. rewrite land_128 by done.
  assert (b / 128 = 0 \/ b / 128 = 1) as H01 by (unfold is_u8 in Hb; div_lia).
  destruct (set_sign s (b / 128) Hl Hs H01) as (L' & H' & V'). pose proof (to_Z_range y) as Hr.
  rewrite Hv, Z.mod_small in V' by (revert Hr; generalize (Zmod.to_Z y); unfold P25519; compute_powers; lia).
  split; [by apply le_octets_of|]. split; [by eapply y_of_sign|].
  rewrite byte_31, V', Z.div_div by done. symmetry. revert Hr. generalize (Zmod.to_Z y). intros v Hr.
  apply (Z.div_unique_pos _ _ _ v); [|compute_powers; ring]. revert Hr. unfold P25519. compute_powers. lia.
Qed.

Lemma clear_top S : length S = 32%nat -> Forall is_u8 S ->
  length (set_octet 31 (fun x => Z.land x 127) S) = 32%nat /\ Forall is_u8 (set_octet 31 (fun x => Z.land x 127) S) /\
  le_val (set_octet 31 (fun x => Z.land x 127) S) = le_val S mod 2 ^ 255.
Proof.
  intros Hl Hs. pose proof (byte_at_ok S 31 Hs) as H31. unfold is_u8 in H31.
  rewrite (set_octet_31 _ S Hl), land_127. unfold u8. rewrite (Z.mod_small (_ mod 128)) by div_lia.
  destruct (last_octet S (byte_at S 31 mod 128) Hl Hs) as (L1 & H1 & V1); [unfold is_u8; div_lia|].
  split; [done|]. split; [done|]. by rewrite V1, le_val_255.
Qed.

Lemma curve25519_verify_ok sig pub m : length sig = 64%nat -> Forall is_u8 sig -> length pub = 32%nat ->
  Forall is_u8 pub -> Forall is_u8 m -> blen m + 64 < 2 ^ 64 ->
  (curve25519_verify true true sig pub m = Some 0 /\ XEd.verifies sig pub m) \/
  (curve25519_verify true true sig pub m = Some (-1) /\ ~ XEd.verifies sig pub m).
Proof.
  intros Lsig Hsig Lp Hp Hm Hn. unfold curve25519_verify. cbn [negb]. cbv zeta.
  destruct (verify_ed_y_ok pub Lp Hp) as (s & -> & Ls & Hs & Vs).
  assert (is_u8 (byte_at sig 63)) as Hb by by apply byte_at_ok.
  destruct (signed_key s _ (byte_at sig 63) Ls Hs Vs Hb) as (Epk & Hy & Hpar). cbv zeta in *.
  set (pk := set_octet 31 (fun x => Z.lor x (Z.land (byte_at sig 63) 128)) _) in *.
  assert (length pk = 32%nat /\ Forall is_u8 pk) as [Lpk Hpk] by (rewrite Epk; apply le_octets_shape).
  set (R := take 32 sig). set (S := drop 32 sig). pose proof (take_drop 32 sig) as Esig. fold R S in Esig. symmetry in Esig.
  assert (length R = 32%nat /\ length S = 32%nat) as [LR LS] by (unfold R, S; rewrite length_take, length_drop; lia).
  assert (Forall is_u8 R /\ Forall is_u8 S) as [HR HS] by (split; [by apply Forall_take|by apply Forall_drop]).
  destruct (clear_top S LS HS) as (LS' & HS' & VS'). set (S' := set_octet 31 _ S) in *.
  assert (put (set_octet 63 (fun x => Z.land x 127) (put (replicate (length m + 64) 0) 0 (take 64 sig))) 64 m = R ++ S' ++ m)
    as ->.
  { rewrite (take_ge sig) by lia. replace (length m + 64)%nat with (64 + length m)%nat by lia.
    rewrite replicate_add, put_first by by rewrite length_replicate. rewrite Esig, <- app_assoc.
    rewrite (set_octet_app R (S ++ replicate (length m) 0) 31), set_octet_prefix by (done || lia). fold S'.
    rewrite app_assoc, put_last by (rewrite ?length_app, ?length_replicate; lia). by rewrite <- app_assoc. }
  assert (opens R S' pk m <-> XEd.verifies sig pub m) as Hiff.
  { unfold opens, XEd.verifies. fold R S. rewrite VS', Hy, Hpar, Epk. unfold y_of. tauto. }
  destruct (crypto_sign_open_ok R S' pk m) as [[-> H]|[-> H]]; try done; [left|right]; (split; [done|]); tauto.
Qed.

(** ** What is signed is accepted *)

Lemma sign_shape k m z : length (XEd.sign k m z) = 64%nat /\ Forall is_u8 (XEd.sign k m z).
Proof.
  unfold XEd.sign. cbv zeta. rewrite length_app, Forall_app, (proj1 (encode_shape _)), (proj1 (le_octets_shape _ _)).
  split; [done|]. split; [apply encode_shape|apply le_octets_shape].
Qed.

(** R = S B - h A. *)
Lemma signature_equation a h r :
  padd (zmul ((h * a + r) mod L25519) base_point) (popp (zmul h (zmul a base_point))) = zmul r base_point.
Proof.
  rewrite (zmul_mod L25519 _ base_point ltac:(done) base_order), <- zmul_mul, <- zmul_sub. f_equal. ring.
Qed.

Lemma verifies_parts (R S pub m : bytes) A v : length R = 32%nat -> length S = 32%nat -> Forall is_u8 S ->
  A <> origin -> y_of pub = mont_u A -> 0 <= v < 2 ^ 253 -> le_val S = v + 2 ^ 255 * parity (p_x A) ->
  R = XEd.encode (padd (zmul v base_point) (popp (zmul (XEd.hash_mod (R ++ XEd.encode A ++ m)) A))) ->
  XEd.verifies (R ++ S) pub m.
Proof.
  intros LR LS HS HA Hpub Hv VS HR. unfold XEd.verifies. fold (y_of pub). rewrite Hpub, edwards_y_mont_u by done.
  rewrite (take_app_eq R), (drop_app_eq R) by done. pose proof (parity_01 (p_x A)) as Hp.
  assert (byte_at (R ++ S) 63 / 128 = parity (p_x A)) as ->.
  { change 63%nat with (32 + 31)%nat. rewrite byte_at_app by done. rewrite byte_31, VS, Z.div_div by done.
    symmetry. apply (Z.div_unique_pos _ _ _ v); [|compute_powers; ring]. revert Hv. compute_powers. lia. }
  assert (le_val S mod 2 ^ 255 = v) as ->.
  { rewrite VS. symmetry. apply (Z.mod_unique_pos _ _ (parity (p_x A))); [|ring]. revert Hv. compute_powers. lia. }
  split; [apply Hv|]. exists A. split; [done|]. split; [by left|]. exact HR.
Qed.

Lemma sign_verifies k m z pub : XEd.public k <> origin -> y_of pub = mont_u (XEd.public k) ->
  XEd.verifies (XEd.sign k m z) pub m.
Proof.
  intros Hk Hpub. unfold XEd.sign. cbv zeta.
  generalize (XEd.hash_mod (XEd.prefix ++ k ++ m ++ z)). intros r.
  assert (forall h v, v = (h * le_val k + r) mod L25519 -> 0 <= v < 2 ^ 253) as Hr.
  { intros h v ->. pose proof (Z.mod_pos_bound (h * le_val k + r) L25519 ltac:(done)) as Hr.
    destruct L25519_range as [_ HL]. revert Hr HL. generalize L25519, (2 ^ 253). lia. }
  set (h := XEd.hash_mod (XEd.encode (zmul r base_point) ++ _)). specialize (Hr h _ eq_refl).
  pose proof (parity_01 (p_x (XEd.public k))) as Hp.
  apply (verifies_parts _ _ _ _ (XEd.public k) ((h * le_val k + r) mod L25519));
    [apply encode_shape|apply le_octets_shape|apply le_octets_shape|done|done|done| |].
  - apply le_val_octets_32. revert Hr Hp. generalize ((h * le_val k + r) mod L25519), (parity (p_x (XEd.public k))).
    compute_powers. lia.
  - fold h. f_equal. symmetry. apply signature_equation.
Qed.

Lemma sign_verify_ok k m z pub : length k = 32%nat -> Forall is_u8 k -> byte_at k 31 <= 127 -> XEd.public k <> origin ->
  Forall is_u8 m -> blen m + 128 < 2 ^ 64 -> length z = 64%nat -> Forall is_u8 z ->
  length pub = 32%nat -> Forall is_u8 pub -> y_of pub = mont_u (XEd.public k) ->
  exists sig, curve25519_sign true k m z = Some (0, sig) /\ length sig = 64%nat /\ Forall is_u8 sig /\
    curve25519_verify true true sig pub m = Some 0.
Proof.
  intros Lk Hk Hk31 H0 Hm Hn Lz Hz Lp Hp Hpub. exists (XEd.sign k m z).
  destruct (sign_shape k m z) as [Ls Hs]. split; [by apply curve25519_sign_ok|]. split; [done|]. split; [done|].
  destruct (curve25519_verify_ok (XEd.sign k m z) pub m) as [[H _]|[_ H]]; [try done; lia..|done|].
  by destruct H; apply sign_verifies.
Qed.

(** ** Key generation *)

Lemma curve25519_keygen_ok k : length k = 32%nat -> Forall is_u8 k -> byte_at k 31 <= 127 ->
  exists pub, curve25519_keygen k = Some pub /\ length pub = 32%nat /\ Forall is_u8 pub /\
    le_val pub = Zmod.to_Z (mont_u (XEd.public k)).
Proof.
  intros Lk Hk Hk31. unfold curve25519_keygen.
  destruct (scalarmult_base_ok k Lk Hk Hk31) as (A & -> & (X & Y & Z & T & HX & HY & HZ & HT & H)). fold (XEd.public k) in H.
  do 4 fe_step. rewrite (mont_u_projective _ _ _ _ (extended_projective _ _ _ _ _ H)) in H3.
  apply tobytes_ok; [apply (is_fe_loose 1 _ _ ltac:(lia) H3)|exact (proj2 H3)].
Qed.
