(* ===== verification/DonnaProofs.v ===== *)
(** The field arithmetic of curve25519-donna.c: products, squares and the
    reductions compute modulo 2^255 - 19 without overflow under the bounds of
    the comments. *)
From stdpp Require Import base list sets.
From Stdlib Require Import ZArith Lia.
From S2P Require Import Prelude MachineInt FieldElement FieldProofs FieldEncoding Scalar ScalarProofs Donna.
#[local] Open Scope Z_scope.
#[local] Open Scope checked_scope.
#[local] Open Scope field_scope.

(** ** The value of an array of limbs *)

(** The weight of the limb [i] places after limb [k]. *)
Fixpoint weight (k i : nat) : Z :=
  match i with
  | O => 1
  | S i' => 2 ^ limb_bits k * weight (S k) i'
  end.
Fixpoint limbs_from (k : nat) (l : list Z) : Z :=
  match l with
  | [] => 0
  | x :: l' => x + 2 ^ limb_bits k * limbs_from (S k) l'
  end.
Definition limbs25 (l : list Z) : Z := limbs_from 0 l.

Lemma weight_S k i : weight k (S i) = weight k i * 2 ^ limb_bits (k + i).
Proof.
  revert k. induction i as [|i IH]; intros k; [rewrite Nat.add_0_r; cbn [weight]; lia|].
  change (weight k (S (S i))) with (2 ^ limb_bits k * weight (S k) (S i)). rewrite IH.
  change (weight k (S i)) with (2 ^ limb_bits k * weight (S k) i). rewrite Nat.add_succ_comm. ring.
Qed.

Lemma limbs_from_insert k l i v : (i < length l)%nat ->
  limbs_from k (<[i := v]> l) = limbs_from k l + (v - limb_at l i) * weight k i.
Proof.
  revert k i. induction l as [|x l IH]; intros k [|i] Hi; cbn [length] in Hi; try lia; cbn [insert list_insert limbs_from weight].
  - unfold limb_at. cbn [nth]. lia.
  - change (list_insert i v l) with (<[i := v]> l). rewrite IH by lia. unfold limb_at. cbn [nth]. ring.
Qed.

Lemma limbs_from_app k a b : limbs_from k (a ++ b) = limbs_from k a + weight k (length a) * limbs_from (k + length a) b.
Proof.
  revert k. induction a as [|x a IH]; intros k; cbn [app limbs_from length weight].
  - rewrite Nat.add_0_r. lia.
  - rewrite IH. rewrite Nat.add_succ_comm. ring.
Qed.

Definition bounded (b : Z) (l : list Z) : Prop := length l = 10%nat /\ Forall (fun x => Z.abs x <= b) l.

Lemma bounded_weaken a b l : a <= b -> bounded a l -> bounded b l.
Proof. intros H [Hl Hf]. split; [done|]. eapply Forall_impl; [exact Hf|]. intros x Hx. cbv beta in *. lia. Qed.

Lemma limb_at_bound b l i : 0 <= b -> Forall (fun x => Z.abs x <= b) l -> Z.abs (limb_at l i) <= b.
Proof.
  intros Hb H. unfold limb_at. destruct (Nat.lt_ge_cases i (length l)) as [Hi|Hi].
  - eapply List.Forall_forall in H; [exact H|by apply nth_In].
  - rewrite nth_overflow by done. done.
Qed.

Lemma s32_id x : Z.abs x <= 2147483647 -> s32 x = x.
Proof. intros H. unfold s32. rewrite Z.mod_small by lia. lia. Qed.

(** ** Products

    The value of an expression and the sum of its coefficients. *)
Fixpoint value (a b : list Z) (e : lexp) : Z :=
  match e with
  | Prod k i j => k * limb_at a i * limb_at b j
  | Sum x y => value a b x + value a b y
  | Scale k x => k * value a b x
  end.
Fixpoint coefficients (e : lexp) : Z :=
  match e with
  | Prod k _ _ => k
  | Sum x y => coefficients x + coefficients y
  | Scale k x => k * coefficients x
  end.
Fixpoint positive (e : lexp) : bool :=
  match e with
  | Prod k _ _ => 1 <=? k
  | Sum x y => positive x && positive y
  | Scale k x => (1 <=? k) && positive x
  end.

Lemma coefficients_pos e : positive e = true -> 1 <= coefficients e.
Proof.
  induction e as [k i j|x IHx y IHy|k x IH]; cbn [positive coefficients]; intros H.
  - by apply Z.leb_le.
  - apply andb_prop in H as [Hx Hy]. specialize (IHx Hx). specialize (IHy Hy). lia.
  - apply andb_prop in H as [Hk Hx]. apply Z.leb_le in Hk. specialize (IH Hx). nia.
Qed.

(** 2^27 *)
Definition wide_limb : Z := 134217728.

Lemma eval_ok a b e : bounded wide_limb a -> bounded wide_limb b -> positive e = true -> coefficients e <= 14 ->
  eval a b e = Some (value a b e) /\ Z.abs (value a b e) <= coefficients e * 18014398509481984.
Proof.
  intros [La Ha] [Lb Hb]. induction e as [k i j|x IHx y IHy|k x IH]; cbn [eval value positive coefficients]; intros Hp Hc.
  - apply Z.leb_le in Hp. pose proof (limb_at_bound wide_limb a i ltac:(done) Ha) as Hi. pose proof (limb_at_bound wide_limb b j ltac:(done) Hb) as Hj.
    unfold wide_limb in *. rewrite !s32_id by lia. revert Hi Hj. generalize (limb_at a i), (limb_at b j). intros x y Hx Hy.
    assert (Z.abs (k * x) <= k * 134217728) as H1 by (apply abs_scale_le; [lia|done]).
    assert (Z.abs (k * x * y) <= k * 134217728 * 134217728) as H2 by (apply abs_mul_le; [done|done]).
    rewrite i64_ok by lia. rewrite i64_ok by lia. split; [done|lia].
  - apply andb_prop in Hp as [Hx Hy]. pose proof (coefficients_pos x Hx). pose proof (coefficients_pos y Hy).
    destruct (IHx Hx) as [-> Bx]; [lia|]. destruct (IHy Hy) as [-> By]; [lia|].
    pose proof (abs_add_le _ _ _ _ Bx By). rewrite i64_ok by lia. split; [done|lia].
  - apply andb_prop in Hp as [Hk Hx]. apply Z.leb_le in Hk. pose proof (coefficients_pos x Hx).
    destruct (IH Hx) as [-> Bx]; [nia|]. pose proof (abs_scale_le k _ _ ltac:(lia) Bx). rewrite i64_ok by nia. split; [done|nia].
Qed.

Definition products_ok (es : list lexp) : bool := forallb (fun e => positive e && (coefficients e <=? 14)) es.

(** 14 * 2^54 *)
Definition product_limb : Z := 252201579132747776.

Lemma eval_all_ok a b es : bounded wide_limb a -> bounded wide_limb b -> products_ok es = true ->
  eval_all a b es = Some (map (value a b) es) /\ Forall (fun x => Z.abs x <= product_limb) (map (value a b) es).
Proof.
  intros Ha Hb. induction es as [|e es IH]; cbn [products_ok forallb eval_all map]; [by constructor|].
  intros H. apply andb_prop in H as [H1 H2]. apply andb_prop in H1 as [H0 H1]. apply Z.leb_le in H1.
  destruct (eval_ok a b e Ha Hb H0 H1) as [-> Be]. destruct (IH H2) as [-> Bs]. split; [done|].
  constructor; [unfold product_limb; lia|done].
Qed.

Ltac ten_limbs a H := do 10 (destruct a as [|? a]; [discriminate H|]); destruct a; [|discriminate H].

Lemma product_value a b : length a = 10%nat -> length b = 10%nat ->
  limbs25 (map (value a b) fproduct_limbs) = limbs25 a * limbs25 b.
Proof.
  intros Ha Hb. ten_limbs a Ha. ten_limbs b Hb.
  unfold limbs25, fproduct_limbs, limb_at. cbn [map value limbs_from limb_at nth limb_bits Nat.odd Nat.even negb]. unfold limb_at. cbn [nth]. ring.
Qed.

Lemma square_value a : length a = 10%nat -> limbs25 (map (value a a) fsquare_limbs) = limbs25 a * limbs25 a.
Proof.
  intros Ha. ten_limbs a Ha.
  unfold limbs25, fsquare_limbs, limb_at. cbn [map value limbs_from limb_at nth limb_bits Nat.odd Nat.even negb]. unfold limb_at. cbn [nth]. ring.
Qed.

(** ** Reduction of the degree *)

Lemma add_shifted_ok t i x n : 0 <= n -> Z.abs (limb_at t i) + Z.abs x * 2 ^ n <= 9223372036854775807 ->
  add_shifted t i x n = Some (<[i := limb_at t i + x * 2 ^ n]> t).
Proof.
  intros Hn H. unfold add_shifted. rewrite Z.shiftl_mul_pow2 by done.
  assert (0 < 2 ^ n) by lia. assert (Z.abs (x * 2 ^ n) = Z.abs x * 2 ^ n) as E by (rewrite Z.abs_mul; lia).
  rewrite !i64_ok by lia. done.
Qed.

Lemma add_19_ok t i j A B : (i < length t)%nat -> i <> j -> Z.abs (limb_at t i) <= A -> Z.abs (limb_at t j) <= B ->
  A + 19 * B <= 9223372036854775807 ->
  add_19 t i j = Some (<[i := limb_at t i + 19 * limb_at t j]> t).
Proof.
  intros Hi Hij HA HB Hs. unfold add_19.
  assert (forall x, limb_at (<[i := x]> t) j = limb_at t j /\ limb_at (<[i := x]> t) i = x) as Hins.
  { intros x. rewrite !limb_at_insert by done. by rewrite decide_False, decide_True by congruence. }
  rewrite (add_shifted_ok t i _ 4) by (change (2 ^ 4) with 16; lia).
  rewrite (proj1 (Hins _)), add_shifted_ok by (rewrite ?(proj2 (Hins _)); change (2 ^ 4) with 16; change (2 ^ 1) with 2; lia).
  rewrite (proj2 (Hins _)), list_insert_insert_eq.
  rewrite (proj1 (Hins _)), add_shifted_ok
    by (rewrite ?(proj2 (Hins _)); change (2 ^ 4) with 16; change (2 ^ 1) with 2; change (2 ^ 0) with 1; lia).
  rewrite (proj2 (Hins _)), list_insert_insert_eq. do 2 f_equal.
  change (2 ^ 4) with 16; change (2 ^ 1) with 2; change (2 ^ 0) with 1. lia.
Qed.

(** The limbs from 10 on are added to those ten places lower. *)
Definition folded (t : list Z) (i : nat) : Z :=
  if (i <? 9)%nat then limb_at t i + 19 * limb_at t (i + 10) else limb_at t i.

(** 280 * 2^54 *)
Definition degree_limb : Z := 5044031582654955520.

Lemma fold_add_19 idx : forall t, NoDup idx -> Forall (fun i => (i < 9)%nat) idx -> length t = 19%nat ->
  (forall j, j ∈ idx \/ (10 <= j)%nat -> Z.abs (limb_at t j) <= product_limb) ->
  exists t', fold_checked (fun output i => add_19 output i (i + 10)) t idx = Some t' /\ length t' = 19%nat /\
    forall j, limb_at t' j = if decide (j ∈ idx) then limb_at t j + 19 * limb_at t (j + 10) else limb_at t j.
Proof.
  induction idx as [|i idx IH]; intros t Hn Hi Hl Hb; cbn [fold_checked].
  { exists t. split; [done|]. split; [done|]. intros j. case_decide as Hj; [by apply not_elem_of_nil in Hj|done]. }
  apply NoDup_cons in Hn as [Hni Hn]. apply Forall_cons in Hi as [Hi His].
  rewrite (add_19_ok t i (i + 10) product_limb product_limb); [|lia|lia| | |done];
    [|apply Hb; left; set_solver|apply Hb; right; lia].
  set (v := limb_at t i + _). destruct (IH (<[i := v]> t) Hn His) as (t' & -> & Hl' & Ht').
  { by rewrite length_insert. }
  { intros j Hj. rewrite limb_at_insert by lia. rewrite decide_False; [apply Hb; set_solver|].
    intros ->. destruct Hj; [done|lia]. }
  exists t'. split; [done|]. split; [done|]. intros j. rewrite Ht', !limb_at_insert by lia.
  destruct (decide (i = j)) as [->|Hij].
  - rewrite decide_False by done. by rewrite decide_True by set_solver.
  - destruct (decide (i = j + 10)%nat) as [->|_]; [lia|]. repeat case_decide; try done; set_solver.
Qed.

Lemma limbs_ext n t (f : nat -> Z) : length t = n -> (forall j, (j < n)%nat -> limb_at t j = f j) -> t = map f (seq 0 n).
Proof.
  intros <- H. apply (nth_ext _ _ 0 (f 0%nat)); [by rewrite length_map, length_seq|].
  intros j Hj. rewrite map_nth, seq_nth by done. by apply H.
Qed.

Lemma folded_value t : length t = 19%nat -> limbs25 (map (folded t) (seq 0 10)) ≡p limbs25 t.
Proof.
  intros Hl. do 19 (destruct t as [|? t]; [discriminate Hl|]); destruct t; [|discriminate Hl].
  unfold limbs25, folded, limb_at. cbn [map seq limbs_from limb_bits Nat.ltb Nat.leb Nat.add nth Nat.odd Nat.even negb].
  match goal with |- _ ≡p ?r => let v := constr:(r) in idtac end.
  apply (eq_mod_multiple _ _ (- limbs25 [z9; z10; z11; z12; z13; z14; z15; z16; z17])).
  unfold limbs25, P25519. cbn [limbs_from limb_bits Nat.odd Nat.even negb]. ring.
Qed.

Lemma freduce_degree_ok t : length t = 19%nat -> Forall (fun x => Z.abs x <= product_limb) t ->
  exists t', freduce_degree t = Some t' /\ length t' = 19%nat /\
    (forall j, (j < 10)%nat -> Z.abs (limb_at t' j) <= degree_limb) /\ limbs25 (take 10 t') ≡p limbs25 t.
Proof.
  intros Hl Ht. pose proof (fun i => limb_at_bound product_limb t i ltac:(done) Ht) as Hb.
  destruct (fold_add_19 [8; 7; 6; 5; 4; 3; 2; 1; 0]%nat t) as (t' & E & Hl' & Ht').
  { apply (bool_decide_unpack _). by vm_compute. }
  { by repeat constructor. }
  { done. }
  { intros j _. apply Hb. }
  exists t'. split; [exact E|]. split; [done|].
  assert (forall j, (j < 10)%nat -> limb_at t' j = folded t j) as Hf.
  { intros j Hj. rewrite Ht'. unfold folded. do 10 (destruct j as [|j]; [done|]). lia. }
  split.
  - intros j Hj. rewrite Hf by done. unfold folded. pose proof (Hb j). pose proof (Hb (j + 10)%nat).
    unfold product_limb, degree_limb in *. destruct (j <? 9)%nat; lia.
  - rewrite (limbs_ext 10 (take 10 t') (folded t)); [by apply folded_value|by rewrite length_take, Hl'|].
    intros j Hj. rewrite <- Hf by done. unfold limb_at. rewrite !nth_lookup. by rewrite lookup_take_lt.
Qed.

(** ** Reduction of the coefficients *)

Lemma sign_mask v n : -9223372036854775808 <= v < 9223372036854775808 -> 0 <= n ->
  Z.shiftr (u32 (Z.shiftr (s32 (u32 (Z.shiftr (u64 v) 32))) 31)) n =
  if v <? 0 then Z.shiftr 4294967295 n else 0.
Proof.
  intros Hv Hn. unfold u64. rewrite (Z.shiftr_div_pow2 _ 32) by done.
  assert (Z.shiftr (s32 (u32 (v mod 18446744073709551616 / 2 ^ 32))) 31 = if v <? 0 then -1 else 0) as ->.
  { rewrite Z.shiftr_div_pow2 by done. unfold s32, u32, UINT32_MOD. compute_powers.
    destruct (Z.ltb_spec v 0) as [Hneg|Hpos].
    - assert (v mod 18446744073709551616 = v + 18446744073709551616) as ->.
      { symmetry. apply (Z.mod_unique_pos _ _ (-1)); lia. }
      div_lia.
    - rewrite (Z.mod_small v) by lia. div_lia. }
  destruct (v <? 0); [reflexivity|]. apply Z.shiftr_0_l.
Qed.

(** Division that rounds towards zero. *)
Definition rounded (n v o : Z) : Prop := Z.abs (v - 2 ^ n * o) <= 2 ^ n - 1 /\ 2 ^ n * Z.abs o <= Z.abs v.

Lemma div_by_2_26_ok v : Z.abs v <= 9223372036787666944 -> exists o, div_by_2_26 v = Some o /\ rounded 26 v o.
Proof.
  intros Hv. unfold div_by_2_26. cbv zeta. rewrite sign_mask by lia. change (Z.shiftr 4294967295 6) with 67108863.
  unfold rounded. destruct (Z.ltb_spec v 0) as [H|H].
  - rewrite i64_ok by lia. eexists. split; [reflexivity|]. rewrite Z.shiftr_div_pow2 by done. compute_powers. div_lia.
  - rewrite i64_ok by lia. eexists. split; [reflexivity|]. rewrite Z.shiftr_div_pow2 by done. compute_powers. div_lia.
Qed.
Lemma div_by_2_25_ok v : Z.abs v <= 9223372036787666944 -> exists o, div_by_2_25 v = Some o /\ rounded 25 v o.
Proof.
  intros Hv. unfold div_by_2_25. cbv zeta. rewrite sign_mask by lia. change (Z.shiftr 4294967295 7) with 33554431.
  unfold rounded. destruct (Z.ltb_spec v 0) as [H|H].
  - rewrite i64_ok by lia. eexists. split; [reflexivity|]. rewrite Z.shiftr_div_pow2 by done. compute_powers. div_lia.
  - rewrite i64_ok by lia. eexists. split; [reflexivity|]. rewrite Z.shiftr_div_pow2 by done. compute_powers. div_lia.
Qed.

(** Before the carry of limb [k]; [b] bounds what the carry of the limb below
    added to it. *)
Record carry_inv (k : nat) (t : list Z) (V : Z) : Prop := {
  ci_length : (11 <= length t)%nat;
  ci_done : forall j, (j < k)%nat -> Z.abs (limb_at t j) <= 2 ^ limb_bits j - 1;
  ci_here : Z.abs (limb_at t k) <= (if (k <? 10)%nat then degree_limb else 0) + 150860726272;
  ci_later : forall j, (k < j < 10)%nat -> Z.abs (limb_at t j) <= degree_limb;
  ci_top : (k < 10)%nat -> limb_at t 10 = 0;
  ci_value : limbs25 (take 11 t) = V
}.

Lemma carry_over_ok t i over n : 0 <= n ->
  Z.abs (limb_at t i) <= 5100000000000000000 -> 2 ^ n * Z.abs over <= Z.abs (limb_at t i) ->
  Z.abs (limb_at t i - 2 ^ n * over) <= 67108863 -> Z.abs (limb_at t (i + 1)) + Z.abs over <= 5100000000000000000 ->
  carry_over t i over n = Some (<[(i + 1)%nat := limb_at t (i + 1) + over]> (<[i := limb_at t i - 2 ^ n * over]> t)).
Proof.
  intros Hn H1 H2 H3 H4. unfold carry_over. rewrite Z.shiftl_mul_pow2, (Z.mul_comm over) by done.
  assert (0 < 2 ^ n) by lia. assert (Z.abs (2 ^ n * over) = 2 ^ n * Z.abs over) as E by (rewrite Z.abs_mul; lia).
  rewrite !i64_ok by lia. done.
Qed.

(** The value of the first eleven limbs is not changed. *)
Lemma carry_over_value t k over : (k < 10)%nat -> (11 <= length t)%nat ->
  limbs25 (take 11 (<[(k + 1)%nat := limb_at t (k + 1) + over]> (<[k := limb_at t k - 2 ^ limb_bits k * over]> t))) =
  limbs25 (take 11 t).
Proof.
  intros Hk Hl. rewrite !take_insert_lt by lia. unfold limbs25.
  assert (forall j, (j < 11)%nat -> limb_at (take 11 t) j = limb_at t j) as Ht.
  { intros j Hj. unfold limb_at. rewrite !nth_lookup. by rewrite lookup_take_lt. }
  rewrite !limbs_from_insert by (rewrite ?length_insert, length_take; lia).
  rewrite limb_at_insert by (rewrite length_take; lia). rewrite decide_False by lia. rewrite !Ht by lia.
  rewrite Nat.add_1_r, weight_S. cbn [Nat.add]. ring.
Qed.

(** One carry, in the bounds above. *)
Lemma carry_inv_step k t V over : carry_inv k t V -> (k < 10)%nat -> rounded (limb_bits k) (limb_at t k) over ->
  exists t', carry_over t k over (limb_bits k) = Some t' /\ carry_inv (S k) t' V.
Proof.
  intros [Hl Hd Hh Hn Ht Hv] Hk [R1 R2]. replace (k <? 10)%nat with true in Hh by (symmetry; by apply Nat.ltb_lt).
  assert (33554432 <= 2 ^ limb_bits k <= 67108864) as Hw by (unfold limb_bits; destruct (Nat.odd k); done).
  assert (Z.abs over <= 150860726272) as Ho by (unfold degree_limb in *; nia).
  assert (Z.abs (limb_at t (k + 1)) <= if (S k <? 10)%nat then degree_limb else 0) as Hnext.
  { destruct (Nat.ltb_spec (S k) 10) as [H|H]; [apply Hn; lia|]. replace (k + 1)%nat with 10%nat by lia. by rewrite Ht by lia. }
  assert (forall b : bool, (if b then degree_limb else 0) <= degree_limb) as Hif by (intros []; done).
  assert (Z.abs (limb_at t k) <= 5100000000000000000) as H51 by (unfold degree_limb in *; lia).
  pose proof (Hif (S k <? 10)%nat) as Hn51.
  rewrite carry_over_ok; [|unfold limb_bits; by destruct (Nat.odd k)|done|done|lia|unfold degree_limb in *; lia].
  eexists. split; [reflexivity|]. set (x := limb_at t k - _) in *. set (y := limb_at t (k + 1) + over).
  assert (forall j, limb_at (<[(k + 1)%nat := y]> (<[k := x]> t)) j =
    if decide (j = k + 1)%nat then y else if decide (j = k) then x else limb_at t j) as Hget.
  { intros j. rewrite !limb_at_insert by (rewrite ?length_insert; lia). repeat case_decide; try done; lia. }
  split.
  - rewrite !length_insert. done.
  - intros j Hj. rewrite Hget. rewrite decide_False by lia. case_decide as E; [subst j; exact R1|]. apply Hd. lia.
  - rewrite Hget. rewrite decide_True by lia. unfold y. lia.
  - intros j Hj. rewrite Hget. rewrite !decide_False by lia. apply Hn. lia.
  - intros Hk'. rewrite Hget. rewrite !decide_False by lia. by apply Ht.
  - rewrite <- Hv. by apply carry_over_value.
Qed.

Lemma rounded_even k : Nat.even k = true -> limb_bits k = 26.
Proof. unfold limb_bits. rewrite <- Nat.negb_even. by intros ->. Qed.
Lemma rounded_odd k : Nat.even k = true -> limb_bits (S k) = 25.
Proof. unfold limb_bits. rewrite Nat.odd_succ. by intros ->. Qed.

Lemma coefficients_step_ok k t V : Nat.even k = true -> (k <= 8)%nat -> carry_inv k t V ->
  exists t', coefficients_step t k = Some t' /\ carry_inv (S (S k)) t' V.
Proof.
  intros He Hk Hi. unfold coefficients_step.
  assert (forall k t, carry_inv k t V -> Z.abs (limb_at t k) <= 9223372036787666944) as Hb.
  { clear. intros k t [_ _ H _ _ _]. unfold degree_limb in H. destruct (k <? 10)%nat; lia. }
  destruct (div_by_2_26_ok _ (Hb _ _ Hi)) as (o & -> & Ho). rewrite <- (rounded_even k He) in Ho |- *.
  destruct (carry_inv_step k t V o Hi ltac:(lia) Ho) as (t1 & -> & H1). rewrite Nat.add_1_r.
  destruct (div_by_2_25_ok _ (Hb _ _ H1)) as (o' & -> & Ho'). rewrite <- (rounded_odd k He) in Ho' |- *.
  apply (carry_inv_step (S k) t1 V o' H1 ltac:(lia) Ho').
Qed.

Lemma limb_at_take n t j : (j < n)%nat -> limb_at (take n t) j = limb_at t j.
Proof. intros Hj. unfold limb_at. rewrite !nth_lookup. by rewrite lookup_take_lt. Qed.

Lemma limbs25_11 t : (11 <= length t)%nat -> limbs25 (take 11 t) = limbs25 (take 10 t) + 2 ^ 255 * limb_at t 10.
Proof.
  intros Hl. unfold limbs25. destruct (lookup_lt_is_Some_2 t 10) as [x Hx]; [lia|].
  rewrite (take_S_r t 10 x Hx), limbs_from_app. rewrite length_take, Nat.min_l by lia. f_equal.
  unfold limb_at. rewrite nth_lookup, Hx. cbn [limbs_from default]. change (weight 0 10) with (2 ^ 255). cbn. lia.
Qed.

Lemma bounded_take b t : (10 <= length t)%nat -> (forall j, (j < 10)%nat -> Z.abs (limb_at t j) <= b) -> bounded b (take 10 t).
Proof.
  intros Hl H. split; [rewrite length_take; lia|]. apply Forall_forall. intros x Hx.
  apply list_elem_of_lookup in Hx as [j Hj]. apply lookup_take_Some in Hj as [Hj Hlt]. specialize (H j Hlt).
  unfold limb_at in H. by rewrite nth_lookup, Hj in H.
Qed.

(** 2^26 - 1 *)
Definition tight_limb : Z := 67108863.

Lemma freduce_coefficients_ok t : (11 <= length t)%nat ->
  (forall j, (j < 10)%nat -> Z.abs (limb_at t j) <= degree_limb) ->
  exists t', freduce_coefficients t = Some t' /\ bounded tight_limb (take 10 t') /\
    limbs25 (take 10 t') ≡p limbs25 (take 10 t).
Proof.
  intros Hl Hb. unfold freduce_coefficients. cbv zeta. cbn [fold_checked].
  assert (carry_inv 0 (<[10%nat := 0]> t) (limbs25 (take 10 t))) as Hi.
  { split.
    - by rewrite length_insert.
    - intros j Hj. lia.
    - rewrite limb_at_insert by lia. cbn [decide Nat.ltb Nat.leb]. rewrite decide_False by lia.
      specialize (Hb 0%nat ltac:(lia)). unfold degree_limb in *. lia.
    - intros j Hj. rewrite limb_at_insert by lia. rewrite decide_False by lia. apply Hb. lia.
    - intros _. rewrite limb_at_insert by lia. by rewrite decide_True.
    - rewrite limbs25_11 by (by rewrite length_insert). rewrite limb_at_insert by lia. rewrite decide_True by done.
      rewrite take_insert_ge by lia. lia. }
  do 5 (edestruct coefficients_step_ok as (?t & -> & Hi'); [| |exact Hi|]; [done|lia|]; clear Hi; rename Hi' into Hi).
  destruct Hi as [Hl4 Hd Hh _ _ Hv]. rewrite limbs25_11 in Hv by done.
  cbn [Nat.ltb Nat.leb] in Hh. pose proof (Hd 0%nat ltac:(lia)) as H0. change (2 ^ limb_bits 0 - 1) with 67108863 in H0.
  rewrite (add_19_ok _ 0 10 67108863 150860726272) by (done || lia). set (t5 := <[0%nat := _]> _).
  assert (forall j, limb_at (<[10%nat := 0]> t5) j =
    if decide (j = 10)%nat then 0 else if decide (j = 0)%nat then limb_at t4 0 + 19 * limb_at t4 10 else limb_at t4 j) as Hget.
  { intros j. unfold t5. rewrite !limb_at_insert by (rewrite ?length_insert; lia). repeat case_decide; try done; lia. }
  assert (11 <= length (<[10%nat := 0%Z]> t5))%nat as Hl5 by (unfold t5; by rewrite !length_insert).
  assert (limbs25 (take 10 (<[10%nat := 0]> t5)) ≡p limbs25 (take 10 t)) as Hv5.
  { rewrite take_insert_ge by lia. unfold t5. rewrite take_insert_lt by lia. unfold limbs25 at 1.
    rewrite limbs_from_insert by (rewrite length_take; lia). rewrite limb_at_take by lia. cbn [weight].
    fold (limbs25 (take 10 t4)). rewrite <- Hv. apply (eq_mod_multiple _ _ (- limb_at t4 10)). unfold P25519. ring. }
  pose proof (Hget 0%nat) as Hg0. rewrite decide_False, decide_True in Hg0 by lia.
  pose proof (Hget 1%nat) as Hg1. rewrite !decide_False in Hg1 by lia.
  assert (Z.abs (limb_at (<[10%nat := 0]> t5) 0) <= 2866420908031) as H05 by (rewrite Hg0; lia).
  assert (Z.abs (limb_at (<[10%nat := 0]> t5) 1) <= 33554431) as H15.
  { rewrite Hg1. specialize (Hd 1%nat ltac:(lia)). by change (2 ^ limb_bits 1 - 1) with 33554431 in Hd. }
  assert (limb_at (<[10%nat := 0]> t5) 10 = 0) as Hg10 by (rewrite Hget; by rewrite decide_True).
  revert Hl5 Hv5 Hg10 H05 H15. assert (forall j, (2 <= j < 10)%nat -> Z.abs (limb_at (<[10%nat := 0]> t5) j) <= 67108863) as Hj.
  { intros j Hj. rewrite Hget, !decide_False by lia. specialize (Hd j ltac:(lia)).
    unfold limb_bits in Hd. destruct (Nat.odd j); cbn in Hd; lia. }
  revert Hj. generalize (<[10%nat := 0]> t5). clear. intros u Hj Hl Hv H10 H0 H1.
  destruct (div_by_2_26_ok (limb_at u 0)) as (o & -> & [R1 R2]); [lia|]. change (2 ^ 26) with 67108864 in R1, R2.
  rewrite carry_over_ok by (change (2 ^ 26) with 67108864; cbn [Nat.add]; lia).
  eexists. split; [reflexivity|]. split.
  - apply bounded_take; [rewrite !length_insert; lia|]. intros j Hj'. rewrite !limb_at_insert by (rewrite ?length_insert; lia).
    unfold tight_limb. change (2 ^ 26) with 67108864. cbn [Nat.add]. repeat case_decide; try lia. apply Hj. lia.
  - rewrite <- Hv. pose proof (carry_over_value u 0 o ltac:(lia) Hl) as Hc. change (2 ^ limb_bits 0) with (2 ^ 26) in Hc.
    rewrite !limbs25_11 in Hc by (rewrite ?length_insert; done). rewrite !limb_at_insert in Hc by (rewrite ?length_insert; lia).
    rewrite !decide_False in Hc by lia. apply Z.add_cancel_r in Hc. by rewrite Hc.
Qed.

(** ** Field operations *)

Lemma freduce_ok t : length t = 19%nat -> Forall (fun x => Z.abs x <= product_limb) t ->
  exists r, freduce t = Some r /\ bounded tight_limb r /\ limbs25 r ≡p limbs25 t.
Proof.
  intros Hl Ht. unfold freduce. destruct (freduce_degree_ok t Hl Ht) as (t1 & -> & Hl1 & Hb & Hv).
  destruct (freduce_coefficients_ok t1) as (t2 & -> & Hb2 & Hv2); [lia|done|].
  exists (take 10 t2). split; [done|]. split; [done|]. by rewrite Hv2.
Qed.

Lemma products_checked : products_ok fproduct_limbs = true /\ products_ok fsquare_limbs = true.
Proof. by vm_compute. Qed.

(** A product before its reduction. *)
Definition long_product (t : list Z) (v : Z) : Prop :=
  length t = 19%nat /\ Forall (fun x => Z.abs x <= product_limb) t /\ limbs25 t = v.

Lemma fproduct_ok a b : bounded wide_limb a -> bounded wide_limb b ->
  exists t, fproduct a b = Some t /\ long_product t (limbs25 a * limbs25 b).
Proof.
  intros Ha Hb. destruct (eval_all_ok a b fproduct_limbs Ha Hb (proj1 products_checked)) as [E H].
  eexists. split; [exact E|]. split; [done|]. split; [exact H|]. apply product_value; [apply Ha|apply Hb].
Qed.

Lemma fsquare_inner_ok a : bounded wide_limb a ->
  exists t, fsquare_inner a = Some t /\ long_product t (limbs25 a * limbs25 a).
Proof.
  intros Ha. destruct (eval_all_ok a a fsquare_limbs Ha Ha (proj2 products_checked)) as [E H].
  eexists. split; [exact E|]. split; [done|]. split; [exact H|]. apply square_value, Ha.
Qed.

Lemma long_freduce t v : long_product t v -> exists r, freduce t = Some r /\ bounded tight_limb r /\ limbs25 r ≡p v.
Proof. intros (Hl & Ht & <-). by apply freduce_ok. Qed.

Lemma fmul_ok a b : bounded wide_limb a -> bounded wide_limb b ->
  exists r, fmul a b = Some r /\ bounded tight_limb r /\ limbs25 r ≡p limbs25 a * limbs25 b.
Proof.
  intros Ha Hb. unfold fmul. destruct (fproduct_ok a b Ha Hb) as (t & -> & Ht). by apply long_freduce.
Qed.

Lemma fsquare_ok a : bounded wide_limb a ->
  exists r, fsquare a = Some r /\ bounded tight_limb r /\ limbs25 r ≡p limbs25 a * limbs25 a.
Proof.
  intros Ha. unfold fsquare. destruct (fsquare_inner_ok a Ha) as (t & -> & Ht). by apply long_freduce.
Qed.

Lemma map2_checked_ok f g A B C : (forall x y, Z.abs x <= A -> Z.abs y <= B -> Z.abs (f x y) <= C) ->
  C <= 9223372036854775807 -> forall a b k, Forall (fun x => Z.abs x <= A) a -> Forall (fun x => Z.abs x <= B) b ->
  length a = length b -> (forall x y, f x y = g * x + (f 0 1) * y) -> 
  exists r, map2_checked f a b = Some r /\ length r = length a /\ Forall (fun x => Z.abs x <= C) r /\
    limbs_from k r = g * limbs_from k a + f 0 1 * limbs_from k b.
Proof.
  intros Hf HC a. induction a as [|x a IH]; intros [|y b] k Ha Hb Hl Hg; try done.
  { exists []. split; [done|]. split; [done|]. split; [done|]. cbn. lia. }
  apply Forall_cons in Ha as [Hx Ha]. apply Forall_cons in Hb as [Hy Hb]. injection Hl as Hl. cbn [map2_checked].
  specialize (Hf x y Hx Hy). rewrite i64_ok by lia.
  destruct (IH b (S k) Ha Hb Hl Hg) as (r & -> & Lr & Hr & Vr). exists (f x y :: r).
  split; [done|]. split; [cbn; lia|]. split; [by constructor|]. cbn [limbs_from]. rewrite Vr, Hg. ring.
Qed.

Lemma fsum_ok a b A B : bounded A a -> bounded B b -> A + B <= 9223372036854775807 ->
  exists r, fsum a b = Some r /\ bounded (A + B) r /\ limbs25 r = limbs25 a + limbs25 b.
Proof.
  intros [La Ha] [Lb Hb] H. destruct (map2_checked_ok Z.add 1 A B (A + B)) with (a := a) (b := b) (k := 0%nat)
    as (r & E & Lr & Hr & Vr); try done; [intros; lia|congruence|intros; ring|].
  exists r. split; [done|]. split; [split; [congruence|done]|]. unfold limbs25. rewrite Vr. ring.
Qed.

(** The second argument minus the first. *)
Lemma fdifference_ok a b A B : bounded A a -> bounded B b -> A + B <= 9223372036854775807 ->
  exists r, fdifference a b = Some r /\ bounded (A + B) r /\ limbs25 r = limbs25 b - limbs25 a.
Proof.
  intros [La Ha] [Lb Hb] H. destruct (map2_checked_ok (fun o i => i - o) (-1) A B (A + B)) with (a := a) (b := b) (k := 0%nat)
    as (r & E & Lr & Hr & Vr); try done; [intros; lia|congruence|intros; ring|].
  exists r. split; [done|]. split; [split; [congruence|done]|]. unfold limbs25. rewrite Vr. ring.
Qed.

Lemma fscalar_product_ok a s A : bounded A a -> 0 <= s -> A * s <= 9223372036854775807 ->
  exists r, fscalar_product a s = Some r /\ bounded (A * s) r /\ limbs25 r = limbs25 a * s.
Proof.
  intros [La Ha] Hs H. destruct (map2_checked_ok (fun x _ => x * s) s A A (A * s)) with (a := a) (b := a) (k := 0%nat)
    as (r & E & Lr & Hr & Vr); try done; [intros; rewrite Z.mul_comm, (Z.mul_comm A); by apply abs_scale_le|intros; ring|].
  exists r. split; [done|]. split; [split; [congruence|done]|]. unfold limbs25. rewrite Vr. ring.
Qed.
