(* ===== verification/LadderProofs.v ===== *)
(** curve25519-donna.c computes the Montgomery ladder: the arrays of limbs
    stand for residues, [fmonty] is the step of the ladder, [crecip] the
    inverse, and [cmult] the ladder over the bits of the scalar. *)
From stdpp Require Import base list.
From Stdlib Require Import ZArith Lia Zmod.
From S2P Require Import Prelude MachineInt FieldElement FieldProofs FieldEncoding Scalar ScalarProofs Donna DonnaProofs.
From S2P Require Import Edwards Coordinates Montgomery Ed25519.
#[local] Open Scope Z_scope.
#[local] Open Scope field_scope.
#[local] Open Scope curve_scope.

(** ** Arrays of limbs as residues *)

Definition is_limbs (b : Z) (l : list Z) (x : F) : Prop := bounded b l /\ fz (limbs25 l) = x.
Definition is_long (t : list Z) (x : F) : Prop := exists v, long_product t v /\ fz v = x.

Lemma is_limbs_weaken a b l x : (a <= b)%Z -> is_limbs a l x -> is_limbs b l x.
Proof. intros H [Hb Hx]. split; [by eapply bounded_weaken|done]. Qed.
Lemma is_limbs_wide b l x : (b <= wide_limb)%Z -> is_limbs b l x -> bounded wide_limb l.
Proof. intros H [Hb _]. by eapply bounded_weaken. Qed.

Lemma sum_limbs m n a b x y : (m + n <= wide_limb)%Z -> is_limbs m a x -> is_limbs n b y ->
  exists r, fsum a b = Some r /\ is_limbs (m + n) r (x + y).
Proof.
  unfold wide_limb. intros Hmn [Ha <-] [Hb <-]. destruct (fsum_ok a b m n Ha Hb) as (r & E & Hr & V); [lia|].
  exists r. split; [done|]. split; [done|]. rewrite V. apply fz_add.
Qed.
Lemma difference_limbs m n a b x y : (m + n <= wide_limb)%Z -> is_limbs m a x -> is_limbs n b y ->
  exists r, fdifference a b = Some r /\ is_limbs (m + n) r (y - x).
Proof.
  unfold wide_limb. intros Hmn [Ha <-] [Hb <-]. destruct (fdifference_ok a b m n Ha Hb) as (r & E & Hr & V); [lia|].
  exists r. split; [done|]. split; [done|]. rewrite V. apply fz_sub.
Qed.
Lemma product_limbs m n a b x y : (m <= wide_limb)%Z -> (n <= wide_limb)%Z -> is_limbs m a x -> is_limbs n b y ->
  exists r, fproduct a b = Some r /\ is_long r (x * y).
Proof.
  intros Hm Hn Ha Hb. destruct (fproduct_ok a b (is_limbs_wide _ _ _ Hm Ha) (is_limbs_wide _ _ _ Hn Hb)) as (r & E & Hr).
  exists r. split; [done|]. eexists. split; [exact Hr|]. rewrite fz_mul. by rewrite (proj2 Ha), (proj2 Hb).
Qed.
Lemma reduce_limbs t x : is_long t x -> exists r, freduce t = Some r /\ is_limbs tight_limb r x.
Proof.
  intros (v & Ht & <-). destruct (long_freduce t v Ht) as (r & E & Hr & V). exists r. split; [done|]. split; [done|].
  by apply fz_eq.
Qed.
Lemma mul_limbs m n a b x y : (m <= wide_limb)%Z -> (n <= wide_limb)%Z -> is_limbs m a x -> is_limbs n b y ->
  exists r, Donna.fmul a b = Some r /\ is_limbs tight_limb r (x * y).
Proof.
  intros Hm Hn Ha Hb. unfold Donna.fmul. destruct (product_limbs m n a b x y Hm Hn Ha Hb) as (t & -> & Ht). by apply reduce_limbs.
Qed.
Lemma square_limbs m a x : (m <= wide_limb)%Z -> is_limbs m a x ->
  exists r, fsquare a = Some r /\ is_limbs tight_limb r (x * x).
Proof.
  intros Hm Ha. destruct (fsquare_ok a (is_limbs_wide _ _ _ Hm Ha)) as (r & E & Hr & V).
  exists r. split; [done|]. split; [done|]. apply fz_eq in V. rewrite V, fz_mul. by rewrite (proj2 Ha).
Qed.

(** The product with 121665, reduced without a reduction of the degree. *)
Lemma scalar_limbs m a x : (m <= wide_limb)%Z -> is_limbs m a x ->
  exists t r, fscalar_product a 121665 = Some t /\ freduce_coefficients (t ++ replicate 9 0%Z) = Some r /\
    is_limbs tight_limb (take 10 r) (fz 121665 * x).
Proof.
  intros Hm [Ha <-]. destruct (fscalar_product_ok a 121665 wide_limb) as (t & E & [Lt Ht] & V);
    [by eapply bounded_weaken|done|done|].
  destruct (freduce_coefficients_ok (t ++ replicate 9 0%Z)) as (r & E' & Hb & V').
  { rewrite length_app, Lt. cbn. lia. }
  { intros j Hj. unfold limb_at. rewrite app_nth1 by lia. eapply Z.le_trans; [by apply (limb_at_bound (wide_limb * 121665))|done]. }
  exists t, r. split; [done|]. split; [done|]. split; [done|]. rewrite take_app_le in V' by lia. rewrite (take_ge t) in V' by lia.
  apply fz_eq in V'. rewrite V', V, Z.mul_comm. apply fz_mul.
Qed.

(** Run the next operation on limbs. *)
Ltac limbs_step :=
  let r := fresh "r" in let E := fresh "E" in let H := fresh "H" in
  lazymatch goal with
  | |- exists o, match ?op with Some _ => _ | None => None end = Some o /\ _ =>
      lazymatch op with
      | fsum ?a ?b => lazymatch goal with Ha : is_limbs ?m a _ |- _ => lazymatch goal with Hb : is_limbs ?n b _ |- _ =>
          destruct (sum_limbs m n a b _ _ ltac:(done) Ha Hb) as (r & E & H) end end
      | fdifference ?a ?b => lazymatch goal with Ha : is_limbs ?m a _ |- _ => lazymatch goal with Hb : is_limbs ?n b _ |- _ =>
          destruct (difference_limbs m n a b _ _ ltac:(done) Ha Hb) as (r & E & H) end end
      | fproduct ?a ?b => lazymatch goal with Ha : is_limbs ?m a _ |- _ => lazymatch goal with Hb : is_limbs ?n b _ |- _ =>
          destruct (product_limbs m n a b _ _ ltac:(done) ltac:(done) Ha Hb) as (r & E & H) end end
      | Donna.fmul ?a ?b => lazymatch goal with Ha : is_limbs ?m a _ |- _ => lazymatch goal with Hb : is_limbs ?n b _ |- _ =>
          destruct (mul_limbs m n a b _ _ ltac:(done) ltac:(done) Ha Hb) as (r & E & H) end end
      | fsquare ?a => lazymatch goal with Ha : is_limbs ?m a _ |- _ =>
          destruct (square_limbs m a _ ltac:(done) Ha) as (r & E & H) end
      | freduce ?t => lazymatch goal with Ht : is_long t _ |- _ => destruct (reduce_limbs t _ Ht) as (r & E & H) end
      end; refine (chk_step _ _ _ _ E _); clear E; cbv beta
  end.

(** ** The step of the ladder *)

Definition rep_ladder (l : ladder) (q : F * F * F * F) : Prop :=
  let '(x, z, x', z') := q in
  is_limbs tight_limb (l_x l) x /\ is_limbs tight_limb (l_z l) z /\
  is_limbs tight_limb (l_xprime l) x' /\ is_limbs tight_limb (l_zprime l) z'.

Definition a24 : F := fz 121665.

Lemma fmonty_ok l st qmqp q : rep_ladder l st -> is_limbs tight_limb qmqp q ->
  exists l', fmonty l qmqp = Some l' /\ rep_ladder l' (monty a24 q st).
Proof.
  destruct l as [lx lz lx' lz'], st as [[[x z] x'] z']. intros (Hx & Hz & Hx' & Hz') Hq. cbn [l_x l_z l_xprime l_zprime] in *.
  unfold fmonty. cbv zeta. do 19 limbs_step.
  match goal with H : is_limbs ?m ?e ?x |- exists o, match fscalar_product ?e _ with Some _ => _ | None => _ end = _ /\ _ =>
    destruct (scalar_limbs m e x ltac:(done) H) as (t & u & Et & Eu & Hu) end.
  rewrite Et, Eu. do 3 limbs_step. eexists. split; [reflexivity|].
  unfold rep_ladder, monty, double_x, double_z, add_x, add_z. cbv zeta. cbn [l_x l_z l_xprime l_zprime].
  refine (conj _ (conj _ (conj _ _))); assumption.
Qed.

Lemma a24_ok : (a24 + 1) * curve_d = - a24.
Proof. apply Zmod.unsigned_inj. by vm_compute. Qed.

(** ** The swap *)

Lemma swap_conditional_ok b l l' : bounded tight_limb l -> bounded tight_limb l' ->
  swap_conditional l l' (Z.b2z b) = if b then (l', l) else (l, l').
Proof.
  intros [Hl Ha] [Hl' Hb]. rewrite <- Hl' in Hl. clear Hl'. revert l' Hl Hb.
  induction Ha as [|x l Hx Ha IH]; intros [|y l'] Hl Hb; try done; [by destruct b|].
  apply Forall_cons in Hb as [Hy Hb]. injection Hl as Hl. cbn [swap_conditional]. rewrite (IH l' Hl Hb).
  unfold tight_limb in *. rewrite (s32_id x), (s32_id y) by lia. destruct b; cbn [Z.b2z].
  - change (s32 (-1)) with (-1)%Z. rewrite Z.land_m1_l. f_equal; f_equal.
    + by rewrite <- Z.lxor_assoc, Z.lxor_nilpotent, Z.lxor_0_l.
    + rewrite (Z.lxor_comm x y). by rewrite <- Z.lxor_assoc, Z.lxor_nilpotent, Z.lxor_0_l.
  - change (s32 (- 0)) with 0%Z. rewrite Z.land_0_l. by rewrite !Z.lxor_0_r.
Qed.

Lemma swap_ladder_ok b l st : rep_ladder l st -> rep_ladder (swap_ladder l (Z.b2z b)) (swap b st).
Proof.
  destruct l as [lx lz lx' lz'], st as [[[x z] x'] z']. intros (Hx & Hz & Hx' & Hz'). cbn [l_x l_z l_xprime l_zprime] in *.
  unfold swap_ladder. cbn [l_x l_z l_xprime l_zprime].
  rewrite (swap_conditional_ok b lx lx' (proj1 Hx) (proj1 Hx')), (swap_conditional_ok b lz lz' (proj1 Hz) (proj1 Hz')).
  destruct b; cbn [swap rep_ladder l_x l_z l_xprime l_zprime]; refine (conj _ (conj _ (conj _ _))); assumption.
Qed.

(** ** The ladder *)

Lemma cmult_bit_ok q u l st b : is_limbs tight_limb q u -> rep_ladder l st ->
  exists l', cmult_bit q l (Z.b2z b) = Some l' /\ rep_ladder l' (ladder_bit a24 u st b).
Proof.
  intros Hq Hl. unfold cmult_bit. cbv zeta. apply (swap_ladder_ok b) in Hl.
  destruct (fmonty_ok _ _ q u Hl Hq) as (l' & -> & Hl'). eexists. split; [reflexivity|]. by apply swap_ladder_ok.
Qed.

(** ** The loops over the bits of the scalar *)

(** The bits of an octet, the highest first. *)
Definition byte_bits (x : Z) : list bool := map (Z.testbit x) [7; 6; 5; 4; 3; 2; 1; 0]%Z.
Definition scalar_bits (n : bytes) : list bool := flat_map byte_bits (rev n).

Lemma bits_val_app a b : bits_val (a ++ b) = (2 ^ Z.of_nat (length b) * bits_val a + bits_val b)%Z.
Proof.
  induction b as [|x b IH] using rev_ind; [rewrite app_nil_r; change (bits_val []) with 0%Z; cbn [length]; lia|].
  rewrite app_assoc. unfold bits_val in *. rewrite (fold_left_app _ (a ++ b)), (fold_left_app _ b). cbn [fold_left]. rewrite IH, length_app.
  change (length [x]) with 1%nat. rewrite Nat.add_1_r, Nat2Z.inj_succ, Z.pow_succ_r by lia. lia.
Qed.

Lemma byte_bits_val x : is_u8 x -> bits_val (byte_bits x) = x.
Proof.
  intros Hx. assert (forallb (fun x => (bits_val (byte_bits x) =? x)%Z) (map Z.of_nat (seq 0 256)) = true) as H by (vm_compute; reflexivity).
  rewrite forallb_forall in H. apply Z.eqb_eq, H, in_map_iff. exists (Z.to_nat x). unfold is_u8 in Hx. split; [lia|]. apply in_seq. lia.
Qed.

Lemma scalar_bits_val n : Forall is_u8 n -> bits_val (scalar_bits n) = le_val n.
Proof.
  induction 1 as [|x n Hx Hn IH]; [done|]. unfold scalar_bits in *. cbn [rev]. rewrite flat_map_app, bits_val_app, IH.
  cbn [flat_map]. rewrite app_nil_r, byte_bits_val by done. change (Z.of_nat (length (byte_bits x))) with 8%Z.
  change (2 ^ 8)%Z with 256%Z. cbn [le_val]. lia.
Qed.

(** The next bit and the octet that is left. *)
Lemma next_bit x : is_u8 x -> Z.shiftr x 7 = Z.b2z (Z.testbit x 7) /\ is_u8 (u8 (Z.shiftl x 1)) /\
  forall i, (1 <= i <= 7)%Z -> Z.testbit (u8 (Z.shiftl x 1)) i = Z.testbit x (i - 1).
Proof.
  unfold is_u8. intros Hx. split; [|split].
  - rewrite Z.testbit_spec' by done. rewrite Z.shiftr_div_pow2 by done. symmetry. apply Z.mod_small.
    change (2 ^ 7)%Z with 128%Z. split; [apply Z.div_pos; lia|apply Z.div_lt_upper_bound; lia].
  - unfold u8. apply Z.mod_pos_bound. lia.
  - intros i Hi. unfold u8. change 256%Z with (2 ^ 8)%Z. rewrite Z.mod_pow2_bits_low by lia. rewrite Z.shiftl_spec by lia. done.
Qed.

Lemma cmult_byte_ok q u k : is_limbs tight_limb q u -> (k <= 8)%nat -> forall x l st, is_u8 x -> rep_ladder l st ->
  exists l', cmult_byte k q l x = Some l' /\
    rep_ladder l' (fold_left (ladder_bit a24 u) (map (fun i => Z.testbit x (7 - Z.of_nat i)) (seq 0 k)) st).
Proof.
  intros Hq. induction k as [|k IH]; intros Hk x l st Hx Hl; [by exists l|]. cbn [cmult_byte].
  destruct (next_bit x Hx) as (-> & Hx' & Hi). destruct (cmult_bit_ok q u l st (Z.testbit x 7) Hq Hl) as (l1 & -> & H1).
  destruct (IH ltac:(lia) _ l1 _ Hx' H1) as (l2 & -> & H2). exists l2. split; [done|].
  cbn [seq map fold_left]. rewrite <- seq_shift, map_map. change (7 - Z.of_nat 0)%Z with 7%Z.
  erewrite map_ext_in; [exact H2|]. intros i Hin. apply in_seq in Hin. cbv beta. rewrite Hi by lia. f_equal. lia.
Qed.

Lemma octets_downwards n : length n = 32%nat -> map (fun i => byte_at n (31 - i)) (seq 0 32) = rev n.
Proof. intros Hn. do 32 (destruct n as [|? n]; [discriminate Hn|]). destruct n; [reflexivity|discriminate Hn]. Qed.

Lemma cmult_ok n q u : length n = 32%nat -> Forall is_u8 n -> is_limbs tight_limb q u ->
  exists x z X Z, cmult n q = Some (x, z) /\ is_limbs tight_limb x X /\ is_limbs tight_limb z Z /\
    X * finv Z = x25519 a24 u (scalar_bits n).
Proof.
  intros Hn Hu Hq. unfold cmult. cbv zeta.
  assert (rep_ladder (Ladder (limbs_of 1) (limbs_of 0) (take 10 q) (limbs_of 1)) (1, 0, u, 1)) as H0.
  { rewrite take_ge by (destruct Hq as [[-> _] _]; lia).
    refine (conj _ (conj _ (conj _ _))); cbn [l_x l_z l_xprime l_zprime]; try assumption.
    all: split; [split; [reflexivity|apply (bool_decide_unpack _); by vm_compute]|].
    all: change (limbs25 (limbs_of 1)) with 1%Z; change (limbs25 (limbs_of 0)) with 0%Z; first [exact fz_1|exact fz_0]. }
  assert (forall idx l st, rep_ladder l st -> exists l',
    fold_checked (fun l i => cmult_byte 8 q l (byte_at n (31 - i))) l idx = Some l' /\
    rep_ladder l' (fold_left (ladder_bit a24 u) (flat_map byte_bits (map (fun i => byte_at n (31 - i)) idx)) st)) as Hloop.
  { induction idx as [|i idx IH]; intros l st Hl; [by exists l|]. cbn [fold_checked map flat_map].
    destruct (cmult_byte_ok q u 8 Hq ltac:(lia) (byte_at n (31 - i)) l st (byte_at_ok _ _ Hu) Hl) as (l1 & -> & H1).
    destruct (IH l1 _ H1) as (l2 & -> & H2). exists l2. split; [done|]. by rewrite fold_left_app. }
  destruct (Hloop (seq 0 32) _ _ H0) as (l & -> & Hl).
  rewrite (octets_downwards n Hn) in Hl. fold (scalar_bits n) in Hl. unfold x25519.
  destruct (fold_left _ (scalar_bits n) _) as [[[X Z] X'] Z']. destruct Hl as (HX & HZ & _).
  exists (l_x l), (l_z l), X, Z. done.
Qed.

(** ** The inverse *)

Section Powers.
Context (z : list Z).

(** [l] is a power of [z]. *)
Definition limbs_power (l : list Z) (e : Z) : Prop :=
  (0 <= e)%Z /\ bounded tight_limb l /\ (limbs25 l ≡p limbs25 z ^ e)%Z.

Lemma limbs_power_wide l e : limbs_power l e -> bounded wide_limb l.
Proof. intros (_ & H & _). by eapply bounded_weaken; [|exact H]. Qed.

Lemma limbs_power_mul x y a b : limbs_power x a -> limbs_power y b ->
  exists t, Donna.fmul x y = Some t /\ limbs_power t (a + b).
Proof.
  intros Hx Hy. destruct (DonnaProofs.fmul_ok x y (limbs_power_wide _ _ Hx) (limbs_power_wide _ _ Hy)) as (t & E & Ht & Hv).
  destruct Hx as (Ha & _ & Hx), Hy as (Hb & _ & Hy). exists t. split; [done|]. split; [lia|]. split; [done|].
  by rewrite Hv, Hx, Hy, Z.pow_add_r.
Qed.

Lemma limbs_power_square x a : limbs_power x a -> exists t, fsquare x = Some t /\ limbs_power t (2 * a).
Proof.
  intros Hx. destruct (fsquare_ok x (limbs_power_wide _ _ Hx)) as (t & E & Ht & Hv).
  destruct Hx as (Ha & _ & Hx). exists t. split; [done|]. split; [lia|]. split; [done|].
  rewrite Hv, Hx, <- Z.pow_add_r by lia. by rewrite Z.add_diag.
Qed.

Lemma limbs_power_squares n : forall x a, limbs_power x a ->
  exists t, fsquare_n n x = Some t /\ limbs_power t (2 ^ Z.of_nat n * a).
Proof.
  induction n as [|n IH]; intros x a H.
  { exists x. split; [done|]. by rewrite Z.mul_1_l. }
  destruct (limbs_power_square x a H) as (t & E & Ht). destruct (IH t _ Ht) as (t' & E' & Ht').
  exists t'. cbn [fsquare_n]. rewrite E. split; [done|].
  rewrite Nat2Z.inj_succ, Z.pow_succ_r by lia. by replace (2 * 2 ^ Z.of_nat n * a)%Z with (2 ^ Z.of_nat n * (2 * a))%Z by lia.
Qed.
End Powers.

(** Run the next operation of [crecip], computing the exponent. *)
Ltac recip_step :=
  let t := fresh "t" in let E := fresh "E" in let H := fresh "H" in
  lazymatch goal with
  | |- exists r, match ?op with Some _ => _ | None => None end = Some r /\ _ =>
      lazymatch op with
      | fsquare ?x => match goal with Hx : limbs_power ?z x _ |- _ => destruct (limbs_power_square z x _ Hx) as (t & E & H) end
      | fsquare_n ?n ?x => match goal with Hx : limbs_power ?z x _ |- _ => destruct (limbs_power_squares z n x _ Hx) as (t & E & H) end
      | Donna.fmul ?x ?y => match goal with Hx : limbs_power ?z x _, Hy : limbs_power ?z y _ |- _ =>
                              destruct (limbs_power_mul z x y _ _ Hx Hy) as (t & E & H) end
      end;
      lazymatch type of H with limbs_power ?z ?x ?e => let v := eval vm_compute in e in change (limbs_power z x v) in H end;
      refine (chk_step _ _ _ _ E _); clear E; cbv beta
  end.

Lemma crecip_ok l x : is_limbs tight_limb l x -> exists r, crecip l = Some r /\ is_limbs tight_limb r (finv x).
Proof.
  intros [Hb <-]. assert (exists r, crecip l = Some r /\ limbs_power l r (P25519 - 2)) as (r & E & _ & Hr & Hv).
  { assert (limbs_power l l 1) as H1 by (split; [done|]; split; [done|]; by rewrite Z.pow_1_r).
    unfold crecip. do 22 recip_step.
    match goal with |- exists r, Donna.fmul ?x ?y = Some r /\ _ =>
      match goal with Hx : limbs_power l x _, Hy : limbs_power l y _ |- _ => exact (limbs_power_mul l x y _ _ Hx Hy) end end. }
  exists r. split; [done|]. split; [done|]. rewrite finv_pow. apply fz_eq in Hv. rewrite Hv. by apply fz_pow.
Qed.
