(* ===== verification/DonnaEncoding.v ===== *)
(** The encoding of curve25519-donna.c: [fexpand] reads 255 bits as limbs, and
    [fcontract] writes the canonical representative of a residue, without
    overflow. *)
From stdpp Require Import base list.
From Stdlib Require Import ZArith Lia.
From S2P Require Import Prelude MachineInt FieldElement FieldProofs FieldEncoding Scalar ScalarProofs PointEncoding Donna DonnaProofs.
#[local] Open Scope Z_scope.
#[local] Open Scope checked_scope.
#[local] Open Scope field_scope.

(** ** Digits *)

(** The digits of [v], the first of the width of limb [k]. *)
Fixpoint digits25 (k n : nat) (v : Z) : list Z :=
  match n with
  | O => []
  | S n' => v mod 2 ^ limb_bits k :: digits25 (S k) n' (v / 2 ^ limb_bits k)
  end.

Lemma limb_bits_pos k : 0 < 2 ^ limb_bits k.
Proof. unfold limb_bits. by destruct (Nat.odd k). Qed.
Lemma weight_pos k i : 0 < weight k i.
Proof. revert k. induction i as [|i IH]; intros k; cbn [weight]; [lia|]. apply Z.mul_pos_pos; [apply limb_bits_pos|apply IH]. Qed.

Lemma digits25_val k n v : limbs_from k (digits25 k n v) = v mod weight k n.
Proof.
  revert k v. induction n as [|n IH]; intros k v; cbn [digits25 limbs_from weight]; [by rewrite Z.mod_1_r|].
  rewrite IH, Z.rem_mul_r; [done|pose proof (limb_bits_pos k); lia|apply weight_pos].
Qed.

(** ** Reading octets *)

Lemma fexpand_limb_ok s i r n v : Forall is_u8 s -> (i + 4 <= length s)%nat -> 0 <= r -> 0 <= n -> n + r <= 32 ->
  v = le_val s / 2 ^ (8 * Z.of_nat i + r) -> fexpand_limb s i r (Z.ones n) = v mod 2 ^ n.
Proof.
  intros Hs Hi Hr Hn Hw ->. unfold fexpand_limb. rewrite load_4_bits by done.
  replace (256 ^ Z.of_nat i) with (2 ^ (8 * Z.of_nat i)) by (rewrite Z.pow_mul_r by lia; done).
  rewrite Z.land_comm. apply bits_of_bits; lia.
Qed.

Lemma fexpand_digits s : length s = 32%nat -> Forall is_u8 s -> fexpand s = digits25 0 10 (le_val s).
Proof.
  intros Hl Hs. unfold fexpand, digits25. change 67108863 with (Z.ones 26). change 33554431 with (Z.ones 25).
  cbn [limb_bits Nat.odd Nat.even negb].
  repeat (apply f_equal2; [apply fexpand_limb_ok; try done; try lia|]); [..|done].
  all: rewrite ?Z.div_div by done; try reflexivity.
  by rewrite Z.div_1_r.
Qed.

(** ** Borrows *)

(** Ten limbs between given bounds, with a given value. *)
Record limbs_in (lo : nat -> Z) (l : list Z) (V : Z) : Prop := {
  li_length : length l = 10%nat;
  li_lower : forall j, (j < 10)%nat -> lo j <= limb_at l j;
  li_upper : forall j, (j < 10)%nat -> limb_at l j <= tight_limb;
  li_value : limbs25 l ≡p V
}.

Lemma limb_bits_cases i : limb_bits i = 26 /\ 2 ^ limb_bits i = 67108864 \/ limb_bits i = 25 /\ 2 ^ limb_bits i = 33554432.
Proof. unfold limb_bits. destruct (Nat.odd i); [by right|by left]. Qed.

Lemma sign_shift x : Z.abs x <= 2147483647 -> Z.shiftr x 31 = if x <? 0 then -1 else 0.
Proof. intros H. rewrite Z.shiftr_div_pow2 by lia. change (2 ^ 31) with 2147483648. destruct (Z.ltb_spec x 0); div_lia. Qed.

(** What is borrowed: nothing for a limb that is not negative. *)
Definition borrowed (i : nat) (x : Z) : Z := if x <? 0 then - (x / 2 ^ limb_bits i) else 0.

Lemma borrowed_ok i x : 0 <= borrowed i x /\ (0 <= x -> borrowed i x = 0) /\
  (x < 0 -> 0 <= x + 2 ^ limb_bits i * borrowed i x < 2 ^ limb_bits i).
Proof.
  unfold borrowed. pose proof (limb_bits_pos i). destruct (Z.ltb_spec x 0).
  - split; [|split; [lia|intros _]].
    + pose proof (Z.div_lt_upper_bound x (2 ^ limb_bits i) 0 ltac:(lia) ltac:(lia)). lia.
    + rewrite Z.mul_opp_r. rewrite Z.add_opp_r, <- Z.mod_eq by lia. apply Z.mod_pos_bound. lia.
  - split_and!; [lia|done|lia].
Qed.

Lemma borrowed_le i x : - 67109000 <= x -> borrowed i x <= 3.
Proof.
  intros Hx. unfold borrowed. destruct (Z.ltb_spec x 0); [|lia].
  destruct (limb_bits_cases i) as [[_ ->]|[_ ->]]; div_lia.
Qed.

Lemma borrow_ok i j f l : (i < length l)%nat -> (j < length l)%nat -> i <> j -> 0 <= f <= 19 ->
  - 67109000 <= limb_at l i <= 67109000 -> Z.abs (limb_at l j) <= 67109000 ->
  let c := borrowed i (limb_at l i) in
  borrow i j f l = Some (<[j := limb_at l j - f * c]> (<[i := limb_at l i + 2 ^ limb_bits i * c]> l)).
Proof.
  intros Hi Hj Hij Hf Hx Hy c. pose proof (borrowed_ok i (limb_at l i)) as (Hc0 & _ & _).
  pose proof (borrowed_le i (limb_at l i) ltac:(lia)) as Hc3. fold c in Hc0, Hc3. unfold borrow. cbv zeta.
  rewrite sign_shift by lia.
  assert (- Z.shiftr (Z.land (limb_at l i) (if limb_at l i <? 0 then -1 else 0)) (limb_bits i) = c) as ->.
  { unfold c, borrowed. destruct (limb_at l i <? 0).
    - rewrite Z.land_m1_r. rewrite Z.shiftr_div_pow2; [done|]. destruct (limb_bits_cases i); lia.
    - rewrite Z.land_0_r, Z.shiftr_0_l. done. }
  rewrite i32_ok by lia. rewrite Z.shiftl_mul_pow2, (Z.mul_comm c) by (destruct (limb_bits_cases i); lia).
  assert (2 ^ limb_bits i * c <= 67108864 * 3) as Hs.
  { apply Z.mul_le_mono_nonneg; [pose proof (limb_bits_pos i); lia| |done|done]. destruct (limb_bits_cases i); lia. }
  assert (0 <= 2 ^ limb_bits i * c) by (apply Z.mul_nonneg_nonneg; [pose proof (limb_bits_pos i); lia|done]).
  set (m := 2 ^ limb_bits i * c) in *. clearbody m c. assert (0 <= c * f <= 57) by nia. rewrite i32_ok by lia. rewrite i32_ok by lia. rewrite i32_ok by lia.
  rewrite i32_ok by lia. by rewrite (Z.mul_comm c f).
Qed.

Lemma limb_at_borrow i j x y l k : (i < length l)%nat -> (j < length l)%nat ->
  limb_at (<[j := y]> (<[i := x]> l)) k = if decide (k = j) then y else if decide (k = i) then x else limb_at l k.
Proof. intros Hi Hj. rewrite !limb_at_insert by (rewrite ?length_insert; done). repeat case_decide; congruence. Qed.

(** A borrow between neighbours keeps the value. *)
Lemma neighbours_value l i c : (i < 9)%nat -> length l = 10%nat ->
  limbs25 (<[(i + 1)%nat := limb_at l (i + 1) - c]> (<[i := limb_at l i + 2 ^ limb_bits i * c]> l)) = limbs25 l.
Proof.
  intros Hi Hl. unfold limbs25. rewrite !limbs_from_insert by (rewrite ?length_insert; lia).
  rewrite limb_at_insert by lia. rewrite decide_False by lia. rewrite Nat.add_1_r, weight_S. cbn [Nat.add]. ring.
Qed.

(** From the last limb to the first one the value changes by a multiple of
    2^255 - 19. *)
Lemma wrap_value l c : length l = 10%nat ->
  limbs25 (<[0%nat := limb_at l 0 - 19 * c]> (<[9%nat := limb_at l 9 + 2 ^ limb_bits 9 * c]> l)) = limbs25 l + P25519 * c.
Proof.
  intros Hl. unfold limbs25. rewrite !limbs_from_insert by (rewrite ?length_insert; lia).
  rewrite limb_at_insert by lia. rewrite decide_False by lia.
  change (weight 0 9) with (2 ^ 230). change (2 ^ limb_bits 9) with (2 ^ 25). change (weight 0 0) with 1. unfold P25519. ring.
Qed.

(** Before the borrow of limb [k] of the first pass. *)
Definition first_lower (k : nat) (j : nat) : Z :=
  if (j <? k)%nat then 0 else if (j =? k)%nat then - 67108866 else - 67108863.

Lemma first_pass_step k l V : (k < 9)%nat -> limbs_in (first_lower k) l V ->
  exists l', borrow k (k + 1) 1 l = Some l' /\ limbs_in (first_lower (S k)) l' V.
Proof.
  intros Hk [Hl Hlo Hup Hv]. pose proof (Hlo k ltac:(lia)) as Hk1. pose proof (Hup k ltac:(lia)) as Hk2.
  pose proof (Hlo (k + 1)%nat ltac:(lia)) as Hn1. pose proof (Hup (k + 1)%nat ltac:(lia)) as Hn2.
  unfold first_lower in Hk1, Hn1. rewrite Nat.ltb_irrefl, Nat.eqb_refl in Hk1.
  rewrite (proj2 (Nat.ltb_ge _ _)), (proj2 (Nat.eqb_neq _ _)) in Hn1 by lia. unfold tight_limb in *.
  rewrite borrow_ok by lia. cbv zeta. rewrite Z.mul_1_l.
  pose proof (borrowed_ok k (limb_at l k)) as (Hc0 & Hc1 & Hc2). pose proof (borrowed_le k (limb_at l k) ltac:(lia)) as Hc3.
  set (c := borrowed k (limb_at l k)) in *. eexists. split; [reflexivity|].
  assert (0 <= limb_at l k + 2 ^ limb_bits k * c <= 67108863) as Hx.
  { destruct (Z.lt_ge_cases (limb_at l k) 0) as [H|H]; [|rewrite Hc1 by done; lia].
    specialize (Hc2 H). destruct (limb_bits_cases k) as [[_ E]|[_ E]]; rewrite E in *; lia. }
  split.
  - by rewrite !length_insert.
  - intros j Hj. rewrite limb_at_borrow by lia. unfold first_lower. repeat case_decide; subst.
    + rewrite (proj2 (Nat.ltb_ge _ _)), (proj2 (Nat.eqb_eq _ _)) by lia. lia.
    + rewrite (proj2 (Nat.ltb_lt _ _)) by lia. lia.
    + specialize (Hlo j Hj). unfold first_lower in Hlo. destruct (Nat.ltb_spec j k), (Nat.eqb_spec j k), (Nat.ltb_spec j (S k)), (Nat.eqb_spec j (S k)); lia.
  - intros j Hj. rewrite limb_at_borrow by lia. specialize (Hup j Hj). unfold tight_limb in *. repeat case_decide; subst; lia.
  - by rewrite neighbours_value.
Qed.

(** After the first pass only the first limb may be negative. *)
Definition second_lower (j : nat) : Z := if (j =? 0)%nat then - 57 else 0.

Lemma fold_steps (f : list Z -> nat -> option (list Z)) (P : nat -> list Z -> Prop) n : forall k l, P k l ->
  (forall i l, (k <= i < k + n)%nat -> P i l -> exists l', f l i = Some l' /\ P (S i) l') ->
  exists l', fold_checked f l (seq k n) = Some l' /\ P (k + n)%nat l'.
Proof.
  induction n as [|n IH]; intros k l Hl Hf; cbn [seq fold_checked].
  - exists l. by rewrite Nat.add_0_r.
  - destruct (Hf k l ltac:(lia) Hl) as (l' & -> & Hl'). destruct (IH (S k) l' Hl') as (l'' & E & H'').
    { intros i l0 Hi. apply Hf. lia. }
    exists l''. split; [done|]. by rewrite Nat.add_succ_r.
Qed.

Lemma first_pass l V : bounded tight_limb l -> limbs25 l ≡p V ->
  exists l', borrow_pass l = Some l' /\ limbs_in second_lower l' V.
Proof.
  intros [Hl Hb] Hv. unfold borrow_pass.
  destruct (fold_steps (fun input i => borrow i (i + 1) 1 input) (fun k l => limbs_in (first_lower k) l V) 9 0 l)
    as (l1 & -> & [Hl1 Hlo Hup Hv1]).
  - split; [done| | |done]; intros j Hj; pose proof (limb_at_bound tight_limb l j ltac:(done) Hb) as H; unfold first_lower, tight_limb in *.
    + cbn [Nat.ltb Nat.leb]. destruct (j =? 0)%nat; lia.
    + lia.
  - intros i l0 Hi. apply first_pass_step. lia.
  - pose proof (Hlo 9%nat ltac:(lia)) as H9. change (first_lower (0 + 9) 9) with (-67108866) in H9.
    pose proof (Hlo 0%nat ltac:(lia)) as H0. change (first_lower (0 + 9) 0) with 0 in H0.
    pose proof (Hup 9%nat ltac:(lia)) as H9'. pose proof (Hup 0%nat ltac:(lia)) as H0'. unfold tight_limb in *.
    rewrite borrow_ok by (done || lia). cbv zeta.
    pose proof (borrowed_ok 9 (limb_at l1 9)) as (Hc0 & Hc1 & Hc2). pose proof (borrowed_le 9 (limb_at l1 9) ltac:(lia)) as Hc3.
    change (2 ^ limb_bits 9) with 33554432 in Hc2.
    set (c := borrowed 9 (limb_at l1 9)) in *. eexists. split; [reflexivity|].
    assert (0 <= limb_at l1 9 + 33554432 * c <= 67108863) as Hx.
    { destruct (Z.lt_ge_cases (limb_at l1 9) 0) as [H|H]; [specialize (Hc2 H); lia|rewrite Hc1 by done; lia]. }
    split.
    + by rewrite !length_insert.
    + intros j Hj. rewrite limb_at_borrow by lia. change (2 ^ limb_bits 9) with 33554432. unfold second_lower. repeat case_decide; subst.
      * rewrite Nat.eqb_refl. lia.
      * cbn [Nat.eqb]. lia.
      * specialize (Hlo j Hj). unfold first_lower in Hlo. cbn [Nat.add] in Hlo.
        rewrite (proj2 (Nat.eqb_neq _ _)) by lia. by rewrite (proj2 (Nat.ltb_lt _ _)) in Hlo by lia.
    + intros j Hj. rewrite limb_at_borrow by lia. change (2 ^ limb_bits 9) with 33554432. specialize (Hup j Hj). unfold tight_limb.
      repeat case_decide; subst; lia.
    + rewrite wrap_value by done. rewrite <- Hv1. apply (eq_mod_multiple _ _ c). ring.
Qed.

(** Before the borrow of limb [k] of the second pass: what is borrowed from it
    was added to the first limb. *)
Definition second_inv (V : Z) (k : nat) (l : list Z) : Prop :=
  limbs_in (fun j => if (j =? k)%nat then (if (k =? 0)%nat then - 57 else -1) else 0) l V /\
  ((1 <= k)%nat -> limb_at l k < 0 -> 67108807 <= limb_at l 0).

Lemma borrowed_one i x : - 57 <= x -> borrowed i x = if x <? 0 then 1 else 0.
Proof.
  intros Hx. unfold borrowed. destruct (Z.ltb_spec x 0); [|done]. destruct (limb_bits_cases i) as [[_ ->]|[_ ->]]; div_lia.
Qed.

Lemma second_pass_step k l V : (k < 9)%nat -> second_inv V k l ->
  exists l', borrow k (k + 1) 1 l = Some l' /\ second_inv V (S k) l'.
Proof.
  intros Hk [[Hl Hlo Hup Hv] H0]. pose proof (Hlo k ltac:(lia)) as Hk1. pose proof (Hup k ltac:(lia)) as Hk2.
  pose proof (Hlo (k + 1)%nat ltac:(lia)) as Hn1. pose proof (Hup (k + 1)%nat ltac:(lia)) as Hn2.
  cbv beta in Hk1, Hn1. rewrite Nat.eqb_refl in Hk1. rewrite (proj2 (Nat.eqb_neq _ _)) in Hn1 by lia. unfold tight_limb in *.
  assert (- 57 <= limb_at l k) as Hk57 by (destruct (k =? 0)%nat; lia).
  rewrite borrow_ok by lia. cbv zeta. rewrite Z.mul_1_l, (borrowed_one k _ Hk57).
  eexists. split; [reflexivity|]. set (c := if limb_at l k <? 0 then 1 else 0).
  assert (limb_at l k < 0 /\ c = 1 \/ 0 <= limb_at l k /\ c = 0) as Hc.
  { unfold c. destruct (Z.ltb_spec (limb_at l k) 0); [by left|by right]. }
  assert (33554432 <= 2 ^ limb_bits k <= 67108864) as Hw by (destruct (limb_bits_cases k); lia).
  assert (0 <= limb_at l k + 2 ^ limb_bits k * c <= 67108863) as Hx by (destruct Hc as [[H ->]|[H ->]]; lia).
  split; [split|].
  - by rewrite !length_insert.
  - intros j Hj. rewrite limb_at_borrow by lia. repeat case_decide; subst.
    + rewrite (proj2 (Nat.eqb_eq _ _)), (proj2 (Nat.eqb_neq (S k) 0)) by lia. lia.
    + rewrite (proj2 (Nat.eqb_neq _ _)) by lia. lia.
    + specialize (Hlo j Hj). cbv beta in Hlo. rewrite (proj2 (Nat.eqb_neq _ _)) in Hlo by lia.
      rewrite (proj2 (Nat.eqb_neq _ _)) by lia. lia.
  - intros j Hj. rewrite limb_at_borrow by lia. specialize (Hup j Hj). unfold tight_limb in *. repeat case_decide; subst; lia.
  - by rewrite neighbours_value.
  - intros _. rewrite !limb_at_borrow by lia. rewrite decide_True, (decide_False (P := (0 = k + 1)%nat)) by lia. intros Hneg.
    assert (limb_at l k < 0 /\ c = 1) as [Hkn Hc1] by lia. case_decide as E.
    + subst k. change (2 ^ limb_bits 0) with 67108864. lia.
    + apply H0; lia.
Qed.

Definition limbs_nonneg (l : list Z) (V : Z) : Prop := limbs_in (fun _ => 0) l V.

Lemma second_pass l V : limbs_in second_lower l V -> exists l', borrow_pass l = Some l' /\ limbs_nonneg l' V.
Proof.
  intros Hl. unfold borrow_pass.
  destruct (fold_steps (fun input i => borrow i (i + 1) 1 input) (second_inv V) 9 0 l)
    as (l1 & -> & [[Hl1 Hlo Hup Hv1] H0]).
  - split; [exact Hl|lia].
  - intros i l0 Hi. apply second_pass_step. lia.
  - cbn [Nat.add] in *. specialize (H0 ltac:(lia)). pose proof (Hlo 9%nat ltac:(lia)) as H9.
    pose proof (Hlo 0%nat ltac:(lia)) as H00. cbn [Nat.eqb] in H9, H00.
    pose proof (Hup 9%nat ltac:(lia)) as H9'. pose proof (Hup 0%nat ltac:(lia)) as H0'. unfold tight_limb in *.
    rewrite borrow_ok by (done || lia). cbv zeta. rewrite (borrowed_one 9) by lia.
    eexists. split; [reflexivity|]. set (c := if limb_at l1 9 <? 0 then 1 else 0). change (2 ^ limb_bits 9) with 33554432.
    assert (limb_at l1 9 < 0 /\ c = 1 \/ 0 <= limb_at l1 9 /\ c = 0) as Hc.
    { unfold c. destruct (Z.ltb_spec (limb_at l1 9) 0); [by left|by right]. }
    split.
    + by rewrite !length_insert.
    + intros j Hj. rewrite limb_at_borrow by lia. repeat case_decide; subst; [lia|lia|].
      specialize (Hlo j Hj). cbv beta in Hlo. by rewrite (proj2 (Nat.eqb_neq _ _)) in Hlo by lia.
    + intros j Hj. rewrite limb_at_borrow by lia. specialize (Hup j Hj). unfold tight_limb. repeat case_decide; subst; lia.
    + change 33554432 with (2 ^ limb_bits 9). rewrite wrap_value by done. rewrite <- Hv1.
      apply (eq_mod_multiple _ _ c). ring.
Qed.

(** The third borrow finds nothing to do. *)
Lemma third_borrow l V : limbs_nonneg l V -> borrow 0 1 1 l = Some l.
Proof.
  intros [Hl Hlo Hup _]. unfold tight_limb in Hup. pose proof (Hlo 0%nat ltac:(lia)). pose proof (Hup 0%nat ltac:(lia)).
  pose proof (Hlo 1%nat ltac:(lia)). pose proof (Hup 1%nat ltac:(lia)). cbv beta in *.
  rewrite borrow_ok by lia. cbv zeta. rewrite (proj1 (proj2 (borrowed_ok 0 (limb_at l 0)))) by done.
  rewrite !Z.mul_0_r, Z.add_0_r, Z.sub_0_r.
  assert (forall i, (i < 10)%nat -> <[i := limb_at l i]> l = l) as Hid.
  { intros i Hi. apply list_insert_id. unfold limb_at. destruct (lookup_lt_is_Some_2 l i) as [x Hx]; [lia|].
    by rewrite nth_lookup, Hx. }
  by rewrite !Hid by lia.
Qed.

(** ** Carries *)

Lemma carry_limb_ok i j f l : (i < length l)%nat -> (j < length l)%nat -> i <> j -> 0 <= f <= 19 ->
  0 <= limb_at l i <= 134217728 -> 0 <= limb_at l j <= 134217728 ->
  carry_limb i j f l = Some (<[j := limb_at l j + f * (limb_at l i / 2 ^ limb_bits i)]>
    (<[i := limb_at l i mod 2 ^ limb_bits i]> l)).
Proof.
  intros Hi Hj Hij Hf Hx Hy. unfold carry_limb. cbv zeta.
  assert (limb_mask i = Z.ones (limb_bits i)) as -> by (unfold limb_mask, limb_bits; by destruct (Nat.odd i)).
  rewrite Z.land_ones, Z.shiftr_div_pow2 by (destruct (limb_bits_cases i); lia).
  assert (0 <= limb_at l i / 2 ^ limb_bits i <= 4) as Hc.
  { destruct (limb_bits_cases i) as [[_ ->]|[_ ->]]; div_lia. }
  set (c := limb_at l i / 2 ^ limb_bits i) in *. clearbody c. assert (0 <= f * c <= 76) by nia.
  rewrite i32_ok by lia. rewrite limb_at_insert by done. rewrite decide_False by done. by rewrite i32_ok by lia.
Qed.

(** The limbs below [k] are digits. *)
Record digits_below (k : nat) (V : Z) (l : list Z) : Prop := {
  db_length : length l = 10%nat;
  db_digits : forall j, (j < k)%nat -> 0 <= limb_at l j < 2 ^ limb_bits j;
  db_rest : forall j, (k <= j < 10)%nat -> 0 <= limb_at l j <= if (j =? k)%nat then 67109000 else 67108905;
  db_value : limbs25 l = V
}.

Lemma carry_step k l V : (k < 9)%nat -> digits_below k V l ->
  exists l', carry_limb k (k + 1) 1 l = Some l' /\ digits_below (S k) V l'.
Proof.
  intros Hk [Hl Hd Hr Hv]. pose proof (Hr k ltac:(lia)) as Hx. pose proof (Hr (k + 1)%nat ltac:(lia)) as Hy.
  rewrite Nat.eqb_refl in Hx. rewrite (proj2 (Nat.eqb_neq _ _)) in Hy by lia.
  rewrite carry_limb_ok by lia. rewrite Z.mul_1_l. eexists. split; [reflexivity|].
  assert (0 <= limb_at l k / 2 ^ limb_bits k <= 2) as Hc by (destruct (limb_bits_cases k) as [[_ ->]|[_ ->]]; div_lia).
  pose proof (Z.mod_pos_bound (limb_at l k) (2 ^ limb_bits k) (limb_bits_pos k)) as Hm.
  pose proof (Z.div_mod (limb_at l k) (2 ^ limb_bits k) ltac:(pose proof (limb_bits_pos k); lia)) as Hdm.
  split.
  - by rewrite !length_insert.
  - intros j Hj. rewrite limb_at_borrow by lia. repeat case_decide; subst; [lia|done|]. apply Hd. lia.
  - intros j Hj. rewrite limb_at_borrow by lia. repeat case_decide; subst; [|lia|].
    + rewrite (proj2 (Nat.eqb_eq _ _)) by lia. lia.
    + specialize (Hr j ltac:(lia)). destruct (Nat.eqb_spec j k), (Nat.eqb_spec j (S k)); lia.
  - rewrite <- Hv, <- (neighbours_value l k (- (limb_at l k / 2 ^ limb_bits k))) by done. do 3 f_equal; lia.
Qed.

(** Ten digits. *)
Definition canonical_limbs (l : list Z) : Prop :=
  length l = 10%nat /\ forall j, (j < 10)%nat -> 0 <= limb_at l j < 2 ^ limb_bits j.

Lemma limbs25_range l : canonical_limbs l -> 0 <= limbs25 l < 2 ^ 255.
Proof.
  intros [Hl H]. ten_limbs l Hl.
  pose proof (H 0%nat ltac:(lia)). pose proof (H 1%nat ltac:(lia)). pose proof (H 2%nat ltac:(lia)).
  pose proof (H 3%nat ltac:(lia)). pose proof (H 4%nat ltac:(lia)). pose proof (H 5%nat ltac:(lia)).
  pose proof (H 6%nat ltac:(lia)). pose proof (H 7%nat ltac:(lia)). pose proof (H 8%nat ltac:(lia)).
  pose proof (H 9%nat ltac:(lia)). clear H Hl.
  unfold limb_at in *. cbn [nth limb_bits Nat.odd Nat.even negb] in *. unfold limbs25.
  cbn [limbs_from limb_bits Nat.odd Nat.even negb]. compute_powers. lia.
Qed.

(** A pass extracts the digits and adds 19 times what is left to the first. *)
Lemma carry_pass_ok l V : digits_below 0 V l -> exists d, carry_pass l = Some (<[0%nat := limb_at d 0 + 19 * (V / 2 ^ 255)]> d) /\
  canonical_limbs d /\ limbs25 d = V mod 2 ^ 255 /\ 0 <= V / 2 ^ 255 <= 2.
Proof.
  intros Hl. unfold carry_pass.
  destruct (fold_steps (fun input i => carry_limb i (i + 1) 1 input) (fun k l => digits_below k V l) 9 0 l Hl)
    as (l1 & -> & [Hl1 Hd Hr Hv]).
  { intros i l0 Hi. apply carry_step. lia. }
  cbn [Nat.add] in *. pose proof (Hr 9%nat ltac:(lia)) as H9. rewrite Nat.eqb_refl in H9.
  pose proof (Hd 0%nat ltac:(lia)) as H0. change (2 ^ limb_bits 0) with 67108864 in H0.
  rewrite carry_limb_ok by (done || lia). change (2 ^ limb_bits 9) with 33554432.
  set (c := limb_at l1 9 / 33554432). set (d := <[9%nat := limb_at l1 9 mod 33554432]> l1).
  assert (forall j, limb_at d j = if decide (9 = j)%nat then limb_at l1 9 mod 33554432 else limb_at l1 j) as Hget.
  { intros j. apply limb_at_insert. lia. }
  assert (canonical_limbs d) as Hcan.
  { split; [unfold d; by rewrite length_insert|]. intros j Hj. rewrite Hget. case_decide; [subst; apply Z.mod_pos_bound; done|].
    apply Hd. lia. }
  assert (V = 2 ^ 255 * c + limbs25 d) as HV.
  { rewrite <- Hv. unfold d, limbs25. rewrite limbs_from_insert by lia. change (weight 0 9) with (2 ^ 230). unfold c.
    rewrite Z.mod_eq by done. ring. }
  pose proof (limbs25_range d Hcan) as Hrange.
  assert (c = V / 2 ^ 255) as Hc by (apply (Z.div_unique_pos _ _ _ (limbs25 d)); done).
  exists d. rewrite Hget, decide_False by done. rewrite <- Hc. split; [done|]. split; [done|]. split.
  - by apply (Z.mod_unique_pos _ _ c).
  - unfold c. div_lia.
Qed.

Lemma limbs25_insert_0 d x : length d = 10%nat -> limbs25 (<[0%nat := x]> d) = limbs25 d + (x - limb_at d 0).
Proof. intros Hd. unfold limbs25. rewrite limbs_from_insert by lia. cbn [weight]. lia. Qed.

Lemma limb_le_value l j : canonical_limbs l -> (j < 10)%nat -> limb_at l j <= limbs25 l.
Proof.
  intros [Hl H] Hj. ten_limbs l Hl.
  pose proof (H 0%nat ltac:(lia)). pose proof (H 1%nat ltac:(lia)). pose proof (H 2%nat ltac:(lia)).
  pose proof (H 3%nat ltac:(lia)). pose proof (H 4%nat ltac:(lia)). pose proof (H 5%nat ltac:(lia)).
  pose proof (H 6%nat ltac:(lia)). pose proof (H 7%nat ltac:(lia)). pose proof (H 8%nat ltac:(lia)).
  pose proof (H 9%nat ltac:(lia)). clear H Hl.
  unfold limb_at in *. cbn [nth limb_bits Nat.odd Nat.even negb] in *. unfold limbs25.
  cbn [limbs_from limb_bits Nat.odd Nat.even negb]. compute_powers. do 10 (destruct j as [|j]; [cbn [nth]; lia|]). lia.
Qed.

Lemma two_carry_passes l V : limbs_nonneg l V ->
  exists d, (let! input := carry_pass l in carry_pass input) = Some d /\ canonical_limbs d /\ limbs25 d ≡p V.
Proof.
  intros [Hl Hlo Hup Hv]. unfold tight_limb in Hup. destruct (carry_pass_ok l (limbs25 l)) as (d & -> & Hcan & Hval & Hc).
  { split; [done|lia| |done]. intros j Hj. specialize (Hlo j ltac:(lia)). specialize (Hup j ltac:(lia)). cbv beta in Hlo.
    destruct (j =? 0)%nat; lia. }
  set (c := limbs25 l / 2 ^ 255) in *. pose proof (limbs25_range d Hcan) as Hrange. pose proof Hcan as [Ld Hd].
  pose proof (Hd 0%nat ltac:(lia)) as H0. change (2 ^ limb_bits 0) with 67108864 in H0.
  set (l1 := <[0%nat := _]> d). assert (limbs25 l1 = limbs25 d + 19 * c) as Hv1.
  { unfold l1. rewrite limbs25_insert_0 by done. lia. }
  destruct (carry_pass_ok l1 (limbs25 l1)) as (e & -> & Hcan' & Hval' & Hc').
  { split; [unfold l1; by rewrite length_insert|lia| |done]. intros j Hj. unfold l1. rewrite limb_at_insert by lia.
    case_decide; [subst; cbn [Nat.eqb]; lia|]. specialize (Hd j ltac:(lia)). rewrite (proj2 (Nat.eqb_neq _ _)) by lia.
    destruct (limb_bits_cases j) as [[_ E]|[_ E]]; rewrite E in Hd; lia. }
  set (c' := limbs25 l1 / 2 ^ 255) in *. eexists. split; [reflexivity|]. pose proof Hcan' as [Le He].
  pose proof (limbs25_range e Hcan') as Hrange'. pose proof (limb_le_value e 0 Hcan' ltac:(lia)) as Hle.
  pose proof (Z.div_mod (limbs25 l1) (2 ^ 255) ltac:(done)) as Hdm. rewrite <- Hval' in Hdm. fold c' in Hdm.
  split; [split|].
  - by rewrite length_insert.
  - intros j Hj. rewrite limb_at_insert by lia. case_decide; [subst|by apply He]. change (2 ^ limb_bits 0) with 67108864.
    pose proof (He 0%nat ltac:(lia)) as H0'. change (2 ^ limb_bits 0) with 67108864 in H0'.
    destruct (Z.eq_dec c' 0) as [->|Hn]; [lia|]. change (2 ^ 255) with 57896044618658097711785492504343953926634992332820282019728792003956564819968 in *. lia.
  - rewrite limbs25_insert_0 by done. rewrite <- Hv. unfold eq_mod.
    pose proof (Z.div_mod (limbs25 l) (2 ^ 255) ltac:(done)) as Hdl. rewrite <- Hval in Hdl. fold c in Hdl.
    apply (eq_mod_multiple _ _ (- (c + c'))). rewrite Hdl. unfold P25519. lia.
Qed.

(** ** The comparison with 2^255 - 19 *)

Lemma s32_bits x i : 0 <= i < 32 -> Z.testbit (s32 x) i = Z.testbit x i.
Proof.
  intros Hi. unfold s32. destruct (Z.eq_dec i 31) as [->|Hn].
  - assert (forall z, Z.testbit z 31 = Z.odd (z / 2147483648)) as Hb.
    { intros z. change 2147483648 with (2 ^ 31). rewrite <- Z.shiftr_div_pow2 by done. by rewrite <- Z.bit0_odd, Z.shiftr_spec. }
    rewrite !Hb. rewrite <- !Z.negb_even.
    pose proof (Z.div_mod x 2147483648 ltac:(done)). pose proof (Z.mod_pos_bound x 2147483648 ltac:(done)).
    pose proof (Z.div_mod (x / 2147483648) 2 ltac:(done)). pose proof (Z.mod_pos_bound (x / 2147483648) 2 ltac:(done)).
    rewrite !Zeven_mod. f_equal. f_equal.
    assert (((x + 2147483648) mod 4294967296 - 2147483648) / 2147483648 = - ((x / 2147483648) mod 2)) as ->; [div_lia|].
    div_lia.
  - rewrite <- (Z.mod_pow2_bits_low _ 31 i) by lia. rewrite <- (Z.mod_pow2_bits_low x 31 i) by lia. f_equal.
    change (2 ^ 31) with 2147483648. div_lia.
Qed.

(** A step of [s32_eq]: bit [i] is kept if bit [i - n] is set as well. *)
Lemma fold_bits a n i : 0 <= n <= i -> i < 32 ->
  Z.testbit (Z.land a (s32 (Z.shiftl a n))) i = Z.testbit a i && Z.testbit a (i - n).
Proof. intros Hn Hi. rewrite Z.land_spec, s32_bits, Z.shiftl_spec by lia. done. Qed.

(** The bits from [lo] on are set. *)
Definition bits_set (a lo : Z) : Prop := forall i, lo <= i < 32 -> Z.testbit a i = true.

Lemma fold_bits_set a n lo : 0 <= n <= lo -> lo + n <= 32 -> bits_set (Z.land a (s32 (Z.shiftl a n))) lo -> bits_set a (lo - n).
Proof.
  intros Hn Hlo H i Hi. destruct (Z.lt_ge_cases i lo) as [Hl|Hl].
  - specialize (H (i + n) ltac:(lia)). rewrite fold_bits in H by lia. apply andb_prop in H as [_ H].
    by replace (i + n - n) with i in H by lia.
  - specialize (H i ltac:(lia)). rewrite fold_bits in H by lia. by apply andb_prop in H as [H _].
Qed.

Lemma sign_bit x : -2147483648 <= x < 2147483648 -> Z.shiftr x 31 = if Z.testbit x 31 then -1 else 0.
Proof.
  intros Hx. assert (Z.testbit x 31 = (x <? 0)) as ->.
  { assert (Z.testbit x 31 = Z.odd (x / 2147483648)) as ->.
    { change 2147483648 with (2 ^ 31). rewrite <- Z.shiftr_div_pow2 by done. by rewrite <- Z.bit0_odd, Z.shiftr_spec. }
    destruct (Z.ltb_spec x 0); [replace (x / 2147483648) with (-1) by div_lia|replace (x / 2147483648) with 0 by div_lia]; done. }
  rewrite Z.shiftr_div_pow2 by done. change (2 ^ 31) with 2147483648. destruct (Z.ltb_spec x 0); div_lia.
Qed.

Lemma signed_shift x : -2147483648 <= x < 2147483648 <-> Z.shiftr x 31 = 0 \/ Z.shiftr x 31 = -1.
Proof. rewrite Z.shiftr_div_pow2 by done. change (2 ^ 31) with 2147483648. split; intros H; div_lia. Qed.

Lemma land_signed a b : -2147483648 <= a < 2147483648 -> -2147483648 <= b < 2147483648 ->
  -2147483648 <= Z.land a b < 2147483648.
Proof. rewrite !signed_shift, Z.shiftr_land. intros [->| ->] [->| ->]; by auto. Qed.

Lemma s32_range x : -2147483648 <= s32 x < 2147483648.
Proof. unfold s32. pose proof (Z.mod_pos_bound (x + 2147483648) 4294967296). lia. Qed.

Lemma s32_eq_ok a b : 0 <= a < 2147483648 -> 0 <= b < 2147483648 -> s32_eq a b = if a =? b then -1 else 0.
Proof.
  intros Ha Hb. destruct (Z.eqb_spec a b) as [->|Hn]; unfold s32_eq; cbv zeta.
  { rewrite Z.lxor_nilpotent. reflexivity. }
  set (x := Z.lxor a b). assert (0 <= x < 2147483648) as Hx.
  { assert (x mod 2 ^ 31 = x) as <-; [|apply Z.mod_pos_bound; done]. apply Z.bits_inj'. intros i Hi.
    destruct (Z.lt_ge_cases i 31) as [H|H]; [by rewrite Z.mod_pow2_bits_low|]. rewrite Z.mod_pow2_bits_high by lia.
    unfold x. rewrite Z.lxor_spec. rewrite <- (Z.mod_small a (2 ^ 31)), <- (Z.mod_small b (2 ^ 31)) by done.
    by rewrite !Z.mod_pow2_bits_high by lia. }
  assert (-2147483648 <= Z.lnot x < 2147483648) as Hl by (unfold Z.lnot; lia).
  rewrite sign_bit by (repeat (apply land_signed; [|apply s32_range]); exact Hl).
  match goal with |- (if ?t then _ else _) = _ => destruct t eqn:E; [|done] end.
  exfalso. apply Hn, Z.lxor_eq. fold x. apply Z.bits_inj'. intros i Hi. rewrite Z.bits_0.
  destruct (Z.lt_ge_cases i 32) as [H32|H32].
  2: { rewrite <- (Z.mod_small x (2 ^ 32)) by (change (2 ^ 32) with 4294967296; lia). apply Z.mod_pow2_bits_high. lia. }
  assert (Z.testbit (Z.lnot x) i = true) as Hi1; [|by rewrite Z.lnot_spec, negb_true_iff in Hi1 by done].
  assert (bits_set (Z.lnot x) (31 - 1 - 2 - 4 - 8 - 16)) as Hset; [|apply Hset; lia].
  do 5 (apply fold_bits_set; [lia|lia|]). intros j Hj. by replace j with 31 by lia.
Qed.

Lemma s32_gte_ok a b : 0 <= a < 1073741824 -> 0 <= b < 1073741824 -> s32_gte a b = Some (if b <=? a then -1 else 0).
Proof.
  intros Ha Hb. unfold s32_gte. rewrite i32_ok, sign_shift by lia. do 2 f_equal.
  destruct (Z.ltb_spec (a - b) 0), (Z.leb_spec b a); lia || done.
Qed.

Lemma contract_mask_ok d : canonical_limbs d -> contract_mask d = Some (if P25519 <=? limbs25 d then -1 else 0).
Proof.
  intros Hcan. pose proof Hcan as [Hl H]. unfold contract_mask.
  pose proof (H 0%nat ltac:(lia)) as H0. change (2 ^ limb_bits 0) with 67108864 in H0. rewrite s32_gte_ok by lia.
  f_equal.
  assert (forall i m, (i < 10)%nat -> Z.land m (s32_eq (limb_at d i) (limb_mask i)) = if limb_at d i =? limb_mask i then m else 0) as Hstep.
  { intros i m Hi. specialize (H i Hi). rewrite s32_eq_ok.
    - destruct (_ =? _); [apply Z.land_m1_r|apply Z.land_0_r].
    - destruct (limb_bits_cases i) as [[_ E]|[_ E]]; rewrite E in H; lia.
    - unfold limb_mask. by destruct (Nat.odd i). }
  cbn [seq fold_left]. rewrite !Hstep by lia. clear Hstep. ten_limbs d Hl.
  pose proof (H 1%nat ltac:(lia)). pose proof (H 2%nat ltac:(lia)).
  pose proof (H 3%nat ltac:(lia)). pose proof (H 4%nat ltac:(lia)). pose proof (H 5%nat ltac:(lia)).
  pose proof (H 6%nat ltac:(lia)). pose proof (H 7%nat ltac:(lia)). pose proof (H 8%nat ltac:(lia)).
  pose proof (H 9%nat ltac:(lia)). clear H Hl Hcan.
  unfold limb_at in *. cbn [nth limb_bits limb_mask Nat.odd Nat.even negb] in *. unfold limbs25.
  cbn [limbs_from limb_bits Nat.odd Nat.even negb]. unfold P25519. compute_powers.
  match goal with |- _ = if ?b then _ else _ => destruct b eqn:E end.
  - apply Z.leb_le in E. repeat match goal with |- context [?x =? ?m] => replace (x =? m) with true by (symmetry; apply Z.eqb_eq; lia) end.
    by replace (67108845 <=? z) with true by (symmetry; apply Z.leb_le; lia).
  - apply Z.leb_gt in E.
    repeat match goal with |- (if ?x =? ?m then _ else _) = _ => destruct (Z.eqb_spec x m) as [->|?]; [|done] end.
    destruct (Z.leb_spec 67108845 z); [lia|done].
Qed.

Lemma limb_at_outside l j : (length l <= j)%nat -> limb_at l j = 0.
Proof. intros H. unfold limb_at. by rewrite nth_overflow. Qed.

Lemma subtract_fold (g : nat -> Z) d : canonical_limbs d -> (forall j, 0 <= g j <= 134217728) ->
  fold_checked (fun input i => let! x := i32 (limb_at input i - g i) in Some (<[i := x]> input)) d (seq 0 10) =
  Some (map (fun j => limb_at d j - g j) (seq 0 10)).
Proof.
  intros [Hl H] Hg.
  destruct (fold_steps (fun input i => let! x := i32 (limb_at input i - g i) in Some (<[i := x]> input))
    (fun k l => length l = 10%nat /\ forall j, limb_at l j = if (j <? k)%nat then limb_at d j - g j else limb_at d j) 10 0 d)
    as (l & E & Hlen & Hv).
  - split; [done|]. intros j. by rewrite (proj2 (Nat.ltb_ge _ _)) by lia.
  - intros i l Hi [Hlen Hv]. pose proof (Hv i) as Hx. rewrite Nat.ltb_irrefl in Hx. rewrite Hx.
    specialize (H i ltac:(lia)). specialize (Hg i).
    rewrite i32_ok by (destruct (limb_bits_cases i) as [[_ E]|[_ E]]; rewrite E in H; lia).
    eexists. split; [reflexivity|]. split; [by rewrite length_insert|]. intros j. rewrite limb_at_insert by lia.
    case_decide as E; [subst j|].
    + by rewrite (proj2 (Nat.ltb_lt _ _)) by lia.
    + rewrite Hv. destruct (Nat.ltb_spec j i), (Nat.ltb_spec j (S i)); done || lia.
  - refine (eq_trans E _). f_equal. apply (limbs_ext 10); [done|]. intros j Hj. rewrite Hv. by rewrite (proj2 (Nat.ltb_lt _ _)) by lia.
Qed.

Lemma subtract_masked_ok d : canonical_limbs d ->
  exists e, subtract_masked (if P25519 <=? limbs25 d then -1 else 0) d = Some e /\ canonical_limbs e /\
    limbs25 e = limbs25 d mod P25519.
Proof.
  intros Hcan. pose proof (limbs25_range d Hcan) as Hr. unfold subtract_masked.
  set (g := fun i => Z.land (if P25519 <=? limbs25 d then -1 else 0) (if (i =? 0)%nat then 67108845 else limb_mask i)).
  eexists. split; [refine (subtract_fold g d Hcan _)|].
  { intros j. unfold g, limb_mask. destruct (P25519 <=? limbs25 d); [rewrite Z.land_m1_l|rewrite Z.land_0_l; lia].
    destruct (j =? 0)%nat, (Nat.odd j); lia. }
  pose proof Hcan as [Hl H]. ten_limbs d Hl. pose proof (H 0%nat ltac:(lia)).
  pose proof (H 1%nat ltac:(lia)). pose proof (H 2%nat ltac:(lia)).
  pose proof (H 3%nat ltac:(lia)). pose proof (H 4%nat ltac:(lia)). pose proof (H 5%nat ltac:(lia)).
  pose proof (H 6%nat ltac:(lia)). pose proof (H 7%nat ltac:(lia)). pose proof (H 8%nat ltac:(lia)).
  pose proof (H 9%nat ltac:(lia)). clear H Hl Hcan.
  unfold g in *. clear g. unfold limb_at in *. cbn [nth limb_bits limb_mask Nat.odd Nat.even Nat.eqb negb map seq] in *.
  destruct (Z.leb_spec P25519 (limbs25 [z; z0; z1; z2; z3; z4; z5; z6; z7; z8])) as [E|E].
  - rewrite !Z.land_m1_l.
    unfold limbs25 in *. cbn [limbs_from limb_bits Nat.odd Nat.even negb] in *. unfold P25519 in *.
    compute_powers.
    assert (z0 = 33554431 /\ z1 = 67108863 /\ z2 = 33554431 /\ z3 = 67108863 /\ z4 = 33554431 /\ z5 = 67108863 /\
      z6 = 33554431 /\ z7 = 67108863 /\ z8 = 33554431 /\ 67108845 <= z) as (-> & -> & -> & -> & -> & -> & -> & -> & -> & Hz) by lia.
    split.
    + split; [done|]. intros j Hj. unfold limb_at. do 10 (destruct j as [|j]; [cbn [nth limb_bits Nat.odd Nat.even negb]; compute_powers; lia|]). lia.
    + apply (Z.mod_unique_pos _ _ 1); lia.
  - rewrite !Z.land_0_l, !Z.sub_0_r. split.
    + split; [done|]. intros j Hj. unfold limb_at. do 10 (destruct j as [|j]; [cbn [nth limb_bits Nat.odd Nat.even negb]; compute_powers; lia|]). lia.
    + rewrite Z.mod_small by lia. done.
Qed.

(** ** Writing octets *)

Lemma byte_at_insert s i j v : (i < length s)%nat ->
  byte_at (<[i := v]> s) j = if decide (i = j) then v else byte_at s j.
Proof. apply limb_at_insert. Qed.

Lemma le_val_insert s i v : (i < length s)%nat -> le_val (<[i := v]> s) = le_val s + 256 ^ Z.of_nat i * (v - byte_at s i).
Proof.
  revert i. induction s as [|x s IH]; intros [|i] Hi; cbn [length] in Hi; try lia; cbn [insert list_insert le_val].
  - unfold byte_at. cbn [nth]. lia.
  - change (list_insert i v s) with (<[i := v]> s). rewrite IH by lia. unfold byte_at. cbn [nth].
    rewrite Nat2Z.inj_succ, Z.pow_succ_r by lia. ring.
Qed.

Lemma byte_at_val s i : Forall is_u8 s -> (i < length s)%nat -> byte_at s i = (le_val s / 256 ^ Z.of_nat i) mod 256.
Proof.
  intros Hs Hi. change 256 with (256 ^ Z.of_nat 1) at 2. rewrite <- le_val_octets, take_drop_nth by (done || lia).
  cbn [map seq le_val]. rewrite Nat.add_0_r. lia.
Qed.

(** The bits that are combined do not overlap. *)
Lemma lor_disjoint a y n : 0 <= n -> 0 <= a < 2 ^ n -> Z.lor a ((y * 2 ^ n) mod 256) = a + (y * 2 ^ n) mod 256.
Proof.
  intros Hn Ha. assert (Z.land a ((y * 2 ^ n) mod 256) = 0) as Hl.
  { apply Z.bits_inj'. intros i Hi. rewrite Z.land_spec, Z.bits_0. destruct (Z.lt_ge_cases i n) as [H|H].
    - change 256 with (2 ^ 8). destruct (Z.lt_ge_cases i 8) as [H8|H8].
      + rewrite Z.mod_pow2_bits_low, Z.mul_pow2_bits_low by lia. apply andb_false_r.
      + rewrite Z.mod_pow2_bits_high by lia. apply andb_false_r.
    - rewrite <- (Z.mod_small a (2 ^ n)) by done. rewrite Z.mod_pow2_bits_high by lia. done. }
  rewrite <- Z.lxor_lor by done. symmetry. by apply Z.add_nocarry_lxor.
Qed.

(** The macro [F]: the limb, aligned by [n] bits, is added at its place. *)
Lemma pack_limb_ok input output i s n y : length output = 32%nat -> Forall is_u8 output -> (s + 4 <= 32)%nat ->
  0 <= n <= 8 -> le_val output < 2 ^ (8 * Z.of_nat s + n) -> 0 <= y -> limb_at input i mod 4294967296 = y * 2 ^ n ->
  let r := pack_limb input output i s in
  length r = 32%nat /\ Forall is_u8 r /\ le_val r = le_val output + 2 ^ (8 * Z.of_nat s + n) * y.
Proof.
  intros Hl Ho Hs Hn Hv Hy Hx r. set (x := limb_at input i) in *.
  pose proof (le_val_range output Ho) as [Hv0 _].
  assert (2 ^ (8 * Z.of_nat s + n) = 256 ^ Z.of_nat s * 2 ^ n) as Ep.
  { rewrite Z.pow_add_r by lia. rewrite Z.pow_mul_r by lia. done. }
  assert (0 < 256 ^ Z.of_nat s) as Hp by (apply Z.pow_pos_nonneg; lia).
  assert (2 ^ n <= 256) as Hn8 by (change 256 with (2 ^ 8); apply Z.pow_le_mono_r; lia).
  assert (byte_at output s < 2 ^ n) as Hb0.
  { rewrite byte_at_val by (done || lia). eapply Z.le_lt_trans; [apply Z.mod_le; [by apply Z.div_pos|done]|].
    apply Z.div_lt_upper_bound; lia. }
  assert (forall k, (1 <= k <= 3)%nat -> byte_at output (s + k) = 0) as Hbk.
  { intros k Hk. rewrite byte_at_val by (done || lia). rewrite Z.div_small; [done|]. split; [done|].
    eapply Z.lt_le_trans; [exact Hv|]. rewrite Ep, Nat2Z.inj_add, Z.pow_add_r by lia.
    apply Z.mul_le_mono_nonneg_l; [lia|]. etrans; [exact Hn8|]. change 256 with (256 ^ 1) at 1. apply Z.pow_le_mono_r; lia. }
  pose proof (byte_at_ok output s Ho) as Hu. unfold is_u8 in Hu.
  assert (Z.land x 255 = (y * 2 ^ n) mod 256) as E0.
  { change 255 with (Z.ones 8). rewrite Z.land_ones by done. change (2 ^ 8) with 256. rewrite <- Hx. div_lia. }
  assert (Z.land (Z.shiftr x 8) 255 = (y * 2 ^ n / 256) mod 256) as E1.
  { change 255 with (Z.ones 8). rewrite Z.land_ones, Z.shiftr_div_pow2 by done. change (2 ^ 8) with 256. rewrite <- Hx. div_lia. }
  assert (Z.land (Z.shiftr x 16) 255 = (y * 2 ^ n / 65536) mod 256) as E2.
  { change 255 with (Z.ones 8). rewrite Z.land_ones, Z.shiftr_div_pow2 by done. change (2 ^ 16) with 65536. change (2 ^ 8) with 256. rewrite <- Hx. div_lia. }
  assert (Z.land (Z.shiftr x 24) 255 = (y * 2 ^ n / 16777216) mod 256) as E3.
  { change 255 with (Z.ones 8). rewrite Z.land_ones, Z.shiftr_div_pow2 by done. change (2 ^ 24) with 16777216. change (2 ^ 8) with 256. rewrite <- Hx. div_lia. }
  pose proof (Z.mod_pos_bound x 4294967296 ltac:(done)) as HX. rewrite Hx in HX.
  assert (forall z, u8 (z mod 256) = z mod 256) as Hu8 by (intros z; unfold u8; apply Z.mod_mod; done).
  unfold r, pack_limb. cbv zeta. fold x. rewrite E0, E1, E2, E3, !Hu8. set (X := y * 2 ^ n) in *.
  assert (is_u8 (Z.lor (byte_at output s) (X mod 256))) as Hlor.
  { apply lor_lxor_u8; [done|]. apply Z.mod_pos_bound. done. }
  unfold u8. rewrite (Z.mod_small (Z.lor _ _)) by exact Hlor.
  assert (forall z, is_u8 (z mod 256)) as Hm by (intros z; apply Z.mod_pos_bound; done).
  split; [by rewrite !length_insert|]. split; [by repeat apply Forall_insert|].
  rewrite !le_val_insert by (rewrite ?length_insert; lia). rewrite !byte_at_insert by (rewrite ?length_insert; lia).
  rewrite !decide_False by lia. rewrite !Hbk by lia. unfold X at 1. rewrite lor_disjoint by lia. fold X.
  rewrite Ep, !Nat2Z.inj_add, !(Z.pow_add_r 256) by lia. set (W := 256 ^ Z.of_nat s) in *. clearbody W.
  change (256 ^ Z.of_nat 1) with 256. change (256 ^ Z.of_nat 2) with 65536. change (256 ^ Z.of_nat 3) with 16777216.
  transitivity (le_val output + W * X); [|unfold X; ring].
  assert (X = X mod 256 + 256 * ((X / 256) mod 256) + 65536 * ((X / 65536) mod 256) + 16777216 * ((X / 16777216) mod 256)) as E.
  { clearbody X. clear -HX. div_lia. }
  rewrite E at 5. ring.
Qed.

Definition packed (output : bytes) (off v : Z) : Prop :=
  length output = 32%nat /\ Forall is_u8 output /\ le_val output = v /\ 0 <= v < 2 ^ off.

Lemma pack_step input output i s n y v m : packed output (8 * Z.of_nat s + n) v -> (s + 4 <= 32)%nat -> 0 <= n <= 8 ->
  0 <= m -> 0 <= y < 2 ^ m -> limb_at input i mod 4294967296 = y * 2 ^ n ->
  packed (pack_limb input output i s) (8 * Z.of_nat s + n + m) (v + 2 ^ (8 * Z.of_nat s + n) * y).
Proof.
  intros (Hl & Ho & Hv & Hr) Hs Hn Hm Hy Hx. assert (le_val output < 2 ^ (8 * Z.of_nat s + n)) as Hlt by (rewrite Hv; apply Hr).
  destruct (pack_limb_ok input output i s n y Hl Ho Hs Hn Hlt (proj1 Hy) Hx) as (Hl' & Ho' & Hv').
  split; [done|]. split; [done|]. split; [by rewrite Hv', Hv|]. rewrite (Z.pow_add_r 2 (8 * Z.of_nat s + n) m) by lia.
  set (w := 2 ^ (8 * Z.of_nat s + n)) in *. assert (0 < w) by (unfold w; apply Z.pow_pos_nonneg; lia). clearbody w.
  pose proof (Z.mul_le_mono_nonneg_l y (2 ^ m - 1) w ltac:(lia) ltac:(lia)).
  pose proof (Z.mul_nonneg_nonneg w y ltac:(lia) ltac:(lia)). lia.
Qed.

Lemma align_mod x n : 0 <= n -> 0 <= x * 2 ^ n < 4294967296 -> s32 (Z.shiftl x n) mod 4294967296 = x * 2 ^ n.
Proof. intros Hn Hx. rewrite Z.shiftl_mul_pow2 by done. unfold s32. div_lia. Qed.

Lemma pack_limbs_ok d : canonical_limbs d ->
  length (pack_limbs (align_limbs d)) = 32%nat /\ Forall is_u8 (pack_limbs (align_limbs d)) /\
  le_val (pack_limbs (align_limbs d)) = limbs25 d.
Proof.
  intros [Hl H]. ten_limbs d Hl. pose proof (H 0%nat ltac:(lia)) as H0. pose proof (H 1%nat ltac:(lia)) as H1.
  pose proof (H 2%nat ltac:(lia)) as H2. pose proof (H 3%nat ltac:(lia)) as H3. pose proof (H 4%nat ltac:(lia)) as H4.
  pose proof (H 5%nat ltac:(lia)) as H5. pose proof (H 6%nat ltac:(lia)) as H6. pose proof (H 7%nat ltac:(lia)) as H7.
  pose proof (H 8%nat ltac:(lia)) as H8. pose proof (H 9%nat ltac:(lia)) as H9. clear H Hl.
  unfold limb_at in H0, H1, H2, H3, H4, H5, H6, H7, H8, H9. cbn [nth limb_bits Nat.odd Nat.even negb] in *.
  unfold pack_limbs. cbv zeta. set (input := align_limbs _). cbn [fold_left].
  assert (packed (<[16%nat:=0]> (<[0%nat:=0]> (replicate 32 0))) (8 * Z.of_nat 0 + 0) 0) as P.
  { split; [done|]. split; [apply (bool_decide_unpack _); by vm_compute|]. split; [reflexivity|done]. }
  apply (pack_step input _ 0 0 0 z 0 26) in P; [|lia|lia|lia|exact H0|change (z mod 4294967296 = z * 2 ^ 0); compute_powers; rewrite Z.mod_small by (compute_powers; lia); lia].
  apply (pack_step input _ 1 3 2 z0 _ 25) in P; [|lia|lia|lia|exact H1|apply align_mod; compute_powers; lia].
  apply (pack_step input _ 2 6 3 z1 _ 26) in P; [|lia|lia|lia|exact H2|apply align_mod; compute_powers; lia].
  apply (pack_step input _ 3 9 5 z2 _ 25) in P; [|lia|lia|lia|exact H3|apply align_mod; compute_powers; lia].
  apply (pack_step input _ 4 12 6 z3 _ 26) in P; [|lia|lia|lia|exact H4|apply align_mod; compute_powers; lia].
  apply (pack_step input _ 5 16 0 z4 _ 25) in P; [|lia|lia|lia|exact H5|change (z4 mod 4294967296 = z4 * 2 ^ 0); compute_powers; rewrite Z.mod_small by (compute_powers; lia); lia].
  apply (pack_step input _ 6 19 1 z5 _ 26) in P; [|lia|lia|lia|exact H6|apply align_mod; compute_powers; lia].
  apply (pack_step input _ 7 22 3 z6 _ 25) in P; [|lia|lia|lia|exact H7|apply align_mod; compute_powers; lia].
  apply (pack_step input _ 8 25 4 z7 _ 26) in P; [|lia|lia|lia|exact H8|apply align_mod; compute_powers; lia].
  apply (pack_step input _ 9 28 6 z8 _ 25) in P; [|lia|lia|lia|exact H9|apply align_mod; compute_powers; lia].
  destruct P as (Hl & Ho & Hv & _). split; [exact Hl|]. split; [exact Ho|]. refine (eq_trans Hv _).
  unfold limbs25. cbn [limbs_from limb_bits Nat.odd Nat.even negb]. cbn [Z.of_nat]. compute_powers. ring.
Qed.

(** Any ten limbs the field operations produce are written as the canonical
    representative of their residue. *)
Lemma fcontract_ok l : bounded tight_limb l ->
  exists s, fcontract l = Some s /\ length s = 32%nat /\ Forall is_u8 s /\ le_val s = limbs25 l mod P25519.
Proof.
  intros Hb. unfold fcontract. cbv zeta. assert (map s32 l = l) as ->.
  { destruct Hb as [_ Hb]. induction Hb as [|x l Hx Hb IH]; [done|]. cbn [map]. unfold tight_limb in *.
    rewrite s32_id by lia. by rewrite IH. }
  destruct (first_pass l (limbs25 l) Hb) as (l1 & -> & H1); [done|]. destruct (second_pass l1 _ H1) as (l2 & -> & H2).
  rewrite (third_borrow l2 _ H2). destruct (two_carry_passes l2 _ H2) as (d & Ed & Hd & Hv).
  destruct (carry_pass l2) as [l3|]; [|discriminate]. rewrite Ed, (contract_mask_ok d Hd).
  destruct (subtract_masked_ok d Hd) as (e & -> & He & Ve). destruct (pack_limbs_ok e He) as (Hl & Ho & Vp).
  eexists. split; [reflexivity|]. split; [done|]. split; [done|]. rewrite Vp, Ve. exact Hv.
Qed.

(** The limbs that are read are within the bounds of the field operations. *)
Lemma fexpand_ok s : length s = 32%nat -> Forall is_u8 s ->
  bounded tight_limb (fexpand s) /\ limbs25 (fexpand s) = le_val s mod 2 ^ 255.
Proof.
  intros Hl Hs. rewrite fexpand_digits by done. split; [|apply digits25_val].
  split; [done|]. generalize (le_val s), 0%nat, 10%nat. clear. intros v k n. revert v k.
  induction n as [|n IH]; intros v k; cbn [digits25]; constructor; [|apply IH].
  pose proof (Z.mod_pos_bound v (2 ^ limb_bits k) (limb_bits_pos k)). unfold tight_limb.
  destruct (limb_bits_cases k) as [[_ E]|[_ E]]; rewrite E in *; lia.
Qed.
