(* ===== verification/Implementation.v ===== *)
(** The functions of curve25519/ keep the promises curve.c relies on: the
    class [Curve25519] is implemented by the code of curve25519-donna.c,
    ed25519/additions/curve_sigs.c and the files they call, and [CurveLaws] holds of it.
    What is proved of sessions and groups for any curve holds for this one. *)
From stdpp Require Import base list.
From Stdlib Require Import ZArith Lia.
From S2P Require Import Prelude Buffers Curve MachineInt FieldElement FieldEncoding Sha512 PointEncoding.
From S2P Require Import Signatures SignatureProofs Donna KeyAgreement.
#[local] Open Scope Z_scope.

(** ** Arrays *)

(** What a C function sees of an argument: [n] values of [unsigned char]. *)
Definition uchars (n : nat) (l : bytes) : bytes := map (fun i => u8 (nth i l 0)) (seq 0 n).

Lemma u8_id x : is_u8 x -> u8 x = x.
Proof. apply Z.mod_small. Qed.

Lemma uchars_shape n l : length (uchars n l) = n /\ Forall is_u8 (uchars n l).
Proof.
  unfold uchars. split; [by rewrite length_map, length_seq|]. apply Forall_forall. intros x Hx.
  apply list_elem_of_In, in_map_iff in Hx as (i & <- & _). apply u8_ok.
Qed.

Lemma uchars_id n l : length l = n -> Forall is_u8 l -> uchars n l = l.
Proof.
  intros <- H. unfold uchars. apply (nth_ext _ _ (u8 (nth 0 l 0)) 0); [by rewrite length_map, length_seq|].
  intros i Hi. rewrite length_map, length_seq in Hi. rewrite (map_nth (fun i => u8 (nth i l 0)) _ 0%nat), seq_nth by done.
  apply u8_id. eapply List.Forall_forall; [exact H|by apply nth_In].
Qed.

Lemma byte_at_uchars n l i : (i < n)%nat -> byte_at (uchars n l) i = u8 (nth i l 0).
Proof.
  intros Hi. unfold byte_at, uchars. rewrite (nth_indep _ _ (u8 (nth 0 l 0))) by (by rewrite length_map, length_seq).
  by rewrite (map_nth (fun i => u8 (nth i l 0)) _ 0%nat), seq_nth.
Qed.

Lemma message_ok m : Forall is_u8 (map u8 m) /\ blen (map u8 m) = blen m.
Proof.
  unfold blen. rewrite length_map. split; [|done]. apply Forall_forall. intros x Hx.
  apply list_elem_of_In, in_map_iff in Hx as (y & <- & _). apply u8_ok.
Qed.

(** ** The instance *)

(** The memory the signature functions allocate is available; an undefined
    result ([None]) does not occur. *)
#[local] Instance implementation : Curve25519 := {|
  Curve.curve25519_donna s p :=
    match Donna.curve25519_donna (uchars 32 s) (uchars 32 p) with Some r => r | None => (-1, []) end;
  Curve.curve25519_sign k m r :=
    match Signatures.curve25519_sign true (uchars 32 k) (map u8 m) (uchars 64 r) with Some r => r | None => (-1, []) end;
  Curve.curve25519_verify s p m :=
    match Signatures.curve25519_verify true true (uchars 64 s) (uchars 32 p) (map u8 m) with Some z => z | None => -1 end
|}.

Lemma basepoint_nine : uchars 32 basepoint = nine.
Proof. reflexivity. Qed.

Lemma donna_run s p : exists r, Curve.curve25519_donna s p = (0, r) /\ length r = 32%nat /\ Forall is_u8 r /\
  Donna.curve25519_donna (uchars 32 s) (uchars 32 p) = Some (0, r).
Proof.
  destruct (uchars_shape 32 s) as [Ls Hs], (uchars_shape 32 p) as [Lp Hp].
  destruct (curve25519_donna_ok _ _ Ls Hs Lp Hp) as (r & E & Lr & Hr & _). exists r.
  cbn [Curve.curve25519_donna implementation]. by rewrite E.
Qed.

Lemma lor_64 x : 0 <= x < 128 -> 64 <= Z.lor x 64 <= 127.
Proof.
  intros Hx. assert (forallb (fun x => (64 <=? Z.lor x 64) && (Z.lor x 64 <=? 127)) (map Z.of_nat (seq 0 128)) = true) as H
    by (vm_compute; reflexivity).
  rewrite forallb_forall in H. specialize (H x). assert (In x (map Z.of_nat (seq 0 128))) as Hin.
  { apply in_map_iff. exists (Z.to_nat x). split; [lia|]. apply in_seq. lia. }
  specialize (H Hin). apply andb_prop in H as [H1 H2]. apply Z.leb_le in H1, H2. lia.
Qed.

(** A private key after [curve_generate_private_key]. *)
Lemma signing_key_octets k : signing_key k ->
  byte_at (uchars 32 k) 0 mod 8 = 0 /\ 64 <= byte_at (uchars 32 k) 31 <= 127.
Proof.
  intros [Hl Hk]. rewrite !byte_at_uchars by lia. unfold DJB_KEY_LEN in Hl.
  destruct (lookup_lt_is_Some_2 k 0) as [x Hx]; [lia|]. destruct (lookup_lt_is_Some_2 k 31) as [y Hy]; [lia|].
  assert (Z.land x 248 = x) as Ex.
  { pose proof (f_equal (.!! 0%nat) Hk) as E. cbv beta in E. unfold clamp in E. rewrite !list_lookup_alter in E.
    rewrite Hx in E. cbn in E. by injection E. }
  assert (Z.lor (Z.land y 127) 64 = y) as Ey.
  { pose proof (f_equal (.!! 31%nat) Hk) as E. cbv beta in E. unfold clamp in E. rewrite !list_lookup_alter in E.
    rewrite Hy in E. cbn in E. by injection E. }
  rewrite !nth_lookup, Hx, Hy. cbn [default from_option id]. clear Hk Hx Hy Hl. split.
  - unfold u8. replace (x mod 256 mod 8) with (x mod 2 ^ 3) by (change (2 ^ 3) with 8; div_lia).
    rewrite <- Z.land_ones, <- Ex, <- Z.land_assoc by done. apply Z.land_0_r.
  - rewrite land_127 in Ey. pose proof (Z.mod_pos_bound y 128 ltac:(done)) as Hy.
    assert (64 <= Z.lor (y mod 128) 64 <= 127) as Hr by (by apply lor_64). rewrite Ey in Hr.
    unfold u8. rewrite Z.mod_small by lia. done.
Qed.

Lemma signing_key_value k : signing_key k -> clamped_value (uchars 32 k).
Proof.
  intros Hk. destruct (signing_key_octets k Hk) as [H0 H31]. destruct (uchars_shape 32 k) as [Hl Hu].
  rewrite byte_31 in H31 by done. exists (le_val (uchars 32 k) / 8).
  assert (le_val (uchars 32 k) mod 8 = 0) as Hm.
  { rewrite <- H0. destruct (uchars 32 k) as [|x l]; [done|]. unfold byte_at. cbn [nth le_val].
    replace (x + 256 * le_val l) with (x + (32 * le_val l) * 8) by ring. by rewrite Z_mod_plus_full. }
  pose proof (Z.div_mod (le_val (uchars 32 k)) 8 ltac:(done)) as Hd. split; [lia|].
  revert H31 Hd Hm. generalize (le_val (uchars 32 k)). intros v H31 Hd Hm. compute_powers.
  pose proof (Z.div_mod v 452312848583266388373324160190187140051835877600158453279131187530910662656 ltac:(done)) as Hv.
  pose proof (Z.mod_pos_bound v 452312848583266388373324160190187140051835877600158453279131187530910662656 ltac:(done)). lia.
Qed.

(** ** The contract *)

Lemma sign_run k m r : signing_key k -> signable m -> length r = 64%nat ->
  Curve.curve25519_sign k m r = (0, XEd.sign (uchars 32 k) (map u8 m) (uchars 64 r)).
Proof.
  intros Hk Hm Hr. destruct (uchars_shape 32 k) as [Lk Hk8], (uchars_shape 64 r) as [Lr Hr8], (message_ok m) as [Hm8 Lm].
  destruct (signing_key_octets k Hk) as [_ H31]. unfold signable in Hm. rewrite <- Lm in Hm.
  cbn [Curve.curve25519_sign implementation]. by rewrite curve25519_sign_ok by (done || lia).
Qed.

Lemma donna_keys a pa : Curve.curve25519_donna a basepoint = (0, pa) ->
  uchars 32 pa = pa /\ Donna.curve25519_donna (uchars 32 a) nine = Some (0, pa).
Proof.
  destruct (donna_run a basepoint) as (r & E & Lr & Hr & Ed). rewrite basepoint_nine in Ed. intros Ea.
  rewrite Ea in E. injection E as <-. split; [by apply uchars_id|done].
Qed.

Lemma implementation_verifies k p m r s : signing_key k -> signable m -> length r = 64%nat ->
  Curve.curve25519_donna k basepoint = (0, p) -> Curve.curve25519_sign k m r = (0, s) ->
  Curve.curve25519_verify s p m = 0.
Proof.
  intros Hk Hm Hr Ed Es. rewrite sign_run in Es by done. injection Es as <-.
  destruct (donna_keys k p Ed) as [Ep Hd]. destruct (uchars_shape 32 k) as [Lk Hk8], (uchars_shape 64 r) as [Lr Hr8].
  destruct (message_ok m) as [Hm8 Lm]. destruct (donna_public _ Lk Hk8) as (q & E & Lq & Hq & Vq).
  assert (q = p) as -> by congruence. cbn [Curve.curve25519_verify implementation]. rewrite Ep.
  destruct (sign_shape (uchars 32 k) (map u8 m) (uchars 64 r)) as [Ls Hs]. rewrite uchars_id by done.
  unfold signable in Hm. rewrite <- Lm in Hm.
  destruct (curve25519_verify_ok (XEd.sign (uchars 32 k) (map u8 m) (uchars 64 r)) p (map u8 m)) as [[-> _]|[_ H]];
    [done..|lia|done|]. destruct H. apply sign_verifies; [by apply clamped_public, signing_key_value|].
  by apply u_of_encoded.
Qed.

#[local] Instance implementation_laws : CurveLaws (CV := implementation).
Proof.
  split.
  - intros s p _ _. destruct (donna_run s p) as (r & E & Lr & _). by exists r.
  - intros a b pa pb Ea Eb. destruct (donna_keys a pa Ea) as [Ua Da], (donna_keys b pb Eb) as [Ub Db].
    destruct (uchars_shape 32 a) as [La Ha], (uchars_shape 32 b) as [Lb Hb].
    cbn [Curve.curve25519_donna implementation]. by rewrite Ua, Ub, (donna_comm _ _ pa pb La Ha Lb Hb Da Db).
  - intros k m r Hk Hm Hr. rewrite sign_run by done. eexists. split; [reflexivity|]. apply sign_shape.
  - apply implementation_verifies.
Qed.
