(* ===== verification/CurveTheorems.v ===== *)
(** What is established of curve25519/: the arithmetic of the field and of the
    scalars, the group, the encodings, key agreement and signatures, and the
    contract of the whole with curve.c. *)
From stdpp Require Import base list.
From Stdlib Require Import ZArith Lia.
From S2P Require Import Prelude Buffers Curve MachineInt FieldElement FieldProofs FieldEncoding Scalar ScalarProofs Sha512.
From S2P Require Import GroupElement BaseTable ScalarMult Edwards Coordinates Montgomery Ed25519.
From S2P Require Import GroupProofs TableProofs ScalarMultProofs SlideProofs PointEncoding.
From S2P Require Import Signatures SignatureProofs Donna DonnaProofs LadderProofs DonnaEncoding KeyAgreement Implementation.
#[local] Open Scope Z_scope.
#[local] Open Scope field_scope.

Definition octets (n : nat) (s : bytes) : Prop := length s = n /\ Forall is_u8 s.

Lemma octets_replicate n x : is_u8 x -> octets n (replicate n x).
Proof. intros Hx. split; [apply length_replicate|]. by apply Forall_replicate. Qed.

(** * The contract *)

(** C6: the code of curve25519/ keeps the promises on which everything that is
    proved of keys, sessions and groups rests: scalar multiplication succeeds
    on every 32 octets, Diffie-Hellman commutes for every two private keys,
    and what is signed with a key of [curve_generate_private_key] verifies
    under its public key. *)
Theorem curve_contract_is_kept : CurveLaws (CV := implementation).
Proof. apply implementation_laws. Qed.

(** * Key agreement *)

(** C12: [curve25519_donna] is X25519.  On every scalar and every u-coordinate of
    32 octets it returns 0 and the canonical encoding of the value of the
    Montgomery ladder; no sum or product overflows (the left shifts of
    [fcontract] and [s32_eq] wrap around); for the u-coordinate of a
    point P of the curve that is the u-coordinate of [k]P, the points of order
    1, 2, 4 and 8 included. *)
Theorem donna_multiplies_points k u : octets 32 k -> octets 32 u ->
  exists s, Donna.curve25519_donna k u = Some (0, s) /\ encodes_u s (X25519 k (u_of u)) /\
    forall p, u_of u = mont_u p -> encodes_u s (mont_u (zmul (le_val k) p)).
Proof.
  intros [Lk Hk] [Lu Hu]. destruct (curve25519_donna_ok k u Lk Hk Lu Hu) as (s & E & Hs).
  exists s. split; [done|]. split; [done|]. intros p Hp. by rewrite Hp, X25519_point in Hs.
Qed.

(** [curve25519_keygen], which multiplies on the Edwards curve with the tables
    of ge_scalarmult_base.c, computes the same public key as the Montgomery
    ladder on the base point 9, for every private key below 2^255. *)
Theorem keygen_agrees_with_donna k : octets 32 k -> byte_at k 31 <= 127 ->
  exists p, curve25519_keygen k = Some p /\ Donna.curve25519_donna k basepoint = Some (0, p).
Proof.
  intros [Lk Hk] H31. destruct (curve25519_keygen_ok k Lk Hk H31) as (p & E & Hp).
  destruct (donna_public k Lk Hk) as (q & Eq & Hq). exists p. split; [done|].
  by rewrite (encodes_u_inj p q _ Hp Hq).
Qed.

(** * Signatures *)

(** C13: [curve25519_sign] makes XEd25519 signatures: for every key below 2^255,
    message and 64 octets of randomness the result is that of the
    specification [XEd.sign] over the group, SHA-512 and the integers modulo
    the order; if [malloc] fails the result is -1. *)
Theorem signing_is_xeddsa alloc k m z : octets 32 k -> byte_at k 31 <= 127 -> Forall is_u8 m -> blen m + 128 < 2 ^ 64 ->
  octets 64 z ->
  Signatures.curve25519_sign alloc k m z = Some (if alloc then (0, XEd.sign k m z) else (-1, replicate 64 0)).
Proof.
  intros [Lk Hk] H31 Hm Hn [Lz Hz]. destruct alloc; [by apply curve25519_sign_ok|done].
Qed.

(** C14: [curve25519_verify] decides [XEd.verifies], the verification equation over
    the group: for every 64 octets of signature, every key and message the
    result is 0 if the equation holds for the point the key and the sign bit
    determine, and -1 otherwise, as if [malloc] fails. *)
Theorem verification_decides a1 a2 sig pub m : octets 64 sig -> octets 32 pub -> Forall is_u8 m -> blen m + 64 < 2 ^ 64 ->
  exists r, Signatures.curve25519_verify a1 a2 sig pub m = Some r /\ (r = 0 \/ r = -1) /\
    (r = 0 <-> a1 = true /\ a2 = true /\ XEd.verifies sig pub m).
Proof.
  intros [Ls Hs] [Lp Hp] Hm Hn. destruct a1, a2; cycle 1.
  { exists (-1). split; [done|]. split; [by right|]. by split; [|intros (_ & ? & _)]. }
  { exists (-1). split; [done|]. split; [by right|]. by split; [|intros (? & _ & _)]. }
  { exists (-1). split; [done|]. split; [by right|]. by split; [|intros (? & _ & _)]. }
  destruct (curve25519_verify_ok sig pub m Ls Hs Lp Hp Hm Hn) as [[-> H]|[-> H]].
  - exists 0. split; [done|]. split; [by left|]. done.
  - exists (-1). split; [done|]. split; [by right|]. split; [done|]. by intros (_ & _ & ?).
Qed.

(** * Arithmetic *)

(** C36: products of field elements never overflow.  In both representations (ten
    32-bit limbs with 64-bit products in ed25519/, ten 64-bit limbs in
    curve25519-donna.c) operands within the bounds of the comments give, without
    leaving the width of an intermediate value, limbs small enough for a sum or
    difference of results to be an operand again, and the product modulo
    2^255 - 19. *)
Theorem field_products_stay_in_range :
  (forall f g, wide f -> wide g -> exists h, fe_mul f g = Some h /\ tight h /\ fe_val h ≡p fe_val f * fe_val g) /\
  (forall f g, tight f -> tight g -> 
    (exists h, fe_add f g = Some h /\ wide h /\ fe_val h = fe_val f + fe_val g) /\
    (exists h, fe_sub f g = Some h /\ wide h /\ fe_val h = fe_val f - fe_val g)) /\
  (forall a b, bounded wide_limb a -> bounded wide_limb b ->
    exists r, Donna.fmul a b = Some r /\ bounded tight_limb r /\ limbs25 r ≡p limbs25 a * limbs25 b) /\
  (forall a b, bounded tight_limb a -> bounded tight_limb b ->
    (exists r, fsum a b = Some r /\ bounded wide_limb r /\ limbs25 r = limbs25 a + limbs25 b) /\
    (exists r, fdifference a b = Some r /\ bounded wide_limb r /\ limbs25 r = limbs25 b - limbs25 a)).
Proof.
  split; [apply FieldProofs.fe_mul_ok|]. split; [|split; [apply DonnaProofs.fmul_ok|]].
  - intros f g Hf Hg. destruct (fe_add_ok f g _ _ _ _ Hf Hg) as (h & E & H & V); [lia|lia|].
    destruct (fe_sub_ok f g _ _ _ _ Hf Hg) as (h' & E' & H' & V'); [lia|lia|].
    split; eexists; (split; [eassumption|]); (split; [|done]); eapply fe_bounded_weaken; eauto; lia.
  - intros a b Ha Hb. destruct (fsum_ok a b _ _ Ha Hb) as (r & E & H & V); [done|].
    destruct (fdifference_ok a b _ _ Ha Hb) as (r' & E' & H' & V'); [done|].
    split; eexists; (split; [eassumption|]); (split; [|done]); eapply bounded_weaken; eauto; done.
Qed.

(** Scalars are reduced completely.  [sc_reduce] and [sc_muladd] write the
    canonical 32 octets of s mod L and (a b + c) mod L, L the order of the base
    point, for all octets, without overflow. *)
Theorem scalars_are_reduced s a b c : octets 64 s -> octets 32 a -> octets 32 b -> octets 32 c ->
  sc_reduce s = Some (le_octets 32 (le_val s mod L25519)) /\
  sc_muladd a b c = Some (le_octets 32 ((le_val a * le_val b + le_val c) mod L25519)).
Proof.
  intros [Ls Hs] [La Ha] [Lb Hb] [Lc Hc]. destruct (sc_reduce_ok s Ls Hs) as (r & -> & Lr & Hr & Vr).
  destruct (sc_muladd_ok a b c La Ha Lb Hb Lc Hc) as (t & -> & Lt & Ht & Vt).
  by rewrite (le_octets_of r 32 _ Lr Hr Vr), (le_octets_of t 32 _ Lt Ht Vt).
Qed.

(** * The group *)

(** The formulas of the group operations add points.  On extended coordinates
    that represent P and cached or precomputed ones that represent Q, equal or
    opposite points and the neutral element not excepted, [ge_add] and
    [ge_madd] give P + Q, [ge_sub] and [ge_msub] P - Q, and [ge_p3_dbl] 2 P,
    without overflow, and conversion gives coordinates for the next operation. *)
Theorem group_operations_add h c d p q : rep_p3 h p -> rep_ge_cached c q -> rep_precomp d q ->
  let gives (o : option ge_p1p1) (r : point) :=
    exists t t', o = Some t /\ ge_p1p1_to_p3 t = Some t' /\ rep_p3 t' r in
  gives (ge_add h c) (padd p q) /\ gives (ge_sub h c) (padd p (popp q)) /\
  gives (ge_madd h d) (padd p q) /\ gives (ge_msub h d) (padd p (popp q)) /\ gives (ge_p3_dbl h) (zmul 2 p).
Proof.
  intros Hh Hc Hd gives.
  assert (forall o r, (exists t, o = Some t /\ rep_p1p1 t r) -> gives o r) as Hg.
  { intros o r (t & E & Ht). destruct (ge_p1p1_to_p3_ok t r Ht) as (t' & E' & Ht'). by exists t, t'. }
  change 2 with (2 * 1). rewrite zmul_double, zmul_1.
  split_and!; apply Hg; [by apply ge_add_ok|by apply ge_sub_ok|by apply ge_madd_ok|by apply ge_msub_ok|by apply ge_p3_dbl_ok].
Qed.

(** [ge_scalarmult_base] multiplies the base point: with the signed digits it
    recodes a scalar below 2^255 into and the 256 multiples of the table in
    base.h, each of which is the point it should be. *)
Theorem scalarmult_base_multiplies a : octets 32 a -> byte_at a 31 <= 127 ->
  (exists h, ge_scalarmult_base a = Some h /\ rep_p3 h (zmul (le_val a) base_point)) /\
  forall i j row c, base !! i = Some row -> row !! j = Some c ->
    rep_precomp c (zmul ((Z.of_nat j + 1) * 256 ^ Z.of_nat i) base_point).
Proof.
  intros [La Ha] H31. split; [by apply scalarmult_base_ok|]. intros i j row c Hi Hj. by apply (proj2 (base_ok i row Hi)).
Qed.

(** [ge_double_scalarmult_vartime] computes a A + b B from the sliding
    windows of both scalars. *)
Theorem double_scalarmult_multiplies a b h p : octets 32 a -> octets 32 b -> byte_at a 31 < 32 -> byte_at b 31 < 32 ->
  rep_p3 h p ->
  exists r, ge_double_scalarmult_vartime a h b = Some r /\
    rep_p2 r (padd (zmul (le_val a) p) (zmul (le_val b) base_point)).
Proof. intros [La Ha] [Lb Hb] Ha31 Hb31 Hh. by apply double_scalarmult_ok. Qed.

(** Points are decoded exactly.  [ge_p3_tobytes] writes 32 octets that determine the
    point, and [ge_frombytes_negate_vartime] gives the negative of the encoded
    point; octets whose ordinate belongs to no point of the curve, and only
    those, are refused with -1. *)
Theorem points_are_decoded s h p : octets 32 s -> rep_p3 h p ->
  (exists e h', ge_p3_tobytes h = Some e /\ octets 32 e /\ ge_frombytes_negate_vartime e = Some (0, Some h') /\
    rep_p3 h' (popp p)) /\
  exists code r, ge_frombytes_negate_vartime s = Some (code, r) /\
    (code = 0 <-> exists q, p_y q = y_of s) /\ (code <> 0 -> code = -1 /\ r = None).
Proof.
  intros [Ls Hs] Hh. split.
  - destruct (ge_p3_tobytes_ok h p Hh) as (e & E & Le & He & Ve).
    destruct (ge_frombytes_encoding e p Le He Ve) as (h' & E' & Hh'). by exists e, h'.
  - destruct (ge_frombytes_ok s Ls Hs) as ([code r] & E & Hd). exists code, r. split; [done|]. unfold decoded in Hd.
    cbn [fst snd] in Hd. destruct r as [h'|].
    + destruct Hd as [-> (q & _ & Hy & _)]. split; [|done]. split; [|done]. intros _. by exists q.
    + destruct Hd as [-> Hno]. split; [|done]. split; [done|]. intros [q Hq]. by destruct (Hno q).
Qed.

(** * Witnesses *)

Definition some_key : bytes := replicate 32 64.

Lemma some_key_ok : octets 32 some_key.
Proof. by apply octets_replicate. Qed.

Lemma donna_multiplies_points_witness : exists s, Donna.curve25519_donna some_key some_key = Some (0, s).
Proof.
  destruct (donna_multiplies_points some_key some_key some_key_ok some_key_ok) as (s & E & _). exists s. exact E.
Defined.

Lemma keygen_agrees_with_donna_witness : exists p,
  curve25519_keygen some_key = Some p /\ Donna.curve25519_donna some_key basepoint = Some (0, p).
Proof. apply keygen_agrees_with_donna; [exact some_key_ok|]. change (64 <= 127). lia. Defined.

Lemma signing_is_xeddsa_witness :
  Signatures.curve25519_sign true some_key [1; 2; 3] (replicate 64 5) = Some (0, XEd.sign some_key [1; 2; 3] (replicate 64 5)).
Proof.
  apply (signing_is_xeddsa true some_key [1; 2; 3] (replicate 64 5) some_key_ok); [change (64 <= 127); lia| |reflexivity|].
  - repeat constructor; unfold is_u8; lia.
  - apply octets_replicate. unfold is_u8. lia.
Defined.

Lemma verification_decides_witness : exists r,
  Signatures.curve25519_verify true true (replicate 64 5) some_key [1; 2; 3] = Some r /\ (r = 0 \/ r = -1).
Proof.
  destruct (verification_decides true true (replicate 64 5) some_key [1; 2; 3]) as (r & E & H & _).
  - apply octets_replicate. unfold is_u8. lia.
  - exact some_key_ok.
  - repeat constructor; unfold is_u8; lia.
  - reflexivity.
  - exists r. split; [exact E|exact H].
Defined.

Lemma scalars_are_reduced_witness :
  sc_reduce (replicate 64 7) = Some (le_octets 32 (le_val (replicate 64 7) mod L25519)).
Proof.
  refine (proj1 (scalars_are_reduced (replicate 64 7) some_key some_key some_key _ some_key_ok some_key_ok some_key_ok)).
  apply octets_replicate. unfold is_u8. lia.
Defined.

Lemma group_operations_add_witness : exists c t, ge_add ge_p3_0 c = Some t.
Proof.
  destruct (ge_p3_to_cached_ok _ _ ge_p3_0_ok) as (c & _ & Hc).
  destruct (group_operations_add ge_p3_0 c ge_precomp_0 origin origin ge_p3_0_ok Hc ge_precomp_0_ok) as ((t & _ & E & _) & _).
  exists c, t. exact E.
Defined.

Lemma scalarmult_base_multiplies_witness : exists h, ge_scalarmult_base some_key = Some h.
Proof.
  destruct (scalarmult_base_multiplies some_key some_key_ok) as ((h & E & _) & _); [change (64 <= 127); lia|].
  exists h. exact E.
Defined.

Lemma double_scalarmult_multiplies_witness : exists r,
  ge_double_scalarmult_vartime (replicate 32 3) ge_p3_0 (replicate 32 4) = Some r.
Proof.
  destruct (double_scalarmult_multiplies (replicate 32 3) (replicate 32 4) ge_p3_0 origin) as (r & E & _);
    [apply octets_replicate; unfold is_u8; lia|apply octets_replicate; unfold is_u8; lia|change (3 < 32); lia|
     change (4 < 32); lia|exact ge_p3_0_ok|].
  exists r. exact E.
Defined.

Lemma points_are_decoded_witness : exists e h, ge_p3_tobytes ge_p3_0 = Some e /\
  ge_frombytes_negate_vartime e = Some (0, Some h).
Proof.
  destruct (points_are_decoded some_key ge_p3_0 origin some_key_ok ge_p3_0_ok) as ((e & h & E & _ & D & _) & _).
  exists e, h. split; [exact E|exact D].
Defined.
