(* ===== verification/Memory.v ===== *)
(** Reference counting: [signal_type_init], [signal_type_ref] and
    [signal_type_unref] of signal_protocol.c, the destructors of all counted
    types, and the operations that store references in sessions.

    A heap maps the addresses of live allocations to their contents.  Only
    what matters to memory management is kept of a structure: its reference
    count and its pointers.  A doubly linked list of nodes is a list of their
    addresses and pointers.  An operation gives [None] when an assertion fails,
    when freed memory is used or freed again. *)
From stdpp Require Import base list gmap.
From Stdlib Require Import ZArith Lia.
From S2P Require Import Prelude.
#[local] Open Scope Z_scope.

Abbreviation loc := positive.

(** A pointer; [None] is the null pointer. *)
Abbreviation ptr := (option loc).

(** ** Structures *)

(** A node of a list that refers to a counted object, such as
    [sender_message_key_node], [sender_key_state_node] and
    [session_record_state_node]. *)
Record node : Type := Node { node_address : loc; node_object : ptr }.

Record session_state_receiver_chain : Type := ReceiverChain {
  rc_address : loc;
  rc_sender_ratchet_key : ptr;
  rc_chain_key : ptr;
  rc_message_keys : list loc
}.

Record session_state : Type := SessionState {
  local_identity_public : ptr;
  remote_identity_public : ptr;
  root_key : ptr;
  sender_ratchet_key_pair : ptr;
  sender_chain_key : ptr;
  sender_message_keys : list loc;
  receiver_chains : list session_state_receiver_chain;
  has_pending_key_exchange : bool;
  local_base_key : ptr;
  local_ratchet_key : ptr;
  local_identity_key : ptr;
  has_pending_pre_key : bool;
  pending_base_key : ptr;
  alice_base_key : ptr
}.

(** The counted types with their pointers. *)
Inductive object : Type :=
  | EcPublicKey
  | EcPrivateKey
  | EcKeyPair (public_key private_key : ptr)
  | HkdfContext
  | RatchetChainKey (kdf key : ptr)
  | RatchetRootKey (kdf key : ptr)
  | RatchetIdentityKeyPair (public_key private_key : ptr)
  | SymmetricParameters (our_identity_key our_base_key our_ratchet_key
      their_base_key their_ratchet_key their_identity_key : ptr)
  | AliceParameters (our_identity_key our_base_key their_identity_key
      their_signed_pre_key their_ratchet_key their_one_time_pre_key : ptr)
  | BobParameters (our_identity_key our_signed_pre_key our_ratchet_key
      their_identity_key their_base_key our_one_time_pre_key : ptr)
  | KeyExchangeMessage (base_key ratchet_key identity_key serialized : ptr)
  | SignalMessage (serialized sender_ratchet_key ciphertext : ptr)
  | PreKeySignalMessage (serialized base_key identity_key message : ptr)
  | SenderKeyMessage (serialized ciphertext : ptr)
  | SenderKeyDistributionMessage (serialized chain_key signature_key : ptr)
  | SessionPreKey (key_pair : ptr)
  | SessionSignedPreKey (key_pair : ptr)
  | SessionPreKeyBundle (pre_key_public signed_pre_key_public signed_pre_key_signature identity_key : ptr)
  | SenderMessageKey (iv cipher_key seed : ptr)
  | SenderChainKey (chain_key : ptr)
  | SenderKeyState (chain_key signature_public_key signature_private_key : ptr) (message_keys : list node)
  | SenderKeyRecord (sender_key_states : list node)
  | State (state : session_state)
  | SessionRecord (state : ptr) (previous_states : list node)
  | DisplayableFingerprint (local_fingerprint remote_fingerprint display_text : ptr)
  | ScannableFingerprint (local_stable_identifier local_identity_key
      remote_stable_identifier remote_identity_key : ptr)
  | Fingerprint (displayable scannable : ptr).

(** A live allocation: an instance of [signal_type_base], or memory without
    a count, such as a [signal_buffer] or the node of a list. *)
Inductive cell : Type :=
  | Counted (ref_count : Z) (o : object)
  | Block.

Abbreviation heap := (gmap loc cell).

(** ** Actions *)

Definition action : Type := heap -> option heap.

Definition skip : action := Some.
Definition andthen (a b : action) : action := fun h => h ← a h; b h.
Declare Scope action_scope.
Delimit Scope action_scope with action.
Bind Scope action_scope with action.
Notation "a ;; b" := (andthen a b) : action_scope.
#[local] Open Scope action_scope.

(** [if(p) a] *)
Definition non_null (p : ptr) (a : action) : action := if p is Some _ then a else skip.

(** [DL_FOREACH_SAFE] *)
Fixpoint foreach {A} (f : A -> action) (l : list A) : action :=
  match l with
  | [] => skip
  | x :: l' => f x ;; foreach f l'
  end.

Definition free (p : ptr) : action := fun h =>
  match p with
  | None => Some h
  | Some l => if h !! l is Some _ then Some (delete l h) else None
  end.

Definition signal_buffer_free (buffer : ptr) : action := non_null buffer (free buffer).
Definition signal_buffer_bzero_free (buffer : ptr) : action := non_null buffer (free buffer).

(** Memory [malloc] returned. *)
Definition malloc_block (l : loc) : action := fun h => if h !! l is Some _ then None else Some (<[l := Block]> h).

(** [signal_type_init] on the memory [malloc] returned. *)
Definition signal_type_init (instance : loc) (o : object) : action := fun h =>
  if h !! instance is Some _ then None else Some (<[instance := Counted 1 o]> h).

Definition signal_type_ref (instance : ptr) : action := fun h =>
  l ← instance;
  match h !! l with
  | Some (Counted ref_count o) =>
      if 0 <? ref_count then Some (<[l := Counted (u32 (ref_count + 1)) o]> h) else None
  | _ => None
  end.

(** ** Destructors *)

Section Destructors.
Variable signal_type_unref : ptr -> action.

Definition ec_public_key_destroy (self : loc) : action := free (Some self).
Definition ec_private_key_destroy (self : loc) : action := free (Some self).

Definition ec_key_pair_destroy (self : loc) (public_key private_key : ptr) : action :=
  signal_type_unref public_key ;; signal_type_unref private_key ;; free (Some self).

Definition hkdf_destroy (self : loc) : action := free (Some self).

Definition ratchet_chain_key_destroy (self : loc) (kdf key : ptr) : action :=
  signal_type_unref kdf ;; non_null key (free key) ;; free (Some self).

Definition ratchet_root_key_destroy (self : loc) (kdf key : ptr) : action :=
  signal_type_unref kdf ;; non_null key (free key) ;; free (Some self).

Definition ratchet_identity_key_pair_destroy (self : loc) (public_key private_key : ptr) : action :=
  signal_type_unref public_key ;; signal_type_unref private_key ;; free (Some self).

Definition symmetric_signal_protocol_parameters_destroy (self : loc) (our_identity_key our_base_key our_ratchet_key
    their_base_key their_ratchet_key their_identity_key : ptr) : action :=
  signal_type_unref our_identity_key ;;
  signal_type_unref our_base_key ;;
  signal_type_unref our_ratchet_key ;;
  signal_type_unref their_base_key ;;
  signal_type_unref their_ratchet_key ;;
  signal_type_unref their_identity_key ;;
  free (Some self).

Definition alice_signal_protocol_parameters_destroy (self : loc) (our_identity_key our_base_key their_identity_key
    their_signed_pre_key their_ratchet_key their_one_time_pre_key : ptr) : action :=
  signal_type_unref our_identity_key ;;
  signal_type_unref our_base_key ;;
  signal_type_unref their_identity_key ;;
  signal_type_unref their_signed_pre_key ;;
  signal_type_unref their_ratchet_key ;;
  non_null their_one_time_pre_key (signal_type_unref their_one_time_pre_key) ;;
  free (Some self).

Definition bob_signal_protocol_parameters_destroy (self : loc) (our_identity_key our_signed_pre_key our_ratchet_key
    their_identity_key their_base_key our_one_time_pre_key : ptr) : action :=
  signal_type_unref our_identity_key ;;
  signal_type_unref our_signed_pre_key ;;
  signal_type_unref our_ratchet_key ;;
  signal_type_unref their_identity_key ;;
  signal_type_unref their_base_key ;;
  non_null our_one_time_pre_key (signal_type_unref our_one_time_pre_key) ;;
  free (Some self).

Definition key_exchange_message_destroy (self : loc) (base_key ratchet_key identity_key serialized : ptr) : action :=
  signal_type_unref base_key ;;
  signal_type_unref ratchet_key ;;
  signal_type_unref identity_key ;;
  non_null serialized (signal_buffer_free serialized) ;;
  free (Some self).

Definition signal_message_destroy (self : loc) (serialized sender_ratchet_key ciphertext : ptr) : action :=
  non_null serialized (signal_buffer_free serialized) ;;
  signal_type_unref sender_ratchet_key ;;
  non_null ciphertext (signal_buffer_free ciphertext) ;;
  free (Some self).

Definition pre_key_signal_message_destroy (self : loc) (serialized base_key identity_key message : ptr) : action :=
  non_null serialized (signal_buffer_free serialized) ;;
  signal_type_unref base_key ;;
  signal_type_unref identity_key ;;
  signal_type_unref message ;;
  free (Some self).

Definition sender_key_message_destroy (self : loc) (serialized ciphertext : ptr) : action :=
  non_null serialized (signal_buffer_free serialized) ;;
  non_null ciphertext (signal_buffer_free ciphertext) ;;
  free (Some self).

Definition sender_key_distribution_message_destroy (self : loc) (serialized chain_key signature_key : ptr) : action :=
  non_null serialized (signal_buffer_free serialized) ;;
  non_null chain_key (signal_buffer_free chain_key) ;;
  signal_type_unref signature_key ;;
  free (Some self).

Definition session_pre_key_destroy (self : loc) (key_pair : ptr) : action :=
  non_null key_pair (signal_type_unref key_pair) ;; free (Some self).

Definition session_signed_pre_key_destroy (self : loc) (key_pair : ptr) : action :=
  non_null key_pair (signal_type_unref key_pair) ;; free (Some self).

Definition session_pre_key_bundle_destroy (self : loc) (pre_key_public signed_pre_key_public
    signed_pre_key_signature identity_key : ptr) : action :=
  non_null pre_key_public (signal_type_unref pre_key_public) ;;
  non_null signed_pre_key_public (signal_type_unref signed_pre_key_public) ;;
  non_null signed_pre_key_signature (signal_buffer_free signed_pre_key_signature) ;;
  non_null identity_key (signal_type_unref identity_key) ;;
  free (Some self).

Definition sender_message_key_destroy (self : loc) (iv cipher_key seed : ptr) : action :=
  signal_buffer_bzero_free iv ;;
  signal_buffer_bzero_free cipher_key ;;
  signal_buffer_bzero_free seed ;;
  free (Some self).

Definition sender_chain_key_destroy (self : loc) (chain_key : ptr) : action :=
  signal_buffer_bzero_free chain_key ;; free (Some self).

(** The loop over [sender_message_key_node], [sender_key_state_node] or
    [session_record_state_node]. *)
Definition free_nodes (nodes : list node) : action :=
  foreach (fun cur_node =>
    non_null (node_object cur_node) (signal_type_unref (node_object cur_node)) ;;
    free (Some (node_address cur_node))) nodes.

Definition sender_key_state_destroy (self : loc) (chain_key signature_public_key signature_private_key : ptr)
    (message_keys : list node) : action :=
  signal_type_unref chain_key ;;
  signal_type_unref signature_public_key ;;
  signal_type_unref signature_private_key ;;
  free_nodes message_keys ;;
  free (Some self).

Definition sender_key_record_destroy (self : loc) (sender_key_states : list node) : action :=
  free_nodes sender_key_states ;; free (Some self).

Definition free_message_keys (nodes : list loc) : action := foreach (fun cur_node => free (Some cur_node)) nodes.

Definition session_state_free_sender_chain (state : session_state) : action :=
  non_null (sender_ratchet_key_pair state) (signal_type_unref (sender_ratchet_key_pair state)) ;;
  non_null (sender_chain_key state) (signal_type_unref (sender_chain_key state)) ;;
  free_message_keys (sender_message_keys state).

Definition session_state_free_receiver_chain_node (node : session_state_receiver_chain) : action :=
  non_null (rc_sender_ratchet_key node) (signal_type_unref (rc_sender_ratchet_key node)) ;;
  non_null (rc_chain_key node) (signal_type_unref (rc_chain_key node)) ;;
  free_message_keys (rc_message_keys node) ;;
  free (Some (rc_address node)).

Definition session_state_free_receiver_chain (state : session_state) : action :=
  foreach session_state_free_receiver_chain_node (receiver_chains state).

Definition session_state_destroy (self : loc) (state : session_state) : action :=
  non_null (local_identity_public state) (signal_type_unref (local_identity_public state)) ;;
  non_null (remote_identity_public state) (signal_type_unref (remote_identity_public state)) ;;
  non_null (root_key state) (signal_type_unref (root_key state)) ;;
  session_state_free_sender_chain state ;;
  session_state_free_receiver_chain state ;;
  (if has_pending_key_exchange state then
    non_null (local_base_key state) (signal_type_unref (local_base_key state)) ;;
    non_null (local_ratchet_key state) (signal_type_unref (local_ratchet_key state)) ;;
    non_null (local_identity_key state) (signal_type_unref (local_identity_key state))
  else skip) ;;
  (if has_pending_pre_key state then
    non_null (pending_base_key state) (signal_type_unref (pending_base_key state))
  else skip) ;;
  non_null (alice_base_key state) (signal_type_unref (alice_base_key state)) ;;
  free (Some self).

Definition session_record_free_previous_states (previous_states : list node) : action := free_nodes previous_states.

Definition session_record_destroy (self : loc) (state : ptr) (previous_states : list node) : action :=
  non_null state (signal_type_unref state) ;;
  session_record_free_previous_states previous_states ;;
  free (Some self).

Definition displayable_fingerprint_destroy (self : loc)
    (local_fingerprint remote_fingerprint display_text : ptr) : action :=
  non_null local_fingerprint (free local_fingerprint) ;;
  non_null remote_fingerprint (free remote_fingerprint) ;;
  non_null display_text (free display_text) ;;
  free (Some self).

Definition scannable_fingerprint_destroy (self : loc) (local_stable_identifier local_identity_key
    remote_stable_identifier remote_identity_key : ptr) : action :=
  non_null local_stable_identifier (free local_stable_identifier) ;;
  signal_type_unref local_identity_key ;;
  non_null remote_stable_identifier (free remote_stable_identifier) ;;
  signal_type_unref remote_identity_key ;;
  free (Some self).

Definition fingerprint_destroy (self : loc) (displayable scannable : ptr) : action :=
  signal_type_unref displayable ;; signal_type_unref scannable ;; free (Some self).

(** [instance->destroy(instance)]: each constructor passes the destructor of
    its type to [signal_type_init]. *)
Definition destroy (self : loc) (o : object) : action :=
  match o with
  | EcPublicKey => ec_public_key_destroy self
  | EcPrivateKey => ec_private_key_destroy self
  | EcKeyPair a b => ec_key_pair_destroy self a b
  | HkdfContext => hkdf_destroy self
  | RatchetChainKey a b => ratchet_chain_key_destroy self a b
  | RatchetRootKey a b => ratchet_root_key_destroy self a b
  | RatchetIdentityKeyPair a b => ratchet_identity_key_pair_destroy self a b
  | SymmetricParameters a b c d e f => symmetric_signal_protocol_parameters_destroy self a b c d e f
  | AliceParameters a b c d e f => alice_signal_protocol_parameters_destroy self a b c d e f
  | BobParameters a b c d e f => bob_signal_protocol_parameters_destroy self a b c d e f
  | KeyExchangeMessage a b c d => key_exchange_message_destroy self a b c d
  | SignalMessage a b c => signal_message_destroy self a b c
  | PreKeySignalMessage a b c d => pre_key_signal_message_destroy self a b c d
  | SenderKeyMessage a b => sender_key_message_destroy self a b
  | SenderKeyDistributionMessage a b c => sender_key_distribution_message_destroy self a b c
  | SessionPreKey a => session_pre_key_destroy self a
  | SessionSignedPreKey a => session_signed_pre_key_destroy self a
  | SessionPreKeyBundle a b c d => session_pre_key_bundle_destroy self a b c d
  | SenderMessageKey a b c => sender_message_key_destroy self a b c
  | SenderChainKey a => sender_chain_key_destroy self a
  | SenderKeyState a b c l => sender_key_state_destroy self a b c l
  | SenderKeyRecord l => sender_key_record_destroy self l
  | State s => session_state_destroy self s
  | SessionRecord a l => session_record_destroy self a l
  | DisplayableFingerprint a b c => displayable_fingerprint_destroy self a b c
  | ScannableFingerprint a b c d => scannable_fingerprint_destroy self a b c d
  | Fingerprint a b => fingerprint_destroy self a b
  end.
End Destructors.

(** [signal_type_unref]; [depth] bounds the nesting of destructors. *)
Fixpoint unref (depth : nat) (instance : ptr) : action := fun h =>
  match instance with
  | None => Some h
  | Some l =>
      match h !! l with
      | Some (Counted ref_count o) =>
          if ref_count <=? 0 then None
          else if 1 <? ref_count then Some (<[l := Counted (ref_count - 1) o]> h)
          else if depth is S depth' then destroy (unref depth') l o h else None
      | _ => None
      end
  end.

(** Objects hold references to objects of simpler types only, down to keys:
    a record to a state, a state to a key pair, a key pair to a key. *)
Definition signal_type_unref : ptr -> action := unref 8.

(** ** Sessions *)

(** Reading and writing the structure at [state]. *)
Definition load_state (state : loc) (k : session_state -> action) : action := fun h =>
  if h !! state is Some (Counted _ (State s)) then k s h else None.
Definition store_state (state : loc) (f : session_state -> session_state) : action := fun h =>
  if h !! state is Some (Counted n (State s)) then Some (<[state := Counted n (State (f s))]> h) else None.

Definition set_local_identity_public (p : ptr) (s : session_state) : session_state :=
  let '(SessionState a b c d e f g h i j k l m n) := s in SessionState p b c d e f g h i j k l m n.
Definition set_remote_identity_public (p : ptr) (s : session_state) : session_state :=
  let '(SessionState a b c d e f g h i j k l m n) := s in SessionState a p c d e f g h i j k l m n.
Definition set_root_key (p : ptr) (s : session_state) : session_state :=
  let '(SessionState a b c d e f g h i j k l m n) := s in SessionState a b p d e f g h i j k l m n.
Definition set_sender_ratchet_key_pair (p : ptr) (s : session_state) : session_state :=
  let '(SessionState a b c d e f g h i j k l m n) := s in SessionState a b c p e f g h i j k l m n.
Definition set_sender_chain_key (p : ptr) (s : session_state) : session_state :=
  let '(SessionState a b c d e f g h i j k l m n) := s in SessionState a b c d p f g h i j k l m n.
Definition set_receiver_chains (x : list session_state_receiver_chain) (s : session_state) : session_state :=
  let '(SessionState a b c d e f g h i j k l m n) := s in SessionState a b c d e f x h i j k l m n.
Definition set_has_pending_key_exchange (x : bool) (s : session_state) : session_state :=
  let '(SessionState a b c d e f g h i j k l m n) := s in SessionState a b c d e f g x i j k l m n.
Definition set_local_base_key (p : ptr) (s : session_state) : session_state :=
  let '(SessionState a b c d e f g h i j k l m n) := s in SessionState a b c d e f g h p j k l m n.
Definition set_local_ratchet_key (p : ptr) (s : session_state) : session_state :=
  let '(SessionState a b c d e f g h i j k l m n) := s in SessionState a b c d e f g h i p k l m n.
Definition set_local_identity_key (p : ptr) (s : session_state) : session_state :=
  let '(SessionState a b c d e f g h i j k l m n) := s in SessionState a b c d e f g h i j p l m n.
Definition set_has_pending_pre_key (x : bool) (s : session_state) : session_state :=
  let '(SessionState a b c d e f g h i j k l m n) := s in SessionState a b c d e f g h i j k x m n.
Definition set_pending_base_key (p : ptr) (s : session_state) : session_state :=
  let '(SessionState a b c d e f g h i j k l m n) := s in SessionState a b c d e f g h i j k l p n.
Definition set_alice_base_key (p : ptr) (s : session_state) : session_state :=
  let '(SessionState a b c d e f g h i j k l m n) := s in SessionState a b c d e f g h i j k l m p.

(** [if(state->f) SIGNAL_UNREF(state->f)]; the macro clears the pointer after
    the reference is released. *)
Definition SIGNAL_UNREF (state : loc) (f : session_state -> ptr) (set : ptr -> session_state -> session_state) : action :=
  load_state state (fun s =>
    non_null (f s) (signal_type_unref (f s) ;; store_state state (set None))).

Definition session_state_set_local_identity_key (state : loc) (identity_key : ptr) : action :=
  SIGNAL_UNREF state local_identity_public set_local_identity_public ;;
  signal_type_ref identity_key ;;
  store_state state (set_local_identity_public identity_key).

Definition session_state_set_remote_identity_key (state : loc) (identity_key : ptr) : action :=
  SIGNAL_UNREF state remote_identity_public set_remote_identity_public ;;
  signal_type_ref identity_key ;;
  store_state state (set_remote_identity_public identity_key).

Definition session_state_set_root_key (state : loc) (new_root_key : ptr) : action :=
  SIGNAL_UNREF state root_key set_root_key ;;
  signal_type_ref new_root_key ;;
  store_state state (set_root_key new_root_key).

(** [has_sender_chain] does not matter here. *)
Definition session_state_set_sender_chain (state : loc) (key_pair chain_key : ptr) : action :=
  SIGNAL_UNREF state sender_ratchet_key_pair set_sender_ratchet_key_pair ;;
  signal_type_ref key_pair ;;
  store_state state (set_sender_ratchet_key_pair key_pair) ;;
  SIGNAL_UNREF state sender_chain_key set_sender_chain_key ;;
  signal_type_ref chain_key ;;
  store_state state (set_sender_chain_key chain_key).

(** The branch taken when there is a sender chain. *)
Definition session_state_set_sender_chain_key (state : loc) (chain_key : ptr) : action :=
  SIGNAL_UNREF state sender_chain_key set_sender_chain_key ;;
  signal_type_ref chain_key ;;
  store_state state (set_sender_chain_key chain_key).

Definition session_state_set_pending_key_exchange (state : loc) (our_base_key our_ratchet_key our_identity_key : ptr) : action :=
  SIGNAL_UNREF state local_base_key set_local_base_key ;;
  SIGNAL_UNREF state local_ratchet_key set_local_ratchet_key ;;
  SIGNAL_UNREF state local_identity_key set_local_identity_key ;;
  signal_type_ref our_base_key ;;
  signal_type_ref our_ratchet_key ;;
  signal_type_ref our_identity_key ;;
  store_state state (fun s => set_local_identity_key our_identity_key (set_local_ratchet_key our_ratchet_key
    (set_local_base_key our_base_key (set_has_pending_key_exchange true s)))).

Definition session_state_set_unacknowledged_pre_key_message (state : loc) (base_key : ptr) : action :=
  SIGNAL_UNREF state pending_base_key set_pending_base_key ;;
  signal_type_ref base_key ;;
  store_state state (fun s => set_pending_base_key base_key (set_has_pending_pre_key true s)).

Definition session_state_clear_unacknowledged_pre_key_message (state : loc) : action :=
  SIGNAL_UNREF state pending_base_key set_pending_base_key ;;
  store_state state (fun s => set_has_pending_pre_key false (set_pending_base_key None s)).

Definition session_state_set_alice_base_key (state : loc) (key : ptr) : action :=
  SIGNAL_UNREF state alice_base_key set_alice_base_key ;;
  signal_type_ref key ;;
  store_state state (set_alice_base_key key).

(** [while(count > 5)]: the oldest chains go. *)
Fixpoint drop_receiver_chains (count : nat) (state : loc) : action :=
  match count with
  | S count' =>
      if (5 <? count)%nat then
        load_state state (fun s =>
          match receiver_chains s with
          | node :: rest =>
              store_state state (set_receiver_chains rest) ;;
              session_state_free_receiver_chain_node signal_type_unref node ;;
              drop_receiver_chains count' state
          | [] => fun _ => None
          end)
      else skip
  | O => skip
  end.

(** [node] is the memory [malloc] returned; without it the result is
    [SG_ERR_NOMEM] and nothing has happened. *)
Definition session_state_add_receiver_chain (state : loc) (node : ptr) (sender_ratchet_key chain_key : ptr) : action :=
  match node with
  | None => skip
  | Some node =>
      malloc_block node ;;
      signal_type_ref sender_ratchet_key ;;
      signal_type_ref chain_key ;;
      store_state state (fun s => set_receiver_chains
        (receiver_chains s ++ [ReceiverChain node sender_ratchet_key chain_key []]) s) ;;
      load_state state (fun s => drop_receiver_chains (length (receiver_chains s)) state)
  end.

(** ** Constructors *)

(** [if(!p) return SG_ERR_INVAL] for the arguments of a constructor. *)
Definition check_arguments (arguments : list ptr) (a : action) : action :=
  if forallb (fun p : ptr => if p is Some _ then true else false) arguments then a else skip.

(** [memory] is what [malloc] returns; without it the result is
    [SG_ERR_NOMEM] and nothing has happened.  The structure is written with
    its final pointers, then the arguments are referenced. *)
Definition create (memory : ptr) (o : object) (reference : action) : action :=
  if memory is Some result then signal_type_init result o ;; reference else skip.

Definition ec_key_pair_create (memory public_key private_key : ptr) : action :=
  create memory (EcKeyPair public_key private_key) (signal_type_ref public_key ;; signal_type_ref private_key).

Definition ratchet_identity_key_pair_create (memory public_key private_key : ptr) : action :=
  create memory (RatchetIdentityKeyPair public_key private_key) (signal_type_ref public_key ;; signal_type_ref private_key).

Definition symmetric_signal_protocol_parameters_create (memory our_identity_key our_base_key our_ratchet_key
    their_base_key their_ratchet_key their_identity_key : ptr) : action :=
  check_arguments [our_identity_key; our_base_key; our_ratchet_key; their_base_key; their_ratchet_key; their_identity_key]
    (create memory
      (SymmetricParameters our_identity_key our_base_key our_ratchet_key their_base_key their_ratchet_key their_identity_key)
      (signal_type_ref our_identity_key ;; signal_type_ref our_base_key ;; signal_type_ref our_ratchet_key ;;
       signal_type_ref their_base_key ;; signal_type_ref their_ratchet_key ;; signal_type_ref their_identity_key)).

Definition alice_signal_protocol_parameters_create (memory our_identity_key our_base_key their_identity_key
    their_signed_pre_key their_one_time_pre_key their_ratchet_key : ptr) : action :=
  check_arguments [our_identity_key; our_base_key; their_identity_key; their_signed_pre_key; their_ratchet_key]
    (create memory
      (AliceParameters our_identity_key our_base_key their_identity_key their_signed_pre_key their_ratchet_key
        their_one_time_pre_key)
      (signal_type_ref our_identity_key ;; signal_type_ref our_base_key ;; signal_type_ref their_identity_key ;;
       signal_type_ref their_signed_pre_key ;; signal_type_ref their_ratchet_key ;;
       non_null their_one_time_pre_key (signal_type_ref their_one_time_pre_key))).

Definition bob_signal_protocol_parameters_create (memory our_identity_key our_signed_pre_key our_one_time_pre_key
    our_ratchet_key their_identity_key their_base_key : ptr) : action :=
  check_arguments [our_identity_key; our_signed_pre_key; our_ratchet_key; their_identity_key; their_base_key]
    (create memory
      (BobParameters our_identity_key our_signed_pre_key our_ratchet_key their_identity_key their_base_key
        our_one_time_pre_key)
      (signal_type_ref our_identity_key ;; signal_type_ref our_signed_pre_key ;; signal_type_ref our_ratchet_key ;;
       signal_type_ref their_identity_key ;; signal_type_ref their_base_key ;;
       non_null our_one_time_pre_key (signal_type_ref our_one_time_pre_key))).

Definition fingerprint_create (memory displayable scannable : ptr) : action :=
  create memory (Fingerprint displayable scannable)
    (non_null displayable (signal_type_ref displayable) ;; non_null scannable (signal_type_ref scannable)).

Definition session_pre_key_create (memory key_pair : ptr) : action :=
  create memory (SessionPreKey key_pair) (signal_type_ref key_pair).

Definition sender_key_state_create (memory chain_key signature_public_key signature_private_key : ptr) : action :=
  check_arguments [chain_key; signature_public_key]
    (create memory (SenderKeyState chain_key signature_public_key signature_private_key [])
      (signal_type_ref chain_key ;; signal_type_ref signature_public_key ;;
       non_null signature_private_key (signal_type_ref signature_private_key))).

(** The two calls of [malloc] return [memory] and [key]; if the second fails
    the structure is freed again. *)
Definition ratchet_chain_key_create (memory key kdf : ptr) : action :=
  check_arguments [kdf]
    (if memory is Some result then
      match key with
      | None => signal_type_init result (RatchetChainKey kdf None) ;; free (Some result)
      | Some k => signal_type_init result (RatchetChainKey kdf key) ;; malloc_block k ;; signal_type_ref kdf
      end
    else skip).

Definition ratchet_root_key_create (memory key kdf : ptr) : action :=
  check_arguments [kdf]
    (if memory is Some result then
      match key with
      | None => signal_type_init result (RatchetRootKey kdf None) ;; free (Some result)
      | Some k => signal_type_init result (RatchetRootKey kdf key) ;; malloc_block k ;; signal_type_ref kdf
      end
    else skip).

Definition empty_state : session_state :=
  SessionState None None None None None [] [] false None None None false None None.
Definition session_state_create (memory : ptr) : action := create memory (State empty_state) skip.

(** ** Session records *)

Definition load_record (record : loc) (k : ptr -> list node -> action) : action := fun h =>
  if h !! record is Some (Counted _ (SessionRecord state previous_states)) then k state previous_states h else None.
Definition store_record (record : loc) (state : ptr) (previous_states : list node) : action := fun h =>
  if h !! record is Some (Counted n (SessionRecord _ _)) then
    Some (<[record := Counted n (SessionRecord state previous_states)]> h)
  else None.

Definition session_record_set_state (record : loc) (state : ptr) : action :=
  load_record record (fun current previous_states =>
    non_null current (signal_type_unref current ;; store_record record None previous_states) ;;
    signal_type_ref state ;;
    store_record record state previous_states).

Definition ARCHIVED_STATES_MAX_LENGTH : nat := 40.

(** The nodes beyond the maximum are unlinked, released and freed one after
    the other; [kept] are the nodes before them. *)
Fixpoint drop_previous_states (record : loc) (state : ptr) (kept rest : list node) : action :=
  match rest with
  | [] => skip
  | cur_node :: rest' =>
      store_record record state (kept ++ rest') ;;
      non_null (node_object cur_node) (signal_type_unref (node_object cur_node)) ;;
      free (Some (node_address cur_node)) ;;
      drop_previous_states record state kept rest'
  end.

(** [memory] is what [malloc] returns for the node; without it the result is
    [SG_ERR_NOMEM] and nothing has happened. *)
Definition session_record_promote_state (record : loc) (memory promoted_state : ptr) : action :=
  load_record record (fun current previous_states =>
    let promote (previous_states : list node) : action :=
      signal_type_ref promoted_state ;;
      store_record record promoted_state previous_states ;;
      drop_previous_states record promoted_state (take ARCHIVED_STATES_MAX_LENGTH previous_states)
        (drop ARCHIVED_STATES_MAX_LENGTH previous_states)
    in
    match current, memory with
    | None, _ => promote previous_states
    | Some _, None => skip
    | Some _, Some node =>
        malloc_block node ;;
        store_record record None (Node node current :: previous_states) ;;
        promote (Node node current :: previous_states)
    end).

(** [state_memory] is what [malloc] returns for the state that is made if none
    is given. *)
Definition session_record_create (memory state_memory state : ptr) : action :=
  if memory is Some result then
    signal_type_init result (SessionRecord None []) ;;
    match state, state_memory with
    | None, None => signal_type_unref memory
    | None, Some s => session_state_create state_memory ;; store_record result state_memory []
    | Some _, _ => signal_type_ref state ;; store_record result state []
    end
  else skip.
