(* ===== verification/MemoryProofs.v ===== *)
(** Reference counts count.  The invariant [owned]: the count of every live
    object is the number of pointers to it, from live structures and from
    outside.  Under it releasing a reference never fails, frees exactly what is
    no longer used, and keeps the invariant. *)
From stdpp Require Import base list gmap.
From Stdlib Require Import ZArith Lia.
From S2P Require Import Prelude Memory.
#[local] Open Scope Z_scope.
#[local] Open Scope action_scope.

(** ** Types of references *)

Inductive kind : Type :=
  | KPublic | KPrivate | KPair | KHkdf | KChain | KRoot | KIdentity | KSymmetric | KAlice | KBob
  | KKeyExchange | KSignal | KPreKeySignal | KSender | KDistribution | KPreKey | KSignedPreKey | KBundle
  | KSenderMessageKey | KSenderChain | KSenderState | KSenderRecord | KState | KRecord
  | KDisplayable | KScannable | KFingerprint.

Definition kind_of (o : object) : kind :=
  match o with
  | EcPublicKey => KPublic | EcPrivateKey => KPrivate | EcKeyPair _ _ => KPair | HkdfContext => KHkdf
  | RatchetChainKey _ _ => KChain | RatchetRootKey _ _ => KRoot | RatchetIdentityKeyPair _ _ => KIdentity
  | SymmetricParameters _ _ _ _ _ _ => KSymmetric | AliceParameters _ _ _ _ _ _ => KAlice
  | BobParameters _ _ _ _ _ _ => KBob | KeyExchangeMessage _ _ _ _ => KKeyExchange | SignalMessage _ _ _ => KSignal
  | PreKeySignalMessage _ _ _ _ => KPreKeySignal | SenderKeyMessage _ _ => KSender
  | SenderKeyDistributionMessage _ _ _ => KDistribution | SessionPreKey _ => KPreKey
  | SessionSignedPreKey _ => KSignedPreKey | SessionPreKeyBundle _ _ _ _ => KBundle
  | SenderMessageKey _ _ _ => KSenderMessageKey | SenderChainKey _ => KSenderChain
  | SenderKeyState _ _ _ _ => KSenderState | SenderKeyRecord _ => KSenderRecord | State _ => KState
  | SessionRecord _ _ => KRecord | DisplayableFingerprint _ _ _ => KDisplayable
  | ScannableFingerprint _ _ _ _ => KScannable | Fingerprint _ _ => KFingerprint
  end.

(** The types are layered. *)
Definition rank (k : kind) : nat :=
  match k with
  | KPublic | KPrivate | KHkdf | KSender | KSenderMessageKey | KSenderChain | KDisplayable => 0
  | KPair | KIdentity | KChain | KRoot | KSignal | KKeyExchange | KDistribution | KBundle | KScannable => 1
  | KSymmetric | KAlice | KBob | KPreKeySignal | KPreKey | KSignedPreKey | KSenderState | KState | KFingerprint => 2
  | KSenderRecord | KRecord => 3
  end.

(** A pointer of a structure, with the type of what it points to: an object,
    or memory without a count. *)
Abbreviation field := (option kind * ptr)%type.

Definition plain (p : ptr) : field := (None, p).
Definition to (k : kind) (p : ptr) : field := (Some k, p).

Definition node_fields (k : kind) (n : node) : list field := [to k (node_object n); plain (Some (node_address n))].

Definition chain_fields (c : session_state_receiver_chain) : list field :=
  [to KPublic (rc_sender_ratchet_key c); to KChain (rc_chain_key c)] ++
  ((fun l => plain (Some l)) <$> rc_message_keys c) ++ [plain (Some (rc_address c))].

Definition state_fields (s : session_state) : list field :=
  [to KPublic (local_identity_public s); to KPublic (remote_identity_public s); to KRoot (root_key s)] ++
  [to KPair (sender_ratchet_key_pair s); to KChain (sender_chain_key s)] ++
  ((fun l => plain (Some l)) <$> sender_message_keys s) ++
  (receiver_chains s ≫= chain_fields) ++
  (if has_pending_key_exchange s then
     [to KPair (local_base_key s); to KPair (local_ratchet_key s); to KIdentity (local_identity_key s)] else []) ++
  (if has_pending_pre_key s then [to KPublic (pending_base_key s)] else []) ++
  [to KPublic (alice_base_key s)].

(** The references a structure owns, in the order its destructor releases
    them. *)
Definition fields (o : object) : list field :=
  match o with
  | EcPublicKey | EcPrivateKey | HkdfContext => []
  | EcKeyPair a b | RatchetIdentityKeyPair a b => [to KPublic a; to KPrivate b]
  | RatchetChainKey a b | RatchetRootKey a b => [to KHkdf a; plain b]
  | SymmetricParameters a b c d e f => [to KIdentity a; to KPair b; to KPair c; to KPublic d; to KPublic e; to KPublic f]
  | AliceParameters a b c d e f => [to KIdentity a; to KPair b; to KPublic c; to KPublic d; to KPublic e; to KPublic f]
  | BobParameters a b c d e f => [to KIdentity a; to KPair b; to KPair c; to KPublic d; to KPublic e; to KPair f]
  | KeyExchangeMessage a b c d => [to KPublic a; to KPublic b; to KPublic c; plain d]
  | SignalMessage a b c => [plain a; to KPublic b; plain c]
  | PreKeySignalMessage a b c d => [plain a; to KPublic b; to KPublic c; to KSignal d]
  | SenderKeyMessage a b => [plain a; plain b]
  | SenderKeyDistributionMessage a b c => [plain a; plain b; to KPublic c]
  | SessionPreKey a | SessionSignedPreKey a => [to KPair a]
  | SessionPreKeyBundle a b c d => [to KPublic a; to KPublic b; plain c; to KPublic d]
  | SenderMessageKey a b c => [plain a; plain b; plain c]
  | SenderChainKey a => [plain a]
  | SenderKeyState a b c l =>
      [to KSenderChain a; to KPublic b; to KPrivate c] ++ (l ≫= node_fields KSenderMessageKey)
  | SenderKeyRecord l => l ≫= node_fields KSenderState
  | State s => state_fields s
  | SessionRecord a l => to KState a :: (l ≫= node_fields KState)
  | DisplayableFingerprint a b c => [plain a; plain b; plain c]
  | ScannableFingerprint a b c d => [plain a; to KPublic b; plain c; to KPublic d]
  | Fingerprint a b => [to KDisplayable a; to KScannable b]
  end.

(** Pending keys are null without a pending handshake. *)
Definition tidy (o : object) : Prop :=
  match o with
  | State s =>
      (has_pending_key_exchange s = false -> local_base_key s = None /\ local_ratchet_key s = None /\ local_identity_key s = None) /\
      (has_pending_pre_key s = false -> pending_base_key s = None)
  | _ => True
  end.

Definition pointees (fs : list field) : list loc := omap snd fs.
Definition refs (o : object) : list loc := pointees (fields o).

Definition ranked (r : nat) (f : field) : Prop := if f.1 is Some k then (rank k < r)%nat else True.

Lemma fields_ranked o : Forall (ranked (rank (kind_of o))) (fields o).
Proof.
  assert (forall k r l, (rank k < r)%nat -> Forall (ranked r) (l ≫= node_fields k)) as Hn.
  { intros k r l Hk. induction l as [|n l IH]; csimpl; [constructor|]. by repeat constructor. }
  assert (forall r (l : list loc), Forall (ranked r) ((fun l => plain (Some l)) <$> l)) as Hl.
  { intros r l. induction l; by constructor. }
  destruct o; cbn -[mbind list_bind fmap list_fmap ranked]; try (repeat constructor; cbn; lia); try (apply Hn; cbn; lia).
  - repeat (apply Forall_cons; split; [cbn; lia|]). apply Hn. cbn. lia.
  - repeat (apply Forall_cons; split; [cbn; lia|]). apply Forall_app. split; [apply Hl|].
    apply Forall_app. split; [|apply Forall_app; split; [|apply Forall_app; split]].
    + induction (receiver_chains state) as [|c cs IH]; csimpl; [constructor|].
      repeat (apply Forall_cons; split; [cbn; lia|]). rewrite <- app_assoc. apply Forall_app. split; [apply Hl|].
      apply Forall_cons. by split.
    + destruct (has_pending_key_exchange state); repeat constructor; cbn; lia.
    + destruct (has_pending_pre_key state); repeat constructor; cbn; lia.
    + repeat constructor.
  - apply Forall_cons. split; [cbn; lia|]. apply Hn. cbn. lia.
Qed.

(** ** Equal actions *)

#[export] Instance action_equiv : Equiv action := fun a b => forall h, a h = b h.
#[export] Instance action_equivalence : Equivalence (≡@{action}).
Proof. split; [done|intros a b H h; by symmetry|]. intros a b c H H' h. by rewrite (H h). Qed.
#[export] Instance andthen_proper : Proper ((≡) ==> (≡) ==> (≡)) andthen.
Proof. intros a a' Ha b b' Hb h. unfold andthen. rewrite (Ha h). by destruct (a' h); cbn. Qed.

Lemma andthen_assoc a b c : ((a ;; b) ;; c) ≡ (a ;; b ;; c).
Proof. intros h. unfold andthen. by destruct (a h). Qed.
Lemma andthen_skip a : (a ;; skip) ≡ a.
Proof. intros h. unfold andthen. by destruct (a h). Qed.
Lemma skip_andthen a : (skip ;; a) ≡ a.
Proof. done. Qed.
Lemma non_null_free p : non_null p (free p) ≡ free p.
Proof. by destruct p. Qed.
Lemma signal_buffer_free_eq p : signal_buffer_free p ≡ free p.
Proof. apply non_null_free. Qed.

(** ** Destructors release the fields *)

Section Releases.
Variable unref : ptr -> action.

Definition release (f : field) : action := if f.1 is Some _ then unref f.2 else free f.2.
Definition releases (fs : list field) : action := foreach release fs.

Hypothesis unref_null : unref None ≡ skip.

Lemma non_null_unref p : non_null p (unref p) ≡ unref p.
Proof. destruct p; cbn; [done|]. by rewrite unref_null. Qed.
Lemma non_null_buffer p : non_null p (signal_buffer_free p) ≡ free p.
Proof. by destruct p. Qed.

Lemma releases_nil : releases [] = skip.
Proof. done. Qed.
Lemma releases_to k p fs : releases (to k p :: fs) = (unref p ;; releases fs).
Proof. done. Qed.
Lemma releases_plain p fs : releases (plain p :: fs) = (free p ;; releases fs).
Proof. done. Qed.
Lemma releases_app fs gs : releases (fs ++ gs) ≡ (releases fs ;; releases gs).
Proof.
  induction fs as [|f fs IH]; [done|]. unfold releases in *. cbn [app foreach]. by rewrite IH, andthen_assoc.
Qed.

Lemma releases_foreach {A} (f : A -> action) (g : A -> list field) l :
  (forall x, f x ≡ releases (g x)) -> foreach f l ≡ releases (l ≫= g).
Proof. intros Hf. induction l as [|x l IH]; [done|]. csimpl. by rewrite Hf, IH, releases_app. Qed.

Lemma release_nodes k l : free_nodes unref l ≡ releases (l ≫= node_fields k).
Proof.
  apply releases_foreach. intros n. unfold node_fields. rewrite non_null_unref, releases_to, releases_plain.
  by rewrite andthen_skip.
Qed.

Lemma release_message_keys l : free_message_keys l ≡ releases ((fun l => plain (Some l)) <$> l).
Proof. induction l as [|x l IH]; [done|]. cbn [fmap list_fmap]. unfold free_message_keys in *. cbn [foreach]. by rewrite IH. Qed.

Lemma release_optional (b : bool) a fs : a ≡ releases fs -> (if b then a else skip) ≡ releases (if b then fs else []).
Proof. by destruct b. Qed.

Lemma release_chain c : session_state_free_receiver_chain_node unref c ≡ releases (chain_fields c).
Proof.
  unfold session_state_free_receiver_chain_node, chain_fields. rewrite !releases_app, !non_null_unref.
  rewrite !releases_to, releases_plain, !releases_nil, <- release_message_keys.
  by rewrite !andthen_skip, !andthen_assoc.
Qed.

Lemma release_state self s : session_state_destroy unref self s ≡ (releases (state_fields s) ;; free (Some self)).
Proof.
  unfold session_state_destroy, session_state_free_sender_chain, session_state_free_receiver_chain, state_fields.
  rewrite (releases_foreach _ chain_fields) by apply release_chain.
  rewrite !releases_app, !releases_to, !releases_nil, <- release_message_keys.
  rewrite (release_optional (has_pending_key_exchange s) _
    [to KPair (local_base_key s); to KPair (local_ratchet_key s); to KIdentity (local_identity_key s)])
    by (by rewrite !non_null_unref, !releases_to, releases_nil, andthen_skip).
  rewrite (release_optional (has_pending_pre_key s) _ [to KPublic (pending_base_key s)])
    by (by rewrite !non_null_unref, !releases_to, releases_nil, andthen_skip).
  by rewrite !non_null_unref, !andthen_assoc, !skip_andthen.
Qed.

(** A destructor releases what the structure owns and frees it. *)
Lemma destroy_releases self o : destroy unref self o ≡ (releases (fields o) ;; free (Some self)).
Proof.
  destruct o; cbn [destroy fields]; try (by apply release_state);
    unfold ec_public_key_destroy, ec_private_key_destroy, ec_key_pair_destroy, hkdf_destroy, ratchet_chain_key_destroy,
      ratchet_root_key_destroy, ratchet_identity_key_pair_destroy, symmetric_signal_protocol_parameters_destroy,
      alice_signal_protocol_parameters_destroy, bob_signal_protocol_parameters_destroy, key_exchange_message_destroy,
      signal_message_destroy, pre_key_signal_message_destroy, sender_key_message_destroy,
      sender_key_distribution_message_destroy, session_pre_key_destroy, session_signed_pre_key_destroy,
      session_pre_key_bundle_destroy, sender_message_key_destroy, sender_chain_key_destroy, sender_key_state_destroy,
      sender_key_record_destroy, session_record_destroy, session_record_free_previous_states,
      displayable_fingerprint_destroy, scannable_fingerprint_destroy, fingerprint_destroy, signal_buffer_bzero_free;
    rewrite ?non_null_unref, ?non_null_buffer, ?non_null_free, ?releases_app;
    repeat rewrite ?releases_to, ?releases_plain; rewrite ?releases_nil, ?andthen_assoc, ?skip_andthen;
    try done; by rewrite <- release_nodes.
Qed.
End Releases.

(** ** The invariant *)

Definition occurrences (l : loc) (R : list loc) : nat := length (filter (l =.) R).

Definition cell_count (c : cell) : Z := if c is Counted n _ then n else 1.
Definition cell_kind (c : cell) : option kind := if c is Counted _ o then Some (kind_of o) else None.
Definition cell_fields (c : cell) : list field := if c is Counted _ o then fields o else [].
Definition cell_refs (c : cell) : list loc := pointees (cell_fields c).

(** The pointers to [l] in live structures. *)
Definition pointers (h : heap) (l : loc) : nat := map_fold (fun _ c n => (occurrences l (cell_refs c) + n)%nat) 0%nat h.

Definition typed (h : heap) (f : field) : Prop :=
  if f.2 is Some l then exists c, h !! l = Some c /\ cell_kind c = f.1 else True.

(** [R] are the references held outside the heap. *)
Record owned (h : heap) (R : list loc) : Prop := Owned {
  own_count l c : h !! l = Some c -> cell_count c = Z.of_nat (pointers h l + occurrences l R);
  own_pos l c : h !! l = Some c -> 0 < cell_count c;
  own_live l : l ∈ R -> is_Some (h !! l);
  own_typed l c : h !! l = Some c -> Forall (typed h) (cell_fields c);
  own_tidy l n o : h !! l = Some (Counted n o) -> tidy o
}.

Lemma occurrences_nil l : occurrences l [] = 0%nat.
Proof. done. Qed.
Lemma occurrences_cons l x R : occurrences l (x :: R) = ((if decide (l = x) then 1 else 0) + occurrences l R)%nat.
Proof. unfold occurrences. rewrite filter_cons. by destruct (decide (l = x)). Qed.
Lemma occurrences_app l R R' : occurrences l (R ++ R') = (occurrences l R + occurrences l R')%nat.
Proof. unfold occurrences. by rewrite filter_app, length_app. Qed.
Lemma occurrences_zero l R : occurrences l R = 0%nat <-> l ∉ R.
Proof.
  induction R as [|x R IH]; [by split; [intros _; apply not_elem_of_nil|]|]. rewrite occurrences_cons, not_elem_of_cons, <- IH.
  destruct (decide (l = x)); naive_solver lia.
Qed.
Lemma occurrences_perm l R R' : R ≡ₚ R' -> occurrences l R = occurrences l R'.
Proof. intros HR. unfold occurrences. by rewrite HR. Qed.

Lemma pointers_insert h l c x : h !! l = None -> pointers (<[l := c]> h) x = (occurrences x (cell_refs c) + pointers h x)%nat.
Proof. intros Hl. unfold pointers. rewrite map_fold_insert_L; [done| |done]. intros. lia. Qed.
Lemma pointers_delete h l c x : h !! l = Some c -> pointers h x = (occurrences x (cell_refs c) + pointers (delete l h) x)%nat.
Proof.
  intros Hl. rewrite <- (insert_delete_id h l c Hl) at 1. apply pointers_insert, lookup_delete_eq.
Qed.
Lemma pointers_update h l c c' x : h !! l = Some c ->
  (pointers (<[l := c']> h) x + occurrences x (cell_refs c) = pointers h x + occurrences x (cell_refs c'))%nat.
Proof.
  intros Hl. rewrite (pointers_delete h l c x Hl), <- insert_delete_eq, pointers_insert by apply lookup_delete_eq. lia.
Qed.
Lemma pointers_zero h l : pointers h l = 0%nat -> forall l' c, h !! l' = Some c -> l ∉ cell_refs c.
Proof. intros H l' c Hl. rewrite (pointers_delete h l' c l Hl) in H. apply occurrences_zero. lia. Qed.

Lemma pointees_typed h fs l : Forall (typed h) fs -> l ∈ pointees fs -> is_Some (h !! l).
Proof.
  intros H Hl. apply list_elem_of_omap in Hl as ([k p] & Hf & Hp). cbn in Hp. subst p.
  rewrite Forall_forall in H. by destruct (H _ Hf) as (c & -> & _).
Qed.

(** ** Releasing references *)

Definition cell_object (c : cell) : option object := if c is Counted _ o then Some o else None.

(** What is left has the contents it had, and objects of rank [r] and more
    are not touched at all. *)
Record released (r : nat) (h h' : heap) : Prop := Released {
  rel_contents l c' : h' !! l = Some c' -> exists c, h !! l = Some c /\ cell_object c = cell_object c' /\ cell_count c' <= cell_count c;
  rel_untouched l n o : h !! l = Some (Counted n o) -> (r <= rank (kind_of o))%nat -> h' !! l = Some (Counted n o)
}.

Lemma released_refl r h : released r h h.
Proof. split; [by eauto 6 using Z.le_refl|done]. Qed.
Lemma released_trans r r' h h1 h2 : released r h h1 -> released r' h1 h2 -> (r <= r')%nat -> released r' h h2.
Proof.
  intros [C1 U1] [C2 U2] Hr. split.
  - intros l c2 H2. destruct (C2 l c2 H2) as (c1 & H1 & E1 & N1). destruct (C1 l c1 H1) as (c & H & E & N).
    exists c. split; [done|]. split; [congruence|lia].
  - intros l n o Hl Ho. apply U2; [|done]. apply U1; [done|lia].
Qed.
Lemma released_weaken r r' h h' : released r h h' -> (r <= r')%nat -> released r' h h'.
Proof. intros H Hr. eapply released_trans; [done|apply released_refl|done]. Qed.
Lemma released_delete r h l c : h !! l = Some c -> (if c is Counted _ o then (rank (kind_of o) < r)%nat else True) ->
  released r h (delete l h).
Proof.
  intros Hl Hr. split.
  - intros l' c' H'. apply lookup_delete_Some in H' as [_ H']. by eauto 6 using Z.le_refl.
  - intros l' n o H' Ho. rewrite lookup_delete_ne; [done|]. intros ->. rewrite Hl in H'. simplify_eq. lia.
Qed.
Lemma released_disjoint r h h' (F : heap) : released r h h' -> h ##ₘ F -> h' ##ₘ F.
Proof.
  intros [C _] HF. apply map_disjoint_spec. intros l c c' H H'. destruct (C l c H) as (c0 & H0 & _).
  by apply (map_disjoint_spec h F) with l c0 c' in HF.
Qed.

Lemma kind_of_object c c' : cell_object c = cell_object c' -> cell_kind c = cell_kind c' /\ cell_fields c = cell_fields c'.
Proof. by destruct c, c'; cbn; intros; simplify_eq. Qed.

Lemma typed_released r h h' f : released r h h' -> typed h f -> (forall l, f.2 = Some l -> is_Some (h' !! l)) -> typed h' f.
Proof.
  intros [C _] Hf Hl. unfold typed in *. destruct f as [k [l|]]; cbn in *; [|done]. destruct (Hl l eq_refl) as [c' H'].
  destruct (C l c' H') as (c & H & E & _). destruct Hf as (c0 & H0 & Hk). exists c'. split; [done|].
  destruct (kind_of_object c c' E). congruence.
Qed.

Lemma typed_update h l c c' f : h !! l = Some c -> cell_kind c' = cell_kind c -> typed h f -> typed (<[l := c']> h) f.
Proof.
  intros Hl Hk. unfold typed. destruct f as [k [x|]]; cbn; [|done]. intros (c0 & H0 & Hk0).
  destruct (decide (x = l)) as [->|].
  - exists c'. rewrite lookup_insert_eq. split; [done|congruence].
  - exists c0. by rewrite lookup_insert_ne.
Qed.

(** A cell with a single reference goes, and its own references are left. *)
Lemma owned_delete h R l c : owned h (l :: R) -> h !! l = Some c -> cell_count c = 1 ->
  owned (delete l h) (cell_refs c ++ R).
Proof.
  intros [Hc Hp Hv Ht Hy] Hl H1. pose proof (Hc l c Hl) as H0. rewrite occurrences_cons, decide_True in H0 by done.
  assert (pointers h l = 0%nat) as Hz by lia. assert (occurrences l R = 0%nat) as HR by lia. clear H0.
  apply occurrences_zero in HR. pose proof (pointers_zero h l Hz) as Hno. split.
  - intros x cx Hx. apply lookup_delete_Some in Hx as [Hne Hx]. rewrite (Hc x cx Hx), (pointers_delete h l c x Hl).
    rewrite occurrences_cons, decide_False, occurrences_app by done. lia.
  - intros x cx Hx. apply lookup_delete_Some in Hx as [_ Hx]. by eapply Hp.
  - intros x Hx. destruct (decide (x = l)) as [->|Hne].
    + apply elem_of_app in Hx as [Hx|Hx]; [|done]. by destruct (Hno l c Hl).
    + rewrite lookup_delete_ne by done. apply elem_of_app in Hx as [Hx|Hx]; [|by apply Hv; right].
      by apply (pointees_typed h (cell_fields c)); [apply (Ht l)|].
  - intros x cx Hx. apply lookup_delete_Some in Hx as [_ Hx]. pose proof (Ht x cx Hx) as Hf. pose proof (Hno x cx Hx) as Hn.
    rewrite Forall_forall in Hf |- *. intros f Hin. specialize (Hf f Hin). destruct f as [k [y|]]; [|done]. cbn in *.
    destruct Hf as (cy & Hy1 & Hy2). exists cy. rewrite lookup_delete_ne; [done|]. intros ->. apply Hn.
    unfold cell_refs, pointees. apply list_elem_of_omap. by exists (k, Some y).
  - intros x n o Hx. apply lookup_delete_Some in Hx as [_ Hx]. by eapply Hy.
Qed.

Lemma owned_decrement h R l n o : owned h (l :: R) -> h !! l = Some (Counted n o) -> 1 < n ->
  owned (<[l := Counted (n - 1) o]> h) R.
Proof.
  intros [Hc Hp Hv Ht Hy] Hl H1.
  assert (forall x, pointers (<[l := Counted (n - 1) o]> h) x = pointers h x) as Hs.
  { intros x. pose proof (pointers_update h l _ (Counted (n - 1) o) x Hl). cbn in *. lia. }
  split.
  - intros x c Hx. rewrite Hs. apply lookup_insert_Some in Hx as [[<- <-]|[Hne Hx]].
    + pose proof (Hc l _ Hl) as H. rewrite occurrences_cons, decide_True in H by done. cbn in *. lia.
    + rewrite (Hc x c Hx), occurrences_cons, decide_False by done. lia.
  - intros x c Hx. apply lookup_insert_Some in Hx as [[<- <-]|[Hne Hx]]; [cbn; lia|by eapply Hp].
  - intros x Hx. apply lookup_insert_is_Some. destruct (decide (l = x)); [by left|right]. split; [done|]. apply Hv. by right.
  - intros x c Hx. assert (Forall (typed h) (cell_fields c)) as Hf.
    { apply lookup_insert_Some in Hx as [[<- <-]|[Hne Hx]]; [apply (Ht l _ Hl)|by eapply Ht]. }
    eapply Forall_impl; [exact Hf|]. intros f. by apply (typed_update h l (Counted n o)).
  - intros x m q Hx. apply lookup_insert_Some in Hx as [[<- ?]|[Hne Hx]]; [simplify_eq; by eapply Hy|by eapply Hy].
Qed.

Lemma released_decrement h l n o : h !! l = Some (Counted n o) ->
  released (S (rank (kind_of o))) h (<[l := Counted (n - 1) o]> h).
Proof.
  intros Hl. split.
  - intros x c Hx. apply lookup_insert_Some in Hx as [[<- <-]|[Hne Hx]]; [|by eauto 6 using Z.le_refl].
    exists (Counted n o). split; [done|]. split; [done|]. cbn. lia.
  - intros x m q Hx Hr. rewrite lookup_insert_ne; [done|]. intros <-. rewrite Hl in Hx. simplify_eq. lia.
Qed.

(** [u] releases references of rank below [d] in a heap that [F], memory that
    the references do not concern, extends. *)
Definition unrefs (u : ptr -> action) (d : nat) : Prop :=
  forall h F R l n o, h ##ₘ F -> owned h (l :: R) -> h !! l = Some (Counted n o) -> (rank (kind_of o) < d)%nat ->
  exists h', u (Some l) (h ∪ F) = Some (h' ∪ F) /\ released (S (rank (kind_of o))) h h' /\ owned h' R.

Lemma free_block_ok h F R l : h ##ₘ F -> owned h (l :: R) -> h !! l = Some Block ->
  free (Some l) (h ∪ F) = Some (delete l h ∪ F) /\ released 0 h (delete l h) /\ owned (delete l h) R.
Proof.
  intros HF Ho Hl. split_and!.
  - cbn. rewrite (lookup_union_Some_l h F l Block Hl), delete_union.
    by rewrite (delete_id F) by (by eapply map_disjoint_Some_l).
  - by apply (released_delete 0 h l Block).
  - by apply (owned_delete h R l Block).
Qed.

Lemma release_ok u d f h F R : unrefs u d -> u None ≡ skip -> h ##ₘ F -> owned h (pointees [f] ++ R) -> typed h f -> ranked d f ->
  exists h', release u f (h ∪ F) = Some (h' ∪ F) /\ released d h h' /\ owned h' R.
Proof.
  intros Hu Hn HF Ho Ht Hr. destruct f as [k [l|]]; cbn in *; cycle 1.
  { exists h. split; [|split; [apply released_refl|done]]. unfold release. cbn. destruct k; [apply Hn|done]. }
  destruct Ht as (c & Hl & Hk). unfold release. cbn. destruct c as [n o|]; cbn in Hk; subst k.
  - destruct (Hu h F R l n o HF Ho Hl Hr) as (h' & E & Hrel & Ho'). exists h'. split; [done|]. split; [|done].
    by apply (released_weaken _ _ _ _ Hrel).
  - destruct (free_block_ok h F R l HF Ho Hl) as (E & Hrel & Ho'). exists (delete l h). split; [done|]. split; [|done].
    apply (released_weaken 0); [done|lia].
Qed.

Lemma releases_ok u d fs : forall h F R, unrefs u d -> u None ≡ skip -> h ##ₘ F -> owned h (pointees fs ++ R) ->
  Forall (typed h) fs -> Forall (ranked d) fs ->
  exists h', releases u fs (h ∪ F) = Some (h' ∪ F) /\ released d h h' /\ owned h' R.
Proof.
  induction fs as [|f fs IH]; intros h F R Hu Hn HF Ho Ht Hr.
  { exists h. split; [done|]. split; [apply released_refl|done]. }
  apply Forall_cons in Ht as [Hf Ht], Hr as [Hrf Hr].
  assert (pointees (f :: fs) = pointees [f] ++ pointees fs) as Hp by (unfold pointees; cbn; by destruct f.2).
  rewrite Hp, <- app_assoc in Ho. destruct (release_ok u d f h F (pointees fs ++ R) Hu Hn HF Ho Hf Hrf) as (h1 & E1 & R1 & O1).
  assert (h1 ##ₘ F) as HF1 by (by apply (released_disjoint d h)).
  assert (Forall (typed h1) fs) as Ht1.
  { rewrite Forall_forall in Ht |- *. intros g Hg. apply (typed_released d h); [done|by apply Ht|]. intros l Hl.
    apply (own_live _ _ O1), elem_of_app. left. apply list_elem_of_omap. by exists g. }
  destruct (IH h1 F R Hu Hn HF1 O1 Ht1 Hr) as (h2 & E2 & R2 & O2). exists h2. split.
  - unfold releases in *. cbn [foreach]. unfold andthen. by rewrite E1.
  - split; [|done]. by apply (released_trans d d h h1).
Qed.

Lemma unref_null d : unref d None ≡ skip.
Proof. by destruct d. Qed.

Lemma unref_ok d : unrefs (unref d) d.
Proof.
  induction d as [|d IH]; intros h F R l n o HF Ho Hl Hr; [lia|].
  cbn [unref]. rewrite (lookup_union_Some_l h F l _ Hl). pose proof (own_pos _ _ Ho l _ Hl) as Hpos. cbn in Hpos.
  rewrite (proj2 (Z.leb_gt n 0)) by lia. destruct (Z.ltb_spec 1 n) as [Hn|Hn].
  { exists (<[l := Counted (n - 1) o]> h). rewrite insert_union_l. split; [done|].
    split; [by apply released_decrement|by apply (owned_decrement h R l n)]. }
  assert (n = 1) as -> by lia.
  set (h1 := delete l h). assert (h ∪ F = h1 ∪ <[l := Counted 1 o]> F) as Hh.
  { rewrite <- (insert_delete_id h l _ Hl) at 1. fold h1. rewrite <- insert_union_l, insert_union_r; [done|apply lookup_delete_eq]. }
  assert (F !! l = None) as HFl by (by eapply map_disjoint_Some_l).
  assert (h1 ##ₘ <[l := Counted 1 o]> F) as HF1.
  { apply map_disjoint_insert_r_2; [apply lookup_delete_eq|]. by apply map_disjoint_delete_l. }
  pose proof (owned_delete h R l _ Ho Hl eq_refl) as Ho1. fold h1 in Ho1.
  destruct (releases_ok (unref d) (rank (kind_of o)) (fields o) h1 (<[l := Counted 1 o]> F) R) as (h2 & E2 & R2 & O2);
    [|apply unref_null|done|exact Ho1| |apply fields_ranked|].
  { intros h' F' R' l' n' o' D O L K. apply (IH h' F' R' l' n' o' D O L). lia. }
  { pose proof (own_typed _ _ Ho l _ Hl) as Ht. cbn in Ht. rewrite Forall_forall in Ht |- *. intros f Hf. specialize (Ht f Hf).
    apply (typed_released (S (rank (kind_of o))) h); [by apply (released_delete _ h l _ Hl); cbn; lia|done|]. intros x Hx.
    apply (own_live _ _ Ho1), elem_of_app. left. apply list_elem_of_omap. by exists f. }
  exists h2. split.
  - rewrite (destroy_releases (unref d) (unref_null d) l o (h ∪ F)), Hh. unfold andthen. rewrite E2. cbn.
    assert (h2 !! l = None) as Hl2.
    { destruct (h2 !! l) as [c|] eqn:E; [|done]. destruct (rel_contents _ _ _ R2 l c E) as (c' & Hc & _).
      unfold h1 in Hc. by rewrite lookup_delete_eq in Hc. }
    rewrite lookup_union_r, lookup_insert_eq by done. rewrite delete_union, (delete_id h2) by done. by rewrite delete_insert_id.
  - split; [|done]. apply (released_trans (S (rank (kind_of o))) _ h h1); [|by apply (released_weaken _ _ _ _ R2); lia|done].
    apply (released_delete _ h l _ Hl). cbn. lia.
Qed.

Lemma rank_bound k : (rank k < 8)%nat.
Proof. destruct k; cbn; lia. Qed.

Lemma signal_type_unref_ok h R l n o : owned h (l :: R) -> h !! l = Some (Counted n o) ->
  exists h', signal_type_unref (Some l) h = Some h' /\ released (S (rank (kind_of o))) h h' /\ owned h' R.
Proof.
  intros Ho Hl. destruct (unref_ok 8 h ∅ R l n o (map_disjoint_empty_r h) Ho Hl (rank_bound _)) as (h' & E & H).
  exists h'. rewrite !map_union_empty in E. by split.
Qed.

(** ** Taking references and making objects *)

(** [l] can be reached from the references [R]. *)
Inductive reach (h : heap) (R : list loc) : loc -> Prop :=
  | reach_held l : l ∈ R -> reach h R l
  | reach_field l c x : reach h R l -> h !! l = Some c -> x ∈ cell_refs c -> reach h R x.

Lemma reach_live h R l : owned h R -> reach h R l -> is_Some (h !! l).
Proof.
  intros Ho. induction 1 as [l Hl|l c x _ _ Hl Hx]; [by apply Ho|]. by apply (pointees_typed h (cell_fields c)); [apply (own_typed _ _ Ho l)|].
Qed.

(** What can be reached from the references that stay survives. *)
Lemma reach_released r h h' R l : released r h h' -> owned h' R -> reach h R l -> reach h' R l.
Proof.
  intros Hr Ho. induction 1 as [l Hl|l c x _ IH Hl Hx]; [by apply reach_held|].
  destruct (reach_live h' R l Ho IH) as [c' Hc']. destruct (rel_contents _ _ _ Hr l c' Hc') as (c0 & H0 & E & _). simplify_eq.
  apply (reach_field _ _ l c'); [done..|]. unfold cell_refs in *. by rewrite <- (proj2 (kind_of_object _ _ E)).
Qed.

Lemma pointers_owner h l : pointers h l <> 0%nat -> exists l' c, h !! l' = Some c /\ l ∈ cell_refs c.
Proof.
  induction h as [|l' c h Hl' IH] using map_ind; [done|]. rewrite pointers_insert by done. intros H.
  destruct (decide (l ∈ cell_refs c)) as [Hin|Hout].
  - exists l', c. by rewrite lookup_insert_eq.
  - apply occurrences_zero in Hout. destruct IH as (l2 & c2 & H2 & Hin); [lia|]. exists l2, c2.
    rewrite lookup_insert_ne by naive_solver. done.
Qed.

Lemma live_held_or_pointed h R l c : owned h R -> h !! l = Some c -> l ∈ R \/ exists l' c', h !! l' = Some c' /\ l ∈ cell_refs c'.
Proof.
  intros Ho Hl. pose proof (own_count _ _ Ho l c Hl). pose proof (own_pos _ _ Ho l c Hl).
  destruct (decide (l ∈ R)) as [|Hout]; [by left|right]. apply occurrences_zero in Hout. apply pointers_owner. lia.
Qed.

(** An object is live exactly as long as it can be reached. *)
Lemma live_iff_reach h R l : owned h R -> is_Some (h !! l) <-> reach h R l.
Proof.
  intros Ho. split; [|by apply reach_live]. intros [c Hl].
  assert (forall k l n o, h !! l = Some (Counted n o) -> (8 - rank (kind_of o) <= k)%nat -> reach h R l) as Hobj.
  { induction k as [|k IH]; intros x n o Hx Hk.
    { pose proof (rank_bound (kind_of o)). lia. }
    destruct (live_held_or_pointed h R x _ Ho Hx) as [|(l' & c' & Hl' & Hin)]; [by apply reach_held|].
    destruct c' as [n' o'|]; [|by apply not_elem_of_nil in Hin]. apply (reach_field _ _ l' (Counted n' o')); [|done..].
    apply (IH l' n' o' Hl'). pose proof (own_typed _ _ Ho l' _ Hl') as Ht. pose proof (fields_ranked o') as Hr. cbn in Ht, Hin.
    apply list_elem_of_omap in Hin as (f & Hf & Hp). rewrite Forall_forall in Ht, Hr. specialize (Ht f Hf). specialize (Hr f Hf).
    destruct f as [k' [y|]]; cbn in *; simplify_eq. destruct Ht as (cx & Hcx & Hkx). rewrite Hx in Hcx. simplify_eq. cbn in *.
    lia. }
  destruct c as [n o|]; [by eapply Hobj|].
  destruct (live_held_or_pointed h R l _ Ho Hl) as [|(l' & c' & Hl' & Hin)]; [by apply reach_held|].
  destruct c' as [n' o'|]; [|by apply not_elem_of_nil in Hin]. apply (reach_field _ _ l' (Counted n' o')); [|done..]. by eapply Hobj.
Qed.

(** Without references nothing is left. *)
Lemma owned_nil h : owned h [] -> h = ∅.
Proof.
  intros Ho. apply map_empty. intros l. destruct (h !! l) as [c|] eqn:Hl; [|done].
  assert (reach h [] l) as Hr by (apply live_iff_reach; by eauto). clear Hl.
  induction Hr as [x Hx|]; [by apply not_elem_of_nil in Hx|done].
Qed.

Lemma owned_empty : owned ∅ [].
Proof. split; try (intros *; by rewrite lookup_empty). intros l Hl. by apply not_elem_of_nil in Hl. Qed.

Lemma owned_perm h R R' : R ≡ₚ R' -> owned h R -> owned h R'.
Proof.
  intros HR [Hc Hp Hv Ht Hy]. split; [|done| |done|done].
  - intros l c Hl. by rewrite (Hc l c Hl), (occurrences_perm l R R' HR).
  - intros l Hl. apply Hv. by rewrite HR.
Qed.

Lemma owned_increment h R l n o : owned h R -> h !! l = Some (Counted n o) -> owned (<[l := Counted (n + 1) o]> h) (l :: R).
Proof.
  intros [Hc Hp Hv Ht Hy] Hl.
  assert (forall x, pointers (<[l := Counted (n + 1) o]> h) x = pointers h x) as Hs.
  { intros x. pose proof (pointers_update h l _ (Counted (n + 1) o) x Hl). cbn in *. lia. }
  split.
  - intros x c Hx. rewrite Hs, occurrences_cons. apply lookup_insert_Some in Hx as [[<- <-]|[Hne Hx]].
    + pose proof (Hc l _ Hl) as H. rewrite decide_True by done. cbn in *. lia.
    + rewrite (Hc x c Hx), decide_False by done. lia.
  - intros x c Hx. apply lookup_insert_Some in Hx as [[<- <-]|[Hne Hx]]; [|by eapply Hp]. pose proof (Hp l _ Hl). cbn in *. lia.
  - intros x Hx. apply lookup_insert_is_Some. destruct (decide (l = x)); [by left|right]. split; [done|]. apply Hv.
    by apply elem_of_cons in Hx as [->|].
  - intros x c Hx. assert (Forall (typed h) (cell_fields c)) as Hf.
    { apply lookup_insert_Some in Hx as [[<- <-]|[Hne Hx]]; [apply (Ht l _ Hl)|by eapply Ht]. }
    eapply Forall_impl; [exact Hf|]. intros f. by apply (typed_update h l (Counted n o)).
  - intros x m q Hx. apply lookup_insert_Some in Hx as [[<- ?]|[Hne Hx]]; [simplify_eq; by eapply Hy|by eapply Hy].
Qed.

(** [k] more references do not make a count wrap around. *)
Definition room (k : Z) (h : heap) : Prop := forall l c, h !! l = Some c -> cell_count c + k < 2 ^ 32.

Lemma signal_type_ref_ok h R l n o : owned h R -> h !! l = Some (Counted n o) -> n + 1 < 2 ^ 32 ->
  signal_type_ref (Some l) h = Some (<[l := Counted (n + 1) o]> h) /\ owned (<[l := Counted (n + 1) o]> h) (l :: R).
Proof.
  intros Ho Hl Hn. split; [|by apply owned_increment]. pose proof (own_pos _ _ Ho l _ Hl) as Hp. cbn in Hp.
  unfold signal_type_ref. cbn. rewrite Hl, (proj2 (Z.ltb_lt 0 n)) by lia. unfold u32. by rewrite Z.mod_small by (unfold UINT32_MOD; lia).
Qed.

(** New memory takes over references. *)
Lemma owned_insert h R l c : owned h (cell_refs c ++ R) -> h !! l = None -> cell_count c = 1 -> Forall (typed h) (cell_fields c) ->
  (forall n o, c = Counted n o -> tidy o) -> owned (<[l := c]> h) (l :: R).
Proof.
  intros Ho Hl H1 Hf Hty. destruct Ho as [Hc Hp Hv Ht Hy].
  assert (forall x, h !! x = None -> pointers h x = 0%nat) as Hfree.
  { intros x Hx. destruct (decide (pointers h x = 0%nat)) as [|Hz]; [done|]. destruct (pointers_owner h x Hz) as (l' & c' & Hl' & Hin).
    destruct (pointees_typed h (cell_fields c') x (Ht l' c' Hl') Hin). congruence. }
  assert (occurrences l (cell_refs c ++ R) = 0%nat) as Hz.
  { apply occurrences_zero. intros Hin. destruct (Hv l Hin). congruence. }
  rewrite occurrences_app in Hz.
  assert (forall f, typed h f -> typed (<[l := c]> h) f) as Htt.
  { intros [k [x|]]; [|done]. unfold typed. cbn. intros (cx & Hx & Hk). exists cx. rewrite lookup_insert_ne; [done|]. congruence. }
  split.
  - intros x cx Hx. rewrite pointers_insert, occurrences_cons by done. apply lookup_insert_Some in Hx as [[<- <-]|[Hne Hx]].
    + rewrite decide_True, (Hfree l Hl) by done. lia.
    + rewrite (Hc x cx Hx), occurrences_app, decide_False by done. lia.
  - intros x cx Hx. apply lookup_insert_Some in Hx as [[<- <-]|[Hne Hx]]; [lia|by eapply Hp].
  - intros x Hx. apply lookup_insert_is_Some. destruct (decide (l = x)); [by left|right]. split; [done|]. apply Hv, elem_of_app.
    apply elem_of_cons in Hx as [->|]; [done|by right].
  - intros x cx Hx. apply lookup_insert_Some in Hx as [[<- <-]|[Hne Hx]]; [by apply (Forall_impl _ _ _ Hf)|].
    apply (Forall_impl _ _ _ (Ht x cx Hx)). apply Htt.
  - intros x n o Hx. apply lookup_insert_Some in Hx as [[<- E]|[Hne Hx]]; [by eapply Hty|by eapply Hy].
Qed.

(** The pointers of a structure are exchanged for others that were held. *)
Lemma owned_store h R l n o o' add drop : owned h (add ++ R) -> h !! l = Some (Counted n o) -> kind_of o' = kind_of o ->
  Forall (typed h) (fields o') -> tidy o' -> refs o' ++ drop ≡ₚ refs o ++ add ->
  owned (<[l := Counted n o']> h) (drop ++ R).
Proof.
  intros [Hc Hp Hv Ht Hy] Hl Hk Hf Hty Hperm.
  assert (forall x, occurrences x (refs o') + occurrences x drop = occurrences x (refs o) + occurrences x add)%nat as Hocc.
  { intros x. rewrite <- !occurrences_app. by apply occurrences_perm. }
  assert (forall x, pointers (<[l := Counted n o']> h) x + occurrences x drop = pointers h x + occurrences x add)%nat as Hs.
  { intros x. pose proof (pointers_update h l _ (Counted n o') x Hl) as Hx. specialize (Hocc x).
    change (cell_refs (Counted n o)) with (refs o) in Hx. change (cell_refs (Counted n o')) with (refs o') in Hx. lia. }
  split.
  - intros x c Hx. assert (exists c0, h !! x = Some c0 /\ cell_count c0 = cell_count c) as (c0 & H0 & <-).
    { apply lookup_insert_Some in Hx as [[<- <-]|[Hne Hx]]; by eauto. }
    rewrite (Hc x c0 H0), !occurrences_app. specialize (Hs x). lia.
  - intros x c Hx. apply lookup_insert_Some in Hx as [[<- <-]|[Hne Hx]]; [by apply (Hp l _ Hl)|by eapply Hp].
  - intros x Hx. apply lookup_insert_is_Some. destruct (decide (l = x)); [by left|right]. split; [done|].
    apply elem_of_app in Hx as [Hx|Hx]; [|by apply Hv, elem_of_app; right].
    assert (x ∈ refs o ++ add) as Hin by (rewrite <- Hperm; apply elem_of_app; by right).
    apply elem_of_app in Hin as [Hin|Hin]; [|by apply Hv, elem_of_app; left].
    by apply (pointees_typed h (fields o)); [apply (Ht l _ Hl)|].
  - intros x c Hx. assert (Forall (typed h) (cell_fields c)) as Hfx.
    { apply lookup_insert_Some in Hx as [[<- <-]|[Hne Hx]]; [done|by eapply Ht]. }
    apply (Forall_impl _ _ _ Hfx). intros f. apply (typed_update h l (Counted n o)); [done|]. cbn. by rewrite Hk.
  - intros x m q Hx. apply lookup_insert_Some in Hx as [[<- E]|[Hne Hx]]; [by simplify_eq|by eapply Hy].
Qed.
