(* ===== verification/Ownership.v ===== *)
(** Sessions keep the reference counts: the operations of session_state.c and
    session_record.c that store references, and the constructors, preserve
    the invariant of [MemoryProofs]. *)
From stdpp Require Import base list gmap.
From Stdlib Require Import ZArith Lia.
From S2P Require Import Prelude Memory MemoryProofs.
#[local] Open Scope Z_scope.
#[local] Open Scope action_scope.

(** ** A structure is not read while its references are released *)

(** The contents of the structure at [s] are exchanged for [o]. *)
Definition recast (s : loc) (o : object) (h : heap) : heap :=
  alter (fun c => if c is Counted n _ then Counted n o else c) s h.

Lemma recast_ne s o h l : l <> s -> recast s o h !! l = h !! l.
Proof. intros. unfold recast. by rewrite lookup_alter_ne. Qed.
Lemma recast_live s o h l : is_Some (recast s o h !! l) <-> is_Some (h !! l).
Proof. unfold recast. apply lookup_alter_is_Some. Qed.

(** [a] takes [h] to [h'], in which [s] is live, whatever [s] holds. *)
Definition blind (s : loc) (o : object) (a : action) : Prop :=
  forall h h', a h = Some h' -> is_Some (h' !! s) -> is_Some (h !! s) /\ a (recast s o h) = Some (recast s o h').

Lemma blind_skip s o : blind s o skip.
Proof. intros h h' E. cbv [skip] in *. by simplify_eq. Qed.

Lemma blind_andthen s o a b : blind s o a -> blind s o b -> blind s o (a ;; b).
Proof.
  intros Ha Hb h h' E Hs. unfold andthen in *. apply bind_Some in E as (h1 & E1 & E2). destruct (Hb h1 h' E2 Hs) as [H1 Eb].
  destruct (Ha h h1 E1 H1) as [H0 Ea]. split; [done|]. by rewrite Ea.
Qed.

Lemma blind_free s o p : blind s o (free p).
Proof.
  intros h h' E Hs. destruct p as [l|]; cbn in *; [|by simplify_eq]. destruct (h !! l) as [c|] eqn:Hl; [|done]. simplify_eq.
  assert (l <> s) as Hne by (intros ->; rewrite lookup_delete_eq in Hs; by destruct Hs).
  rewrite lookup_delete_ne in Hs by done. split; [done|]. rewrite recast_ne, Hl by done. f_equal. unfold recast.
  by rewrite delete_alter_ne.
Qed.

Lemma blind_releases s o u fs : (forall p, blind s o (u p)) -> blind s o (releases u fs).
Proof.
  intros Hu. induction fs as [|[[k|] p] fs IH]; [apply blind_skip| |];
    (apply blind_andthen; [|exact IH]); [apply Hu|apply blind_free].
Qed.

Lemma blind_equiv s o a b : a ≡ b -> blind s o a -> blind s o b.
Proof. intros E Ha h h' Eb. rewrite <- (E h) in Eb. rewrite <- (E (recast s o h)). by apply Ha. Qed.

Lemma destroy_frees d l q h h' : destroy (unref d) l q h = Some h' -> h' !! l = None.
Proof.
  rewrite (destroy_releases (unref d) (unref_null d) l q h). unfold andthen. intros E. apply bind_Some in E as (h1 & _ & E).
  cbn in E. destruct (h1 !! l); [|done]. simplify_eq. apply lookup_delete_eq.
Qed.

Lemma recast_insert s o h l m q : l <> s -> recast s o (<[l := Counted m q]> h) = <[l := Counted m q]> (recast s o h).
Proof. intros Hne. unfold recast. apply alter_insert_ne. by intros ->. Qed.
Lemma recast_insert_eq s o h m q : recast s o (<[s := Counted m q]> h) = <[s := Counted m o]> (recast s o h).
Proof. unfold recast. by rewrite alter_insert_eq, insert_alter_eq. Qed.
Lemma recast_eq s o h n q : h !! s = Some (Counted n q) -> recast s o h !! s = Some (Counted n o).
Proof. intros H. unfold recast. by rewrite lookup_alter_eq, H. Qed.

Lemma unref_object d l h : unref d (Some l) h =
  match h !! l with
  | Some (Counted n o) =>
      if n <=? 0 then None else if 1 <? n then Some (<[l := Counted (n - 1) o]> h)
      else if d is S d' then destroy (unref d') l o h else None
  | _ => None
  end.
Proof. by destruct d. Qed.

Lemma blind_unref s o d p : blind s o (unref d p).
Proof.
  revert p. induction d as [|d IH]; intros [l|] h h' E Hs; try (cbn in *; by simplify_eq);
    rewrite unref_object in *; destruct (h !! l) as [[n q|]|] eqn:Hl; try done; destruct (n <=? 0) eqn:Hn; try done;
    destruct (decide (l = s)) as [->|Hne].
  - rewrite (recast_eq _ _ _ _ _ Hl), Hn. destruct (1 <? n); [|done]. simplify_eq. by rewrite recast_insert_eq.
  - rewrite recast_ne, Hl, Hn by done. destruct (1 <? n); [|done]. simplify_eq. rewrite lookup_insert_ne in Hs by done.
    by rewrite recast_insert.
  - rewrite (recast_eq _ _ _ _ _ Hl), Hn. destruct (1 <? n); [simplify_eq; by rewrite recast_insert_eq|].
    apply destroy_frees in E. rewrite E in Hs. by destruct Hs.
  - rewrite recast_ne, Hl, Hn by done. destruct (1 <? n).
    + simplify_eq. rewrite lookup_insert_ne in Hs by done. by rewrite recast_insert.
    + revert h h' E Hs Hl. assert (blind s o (destroy (unref d) l q)) as Hb; [|intros; by apply Hb].
      eapply blind_equiv; [symmetry; apply (destroy_releases (unref d) (unref_null d))|].
      apply blind_andthen; [by apply blind_releases|apply blind_free].
Qed.

(** ** Slots *)

#[export] Instance pointees_perm : Proper ((≡ₚ) ==> (≡ₚ)) pointees.
Proof. intros fs gs E. unfold pointees. by rewrite E. Qed.

Lemma recast_back s o o0 h n : h !! s = Some (Counted n o) -> recast s o (<[s := Counted n o0]> h) = h.
Proof. intros H. rewrite recast_insert_eq. unfold recast. by rewrite insert_alter_eq, insert_id. Qed.
Lemma store_recast s o o0 h n : h !! s = Some (Counted n o0) -> <[s := Counted n o0]> (recast s o h) = h.
Proof. intros H. unfold recast. by rewrite insert_alter_eq, insert_id. Qed.

Lemma owned_field h R l n o f : owned h R -> h !! l = Some (Counted n o) -> f ∈ fields o -> typed h f /\ ranked (rank (kind_of o)) f.
Proof.
  intros Ho Hl Hf. pose proof (own_typed _ _ Ho l _ Hl) as Ht. pose proof (fields_ranked o) as Hr. cbn in Ht.
  rewrite Forall_forall in Ht, Hr. by split; [apply Ht|apply Hr].
Qed.

(** Releasing one pointer of the structure at [s]: what remains is a heap in
    which that pointer is null. *)
Lemma release_pointer h R s n o o0 k l rest : owned h R -> h !! s = Some (Counted n o) -> kind_of o0 = kind_of o -> tidy o0 ->
  fields o ≡ₚ to k (Some l) :: rest -> fields o0 ≡ₚ to k None :: rest ->
  exists h', signal_type_unref (Some l) h = Some (recast s o h') /\ h' !! s = Some (Counted n o0) /\ owned h' R /\
    released (rank (kind_of o)) (<[s := Counted n o0]> h) h'.
Proof.
  intros Ho Hs Hk Hty Hf Hf0. destruct (owned_field h R s n o (to k (Some l)) Ho Hs) as [Ht Hr]; [rewrite Hf; by left|].
  cbn in Ht, Hr. destruct Ht as (c & Hl & Hkc). destruct c as [m q|]; [|done]. cbn in Hkc. injection Hkc as Hkc.
  assert (l <> s) as Hne by (intros ->; simplify_eq; lia).
  set (h0 := <[s := Counted n o0]> h). assert (owned h0 (l :: R)) as Ho0.
  { apply (owned_store h R s n o o0 [] [l]); [done..| |done|].
    - pose proof (own_typed _ _ Ho s _ Hs) as Ht. cbn in Ht. rewrite Hf, Forall_cons in Ht. rewrite Hf0, Forall_cons. by split; [|apply Ht].
    - unfold refs. rewrite app_nil_r, Hf, Hf0. cbn. by rewrite Permutation_app_comm. }
  destruct (signal_type_unref_ok h0 R l m q Ho0) as (h' & E & Hrel & Ho'); [by unfold h0; rewrite lookup_insert_ne|].
  assert (h' !! s = Some (Counted n o0)) as Hs'.
  { apply (rel_untouched _ _ _ Hrel); [apply lookup_insert_eq|]. rewrite Hk, Hkc. lia. }
  exists h'. split_and!; [|done|done|].
  - destruct (blind_unref s o 8 (Some l) h0 h' E ltac:(by rewrite Hs')) as [_ E']. unfold h0 in E'. by rewrite recast_back in E'.
  - apply (released_weaken _ _ _ _ Hrel). rewrite Hkc. lia.
Qed.

(** [get] and [set] are the pointer to a [k] of a session state. *)
Record slot (k : kind) (get : session_state -> ptr) (set : ptr -> session_state -> session_state) (st : session_state)
    (rest : list field) : Prop := Slot {
  slot_id : set (get st) st = st;
  slot_set p q : set p (set q st) = set p st;
  slot_fields p : state_fields (set p st) ≡ₚ to k p :: rest;
  slot_tidy p : tidy (State st) -> tidy (State (set p st))
}.

Lemma SIGNAL_UNREF_ok h R s n st k get set : owned h R -> h !! s = Some (Counted n (State st)) ->
  (get st = None -> set None st = st) -> (get st <> None -> exists rest, slot k get set st rest) -> tidy (State (set None st)) ->
  exists h', SIGNAL_UNREF s get set h = Some h' /\ h' !! s = Some (Counted n (State (set None st))) /\ owned h' R /\
    released 2 (<[s := Counted n (State (set None st))]> h) h'.
Proof.
  intros Ho Hs Hnone Hslot Hty. unfold SIGNAL_UNREF, load_state. rewrite Hs. destruct (get st) as [l|] eqn:Hg; cbn [non_null].
  - destruct (Hslot ltac:(done)) as (rest & [Hid _ Hf _]). rewrite Hg in Hid.
    destruct (release_pointer h R s n (State st) (State (set None st)) k l rest) as (h' & E & Hs' & Ho' & Hrel); try done.
    { cbn [fields]. rewrite <- Hid at 1. apply Hf. }
    { apply Hf. }
    exists h'. split_and!; [|done..]. unfold andthen. rewrite E. cbn [mbind option_bind]. unfold store_state.
    rewrite (recast_eq _ _ _ _ _ Hs'). by rewrite store_recast.
  - rewrite (Hnone eq_refl) in *. exists h. split_and!; try done. rewrite insert_id by done. apply released_refl.
Qed.

(** ** Taking a reference *)

Lemma room_released r k h h' : released r h h' -> room k h -> room k h'.
Proof. intros Hr Hk l c Hl. destruct (rel_contents _ _ _ Hr l c Hl) as (c0 & H0 & _ & ?). specialize (Hk l c0 H0). lia. Qed.

Lemma room_store k h s n o o' : h !! s = Some (Counted n o) -> room k h -> room k (<[s := Counted n o']> h).
Proof.
  intros Hs Hk l c Hl. apply lookup_insert_Some in Hl as [[<- <-]|[_ Hl]]; [apply (Hk s _ Hs)|by apply (Hk l)].
Qed.

Lemma room_weaken k k' h : room k h -> k' <= k -> room k' h.
Proof. intros Hk ? l c Hl. specialize (Hk l c Hl). lia. Qed.

(** A reference to [x], an object that stays in use, is taken. *)
Lemma reference_ok k h R x j q : owned h R -> h !! x = Some (Counted j q) -> room (k + 1) h -> 0 <= k ->
  exists h', signal_type_ref (Some x) h = Some h' /\ owned h' (x :: R) /\ room k h' /\
    h' !! x = Some (Counted (j + 1) q) /\ (forall l, l <> x -> h' !! l = h !! l).
Proof.
  intros Ho Hx Hk ?. destruct (signal_type_ref_ok h R x j q Ho Hx) as [E Ho']; [specialize (Hk x _ Hx); cbn in Hk; lia|].
  eexists. split; [exact E|]. split; [done|]. split; [|split; [apply lookup_insert_eq|intros; by apply lookup_insert_ne]].
  intros l c Hl. apply lookup_insert_Some in Hl as [[<- <-]|[_ Hl]].
  - specialize (Hk x _ Hx). cbn in *. lia.
  - specialize (Hk l c Hl). lia.
Qed.

(** The object [x] is of kind [k]. *)
Definition object_at (h : heap) (k : kind) (x : loc) : Prop := exists j q, h !! x = Some (Counted j q) /\ kind_of q = k.

Lemma object_at_released r h h' k x : released r h h' -> is_Some (h' !! x) -> object_at h k x -> object_at h' k x.
Proof.
  intros Hr [c Hc] (j & q & Hx & Hq). destruct (rel_contents _ _ _ Hr x c Hc) as (c0 & H0 & E & _). simplify_eq. cbn in E.
  destruct c as [j' q'|]; [|done]. cbn in E. simplify_eq. by exists j', q'.
Qed.
Lemma object_at_store h s n o o' k x : h !! s = Some (Counted n o) -> kind_of o' = kind_of o -> object_at h k x ->
  object_at (<[s := Counted n o']> h) k x.
Proof.
  intros Hs Hk (j & q & Hx & Hq). destruct (decide (x = s)) as [->|Hne].
  - exists n, o'. rewrite lookup_insert_eq. simplify_eq. by split.
  - exists j, q. by rewrite lookup_insert_ne.
Qed.

(** ** The setters of session states *)

Lemma middle_slot k get set st l1 l2 : set (get st) st = st -> (forall p q, set p (set q st) = set p st) ->
  (forall p, state_fields (set p st) = l1 ++ to k p :: l2) -> (forall p, tidy (State st) -> tidy (State (set p st))) ->
  slot k get set st (l1 ++ l2).
Proof. intros H1 H2 H3 H4. split; [done|done| |done]. intros p. rewrite H3. by rewrite Permutation_middle. Qed.

(** The slot of [st] after the fields [l]. *)
Tactic Notation "slot_after" uconstr(l) :=
  match goal with st : session_state |- _ => destruct st end; eexists;
  eapply (middle_slot _ _ _ _ l); try done; intros p; cbn; reflexivity.

Lemma local_identity_slot st : exists rest, slot KPublic local_identity_public set_local_identity_public st rest.
Proof. slot_after []. Qed.
Lemma remote_identity_slot st : exists rest, slot KPublic remote_identity_public set_remote_identity_public st rest.
Proof. slot_after [_]. Qed.
Lemma root_key_slot st : exists rest, slot KRoot root_key set_root_key st rest.
Proof. slot_after [_; _]. Qed.
Lemma sender_pair_slot st : exists rest, slot KPair sender_ratchet_key_pair set_sender_ratchet_key_pair st rest.
Proof. slot_after [_; _; _]. Qed.
Lemma sender_chain_slot st : exists rest, slot KChain sender_chain_key set_sender_chain_key st rest.
Proof. slot_after [_; _; _; _]. Qed.

(** The fields before the pending handshakes. *)
Definition chains_fields (s : session_state) : list field :=
  [to KPublic (local_identity_public s); to KPublic (remote_identity_public s); to KRoot (root_key s)] ++
  [to KPair (sender_ratchet_key_pair s); to KChain (sender_chain_key s)] ++
  ((fun l => plain (Some l)) <$> sender_message_keys s) ++ (receiver_chains s ≫= chain_fields).
Definition pending_fields (s : session_state) : list field :=
  if has_pending_key_exchange s then
    [to KPair (local_base_key s); to KPair (local_ratchet_key s); to KIdentity (local_identity_key s)] else [].
Definition pre_key_fields (s : session_state) : list field :=
  if has_pending_pre_key s then [to KPublic (pending_base_key s)] else [].

Lemma state_fields_split s : state_fields s = chains_fields s ++ pending_fields s ++ pre_key_fields s ++ [to KPublic (alice_base_key s)].
Proof. unfold chains_fields. by rewrite <- !app_assoc. Qed.

Lemma alice_slot st : exists rest, slot KPublic alice_base_key set_alice_base_key st rest.
Proof.
  exists ((chains_fields st ++ pending_fields st ++ pre_key_fields st) ++ []). apply middle_slot; try by destruct st.
  intros p. rewrite state_fields_split, <- !app_assoc. by destruct st.
Qed.
Lemma pre_key_slot st : has_pending_pre_key st = true -> exists rest, slot KPublic pending_base_key set_pending_base_key st rest.
Proof.
  intros H. exists ((chains_fields st ++ pending_fields st) ++ [to KPublic (alice_base_key st)]).
  apply middle_slot; [by destruct st..| |destruct st; cbn in *; naive_solver].
  intros p. rewrite state_fields_split, <- !app_assoc. unfold pre_key_fields. destruct st; cbn in *. by subst.
Qed.
Lemma pending_slots st : has_pending_key_exchange st = true ->
  (exists rest, slot KPair local_base_key set_local_base_key st rest) /\
  (exists rest, slot KPair local_ratchet_key set_local_ratchet_key st rest) /\
  (exists rest, slot KIdentity local_identity_key set_local_identity_key st rest).
Proof.
  intros H. set (tl := pre_key_fields st ++ [to KPublic (alice_base_key st)]). split_and!; eexists.
  - apply (middle_slot _ _ _ _ (chains_fields st) ([to KPair (local_ratchet_key st); to KIdentity (local_identity_key st)] ++ tl));
      [by destruct st..| |destruct st; cbn in *; naive_solver].
    intros p. rewrite state_fields_split. unfold pending_fields. destruct st; cbn in *. by subst.
  - apply (middle_slot _ _ _ _ (chains_fields st ++ [to KPair (local_base_key st)]) (to KIdentity (local_identity_key st) :: tl));
      [by destruct st..| |destruct st; cbn in *; naive_solver].
    intros p. rewrite state_fields_split, <- app_assoc. unfold pending_fields. destruct st; cbn in *. by subst.
  - apply (middle_slot _ _ _ _ (chains_fields st ++ [to KPair (local_base_key st); to KPair (local_ratchet_key st)]) tl);
      [by destruct st..| |destruct st; cbn in *; naive_solver].
    intros p. rewrite state_fields_split, <- app_assoc. unfold pending_fields. destruct st; cbn in *. by subst.
Qed.

(** [x] is held and of kind [k]. *)
Definition held (h : heap) (R : list loc) (k : kind) (x : loc) : Prop := x ∈ R /\ object_at h k x.

(** What is held stays. *)
Definition keeps (h h' : heap) (R : list loc) : Prop := forall k x, held h R k x -> held h' R k x.

Lemma keeps_trans h h1 h2 R : keeps h h1 R -> keeps h1 h2 R -> keeps h h2 R.
Proof. intros H1 H2 k x Hx. by apply H2, H1. Qed.

Lemma keeps_released r h h' R : released r h h' -> owned h' R -> keeps h h' R.
Proof. intros Hr Ho k x [Hx Hk]. split; [done|]. apply (object_at_released r h); [done| |done]. by apply Ho. Qed.
Lemma keeps_store h s n o o' R : h !! s = Some (Counted n o) -> kind_of o' = kind_of o -> keeps h (<[s := Counted n o']> h) R.
Proof. intros Hs Hk k x [Hx Hx']. split; [done|]. by apply (object_at_store h s n o). Qed.
Lemma keeps_increment h h' x j q R : h !! x = Some (Counted j q) -> h' !! x = Some (Counted (j + 1) q) ->
  (forall l, l <> x -> h' !! l = h !! l) -> keeps h h' R.
Proof.
  intros Hx Hx' Hne k y [Hy (i & p & Hp & Hk)]. split; [done|]. destruct (decide (y = x)) as [->|Hyx].
  - simplify_eq. by eexists _, _.
  - exists i, p. by rewrite Hne.
Qed.

(** The common part of setters: a new reference takes the place of the null
    pointer of a slot. *)
Lemma fill_slot_ok h R s n st k get set rest x : owned h (x :: R) -> h !! s = Some (Counted n (State (set None st))) ->
  slot k get set st rest -> tidy (State st) -> object_at h k x ->
  exists h', store_state s (set (Some x)) h = Some h' /\ owned h' R /\ h' !! s = Some (Counted n (State (set (Some x) st))) /\
    h' = <[s := Counted n (State (set (Some x) st))]> h.
Proof.
  intros Ho Hs Hslot Hty (j & q & Hx & Hk). eexists. split; [unfold store_state; by rewrite Hs, (slot_set _ _ _ _ _ Hslot)|].
  split; [|split; [apply lookup_insert_eq|done]].
  apply (owned_store h R s n (State (set None st)) _ [x] []); [done|done|done| |by apply (slot_tidy _ _ _ _ _ Hslot)|].
  - pose proof (own_typed _ _ Ho s _ Hs) as Ht. cbn [cell_fields fields] in *.
    rewrite (slot_fields _ _ _ _ _ Hslot), Forall_cons in Ht. rewrite (slot_fields _ _ _ _ _ Hslot), Forall_cons.
    split; [|apply Ht]. cbn. exists (Counted j q). split; [done|]. cbn. by rewrite Hk.
  - unfold refs. cbn [fields]. rewrite !(slot_fields _ _ _ _ _ Hslot). cbn. rewrite app_nil_r. by rewrite Permutation_app_comm.
Qed.

Lemma setter_ok j h R s n st k get set x : owned h R -> h !! s = Some (Counted n (State st)) ->
  (exists rest, slot k get set st rest) -> object_at h k x -> reach (<[s := Counted n (State (set None st))]> h) R x ->
  room (j + 1) h -> 0 <= j ->
  exists h', (SIGNAL_UNREF s get set ;; signal_type_ref (Some x) ;; store_state s (set (Some x))) h = Some h' /\
    owned h' R /\ room j h' /\ h' !! s = Some (Counted n (State (set (Some x) st))) /\ keeps h h' R.
Proof.
  intros Ho Hs [rest Hslot] Hx Hreach Hroom Hj. pose proof (own_tidy _ _ Ho s _ _ Hs) as Hty.
  assert (get st = None -> set None st = st) as Hnone by (intros <-; apply Hslot).
  destruct (SIGNAL_UNREF_ok h R s n st k get set) as (h1 & E1 & Hs1 & Ho1 & Hr1); try done; [by eauto|by apply Hslot|].
  set (h0 := <[s := Counted n (State (set None st))]> h) in *.
  assert (room (j + 1) h1) as Hroom1 by (eapply room_released; [exact Hr1|by eapply room_store]).
  assert (object_at h1 k x) as Hx1.
  { apply (object_at_released 2 h0); [done| |by eapply object_at_store]. eapply reach_live; [exact Ho1|]. by eapply reach_released. }
  destruct Hx1 as (i & q & Hx1 & Hk). destruct (reference_ok j h1 R x i q Ho1 Hx1 Hroom1 Hj) as (h2 & E2 & Ho2 & Hroom2 & Hx2 & Hne2).
  assert (x <> s) as Hxs.
  { intros ->. rewrite Hs1 in Hx1. injection Hx1 as <- <-. cbn in Hk. subst k.
    pose proof (fields_ranked (State (set None st))) as Hr. cbn [fields] in Hr. rewrite (slot_fields _ _ _ _ _ Hslot), Forall_cons in Hr.
    destruct Hr as [Hr _]. cbn in Hr. lia. }
  destruct (fill_slot_ok h2 R s n st k get set rest x) as (h3 & E3 & Ho3 & Hs3 & ->); try done.
  { by rewrite Hne2. }
  { by exists (i + 1), q. }
  eexists. split; [unfold andthen; rewrite E1; cbn [mbind option_bind]; rewrite E2; cbn [mbind option_bind]; exact E3|].
  split_and!; [done| |done|].
  - eapply room_store; [|done]. by rewrite Hne2.
  - eapply keeps_trans; [by apply (keeps_store h s n (State st) (State (set None st)))|].
    eapply keeps_trans; [by apply (keeps_released 2 h0)|].
    eapply keeps_trans; [exact (keeps_increment h1 h2 x i q R Hx1 Hx2 Hne2)|].
    eapply (keeps_store h2 s n (State (set None st))); [by rewrite Hne2|done].
Qed.

Lemma clear_slot_ok j h R s n st k get set : owned h R -> h !! s = Some (Counted n (State st)) ->
  (get st = None -> set None st = st) -> (get st <> None -> exists rest, slot k get set st rest) -> tidy (State (set None st)) -> room j h ->
  exists h', SIGNAL_UNREF s get set h = Some h' /\ h' !! s = Some (Counted n (State (set None st))) /\ owned h' R /\
    room j h' /\ keeps h h' R.
Proof.
  intros Ho Hs Hnone Hslot Hty Hroom. destruct (SIGNAL_UNREF_ok h R s n st k get set Ho Hs Hnone Hslot Hty) as (h1 & E1 & Hs1 & Ho1 & Hr1).
  exists h1. split_and!; [done..| |].
  - eapply room_released; [exact Hr1|by eapply room_store].
  - eapply keeps_trans; [by apply (keeps_store h s n (State st) (State (set None st)))|]. by eapply keeps_released.
Qed.

Lemma hold_ok j h R R' k x : owned h R' -> held h R k x -> room (j + 1) h -> 0 <= j ->
  exists h', signal_type_ref (Some x) h = Some h' /\ owned h' (x :: R') /\ room j h' /\ keeps h h' R /\ object_at h' k x /\
    (forall l c, h !! l = Some c -> cell_kind c <> Some k -> h' !! l = Some c) /\
    (forall l, h' !! l = None <-> h !! l = None).
Proof.
  intros Ho [Hx (i & q & Hq & Hk)] Hroom Hj. destruct (reference_ok j h R' x i q Ho Hq Hroom Hj) as (h' & E & Ho' & Hr' & Hx' & Hne).
  exists h'. split_and!; [done..| | | |].
  - exact (keeps_increment h h' x i q R Hq Hx' Hne).
  - by exists (i + 1), q.
  - intros l c Hl Hc. rewrite Hne; [done|]. intros ->. by simplify_eq.
  - intros l. destruct (decide (l = x)) as [->|]; [by rewrite Hx', Hq|by rewrite Hne].
Qed.

(** The last statement of a setter: the references [add] go into the state. *)
Lemma fill_state_ok h R s n st (f : session_state -> session_state) add : owned h (add ++ R) -> h !! s = Some (Counted n (State st)) ->
  Forall (typed h) (state_fields (f st)) -> tidy (State (f st)) -> pointees (state_fields (f st)) ≡ₚ pointees (state_fields st) ++ add ->
  exists h', store_state s f h = Some h' /\ owned h' R /\ h' !! s = Some (Counted n (State (f st))) /\
    h' = <[s := Counted n (State (f st))]> h.
Proof.
  intros Ho Hs Ht Hty Hp. eexists. split; [unfold store_state; by rewrite Hs|]. split; [|split; [apply lookup_insert_eq|done]].
  apply (owned_store h R s n (State st) (State (f st)) add []); try done. by rewrite app_nil_r.
Qed.

Lemma typed_object h k x : object_at h k x -> typed h (to k (Some x)).
Proof. intros (j & q & Hx & Hk). exists (Counted j q). split; [done|]. cbn. by rewrite Hk. Qed.

Ltac run E := unfold andthen at 1; rewrite E; cbn [mbind option_bind].

Definition no_pending (st : session_state) : session_state :=
  set_local_identity_key None (set_local_ratchet_key None (set_local_base_key None st)).

(** The old keys of a pending key exchange are released. *)
Lemma clear_pending_ok j h R s n st : owned h R -> h !! s = Some (Counted n (State st)) -> room j h ->
  exists h', h' !! s = Some (Counted n (State (no_pending st))) /\ owned h' R /\ room j h' /\ keeps h h' R /\
    forall k, (SIGNAL_UNREF s local_base_key set_local_base_key ;; SIGNAL_UNREF s local_ratchet_key set_local_ratchet_key ;;
      SIGNAL_UNREF s local_identity_key set_local_identity_key ;; k) h = k h'.
Proof.
  intros Ho Hs Hroom. pose proof (own_tidy _ _ Ho s _ _ Hs) as Hty.
  assert (forall st, (local_base_key st <> None \/ local_ratchet_key st <> None \/ local_identity_key st <> None) ->
    tidy (State st) -> has_pending_key_exchange st = true) as Hflag.
  { intros st' H [H' _]. destruct (has_pending_key_exchange st'); [done|]. naive_solver. }
  destruct (clear_slot_ok j h R s n st KPair local_base_key set_local_base_key) as (h1 & E1 & Hs1 & Ho1 & Hr1 & K1); try done;
    [by destruct st; cbn; intros ->|intros H; apply pending_slots; naive_solver|destruct st; cbn in *; naive_solver|].
  pose proof (own_tidy _ _ Ho1 s _ _ Hs1) as Hty1. set (st1 := set_local_base_key None st) in *.
  destruct (clear_slot_ok j h1 R s n st1 KPair local_ratchet_key set_local_ratchet_key) as (h2 & E2 & Hs2 & Ho2 & Hr2 & K2); try done;
    [by destruct st1; cbn; intros ->|intros H; apply pending_slots; naive_solver|destruct st1; cbn in *; naive_solver|].
  pose proof (own_tidy _ _ Ho2 s _ _ Hs2) as Hty2. set (st2 := set_local_ratchet_key None st1) in *.
  destruct (clear_slot_ok j h2 R s n st2 KIdentity local_identity_key set_local_identity_key) as (h3 & E3 & Hs3 & Ho3 & Hr3 & K3); try done;
    [by destruct st2; cbn; intros ->|intros H; apply pending_slots; naive_solver|destruct st2; cbn in *; naive_solver|].
  exists h3. split_and!; [done..| |].
  - eapply keeps_trans; [exact K1|]. by eapply keeps_trans.
  - intros k. run E1. run E2. by run E3.
Qed.

Lemma set_pending_key_exchange_ok j h R s n st x y z : owned h R -> h !! s = Some (Counted n (State st)) ->
  held h R KPair x -> held h R KPair y -> held h R KIdentity z -> room (j + 3) h -> 0 <= j ->
  exists h', session_state_set_pending_key_exchange s (Some x) (Some y) (Some z) h = Some h' /\ owned h' R.
Proof.
  intros Ho Hs Hx Hy Hz Hroom Hj. unfold session_state_set_pending_key_exchange.
  destruct (clear_pending_ok (j + 3) h R s n st Ho Hs Hroom) as (h3 & Hs3 & Ho3 & Hr3 & K & ->). set (st3 := no_pending st) in *.
  destruct (hold_ok (j + 2) h3 R R KPair x) as (h4 & E4 & Ho4 & Hr4 & K4 & X4 & U4 & _); [done|by apply K|by apply (room_weaken (j + 3)); [|lia]|lia|]. run E4.
  destruct (hold_ok (j + 1) h4 R (x :: R) KPair y) as (h5 & E5 & Ho5 & Hr5 & K5 & Y5 & U5 & _); [done|by apply K4, K|by apply (room_weaken (j + 2)); [|lia]|lia|]. run E5.
  destruct (hold_ok j h5 R (y :: x :: R) KIdentity z) as (h6 & E6 & Ho6 & Hr6 & K6 & Z6 & U6 & _); [done|by apply K5, K4, K|done|done|]. run E6.
  assert (h6 !! s = Some (Counted n (State st3))) as Hs6 by (by apply U6; [apply U5; [apply U4|]|]).
  match goal with |- context [store_state s ?g] => set (f := g) end.
  pose proof (own_tidy _ _ Ho6 s _ _ Hs6) as Hty6. pose proof (own_typed _ _ Ho6 s _ Hs6) as Ht. cbn [cell_fields fields] in Ht.
  assert (state_fields (f st3) = chains_fields st3 ++ [to KPair (Some x); to KPair (Some y); to KIdentity (Some z)] ++
    pre_key_fields st3 ++ [to KPublic (alice_base_key st3)]) as Hf by (rewrite state_fields_split; unfold f; by destruct st).
  assert (pointees (pending_fields st3) = []) as Hp by (unfold st3; by destruct st as [???????[]]).
  rewrite state_fields_split in Ht. destruct (fill_state_ok h6 R s n st3 f [z; y; x]) as (h7 & E7 & Ho7 & _); [done|done| | | |by eauto].
  - rewrite Hf. rewrite !Forall_app in *. destruct Ht as (Ht1 & _ & Ht2 & Ht3). split; [done|]. split; [|done].
    repeat (apply Forall_cons; split); try apply Forall_nil_2; apply typed_object; [by apply K6, K5, K4, K|by apply K6, K5, K4, K|done].
  - unfold f. destruct st; cbn in *. naive_solver.
  - rewrite Hf, state_fields_split. unfold pointees. rewrite !omap_app. unfold pointees in Hp. rewrite Hp. cbn. solve_Permutation.
Qed.

(** The base key of an unacknowledged pre key message is released. *)
Lemma clear_pre_key_ok j h R s n st : owned h R -> h !! s = Some (Counted n (State st)) -> room j h ->
  exists h', SIGNAL_UNREF s pending_base_key set_pending_base_key h = Some h' /\
    h' !! s = Some (Counted n (State (set_pending_base_key None st))) /\ owned h' R /\ room j h' /\ keeps h h' R.
Proof.
  intros Ho Hs Hroom. pose proof (own_tidy _ _ Ho s _ _ Hs) as [Hty1 Hty2]. apply (clear_slot_ok j h R s n st KPublic); try done.
  - by destruct st; cbn; intros ->.
  - intros H. apply pre_key_slot. destruct (has_pending_pre_key st); [done|]. by destruct H, Hty2.
  - by destruct st.
Qed.

Lemma set_unacknowledged_ok j h R s n st x : owned h R -> h !! s = Some (Counted n (State st)) -> held h R KPublic x ->
  room (j + 1) h -> 0 <= j ->
  exists h', session_state_set_unacknowledged_pre_key_message s (Some x) h = Some h' /\ owned h' R.
Proof.
  intros Ho Hs Hx Hroom Hj. unfold session_state_set_unacknowledged_pre_key_message.
  destruct (clear_pre_key_ok (j + 1) h R s n st Ho Hs Hroom) as (h1 & E1 & Hs1 & Ho1 & Hr1 & K1). run E1.
  destruct (hold_ok j h1 R R KPublic x) as (h2 & E2 & Ho2 & _ & _ & X2 & U2 & _); [done|by apply K1|done|done|]. run E2.
  apply U2 in Hs1 as Hs2; [|done]. match goal with |- context [store_state s ?g] => set (f := g) end.
  pose proof (own_tidy _ _ Ho2 s _ _ Hs2) as Hty. pose proof (own_typed _ _ Ho2 s _ Hs2) as Ht. cbn [cell_fields fields] in Ht.
  set (st1 := set_pending_base_key None st) in *.
  assert (state_fields (f st1) = chains_fields st1 ++ pending_fields st1 ++ [to KPublic (Some x)] ++ [to KPublic (alice_base_key st1)]) as Hf
    by (rewrite state_fields_split; unfold f; by destruct st).
  assert (pointees (pre_key_fields st1) = []) as Hp by (unfold st1; by destruct st as [???????????[]]).
  rewrite state_fields_split in Ht. destruct (fill_state_ok h2 R s n st1 f [x]) as (h3 & E3 & Ho3 & _); [done|done| | | |by eauto].
  - rewrite Hf. rewrite !Forall_app in *. destruct Ht as (Ht1 & Ht2 & _ & Ht3). split_and!; [done|done| |done].
    apply Forall_singleton. by apply typed_object.
  - unfold f. destruct st; cbn in *. naive_solver.
  - rewrite Hf, state_fields_split. unfold pointees. rewrite !omap_app. unfold pointees in Hp. rewrite Hp. cbn. solve_Permutation.
Qed.

Lemma clear_unacknowledged_ok h R s n st : owned h R -> h !! s = Some (Counted n (State st)) -> room 0 h ->
  exists h', session_state_clear_unacknowledged_pre_key_message s h = Some h' /\ owned h' R.
Proof.
  intros Ho Hs Hroom. unfold session_state_clear_unacknowledged_pre_key_message.
  destruct (clear_pre_key_ok 0 h R s n st Ho Hs Hroom) as (h1 & E1 & Hs1 & Ho1 & _). run E1.
  match goal with |- context [store_state s ?g] => set (f := g) end.
  pose proof (own_tidy _ _ Ho1 s _ _ Hs1) as Hty. pose proof (own_typed _ _ Ho1 s _ Hs1) as Ht. cbn [cell_fields fields] in Ht.
  set (st1 := set_pending_base_key None st) in *.
  assert (state_fields (f st1) = chains_fields st1 ++ pending_fields st1 ++ [to KPublic (alice_base_key st1)]) as Hf
    by (rewrite state_fields_split; unfold f; by destruct st).
  assert (pointees (pre_key_fields st1) = []) as Hp by (unfold st1; by destruct st as [???????????[]]).
  rewrite state_fields_split in Ht. destruct (fill_state_ok h1 R s n st1 f []) as (h3 & E3 & Ho3 & _); [done|done| | | |by eauto].
  - rewrite Hf. rewrite !Forall_app in *. naive_solver.
  - unfold f. destruct st; cbn in *. naive_solver.
  - rewrite Hf, state_fields_split. unfold pointees. rewrite !omap_app. unfold pointees in Hp. rewrite Hp. cbn. solve_Permutation.
Qed.

(** ** Receiver chains *)

Lemma alloc_block_ok j h R R' l : owned h R' -> h !! l = None -> room j h -> j + 1 < 2 ^ 32 ->
  exists h', malloc_block l h = Some h' /\ owned h' (l :: R') /\ room j h' /\ h' = <[l := Block]> h /\ keeps h h' R.
Proof.
  intros Ho Hl Hroom Hj. eexists. split; [unfold malloc_block; by rewrite Hl|]. split_and!; [| |done|].
  - by apply (owned_insert h R' l Block).
  - intros x c Hx. apply lookup_insert_Some in Hx as [[<- <-]|[_ Hx]]; [cbn; lia|by apply (Hroom x)].
  - intros k x [Hx (i & q & Hq & Hk)]. split; [done|]. exists i, q. rewrite lookup_insert_ne; [done|]. congruence.
Qed.

(** The fields of a state around those of its receiver chains. *)
Lemma state_fields_chains st : exists before after, forall cs,
  state_fields (set_receiver_chains cs st) = before ++ (cs ≫= chain_fields) ++ after.
Proof.
  destruct st as [a b c d e f g h i k l m n o]. do 2 eexists. intros cs. unfold state_fields, set_receiver_chains. cbn -[app].
  rewrite (app_assoc [_; _; _]), (app_assoc ([_; _; _] ++ _)). reflexivity.
Qed.

Lemma drop_receiver_chains_ok count : forall h R s n st, owned h R -> h !! s = Some (Counted n (State st)) ->
  count = length (receiver_chains st) ->
  exists h', drop_receiver_chains count s h = Some h' /\ owned h' R /\
    h' !! s = Some (Counted n (State (set_receiver_chains (drop (count - 5) (receiver_chains st)) st))).
Proof.
  induction count as [|count IH]; intros h R s n st Ho Hs Hc.
  { exists h. split_and!; [done..|]. rewrite Hs. destruct st; cbn in *. by rewrite drop_0. }
  cbn [drop_receiver_chains]. destruct (Nat.ltb_spec 5 (S count)) as [H5|H5]; cycle 1.
  { exists h. split_and!; [done..|]. rewrite Hs. replace (S count - 5)%nat with 0%nat by lia. destruct st; cbn in *. by rewrite drop_0. }
  unfold load_state. rewrite Hs. destruct (receiver_chains st) as [|c cs] eqn:Ecs; [done|]. cbn in Hc.
  destruct (state_fields_chains st) as (before & after & Hf). set (st1 := set_receiver_chains cs st).
  assert (state_fields st = before ++ (chain_fields c ++ (cs ≫= chain_fields)) ++ after) as Hst.
  { rewrite <- bind_cons, <- Hf, <- Ecs. by destruct st. }
  set (h1 := <[s := Counted n (State st1)]> h).
  assert (store_state s (set_receiver_chains cs) h = Some h1) as E1 by (unfold store_state; by rewrite Hs). run E1.
  pose proof (own_typed _ _ Ho s _ Hs) as Ht. cbn [cell_fields fields] in Ht. rewrite Hst, !Forall_app in Ht.
  assert (owned h1 (pointees (chain_fields c) ++ R)) as Ho1.
  { apply (owned_store h R s n (State st) (State st1) []); [done|done|done| | |].
    - cbn [fields]. unfold st1. rewrite Hf, !Forall_app. naive_solver.
    - pose proof (own_tidy _ _ Ho s _ _ Hs). by destruct st.
    - unfold refs, st1. cbn [fields]. rewrite Hst, Hf. unfold pointees. rewrite !omap_app. solve_Permutation. }
  destruct (releases_ok signal_type_unref 2 (chain_fields c) h1 ∅ R) as (h2 & E2 & Hr2 & Ho2); try done.
  { intros h' F R' l n' o D O L K. apply (unref_ok 8 h' F R' l n' o D O L). apply rank_bound. }
  { apply map_disjoint_empty_r. }
  { destruct Ht as (_ & [Ht _] & _). apply (Forall_impl _ _ _ Ht). intros f. by apply (typed_update h s (Counted n (State st))). }
  { pose proof (fields_ranked (State st)) as Hr. cbn [fields] in Hr. rewrite Hst, !Forall_app in Hr. apply Hr. }
  rewrite !map_union_empty in E2. rewrite <- (release_chain signal_type_unref (unref_null 8) c h1) in E2. run E2.
  assert (h2 !! s = Some (Counted n (State st1))) as Hs2 by (apply (rel_untouched _ _ _ Hr2); [apply lookup_insert_eq|done]).
  destruct (IH h2 R s n st1 Ho2 Hs2) as (h3 & E3 & Ho3 & Hs3); [by unfold st1; destruct st; cbn; lia|].
  exists h3. split_and!; [done..|]. rewrite Hs3. unfold st1. replace (S count - 5)%nat with (S (count - 5)) by lia. by destruct st.
Qed.

Lemma add_receiver_chain_ok h R s n st node x y : owned h R -> h !! s = Some (Counted n (State st)) -> h !! node = None ->
  held h R KPublic x -> held h R KChain y -> room 2 h ->
  exists h', session_state_add_receiver_chain s (Some node) (Some x) (Some y) h = Some h' /\ owned h' R /\
    exists st', h' !! s = Some (Counted n (State st')) /\ (length (receiver_chains st') <= 5)%nat.
Proof.
  intros Ho Hs Hnode Hx Hy Hroom. unfold session_state_add_receiver_chain.
  destruct (alloc_block_ok 2 h R R node) as (h1 & E1 & Ho1 & Hr1 & -> & K1); [done..|]. run E1. set (h1 := <[node := Block]> h) in *.
  assert (h1 !! s = Some (Counted n (State st))) as Hs1 by (unfold h1; rewrite lookup_insert_ne; [done|congruence]).
  destruct (hold_ok 1 h1 R (node :: R) KPublic x) as (h2 & E2 & Ho2 & Hr2 & K2 & X2 & U2 & _); [done|by apply K1|done|done|]. run E2.
  destruct (hold_ok 0 h2 R (x :: node :: R) KChain y) as (h3 & E3 & Ho3 & Hr3 & K3 & Y3 & U3 & _); [done|by apply K2, K1|done|done|]. run E3.
  apply U2, U3 in Hs1 as Hs3; [|done..]. match goal with |- context [store_state s ?g] => set (f := g) end.
  destruct (state_fields_chains st) as (before & after & Hf).
  assert (state_fields st = before ++ (receiver_chains st ≫= chain_fields) ++ after) as Hst by (rewrite <- Hf; by destruct st).
  assert (state_fields (f st) = before ++ ((receiver_chains st ≫= chain_fields) ++
    [to KPublic (Some x); to KChain (Some y); plain (Some node)]) ++ after) as Hfst by (unfold f; by rewrite Hf, bind_app).
  pose proof (own_typed _ _ Ho3 s _ Hs3) as Ht. cbn [cell_fields fields] in Ht. rewrite Hst, !Forall_app in Ht.
  destruct (fill_state_ok h3 R s n st f [y; x; node]) as (h4 & E4 & Ho4 & Hs4 & _); [done|done| | | |].
  - rewrite Hfst, !Forall_app. destruct Ht as (Ht1 & Ht2 & Ht3). split_and!; try done.
    repeat (apply Forall_cons; split); try apply Forall_nil_2; try apply typed_object; [by apply K3, K2, K1|done|].
    exists Block. split; [|done]. apply U3; [|done]. apply U2; [|done]. apply lookup_insert_eq.
  - pose proof (own_tidy _ _ Ho3 s _ _ Hs3). by destruct st.
  - rewrite Hfst, Hst. unfold pointees. rewrite !omap_app. cbn. solve_Permutation.
  - run E4. unfold load_state. rewrite Hs4. destruct (drop_receiver_chains_ok (length (receiver_chains (f st))) h4 R s n (f st) Ho4 Hs4 eq_refl)
      as (h5 & E5 & Ho5 & Hs5). exists h5. split_and!; [done..|]. eexists. split; [exact Hs5|].
    unfold f. destruct st; cbn. rewrite length_drop, length_app. cbn. lia.
Qed.

(** ** Constructors *)

(** References to the arguments that are not null. *)
Definition retain (ps : list ptr) : action := foreach (fun p => non_null p (signal_type_ref p)) ps.

Definition arguments_held (h : heap) (R : list loc) (ps : list ptr) : Prop :=
  forall x, Some x ∈ ps -> exists k, held h R k x.

Lemma retain_ok ps : forall h R R', owned h R' -> arguments_held h R ps -> room (Z.of_nat (length ps)) h ->
  exists h', retain ps h = Some h' /\ owned h' (omap id ps ++ R') /\ keeps h h' R /\ forall l, h' !! l = None <-> h !! l = None.
Proof.
  induction ps as [|[x|] ps IH]; intros h R R' Ho Hargs Hroom; cbn [length omap list_omap id app] in *.
  - exists h. split_and!; try done. by intros k x.
  - destruct (Hargs x) as [k Hx]; [by left|].
    destruct (hold_ok (Z.of_nat (length ps)) h R R' k x) as (h1 & E1 & Ho1 & Hr1 & K1 & _ & _ & N1);
      [done|done|by apply (room_weaken _ _ _ Hroom); lia|lia|].
    destruct (IH h1 R (x :: R')) as (h2 & E2 & Ho2 & K2 & N2); [done| |done|].
    { intros y Hy. destruct (Hargs y) as [ky Hky]; [by right|]. exists ky. by apply K1. }
    exists h2. split_and!.
    + unfold retain in *. cbn [foreach non_null]. run E1. done.
    + by apply (owned_perm h2 _ _ (symmetry (Permutation_middle _ _ _))) in Ho2.
    + by eapply keeps_trans.
    + intros l. by rewrite N2, N1.
  - destruct (IH h R R') as (h2 & E2 & Ho2 & K2 & N2); [done| |by apply (room_weaken _ _ _ Hroom); lia|].
    { intros y Hy. apply Hargs. by right. }
    exists h2. by split_and!.
Qed.

Lemma ref_insert x l c h h' : h !! l = None -> signal_type_ref (Some x) h = Some h' ->
  signal_type_ref (Some x) (<[l := c]> h) = Some (<[l := c]> h') /\ h' !! l = None.
Proof.
  intros Hl. unfold signal_type_ref. cbn. intros E. destruct (h !! x) as [[n o|]|] eqn:Hx; [|done|done].
  assert (x <> l) by congruence. rewrite lookup_insert_ne, Hx by done. destruct (0 <? n); [|done]. simplify_eq.
  split; [by rewrite insert_insert_ne|by rewrite lookup_insert_ne].
Qed.

Lemma retain_insert ps l c : forall h h', h !! l = None -> retain ps h = Some h' -> retain ps (<[l := c]> h) = Some (<[l := c]> h').
Proof.
  induction ps as [|[x|] ps IH]; intros h h' Hl E; [by injection E as ->| |by apply IH].
  unfold retain in *. cbn [foreach non_null] in *. unfold andthen in *. apply bind_Some in E as (h1 & E1 & E2).
  destruct (ref_insert x l c h h1 Hl E1) as [-> Hl1]. cbn. by apply IH.
Qed.

(** The references of a new object are those to the arguments. *)
Definition from_arguments (h : heap) (R : list loc) (o : object) (ps : list ptr) : Prop :=
  refs o ≡ₚ omap id ps /\ forall k x, (k, Some x) ∈ fields o -> exists k', k = Some k' /\ held h R k' x.

Lemma typed_arguments h R o ps : from_arguments h R o ps -> Forall (typed h) (fields o).
Proof.
  intros [_ H]. apply Forall_forall. intros [k [x|]] Hf; [|done]. destruct (H k x Hf) as (k' & -> & _ & Hx). by apply typed_object.
Qed.

Lemma held_arguments h R o ps : from_arguments h R o ps -> arguments_held h R ps.
Proof.
  intros [Hp H] x Hx. assert (x ∈ refs o) as Hin by (rewrite Hp; apply list_elem_of_omap; by exists (Some x)).
  apply list_elem_of_omap in Hin as ([k p] & Hf & Hp'). cbn in Hp'. subst p. destruct (H k x Hf) as (k' & _ & Hk'). by eauto.
Qed.

Lemma from_arguments_keeps h h' R o ps : keeps h h' R -> from_arguments h R o ps -> from_arguments h' R o ps.
Proof. intros K [Hp H]. split; [done|]. intros k x Hf. destruct (H k x Hf) as (k' & -> & Hk). exists k'. split; [done|]. by apply K. Qed.

Lemma create_ok h R l o reference ps : owned h R -> h !! l = None -> from_arguments h R o ps -> tidy o ->
  room (Z.of_nat (length ps)) h -> reference ≡ retain ps ->
  exists h', create (Some l) o reference h = Some h' /\ owned h' (l :: R).
Proof.
  intros Ho Hl Hargs Hty Hroom Heq. destruct (retain_ok ps h R R) as (h1 & E1 & Ho1 & K1 & N1); [done|by eapply held_arguments|done|].
  exists (<[l := Counted 1 o]> h1). split.
  - unfold create, signal_type_init, andthen. rewrite Hl. cbn [mbind option_bind]. rewrite (Heq _). by apply retain_insert.
  - apply owned_insert; [|by apply N1|done|by eapply typed_arguments, from_arguments_keeps|by intros ?? [= _ <-]].
    apply (owned_perm h1 (omap id ps ++ R)); [|done]. change (cell_refs (Counted 1 o)) with (refs o). by rewrite (proj1 Hargs).
Qed.

Lemma retain_one x : retain [Some x] ≡ signal_type_ref (Some x).
Proof. apply andthen_skip. Qed.
Lemma retain_cons x ps : retain (Some x :: ps) ≡ (signal_type_ref (Some x) ;; retain ps).
Proof. done. Qed.

(** ** Session records *)

Lemma store_record_ok h R r n cur prev state prev' add drop : owned h (add ++ R) -> h !! r = Some (Counted n (SessionRecord cur prev)) ->
  Forall (typed h) (fields (SessionRecord state prev')) ->
  refs (SessionRecord state prev') ++ drop ≡ₚ refs (SessionRecord cur prev) ++ add ->
  exists h', store_record r state prev' h = Some h' /\ owned h' (drop ++ R) /\ h' = <[r := Counted n (SessionRecord state prev')]> h.
Proof.
  intros Ho Hr Ht Hp. eexists. split; [unfold store_record; by rewrite Hr|]. split; [|done].
  by apply (owned_store h R r n (SessionRecord cur prev) _ add drop).
Qed.

(** A held state becomes the current one. *)
Lemma install_state_ok h R r n prev s : owned h R -> h !! r = Some (Counted n (SessionRecord None prev)) -> held h R KState s -> room 1 h ->
  exists h1 h2, signal_type_ref (Some s) h = Some h1 /\ store_record r (Some s) prev h1 = Some h2 /\ owned h2 R /\
    h2 !! r = Some (Counted n (SessionRecord (Some s) prev)).
Proof.
  intros Ho Hr Hs Hroom. destruct (hold_ok 0 h R R KState s) as (h1 & E1 & Ho1 & _ & K1 & S1 & U1 & _); [done..|].
  apply U1 in Hr as Hr1; [|done]. pose proof (own_typed _ _ Ho1 r _ Hr1) as Ht. cbn [cell_fields fields] in Ht. apply Forall_cons in Ht as [_ Ht].
  destruct (store_record_ok h1 R r n None prev (Some s) prev [s] []) as (h2 & E2 & Ho2 & ->); [done|done| | |].
  - apply Forall_cons. split; [by apply typed_object|done].
  - unfold refs. cbn. by rewrite app_nil_r, <- Permutation_cons_append.
  - exists h1. eexists. split_and!; [done..|]. apply lookup_insert_eq.
Qed.

Lemma session_record_set_state_ok h R r n cur prev s : owned h R -> h !! r = Some (Counted n (SessionRecord cur prev)) ->
  held h R KState s -> room 1 h ->
  exists h', session_record_set_state r (Some s) h = Some h' /\ owned h' R /\ h' !! r = Some (Counted n (SessionRecord (Some s) prev)).
Proof.
  intros Ho Hr Hs Hroom. unfold session_record_set_state, load_record. rewrite Hr.
  assert (exists h1, (non_null cur (signal_type_unref cur ;; store_record r None prev)) h = Some h1 /\ owned h1 R /\
    h1 !! r = Some (Counted n (SessionRecord None prev)) /\ room 1 h1 /\ keeps h h1 R) as (h1 & E1 & Ho1 & Hr1 & Hroom1 & K1).
  { destruct cur as [l|]; cbn [non_null]; [|exists h; split_and!; try done; by intros k x].
    destruct (release_pointer h R r n (SessionRecord (Some l) prev) (SessionRecord None prev) KState l (prev ≫= node_fields KState))
      as (h1 & E & Hr1 & Ho1 & Hrel); try done.
    exists h1. split_and!; [|done..| |].
    - run E. unfold store_record. rewrite (recast_eq _ _ _ _ _ Hr1). by rewrite store_recast.
    - eapply room_released; [exact Hrel|by eapply room_store].
    - eapply keeps_trans; [by apply (keeps_store h r n (SessionRecord (Some l) prev) (SessionRecord None prev))|]. by eapply keeps_released. }
  run E1. destruct (install_state_ok h1 R r n prev s Ho1 Hr1 (K1 _ _ Hs) Hroom1) as (h2 & h3 & E2 & E3 & Ho3 & Hr3).
  run E2. by exists h3.
Qed.

Lemma unref_below d : unrefs signal_type_unref d.
Proof. intros h F R l n o D O L K. apply (unref_ok 8 h F R l n o D O L). apply rank_bound. Qed.

Lemma drop_previous_states_ok rest : forall h R r n state kept, owned h R -> h !! r = Some (Counted n (SessionRecord state (kept ++ rest))) ->
  exists h', drop_previous_states r state kept rest h = Some h' /\ owned h' R /\ h' !! r = Some (Counted n (SessionRecord state kept)).
Proof.
  induction rest as [|c rest IH]; intros h R r n state kept Ho Hr; [exists h; by rewrite app_nil_r in Hr|]. cbn [drop_previous_states].
  pose proof (own_typed _ _ Ho r _ Hr) as Ht. pose proof (fields_ranked (SessionRecord state (kept ++ c :: rest))) as Hrk.
  cbn [cell_fields fields] in Ht, Hrk. rewrite bind_app, bind_cons, Forall_cons, !Forall_app in Ht, Hrk.
  destruct (store_record_ok h R r n state (kept ++ c :: rest) state (kept ++ rest) [] (pointees (node_fields KState c))) as (h1 & E1 & Ho1 & Hh1);
    [done|done| | |].
  - cbn [fields]. rewrite bind_app, Forall_cons, Forall_app. naive_solver.
  - unfold refs, pointees. cbn [fields]. rewrite !bind_app, bind_cons. cbn [omap list_omap]. rewrite !omap_app.
    destruct (to KState state).2; solve_Permutation.
  - run E1. destruct (releases_ok signal_type_unref 3 (node_fields KState c) h1 ∅ R) as (h2 & E2 & Hrel & Ho2);
      [apply unref_below|done|apply map_disjoint_empty_r|done| |apply Hrk|].
    { subst h1. destruct Ht as (_ & _ & Ht & _). apply (Forall_impl _ _ _ Ht). intros f.
      by apply (typed_update h r (Counted n (SessionRecord state (kept ++ c :: rest)))). }
    rewrite !map_union_empty in E2.
    assert (h2 !! r = Some (Counted n (SessionRecord state (kept ++ rest)))) as Hr2.
    { apply (rel_untouched _ _ _ Hrel); [subst h1; apply lookup_insert_eq|done]. }
    destruct (IH h2 R r n state kept Ho2 Hr2) as (h3 & E3 & Ho3 & Hr3). exists h3. split; [|done].
    unfold releases, node_fields in E2. cbn [foreach release to plain fst snd] in E2.
    unfold andthen in E2 |- *. rewrite (non_null_unref signal_type_unref (unref_null 8) (node_object c) h1).
    destruct (signal_type_unref (node_object c) h1) as [h1'|]; [|done]. cbn [mbind option_bind] in *.
    destruct (free (Some (node_address c)) h1') as [h1''|]; [|done]. cbn [mbind option_bind] in *. injection E2 as ->. done.
Qed.

(** What follows the moving of the current state into the list. *)
Lemma promote_ok h R r n prev s : owned h R -> h !! r = Some (Counted n (SessionRecord None prev)) -> held h R KState s -> room 1 h ->
  exists h', (signal_type_ref (Some s) ;; store_record r (Some s) prev ;;
      drop_previous_states r (Some s) (take ARCHIVED_STATES_MAX_LENGTH prev) (drop ARCHIVED_STATES_MAX_LENGTH prev)) h = Some h' /\
    owned h' R /\ h' !! r = Some (Counted n (SessionRecord (Some s) (take ARCHIVED_STATES_MAX_LENGTH prev))).
Proof.
  intros Ho Hr Hs Hroom. destruct (install_state_ok h R r n prev s Ho Hr Hs Hroom) as (h1 & h2 & E1 & E2 & Ho2 & Hr2). run E1. run E2.
  apply drop_previous_states_ok; [done|]. by rewrite take_drop.
Qed.

Lemma session_record_promote_state_ok h R r n cur prev node s : owned h R -> h !! r = Some (Counted n (SessionRecord cur prev)) ->
  h !! node = None -> held h R KState s -> room 1 h ->
  exists h' prev', session_record_promote_state r (Some node) (Some s) h = Some h' /\ owned h' R /\
    h' !! r = Some (Counted n (SessionRecord (Some s) prev')) /\ (length prev' <= 40)%nat.
Proof.
  intros Ho Hr Hn Hs Hroom. unfold session_record_promote_state, load_record. rewrite Hr. destruct cur as [l|]; cycle 1.
  { destruct (promote_ok h R r n prev s Ho Hr Hs Hroom) as (h' & E & Ho' & Hr'). do 2 eexists. split_and!; [exact E|done..|].
    rewrite length_take. unfold ARCHIVED_STATES_MAX_LENGTH. lia. }
  destruct (alloc_block_ok 1 h R R node) as (h1 & E1 & Ho1 & Hroom1 & -> & K1); [done..|]. run E1. set (h1 := <[node := Block]> h) in *.
  assert (h1 !! r = Some (Counted n (SessionRecord (Some l) prev))) as Hr1 by (unfold h1; rewrite lookup_insert_ne; [done|congruence]).
  pose proof (own_typed _ _ Ho1 r _ Hr1) as Ht. cbn [cell_fields fields] in Ht. apply Forall_cons in Ht as [Htl Ht].
  destruct (store_record_ok h1 R r n (Some l) prev None (Node node (Some l) :: prev) [node] []) as (h2 & E2 & Ho2 & Hh2); [done|done| | |].
  - cbn [fields]. rewrite bind_cons. unfold node_fields at 1. cbn [node_object node_address]. repeat (apply Forall_cons; split; [done|]).
    apply Forall_cons. split; [|done]. exists Block. split; [apply lookup_insert_eq|done].
  - unfold refs, pointees. cbn. solve_Permutation.
  - run E2. assert (h2 !! r = Some (Counted n (SessionRecord None (Node node (Some l) :: prev)))) as Hr2 by (subst h2; apply lookup_insert_eq).
    assert (keeps h1 h2 R) as K2 by (subst h2; by apply (keeps_store h1 r n (SessionRecord (Some l) prev))).
    destruct (promote_ok h2 R r n (Node node (Some l) :: prev) s) as (h' & E & Ho' & Hr'); [done|done|by apply K2, K1| |].
    { subst h2. by eapply room_store. }
    do 2 eexists. split_and!; [exact E|done..|]. rewrite length_take. unfold ARCHIVED_STATES_MAX_LENGTH. lia.
Qed.

Lemma session_record_create_ok h R r t : owned h R -> h !! r = None -> h !! t = None -> r <> t ->
  exists h', session_record_create (Some r) (Some t) None h = Some h' /\ owned h' (r :: R).
Proof.
  intros Ho Hr Ht Hne. exists (<[r := Counted 1 (SessionRecord (Some t) [])]> (<[t := Counted 1 (State empty_state)]> h)). split.
  - unfold session_record_create, signal_type_init, andthen. rewrite Hr. cbn [mbind option_bind].
    unfold session_state_create, create, signal_type_init, andthen. rewrite lookup_insert_ne, Ht by done. cbn [mbind option_bind skip].
    unfold store_record. rewrite lookup_insert_ne, lookup_insert_eq by done. f_equal.
    rewrite (insert_insert_ne _ r t) by done. rewrite insert_insert_eq. by apply insert_insert_ne.
  - assert (owned (<[t := Counted 1 (State empty_state)]> h) (t :: R)) as Ho1.
    { apply owned_insert; try done; [repeat constructor|]. by intros ?? [= _ <-]. }
    apply owned_insert; [done|by rewrite lookup_insert_ne|done| |by intros ?? [= _ <-]].
    apply Forall_singleton. exists (Counted 1 (State empty_state)). split; [apply lookup_insert_eq|done].
Qed.

(** The failing allocation of the state releases the new record again. *)
Lemma session_record_create_fails h R r : owned h R -> h !! r = None -> session_record_create (Some r) None None h = Some h.
Proof.
  intros Ho Hr. unfold session_record_create, signal_type_init, andthen. rewrite Hr. cbn [mbind option_bind].
  unfold signal_type_unref. rewrite unref_object, lookup_insert_eq. cbn -[unref insert].
  unfold session_record_destroy, andthen. cbn -[insert]. rewrite lookup_insert_eq. by rewrite delete_insert_id.
Qed.

Lemma session_record_create_with_ok h R r t s : owned h R -> h !! r = None -> held h R KState s -> room 1 h ->
  exists h', session_record_create (Some r) t (Some s) h = Some h' /\ owned h' (r :: R).
Proof.
  intros Ho Hr Hs Hroom. unfold session_record_create, signal_type_init, andthen at 1. rewrite Hr. cbn [mbind option_bind].
  set (h1 := <[r := Counted 1 (SessionRecord None [])]> h).
  assert (owned h1 (r :: R)) as Ho1 by (apply owned_insert; try done; [repeat constructor|by intros ?? [= _ <-]]).
  destruct (install_state_ok h1 (r :: R) r 1 [] s) as (h2 & h3 & E2 & E3 & Ho3 & _); [done|apply lookup_insert_eq| | |].
  - destruct Hs as [Hs (i & q & Hq & Hk)]. split; [by right|]. exists i, q. unfold h1. rewrite lookup_insert_ne; [done|congruence].
  - intros l c Hl. apply lookup_insert_Some in Hl as [[<- <-]|[_ Hl]]; [done|by apply (Hroom l)].
  - run E2. by exists h3.
Qed.

(** Chain keys and root keys own a block with the key. *)
Lemma keyed_create_ok h R l k x (o : object) : owned h R -> h !! l = None -> h !! k = None -> l <> k -> held h R KHkdf x -> room 1 h ->
  fields o = [to KHkdf (Some x); plain (Some k)] -> tidy o ->
  exists h', (signal_type_init l o ;; malloc_block k ;; signal_type_ref (Some x)) h = Some h' /\ owned h' (l :: R).
Proof.
  intros Ho Hl Hk Hne Hx Hroom Hf Hty. destruct (alloc_block_ok 1 h R R k) as (h1 & _ & Ho1 & Hr1 & -> & K1); [done..|].
  set (h1 := <[k := Block]> h) in *. destruct (hold_ok 0 h1 R (k :: R) KHkdf x) as (h2 & E2 & Ho2 & _ & K2 & X2 & U2 & _); [done|by apply K1|done|done|].
  assert (h1 !! l = None) as Hl1 by (unfold h1; by rewrite lookup_insert_ne).
  destruct (ref_insert x l (Counted 1 o) h1 h2 Hl1 E2) as [E2' Hl2]. exists (<[l := Counted 1 o]> h2). split.
  - unfold signal_type_init, malloc_block, andthen. rewrite Hl. cbn [mbind option_bind]. rewrite lookup_insert_ne, Hk by done. cbn [mbind option_bind].
    by rewrite insert_insert_ne.
  - apply owned_insert; [|done|done| |by intros ?? [= _ <-]].
    + cbn [cell_refs cell_fields]. unfold cell_refs, cell_fields. rewrite Hf. done.
    + cbn [cell_fields]. rewrite Hf. repeat (apply Forall_cons; split); [by apply typed_object| |done].
      exists Block. split; [|done]. apply U2; [apply lookup_insert_eq|done].
Qed.

Lemma keyed_create_fails h l o : h !! l = None -> (signal_type_init l o ;; free (Some l)) h = Some h.
Proof.
  intros Hl. unfold signal_type_init, andthen. rewrite Hl. cbn -[insert delete]. rewrite lookup_insert_eq. by rewrite delete_insert_id.
Qed.
