(* ===== verification/MemorySafety.v ===== *)
(** Memory safety of the reference counted objects: a client that releases
    only what it holds never makes the library use or free memory twice, and
    when it has released everything nothing is left. *)
From stdpp Require Import base list gmap.
From Stdlib Require Import ZArith Lia.
From S2P Require Import Prelude Memory MemoryProofs Ownership.
#[local] Open Scope Z_scope.
#[local] Open Scope action_scope.

(** ** Clients *)

(** The calls a client makes.  Arguments called [memory] are what [malloc]
    returns during the call. *)
Inductive op : Type :=
  | NewPublicKey (l : loc)
  | NewPrivateKey (l : loc)
  | NewHkdf (l : loc)
  | NewKeyPair (memory : ptr) (public_key private_key : loc)
  | NewIdentity (memory : ptr) (public_key private_key : loc)
  | NewChainKey (memory key_memory : ptr) (kdf : loc)
  | NewRootKey (memory key_memory : ptr) (kdf : loc)
  | NewSymmetric (memory : ptr) (our_identity our_base our_ratchet their_base their_ratchet their_identity : loc)
  | NewAlice (memory : ptr) (our_identity our_base their_identity their_signed : loc) (their_one_time : ptr) (their_ratchet : loc)
  | NewBob (memory : ptr) (our_identity our_signed : loc) (our_one_time : ptr) (our_ratchet their_identity their_base : loc)
  | NewPreKey (memory : ptr) (key_pair : loc)
  | NewState (memory : ptr)
  | NewRecord (memory state_memory : ptr) (state : ptr)
  | Ref (x : loc)
  | Unref (x : loc)
  | SetLocalIdentity (s x : loc)
  | SetRemoteIdentity (s x : loc)
  | SetRootKey (s x : loc)
  | SetSenderChain (s x y : loc)
  | SetSenderChainKey (s x : loc)
  | AddReceiverChain (s : loc) (memory : ptr) (x y : loc)
  | SetPendingKeyExchange (s x y z : loc)
  | SetUnacknowledged (s x : loc)
  | ClearUnacknowledged (s : loc)
  | SetAliceBaseKey (s x : loc)
  | SetState (r s : loc)
  | PromoteState (r : loc) (memory : ptr) (s : loc).

Definition run (o : op) : action :=
  match o with
  | NewPublicKey l => signal_type_init l EcPublicKey
  | NewPrivateKey l => signal_type_init l EcPrivateKey
  | NewHkdf l => signal_type_init l HkdfContext
  | NewKeyPair m a b => ec_key_pair_create m (Some a) (Some b)
  | NewIdentity m a b => ratchet_identity_key_pair_create m (Some a) (Some b)
  | NewChainKey m k x => ratchet_chain_key_create m k (Some x)
  | NewRootKey m k x => ratchet_root_key_create m k (Some x)
  | NewSymmetric m a b c d e f =>
      symmetric_signal_protocol_parameters_create m (Some a) (Some b) (Some c) (Some d) (Some e) (Some f)
  | NewAlice m a b c d p e => alice_signal_protocol_parameters_create m (Some a) (Some b) (Some c) (Some d) p (Some e)
  | NewBob m a b p c d e => bob_signal_protocol_parameters_create m (Some a) (Some b) p (Some c) (Some d) (Some e)
  | NewPreKey m a => session_pre_key_create m (Some a)
  | NewState m => session_state_create m
  | NewRecord m t s => session_record_create m t s
  | Ref x => signal_type_ref (Some x)
  | Unref x => signal_type_unref (Some x)
  | SetLocalIdentity s x => session_state_set_local_identity_key s (Some x)
  | SetRemoteIdentity s x => session_state_set_remote_identity_key s (Some x)
  | SetRootKey s x => session_state_set_root_key s (Some x)
  | SetSenderChain s x y => session_state_set_sender_chain s (Some x) (Some y)
  | SetSenderChainKey s x => session_state_set_sender_chain_key s (Some x)
  | AddReceiverChain s m x y => session_state_add_receiver_chain s m (Some x) (Some y)
  | SetPendingKeyExchange s x y z => session_state_set_pending_key_exchange s (Some x) (Some y) (Some z)
  | SetUnacknowledged s x => session_state_set_unacknowledged_pre_key_message s (Some x)
  | ClearUnacknowledged s => session_state_clear_unacknowledged_pre_key_message s
  | SetAliceBaseKey s x => session_state_set_alice_base_key s (Some x)
  | SetState r s => session_record_set_state r (Some s)
  | PromoteState r m s => session_record_promote_state r m (Some s)
  end.

(** [malloc] returns null or memory that is not in use. *)
Definition fresh (h : heap) (memory : ptr) : Prop := if memory is Some l then h !! l = None else True.

Definition held_or_null (h : heap) (R : list loc) (k : kind) (p : ptr) : Prop := if p is Some x then held h R k x else True.

(** The client holds the references [R] and obeys the rules: it passes live
    objects of the right type to which it holds references, releases only what
    it holds, and changes states and records it can reach.  After the call it
    holds [R']. *)
Inductive legal (h : heap) (R : list loc) : op -> list loc -> Prop :=
  | legal_public l : fresh h (Some l) -> legal h R (NewPublicKey l) (l :: R)
  | legal_private l : fresh h (Some l) -> legal h R (NewPrivateKey l) (l :: R)
  | legal_hkdf l : fresh h (Some l) -> legal h R (NewHkdf l) (l :: R)
  | legal_pair m a b : fresh h m -> held h R KPublic a -> held h R KPrivate b -> legal h R (NewKeyPair m a b) (option_list m ++ R)
  | legal_identity m a b : fresh h m -> held h R KPublic a -> held h R KPrivate b -> legal h R (NewIdentity m a b) (option_list m ++ R)
  | legal_chain m k x : fresh h m -> fresh h k -> (k <> None -> m <> k) -> held h R KHkdf x ->
      legal h R (NewChainKey m k x) (if k is Some _ then option_list m ++ R else R)
  | legal_root m k x : fresh h m -> fresh h k -> (k <> None -> m <> k) -> held h R KHkdf x ->
      legal h R (NewRootKey m k x) (if k is Some _ then option_list m ++ R else R)
  | legal_symmetric m a b c d e f : fresh h m -> held h R KIdentity a -> held h R KPair b -> held h R KPair c ->
      held h R KPublic d -> held h R KPublic e -> held h R KPublic f -> legal h R (NewSymmetric m a b c d e f) (option_list m ++ R)
  | legal_alice m a b c d p e : fresh h m -> held h R KIdentity a -> held h R KPair b -> held h R KPublic c ->
      held h R KPublic d -> held_or_null h R KPublic p -> held h R KPublic e -> legal h R (NewAlice m a b c d p e) (option_list m ++ R)
  | legal_bob m a b p c d e : fresh h m -> held h R KIdentity a -> held h R KPair b -> held_or_null h R KPair p ->
      held h R KPair c -> held h R KPublic d -> held h R KPublic e -> legal h R (NewBob m a b p c d e) (option_list m ++ R)
  | legal_pre_key m a : fresh h m -> held h R KPair a -> legal h R (NewPreKey m a) (option_list m ++ R)
  | legal_state m : fresh h m -> legal h R (NewState m) (option_list m ++ R)
  | legal_record m t s : fresh h m -> fresh h t -> (t <> None -> m <> t) -> held_or_null h R KState s ->
      legal h R (NewRecord m t s) (if s is None then if t is None then R else option_list m ++ R else option_list m ++ R)
  | legal_ref x k : reach h R x -> object_at h k x -> legal h R (Ref x) (x :: R)
  | legal_unref x k R' : R ≡ₚ x :: R' -> object_at h k x -> legal h R (Unref x) R'
  | legal_local s x : object_at h KState s -> held h R KPublic x -> legal h R (SetLocalIdentity s x) R
  | legal_remote s x : object_at h KState s -> held h R KPublic x -> legal h R (SetRemoteIdentity s x) R
  | legal_root_key s x : object_at h KState s -> held h R KRoot x -> legal h R (SetRootKey s x) R
  | legal_sender s x y : object_at h KState s -> held h R KPair x -> held h R KChain y -> legal h R (SetSenderChain s x y) R
  | legal_sender_key s x : object_at h KState s -> held h R KChain x -> legal h R (SetSenderChainKey s x) R
  | legal_receiver s m x y : object_at h KState s -> fresh h m -> held h R KPublic x -> held h R KChain y ->
      legal h R (AddReceiverChain s m x y) R
  | legal_pending s x y z : object_at h KState s -> held h R KPair x -> held h R KPair y -> held h R KIdentity z ->
      legal h R (SetPendingKeyExchange s x y z) R
  | legal_unacknowledged s x : object_at h KState s -> held h R KPublic x -> legal h R (SetUnacknowledged s x) R
  | legal_clear s : object_at h KState s -> legal h R (ClearUnacknowledged s) R
  | legal_alice_base s x : object_at h KState s -> held h R KPublic x -> legal h R (SetAliceBaseKey s x) R
  | legal_set_state r s : object_at h KRecord r -> held h R KState s -> legal h R (SetState r s) R
  | legal_promote r m s : object_at h KRecord r -> fresh h m -> held h R KState s -> legal h R (PromoteState r m s) R.

(** The heaps and references a client arrives at. *)
Inductive client : heap -> list loc -> Prop :=
  | client_start : client ∅ []
  | client_call h R o R' h' : client h R -> room 8 h -> legal h R o R' -> run o h = Some h' -> client h' R'.

(** ** Every call succeeds and keeps the invariant *)

Lemma state_object h s : object_at h KState s -> exists n st, h !! s = Some (Counted n (State st)).
Proof. intros (n & o & Hs & Hk). destruct o; try done. by eauto. Qed.
Lemma record_object h r : object_at h KRecord r -> exists n cur prev, h !! r = Some (Counted n (SessionRecord cur prev)).
Proof. intros (n & o & Hs & Hk). destruct o; try done. by eauto. Qed.

Lemma setter_call h R s x k get set : owned h R -> object_at h KState s -> held h R k x -> room 8 h ->
  (forall st, exists rest, slot k get set st rest) ->
  exists h', (SIGNAL_UNREF s get set ;; signal_type_ref (Some x) ;; store_state s (set (Some x))) h = Some h' /\ owned h' R.
Proof.
  intros Ho Hs [Hx Hk] Hroom Hslot. destruct (state_object h s Hs) as (n & st & Hst).
  destruct (setter_ok 0 h R s n st k get set x) as (h' & E & Ho' & _); try done; [by apply reach_held|by apply (room_weaken 8)|by eauto].
Qed.

Lemma create_call h R m o reference ps : owned h R -> fresh h m -> from_arguments h R o ps -> tidy o -> room 8 h ->
  (length ps <= 8)%nat -> reference ≡ retain ps ->
  exists h', create m o reference h = Some h' /\ owned h' (option_list m ++ R).
Proof.
  intros Ho Hm Hargs Hty Hroom Hlen Heq. destruct m as [l|]; [|by exists h].
  apply (create_ok h R l o reference ps); try done. apply (room_weaken 8); [done|lia].
Qed.

(** The arguments of a constructor are the fields of the object. *)
Lemma arguments_fields h R o fs : fields o = fs -> Forall (fun f => if f.1 is Some k then held_or_null h R k f.2 else f.2 = None) fs ->
  from_arguments h R o (snd <$> fs).
Proof.
  intros Hf Hall. split.
  - unfold refs. rewrite Hf. unfold pointees. clear. induction fs as [|[k [x|]] fs IH]; [done| |]; cbn; [by rewrite IH|done].
  - intros k x Hin. rewrite Hf in Hin. rewrite Forall_forall in Hall. specialize (Hall _ Hin). cbn in Hall. destruct k as [k|]; [|done]. by eauto.
Qed.

(** A call of a constructor whose fields are its arguments. *)
Ltac constructor_call :=
  unfold ec_key_pair_create, ratchet_identity_key_pair_create, symmetric_signal_protocol_parameters_create,
    alice_signal_protocol_parameters_create, bob_signal_protocol_parameters_create, session_pre_key_create;
  cbn [check_arguments forallb andb];
  match goal with |- exists h', create _ ?o _ _ = _ /\ _ =>
    apply (create_call _ _ _ o _ (snd <$> fields o));
    [done|done|apply arguments_fields; [done|repeat (apply Forall_cons; split; [done|]); apply Forall_nil_2]|done|done|cbn; lia|
     unfold retain; cbn [fields fmap list_fmap snd foreach to non_null]; by rewrite ?andthen_skip]
  end.

Lemma set_sender_chain_call h R s x y : owned h R -> object_at h KState s -> held h R KPair x -> held h R KChain y -> room 8 h ->
  exists h', session_state_set_sender_chain s (Some x) (Some y) h = Some h' /\ owned h' R.
Proof.
  intros Ho Hs Hx Hy Hroom. destruct (state_object h s Hs) as (n & st & Hst).
  destruct (setter_ok 1 h R s n st KPair sender_ratchet_key_pair set_sender_ratchet_key_pair x) as (h1 & E1 & Ho1 & Hr1 & Hs1 & K1);
    [done|done|apply sender_pair_slot|apply Hx|apply reach_held, Hx|by apply (room_weaken 8)|done|].
  destruct (setter_ok 0 h1 R s n _ KChain sender_chain_key set_sender_chain_key y Ho1 Hs1) as (h2 & E2 & Ho2 & _);
    [apply sender_chain_slot|apply K1, Hy|apply reach_held, Hy|done|done|].
  exists h2. split; [|done]. unfold session_state_set_sender_chain.
  transitivity (((SIGNAL_UNREF s sender_ratchet_key_pair set_sender_ratchet_key_pair ;; signal_type_ref (Some x) ;;
    store_state s (set_sender_ratchet_key_pair (Some x))) ;; SIGNAL_UNREF s sender_chain_key set_sender_chain_key ;;
    signal_type_ref (Some y) ;; store_state s (set_sender_chain_key (Some y))) h).
  - rewrite (andthen_assoc _ _ _ h). apply andthen_proper; [done|]. symmetry. apply andthen_assoc.
  - unfold andthen at 1. by rewrite E1.
Qed.

Lemma keyed_call h R m k x o o0 : owned h R -> fresh h m -> fresh h k -> (k <> None -> m <> k) -> held h R KHkdf x -> room 8 h ->
  fields o = [to KHkdf (Some x); plain k] -> tidy o ->
  exists h', (if m is Some l then
      match k with
      | None => signal_type_init l o0 ;; free (Some l)
      | Some b => signal_type_init l o ;; malloc_block b ;; signal_type_ref (Some x)
      end
    else skip) h = Some h' /\ owned h' (if k is Some _ then option_list m ++ R else R).
Proof.
  intros Ho Hm Hk Hne Hx Hroom Hf Hty. destruct m as [l|]; [|exists h; by destruct k]. destruct k as [b|].
  - apply (keyed_create_ok h R l b x o); try done; [|by apply (room_weaken 8)]. intros ->. by apply Hne.
  - exists h. split; [by apply keyed_create_fails|done].
Qed.

Lemma new_state_call h R m : owned h R -> fresh h m -> room 8 h ->
  exists h', session_state_create m h = Some h' /\ owned h' (option_list m ++ R).
Proof.
  intros Ho Hm Hroom. apply (create_call _ _ _ _ _ []); try done; [|cbn; lia]. split; [done|]. intros k x Hin. cbn in Hin.
  repeat (apply elem_of_cons in Hin as [Hin|Hin]; [done|]). by apply not_elem_of_nil in Hin.
Qed.

(** A new object without references. *)
Lemma new_object_call h R l o : owned h R -> h !! l = None -> fields o = [] -> tidy o ->
  exists h', signal_type_init l o h = Some h' /\ owned h' (l :: R).
Proof.
  intros Ho Hl Hf Hty. eexists. split; [unfold signal_type_init; by rewrite Hl|]. apply owned_insert; try done.
  - unfold cell_refs, cell_fields. by rewrite Hf.
  - cbn [cell_fields]. by rewrite Hf.
  - by intros ?? [= _ <-].
Qed.

Lemma new_record_call h R m t s : owned h R -> fresh h m -> fresh h t -> (t <> None -> m <> t) -> held_or_null h R KState s -> room 8 h ->
  exists h', session_record_create m t s h = Some h' /\
    owned h' (if s is None then if t is None then R else option_list m ++ R else option_list m ++ R).
Proof.
  intros Ho Hm Ht Hne Hs Hroom. destruct m as [r|]; [|exists h; by destruct s, t]. destruct s as [s|].
  { apply (session_record_create_with_ok h R r t s); try done. by apply (room_weaken 8). }
  destruct t as [t|].
  - apply (session_record_create_ok h R r t); try done. intros ->. by apply Hne.
  - exists h. split; [by eapply session_record_create_fails|done].
Qed.

Lemma call_ok h R o R' : owned h R -> room 8 h -> legal h R o R' -> exists h', run o h = Some h' /\ owned h' R'.
Proof.
  intros Ho Hroom Hl. destruct Hl; cbn [run fresh] in *;
    try (by apply new_object_call); try constructor_call;
    try (by apply new_record_call); try (by apply new_state_call); try (by apply set_sender_chain_call).
  - by apply (keyed_call h R m k x (RatchetChainKey (Some x) k)).
  - by apply (keyed_call h R m k x (RatchetRootKey (Some x) k)).
  - destruct H0 as (j & q & Hq & _). eexists. apply (signal_type_ref_ok h R x j q Ho Hq). specialize (Hroom x _ Hq). cbn in Hroom. lia.
  - destruct H0 as (j & q & Hq & _). destruct (signal_type_unref_ok h R' x j q) as (h' & E & _ & Ho'); [by eapply owned_perm|done|by eauto].
  - by apply (setter_call h R s x KPublic); [..|apply local_identity_slot].
  - by apply (setter_call h R s x KPublic); [..|apply remote_identity_slot].
  - by apply (setter_call h R s x KRoot); [..|apply root_key_slot].
  - by apply (setter_call h R s x KChain); [..|apply sender_chain_slot].
  - destruct (state_object h s H) as (n & st & Hst). destruct m as [node|]; [|by exists h].
    destruct (add_receiver_chain_ok h R s n st node x y) as (h' & E & Ho' & _); try done; [by apply (room_weaken 8)|by eauto].
  - destruct (state_object h s H) as (n & st & Hst).
    apply (set_pending_key_exchange_ok 0 h R s n st x y z); try done. by apply (room_weaken 8).
  - destruct (state_object h s H) as (n & st & Hst). apply (set_unacknowledged_ok 0 h R s n st x); try done. by apply (room_weaken 8).
  - destruct (state_object h s H) as (n & st & Hst). apply (clear_unacknowledged_ok h R s n st); try done. by apply (room_weaken 8).
  - by apply (setter_call h R s x KPublic); [..|apply alice_slot].
  - destruct (record_object h r H) as (n & cur & prev & Hr).
    destruct (session_record_set_state_ok h R r n cur prev s) as (h' & E & Ho' & _); try done; [by apply (room_weaken 8)|by eauto].
  - destruct (record_object h r H) as (n & cur & prev & Hr). destruct m as [node|].
    + destruct (session_record_promote_state_ok h R r n cur prev node s) as (h' & ? & E & Ho' & _); try done; [by apply (room_weaken 8)|by eauto].
    + unfold session_record_promote_state, load_record. rewrite Hr. destruct cur as [l|]; [by exists h|].
      destruct (promote_ok h R r n prev s) as (h' & E & Ho' & _); try done; [by apply (room_weaken 8)|by eauto].
Qed.

Lemma client_owned h R : client h R -> owned h R.
Proof.
  induction 1 as [|h R o R' h' _ IH Hroom Hl E]; [apply owned_empty|].
  destruct (call_ok h R o R' IH Hroom Hl) as (h'' & E' & Ho'). by simplify_eq.
Qed.

(** ** Theorems *)

(** C31: reference counting is memory safe.  Whatever a client that obeys the rules
    has done with keys, key pairs, chains, parameters, states and records, and
    whichever allocations failed: no call fails an assertion, uses freed
    memory or frees memory twice; exactly what the client can still reach is
    live; and when it has released all its references, everything is freed. *)
Theorem references_are_safe h R : client h R -> room 8 h ->
  (forall o R', legal h R o R' -> exists h', run o h = Some h') /\
  (forall l, is_Some (h !! l) <-> reach h R l) /\
  (R = [] -> h = ∅).
Proof.
  intros Hc Hroom. apply client_owned in Hc. split_and!.
  - intros o R' Hl. destruct (call_ok h R o R' Hc Hroom Hl) as (h' & E & _). by eauto.
  - intros l. by apply live_iff_reach.
  - intros ->. by apply owned_nil.
Qed.

(** C32: releasing a reference destroys exactly what is not used any more: the
    destructors end, what can be reached from the other references keeps its
    contents, and the rest is gone. *)
Theorem unused_objects_are_destroyed h R x k : owned h (x :: R) -> object_at h k x ->
  exists h', signal_type_unref (Some x) h = Some h' /\
    (forall l, is_Some (h' !! l) <-> reach h R l) /\
    forall l c', h' !! l = Some c' -> exists c, h !! l = Some c /\ cell_object c' = cell_object c /\ cell_count c' <= cell_count c.
Proof.
  intros Ho (n & o & Hx & _). destruct (signal_type_unref_ok h R x n o Ho Hx) as (h' & E & Hrel & Ho'). exists h'. split; [done|]. split.
  - intros l. rewrite (live_iff_reach h' R l Ho'). split; [|by apply (reach_released (S (rank (kind_of o))))].
    induction 1 as [l Hl|l c y _ IH Hl Hy]; [by apply reach_held|]. destruct (rel_contents _ _ _ Hrel l c Hl) as (c0 & H0 & E0 & _).
    apply (reach_field _ _ l c0); [done|done|]. unfold cell_refs in *. by rewrite (proj2 (kind_of_object _ _ E0)).
  - intros l c' Hl. destruct (rel_contents _ _ _ Hrel l c' Hl) as (c & Hc & E1 & E2). by eauto.
Qed.

(** ** An example *)

(** The heap after a call. *)
Definition after (o : op) (h : heap) : heap := default ∅ (run o h).

Lemma client_after h R o R' : client h R -> room 8 h -> legal h R o R' -> client (after o h) R'.
Proof.
  intros Hc Hr Hl. destruct (call_ok h R o R' (client_owned h R Hc) Hr Hl) as (h' & E & _). unfold after. rewrite E. by eapply client_call.
Qed.

Definition roomb (h : heap) : bool := forallb (fun p => cell_count p.2 + 8 <? 2 ^ 32) (map_to_list h).
Lemma roomb_room h : roomb h = true -> room 8 h.
Proof.
  intros H l c Hl. apply forallb_forall with (x := (l, c)) in H; [by apply Z.ltb_lt in H|].
  by apply list_elem_of_In, elem_of_map_to_list.
Qed.

(** A concrete object is of a kind. *)
Definition kindb (h : heap) (l : loc) : option kind := c ← h !! l; cell_kind c.
Lemma kindb_object h k l : kindb h l = Some k -> object_at h k l.
Proof. unfold kindb. intros H. apply bind_Some in H as ([n o|] & Hl & Hk); [|done]. exists n, o. split; [done|]. by injection Hk. Qed.
Lemma held_example h R k l : bool_decide (l ∈ R) = true -> kindb h l = Some k -> held h R k l.
Proof. intros H1 H2. split; [by apply bool_decide_eq_true in H1|by apply kindb_object]. Qed.

(** A root key and its key derivation function go into a new state. *)
Definition heap1 : heap := after (NewHkdf 1) ∅.
Definition heap2 : heap := after (NewRootKey (Some 2%positive) (Some 3%positive) 1) heap1.
Definition heap3 : heap := after (Unref 1) heap2.
Definition heap4 : heap := after (NewState (Some 4%positive)) heap3.
Definition heap5 : heap := after (SetRootKey 4 2) heap4.
Definition heap6 : heap := after (Unref 2) heap5.

Ltac example_room := apply roomb_room; vm_compute; reflexivity.

Lemma client1 : client heap1 [1%positive].
Proof. apply (client_after ∅ [] (NewHkdf 1)); [constructor|example_room|by constructor]. Qed.
Lemma client2 : client heap2 [2; 1]%positive.
Proof.
  apply (client_after heap1 [1%positive] (NewRootKey (Some 2%positive) (Some 3%positive) 1)); [exact client1|example_room|].
  apply (legal_root heap1 _ (Some 2%positive) (Some 3%positive)); [vm_compute; reflexivity..|done|].
  by apply held_example; vm_compute.
Qed.
Lemma client3 : client heap3 [2%positive].
Proof.
  apply (client_after heap2 [2; 1]%positive (Unref 1)); [exact client2|example_room|].
  apply (legal_unref heap2 _ 1 KHkdf); [by rewrite Permutation_swap|]. by apply kindb_object; vm_compute.
Qed.
Lemma client4 : client heap4 [4; 2]%positive.
Proof.
  apply (client_after heap3 [2%positive] (NewState (Some 4%positive))); [exact client3|example_room|].
  by apply (legal_state heap3 _ (Some 4%positive)); vm_compute.
Qed.
Lemma client5 : client heap5 [4; 2]%positive.
Proof.
  apply (client_after heap4 [4; 2]%positive (SetRootKey 4 2)); [exact client4|example_room|].
  apply legal_root_key; [by apply kindb_object; vm_compute|]. by apply held_example; vm_compute.
Qed.
Lemma client6 : client heap6 [4%positive].
Proof.
  apply (client_after heap5 [4; 2]%positive (Unref 2)); [exact client5|example_room|].
  apply (legal_unref heap5 _ 2 KRoot); [by rewrite Permutation_swap|]. by apply kindb_object; vm_compute.
Qed.

Lemma references_are_safe_witness : exists h', run (Unref 4) heap6 = Some h'.
Proof.
  apply (proj1 (references_are_safe heap6 [4%positive] client6 ltac:(example_room))) with (R' := []).
  apply (legal_unref heap6 _ 4 KState); [reflexivity|]. apply kindb_object. vm_compute. reflexivity.
Defined.

Lemma unused_objects_are_destroyed_witness : exists h', signal_type_unref (Some 4%positive) heap6 = Some h' /\
  forall l, is_Some (h' !! l) <-> reach heap6 [] l.
Proof.
  destruct (unused_objects_are_destroyed heap6 [] 4 KState) as (h' & E & H & _).
  - apply client_owned. exact client6.
  - apply kindb_object. vm_compute. reflexivity.
  - exists h'. split; [exact E|exact H].
Defined.

(** The setters release the old reference before they take the new one.
    Giving a state the root key it has, when no one else holds it, therefore
    uses freed memory: the client of the example, which holds the state only,
    must take a reference to the key first. *)
Theorem own_key_is_freed_when_set_again :
  client heap6 [4%positive] /\ reach heap6 [4%positive] 2 /\ session_state_set_root_key 4 (Some 2%positive) heap6 = None /\
  exists h', session_state_set_root_key 4 (Some 2%positive) (after (Ref 2) heap6) = Some h'.
Proof.
  split; [exact client6|]. split; [|split; [vm_compute; reflexivity|eexists; vm_compute; reflexivity]].
  apply (reach_field _ _ 4 (default Block (heap6 !! 4%positive))); [apply reach_held; by left|vm_compute; reflexivity|].
  apply (bool_decide_unpack _). vm_compute. exact I.
Qed.
