(* ===== verification/LinkedLists.v ===== *)
(** Linked lists (utlist.h).  The other files treat the lists of the library
    as lists; here the macros that implement them, on nodes with [prev] and
    [next] pointers, are shown to do so.  In a doubly linked list the [prev]
    of the first node is the last node and the [next] of the last is null. *)
From stdpp Require Import base list gmap.
From Stdlib Require Import Lia.
From S2P Require Import Prelude.

(** The address of a node; [None] is the null pointer. *)
Abbreviation loc := positive.
Abbreviation ptr := (option positive).

Record link : Type := Link { prev : ptr; next : ptr }.

(** The nodes that are allocated. *)
Abbreviation links := (gmap loc link).

(** ** Pointers *)

(** [p->prev] and [p->next]; [None] is the use of a null or dangling pointer. *)
Definition get_prev (p : ptr) (m : links) : option ptr := x ← p; k ← m !! x; Some (prev k).
Definition get_next (p : ptr) (m : links) : option ptr := x ← p; k ← m !! x; Some (next k).
Definition set_prev (p v : ptr) (m : links) : option links := x ← p; k ← m !! x; Some (<[x := Link v (next k)]> m).
Definition set_next (p v : ptr) (m : links) : option links := x ← p; k ← m !! x; Some (<[x := Link (prev k) v]> m).

(** ** Doubly linked lists *)

Definition DL_PREPEND (head : ptr) (add : loc) (m : links) : option (links * ptr) :=
  m ← set_next (Some add) head m;
  m ← match head with
      | Some _ => p ← get_prev head m; m ← set_prev (Some add) p m; set_prev head (Some add) m
      | None => set_prev (Some add) (Some add) m
      end;
  Some (m, Some add).

Definition DL_APPEND (head : ptr) (add : loc) (m : links) : option (links * ptr) :=
  match head with
  | Some _ =>
      p ← get_prev head m;
      m ← set_prev (Some add) p m;
      p ← get_prev head m;
      m ← set_next p (Some add) m;
      m ← set_prev head (Some add) m;
      m ← set_next (Some add) None m;
      Some (m, head)
  | None =>
      m ← set_prev (Some add) (Some add) m;
      m ← set_next (Some add) None m;
      Some (m, Some add)
  end.

Definition DL_DELETE (head : ptr) (del : loc) (m : links) : option (links * ptr) :=
  p ← get_prev (Some del) m;
  match p with
  | None => None
  | Some q =>
      if decide (q = del) then Some (m, None)
      else if decide (Some del = head) then
        n ← get_next (Some del) m;
        m ← set_prev n p m;
        head ← get_next (Some del) m;
        Some (m, head)
      else
        n ← get_next (Some del) m;
        m ← set_next p n m;
        n ← get_next (Some del) m;
        p ← get_prev (Some del) m;
        m ← (if n is Some _ then set_prev n p m else set_prev head p m);
        Some (m, head)
  end.

(** [DL_FOREACH]: the nodes in the order in which they are visited. *)
Fixpoint walk (fuel : nat) (el : ptr) (m : links) : option (list loc) :=
  match el, fuel with
  | None, _ => Some []
  | Some x, S fuel' => n ← get_next el m; l ← walk fuel' n m; Some (x :: l)
  | Some _, O => None
  end.
(** As many steps as there are nodes are enough. *)
Definition DL_FOREACH (head : ptr) (m : links) : option (list loc) := walk (size m) head m.
Definition DL_COUNT (head : ptr) (m : links) : option nat := length <$> DL_FOREACH head m.

(** The loops of the destructors: [DL_FOREACH_SAFE(head, cur, tmp)] with
    [DL_DELETE(head, cur)] and [free(cur)]. *)
Fixpoint DL_FREE (fuel : nat) (head el : ptr) (m : links) : option (list loc * links * ptr) :=
  match el, fuel with
  | None, _ => Some ([], m, head)
  | Some cur, S fuel' =>
      tmp ← get_next el m;
      '(m, head) ← DL_DELETE head cur m;
      '(l, m, head) ← DL_FREE fuel' head tmp (delete cur m);
      Some (cur :: l, m, head)
  | Some _, O => None
  end.

(** ** Singly linked lists *)

Definition LL_PREPEND (head : ptr) (add : loc) (m : links) : option (links * ptr) :=
  m ← set_next (Some add) head m; Some (m, Some add).

(** [while (_tmp->next && _tmp->next != del) _tmp = _tmp->next] *)
Fixpoint ll_find (fuel : nat) (tmp : ptr) (del : loc) (m : links) : option ptr :=
  n ← get_next tmp m;
  if decide (n = None \/ n = Some del) then Some tmp
  else if fuel is S fuel' then ll_find fuel' n del m else None.

Definition LL_DELETE (head : ptr) (del : loc) (m : links) : option (links * ptr) :=
  if decide (head = Some del) then head ← get_next head m; Some (m, head)
  else
    tmp ← ll_find (size m) head del m;
    n ← get_next tmp m;
    match n with
    | Some _ => d ← get_next (Some del) m; m ← set_next tmp d m; Some (m, head)
    | None => Some (m, head)
    end.

(** ** What a list is *)

(** The node at position [i] of the list [l]. *)
Definition link_at (l : list loc) (i : nat) : link := Link (if i is S j then l !! j else last l) (l !! S i).

Record dl (m : links) (head : ptr) (l : list loc) : Prop := Dl {
  dl_nodup : NoDup l;
  dl_head : head = l !! 0;
  dl_link i x : l !! i = Some x -> m !! x = Some (link_at l i)
}.

Lemma dl_empty m : dl m None [].
Proof. split; [constructor|done|]. intros i x. by rewrite lookup_nil. Qed.

(** ** Lemmas on positions *)

Lemma last_at {A} (l : list A) : last l = l !! (length l - 1).
Proof. rewrite last_lookup. f_equal. lia. Qed.

Lemma nodup_at (l : list loc) i j x : NoDup l -> l !! i = Some x -> l !! j = Some x -> i = j.
Proof. intros. by eapply NoDup_lookup. Qed.

Lemma nodup_ne (l : list loc) i j x y : NoDup l -> l !! i = Some x -> l !! j = Some y -> i <> j -> x <> y.
Proof. intros Hnd Hi Hj Hne ->. by apply Hne, (nodup_at l i j y). Qed.

Lemma lookup_out {A} (l : list A) i : length l <= i -> l !! i = None.
Proof. apply lookup_ge_None_2. Qed.

(** Unlinking position [k]. *)
Definition cut (k : nat) (l : list loc) : list loc := take k l ++ drop (S k) l.

Lemma cut_lookup k l i : k < length l -> cut k l !! i = if decide (i < k) then l !! i else l !! S i.
Proof.
  intros Hk. unfold cut. destruct (decide (i < k)).
  - rewrite lookup_app_l by (rewrite length_take; lia). by apply lookup_take_lt.
  - rewrite lookup_app_r by (rewrite length_take; lia). rewrite length_take, lookup_drop. f_equal. lia.
Qed.
Lemma cut_length k l : k < length l -> length (cut k l) = length l - 1.
Proof. intros. unfold cut. rewrite length_app, length_take, length_drop. lia. Qed.

(** ** Evaluating the macros *)

Lemma get_prev_eq m x k : m !! x = Some k -> get_prev (Some x) m = Some (prev k).
Proof. intros H. unfold get_prev. cbn. by rewrite H. Qed.
Lemma get_next_eq m x k : m !! x = Some k -> get_next (Some x) m = Some (next k).
Proof. intros H. unfold get_next. cbn. by rewrite H. Qed.
Lemma set_prev_eq m x k v : m !! x = Some k -> set_prev (Some x) v m = Some (<[x := Link v (next k)]> m).
Proof. intros H. unfold set_prev. cbn. by rewrite H. Qed.
Lemma set_next_eq m x k v : m !! x = Some k -> set_next (Some x) v m = Some (<[x := Link (prev k) v]> m).
Proof. intros H. unfold set_next. cbn. by rewrite H. Qed.

Lemma dl_nonempty m head l i x : dl m head l -> l !! i = Some x -> exists a z, l !! 0 = Some a /\ last l = Some z /\ head = Some a.
Proof.
  intros H Hi. assert (i < length l) by (by eapply lookup_lt_Some). rewrite last_at, (dl_head _ _ _ H).
  destruct (lookup_lt_is_Some_2 l 0) as [a Ha]; [lia|]. destruct (lookup_lt_is_Some_2 l (length l - 1)) as [z Hz]; [lia|].
  exists a, z. by rewrite Ha.
Qed.

(** The lookups of a heap after some updates. *)
Ltac look := rewrite !lookup_insert; repeat case_decide; simplify_eq; try done.

Lemma DL_PREPEND_ok m head l x : dl m head l -> x ∉ l -> is_Some (m !! x) ->
  exists m', DL_PREPEND head x m = Some (m', Some x) /\ dl m' (Some x) (x :: l) /\
    (forall y, y ∉ x :: l -> m' !! y = m !! y) /\ dom m' = dom m.
Proof.
  intros H Hx [kx Hkx]. pose proof (dl_nodup _ _ _ H) as Hnd. unfold DL_PREPEND. rewrite (set_next_eq _ _ _ _ Hkx). cbn [mbind option_bind].
  destruct l as [|a l'].
  { rewrite (dl_head _ _ _ H). cbn [lookup list_lookup]. rewrite (set_prev_eq _ x (Link (prev kx) None)) by apply lookup_insert_eq.
    cbn [mbind option_bind]. rewrite insert_insert_eq. eexists. split; [done|]. split_and!.
    - split; [by apply NoDup_singleton|done|]. intros i y Hi. apply list_lookup_singleton_Some in Hi as [-> <-]. apply lookup_insert_eq.
    - intros y Hy. rewrite lookup_insert_ne; [done|]. set_solver.
    - apply dom_insert_lookup_L. by eauto. }
  destruct (dl_nonempty m head (a :: l') 0 a H eq_refl) as (a' & z & [= <-] & Hz & ->).
  pose proof (dl_link _ _ _ H 0 a eq_refl) as Ha. assert (x <> a) as Hxa by set_solver.
  set (m1 := <[x := Link (prev kx) (Some a)]> m). assert (m1 !! a = Some (link_at (a :: l') 0)) as Ha1 by (unfold m1; by rewrite lookup_insert_ne).
  rewrite (get_prev_eq _ _ _ Ha1). cbn [mbind option_bind]. rewrite (set_prev_eq m1 x (Link (prev kx) (Some a))) by apply lookup_insert_eq.
  cbn [mbind option_bind next]. set (m2 := <[x := _]> m1). assert (m2 !! a = Some (link_at (a :: l') 0)) as Ha2 by (unfold m2; by rewrite lookup_insert_ne).
  rewrite (set_prev_eq _ _ _ _ Ha2). cbn [mbind option_bind]. eexists. split; [done|]. split_and!.
  - split; [by constructor|done|]. intros [|i] y Hi; cbn in Hi.
    + simplify_eq. unfold m2, m1. look.
    + assert (y <> x) by (intros ->; apply Hx; by eapply list_elem_of_lookup_2).
      pose proof (dl_link _ _ _ H i y Hi) as Hy. unfold m2, m1. rewrite !lookup_insert. repeat case_decide; simplify_eq.
      * assert (i = 0) as -> by (by eapply (nodup_at (y :: l')); [|exact Hi|]). done.
      * rewrite Hy. f_equal. unfold link_at. f_equal. destruct i; [cbn in Hi; congruence|done].
  - intros y Hy. unfold m2, m1. rewrite !lookup_insert_ne; [done|set_solver..].
  - unfold m2, m1. rewrite !dom_insert_lookup_L; [done|by eauto|..]; rewrite ?lookup_insert; repeat case_decide; by eauto.
Qed.

Lemma DL_APPEND_ok m head l x : dl m head l -> x ∉ l -> is_Some (m !! x) ->
  exists m' head', DL_APPEND head x m = Some (m', head') /\ dl m' head' (l ++ [x]) /\
    (forall y, y ∉ x :: l -> m' !! y = m !! y) /\ dom m' = dom m.
Proof.
  intros H Hx [kx Hkx]. pose proof (dl_nodup _ _ _ H) as Hnd. unfold DL_APPEND. destruct l as [|a l'].
  { rewrite (dl_head _ _ _ H). cbn [lookup list_lookup]. rewrite (set_prev_eq _ _ _ _ Hkx). cbn [mbind option_bind].
    rewrite (set_next_eq _ x (Link (Some x) (next kx))) by apply lookup_insert_eq. cbn [mbind option_bind prev]. rewrite insert_insert_eq.
    do 2 eexists. split; [done|]. split_and!.
    - split; [by apply NoDup_singleton|done|]. intros i y Hi. apply list_lookup_singleton_Some in Hi as [-> <-]. apply lookup_insert_eq.
    - intros y Hy. rewrite lookup_insert_ne; [done|]. set_solver.
    - apply dom_insert_lookup_L. by eauto. }
  destruct (dl_nonempty m head (a :: l') 0 a H eq_refl) as (a' & z & [= <-] & Hz & ->). set (l := a :: l') in *.
  pose proof (dl_link _ _ _ H 0 a eq_refl) as Ha. rewrite last_at in Hz. pose proof (dl_link _ _ _ H _ z Hz) as Hkz.
  assert (x <> a /\ x <> z) as [Hxa Hxz] by (split; intros <-; apply Hx; [by left|by eapply list_elem_of_lookup_2]).
  assert (prev (link_at l 0) = Some z) as Hpz by (cbn; by rewrite <- last_at in Hz).
  rewrite (get_prev_eq _ _ _ Ha). cbn [mbind option_bind]. rewrite (set_prev_eq _ _ _ _ Hkx). cbn [mbind option_bind]. rewrite Hpz.
  set (m1 := <[x := _]> m). rewrite (get_prev_eq m1 a (link_at l 0)) by (unfold m1; by rewrite lookup_insert_ne). cbn [mbind option_bind]. rewrite Hpz.
  rewrite (set_next_eq m1 z (link_at l (length l - 1))) by (unfold m1; by rewrite lookup_insert_ne). cbn [mbind option_bind].
  set (m2 := <[z := _]> m1).
  assert (m2 !! a = Some (Link (Some z) (if decide (z = a) then Some x else l !! 1))) as Ha2.
  { unfold m2, m1. rewrite !lookup_insert. case_decide as Hza.
    - subst z. assert (length l - 1 = 0) as -> by (by eapply (nodup_at l)). by rewrite Hpz.
    - rewrite decide_False, Ha by done. unfold link_at in *. cbn [prev] in Hpz. by rewrite Hpz. }
  rewrite (set_prev_eq _ _ _ _ Ha2). cbn [mbind option_bind next]. set (m3 := <[a := _]> m2).
  assert (m3 !! x = Some (Link (Some z) (next kx))) as Hx3 by (unfold m3, m2, m1; rewrite !lookup_insert_ne by done; apply lookup_insert_eq).
  rewrite (set_next_eq _ _ _ _ Hx3). cbn [mbind option_bind prev]. do 2 eexists. split; [done|]. split_and!.
  - split; [by apply NoDup_app; split_and!; [|set_solver|apply NoDup_singleton]|done|]. intros i y Hi.
    assert (length l > 0) as Hlen by (cbn; lia). apply lookup_app_Some in Hi as [Hi|[Hge Hi]].
    + assert (y <> x) by (intros ->; apply Hx; by eapply list_elem_of_lookup_2). pose proof (lookup_lt_Some _ _ _ Hi) as Hlt.
      pose proof (dl_link _ _ _ H i y Hi) as Hy. rewrite lookup_insert_ne by done. unfold m3. rewrite lookup_insert.
      assert (forall j, j < length l -> (l ++ [x]) !! j = l !! j) as Hl by (intros; by apply lookup_app_l).
      assert ((l ++ [x]) !! length l = Some x) as Hlast by (by rewrite list_lookup_middle).
      destruct (decide (a = y)) as [Hya|Hya].
      * subst y. assert (i = 0) as -> by (by eapply (nodup_at l)). f_equal. unfold link_at. rewrite last_snoc. f_equal. destruct (decide (z = a)) as [Hza|Hza].
        -- subst z. assert (length l - 1 = 0) as E by (by eapply (nodup_at l)). replace (length l) with 1 in Hlast by lia. done.
        -- rewrite Hl; [done|]. assert (length l <> 1); [|lia]. intros E. rewrite E in Hz. cbn in Hz. congruence.
      * assert (i <> 0) as Hi0 by (intros ->; unfold l in Hi; cbn in Hi; congruence). destruct i as [|i]; [done|].
        unfold m2, m1. rewrite lookup_insert. destruct (decide (z = y)) as [Hyz|Hyz].
        -- subst z. assert (S i = length l - 1) as E by (by eapply (nodup_at l)). rewrite <- E. f_equal. unfold link_at. cbn [prev].
           rewrite Hl by lia. f_equal. by replace (S (S i)) with (length l) by lia.
        -- rewrite lookup_insert_ne, Hy by done. f_equal. unfold link_at. rewrite Hl by lia. f_equal. symmetry. apply Hl.
           assert (S i <> length l - 1); [|lia]. intros E. rewrite <- E in Hz. congruence.
    + apply list_lookup_singleton_Some in Hi as [E <-]. replace i with (length l) by lia. rewrite lookup_insert_eq. f_equal.
      unfold link_at. destruct (length l) as [|n] eqn:En; [lia|]. f_equal.
      * rewrite lookup_app_l by lia. by replace n with (S n - 1) by lia.
      * symmetry. apply lookup_out. rewrite length_app, En. cbn. lia.
  - intros y Hy. unfold m3, m2, m1. assert (z ∈ l) by (by eapply list_elem_of_lookup_2). rewrite !lookup_insert_ne; [done|set_solver..].
  - assert (forall n y k, is_Some (n !! y) -> dom (<[y := k]> n : links) = dom n) as Hd by (intros; by apply dom_insert_lookup_L).
    rewrite Hd by eauto. unfold m3. rewrite Hd by eauto. unfold m2. rewrite Hd; [by apply Hd; eauto|].
    unfold m1. rewrite lookup_insert_ne by done. by eauto.
Qed.

Lemma cut_nodup k l : NoDup l -> NoDup (cut k l).
Proof.
  intros H. unfold cut. rewrite <- (take_drop k l) in H. apply NoDup_app in H as (H1 & H2 & H3).
  assert (drop (S k) l = drop 1 (drop k l)) as -> by (rewrite drop_drop; f_equal; lia). apply NoDup_app.
  destruct (drop k l) as [|a d]; cbn [drop]; [done|]. apply NoDup_cons in H3 as [_ H3]. split_and!; [done| |done].
  intros x Hx Hd. apply (H2 x Hx). by right.
Qed.
Lemma cut_last k l : k + 1 < length l -> last (cut k l) = last l.
Proof. intros. rewrite !last_at, cut_length, cut_lookup by lia. case_decide; [lia|]. f_equal. lia. Qed.
Lemma cut_last_end j l : S (S j) = length l -> last (cut (S j) l) = l !! j.
Proof. intros. rewrite last_at, cut_length, cut_lookup by lia. case_decide; [|lia]. f_equal. lia. Qed.
Lemma cut_elem k l i x : NoDup l -> l !! k = Some x -> cut k l !! i = Some x -> False.
Proof.
  intros Hnd Hk Hi. assert (k < length l) by (by eapply lookup_lt_Some). rewrite cut_lookup in Hi by done.
  case_decide; [assert (i = k) by (by eapply nodup_at)|assert (S i = k) by (by eapply nodup_at)]; lia.
Qed.

(** Evaluates the positions of a list without its element [k]. *)
Ltac at_cut := rewrite !cut_lookup by lia; repeat (case_decide; try lia).

Lemma dl_cut_first m l b : dl m (l !! 0) l -> l !! 1 = Some b ->
  dl (<[b := Link (last l) (l !! 2)]> m) (Some b) (cut 0 l).
Proof.
  intros H Hb. pose proof (dl_nodup _ _ _ H) as Hnd. assert (1 < length l) by (by eapply lookup_lt_Some).
  split; [by apply cut_nodup|by at_cut|]. intros i y Hi. rewrite cut_lookup in Hi by lia. case_decide; [lia|].
  pose proof (dl_link _ _ _ H _ _ Hi) as Hy. rewrite lookup_insert. destruct (decide (b = y)) as [<-|Hne].
  - assert (S i = 1) as E by (by eapply nodup_at). assert (i = 0) as -> by lia. unfold link_at. rewrite cut_last by lia. by at_cut.
  - assert (i <> 0) by (intros ->; congruence). destruct i as [|i]; [done|]. rewrite Hy. unfold link_at. by at_cut.
Qed.

Lemma dl_cut_middle m l j y b : dl m (l !! 0) l -> l !! j = Some y -> l !! S (S j) = Some b ->
  dl (<[b := Link (Some y) (l !! S (S (S j)))]> (<[y := Link (prev (link_at l j)) (Some b)]> m)) (l !! 0) (cut (S j) l).
Proof.
  intros H Hj Hb. pose proof (dl_nodup _ _ _ H) as Hnd. assert (S (S j) < length l) by (by eapply lookup_lt_Some).
  split; [by apply cut_nodup|by at_cut|]. intros i w Hi.
  assert (l !! (if decide (i < S j) then i else S i) = Some w) as Ho by (rewrite cut_lookup in Hi by lia; by case_decide).
  pose proof (dl_link _ _ _ H _ _ Ho) as Hw. rewrite !lookup_insert. destruct (decide (b = w)) as [<-|Hbw].
  { assert ((if decide (i < S j) then i else S i) = S (S j)) as E by (by eapply nodup_at). case_decide; [lia|].
    assert (i = S j) as -> by lia. unfold link_at. at_cut. by rewrite Hj. }
  destruct (decide (y = w)) as [<-|Hyw].
  { assert ((if decide (i < S j) then i else S i) = j) as E by (by eapply nodup_at). case_decide; [|lia]. subst i. unfold link_at.
    rewrite cut_last by lia. cbn [prev]. rewrite <- Hb. f_equal. destruct j; f_equal; by at_cut. }
  rewrite Hw. f_equal. unfold link_at. rewrite cut_last by lia.
  destruct (decide (i < S j)).
  - assert (i <> j) by congruence. destruct i; f_equal; by at_cut.
  - assert (i <> S j) by (intros ->; congruence). destruct i; [lia|]. f_equal; by at_cut.
Qed.

Lemma dl_cut_last m l j y a : dl m (l !! 0) l -> l !! j = Some y -> l !! 0 = Some a -> S (S j) = length l ->
  dl (<[a := Link (Some y) (if decide (y = a) then None else l !! 1)]> (<[y := Link (prev (link_at l j)) None]> m)) (l !! 0) (cut (S j) l).
Proof.
  intros H Hj Ha Hlen. pose proof (dl_nodup _ _ _ H) as Hnd. split; [by apply cut_nodup|by at_cut|]. intros i w Hi.
  assert (i < S j) by (apply lookup_lt_Some in Hi; rewrite cut_length in Hi by lia; lia).
  assert (l !! i = Some w) as Ho by (rewrite cut_lookup in Hi by lia; by case_decide).
  assert (l !! S (S j) = None) as Hout by (apply lookup_out; lia).
  pose proof (dl_link _ _ _ H _ _ Ho) as Hw. rewrite !lookup_insert. destruct (decide (a = w)) as [<-|Haw].
  { assert (i = 0) as -> by (by eapply nodup_at). unfold link_at. rewrite cut_last_end, Hj by done. f_equal. f_equal.
    destruct (decide (y = a)) as [->|Hya].
    - assert (j = 0) as -> by (by eapply nodup_at). by at_cut.
    - assert (j <> 0) by (intros ->; congruence). by at_cut. }
  assert (i <> 0) by (intros ->; congruence). destruct i as [|i]; [done|]. destruct (decide (y = w)) as [<-|Hyw].
  { assert (S i = j) as <- by (by eapply nodup_at). unfold link_at. cbn [prev]. f_equal. f_equal; by at_cut. }
  rewrite Hw. assert (S i <> j) by congruence. unfold link_at. f_equal. f_equal; by at_cut.
Qed.

(** What an operation on the list [l] leaves alone. *)
Definition frame (l : list loc) (m m' : links) : Prop := (forall y, y ∉ l -> m' !! y = m !! y) /\ dom m' = dom m.

Lemma frame_refl l m : frame l m m.
Proof. done. Qed.
Lemma frame_insert l m m' y k : frame l m m' -> y ∈ l -> is_Some (m' !! y) -> frame l m (<[y := k]> m').
Proof.
  intros [H1 H2] Hy Hm. split; [|by rewrite dom_insert_lookup_L]. intros w Hw. rewrite lookup_insert_ne; [by apply H1|]. by intros ->.
Qed.

Lemma DL_DELETE_ok m head l k x : dl m head l -> l !! k = Some x ->
  exists m' head', DL_DELETE head x m = Some (m', head') /\ dl m' head' (cut k l) /\ frame l m m'.
Proof.
  intros H Hk. pose proof (dl_nodup _ _ _ H) as Hnd. assert (k < length l) as Hlt by (by eapply lookup_lt_Some).
  destruct (dl_nonempty m head l k x H Hk) as (a & z & Ha & Hz & Hhead). pose proof (dl_link _ _ _ H k x Hk) as Hx.
  pose proof (dl_head _ _ _ H) as Hh. rewrite Hh in H. rewrite last_at in Hz.
  assert (forall i w, l !! i = Some w -> w ∈ l /\ is_Some (m !! w)) as Hin.
  { intros i w Hi. split; [by eapply list_elem_of_lookup_2|]. rewrite (dl_link _ _ _ H i w Hi). by eauto. }
  unfold DL_DELETE. rewrite (get_prev_eq _ _ _ Hx). cbn [mbind option_bind]. destruct k as [|j].
  - unfold link_at at 1. cbn [prev]. rewrite last_at, Hz. assert (x = a) as -> by congruence. rewrite Hh, Ha.
    destruct (decide (z = a)) as [->|Hza].
    { assert (length l - 1 = 0) by (by eapply (nodup_at l)). do 2 eexists. split; [done|]. split; [|apply frame_refl].
      destruct l as [|? [|]]; cbn in *; try lia. apply dl_empty. }
    rewrite decide_True, (get_next_eq _ _ _ Hx) by done. cbn [mbind option_bind].
    assert (1 < length l) as H1 by (destruct (decide (length l = 1)) as [E|]; [rewrite E in Hz; cbn in Hz; congruence|lia]).
    destruct (lookup_lt_is_Some_2 l 1 H1) as [b Hb]. unfold link_at at 1. cbn [next]. rewrite Hb.
    assert (b <> a) by (by apply (nodup_ne l 1 0)).
    rewrite (set_prev_eq _ _ _ _ (dl_link _ _ _ H 1 b Hb)). cbn [mbind option_bind].
    rewrite (get_next_eq _ a (link_at l 0)) by (by rewrite lookup_insert_ne). cbn [mbind option_bind]. unfold link_at. cbn [next]. rewrite Hb.
    do 2 eexists. split; [done|]. split; [|by apply frame_insert; [apply frame_refl|eapply Hin..]].
    by apply dl_cut_first.
  - destruct (lookup_lt_is_Some_2 l j) as [y Hy]; [lia|]. change (prev (link_at l (S j))) with (l !! j). rewrite Hy.
    assert (y <> x) as Hyx by (apply (nodup_ne l j (S j)); [done..|lia]).
    rewrite decide_False by done. rewrite decide_False by (rewrite Hhead; intros [= E]; by apply (nodup_ne l (S j) 0 x a)).
    rewrite (get_next_eq _ _ _ Hx). cbn [mbind option_bind]. rewrite (set_next_eq _ _ _ _ (dl_link _ _ _ H j y Hy)). cbn [mbind option_bind].
    set (m1 := <[y := _]> m). assert (m1 !! x = Some (link_at l (S j))) as Hx1 by (unfold m1; by rewrite lookup_insert_ne).
    rewrite (get_next_eq _ _ _ Hx1), (get_prev_eq _ _ _ Hx1). cbn [mbind option_bind]. unfold link_at in m1 |- *. cbn [prev next] in *. rewrite Hy.
    assert (frame l m m1) as F1 by (apply frame_insert; [apply frame_refl|eapply Hin; exact Hy..]).
    destruct (l !! S (S j)) as [b|] eqn:Hb.
    + assert (b <> y) by (apply (nodup_ne l (S (S j)) j); [done..|lia]).
      assert (m1 !! b = Some (link_at l (S (S j)))) as Hb1 by (unfold m1; rewrite lookup_insert_ne by done; by apply (dl_link _ _ _ H)).
      rewrite (set_prev_eq _ _ _ _ Hb1). cbn [mbind option_bind]. do 2 eexists. split; [done|].
      split; [|by apply frame_insert; [|eapply Hin|eauto]]. rewrite Hh. by apply dl_cut_middle.
    + assert (S (S j) = length l) by (apply lookup_ge_None_1 in Hb; lia). rewrite Hhead.
      assert (m1 !! a = Some (Link (if decide (y = a) then (if j is S i then l !! i else last l) else last l)
        (if decide (y = a) then None else l !! 1))) as Ha1.
      { unfold m1. rewrite lookup_insert. destruct (decide (y = a)); [done|]. apply (dl_link _ _ _ H 0 a Ha). }
      rewrite (set_prev_eq _ _ _ _ Ha1). cbn [mbind option_bind next]. do 2 eexists. split; [done|].
      split; [|by apply frame_insert; [|eapply Hin|eauto]]. rewrite <- Ha. by apply dl_cut_last.
Qed.

(** ** Traversal *)

(** The forward links, which both kinds of lists have. *)
Record sl (m : links) (head : ptr) (l : list loc) : Prop := Sl {
  sl_nodup : NoDup l;
  sl_head : head = l !! 0;
  sl_link i x : l !! i = Some x -> exists k, m !! x = Some k /\ next k = l !! S i
}.

Lemma dl_sl m head l : dl m head l -> sl m head l.
Proof. intros [H1 H2 H3]. split; [done..|]. intros i x Hi. eexists. split; [by apply H3|done]. Qed.

Lemma sl_next m head l i x : sl m head l -> l !! i = Some x -> get_next (Some x) m = Some (l !! S i).
Proof. intros H Hi. destruct (sl_link _ _ _ H i x Hi) as (k & Hk & Hn). by rewrite (get_next_eq _ _ _ Hk), Hn. Qed.

Lemma sl_size m head l : sl m head l -> length l <= size m.
Proof.
  intros H. rewrite <- size_dom. rewrite <- (size_list_to_set (C := gset loc) l (sl_nodup _ _ _ H)). apply subseteq_size. intros x Hx.
  apply elem_of_list_to_set, list_elem_of_lookup in Hx as [i Hi]. destruct (sl_link _ _ _ H i x Hi) as (k & Hk & _).
  apply elem_of_dom. by eauto.
Qed.

Lemma walk_ok m head l fuel : forall i, sl m head l -> length l - i <= fuel -> walk fuel (l !! i) m = Some (drop i l).
Proof.
  induction fuel as [|fuel IH]; intros i H Hf; destruct (l !! i) as [x|] eqn:Hi; cbn [walk].
  - apply lookup_lt_Some in Hi. lia.
  - apply lookup_ge_None_1 in Hi. by rewrite drop_ge.
  - rewrite (sl_next _ _ _ _ _ H Hi). cbn [mbind option_bind]. rewrite IH by (done || lia). cbn. by rewrite (drop_S l x i Hi).
  - apply lookup_ge_None_1 in Hi. by rewrite drop_ge.
Qed.

Lemma DL_FOREACH_ok m head l : sl m head l -> DL_FOREACH head m = Some l.
Proof.
  intros H. unfold DL_FOREACH. rewrite (sl_head _ _ _ H), (walk_ok m head l) by (done || pose proof (sl_size _ _ _ H); lia). done.
Qed.

(** ** Freeing a list *)

Lemma dl_delete_other m head l x : dl m head l -> x ∉ l -> dl (delete x m) head l.
Proof.
  intros [H1 H2 H3] Hx. split; [done..|]. intros i y Hi. rewrite lookup_delete_ne; [by apply H3|]. intros ->. apply Hx.
  by eapply list_elem_of_lookup_2.
Qed.

Lemma DL_FREE_ok l : forall fuel m head, dl m head l -> length l <= fuel ->
  exists m', DL_FREE fuel head head m = Some (l, m', None) /\ (forall y, m' !! y = if decide (y ∈ l) then None else m !! y).
Proof.
  induction l as [|x l IH]; intros fuel m head H Hf; pose proof (dl_head _ _ _ H) as Hh; cbn in Hh; subst head.
  { exists m. split; [by destruct fuel|]. intros y. rewrite decide_False; [done|]. apply not_elem_of_nil. }
  destruct fuel as [|fuel]; cbn in Hf; [lia|]. cbn [DL_FREE]. rewrite (sl_next m (Some x) (x :: l) 0 x (dl_sl _ _ _ H) eq_refl). cbn [mbind option_bind].
  destruct (DL_DELETE_ok m (Some x) (x :: l) 0 x H eq_refl) as (m1 & h1 & E1 & H1 & F1 & _). rewrite E1. cbn [mbind option_bind].
  change (cut 0 (x :: l)) with l in H1. pose proof (dl_nodup _ _ _ H) as Hnd. apply NoDup_cons in Hnd as [Hx _].
  apply (dl_delete_other _ _ _ x) in H1; [|done]. change ((x :: l) !! 1) with (l !! 0). rewrite <- (dl_head _ _ _ H1).
  destruct (IH fuel (delete x m1) h1 H1) as (m2 & E2 & H2); [lia|]. rewrite E2. exists m2. split; [done|]. intros y. rewrite H2.
  destruct (decide (y ∈ l)) as [Hy|Hy].
  - rewrite decide_True; [done|]. by right.
  - destruct (decide (y = x)) as [->|Hyx].
    + rewrite decide_True by left. apply lookup_delete_eq.
    + rewrite decide_False by (rewrite elem_of_cons; naive_solver). rewrite lookup_delete_ne by done. apply F1. rewrite elem_of_cons. naive_solver.
Qed.

(** ** Singly linked lists *)

Lemma LL_PREPEND_ok m head l x : sl m head l -> x ∉ l -> is_Some (m !! x) ->
  exists m', LL_PREPEND head x m = Some (m', Some x) /\ sl m' (Some x) (x :: l).
Proof.
  intros H Hx [k Hk]. unfold LL_PREPEND. rewrite (set_next_eq _ _ _ _ Hk). cbn. eexists. split; [done|].
  split; [by apply NoDup_cons; split; [|apply H]|done|]. intros [|i] y Hi; cbn in Hi.
  - simplify_eq. rewrite lookup_insert_eq. eexists. split; [done|]. cbn. apply (sl_head _ _ _ H).
  - rewrite lookup_insert_ne; [by apply (sl_link _ _ _ H)|]. intros ->. apply Hx. by eapply list_elem_of_lookup_2.
Qed.

Lemma ll_find_ok m head l k x y fuel : forall i, sl m head l -> l !! S k = Some x -> l !! k = Some y -> i <= k -> k - i <= fuel ->
  ll_find fuel (l !! i) x m = Some (Some y).
Proof.
  induction fuel as [|fuel IH]; intros i H Hx Hy Hik Hf; destruct (lookup_lt_is_Some_2 l i) as [w Hw];
    try (apply lookup_lt_Some in Hx; lia); cbn [ll_find]; rewrite Hw, (sl_next _ _ _ _ _ H Hw); cbn [mbind option_bind].
  - assert (i = k) as -> by lia. rewrite Hx, decide_True by (by right). congruence.
  - destruct (decide (i = k)) as [->|Hne]; [rewrite Hx, decide_True by (by right); congruence|].
    rewrite decide_False; [apply IH; try done; lia|]. intros [E|E].
    + apply lookup_ge_None_1 in E. apply lookup_lt_Some in Hx. lia.
    + by apply (nodup_ne l (S i) (S k) x x (sl_nodup _ _ _ H) E Hx); [lia|].
Qed.

Lemma LL_DELETE_ok m head l k x : sl m head l -> l !! k = Some x ->
  exists m' head', LL_DELETE head x m = Some (m', head') /\ sl m' head' (cut k l).
Proof.
  intros H Hk. pose proof (sl_nodup _ _ _ H) as Hnd. assert (k < length l) as Hlt by (by eapply lookup_lt_Some).
  unfold LL_DELETE. pose proof (sl_head _ _ _ H) as Hh. destruct k as [|j].
  - rewrite Hh, Hk, decide_True, (sl_next _ _ _ _ _ H Hk) by done. cbn. do 2 eexists. split; [done|].
    split; [by apply cut_nodup|by at_cut|]. intros i y Hi. rewrite cut_lookup in Hi by lia. case_decide; [lia|].
    destruct (sl_link _ _ _ H _ _ Hi) as (q & Hq & Hn). exists q. split; [done|]. by at_cut.
  - destruct (lookup_lt_is_Some_2 l j) as [y Hy]; [lia|]. destruct (lookup_lt_is_Some_2 l 0) as [a Ha]; [lia|].
    rewrite Hh, Ha, decide_False by (intros [= ->]; by apply (nodup_ne l 0 (S j) x x)).
    pose proof (sl_size _ _ _ H). rewrite <- Ha, (ll_find_ok m head l j x y (size m) 0) by (done || lia). cbn [mbind option_bind].
    rewrite (sl_next _ _ _ _ _ H Hy), Hk. cbn [mbind option_bind]. rewrite (sl_next _ _ _ _ _ H Hk). cbn [mbind option_bind].
    destruct (sl_link _ _ _ H _ _ Hy) as (q & Hq & Hn). rewrite (set_next_eq _ _ _ _ Hq). cbn. do 2 eexists. split; [done|].
    split; [by apply cut_nodup|by at_cut|]. intros i w Hi.
    assert (l !! (if decide (i < S j) then i else S i) = Some w) as Ho by (rewrite cut_lookup in Hi by lia; by case_decide).
    destruct (sl_link _ _ _ H _ _ Ho) as (r & Hr & Hnr). rewrite lookup_insert. destruct (decide (y = w)) as [<-|Hyw].
    + assert ((if decide (i < S j) then i else S i) = j) as E by (by eapply nodup_at). eexists. split; [done|]. cbn.
      destruct (decide (i < S j)); [|lia]. subst i. by at_cut.
    + exists r. split; [done|]. rewrite Hnr. destruct (decide (i < S j)); [|by at_cut]. assert (i <> j) by congruence. by at_cut.
Qed.

(** ** The macros implement lists *)


Definition two_nodes : links := {[ 1%positive := Link (Some 2%positive) (Some 2%positive); 2%positive := Link (Some 1%positive) None ]}.

Lemma two_nodes_dl : dl two_nodes (Some 1%positive) [1; 2]%positive.
Proof.
  split; [by apply (bool_decide_unpack _); vm_compute|done|]. intros [|[|i]] x Hi; cbn in Hi; simplify_eq; by vm_compute.
Qed.

