(* ===== verification/ProtobufScalars.v ===== *)
(** protobuf-c/protobuf-c.c: the scalar types no generated descriptor of the
    library uses (64-bit and zigzag integers, 32-bit fixed values, strings)
    and packed repeated fields: what the functions write they read back, and
    a reader never stores more elements than were counted before. *)
From stdpp Require Import base list.
From Stdlib Require Import ZArith Lia.
From S2P Require Import Prelude Protobuf MachineInt.
#[local] Open Scope Z_scope.

(** ** Encodings *)

(** A value as an [int32_t] and as an [int64_t]. *)
Definition s32 (z : Z) : Z := if u32 z <? 2147483648 then u32 z else u32 z - UINT32_MOD.
Definition s64 (z : Z) : Z := if u64 z <? 9223372036854775808 then u64 z else u64 z - 18446744073709551616.

(** The products and the negation wrap around. *)
Definition zigzag32 (v : Z) : Z := if v <? 0 then u32 (u32 (- v) * 2 - 1) else u32 (v * 2).
Definition zigzag64 (v : Z) : Z := if v <? 0 then u64 (u64 (- v) * 2 - 1) else u64 (v * 2).

Definition unzigzag32 (v : Z) : Z := if Z.land v 1 =? 0 then Z.shiftr v 1 else s32 (u32 (- Z.shiftr v 1) - 1).
Definition unzigzag64 (v : Z) : Z := if Z.land v 1 =? 0 then Z.shiftr v 1 else s64 (u64 (- Z.shiftr v 1) - 1).

Definition sint32_size (v : Z) : Z := uint32_size (zigzag32 v).

Definition uint64_size (v : Z) : Z :=
  let upper_v := u32 (Z.shiftr v 32) in
  if upper_v =? 0 then uint32_size (u32 v)
  else if upper_v <? 8 then 5
  else if upper_v <? 1024 then 6
  else if upper_v <? 131072 then 7
  else if upper_v <? 16777216 then 8
  else if upper_v <? 2147483648 then 9
  else 10.

Definition sint64_size (v : Z) : Z := uint64_size (zigzag64 v).

Definition sint32_pack (value : Z) : bytes := uint32_pack (zigzag32 value).

Definition uint64_pack (value : Z) : bytes :=
  let hi := u32 (Z.shiftr value 32) in
  let lo := u32 value in
  if hi =? 0 then uint32_pack lo
  else
    let out := map (fun s => u8 (Z.lor (Z.shiftr lo s) 128)) [0; 7; 14; 21] in
    if hi <? 8 then out ++ [u8 (Z.lor (Z.shiftl hi 4) (Z.shiftr lo 28))]
    else out ++ [u8 (Z.lor (Z.lor (Z.shiftl (Z.land hi 7) 4) (Z.shiftr lo 28)) 128)] ++ varint_pack 4 (Z.shiftr hi 3).

Definition sint64_pack (value : Z) : bytes := uint64_pack (zigzag64 value).

(** The tag of any 32-bit number, with the wire type or-ed into its first octet. *)
Definition field_tag (id wire : Z) : bytes :=
  match if id <? 536870912 then uint32_pack (u32 (Z.shiftl id 3)) else uint64_pack (Z.shiftl id 3) with
  | o :: r => Z.lor o wire :: r
  | [] => []
  end.

Definition fixed32_pack (value : Z) : bytes := map (fun i => u8 (Z.shiftr value (8 * i))) [0; 1; 2; 3].

(** [None] is the null pointer. *)
Definition string_pack (str : option bytes) : bytes :=
  match str with
  | None => [0]
  | Some s => uint32_pack (u32 (blen s)) ++ s
  end.

(** ** Decodings *)

Definition parse_fixed_uint32 (data : bytes) : Z := fold_right (fun d acc => d + 256 * acc) 0 (take 4 data).

Fixpoint parse_uint64_loop (rv shift : Z) (data : bytes) : Z :=
  match data with
  | [] => rv
  | d :: data' => parse_uint64_loop (Z.lor rv (u64 (Z.shiftl (Z.land d 127) shift))) (shift + 7) data'
  end.

Definition parse_uint64 (data : bytes) : Z :=
  match data with
  | d0 :: d1 :: d2 :: d3 :: _ :: _ =>
      parse_uint64_loop
        (Z.lor (Z.lor (Z.lor (Z.land d0 127) (Z.shiftl (Z.land d1 127) 7)) (Z.shiftl (Z.land d2 127) 14))
          (Z.shiftl (Z.land d3 127) 21)) 28 (drop 4 data)
  | _ => parse_uint32 data
  end.

(** ** Zigzag *)

Lemma land_1 v : Z.land v 1 = v mod 2.
Proof. change 1 with (Z.ones 1). by rewrite Z.land_ones. Qed.

Lemma zigzag32_eq v : -2147483648 <= v < 2147483648 -> zigzag32 v = if v <? 0 then -2 * v - 1 else 2 * v.
Proof.
  intros Hv. unfold zigzag32, u32, UINT32_MOD. destruct (Z.ltb_spec v 0).
  - rewrite (Z.mod_small (- v)) by lia. rewrite Z.mod_small; lia.
  - rewrite Z.mod_small; lia.
Qed.
Lemma zigzag64_eq v : -9223372036854775808 <= v < 9223372036854775808 -> zigzag64 v = if v <? 0 then -2 * v - 1 else 2 * v.
Proof.
  intros Hv. unfold zigzag64, u64. destruct (Z.ltb_spec v 0).
  - rewrite (Z.mod_small (- v)) by lia. rewrite Z.mod_small; lia.
  - rewrite Z.mod_small; lia.
Qed.

Lemma unzigzag_zigzag32 v : -2147483648 <= v < 2147483648 -> unzigzag32 (zigzag32 v) = v.
Proof.
  intros Hv. rewrite zigzag32_eq by done. unfold unzigzag32. rewrite land_1, !Z.shiftr_div_pow2 by lia. change (2 ^ 1) with 2.
  destruct (Z.ltb_spec v 0).
  - replace ((-2 * v - 1) mod 2) with 1 by div_lia. replace ((-2 * v - 1) / 2) with (- v - 1) by div_lia. cbn [Z.eqb].
    unfold s32, u32, UINT32_MOD. replace ((- (- v - 1)) mod 4294967296) with (if v =? -1 then 0 else v + 1 + 4294967296).
    + destruct (Z.eqb_spec v (-1)) as [->|]; [done|]. rewrite Z.mod_small by lia. rewrite (proj2 (Z.ltb_ge _ _)) by lia. lia.
    + destruct (Z.eqb_spec v (-1)) as [->|]; [done|]. apply Z.mod_unique with (q := -1); lia.
  - replace ((2 * v) mod 2) with 0 by div_lia. cbn [Z.eqb]. div_lia.
Qed.
Lemma unzigzag_zigzag64 v : -9223372036854775808 <= v < 9223372036854775808 -> unzigzag64 (zigzag64 v) = v.
Proof.
  intros Hv. rewrite zigzag64_eq by done. unfold unzigzag64. rewrite land_1, !Z.shiftr_div_pow2 by lia. change (2 ^ 1) with 2.
  destruct (Z.ltb_spec v 0).
  - replace ((-2 * v - 1) mod 2) with 1 by div_lia. replace ((-2 * v - 1) / 2) with (- v - 1) by div_lia. cbn [Z.eqb].
    unfold s64, u64. replace ((- (- v - 1)) mod 18446744073709551616) with (if v =? -1 then 0 else v + 1 + 18446744073709551616).
    + destruct (Z.eqb_spec v (-1)) as [->|]; [done|]. rewrite Z.mod_small by lia. rewrite (proj2 (Z.ltb_ge _ _)) by lia. lia.
    + destruct (Z.eqb_spec v (-1)) as [->|]; [done|]. apply Z.mod_unique with (q := -1); lia.
  - replace ((2 * v) mod 2) with 0 by div_lia. cbn [Z.eqb]. div_lia.
Qed.

(** ** Base 128 *)

(** The number a varint stands for. *)
Definition b128 (data : bytes) : Z := fold_right (fun d acc => d mod 128 + 128 * acc) 0 data.

Lemma pow128 n : 128 ^ (Z.of_nat (S n) + 1) = 128 * 128 ^ (Z.of_nat n + 1).
Proof. rewrite <- Z.pow_succ_r by lia. f_equal. lia. Qed.

Lemma b128_pack n v : 0 <= v < 128 ^ (Z.of_nat n + 1) -> b128 (varint_pack n v) = v.
Proof.
  revert v. induction n as [|n IH]; intros v Hv.
  - rewrite varint_pack_0 by (cbn in Hv; lia). cbn in *. rewrite Z.mod_small; lia.
  - rewrite pow128 in Hv. rewrite varint_pack_S by lia. destruct (Z.ltb_spec v 128).
    + cbn. rewrite Z.mod_small; lia.
    + cbn [b128 fold_right]. fold (b128 (varint_pack n (v / 128))). rewrite IH, mod_cont by div_lia. div_lia.
Qed.

Lemma varint_pack_more n m v : 0 <= v < 128 ^ (Z.of_nat n + 1) -> varint_pack (n + m) v = varint_pack n v.
Proof.
  revert v. induction n as [|n IH]; intros v Hv.
  - rewrite varint_pack_0 by (cbn in Hv; lia). destruct m; cbn [Nat.add]; [by rewrite varint_pack_0 by (cbn in Hv; lia)|].
    rewrite varint_pack_S by lia. by rewrite (proj2 (Z.ltb_lt _ _)) by (cbn in Hv; lia).
  - rewrite pow128 in Hv. cbn [Nat.add]. rewrite !varint_pack_S by lia. destruct (v <? 128); [done|]. rewrite IH; [done|]. div_lia.
Qed.

Lemma varint_pack_octets n v : 0 <= v < 128 ^ (Z.of_nat n + 1) -> Forall is_u8 (varint_pack n v).
Proof.
  revert v. induction n as [|n IH]; intros v Hv.
  - rewrite varint_pack_0 by (cbn in Hv; lia). repeat constructor; cbn in Hv; lia.
  - rewrite pow128 in Hv. rewrite varint_pack_S by lia. destruct (Z.ltb_spec v 128); [repeat constructor; lia|].
    constructor; [unfold is_u8; pose proof (Z.mod_pos_bound v 128); lia|]. apply IH. div_lia.
Qed.

(** ** 64-bit integers *)

Lemma parse_uint64_loop_ok data : forall rv shift, 0 <= shift -> 0 <= rv < 2 ^ shift -> rv + b128 data * 2 ^ shift < 18446744073709551616 ->
  parse_uint64_loop rv shift data = rv + b128 data * 2 ^ shift.
Proof.
  induction data as [|d data IH]; intros rv shift Hs Hrv Hlt; cbn [parse_uint64_loop]; [cbn; lia|].
  change (b128 (d :: data)) with (d mod 128 + 128 * b128 data) in *. assert (0 <= b128 data) as Hb.
  { clear. induction data as [|d data IH]; cbn; [lia|]. pose proof (Z.mod_pos_bound d 128). unfold b128 in IH. lia. }
  pose proof (Z.mod_pos_bound d 128 ltac:(lia)) as Hd. assert (0 < 2 ^ shift) by (apply Z.pow_pos_nonneg; lia).
  assert (2 ^ (shift + 7) = 128 * 2 ^ shift) as Hp by (rewrite Z.pow_add_r by lia; change (2 ^ 7) with 128; lia).
  rewrite octet_low. replace (u64 (Z.shiftl (d mod 128) shift)) with (Z.shiftl (d mod 128) shift).
  - rewrite lor_shiftl_add by lia. rewrite IH; [rewrite Hp; lia|lia|rewrite Hp; nia|rewrite Hp; nia].
  - unfold u64. symmetry. apply Z.mod_small. rewrite Z.shiftl_mul_pow2 by lia. nia.
Qed.

Lemma parse_uint64_b128 data : (5 <= length data)%nat -> b128 data < 18446744073709551616 -> parse_uint64 data = b128 data.
Proof.
  intros Hl Hb. destruct data as [|d0 [|d1 [|d2 [|d3 [|d4 r]]]]]; cbn in Hl; try lia. unfold parse_uint64. cbn [drop].
  pose proof (fun d => Z.mod_pos_bound d 128 ltac:(lia)) as Hm. pose proof (Hm d0). pose proof (Hm d1). pose proof (Hm d2). pose proof (Hm d3).
  rewrite !octet_low, (lor_shiftl_add _ _ 7), (lor_shiftl_add _ _ 14), (lor_shiftl_add _ _ 21) by (cbn; lia).
  assert (b128 (d0 :: d1 :: d2 :: d3 :: d4 :: r) = d0 mod 128 + d1 mod 128 * 2 ^ 7 + d2 mod 128 * 2 ^ 14 + d3 mod 128 * 2 ^ 21 +
    b128 (d4 :: r) * 2 ^ 28) as E.
  { unfold b128. cbn [fold_right]. set (x := fold_right _ 0 r). change (2 ^ 7) with 128. change (2 ^ 14) with 16384. change (2 ^ 21) with 2097152.
    change (2 ^ 28) with 268435456. lia. }
  rewrite E in Hb |- *. apply parse_uint64_loop_ok; [lia|cbn; lia|done].
Qed.

Lemma varint_pack_short n v : 0 <= v < 128 ^ (Z.of_nat n + 1) -> (length (varint_pack n v) < 5)%nat -> v < 268435456.
Proof.
  intros Hv Hl. rewrite <- (b128_pack n v Hv). revert Hl. generalize (varint_pack n v). intros l Hl.
  pose proof (fun d => Z.mod_pos_bound d 128 ltac:(lia)) as Hm.
  destruct l as [|d0 [|d1 [|d2 [|d3 [|]]]]]; cbn in *; try lia;
    pose proof (Hm d0); try pose proof (Hm d1); try pose proof (Hm d2); try pose proof (Hm d3); lia.
Qed.

Lemma parse_uint64_varint v : 0 <= v < 18446744073709551616 -> parse_uint64 (varint_pack 9 v) = v.
Proof.
  intros Hv. assert (0 <= v < 128 ^ (Z.of_nat 9 + 1)) as Hv9 by (cbn; lia). destruct (Nat.lt_ge_cases (length (varint_pack 9 v)) 5) as [Hl|Hl].
  - pose proof (varint_pack_short 9 v Hv9 Hl) as Hs.
    assert (varint_pack 9 v = uint32_pack v) as E by (apply (varint_pack_more 4 5); cbn; lia).
    replace (parse_uint64 (varint_pack 9 v)) with (parse_uint32 (varint_pack 9 v)).
    + rewrite E. apply parse_uint32_pack. unfold is_u32, UINT32_MOD. lia.
    + destruct (varint_pack 9 v) as [|d0 [|d1 [|d2 [|d3 [|]]]]]; try done. cbn in Hl. lia.
  - rewrite parse_uint64_b128; rewrite ?b128_pack; done || lia.
Qed.

Lemma varint_pack_big hi lo : 0 < hi < 4294967296 -> 0 <= lo < 4294967296 ->
  varint_pack 9 (hi * 4294967296 + lo) =
    [lo mod 128 + 128; (lo / 128) mod 128 + 128; (lo / 16384) mod 128 + 128; (lo / 2097152) mod 128 + 128] ++
    varint_pack 5 (hi * 16 + lo / 268435456).
Proof.
  intros Hhi Hlo. set (v := hi * 4294967296 + lo).
  do 4 (rewrite varint_pack_S, (proj2 (Z.ltb_ge _ 128)) by (subst v; div_lia)). cbn [app].
  replace (v / 128 / 128 / 128 / 128) with (hi * 16 + lo / 268435456) by (subst v; div_lia).
  replace (v mod 128) with (lo mod 128) by (subst v; div_lia).
  replace ((v / 128) mod 128) with ((lo / 128) mod 128) by (subst v; div_lia).
  replace ((v / 128 / 128) mod 128) with ((lo / 16384) mod 128) by (subst v; div_lia).
  replace ((v / 128 / 128 / 128) mod 128) with ((lo / 2097152) mod 128) by (subst v; div_lia). done.
Qed.

(** The octets of [uint64_pack] are the number in base 128. *)
Lemma uint64_pack_varint v : 0 <= v < 18446744073709551616 -> uint64_pack v = varint_pack 9 v.
Proof.
  intros Hv. unfold uint64_pack. set (hi := u32 (Z.shiftr v 32)). set (lo := u32 v). cbv zeta.
  assert (0 <= hi < 4294967296 /\ 0 <= lo < 4294967296 /\ v = hi * 4294967296 + lo) as (Hhi & Hlo & Ev).
  { unfold hi, lo, u32, UINT32_MOD. rewrite Z.shiftr_div_pow2 by lia. change (2 ^ 32) with 4294967296.
    rewrite (Z.mod_small (v / 4294967296)) by div_lia. div_lia. }
  clearbody hi lo. rewrite Ev. clear v Ev Hv. destruct (Z.eqb_spec hi 0) as [->|H0].
  { rewrite Z.mul_0_l, Z.add_0_l. symmetry. apply (varint_pack_more 4 5). cbn. lia. }
  rewrite varint_pack_big by lia. cbn [map]. rewrite !octet_cont, !Z.shiftr_div_pow2, Z.div_1_r by lia.
  change (2 ^ 7) with 128. change (2 ^ 14) with 16384. change (2 ^ 21) with 2097152. change (2 ^ 28) with 268435456. change (2 ^ 3) with 8.
  assert (0 <= lo / 268435456 < 16) as Hl by div_lia. rewrite (varint_pack_S 4 (hi * 16 + _)) by lia. destruct (Z.ltb_spec hi 8).
  - rewrite (proj2 (Z.ltb_lt _ 128)) by lia. f_equal. f_equal. rewrite Z.lor_comm, lor_shiftl_add by (change (2 ^ 4) with 16; lia).
    change (2 ^ 4) with 16. unfold u8. rewrite Z.mod_small; lia.
  - rewrite (proj2 (Z.ltb_ge _ 128)) by lia. f_equal. cbn [app]. f_equal.
    + rewrite Z.lor_comm, lor_shiftl_add by (change (2 ^ 4) with 16; lia). change 7 with (Z.ones 3). rewrite Z.land_ones by lia.
      change (2 ^ 3) with 8. change (2 ^ 4) with 16. div_lia.
    + f_equal. div_lia.
Qed.

Lemma parse_uint64_pack v : 0 <= v < 18446744073709551616 -> parse_uint64 (uint64_pack v) = v.
Proof. intros Hv. rewrite uint64_pack_varint by done. by apply parse_uint64_varint. Qed.

Lemma uint64_size_pack v : 0 <= v < 18446744073709551616 -> blen (uint64_pack v) = uint64_size v.
Proof.
  intros Hv. unfold uint64_pack, uint64_size. set (hi := u32 (Z.shiftr v 32)). cbv zeta.
  assert (0 <= hi < 4294967296) as Hhi by (apply Z.mod_pos_bound; done). clearbody hi. destruct (Z.eqb_spec hi 0).
  { apply uint32_size_pack, Z.mod_pos_bound. done. }
  destruct (Z.ltb_spec hi 8); [done|]. unfold blen. rewrite !length_app. cbn [length map]. rewrite Z.shiftr_div_pow2 by lia. change (2 ^ 3) with 8.
  pose proof (uint32_size_pack (hi / 8) ltac:(unfold is_u32, UINT32_MOD; div_lia)) as E. unfold blen, uint32_pack in E. rewrite !Nat2Z.inj_add, E.
  unfold uint32_size. repeat match goal with |- context [?a <? ?b] => destruct (Z.ltb_spec a b) end; try done; div_lia.
Qed.

Lemma parse_fixed_uint32_pack z : is_u32 z -> parse_fixed_uint32 (fixed32_pack z) = z.
Proof.
  unfold is_u32, UINT32_MOD. intros Hz. unfold fixed32_pack, parse_fixed_uint32, u8. cbn [map take fold_right].
  rewrite !Z.shiftr_div_pow2 by lia. change (2 ^ (8 * 0)) with 1. change (2 ^ (8 * 1)) with 256. change (2 ^ (8 * 2)) with 65536.
  change (2 ^ (8 * 3)) with 16777216. div_lia.
Qed.

(** ** Packed repeated fields *)

(** The types that can be packed; the values of enumerations are packed as
    [uint32], those of [int64] as [uint64], and of [sfixed32], [float],
    [sfixed64] and [double] as their bits. *)
Inductive packable : Type := PInt32 | PSint32 | PUint32 | PUint64 | PSint64 | PFixed32 | PFixed64 | PBool.

Definition get_type_min_size (t : packable) : Z := match t with PFixed32 => 4 | PFixed64 => 8 | _ => 1 end.

Definition element_pack (t : packable) (v : Z) : bytes :=
  match t with
  | PInt32 => int32_pack v
  | PSint32 => sint32_pack v
  | PUint32 => uint32_pack v
  | PUint64 => uint64_pack v
  | PSint64 => sint64_pack v
  | PFixed32 => fixed32_pack v
  | PFixed64 => fixed64_pack v
  | PBool => boolean_pack v
  end.

(** [repeated_field_pack] of a packed field: the elements are written behind
    the tag and a gap for the least length they can have, and moved by one
    octet if the length needs it.  [None] is the failure of the assertion. *)
Definition packed_field_pack (id : Z) (t : packable) (array : list Z) : option bytes :=
  match array with
  | [] => Some []
  | _ =>
      let header := field_tag id WIRE_LENGTH_PREFIXED in
      let min_length := u32 (get_type_min_size t * Z.of_nat (length array)) in
      let length_size_min := uint32_size min_length in
      let payload := concat (map (element_pack t) array) in
      let payload_len := u32 (blen payload) in
      let actual_length_size := uint32_size payload_len in
      let write (gap : Z) :=
        let prefix := uint32_pack payload_len in
        Some (header ++ prefix ++ drop (length prefix) (replicate (Z.to_nat gap) 0) ++ payload) in
      if length_size_min =? actual_length_size then write length_size_min
      else if actual_length_size =? length_size_min + 1 then write (length_size_min + 1)
      else None
  end.

Definition max_b128_numbers (data : bytes) : Z := Z.of_nat (length (filter (fun d => Z.land d 128 = 0) data)).

(** [None] is the result [FALSE]. *)
Definition count_packed_elements (t : packable) (data : bytes) : option Z :=
  match t with
  | PFixed32 => if blen data mod 4 =? 0 then Some (blen data / 4) else None
  | PFixed64 => if blen data mod 8 =? 0 then Some (blen data / 8) else None
  | PBool => Some (blen data)
  | _ => Some (max_b128_numbers data)
  end.

(** [while (rem > 0)]: every round uses an octet at least. *)
Fixpoint parse_varints (fuel : nat) (parse : bytes -> Z) (at_ : bytes) : option (list Z) :=
  match at_, fuel with
  | [], _ => Some []
  | _, S fuel' =>
      s ← scan_varint 10 at_;
      l ← parse_varints fuel' parse (drop s at_);
      Some (parse (take s at_) :: l)
  | _, O => None
  end.

(** [memcpy] of [count] elements of [size] octets. *)
Fixpoint copy_elements (count : nat) (size : nat) (parse : bytes -> Z) (at_ : bytes) : list Z :=
  if count is S count' then parse (take size at_) :: copy_elements count' size parse (drop size at_) else [].

Definition parse_packed_repeated_member (t : packable) (at_ : bytes) : option (list Z) :=
  let varints parse := parse_varints (length at_) parse at_ in
  match t with
  | PFixed32 => Some (copy_elements (length at_ / 4) 4 parse_fixed_uint32 at_)
  | PFixed64 => Some (copy_elements (length at_ / 8) 8 parse_fixed_uint64 at_)
  | PInt32 => varints parse_int32
  | PSint32 => varints (fun d => unzigzag32 (parse_uint32 d))
  | PUint32 => varints parse_uint32
  | PSint64 => varints (fun d => unzigzag64 (parse_uint64 d))
  | PUint64 => varints parse_uint64
  | PBool => if forallb (fun d => d <=? 1) at_ then Some at_ else None
  end.

(** The values of a type. *)
Definition element_ok (t : packable) (v : Z) : Prop :=
  match t with
  | PInt32 | PSint32 => -2147483648 <= v < 2147483648
  | PUint32 | PFixed32 => is_u32 v
  | PUint64 | PFixed64 => 0 <= v < 18446744073709551616
  | PSint64 => -9223372036854775808 <= v < 9223372036854775808
  | PBool => v = 0 \/ v = 1
  end.

Definition varint_parser (t : packable) : option (bytes -> Z) :=
  match t with
  | PInt32 => Some parse_int32
  | PSint32 => Some (fun d => unzigzag32 (parse_uint32 d))
  | PUint32 => Some parse_uint32
  | PUint64 => Some parse_uint64
  | PSint64 => Some (fun d => unzigzag64 (parse_uint64 d))
  | _ => None
  end.

Lemma zigzag32_range v : -2147483648 <= v < 2147483648 -> is_u32 (zigzag32 v).
Proof. intros Hv. rewrite zigzag32_eq by done. unfold is_u32, UINT32_MOD. destruct (Z.ltb_spec v 0); lia. Qed.
Lemma zigzag64_range v : -9223372036854775808 <= v < 9223372036854775808 -> 0 <= zigzag64 v < 18446744073709551616.
Proof. intros Hv. rewrite zigzag64_eq by done. destruct (Z.ltb_spec v 0); lia. Qed.

Lemma scan_int32 z rest : -2147483648 <= z < 2147483648 -> scan_varint 10 (int32_pack z ++ rest) = Some (length (int32_pack z)).
Proof.
  intros Hz. rewrite int32_pack_neg. destruct (Z.ltb_spec z 0).
  - cbn [app scan_varint]. rewrite !octet_high by div_lia. rewrite !(proj2 (Z.ltb_ge _ _)) by div_lia. done.
  - apply scan_uint32; [unfold is_u32, UINT32_MOD|]; lia.
Qed.
Lemma scan_uint64 v rest : 0 <= v < 18446744073709551616 -> scan_varint 10 (uint64_pack v ++ rest) = Some (length (uint64_pack v)).
Proof. intros Hv. rewrite uint64_pack_varint by done. apply scan_varint_pack; cbn; lia. Qed.

(** A packed varint is scanned and parsed, whatever follows. *)
Lemma varint_element t parse v rest : varint_parser t = Some parse -> element_ok t v ->
  scan_varint 10 (element_pack t v ++ rest) = Some (length (element_pack t v)) /\ parse (element_pack t v) = v.
Proof.
  intros Hp Hv. destruct t; cbn in Hp; simplify_eq; cbn [element_pack element_ok] in *.
  - split; [by apply scan_int32|by apply parse_int32_pack].
  - unfold sint32_pack. pose proof (zigzag32_range v Hv). split; [apply scan_uint32; [done|lia]|].
    rewrite parse_uint32_pack by done. by apply unzigzag_zigzag32.
  - split; [apply scan_uint32; [done|lia]|by apply parse_uint32_pack].
  - split; [by apply scan_uint64|by apply parse_uint64_pack].
  - unfold sint64_pack. pose proof (zigzag64_range v Hv). split; [by apply scan_uint64|].
    rewrite parse_uint64_pack by done. by apply unzigzag_zigzag64.
Qed.

(** The elements of the types of fixed length. *)
Lemma fixed_element t v : element_ok t v ->
  match t with
  | PFixed32 => length (element_pack t v) = 4%nat /\ parse_fixed_uint32 (element_pack t v) = v
  | PFixed64 => length (element_pack t v) = 8%nat /\ parse_fixed_uint64 (element_pack t v) = v
  | PBool => element_pack t v = [v]
  | _ => True
  end.
Proof.
  destruct t; try done; cbn [element_ok element_pack]; intros Hv.
  - split; [done|by apply parse_fixed_uint32_pack].
  - split; [done|by apply parse_fixed_uint64_pack].
  - destruct Hv as [-> | ->]; done.
Qed.

Lemma element_length t v : element_ok t v -> get_type_min_size t <= blen (element_pack t v) <= 10.
Proof.
  intros Hv. destruct (varint_parser t) as [parse|] eqn:Ep.
  - destruct (varint_element t parse v [] Ep Hv) as [Hs _]. rewrite app_nil_r in Hs.
    assert (1 <= length (element_pack t v))%nat by (destruct (element_pack t v); [done|cbn; lia]).
    apply scan_varint_length in Hs as [H10 _]. unfold blen. destruct t; try done; cbn [get_type_min_size]; lia.
  - by destruct t.
Qed.

Lemma payload_length t array : Forall (element_ok t) array ->
  get_type_min_size t * Z.of_nat (length array) <= blen (concat (map (element_pack t) array)) <= 10 * Z.of_nat (length array).
Proof.
  induction 1 as [|v array Hv _ IH]; [unfold blen; cbn [map concat length]; lia|]. cbn [map concat length]. rewrite blen_app. pose proof (element_length t v Hv). lia.
Qed.

(** Ten times the length needs one octet more at most. *)
Lemma uint32_size_step m p : 0 <= m <= p -> p <= 10 * m -> uint32_size p = uint32_size m \/ uint32_size p = uint32_size m + 1.
Proof.
  intros Hm Hp. unfold uint32_size. repeat match goal with |- context [?a <? ?b] => destruct (Z.ltb_spec a b) end; lia.
Qed.

(** A packed field is written as one length-prefixed field. *)
Lemma packed_field_pack_ok id t array : array <> [] -> Forall (element_ok t) array ->
  is_u32 (blen (concat (map (element_pack t) array))) ->
  packed_field_pack id t array = Some (field_tag id WIRE_LENGTH_PREFIXED ++ binary_data_pack (concat (map (element_pack t) array))).
Proof.
  intros Hne Ha Hl. pose proof (payload_length t array Ha) as Hp. unfold packed_field_pack. destruct array as [|v array']; [done|].
  set (array := v :: array') in *. set (payload := concat _) in *. unfold is_u32, UINT32_MOD in Hl. pose proof Hl as Hl'.
  assert (0 < get_type_min_size t <= 8) as Ht by (destruct t; cbn; lia).
  set (m := get_type_min_size t * Z.of_nat (length array)) in *. assert (u32 m = m) as -> by (apply Z.mod_small; unfold UINT32_MOD; lia).
  unfold binary_data_pack. assert (u32 (blen payload) = blen payload) as -> by (apply Z.mod_small; unfold UINT32_MOD; lia). cbv zeta.
  assert (Z.to_nat (uint32_size (blen payload)) = length (uint32_pack (blen payload))) as Hs.
  { rewrite <- uint32_size_pack by done. unfold blen at 1. lia. }
  assert (blen payload <= 10 * m) as H10 by (subst m; nia).
  destruct (uint32_size_step m (blen payload) ltac:(lia) H10) as [E|E]; rewrite E in Hs.
  - rewrite E, Z.eqb_refl, drop_ge; [done|]. rewrite length_replicate. lia.
  - rewrite E, (proj2 (Z.eqb_neq _ _)), Z.eqb_refl, drop_ge; [done| |lia]. rewrite length_replicate. lia.
Qed.

Lemma parse_varints_concat t parse array : varint_parser t = Some parse -> Forall (element_ok t) array ->
  forall fuel, (length (concat (map (element_pack t) array)) <= fuel)%nat ->
  parse_varints fuel parse (concat (map (element_pack t) array)) = Some array.
Proof.
  intros Hp. induction 1 as [|v array Hv _ IH]; intros fuel Hf; [by destruct fuel|]. cbn [map concat] in *.
  pose proof (element_length t v Hv) as Hl. destruct (varint_element t parse v (concat (map (element_pack t) array)) Hp Hv) as [Hs Hpv].
  assert (1 <= get_type_min_size t) by (destruct t; done). unfold blen in Hl. rewrite length_app in Hf. destruct fuel as [|fuel]; [lia|].
  destruct (element_pack t v) as [|d e] eqn:Ee; [cbn in Hl; lia|]. cbn [app parse_varints].
  change (d :: e ++ ?r) with ((d :: e) ++ r). rewrite Hs. cbn [mbind option_bind].
  rewrite drop_app_length, take_app_length, Hpv, IH by (cbn in Hf; lia). done.
Qed.

Lemma copy_elements_concat size parse (enc : Z -> bytes) array : Forall (fun v => length (enc v) = size /\ parse (enc v) = v) array ->
  copy_elements (length array) size parse (concat (map enc array)) = array.
Proof.
  induction 1 as [|v array [Hl Hv] _ IH]; [done|]. cbn [length copy_elements map concat].
  by rewrite take_app_length', drop_app_length', Hv, IH.
Qed.

Lemma concat_fixed_length size (enc : Z -> bytes) array : Forall (fun v => length (enc v) = size) array ->
  length (concat (map enc array)) = (length array * size)%nat.
Proof. induction 1 as [|v array Hl _ IH]; [done|]. cbn [map concat length]. rewrite length_app. lia. Qed.

(** What is packed is unpacked. *)
Lemma parse_packed_elements t array : Forall (element_ok t) array ->
  parse_packed_repeated_member t (concat (map (element_pack t) array)) = Some array.
Proof.
  intros Ha. destruct (varint_parser t) as [parse|] eqn:Ep.
  { pose proof (parse_varints_concat t parse array Ep Ha _ (le_n _)) as E. destruct t; cbn in Ep; simplify_eq; exact E. }
  pose proof (Forall_impl _ _ _ Ha (fixed_element t)) as Hf. destruct t; try done; cbn [parse_packed_repeated_member].
  - rewrite (concat_fixed_length 4) by (eapply Forall_impl; [exact Hf|by intros v [? _]]). rewrite Nat.div_mul by done.
    f_equal. by apply copy_elements_concat.
  - rewrite (concat_fixed_length 8) by (eapply Forall_impl; [exact Hf|by intros v [? _]]). rewrite Nat.div_mul by done.
    f_equal. by apply copy_elements_concat.
  - assert (concat (map (element_pack PBool) array) = array) as ->.
    { clear Ha Ep. induction Hf as [|v l Hv _ IH]; [done|]. cbn [map concat]. by rewrite Hv, IH. }
    assert (forallb (fun d => d <=? 1) array = true) as ->; [|done]. clear Hf. induction Ha as [|v l Hv _ IH]; [done|].
    cbn [forallb]. rewrite IH, andb_true_r. apply Z.leb_le. destruct Hv; lia.
Qed.

(** ** The count made before the array is allocated *)

Lemma scan_varint_one max data s : scan_varint max data = Some s -> max_b128_numbers (take s data) = 1 /\ (0 < s)%nat.
Proof.
  revert data s. induction max as [|max IH]; intros [|d data] s; try done. cbn [scan_varint]. unfold max_b128_numbers. destruct (Z.eqb_spec (Z.land d 128) 0) as [E|E].
  - intros [= <-]. cbn [take]. rewrite filter_cons_True by done. split; [by destruct data|lia].
  - destruct (scan_varint max data) as [n|] eqn:En; [|done]. intros [= <-]. cbn [take]. rewrite filter_cons_False by done.
    destruct (IH data n En) as [H1 _]. split; [exact H1|lia].
Qed.

Lemma parse_varints_count parse fuel : forall data l, parse_varints fuel parse data = Some l -> Z.of_nat (length l) = max_b128_numbers data.
Proof.
  induction fuel as [|fuel IH]; intros data l H; destruct data as [|d data]; cbn [parse_varints] in H; simplify_eq; try done.
  destruct (scan_varint 10 (d :: data)) as [s|] eqn:Es; [|done]. cbn [mbind option_bind] in H.
  destruct (parse_varints fuel parse (drop s (d :: data))) as [l'|] eqn:El; [|done]. cbn in H. simplify_eq. apply IH in El.
  destruct (scan_varint_one _ _ _ Es) as [E1 _]. rewrite <- (take_drop s (d :: data)). unfold max_b128_numbers in *.
  rewrite filter_app, length_app. cbn [length]. lia.
Qed.

Lemma copy_elements_length count size parse data : length (copy_elements count size parse data) = count.
Proof. revert data. induction count as [|count IH]; intros data; cbn; [done|]. by rewrite IH. Qed.

(** A reader stores as many elements as were counted. *)
Lemma packed_count t data l n : parse_packed_repeated_member t data = Some l -> count_packed_elements t data = Some n -> n = Z.of_nat (length l).
Proof.
  unfold count_packed_elements, blen. intros Hp Hc. destruct t; cbn [parse_packed_repeated_member] in Hp;
    try (simplify_eq; symmetry; by eapply parse_varints_count).
  - simplify_eq. rewrite copy_elements_length. destruct (_ =? 0); simplify_eq. rewrite Nat2Z.inj_div. done.
  - simplify_eq. rewrite copy_elements_length. destruct (_ =? 0); simplify_eq. rewrite Nat2Z.inj_div. done.
  - destruct (forallb _ data); simplify_eq. done.
Qed.

Lemma count_of_packed t array : Forall (element_ok t) array ->
  count_packed_elements t (concat (map (element_pack t) array)) = Some (Z.of_nat (length array)).
Proof.
  intros Ha. pose proof (parse_packed_elements t array Ha) as Hp.
  destruct (count_packed_elements t (concat (map (element_pack t) array))) as [n|] eqn:Ec; [by rewrite (packed_count _ _ _ _ Hp Ec)|exfalso].
  pose proof (Forall_impl _ _ _ Ha (fixed_element t)) as Hf. unfold count_packed_elements, blen in Ec. destruct t; try done.
  - rewrite (concat_fixed_length 4) in Ec by (eapply Forall_impl; [exact Hf|by intros v [? _]]).
    rewrite Nat2Z.inj_mul, Z.mod_mul in Ec; done.
  - rewrite (concat_fixed_length 8) in Ec by (eapply Forall_impl; [exact Hf|by intros v [? _]]).
    rewrite Nat2Z.inj_mul, Z.mod_mul in Ec; done.
Qed.

(** C29: a packed field is written as a length-prefixed field, whose length is found
    again; as many elements are counted as there were, and they are read back.
    The assertion on the size of the length holds. *)
Theorem packed_fields_round_trip id t array rest : array <> [] -> Forall (element_ok t) array ->
  wf_size (blen (concat (map (element_pack t) array))) ->
  exists data len pref, packed_field_pack id t array = Some (field_tag id WIRE_LENGTH_PREFIXED ++ data) /\
    scan_length_prefixed_data (data ++ rest) = Some (len, pref) /\ len = length data /\
    count_packed_elements t (drop pref (take len (data ++ rest))) = Some (Z.of_nat (length array)) /\
    parse_packed_repeated_member t (drop pref (take len (data ++ rest))) = Some array.
Proof.
  intros Hne Ha Hl. set (payload := concat (map (element_pack t) array)) in *.
  assert (is_u32 (blen payload)) as Hu by (unfold wf_size, is_u32, UINT32_MOD in *; pose proof (blen_nonneg payload); lia).
  exists (binary_data_pack payload), (length (binary_data_pack payload)), (length (uint32_pack (u32 (blen payload)))).
  split; [by apply packed_field_pack_ok|]. split; [by apply scan_prefixed|]. split; [done|].
  rewrite take_app_length. unfold binary_data_pack at 1 2. rewrite drop_app_length. split; [by apply count_of_packed|by apply parse_packed_elements].
Qed.

Lemma packed_fields_round_trip_witness :
  [-1; 300; 0] <> [] /\
  exists data len pref, packed_field_pack 7 PSint32 [-1; 300; 0] = Some (field_tag 7 WIRE_LENGTH_PREFIXED ++ data) /\
    scan_length_prefixed_data (data ++ [1]) = Some (len, pref) /\ len = length data /\
    count_packed_elements PSint32 (drop pref (take len (data ++ [1]))) = Some (Z.of_nat 3) /\
    parse_packed_repeated_member PSint32 (drop pref (take len (data ++ [1]))) = Some [-1; 300; 0].
Proof.
  split; [done|]. apply (packed_fields_round_trip 7 PSint32 [-1; 300; 0] [1]); [done| |reflexivity].
  repeat constructor; cbn; lia.
Defined.

(** Whatever octets a packed field has, the reader that accepts them stores as
    many elements as were counted when the array was allocated. *)
Theorem packed_elements_fit_the_array t data l n :
  parse_packed_repeated_member t data = Some l -> count_packed_elements t data = Some n -> n = Z.of_nat (length l).
Proof. apply packed_count. Qed.

Lemma packed_elements_fit_the_array_witness :
  parse_packed_repeated_member PUint32 [172; 2; 128; 0; 5] = Some [300; 0; 5] /\ 3 = Z.of_nat (length [300; 0; 5]).
Proof. split; [reflexivity|]. apply (packed_elements_fit_the_array PUint32 [172; 2; 128; 0; 5]); reflexivity. Defined.
