(* ===== verification/Descriptors.v ===== *)
(** protobuf-c/protobuf-c.c and the generated *.pb-c.c files: the tables of the
    message descriptors and the searches in them, by number ([int_range_lookup],
    which unpacking uses for every field) and by name, also of enumerations and
    services.  The binary searches read inside their tables, end, and find what
    a search through all entries finds, in every descriptor of the library. *)
From Stdlib Require Import ZArith Lia String Ascii Sorted.
From stdpp Require Import base list sorting.
From S2P Require Import Prelude Protobuf Messages Fingerprint ProtobufScalars.
#[local] Open Scope Z_scope.

(** ** Tables *)

Record ProtobufCIntRange : Type := IntRange { start_value : Z; orig_index : Z }.

(** The octets of a string literal. *)
Definition str (s : string) : bytes := map (fun c => Z.of_N (N_of_ascii c)) (list_ascii_of_string s).

(** The names of the fields are a list beside their descriptors. *)
Record message_descriptor : Type := MessageDescriptor {
  md_name : string;
  n_fields : nat;
  fields : list field;
  field_names : list bytes;
  fields_sorted_by_name : list nat;
  n_field_ranges : nat;
  field_ranges : list ProtobufCIntRange
}.

(** [ed_values] are the names and the values, [ed_by_name] the names with the
    indices of the values they stand for. *)
Record enum_descriptor : Type := EnumDescriptor {
  ed_values : list (bytes * Z);
  n_value_names : nat;
  ed_by_name : list (bytes * nat);
  n_value_ranges : nat;
  value_ranges : list ProtobufCIntRange
}.

Record service_descriptor : Type := ServiceDescriptor {
  n_methods : nat;
  methods : list bytes;
  method_indices_by_name : list nat
}.

(** ** Searches *)

(** The loop and what follows it, on [n] ranges from [start].  [None] is an
    access outside the table. *)
Fixpoint int_range_search (fuel : nat) (ranges : list ProtobufCIntRange) (start n : nat) (value : Z) : option Z :=
  match fuel with
  | O => None
  | S fuel' =>
      if (1 <? n)%nat then
        let mid := (start + n / 2)%nat in
        r ← ranges !! mid;
        if value <? start_value r then int_range_search fuel' ranges start (mid - start) value
        else
          r' ← ranges !! S mid;
          if start_value r + s32 (orig_index r' - orig_index r) <=? value
          then int_range_search fuel' ranges (mid + 1) (start + n - (mid + 1)) value
          else Some (s32 (value - start_value r + orig_index r))
      else if (0 <? n)%nat then
        r ← ranges !! start;
        r' ← ranges !! S start;
        let range_size := u32 (orig_index r' - orig_index r) in
        if (start_value r <=? value) && (value <? s32 (start_value r + range_size))
        then Some (s32 (value - start_value r + orig_index r)) else Some (-1)
      else Some (-1)
  end.

Definition int_range_lookup (n_ranges : nat) (ranges : list ProtobufCIntRange) (value : Z) : option Z :=
  if (n_ranges =? 0)%nat then Some (-1) else int_range_search (S n_ranges) ranges 0 n_ranges value.

(** The loop of the searches by name and what follows it; [key i] is the name of
    the [i]-th entry.  The result is the entry found, [None] outside the table. *)
Fixpoint name_search (fuel : nat) (key : nat -> option bytes) (start count : nat) (name : bytes) : option (option nat) :=
  match fuel with
  | O => None
  | S fuel' =>
      if (1 <? count)%nat then
        let mid := (start + count / 2)%nat in
        k ← key mid;
        let rv := strcmp k name in
        if rv =? 0 then Some (Some mid)
        else if rv <? 0 then name_search fuel' key (mid + 1) (start + count - (mid + 1)) name
        else name_search fuel' key start (mid - start) name
      else if (count =? 0)%nat then Some None
      else
        k ← key start;
        Some (if strcmp k name =? 0 then Some start else None)
  end.

(** The results are the index of the value, field or method. *)
Definition found {A} (r : option (option nat)) (entry : nat -> option A) : option (option A) :=
  r ← r; if r is Some i then e ← entry i; Some (Some e) else Some None.

Definition protobuf_c_enum_descriptor_get_value_by_name (desc : enum_descriptor) (name : bytes) : option (option nat) :=
  found (name_search (S (n_value_names desc)) (fun i => fst <$> ed_by_name desc !! i) 0 (n_value_names desc) name)
    (fun i => snd <$> ed_by_name desc !! i).

Definition protobuf_c_enum_descriptor_get_value (desc : enum_descriptor) (value : Z) : option (option nat) :=
  rv ← int_range_lookup (n_value_ranges desc) (value_ranges desc) value;
  Some (if rv <? 0 then None else Some (Z.to_nat rv)).

Definition protobuf_c_message_descriptor_get_field_by_name (desc : message_descriptor) (name : bytes) : option (option nat) :=
  found (name_search (S (n_fields desc)) (fun i => j ← fields_sorted_by_name desc !! i; field_names desc !! j) 0 (n_fields desc) name)
    (fun i => fields_sorted_by_name desc !! i).

(** [value] is an [unsigned], the parameter of [int_range_lookup] an [int]. *)
Definition protobuf_c_message_descriptor_get_field (desc : message_descriptor) (value : Z) : option (option nat) :=
  rv ← int_range_lookup (n_field_ranges desc) (field_ranges desc) (s32 value);
  Some (if rv <? 0 then None else Some (Z.to_nat rv)).

Definition protobuf_c_service_descriptor_get_method_by_name (desc : service_descriptor) (name : bytes) : option (option nat) :=
  found (name_search (S (n_methods desc)) (fun i => j ← method_indices_by_name desc !! i; methods desc !! j) 0 (n_methods desc) name)
    (fun i => method_indices_by_name desc !! i).

(** What [protobuf_c_message_unpack] does for a tag: the last field found is
    tried first. *)
Definition lookup_field (desc : message_descriptor) (last_field : option nat) (tag : Z) : option (option nat) :=
  let search := protobuf_c_message_descriptor_get_field desc tag in
  match last_field with
  | None => search
  | Some i => f ← fields desc !! i; if fst (fst f) =? tag then Some (Some i) else search
  end.

(** ** The descriptors of the library *)

#[local] Open Scope string_scope.

Definition textsecure__session_structure__chain__chain_key__descriptor : message_descriptor := {|
  md_name := "textsecure.SessionStructure.Chain.ChainKey"; n_fields := 2;
    fields := textsecure__session_structure__chain__chain_key__field_descriptors;
  field_names := map str ["index"; "key"];
  fields_sorted_by_name := [0; 1]%nat; n_field_ranges := 1; field_ranges := [IntRange 1 0; IntRange 0 2] |}.

Definition textsecure__session_structure__chain__message_key__descriptor : message_descriptor := {|
  md_name := "textsecure.SessionStructure.Chain.MessageKey"; n_fields := 4;
    fields := textsecure__session_structure__chain__message_key__field_descriptors;
  field_names := map str ["index"; "cipherKey"; "macKey"; "iv"];
  fields_sorted_by_name := [1; 0; 3; 2]%nat; n_field_ranges := 1; field_ranges := [IntRange 1 0; IntRange 0 4] |}.

Definition textsecure__session_structure__chain__descriptor : message_descriptor := {|
  md_name := "textsecure.SessionStructure.Chain"; n_fields := 4; fields := textsecure__session_structure__chain__field_descriptors;
  field_names := map str ["senderRatchetKey"; "senderRatchetKeyPrivate"; "chainKey"; "messageKeys"];
  fields_sorted_by_name := [2; 3; 0; 1]%nat; n_field_ranges := 1; field_ranges := [IntRange 1 0; IntRange 0 4] |}.

Definition textsecure__session_structure__pending_key_exchange__descriptor : message_descriptor := {|
  md_name := "textsecure.SessionStructure.PendingKeyExchange"; n_fields := 7;
    fields := textsecure__session_structure__pending_key_exchange__field_descriptors;
  field_names := map str ["sequence"; "localBaseKey"; "localBaseKeyPrivate"; "localRatchetKey"; "localRatchetKeyPrivate";
    "localIdentityKey"; "localIdentityKeyPrivate"];
  fields_sorted_by_name := [1; 2; 5; 6; 3; 4; 0]%nat; n_field_ranges := 2; field_ranges := [IntRange 1 0; IntRange 7 5; IntRange 0 7] |}.

Definition textsecure__session_structure__pending_pre_key__descriptor : message_descriptor := {|
  md_name := "textsecure.SessionStructure.PendingPreKey"; n_fields := 3;
    fields := textsecure__session_structure__pending_pre_key__field_descriptors;
  field_names := map str ["preKeyId"; "baseKey"; "signedPreKeyId"];
  fields_sorted_by_name := [1; 0; 2]%nat; n_field_ranges := 1; field_ranges := [IntRange 1 0; IntRange 0 3] |}.

Definition textsecure__session_structure__descriptor : message_descriptor := {|
  md_name := "textsecure.SessionStructure"; n_fields := 13; fields := textsecure__session_structure__field_descriptors;
  field_names := map str ["sessionVersion"; "localIdentityPublic"; "remoteIdentityPublic"; "rootKey"; "previousCounter";
    "senderChain"; "receiverChains"; "pendingKeyExchange"; "pendingPreKey"; "remoteRegistrationId"; "localRegistrationId";
    "needsRefresh"; "aliceBaseKey"];
  fields_sorted_by_name := [12; 1; 10; 11; 7; 8; 4; 6; 2; 9; 3; 5; 0]%nat; n_field_ranges := 1; field_ranges := [IntRange 1 0;
    IntRange 0 13] |}.

Definition textsecure__record_structure__descriptor : message_descriptor := {|
  md_name := "textsecure.RecordStructure"; n_fields := 2; fields := textsecure__record_structure__field_descriptors;
  field_names := map str ["currentSession"; "previousSessions"];
  fields_sorted_by_name := [0; 1]%nat; n_field_ranges := 1; field_ranges := [IntRange 1 0; IntRange 0 2] |}.

Definition textsecure__pre_key_record_structure__descriptor : message_descriptor := {|
  md_name := "textsecure.PreKeyRecordStructure"; n_fields := 3; fields := textsecure__pre_key_record_structure__field_descriptors;
  field_names := map str ["id"; "publicKey"; "privateKey"];
  fields_sorted_by_name := [0; 2; 1]%nat; n_field_ranges := 1; field_ranges := [IntRange 1 0; IntRange 0 3] |}.

Definition textsecure__signed_pre_key_record_structure__descriptor : message_descriptor := {|
  md_name := "textsecure.SignedPreKeyRecordStructure"; n_fields := 5;
    fields := textsecure__signed_pre_key_record_structure__field_descriptors;
  field_names := map str ["id"; "publicKey"; "privateKey"; "signature"; "timestamp"];
  fields_sorted_by_name := [0; 2; 1; 3; 4]%nat; n_field_ranges := 1; field_ranges := [IntRange 1 0; IntRange 0 5] |}.

Definition textsecure__identity_key_pair_structure__descriptor : message_descriptor := {|
  md_name := "textsecure.IdentityKeyPairStructure"; n_fields := 2; fields := textsecure__identity_key_pair_structure__field_descriptors;
  field_names := map str ["publicKey"; "privateKey"];
  fields_sorted_by_name := [1; 0]%nat; n_field_ranges := 1; field_ranges := [IntRange 1 0; IntRange 0 2] |}.

Definition textsecure__sender_key_state_structure__sender_chain_key__descriptor : message_descriptor := {|
  md_name := "textsecure.SenderKeyStateStructure.SenderChainKey"; n_fields := 2;
    fields := textsecure__sender_key_state_structure__sender_chain_key__field_descriptors;
  field_names := map str ["iteration"; "seed"];
  fields_sorted_by_name := [0; 1]%nat; n_field_ranges := 1; field_ranges := [IntRange 1 0; IntRange 0 2] |}.

Definition textsecure__sender_key_state_structure__sender_message_key__descriptor : message_descriptor := {|
  md_name := "textsecure.SenderKeyStateStructure.SenderMessageKey"; n_fields := 2;
    fields := textsecure__sender_key_state_structure__sender_message_key__field_descriptors;
  field_names := map str ["iteration"; "seed"];
  fields_sorted_by_name := [0; 1]%nat; n_field_ranges := 1; field_ranges := [IntRange 1 0; IntRange 0 2] |}.

Definition textsecure__sender_key_state_structure__sender_signing_key__descriptor : message_descriptor := {|
  md_name := "textsecure.SenderKeyStateStructure.SenderSigningKey"; n_fields := 2;
    fields := textsecure__sender_key_state_structure__sender_signing_key__field_descriptors;
  field_names := map str ["public"; "private"];
  fields_sorted_by_name := [1; 0]%nat; n_field_ranges := 1; field_ranges := [IntRange 1 0; IntRange 0 2] |}.

Definition textsecure__sender_key_state_structure__descriptor : message_descriptor := {|
  md_name := "textsecure.SenderKeyStateStructure"; n_fields := 4; fields := textsecure__sender_key_state_structure__field_descriptors;
  field_names := map str ["senderKeyId"; "senderChainKey"; "senderSigningKey"; "senderMessageKeys"];
  fields_sorted_by_name := [1; 0; 3; 2]%nat; n_field_ranges := 1; field_ranges := [IntRange 1 0; IntRange 0 4] |}.

Definition textsecure__sender_key_record_structure__descriptor : message_descriptor := {|
  md_name := "textsecure.SenderKeyRecordStructure"; n_fields := 1; fields := textsecure__sender_key_record_structure__field_descriptors;
  field_names := map str ["senderKeyStates"];
  fields_sorted_by_name := [0]%nat; n_field_ranges := 1; field_ranges := [IntRange 1 0; IntRange 0 1] |}.

Definition textsecure__signal_message__descriptor : message_descriptor := {|
  md_name := "textsecure.SignalMessage"; n_fields := 4; fields := textsecure__signal_message__field_descriptors;
  field_names := map str ["ratchetKey"; "counter"; "previousCounter"; "ciphertext"];
  fields_sorted_by_name := [3; 1; 2; 0]%nat; n_field_ranges := 1; field_ranges := [IntRange 1 0; IntRange 0 4] |}.

Definition textsecure__pre_key_signal_message__descriptor : message_descriptor := {|
  md_name := "textsecure.PreKeySignalMessage"; n_fields := 6; fields := textsecure__pre_key_signal_message__field_descriptors;
  field_names := map str ["preKeyId"; "baseKey"; "identityKey"; "message"; "registrationId"; "signedPreKeyId"];
  fields_sorted_by_name := [1; 2; 3; 0; 4; 5]%nat; n_field_ranges := 1; field_ranges := [IntRange 1 0; IntRange 0 6] |}.

Definition textsecure__key_exchange_message__descriptor : message_descriptor := {|
  md_name := "textsecure.KeyExchangeMessage"; n_fields := 5; fields := textsecure__key_exchange_message__field_descriptors;
  field_names := map str ["id"; "baseKey"; "ratchetKey"; "identityKey"; "baseKeySignature"];
  fields_sorted_by_name := [1; 4; 0; 3; 2]%nat; n_field_ranges := 1; field_ranges := [IntRange 1 0; IntRange 0 5] |}.

Definition textsecure__sender_key_message__descriptor : message_descriptor := {|
  md_name := "textsecure.SenderKeyMessage"; n_fields := 3; fields := textsecure__sender_key_message__field_descriptors;
  field_names := map str ["id"; "iteration"; "ciphertext"];
  fields_sorted_by_name := [2; 0; 1]%nat; n_field_ranges := 1; field_ranges := [IntRange 1 0; IntRange 0 3] |}.

Definition textsecure__sender_key_distribution_message__descriptor : message_descriptor := {|
  md_name := "textsecure.SenderKeyDistributionMessage"; n_fields := 4;
    fields := textsecure__sender_key_distribution_message__field_descriptors;
  field_names := map str ["id"; "iteration"; "chainKey"; "signingKey"];
  fields_sorted_by_name := [2; 0; 1; 3]%nat; n_field_ranges := 1; field_ranges := [IntRange 1 0; IntRange 0 4] |}.

Definition textsecure__fingerprint_data__descriptor : message_descriptor := {|
  md_name := "textsecure.FingerprintData"; n_fields := 2; fields := textsecure__fingerprint_data__field_descriptors;
  field_names := map str ["publicKey"; "identifier"];
  fields_sorted_by_name := [1; 0]%nat; n_field_ranges := 1; field_ranges := [IntRange 1 0; IntRange 0 2] |}.

Definition textsecure__combined_fingerprint__descriptor : message_descriptor := {|
  md_name := "textsecure.CombinedFingerprint"; n_fields := 3; fields := textsecure__combined_fingerprint__field_descriptors;
  field_names := map str ["version"; "localFingerprint"; "remoteFingerprint"];
  fields_sorted_by_name := [1; 2; 0]%nat; n_field_ranges := 1; field_ranges := [IntRange 1 0; IntRange 0 3] |}.

Definition all_descriptors : list message_descriptor :=
  [textsecure__session_structure__chain__chain_key__descriptor;
   textsecure__session_structure__chain__message_key__descriptor;
   textsecure__session_structure__chain__descriptor;
   textsecure__session_structure__pending_key_exchange__descriptor;
   textsecure__session_structure__pending_pre_key__descriptor;
   textsecure__session_structure__descriptor;
   textsecure__record_structure__descriptor;
   textsecure__pre_key_record_structure__descriptor;
   textsecure__signed_pre_key_record_structure__descriptor;
   textsecure__identity_key_pair_structure__descriptor;
   textsecure__sender_key_state_structure__sender_chain_key__descriptor;
   textsecure__sender_key_state_structure__sender_message_key__descriptor;
   textsecure__sender_key_state_structure__sender_signing_key__descriptor;
   textsecure__sender_key_state_structure__descriptor;
   textsecure__sender_key_record_structure__descriptor;
   textsecure__signal_message__descriptor;
   textsecure__pre_key_signal_message__descriptor;
   textsecure__key_exchange_message__descriptor;
   textsecure__sender_key_message__descriptor;
   textsecure__sender_key_distribution_message__descriptor;
   textsecure__fingerprint_data__descriptor;
   textsecure__combined_fingerprint__descriptor].

#[local] Close Scope string_scope.

(** ** Searches by number *)

Definition is_s32 (v : Z) : Prop := -2147483648 <= v < 2147483648.

(** A range and the one after it, which has the index where the range ends. *)
Definition segments (ranges : list ProtobufCIntRange) : list (ProtobufCIntRange * ProtobufCIntRange) := zip ranges (tail ranges).
Definition size (p : ProtobufCIntRange * ProtobufCIntRange) : Z := orig_index (snd p) - orig_index (fst p).
Definition covers (value : Z) (p : ProtobufCIntRange * ProtobufCIntRange) : Prop :=
  start_value (fst p) <= value < start_value (fst p) + size p.

(** The ranges are the runs of consecutive numbers in [ids], in order; all
    numbers are 31-bit. *)
Definition ranges_wf (n : nat) (ranges : list ProtobufCIntRange) (ids : list Z) : Prop :=
  length ranges = S n /\
  Forall (fun p => 0 <= start_value (fst p) /\ 0 <= orig_index (fst p) /\ 0 <= size p /\
    start_value (fst p) + size p < 2147483648 /\ orig_index (snd p) < 2147483648) (segments ranges) /\
  StronglySorted (fun p q => start_value (fst p) + size p <= start_value (fst q)) (segments ranges) /\
  Forall (fun p => take (Z.to_nat (size p)) (drop (Z.to_nat (orig_index (fst p))) ids) =
    seqZ (start_value (fst p)) (size p)) (segments ranges) /\
  Forall (fun j => Exists (fun p => orig_index (fst p) <= Z.of_nat j < orig_index (snd p)) (segments ranges)) (seq 0 (length ids)).
#[global] Instance ranges_wf_dec n ranges ids : Decision (ranges_wf n ranges ids).
Proof. unfold ranges_wf. apply _. Defined.

Lemma to_int_id z : is_s32 z -> s32 z = z.
Proof.
  unfold is_s32, s32, u32, UINT32_MOD. intros Hz. destruct (Z.lt_ge_cases z 0).
  - replace (z mod 4294967296) with (z + 4294967296) by (apply Z.mod_unique with (-1); lia).
    rewrite (proj2 (Z.ltb_ge _ _)) by lia. lia.
  - rewrite Z.mod_small by lia. rewrite (proj2 (Z.ltb_lt _ _)) by lia. done.
Qed.

Lemma segments_lookup ranges i r r' : segments ranges !! i = Some (r, r') <-> ranges !! i = Some r /\ ranges !! S i = Some r'.
Proof.
  unfold segments. rewrite lookup_zip_with_Some. setoid_rewrite lookup_tail. split.
  - intros (x & y & [= -> ->] & ? & ?). done.
  - intros [? ?]. eauto.
Qed.

Lemma Sorted_lookup {A} (R : A -> A -> Prop) l i j x y : StronglySorted R l -> (i < j)%nat -> l !! i = Some x -> l !! j = Some y -> R x y.
Proof.
  intros Hs. revert i j. induction Hs as [|a l _ IH Ha]; intros i j Hij Hi Hj; [done|]. destruct j as [|j]; [lia|].
  destruct i as [|i]; cbn in *; [|by eapply (IH i j); [lia| |]]. simplify_eq. rewrite Forall_forall in Ha. apply Ha. by eapply list_elem_of_lookup_2.
Qed.

Section ranges.
Context (n : nat) (ranges : list ProtobufCIntRange) (ids : list Z) (Hwf : ranges_wf n ranges ids).

Lemma segment_at i : (i < n)%nat -> exists r r', ranges !! i = Some r /\ ranges !! S i = Some r' /\ segments ranges !! i = Some (r, r').
Proof.
  intros Hi. destruct Hwf as [Hl _]. destruct (lookup_lt_is_Some_2 ranges i) as [r Hr]; [lia|].
  destruct (lookup_lt_is_Some_2 ranges (S i)) as [r' Hr']; [lia|]. exists r, r'. by rewrite segments_lookup.
Qed.

Lemma segment_lt i p : segments ranges !! i = Some p -> (i < n)%nat.
Proof. intros Hp. destruct p as [r r']. apply segments_lookup in Hp as [_ Hp]. apply lookup_lt_Some in Hp. destruct Hwf as [Hl _]. lia. Qed.

Lemma segment_bounds i r r' : segments ranges !! i = Some (r, r') ->
  0 <= start_value r /\ 0 <= orig_index r <= orig_index r' /\ orig_index r' < 2147483648 /\
  start_value r + (orig_index r' - orig_index r) < 2147483648.
Proof.
  destruct Hwf as (_ & Hb & _). rewrite Forall_forall in Hb. intros Hp%list_elem_of_lookup_2%Hb.
  unfold size in Hp. cbn in Hp. lia.
Qed.

Lemma segment_order i j p q : (i < j)%nat -> segments ranges !! i = Some p -> segments ranges !! j = Some q ->
  start_value (fst p) + size p <= start_value (fst q).
Proof. destruct Hwf as (_ & _ & Hs & _). intros Hij Hp Hq. by apply (Sorted_lookup _ _ _ _ _ _ Hs Hij). Qed.

(** A value is in one segment at most. *)
Lemma covers_unique value i j p q : segments ranges !! i = Some p -> covers value p -> segments ranges !! j = Some q -> covers value q -> i = j.
Proof.
  intros Hp Hcp Hq Hcq. unfold covers in *. destruct (Nat.lt_trichotomy i j) as [H|[H|H]]; [|done|].
  - pose proof (segment_order i j p q H Hp Hq). lia.
  - pose proof (segment_order j i q p H Hq Hp). lia.
Qed.

(** What the search returns. *)
Definition search_result (value k : Z) : Prop :=
  (k = -1 /\ forall i p, segments ranges !! i = Some p -> ~ covers value p) \/
  (exists i r r', segments ranges !! i = Some (r, r') /\ covers value (r, r') /\ k = value - start_value r + orig_index r).

Lemma int_range_search_ok value : is_s32 value -> forall fuel start m, (m < fuel)%nat -> (start + m <= n)%nat ->
  (forall i p, segments ranges !! i = Some p -> covers value p -> (start <= i < start + m)%nat) ->
  exists k, int_range_search fuel ranges start m value = Some k /\ search_result value k.
Proof.
  intros Hv. unfold is_s32 in Hv. induction fuel as [|fuel IH]; intros start m Hf Hm Hin; [lia|]. cbn [int_range_search].
  destruct (Nat.ltb_spec 1 m) as [H1|H1].
  - cbv zeta. pose proof (Nat.div_mod_eq m 2) as Hd. pose proof (Nat.mod_upper_bound m 2). set (h := (m / 2)%nat) in *.
    destruct (segment_at (start + h)%nat) as (r & r' & Hr & Hr' & Hs); [lia|]. rewrite Hr. cbn [mbind option_bind]. rewrite Hr'. cbn [mbind option_bind].
    destruct (segment_bounds _ _ _ Hs) as (B1 & B2 & B3 & B4). rewrite to_int_id by (unfold is_s32; lia).
    destruct (Z.ltb_spec value (start_value r)) as [Hlt|Hge]; [|destruct (Z.leb_spec (start_value r + (orig_index r' - orig_index r)) value) as [Hle|Hgt]].
    + apply IH; [lia|lia|]. intros i p Hp Hc. pose proof (Hin i p Hp Hc). destruct (Nat.lt_ge_cases i (start + h)%nat) as [|Hi]; [lia|exfalso].
      unfold covers in Hc. destruct (Nat.eq_dec i (start + h)%nat) as [->|]; [rewrite Hs in Hp; simplify_eq; cbn in Hc; lia|].
      pose proof (segment_order (start + h)%nat i _ p ltac:(lia) Hs Hp) as Ho. unfold size in *. cbn in Ho. lia.
    + apply IH; [lia|lia|]. intros i p Hp Hc. pose proof (Hin i p Hp Hc). destruct (Nat.lt_ge_cases (start + h)%nat i) as [|Hi]; [lia|exfalso].
      unfold covers in Hc. destruct (Nat.eq_dec i (start + h)%nat) as [->|]; [rewrite Hs in Hp; simplify_eq; unfold size in Hc; cbn in Hc; lia|].
      pose proof (segment_order i (start + h)%nat p _ ltac:(lia) Hp Hs) as Ho. cbn in Ho. lia.
    + eexists. split; [done|]. right. exists (start + h)%nat, r, r'. unfold covers, size. cbn. rewrite to_int_id by (unfold is_s32; lia). split; [done|lia].
  - destruct (Nat.ltb_spec 0 m) as [H0|H0].
    + assert (m = 1%nat) as -> by lia. destruct (segment_at start) as (r & r' & Hr & Hr' & Hs); [lia|]. rewrite Hr. cbn [mbind option_bind]. rewrite Hr'. cbn [mbind option_bind].
      destruct (segment_bounds _ _ _ Hs) as (B1 & B2 & B3 & B4). cbv zeta. unfold u32 at 1. rewrite Z.mod_small by (unfold UINT32_MOD; lia).
      rewrite to_int_id by (unfold is_s32; lia).
      destruct (Z.leb_spec (start_value r) value); [destruct (Z.ltb_spec value (start_value r + (orig_index r' - orig_index r)))|]; cbn [andb]; eexists; (split; [done|]).
      * right. exists start, r, r'. unfold covers, size. cbn. rewrite to_int_id by (unfold is_s32; lia). split; [done|lia].
      * left. split; [done|]. intros i p Hp Hc. pose proof (Hin i p Hp Hc). assert (i = start) as -> by lia. rewrite Hs in Hp. simplify_eq. unfold covers, size in Hc. cbn in Hc. lia.
      * left. split; [done|]. intros i p Hp Hc. pose proof (Hin i p Hp Hc). assert (i = start) as -> by lia. rewrite Hs in Hp. simplify_eq. unfold covers, size in Hc. cbn in Hc. lia.
    + eexists. split; [done|]. left. split; [done|]. intros i p Hp Hc. pose proof (Hin i p Hp Hc). lia.
Qed.

Lemma segment_ids i r r' k : segments ranges !! i = Some (r, r') -> 0 <= k < orig_index r' - orig_index r ->
  ids !! Z.to_nat (orig_index r + k) = Some (start_value r + k).
Proof.
  intros Hp Hk. pose proof (segment_bounds _ _ _ Hp) as Hb. destruct Hwf as (_ & _ & _ & Hi & _). rewrite Forall_forall in Hi.
  apply list_elem_of_lookup_2, Hi in Hp. unfold size in Hp. cbn in Hp.
  assert (seqZ (start_value r) (orig_index r' - orig_index r) !! Z.to_nat k = Some (start_value r + k)) as E.
  { rewrite lookup_seqZ_lt by lia. f_equal. lia. }
  rewrite <- Hp in E. rewrite lookup_take_lt, lookup_drop in E by lia. rewrite <- E. f_equal. lia.
Qed.

Lemma ids_segment j v : ids !! j = Some v -> exists i r r', segments ranges !! i = Some (r, r') /\ covers v (r, r') /\ Z.of_nat j = v - start_value r + orig_index r.
Proof.
  intros Hj. destruct Hwf as (_ & _ & _ & _ & Ha). rewrite Forall_forall in Ha.
  assert (j ∈ seq 0 (length ids)) as Hin by (apply elem_of_seq; apply lookup_lt_Some in Hj; lia).
  apply Ha in Hin. apply Exists_exists in Hin as ([r r'] & Hr & Ho). apply list_elem_of_lookup_1 in Hr as [i Hi]. cbn in Ho.
  exists i, r, r'. split; [done|]. pose proof (segment_ids i r r' (Z.of_nat j - orig_index r) Hi ltac:(lia)) as E.
  replace (Z.to_nat _) with j in E by lia. rewrite Hj in E. simplify_eq. unfold covers, size. cbn. lia.
Qed.

(** The binary search finds the index a search through all numbers finds. *)
Lemma int_range_lookup_ok value : is_s32 value -> exists k, int_range_lookup n ranges value = Some k /\
  (k = -1 \/ 0 <= k) /\ forall j, (0 <= k /\ Z.to_nat k = j) <-> ids !! j = Some value.
Proof.
  intros Hv. assert (exists k, int_range_lookup n ranges value = Some k /\ search_result value k) as (k & Ek & Hk).
  { unfold int_range_lookup. destruct (Nat.eqb_spec n 0) as [E|E].
    - eexists. split; [done|]. left. split; [done|]. intros i p Hp. apply segment_lt in Hp. lia.
    - apply int_range_search_ok; [done|lia|lia|]. intros i p Hp _. apply segment_lt in Hp. lia. }
  exists k. split; [done|]. destruct Hk as [[-> Hno]|(i & r & r' & Hs & Hc & ->)].
  - split; [by left|]. intros j. split; [lia|]. intros (i & r & r' & Hs & Hc & _)%ids_segment. by destruct (Hno i (r, r') Hs).
  - pose proof (segment_bounds _ _ _ Hs) as Hb. pose proof Hc as Hc'. unfold covers, size in Hc'. cbn in Hc'. split; [lia|]. intros j. split.
    + intros [_ <-]. pose proof (segment_ids i r r' (value - start_value r) Hs ltac:(lia)) as E.
      replace (start_value r + (value - start_value r)) with value in E by lia. rewrite <- E. f_equal. lia.
    + intros (i' & s & s' & Hs' & Hc2 & Hj)%ids_segment. pose proof (covers_unique _ _ _ _ _ Hs Hc Hs' Hc2) as <-. rewrite Hs in Hs'. simplify_eq. lia.
Qed.
End ranges.

(** ** Searches by name *)

Definition sorted_names (names : list bytes) : Prop := StronglySorted (fun a b => strcmp a b < 0) names.
#[global] Instance sorted_names_dec names : Decision (sorted_names names).
Proof. unfold sorted_names. apply _. Defined.

Lemma name_search_ok names key name : sorted_names names -> (forall i, (i < length names)%nat -> key i = names !! i) ->
  forall fuel start count, (count < fuel)%nat -> (start + count <= length names)%nat ->
  (forall i, names !! i = Some name -> (start <= i < start + count)%nat) ->
  exists r, name_search fuel key start count name = Some r /\ forall i, r = Some i <-> names !! i = Some name.
Proof.
  intros Hs Hkey. assert (forall i j, names !! i = Some name -> (i < j)%nat -> forall k, names !! j = Some k -> strcmp name k < 0) as Hlt.
  { intros i j Hi Hij k Hk. by apply (Sorted_lookup _ _ _ _ _ _ Hs Hij). }
  assert (forall i j, names !! i = Some name -> (j < i)%nat -> forall k, names !! j = Some k -> strcmp k name < 0) as Hgt.
  { intros i j Hi Hij k Hk. by apply (Sorted_lookup _ _ _ _ _ _ Hs Hij). }
  induction fuel as [|fuel IH]; intros start count Hf Hc Hin; [lia|]. cbn [name_search].
  assert (forall m, (m < length names)%nat -> exists k, names !! m = Some k /\ key m = Some k) as Hget.
  { intros m Hm. destruct (lookup_lt_is_Some_2 names m Hm) as [k Hk]. exists k. rewrite Hkey by done. done. }
  assert (forall m k, names !! m = Some k -> strcmp k name = 0 -> forall i, Some m = Some i <-> names !! i = Some name) as Hfound.
  { intros m k Hk E%strcmp_0 i. subst k. split; [by intros [= <-]|]. intros Hi. f_equal. destruct (Nat.lt_trichotomy i m) as [H|[H|H]]; [|done|].
    - pose proof (Hlt i m Hi H _ Hk) as H'. rewrite (proj2 (strcmp_0 name name) eq_refl) in H'. lia.
    - pose proof (Hgt i m Hi H _ Hk) as H'. rewrite (proj2 (strcmp_0 name name) eq_refl) in H'. lia. }
  destruct (Nat.ltb_spec 1 count) as [H1|H1].
  - cbv zeta. pose proof (Nat.div_mod_eq count 2). pose proof (Nat.mod_upper_bound count 2). set (h := (count / 2)%nat) in *.
    destruct (Hget (start + h)%nat) as (k & Hk & ->); [lia|]. cbn [mbind option_bind].
    destruct (Z.eqb_spec (strcmp k name) 0) as [E|E]; [eexists; split; [done|by eapply Hfound]|]. destruct (Z.ltb_spec (strcmp k name) 0) as [L|G].
    + apply IH; [lia|lia|]. intros i Hi. pose proof (Hin i Hi). destruct (Nat.lt_trichotomy i (start + h)%nat) as [X|[->|X]]; [| |lia].
      * pose proof (Hlt i (start + h)%nat Hi X k Hk). rewrite strcmp_antisym in L. lia.
      * rewrite Hk in Hi. simplify_eq. by rewrite (proj2 (strcmp_0 name name) eq_refl) in E.
    + apply IH; [lia|lia|]. intros i Hi. pose proof (Hin i Hi). destruct (Nat.lt_trichotomy i (start + h)%nat) as [X|[->|X]]; [lia| |].
      * rewrite Hk in Hi. simplify_eq. by rewrite (proj2 (strcmp_0 name name) eq_refl) in E.
      * pose proof (Hgt i (start + h)%nat Hi X k Hk). lia.
  - destruct (Nat.eqb_spec count 0) as [H0|H0].
    + eexists. split; [done|]. intros i. split; [done|]. intros Hi. pose proof (Hin i Hi). lia.
    + destruct (Hget start) as (k & Hk & ->); [lia|]. cbn [mbind option_bind]. eexists. split; [done|].
      destruct (Z.eqb_spec (strcmp k name) 0) as [E|E]; [by eapply Hfound|]. intros i. split; [done|]. intros Hi. pose proof (Hin i Hi).
      assert (i = start) as -> by lia. rewrite Hk in Hi. simplify_eq. by rewrite (proj2 (strcmp_0 name name) eq_refl) in E.
Qed.

(** [order] is the order of the names: every entry occurs in it once. *)
Definition name_order (order : list nat) (entries : list bytes) : Prop :=
  length order = length entries /\ Forall (fun j => (j < length entries)%nat) order /\
  Forall (fun j => j ∈ order) (seq 0 (length entries)) /\
  sorted_names (omap (fun j => entries !! j) order).
#[global] Instance name_order_dec order entries : Decision (name_order order entries).
Proof. unfold name_order. apply _. Defined.

Lemma omap_lookup_all {A} (f : nat -> option A) order i : Forall (fun j => is_Some (f j)) order ->
  omap f order !! i = (j ← order !! i; f j).
Proof.
  intros H. revert i. induction H as [|j order [a Ha] _ IH]; intros i; [done|]. cbn [omap list_omap]. rewrite Ha. destruct i; cbn; [by rewrite Ha|apply IH].
Qed.

(** The search through an index finds the entry of a name. *)
Lemma indexed_search_ok order entries name : name_order order entries ->
  exists r, found (name_search (S (length entries)) (fun i => j ← order !! i; entries !! j) 0 (length entries) name) (fun i => order !! i) = Some r /\
    forall j, r = Some j <-> entries !! j = Some name.
Proof.
  intros (Hl & Hb & Ha & Hs). set (names := omap (fun j => entries !! j) order) in *.
  assert (forall i, names !! i = (j ← order !! i; entries !! j)) as Hn.
  { intros i. apply omap_lookup_all. eapply Forall_impl; [exact Hb|]. intros j Hj. by apply lookup_lt_is_Some. }
  assert (length names = length entries) as Hln.
  { rewrite <- Hl. unfold names. clear -Hb. induction Hb as [|j order Hj _ IH]; [done|]. cbn [omap list_omap].
    destruct (lookup_lt_is_Some_2 entries j Hj) as [b ->]. cbn. by rewrite IH. }
  destruct (name_search_ok names (fun i => j ← order !! i; entries !! j) name Hs ltac:(intros; by rewrite Hn) (S (length entries)) 0 (length entries)) as (r & -> & Hr);
    [lia|lia|intros i Hi%lookup_lt_Some; lia|].
  assert (forall j, entries !! j = Some name <-> exists i, r = Some i /\ order !! i = Some j) as Hj.
  { intros j. split.
    - intros Hj. rewrite Forall_forall in Ha. assert (j ∈ order) as [i Hi]%list_elem_of_lookup_1.
      { apply Ha, elem_of_seq. apply lookup_lt_Some in Hj. lia. }
      exists i. split; [|done]. apply Hr. rewrite Hn, Hi. exact Hj.
    - intros (i & Hi & Hoi). apply Hr in Hi. rewrite Hn, Hoi in Hi. exact Hi. }
  destruct r as [i|]; cbn.
  - destruct (order !! i) as [j0|] eqn:E; cbn.
    + eexists. split; [done|]. intros j. rewrite Hj. split; [intros [= ->]; eauto|]. intros (i' & [= <-] & H'). congruence.
    + exfalso. pose proof (proj1 (Hr i) eq_refl) as H'. rewrite Hn, E in H'. done.
  - eexists. split; [done|]. intros j. rewrite Hj. split; [done|]. by intros (i & ? & _).
Qed.

(** ** Descriptors *)

Definition field_ids (desc : message_descriptor) : list Z := map (fun f : field => fst (fst f)) (fields desc).

(** What the tables of a descriptor have to be. *)
Definition descriptor_wf (desc : message_descriptor) : Prop :=
  length (fields desc) = n_fields desc /\ length (field_names desc) = n_fields desc /\
  ranges_wf (n_field_ranges desc) (field_ranges desc) (field_ids desc) /\
  name_order (fields_sorted_by_name desc) (field_names desc).
#[global] Instance descriptor_wf_dec desc : Decision (descriptor_wf desc).
Proof. unfold descriptor_wf. apply _. Defined.

Lemma all_descriptors_wf : Forall descriptor_wf all_descriptors.
Proof. by apply (bool_decide_unpack _); vm_compute. Qed.

Lemma to_int_range z : is_s32 (s32 z).
Proof. unfold is_s32, s32, u32, UINT32_MOD. pose proof (Z.mod_pos_bound z 4294967296). destruct (Z.ltb_spec (z mod 4294967296) 2147483648); lia. Qed.

Lemma ids_31_bit n ranges ids j v : ranges_wf n ranges ids -> ids !! j = Some v -> 0 <= v < 2147483648.
Proof.
  intros Hw Hj. destruct (ids_segment n ranges ids Hw j v Hj) as (i & r & r' & Hs & Hc & _).
  pose proof (segment_bounds n ranges ids Hw _ _ _ Hs). unfold covers, size in Hc. cbn in Hc. lia.
Qed.

Lemma get_field_ok desc tag : descriptor_wf desc -> is_u32 tag ->
  exists r, protobuf_c_message_descriptor_get_field desc tag = Some r /\ forall j, r = Some j <-> field_ids desc !! j = Some tag.
Proof.
  intros (_ & _ & Hr & _) Ht. destruct (int_range_lookup_ok _ _ _ Hr (s32 tag) (to_int_range tag)) as (k & Ek & Hk & Hj).
  unfold protobuf_c_message_descriptor_get_field. rewrite Ek. cbn [mbind option_bind]. eexists. split; [done|]. intros j.
  assert (field_ids desc !! j = Some (s32 tag) <-> field_ids desc !! j = Some tag) as <-.
  { unfold is_u32, UINT32_MOD in Ht. split; intros E; pose proof (ids_31_bit _ _ _ _ _ Hr E) as Hb; rewrite E; f_equal.
    - unfold s32, u32, UINT32_MOD in Hb |- *. rewrite Z.mod_small in Hb |- * by lia. destruct (tag <? 2147483648); lia.
    - symmetry. apply to_int_id. unfold is_s32. lia. }
  rewrite <- Hj. destruct (Z.ltb_spec k 0); split; try done; try lia.
  - intros [= <-]. lia.
  - intros [_ <-]. done.
Qed.

(** Trying the last field found first makes no difference. *)
Lemma lookup_field_ok desc last_field tag : descriptor_wf desc -> is_u32 tag -> (forall i, last_field = Some i -> (i < n_fields desc)%nat) ->
  exists r, lookup_field desc last_field tag = Some r /\ forall j, r = Some j <-> field_ids desc !! j = Some tag.
Proof.
  intros Hw Ht Hlast. destruct (get_field_ok desc tag Hw Ht) as (r & Er & Hr). unfold lookup_field. destruct last_field as [i|]; [|by exists r].
  destruct (lookup_lt_is_Some_2 (fields desc) i) as [f Hf]; [destruct Hw as [-> _]; by apply Hlast|]. rewrite Hf. cbn [mbind option_bind].
  destruct (Z.eqb_spec (fst (fst f)) tag) as [E|E]; [|by exists r]. exists (Some i). split; [done|].
  assert (r = Some i) as <-; [|done]. apply Hr. unfold field_ids. by rewrite list_lookup_fmap, Hf; cbn; rewrite E.
Qed.

(** The field the parser of a member takes. *)
Lemma field_parse_lookup pv fs m :
  (field_parse pv fs m = None /\ forall j f, fs !! j = Some f -> fst (fst f) <> m_tag m) \/
  exists i rep t, fs !! i = Some (m_tag m, rep, t) /\ field_parse pv fs m = Some (i, rep, t, pv t m).
Proof.
  induction fs as [|[[id rep] t] fs IH]; cbn [field_parse]; [by left|]. destruct (Z.eqb_spec id (m_tag m)) as [->|E].
  - right. by exists 0%nat, rep, t.
  - destruct IH as [[-> Hno]|(i & rep' & t' & Hi & ->)].
    + left. split; [done|]. intros [|j] f Hj; cbn in Hj; [by simplify_eq|by eapply Hno].
    + right. by exists (S i), rep', t'.
Qed.

Lemma field_parse_by_index pv desc m r : (forall j, r = Some j <-> field_ids desc !! j = Some (m_tag m)) ->
  field_parse pv (fields desc) m = (i ← r; f ← fields desc !! i; Some (i, snd (fst f), snd f, pv (snd f) m)).
Proof.
  intros Hr. unfold field_ids in Hr. destruct (field_parse_lookup pv (fields desc) m) as [[-> Hno]|(i & rep & t & Hi & ->)].
  - destruct r as [j|]; [|done]. exfalso. pose proof (proj1 (Hr j) eq_refl) as H. rewrite list_lookup_fmap in H.
    destruct (fields desc !! j) as [f|] eqn:E; [|done]. cbn in H. simplify_eq. by apply (Hno j f E).
  - assert (r = Some i) as -> by (apply Hr; by rewrite list_lookup_fmap, Hi). cbn. by rewrite Hi.
Qed.

(** C40: in every descriptor of the library the search for a tag, with or without a
    last field, reads inside the tables and finds the field of that number, so
    that a member is parsed as the field that a search through all fields
    finds; the search for a name finds the field of that name. *)
Theorem generated_descriptors_are_searched_right desc last_field tag name :
  desc ∈ all_descriptors -> is_u32 tag -> (forall i, last_field = Some i -> (i < n_fields desc)%nat) ->
  (exists r, lookup_field desc last_field tag = Some r /\
    (forall j, r = Some j <-> field_ids desc !! j = Some tag) /\
    forall pv m, m_tag m = tag ->
      field_parse pv (fields desc) m = (i ← r; f ← fields desc !! i; Some (i, snd (fst f), snd f, pv (snd f) m))) /\
  (exists r, protobuf_c_message_descriptor_get_field_by_name desc name = Some r /\
    forall j, r = Some j <-> field_names desc !! j = Some name).
Proof.
  intros Hd Ht Hlast. pose proof all_descriptors_wf as Hall. rewrite Forall_forall in Hall. pose proof (Hall desc Hd) as Hw. split.
  - destruct (lookup_field_ok desc last_field tag Hw Ht Hlast) as (r & Er & Hr). exists r. split; [done|]. split; [done|].
    intros pv m <-. by apply field_parse_by_index.
  - destruct Hw as (_ & Hn & _ & Ho). unfold protobuf_c_message_descriptor_get_field_by_name. rewrite <- Hn. by apply indexed_search_ok.
Qed.

Lemma generated_descriptors_are_searched_right_witness :
  textsecure__session_structure__pending_key_exchange__descriptor ∈ all_descriptors /\
  lookup_field textsecure__session_structure__pending_key_exchange__descriptor (Some 2%nat) 8 = Some (Some 6%nat) /\
  exists r, protobuf_c_message_descriptor_get_field_by_name textsecure__session_structure__pending_key_exchange__descriptor
    (str "localRatchetKey") = Some r /\
    forall j, r = Some j <-> field_names textsecure__session_structure__pending_key_exchange__descriptor !! j = Some (str "localRatchetKey").
Proof.
  assert (textsecure__session_structure__pending_key_exchange__descriptor ∈ all_descriptors) as H by (do 3 apply list_elem_of_further; apply list_elem_of_here).
  split; [exact H|split; [reflexivity|]].
  apply (generated_descriptors_are_searched_right _ (Some 2%nat) 8 _ H); [unfold is_u32, UINT32_MOD; lia|]. intros i [= <-]. cbn. lia.
Defined.

(** The searches in an enumeration and in a service, where their tables are in
    order. *)
Theorem enumerations_are_searched_right desc value name :
  sorted_names (map fst (ed_by_name desc)) -> length (ed_by_name desc) = n_value_names desc ->
  ranges_wf (n_value_ranges desc) (value_ranges desc) (map snd (ed_values desc)) -> is_s32 value ->
  (exists r, protobuf_c_enum_descriptor_get_value desc value = Some r /\ forall j, r = Some j <-> map snd (ed_values desc) !! j = Some value) /\
  (exists r, protobuf_c_enum_descriptor_get_value_by_name desc name = Some r /\ forall j, r = Some j <-> (name, j) ∈ ed_by_name desc).
Proof.
  intros Hs Hl Hr Hv. split.
  - destruct (int_range_lookup_ok _ _ _ Hr value Hv) as (k & Ek & Hk & Hj). unfold protobuf_c_enum_descriptor_get_value. rewrite Ek. cbn [mbind option_bind].
    eexists. split; [done|]. intros j. rewrite <- Hj. destruct (Z.ltb_spec k 0); split; try done; try lia; [intros [= <-]; lia|intros [_ <-]; done].
  - unfold protobuf_c_enum_descriptor_get_value_by_name. rewrite <- Hl.
    assert (length (map fst (ed_by_name desc)) = length (ed_by_name desc)) as Hlm by apply length_map.
    destruct (name_search_ok _ (fun i => fst <$> ed_by_name desc !! i) name Hs ltac:(intros; by rewrite list_lookup_fmap) (S (length (ed_by_name desc))) 0
      (length (ed_by_name desc))) as (r & -> & Hn); [lia|lia|intros i Hi%lookup_lt_Some; lia|].
    assert (forall j, (name, j) ∈ ed_by_name desc <-> exists i, r = Some i /\ snd <$> ed_by_name desc !! i = Some j) as Hj.
    { intros j. split.
      - intros [i Hi]%list_elem_of_lookup_1. exists i. rewrite Hi. split; [|done]. apply Hn. by rewrite list_lookup_fmap, Hi.
      - intros (i & Hi & Hij). apply Hn in Hi. rewrite list_lookup_fmap in Hi. destruct (ed_by_name desc !! i) as [[a b]|] eqn:E; [|done].
        cbn in *. simplify_eq. by eapply list_elem_of_lookup_2. }
    destruct r as [i|]; cbn.
    + pose proof (proj1 (Hn i) eq_refl) as Hi. rewrite list_lookup_fmap in Hi. destruct (ed_by_name desc !! i) as [[a b]|] eqn:E; [|done]. cbn.
      eexists. split; [done|]. intros j. rewrite Hj. split; [intros [= <-]; exists i; by rewrite E|]. intros (i' & [= <-] & H'). rewrite E in H'. done.
    + eexists. split; [done|]. intros j. rewrite Hj. split; [done|]. by intros (i & ? & _).
Qed.

Theorem services_are_searched_right desc name : name_order (method_indices_by_name desc) (methods desc) -> length (methods desc) = n_methods desc ->
  exists r, protobuf_c_service_descriptor_get_method_by_name desc name = Some r /\ forall j, r = Some j <-> methods desc !! j = Some name.
Proof. intros Ho Hl. unfold protobuf_c_service_descriptor_get_method_by_name. rewrite <- Hl. by apply indexed_search_ok. Qed.
