(* ===== verification/ProtobufPack.v ===== *)
(** protobuf-c/protobuf-c.c: the writer with all its field types, labels and
    flags, in its three forms: the size of a message, the message written to
    memory, and the message appended piece by piece to a virtual buffer, of
    which the runtime has one implementation, [ProtobufCBufferSimple].  The
    three agree, and agree with the model of the writer in Protobuf.v. *)
From stdpp Require Import base list.
From Stdlib Require Import ZArith Lia.
From S2P Require Import Prelude Protobuf MachineInt ProtobufScalars.
#[local] Open Scope Z_scope.

(** ** Descriptors and messages *)

Inductive ProtobufCLabel : Type := REQUIRED | OPTIONAL | REPEATED.

Inductive ProtobufCType : Type :=
| TYPE_INT32 | TYPE_SINT32 | TYPE_SFIXED32 | TYPE_INT64 | TYPE_SINT64 | TYPE_SFIXED64
| TYPE_UINT32 | TYPE_FIXED32 | TYPE_UINT64 | TYPE_FIXED64 | TYPE_FLOAT | TYPE_DOUBLE
| TYPE_BOOL | TYPE_ENUM | TYPE_STRING | TYPE_BYTES | TYPE_MESSAGE.

(** [fd_packed] and [fd_oneof] are the flags. *)
Record ProtobufCFieldDescriptor : Type := FieldDescriptor {
  fd_id : Z;
  fd_label : ProtobufCLabel;
  fd_type : ProtobufCType;
  fd_packed : bool;
  fd_oneof : bool
}.

Record ProtobufCMessageUnknownField : Type := UnknownField {
  uf_tag : Z;
  uf_wire_type : Z;
  uf_data : bytes
}.

(** A pointer: null, the default value of its field, or another one. *)
Inductive pointer : Type := NullPointer | DefaultPointer | Pointer.

(** A member; what a null pointer points to is not used.  A message has for
    every field the descriptor, the quantifier ([has], the case of a oneof) and
    its members: one, or the array if the field is repeated. *)
Inductive cvalue : Type :=
| CInt (z : Z)
| CString (p : pointer) (str : bytes)
| CBytes (b : bytes)
| CMessage (p : pointer) (fields : list (ProtobufCFieldDescriptor * Z * list cvalue)) (unknown : list ProtobufCMessageUnknownField).

Abbreviation cfield := (ProtobufCFieldDescriptor * Z * list cvalue)%type.

(** [ptr == NULL || ptr == field->default_value]. *)
Definition is_unset (v : cvalue) : bool :=
  match v with
  | CString p _ | CMessage p _ _ => match p with Pointer => false | _ => true end
  | _ => false
  end.

(** How the numbers of a type are written; the other types have a length. *)
Definition packable_of (t : ProtobufCType) : option packable :=
  match t with
  | TYPE_SINT32 => Some PSint32
  | TYPE_INT32 => Some PInt32
  | TYPE_UINT32 | TYPE_ENUM => Some PUint32
  | TYPE_SINT64 => Some PSint64
  | TYPE_INT64 | TYPE_UINT64 => Some PUint64
  | TYPE_SFIXED32 | TYPE_FIXED32 | TYPE_FLOAT => Some PFixed32
  | TYPE_SFIXED64 | TYPE_FIXED64 | TYPE_DOUBLE => Some PFixed64
  | TYPE_BOOL => Some PBool
  | TYPE_STRING | TYPE_BYTES | TYPE_MESSAGE => None
  end.

Definition wire_type_of (t : ProtobufCType) : Z :=
  match packable_of t with
  | Some PFixed32 => WIRE_32BIT
  | Some PFixed64 => WIRE_64BIT
  | Some _ => WIRE_VARINT
  | None => WIRE_LENGTH_PREFIXED
  end.

Definition is_pointer_type (t : ProtobufCType) : bool := match t with TYPE_STRING | TYPE_MESSAGE => true | _ => false end.

(** The integers of an array; [None] if the members are of another type. *)
Fixpoint ints (vs : list cvalue) : option (list Z) :=
  match vs with
  | [] => Some []
  | CInt z :: vs' => l ← ints vs'; Some (z :: l)
  | _ => None
  end.

(** ** Sizes *)

Definition scalar_size (p : packable) (z : Z) : Z :=
  match p with
  | PInt32 => int32_size z
  | PSint32 => sint32_size z
  | PUint32 => uint32_size z
  | PUint64 => uint64_size z
  | PSint64 => sint64_size z
  | PFixed32 => 4
  | PFixed64 => 8
  | PBool => 1
  end.

Definition prefixed_size (len : Z) : Z := uint32_size (u32 len) + len.

Definition add_sizes (l : list (option Z)) : option Z := foldr (fun a b => x ← a; y ← b; Some (x + y)) (Some 0) l.

(** [message_size] is [protobuf_c_message_get_packed_size] of the message a
    member points to.  [None] is a null pointer followed, or a member that is
    not of the type of its field; sizes are of type [size_t] and are not
    wrapped around. *)
Definition required_field_get_packed_size (message_size : cvalue -> option Z) (field : ProtobufCFieldDescriptor) (member : cvalue) : option Z :=
  let rv := get_tag_size (fd_id field) in
  match packable_of (fd_type field) with
  | Some p => if member is CInt z then Some (rv + scalar_size p z) else None
  | None =>
      match fd_type field, member with
      | TYPE_STRING, CString p str => Some (rv + prefixed_size (if p is NullPointer then 0 else blen str))
      | TYPE_BYTES, CBytes b => Some (rv + prefixed_size (blen b))
      | TYPE_MESSAGE, CMessage p _ _ =>
          subrv ← (if p is NullPointer then Some 0 else message_size member);
          Some (rv + prefixed_size subrv)
      | _, _ => None
      end
  end.

Definition oneof_field_get_packed_size (message_size : cvalue -> option Z) (field : ProtobufCFieldDescriptor) (oneof_case : Z) (member : cvalue) : option Z :=
  if oneof_case =? fd_id field then
    if is_pointer_type (fd_type field) && is_unset member then Some 0
    else required_field_get_packed_size message_size field member
  else Some 0.

Definition optional_field_get_packed_size (message_size : cvalue -> option Z) (field : ProtobufCFieldDescriptor) (has : Z) (member : cvalue) : option Z :=
  if is_pointer_type (fd_type field) then
    if is_unset member then Some 0 else required_field_get_packed_size message_size field member
  else if has =? 0 then Some 0 else required_field_get_packed_size message_size field member.

(** The size of a member of an array, without a tag. *)
Definition array_member_size (message_size : cvalue -> option Z) (field : ProtobufCFieldDescriptor) (member : cvalue) : option Z :=
  match packable_of (fd_type field) with
  | Some p => if member is CInt z then Some (scalar_size p z) else None
  | None =>
      match fd_type field, member with
      | TYPE_STRING, CString p str => if p is NullPointer then None else Some (prefixed_size (blen str))
      | TYPE_BYTES, CBytes b => Some (prefixed_size (blen b))
      | TYPE_MESSAGE, CMessage p _ _ => if p is NullPointer then None else len ← message_size member; Some (prefixed_size len)
      | _, _ => None
      end
  end.

Definition repeated_field_get_packed_size (message_size : cvalue -> option Z) (field : ProtobufCFieldDescriptor) (array : list cvalue) : option Z :=
  match array with
  | [] => Some 0
  | _ =>
      let header_size := get_tag_size (fd_id field) * (if fd_packed field then 1 else Z.of_nat (length array)) in
      rv ← add_sizes (map (array_member_size message_size field) array);
      Some (header_size + (if fd_packed field then uint32_size (u32 rv) else 0) + rv)
  end.

Definition unknown_field_get_packed_size (field : ProtobufCMessageUnknownField) : Z := get_tag_size (uf_tag field) + blen (uf_data field).

(** The round of a loop over the fields of a message. *)
Definition by_label {A} (field : cfield) (required : cvalue -> A) (oneof optional : Z -> cvalue -> A) (repeated : list cvalue -> A) (ill : A) : A :=
  let '(f, q, vs) := field in
  match fd_label f, vs with
  | REPEATED, _ => repeated vs
  | REQUIRED, [v] => required v
  | OPTIONAL, [v] => if fd_oneof f then oneof q v else optional q v
  | _, _ => ill
  end.

Fixpoint protobuf_c_message_get_packed_size (message : cvalue) : option Z :=
  match message with
  | CMessage _ fields unknown =>
      let rec := protobuf_c_message_get_packed_size in
      let field_size (x : cfield) :=
        by_label x (required_field_get_packed_size rec (fst (fst x))) (oneof_field_get_packed_size rec (fst (fst x)))
          (optional_field_get_packed_size rec (fst (fst x))) (repeated_field_get_packed_size rec (fst (fst x))) None in
      rv ← add_sizes (map field_size fields);
      Some (rv + sumZ (map unknown_field_get_packed_size unknown))
  | _ => None
  end.

(** ** Writing to memory *)

Definition concat_parts (l : list (option bytes)) : option bytes := foldr (fun a b => x ← a; y ← b; Some (x ++ y)) (Some []) l.

(** The message is written behind a gap of one octet and moved if its length
    needs more. *)
Definition prefixed_message_pack (message_pack : cvalue -> option bytes) (message : cvalue) : option bytes :=
  if message is CMessage NullPointer _ _ then Some [0]
  else
    out ← message_pack message;
    let prefix := uint32_pack (u32 (blen out)) in
    let rv_packed_size := uint32_size (u32 (blen out)) in
    Some (prefix ++ drop (length prefix) (replicate (Z.to_nat rv_packed_size) 0) ++ out).

Definition required_field_pack (message_pack : cvalue -> option bytes) (field : ProtobufCFieldDescriptor) (member : cvalue) : option bytes :=
  let out := field_tag (fd_id field) (wire_type_of (fd_type field)) in
  match packable_of (fd_type field) with
  | Some p => if member is CInt z then Some (out ++ element_pack p z) else None
  | None =>
      match fd_type field, member with
      | TYPE_STRING, CString p str => Some (out ++ string_pack (if p is NullPointer then None else Some str))
      | TYPE_BYTES, CBytes b => Some (out ++ binary_data_pack b)
      | TYPE_MESSAGE, CMessage _ _ _ => sub ← prefixed_message_pack message_pack member; Some (out ++ sub)
      | _, _ => None
      end
  end.

Definition oneof_field_pack (message_pack : cvalue -> option bytes) (field : ProtobufCFieldDescriptor) (oneof_case : Z) (member : cvalue) : option bytes :=
  if oneof_case =? fd_id field then
    if is_pointer_type (fd_type field) && is_unset member then Some [] else required_field_pack message_pack field member
  else Some [].

Definition optional_field_pack (message_pack : cvalue -> option bytes) (field : ProtobufCFieldDescriptor) (has : Z) (member : cvalue) : option bytes :=
  if is_pointer_type (fd_type field) then
    if is_unset member then Some [] else required_field_pack message_pack field member
  else if has =? 0 then Some [] else required_field_pack message_pack field member.

Definition repeated_field_pack (message_pack : cvalue -> option bytes) (field : ProtobufCFieldDescriptor) (array : list cvalue) : option bytes :=
  if fd_packed field then
    l ← ints array;
    p ← packable_of (fd_type field);
    packed_field_pack (fd_id field) p l
  else concat_parts (map (required_field_pack message_pack field) array).

Definition unknown_field_pack (field : ProtobufCMessageUnknownField) : bytes := field_tag (uf_tag field) (uf_wire_type field) ++ uf_data field.

Fixpoint protobuf_c_message_pack (message : cvalue) : option bytes :=
  match message with
  | CMessage _ fields unknown =>
      let rec := protobuf_c_message_pack in
      let field_pack (x : cfield) :=
        by_label x (required_field_pack rec (fst (fst x))) (oneof_field_pack rec (fst (fst x)))
          (optional_field_pack rec (fst (fst x))) (repeated_field_pack rec (fst (fst x))) None in
      out ← concat_parts (map field_pack fields);
      Some (out ++ concat (map unknown_field_pack unknown))
  | _ => None
  end.

(** ** Buffers *)

(** [ProtobufCBuffer] has one operation, which takes the octets to append;
    [None] is undefined behaviour. *)
Class ProtobufCBuffer (B : Type) : Type := append : B -> bytes -> option B.

(** What a buffer promises: as long as there is room for them, the octets are
    added to its contents. *)
Class BufferLaws (B : Type) `{ProtobufCBuffer B} : Type := {
  contents : B -> bytes;
  valid : B -> Prop;
  capacity : Z;
  append_ok b data : valid b -> blen (contents b) + blen data <= capacity ->
    exists b', append b data = Some b' /\ valid b' /\ contents b' = contents b ++ data
}.

Record ProtobufCBufferSimple : Type := BufferSimple {
  alloced : Z;
  sb_data : bytes;  (** the first [len] octets of [data] *)
  must_free_data : bool
}.

(** [while (new_alloced < new_len) new_alloced += new_alloced]; from one octet on
    64 rounds reach every [size_t]. *)
Fixpoint grow (fuel : nat) (new_alloced new_len : Z) : option Z :=
  if new_alloced <? new_len then
    match fuel with
    | O => None
    | S fuel' => grow fuel' (u64 (new_alloced + new_alloced)) new_len
    end
  else Some new_alloced.

(** [do_alloc] tells whether memory of a size can be had. *)
Definition protobuf_c_buffer_simple_append (do_alloc : Z -> bool) (simp : ProtobufCBufferSimple) (data : bytes) : option ProtobufCBufferSimple :=
  let new_len := u64 (blen (sb_data simp) + blen data) in
  if alloced simp <? new_len then
    new_alloced ← grow 64 (u64 (alloced simp * 2)) new_len;
    if do_alloc new_alloced then Some (BufferSimple new_alloced (sb_data simp ++ data) true) else Some simp
  else Some (BufferSimple (alloced simp) (sb_data simp ++ data) (must_free_data simp)).

Definition PROTOBUF_C_BUFFER_SIMPLE_INIT (size : Z) : ProtobufCBufferSimple := BufferSimple size [] false.

(** The first [n] octets of [data]; [None] if they were not written. *)
Definition simple_read (simp : ProtobufCBufferSimple) (n : Z) : option bytes :=
  if n <=? blen (sb_data simp) then Some (take (Z.to_nat n) (sb_data simp)) else None.

(** ** Writing to buffers *)

(** A loop that adds up what is written. *)
Definition write_all {A B} (step : A -> B -> option (Z * B)) : list A -> B -> option (Z * B) :=
  fix loop l b :=
    match l with
    | [] => Some (0, b)
    | a :: l' =>
        ' (n, b1) ← step a b;
        ' (m, b2) ← loop l' b1;
        Some (n + m, b2)
    end.

Definition write_one {B} `{ProtobufCBuffer B} (data : bytes) (b : B) : option (Z * B) := b' ← append b data; Some (blen data, b').

(** [append] of the tag and the length, then of the data. *)
Definition write_prefixed {B} `{ProtobufCBuffer B} (tag data : bytes) (b : B) : option (Z * B) :=
  let header := tag ++ uint32_pack (u32 (blen data)) in
  b1 ← append b header;
  b2 ← append b1 data;
  Some (blen header + blen data, b2).

Section to_buffer.
Context {B : Type} `{ProtobufCBuffer B} (message_pack_to_buffer : cvalue -> ProtobufCBufferSimple -> option (Z * ProtobufCBufferSimple)).

Definition required_field_pack_to_buffer (field : ProtobufCFieldDescriptor) (member : cvalue) (b : B) : option (Z * B) :=
  let scratch := field_tag (fd_id field) (wire_type_of (fd_type field)) in
  match packable_of (fd_type field) with
  | Some p => if member is CInt z then write_one (scratch ++ element_pack p z) b else None
  | None =>
      match fd_type field, member with
      | TYPE_STRING, CString p str => write_prefixed scratch (if p is NullPointer then [] else str) b
      | TYPE_BYTES, CBytes d => write_prefixed scratch d b
      | TYPE_MESSAGE, CMessage p _ _ =>
          let simple_buffer := PROTOBUF_C_BUFFER_SIMPLE_INIT 256 in
          ' (sublen, simple_buffer) ← (if p is NullPointer then Some (0, simple_buffer) else message_pack_to_buffer member simple_buffer);
          let header := scratch ++ uint32_pack (u32 sublen) in
          b1 ← append b header;
          data ← simple_read simple_buffer sublen;
          b2 ← append b1 data;
          Some (blen header + sublen, b2)
      | _, _ => None
      end
  end.

Definition oneof_field_pack_to_buffer (field : ProtobufCFieldDescriptor) (oneof_case : Z) (member : cvalue) (b : B) : option (Z * B) :=
  if oneof_case =? fd_id field then
    if is_pointer_type (fd_type field) && is_unset member then Some (0, b) else required_field_pack_to_buffer field member b
  else Some (0, b).

Definition optional_field_pack_to_buffer (field : ProtobufCFieldDescriptor) (has : Z) (member : cvalue) (b : B) : option (Z * B) :=
  if is_pointer_type (fd_type field) then
    if is_unset member then Some (0, b) else required_field_pack_to_buffer field member b
  else if has =? 0 then Some (0, b) else required_field_pack_to_buffer field member b.

Definition get_packed_payload_length (p : packable) (array : list Z) : Z :=
  match p with
  | PFixed32 => u32 (Z.of_nat (length array) * 4)
  | PFixed64 => u32 (Z.of_nat (length array) * 8)
  | PBool => Z.of_nat (length array)
  | _ => u32 (sumZ (map (scalar_size p) array))
  end.

(** The arrays of numbers of fixed size are appended as they are in memory. *)
Definition pack_buffer_packed_payload (p : packable) (array : list Z) (b : B) : option (Z * B) :=
  match p with
  | PFixed32 | PFixed64 => write_one (concat (map (element_pack p) array)) b
  | _ => write_all (fun z => write_one (element_pack p z)) array b
  end.

Definition repeated_field_pack_to_buffer (field : ProtobufCFieldDescriptor) (array : list cvalue) (b : B) : option (Z * B) :=
  match array with
  | [] => Some (0, b)
  | _ =>
      if fd_packed field then
        l ← ints array;
        p ← packable_of (fd_type field);
        let payload_len := get_packed_payload_length p l in
        let scratch := field_tag (fd_id field) WIRE_LENGTH_PREFIXED ++ uint32_pack payload_len in
        b1 ← append b scratch;
        ' (tmp, b2) ← pack_buffer_packed_payload p l b1;
        if tmp =? payload_len then Some (blen scratch + payload_len, b2) else None
      else
        ' (rv, b') ← write_all (required_field_pack_to_buffer field) array b;
        Some (u32 rv, b')
  end.

Definition unknown_field_pack_to_buffer (field : ProtobufCMessageUnknownField) (b : B) : option (Z * B) :=
  let header := field_tag (uf_tag field) (uf_wire_type field) in
  b1 ← append b header;
  b2 ← append b1 (uf_data field);
  Some (blen header + blen (uf_data field), b2).

Definition field_pack_to_buffer (x : cfield) : B -> option (Z * B) :=
  by_label x (required_field_pack_to_buffer (fst (fst x))) (oneof_field_pack_to_buffer (fst (fst x)))
    (optional_field_pack_to_buffer (fst (fst x))) (repeated_field_pack_to_buffer (fst (fst x))) (fun _ => None).

(** The loops of [protobuf_c_message_pack_to_buffer]. *)
Definition fields_pack_to_buffer (fields : list cfield) (unknown : list ProtobufCMessageUnknownField) (b : B) : option (Z * B) :=
  ' (rv, b1) ← write_all field_pack_to_buffer fields b;
  ' (n, b2) ← write_all unknown_field_pack_to_buffer unknown b1;
  Some (rv + n, b2).
End to_buffer.

Section messages.
Context (do_alloc : Z -> bool).

#[local] Instance simple_buffer : ProtobufCBuffer ProtobufCBufferSimple := protobuf_c_buffer_simple_append do_alloc.

(** A message in a message is always written to a simple buffer first. *)
Fixpoint message_pack_to_simple (message : cvalue) (b : ProtobufCBufferSimple) : option (Z * ProtobufCBufferSimple) :=
  match message with
  | CMessage _ fields unknown => fields_pack_to_buffer message_pack_to_simple fields unknown b
  | _ => None
  end.

Definition protobuf_c_message_pack_to_buffer {B} `{ProtobufCBuffer B} (message : cvalue) (b : B) : option (Z * B) :=
  match message with
  | CMessage _ fields unknown => fields_pack_to_buffer message_pack_to_simple fields unknown b
  | _ => None
  end.
End messages.
