(* ===== verification/ProtobufPackProofs.v ===== *)
(** The three forms of the writer of ProtobufPack.v agree: the size computed for
    a message is the number of octets written, and every buffer that keeps its
    promises gets the same octets. *)
From stdpp Require Import base list.
From Stdlib Require Import ZArith Lia.
From S2P Require Import Prelude Protobuf MachineInt ProtobufScalars ProtobufPack.
#[local] Open Scope Z_scope.

(** ** Messages that can be written *)

(** A member of the type of its field. *)
Definition value_ok (message_ok : cvalue -> Prop) (f : ProtobufCFieldDescriptor) (v : cvalue) : Prop :=
  match packable_of (fd_type f) with
  | Some p => match v with CInt z => element_ok p z | _ => False end
  | None =>
      match fd_type f, v with
      | TYPE_STRING, CString _ _ | TYPE_BYTES, CBytes _ | TYPE_MESSAGE, CMessage NullPointer _ _ => True
      | TYPE_MESSAGE, CMessage _ _ _ => message_ok v
      | _, _ => False
      end
  end.

Definition not_null (v : cvalue) : Prop := match v with CString NullPointer _ | CMessage NullPointer _ _ => False | _ => True end.

(** Arrays have no null pointers, and only numbers are packed. *)
Definition field_ok (message_ok : cvalue -> Prop) (x : cfield) : Prop :=
  let '(f, _, vs) := x in
  is_u32 (fd_id f) /\
  match fd_label f with
  | REPEATED => foldr (fun v acc => (value_ok message_ok f v /\ not_null v) /\ acc) True vs /\ (fd_packed f = true -> is_Some (packable_of (fd_type f)))
  | _ => match vs with [v] => value_ok message_ok f v | _ => False end
  end.

Fixpoint message_ok (m : cvalue) : Prop :=
  match m with
  | CMessage _ fields unknown => foldr (fun x acc => field_ok message_ok x /\ acc) True fields /\ Forall (fun u => is_u32 (uf_tag u)) unknown
  | _ => False
  end.

Lemma cvalue_ind' (P : cvalue -> Prop) : (forall z, P (CInt z)) -> (forall p s, P (CString p s)) -> (forall b, P (CBytes b)) ->
  (forall p fields unknown, Forall (fun x : cfield => Forall P (snd x)) fields -> P (CMessage p fields unknown)) -> forall v, P v.
Proof.
  intros HI HS HB HM. fix IH 1. intros [z|p s|b|p fields unknown]; [apply HI|apply HS|apply HB|]. apply HM.
  induction fields as [|[fq vs] fields IHf]; constructor; [|exact IHf]. cbn. induction vs as [|v vs IHv]; constructor; [apply IH|exact IHv].
Qed.

(** A conjunction over a list. *)
Lemma foldr_Forall {A} (P : A -> Prop) l : foldr (fun a acc => P a /\ acc) True l <-> Forall P l.
Proof. induction l as [|a l IH]; cbn; [by split|]. by rewrite IH, Forall_cons. Qed.

(** ** Sizes of the pieces *)

Lemma scalar_size_pack p z : element_ok p z -> blen (element_pack p z) = scalar_size p z.
Proof.
  destruct p; cbn [element_ok element_pack scalar_size]; intros Hz; try done.
  - rewrite int32_pack_neg. unfold int32_size. destruct (Z.ltb_spec z 0); [done|]. apply uint32_size_pack. unfold is_u32, UINT32_MOD. lia.
  - by apply uint32_size_pack, zigzag32_range.
  - by apply uint32_size_pack.
  - by apply uint64_size_pack.
  - by apply uint64_size_pack, zigzag64_range.
Qed.

Lemma field_tag_size id wire : is_u32 id -> blen (field_tag id wire) = get_tag_size id.
Proof.
  unfold is_u32, UINT32_MOD. intros Hid. unfold field_tag. rewrite Z.shiftl_mul_pow2 by lia. change (2 ^ 3) with 8.
  set (enc := if id <? 536870912 then _ else _). assert (blen enc = get_tag_size id) as Hb.
  { unfold enc, get_tag_size. destruct (Z.ltb_spec id 536870912).
    - unfold u32. rewrite Z.mod_small by (unfold UINT32_MOD; lia). rewrite uint32_size_pack by (unfold is_u32, UINT32_MOD; lia). unfold uint32_size.
      repeat match goal with |- context [?a <? ?b] => destruct (Z.ltb_spec a b) end; lia.
    - rewrite uint64_size_pack by lia. unfold uint64_size, u32. rewrite Z.shiftr_div_pow2 by lia. change (2 ^ 32) with 4294967296.
      assert (1 <= id * 8 / 4294967296 < 8) as Hd by div_lia. rewrite Z.mod_small by (unfold UINT32_MOD; lia).
      rewrite (proj2 (Z.eqb_neq _ _)), (proj2 (Z.ltb_lt _ 8)) by lia.
      repeat match goal with |- context [?a <? ?b] => destruct (Z.ltb_spec a b) end; lia. }
  rewrite <- Hb. destruct enc; [|done]. unfold blen in Hb. cbn in Hb. unfold get_tag_size in Hb.
  repeat match type of Hb with context [?a <? ?b] => destruct (Z.ltb_spec a b) end; lia.
Qed.

Lemma get_tag_size_pos id : 0 < get_tag_size id.
Proof. unfold get_tag_size. repeat match goal with |- context [?a <? ?b] => destruct (Z.ltb_spec a b) end; lia. Qed.

Lemma uint32_size_pos v : 0 < uint32_size v.
Proof. unfold uint32_size. repeat match goal with |- context [?a <? ?b] => destruct (Z.ltb_spec a b) end; lia. Qed.

Lemma prefix_gap v : drop (length (uint32_pack (u32 v))) (replicate (Z.to_nat (uint32_size (u32 v))) 0) = [].
Proof. apply drop_ge. rewrite length_replicate, <- uint32_size_pack by apply u32_range. unfold blen. lia. Qed.

Lemma binary_size b : blen (binary_data_pack b) = prefixed_size (blen b).
Proof. unfold binary_data_pack, prefixed_size. rewrite blen_app, uint32_size_pack; [done|apply u32_range]. Qed.

Lemma prefixed_size_ge n : n <= prefixed_size n.
Proof. unfold prefixed_size. pose proof (uint32_size_pos (u32 n)). lia. Qed.

(** ** Buffers *)

Section writes.
Context {B : Type} `{BufferLaws B}.

(** [w] appends [out] and returns its length. *)
Definition writes (w : B -> option (Z * B)) (out : bytes) : Prop :=
  forall b, valid b -> blen (contents b) + blen out <= capacity (B := B) ->
  exists b', w b = Some (blen out, b') /\ valid b' /\ contents b' = contents b ++ out.

Lemma writes_nil : writes (fun b => Some (0, b)) [].
Proof. intros b Hv _. exists b. by rewrite app_nil_r. Qed.

Lemma writes_one d : writes (write_one d) d.
Proof. intros b Hv Hc. destruct (append_ok b d Hv Hc) as (b' & E & ? & ?). exists b'. unfold write_one. by rewrite E. Qed.

(** Two appends. *)
Lemma writes_two d1 d2 : writes (fun b => b1 ← append b d1; b2 ← append b1 d2; Some (blen d1 + blen d2, b2)) (d1 ++ d2).
Proof.
  intros b Hv Hc. rewrite blen_app in Hc. pose proof (blen_nonneg d2). destruct (append_ok b d1 Hv ltac:(lia)) as (b1 & E1 & Hv1 & C1).
  destruct (append_ok b1 d2 Hv1) as (b2 & E2 & Hv2 & C2); [rewrite C1, blen_app; lia|]. exists b2. rewrite E1. cbn. rewrite E2. cbn.
  by rewrite blen_app, C2, C1, app_assoc.
Qed.

Lemma writes_prefixed tag d : writes (write_prefixed tag d) (tag ++ binary_data_pack d).
Proof. unfold binary_data_pack. rewrite app_assoc. apply writes_two. Qed.

(** One write after another. *)
Lemma writes_seq w1 w2 o1 o2 : writes w1 o1 -> writes w2 o2 ->
  writes (fun b => '(n, b1) ← w1 b; '(m, b2) ← w2 b1; Some (n + m, b2)) (o1 ++ o2).
Proof.
  intros W1 W2 b Hv Hc. rewrite blen_app in Hc. pose proof (blen_nonneg o2). destruct (W1 b Hv ltac:(lia)) as (b1 & E1 & Hv1 & C1).
  destruct (W2 b1 Hv1) as (b2 & E2 & Hv2 & C2); [rewrite C1, blen_app; lia|]. exists b2. rewrite E1. cbn. rewrite E2. cbn.
  by rewrite blen_app, C2, C1, app_assoc.
Qed.

Lemma writes_all {A} (step : A -> B -> option (Z * B)) l outs : Forall2 (fun a out => writes (step a) out) l outs -> writes (write_all step l) (concat outs).
Proof. induction 1 as [|a out l outs Ha _ IH]; [apply writes_nil|]. exact (writes_seq _ _ _ _ Ha IH). Qed.

(** The size, the octets and the appends of one thing: if the size has 32 bits
    all three are defined and agree. *)
Definition agree (s : option Z) (p : option bytes) (w : B -> option (Z * B)) : Prop :=
  exists n, s = Some n /\ 0 <= n /\ (n < UINT32_MOD -> exists out, p = Some out /\ blen out = n /\ writes w out).

Lemma agree_nil : agree (Some 0) (Some []) (fun b => Some (0, b)).
Proof. exists 0. split; [done|]. split; [lia|]. intros _. exists []. split; [done|]. split; [done|apply writes_nil]. Qed.

Lemma agree_out out w : writes w out -> agree (Some (blen out)) (Some out) w.
Proof. intros Hw. exists (blen out). split; [done|]. split; [apply blen_nonneg|]. intros _. by exists out. Qed.

Lemma agree_all {A} (s : A -> option Z) (p : A -> option bytes) (w : A -> B -> option (Z * B)) l :
  Forall (fun a => agree (s a) (p a) (w a)) l -> agree (add_sizes (map s l)) (concat_parts (map p l)) (write_all w l).
Proof.
  induction 1 as [|a l (n & En & Hn & Ha) _ (m & Em & Hm & Hl)]; [apply agree_nil|]. exists (n + m). cbn [map add_sizes foldr concat_parts].
  fold (add_sizes (map s l)) (concat_parts (map p l)). rewrite En, Em. split; [done|]. split; [lia|]. intros Hlt.
  destruct (Ha ltac:(lia)) as (o1 & -> & L1 & W1), (Hl ltac:(lia)) as (o2 & -> & L2 & W2). exists (o1 ++ o2).
  split; [done|]. split; [rewrite blen_app; lia|]. exact (writes_seq _ _ _ _ W1 W2).
Qed.
End writes.

(** ** The simple buffer keeps its promise *)

Lemma grow_ok fuel : forall n new_len, 0 < n < 9223372036854775808 -> new_len <= 4611686018427387904 -> new_len <= n * 2 ^ Z.of_nat fuel ->
  exists r, grow fuel n new_len = Some r /\ new_len <= r < 9223372036854775808 /\ n <= r.
Proof.
  induction fuel as [|fuel IH]; intros n new_len Hn Hl Hf; cbn [grow]; (destruct (Z.ltb_spec n new_len) as [Hlt|Hge]; [|by exists n; repeat split; lia]).
  - change (2 ^ Z.of_nat 0) with 1 in Hf. lia.
  - unfold u64. rewrite Z.mod_small by lia. destruct (IH (n + n) new_len) as (r & -> & Hr & Hnr); [lia|lia| |exists r; repeat split; lia].
    rewrite Nat2Z.inj_succ, Z.pow_succ_r in Hf by lia. lia.
Qed.

Definition simple_valid (b : ProtobufCBufferSimple) : Prop := 0 < alloced b < 9223372036854775808 /\ blen (sb_data b) <= alloced b.

Lemma simple_append_ok do_alloc b data : (forall n, do_alloc n = true) -> simple_valid b -> blen (sb_data b) + blen data <= 4611686018427387904 ->
  exists b', protobuf_c_buffer_simple_append do_alloc b data = Some b' /\ simple_valid b' /\ sb_data b' = sb_data b ++ data.
Proof.
  intros Ha [Hal Hd] Hc. unfold protobuf_c_buffer_simple_append. pose proof (blen_nonneg (sb_data b)). pose proof (blen_nonneg data).
  replace (u64 (blen (sb_data b) + blen data)) with (blen (sb_data b) + blen data) by (symmetry; apply Z.mod_small; lia). cbv zeta. destruct (Z.ltb_spec (alloced b) (blen (sb_data b) + blen data)) as [Hlt|Hge].
  - unfold u64. rewrite Z.mod_small by lia.
    destruct (grow_ok 64 (alloced b * 2) (blen (sb_data b) + blen data)) as (r & -> & Hr & _); [lia|lia|change (2 ^ Z.of_nat 64) with 18446744073709551616; nia|].
    cbn [mbind option_bind]. rewrite Ha. eexists. split; [done|]. split; [|done]. split; cbn; [lia|]. rewrite blen_app. lia.
  - eexists. split; [done|]. split; [|done]. split; cbn; [done|]. rewrite blen_app. lia.
Qed.

Section pack.
Context (do_alloc : Z -> bool) (Halloc : forall n, do_alloc n = true).

#[local] Instance simple_append : ProtobufCBuffer ProtobufCBufferSimple := simple_buffer do_alloc.
#[local] Instance simple_laws : BufferLaws ProtobufCBufferSimple := {|
  contents := sb_data; valid := simple_valid; capacity := 4611686018427387904;
  append_ok := fun b data => simple_append_ok do_alloc b data Halloc |}.

Lemma simple_init_valid : simple_valid (PROTOBUF_C_BUFFER_SIMPLE_INIT 256).
Proof. split; [cbn; lia|done]. Qed.

(** What is known of a message within the message that is written. *)
Definition sub_ok (v : cvalue) : Prop :=
  message_ok v -> agree (protobuf_c_message_get_packed_size v) (protobuf_c_message_pack v) (message_pack_to_simple do_alloc v).

Context {B : Type} `{BufferLaws B}.
Abbreviation size_of := protobuf_c_message_get_packed_size.
Abbreviation pack_of := protobuf_c_message_pack.
Abbreviation simple_of := (message_pack_to_simple do_alloc).

(** A message is appended after its length, from the buffer it was written to. *)
Lemma agree_message tag v : is_Some (match v with CMessage NullPointer _ _ => None | CMessage _ _ _ => Some () | _ => None end) ->
  agree (size_of v) (pack_of v) (simple_of v) ->
  agree (subrv ← size_of v; Some (blen tag + prefixed_size subrv)) (sub ← prefixed_message_pack pack_of v; Some (tag ++ sub))
    (fun b : B => '(sublen, sb) ← simple_of v (PROTOBUF_C_BUFFER_SIMPLE_INIT 256);
      let header := tag ++ uint32_pack (u32 sublen) in
      b1 ← append b header; data ← simple_read sb sublen; b2 ← append b1 data; Some (blen header + sublen, b2)).
Proof.
  intros Hv (n & En & Hn & Ha). rewrite En. cbn [mbind option_bind]. eexists. split; [done|]. pose proof (blen_nonneg tag).
  split; [pose proof (prefixed_size_ge n); lia|]. intros Hlt. destruct Ha as (out & Eo & Lo & Wo); [pose proof (prefixed_size_ge n); lia|].
  exists (tag ++ binary_data_pack out). split; [|split].
  - unfold prefixed_message_pack. destruct v as [| | |[] fields unknown]; try (by destruct Hv); rewrite Eo; cbn [mbind option_bind]; by rewrite prefix_gap.
  - rewrite blen_app, binary_size, Lo. done.
  - destruct (Wo (PROTOBUF_C_BUFFER_SIMPLE_INIT 256) simple_init_valid) as (sb & Esb & Vsb & Csb).
    { cbn. unfold blen at 1. cbn. pose proof (prefixed_size_ge n). unfold UINT32_MOD in Hlt. lia. }
    cbn in Csb. intros b Hb Hc. rewrite Esb. cbn [mbind option_bind]. unfold simple_read. rewrite Csb, Z.leb_refl, take_ge by (unfold blen; lia).
    unfold binary_data_pack in *. rewrite app_assoc in Hc |- *. destruct (writes_two (tag ++ uint32_pack (u32 (blen out))) out b Hb Hc) as (b' & E & Hb' & Cb).
    exists b'. split; [exact E|done].
Qed.

Lemma agree_required f v : is_u32 (fd_id f) -> value_ok message_ok f v -> (message_ok v -> agree (size_of v) (pack_of v) (simple_of v)) ->
  agree (required_field_get_packed_size size_of f v) (required_field_pack pack_of f v) (required_field_pack_to_buffer (B := B) simple_of f v).
Proof.
  intros Hid Hv Hsub. unfold value_ok in Hv. unfold required_field_get_packed_size, required_field_pack, required_field_pack_to_buffer.
  rewrite <- (field_tag_size _ (wire_type_of (fd_type f)) Hid). set (tag := field_tag _ _). destruct (packable_of (fd_type f)) as [p|].
  { destruct v; try done. rewrite <- scalar_size_pack, <- blen_app by done. apply agree_out, writes_one. }
  assert (forall d, agree (Some (blen tag + prefixed_size (blen d))) (Some (tag ++ binary_data_pack d)) (write_prefixed (B := B) tag d)) as Hpre.
  { intros d. rewrite <- binary_size, <- blen_app. apply agree_out, writes_prefixed. }
  destruct (fd_type f), v as [z|p s|b|p fields unknown]; try done.
  - destruct p; [exact (Hpre [])|exact (Hpre s)|exact (Hpre s)].
  - destruct p.
    + exact (Hpre []).
    + apply (agree_message tag (CMessage DefaultPointer fields unknown)); [by exists ()|by apply Hsub].
    + apply (agree_message tag (CMessage Pointer fields unknown)); [by exists ()|by apply Hsub].
Qed.

Lemma agree_optional f q v : agree (required_field_get_packed_size size_of f v) (required_field_pack pack_of f v) (required_field_pack_to_buffer (B := B) simple_of f v) ->
  agree (optional_field_get_packed_size size_of f q v) (optional_field_pack pack_of f q v) (optional_field_pack_to_buffer (B := B) simple_of f q v) /\
  agree (oneof_field_get_packed_size size_of f q v) (oneof_field_pack pack_of f q v) (oneof_field_pack_to_buffer (B := B) simple_of f q v).
Proof.
  intros Hr. unfold optional_field_get_packed_size, optional_field_pack, optional_field_pack_to_buffer, oneof_field_get_packed_size, oneof_field_pack,
    oneof_field_pack_to_buffer. split.
  - destruct (is_pointer_type (fd_type f)); [destruct (is_unset v)|destruct (q =? 0)]; [apply agree_nil|exact Hr|apply agree_nil|exact Hr].
  - destruct (q =? fd_id f); [|apply agree_nil]. destruct (is_pointer_type (fd_type f) && is_unset v); [apply agree_nil|exact Hr].
Qed.

(** The members of an array without their tags. *)
Lemma array_member_required f v : value_ok message_ok f v -> not_null v ->
  required_field_get_packed_size size_of f v = (n ← array_member_size size_of f v; Some (get_tag_size (fd_id f) + n)).
Proof.
  intros Hv Hn. unfold value_ok in Hv. unfold required_field_get_packed_size, array_member_size. destruct (packable_of (fd_type f)); [by destruct v|].
  destruct (fd_type f), v as [z|[] s|b|[] fields unknown]; try done; cbn [not_null] in Hn; by destruct (size_of _).
Qed.

Lemma array_sizes f vs : Forall (fun v => value_ok message_ok f v /\ not_null v) vs ->
  add_sizes (map (required_field_get_packed_size size_of f) vs) =
  (n ← add_sizes (map (array_member_size size_of f) vs); Some (get_tag_size (fd_id f) * Z.of_nat (length vs) + n)).
Proof.
  induction 1 as [|v vs [Hv Hn] _ IH]; [cbn; f_equal; lia|]. cbn [map add_sizes foldr]. fold (add_sizes (map (required_field_get_packed_size size_of f) vs)).
  fold (add_sizes (map (array_member_size size_of f) vs)). rewrite IH, array_member_required by done.
  destruct (array_member_size size_of f v) as [n|]; [|done].
  destruct (add_sizes (map (array_member_size size_of f) vs)) as [m|]; cbn [mbind option_bind length]; [f_equal; lia|done].
Qed.

Lemma agree_array f vs : fd_packed f = false -> is_u32 (fd_id f) -> Forall (fun v => value_ok message_ok f v /\ not_null v) vs ->
  Forall sub_ok vs ->
  agree (repeated_field_get_packed_size size_of f vs) (repeated_field_pack pack_of f vs) (repeated_field_pack_to_buffer (B := B) simple_of f vs).
Proof.
  intros Hp Hid Hvs Hsub. destruct (agree_all (required_field_get_packed_size size_of f) (required_field_pack pack_of f)
    (required_field_pack_to_buffer (B := B) simple_of f) vs) as (n & En & Hn & Ha).
  { apply Forall_forall. intros v Hv. rewrite Forall_forall in Hvs, Hsub. apply agree_required; [done|by apply Hvs|exact (Hsub v Hv)]. }
  rewrite array_sizes in En by done. unfold repeated_field_get_packed_size, repeated_field_pack, repeated_field_pack_to_buffer. rewrite Hp.
  destruct vs as [|v vs']; [apply agree_nil|]. set (vs := v :: vs') in *. destruct (add_sizes (map (array_member_size size_of f) vs)) as [m|]; [|done].
  cbn [mbind option_bind] in *. injection En as <-. exists (get_tag_size (fd_id f) * Z.of_nat (length vs) + m). split; [f_equal; lia|]. split; [done|].
  intros Hlt. destruct (Ha Hlt) as (out & Eo & Lo & Wo). exists out. split; [done|]. split; [done|]. intros b Hb Hc.
  destruct (Wo b Hb Hc) as (b' & -> & Hb' & Cb). exists b'. split; [|done]. cbn [mbind option_bind]. unfold u32. rewrite Z.mod_small; [done|]. rewrite Lo. exact (conj Hn Hlt).
Qed.

(** ** Packed arrays *)

Lemma ints_ok p f vs : packable_of (fd_type f) = Some p -> Forall (fun v => value_ok message_ok f v /\ not_null v) vs ->
  exists l, ints vs = Some l /\ length l = length vs /\ Forall (element_ok p) l /\
    add_sizes (map (array_member_size size_of f) vs) = Some (blen (concat (map (element_pack p) l))).
Proof.
  intros Hp. induction 1 as [|v vs [Hv _] _ (l & El & Hl & Hok & Hs)]; [by exists []|]. unfold value_ok in Hv. rewrite Hp in Hv. destruct v as [z| | |]; try done.
  exists (z :: l). cbn [ints map add_sizes foldr concat length]. fold (add_sizes (map (array_member_size size_of f) vs)). rewrite El, Hs.
  unfold array_member_size. rewrite Hp. cbn [mbind option_bind]. split; [done|]. split; [by rewrite Hl|]. split; [by constructor|].
  by rewrite blen_app, scalar_size_pack.
Qed.

Lemma payload_length_ok p l : Forall (element_ok p) l -> is_u32 (blen (concat (map (element_pack p) l))) ->
  get_packed_payload_length p l = blen (concat (map (element_pack p) l)).
Proof.
  intros Hl Hu. assert (blen (concat (map (element_pack p) l)) = sumZ (map (scalar_size p) l)) as E.
  { clear Hu. induction Hl as [|z l Hz _ IH]; [done|]. cbn [map concat]. rewrite blen_app, IH, scalar_size_pack by done. done. }
  assert (forall k, (forall z, scalar_size p z = k) -> sumZ (map (scalar_size p) l) = k * Z.of_nat (length l)) as Hk.
  { intros k Hk. clear -Hk. induction l as [|z l IH]; [cbn; lia|]. cbn [map sumZ fold_right length]. unfold sumZ in IH. rewrite IH, Hk. lia. }
  rewrite E in Hu |- *. unfold is_u32 in Hu. unfold get_packed_payload_length, u32. destruct p; try (by rewrite Z.mod_small by lia).
  - rewrite (Hk 4) in Hu |- * by done. rewrite Z.mod_small; lia.
  - rewrite (Hk 8) in Hu |- * by done. rewrite Z.mod_small; lia.
  - rewrite (Hk 1) by done. lia.
Qed.

Lemma writes_payload p l : writes (pack_buffer_packed_payload (B := B) p l) (concat (map (element_pack p) l)).
Proof.
  assert (writes (write_all (fun z => write_one (B := B) (element_pack p z)) l) (concat (map (element_pack p) l))) as Hw.
  { apply writes_all. induction l; constructor; [apply writes_one|done]. }
  unfold pack_buffer_packed_payload. destruct p; try exact Hw; apply writes_one.
Qed.

Lemma agree_packed f p vs : fd_packed f = true -> packable_of (fd_type f) = Some p -> is_u32 (fd_id f) ->
  Forall (fun v => value_ok message_ok f v /\ not_null v) vs ->
  agree (repeated_field_get_packed_size size_of f vs) (repeated_field_pack pack_of f vs) (repeated_field_pack_to_buffer (B := B) simple_of f vs).
Proof.
  intros Hpk Hp Hid Hvs. unfold repeated_field_get_packed_size, repeated_field_pack, repeated_field_pack_to_buffer. rewrite Hpk, Hp.
  destruct vs as [|v vs']; [apply agree_nil|]. set (vs := v :: vs') in *. destruct (ints_ok p f vs Hp Hvs) as (l & El & Hl & Hok & Es). rewrite Es, El.
  cbn [mbind option_bind]. set (payload := concat (map (element_pack p) l)) in *. pose proof (get_tag_size_pos (fd_id f)). pose proof (blen_nonneg payload).
  pose proof (uint32_size_pos (u32 (blen payload))). eexists. split; [done|]. split; [lia|]. intros Hlt. assert (is_u32 (blen payload)) as Hu by (unfold is_u32; lia).
  assert (l <> []) as Hne by (destruct l; [done|discriminate]). exists (field_tag (fd_id f) WIRE_LENGTH_PREFIXED ++ binary_data_pack payload).
  split; [by apply packed_field_pack_ok|]. split; [rewrite blen_app, field_tag_size, binary_size by done; unfold prefixed_size; lia|].
  rewrite payload_length_ok by done. fold payload. unfold binary_data_pack. rewrite app_assoc. unfold u32 at 1. rewrite Z.mod_small by (unfold is_u32 in Hu; lia).
  set (scratch := _ ++ uint32_pack _). intros b Hb Hc. rewrite blen_app in Hc. destruct (append_ok b scratch Hb ltac:(lia)) as (b1 & E1 & Hb1 & C1).
  destruct (writes_payload p l b1 Hb1) as (b2 & E2 & Hb2 & C2); [fold payload; rewrite C1, blen_app; lia|]. fold payload in E2, C2. exists b2.
  rewrite E1. cbn [mbind option_bind]. rewrite E2. cbn [mbind option_bind]. rewrite Z.eqb_refl, blen_app, C2, C1, app_assoc. done.
Qed.

(** ** Messages *)

Lemma agree_unknown u : is_u32 (uf_tag u) ->
  agree (Some (unknown_field_get_packed_size u)) (Some (unknown_field_pack u)) (unknown_field_pack_to_buffer (B := B) u).
Proof.
  intros Hu. unfold unknown_field_get_packed_size, unknown_field_pack. rewrite <- (field_tag_size _ (uf_wire_type u) Hu), <- blen_app.
  apply agree_out, writes_two.
Qed.

Lemma agree_field (x : cfield) : field_ok message_ok x -> Forall sub_ok (snd x) ->
  agree (by_label x (required_field_get_packed_size size_of (fst (fst x))) (oneof_field_get_packed_size size_of (fst (fst x)))
      (optional_field_get_packed_size size_of (fst (fst x))) (repeated_field_get_packed_size size_of (fst (fst x))) None)
    (by_label x (required_field_pack pack_of (fst (fst x))) (oneof_field_pack pack_of (fst (fst x)))
      (optional_field_pack pack_of (fst (fst x))) (repeated_field_pack pack_of (fst (fst x))) None)
    (field_pack_to_buffer (B := B) simple_of x).
Proof.
  destruct x as [[f q] vs]. unfold field_ok, field_pack_to_buffer, by_label. cbn [fst snd]. intros [Hid Hx] Hsub. destruct (fd_label f).
  - destruct vs as [|v []]; try done. inversion Hsub; subst. by apply agree_required.
  - destruct vs as [|v []]; try done. inversion Hsub; subst.
    destruct (agree_optional f q v (agree_required f v Hid Hx ltac:(assumption))) as [Ho Hn]. destruct (fd_oneof f); [exact Hn|exact Ho].
  - destruct Hx as [Hvs Hp]. rewrite foldr_Forall in Hvs. destruct (fd_packed f) eqn:Ep; [|by apply agree_array].
    destruct Hp as [p Hp]; [done|]. by apply (agree_packed f p).
Qed.

Lemma agree_fields p fields unknown : message_ok (CMessage p fields unknown) -> Forall (fun x : cfield => Forall sub_ok (snd x)) fields ->
  agree (size_of (CMessage p fields unknown)) (pack_of (CMessage p fields unknown)) (fields_pack_to_buffer (B := B) simple_of fields unknown).
Proof.
  intros [Hf Hu] Hsub. rewrite foldr_Forall in Hf.
  destruct (agree_all _ _ _ fields (Forall_impl _ _ _ (proj2 (Forall_and _ _) (conj Hf Hsub)) (fun x '(conj a b) => agree_field x a b))) as (n & En & Hn & Ha).
  destruct (agree_all _ _ _ unknown (Forall_impl _ _ _ Hu agree_unknown)) as (m & Em & Hm & Hb).
  assert (forall us, add_sizes (map (fun u => Some (unknown_field_get_packed_size u)) us) = Some (sumZ (map unknown_field_get_packed_size us))) as Es.
  { induction us as [|u us IH]; [done|]. cbn [map add_sizes foldr]. unfold add_sizes in IH. by rewrite IH. }
  assert (forall us, concat_parts (map (fun u => Some (unknown_field_pack u)) us) = Some (concat (map unknown_field_pack us))) as Ec.
  { induction us as [|u us IH]; [done|]. cbn [map concat_parts foldr]. unfold concat_parts in IH. by rewrite IH. }
  rewrite Es in Em. injection Em as <-. cbn [protobuf_c_message_get_packed_size protobuf_c_message_pack]. eexists. split; [rewrite En; done|]. split; [lia|].
  intros Hlt. destruct (Ha ltac:(lia)) as (o1 & -> & L1 & W1), (Hb ltac:(lia)) as (o2 & E2 & L2 & W2). rewrite Ec in E2. injection E2 as <-.
  exists (o1 ++ concat (map unknown_field_pack unknown)). split; [done|]. split; [rewrite blen_app; lia|]. exact (writes_seq _ _ _ _ W1 W2).
Qed.
End pack.

Lemma all_sub_ok do_alloc (Halloc : forall n, do_alloc n = true) v : sub_ok do_alloc Halloc v.
Proof.
  induction v as [z|p s|b|p fields unknown IH] using cvalue_ind'; intros Hv; try done.
  exact (agree_fields do_alloc Halloc p fields unknown Hv IH).
Qed.

Lemma writers_agree do_alloc {B} `{BufferLaws B} m : (forall n, do_alloc n = true) -> message_ok m ->
  agree (protobuf_c_message_get_packed_size m) (protobuf_c_message_pack m) (protobuf_c_message_pack_to_buffer do_alloc (B := B) m).
Proof.
  intros Halloc Hm. destruct m as [| | |p fields unknown]; try done. apply (agree_fields do_alloc Halloc); [done|].
  apply Forall_forall. intros x _. apply Forall_forall. intros v _. apply all_sub_ok.
Qed.

(** ** The messages of Protobuf.v *)

Definition type_of (t : ptype) : ProtobufCType :=
  match t with
  | TUint32 => TYPE_UINT32
  | TInt32 => TYPE_INT32
  | TBool => TYPE_BOOL
  | TFixed64 => TYPE_FIXED64
  | TBytes => TYPE_BYTES
  | TMsg _ => TYPE_MESSAGE
  end.

(** The member of an optional field that is not set. *)
Definition unset_member (t : ptype) : cvalue :=
  match t with TBytes => CBytes [] | TMsg _ => CMessage NullPointer [] [] | _ => CInt 0 end.

Fixpoint cfields_of (value_of : ptype -> pval -> cvalue) (fs : list field) (ss : slots) : list cfield :=
  match fs, ss with
  | (id, rep, t) :: fs', s :: ss' =>
      (FieldDescriptor id (if rep then REPEATED else OPTIONAL) (type_of t) false false, Z.of_nat (length s),
       match rep, s with
       | false, [] => [unset_member t]
       | _, _ => map (value_of t) s
       end) :: cfields_of value_of fs' ss'
  | _, _ => []
  end.

Fixpoint cvalue_of (t : ptype) (v : pval) {struct t} : cvalue :=
  match t, v with
  | TMsg fs, VMsg ss => CMessage Pointer (cfields_of cvalue_of fs ss) []
  | _, VInt z => CInt z
  | _, VBytes b => CBytes b
  | _, VMsg _ => CInt 0
  end.

Definition cmessage_of (fs : list field) (ss : slots) : cvalue := CMessage Pointer (cfields_of cvalue_of fs ss) [].

Lemma field_tag_small id wire : 0 <= id < 536870912 -> field_tag id wire = tag_pack id wire.
Proof. intros Hid. unfold field_tag. by rewrite (proj2 (Z.ltb_lt _ _)) by lia. Qed.

Lemma wire_type_of_type t : wire_type_of (type_of t) = wire_type t.
Proof. by destruct t. Qed.

(** A member in the two models: it is of the type of its field, and written in
    the same way. *)
Definition same (id : Z) (t : ptype) (v : pval) (c : cvalue) : Prop :=
  forall f, fd_id f = id -> fd_type f = type_of t ->
  value_ok message_ok f c /\ not_null c /\ (is_pointer_type (fd_type f) = true -> is_unset c = false) /\
  required_field_pack protobuf_c_message_pack f c = Some (tag_pack id (wire_type t) ++ value_pack t v).

Lemma ids_range seen fs : ids_ok seen fs = true -> Forall (fun f : field => 0 < fst (fst f) < 16) fs.
Proof.
  revert seen. induction fs as [|[[id rep] t] fs IH]; intros seen Hi; [done|]. cbn in Hi. rewrite !andb_true_iff, ?Z.ltb_lt in Hi.
  constructor; [cbn; lia|]. by eapply IH, Hi.
Qed.

Abbreviation pack_field := (fun x : cfield =>
  by_label x (required_field_pack protobuf_c_message_pack (fst (fst x))) (oneof_field_pack protobuf_c_message_pack (fst (fst x)))
    (optional_field_pack protobuf_c_message_pack (fst (fst x))) (repeated_field_pack protobuf_c_message_pack (fst (fst x))) None).

Lemma slot_same id rep t s : 0 < id < 16 -> (rep = false -> (length s <= 1)%nat) -> Forall (fun v => same id t v (cvalue_of t v)) s ->
  forall x, cfields_of cvalue_of [(id, rep, t)] [s] = [x] ->
  field_ok message_ok x /\ pack_field x = Some (concat (map (fun v => tag_pack id (wire_type t) ++ value_pack t v) s)).
Proof.
  intros Hid Hlen Hs x [= <-]. set (f := FieldDescriptor _ _ _ _ _). unfold field_ok, by_label. cbn [fst snd]. destruct rep.
  - assert (is_u32 id) by (unfold is_u32, UINT32_MOD; lia). cbn. rewrite foldr_Forall, Forall_map. split; [split; [done|split; [|done]]|].
    + eapply Forall_impl; [exact Hs|]. intros v Hv. destruct (Hv f eq_refl eq_refl) as (H1 & H2 & _). done.
    + induction Hs as [|v s Hv _ IH]; [done|]. cbn [map concat_parts foldr]. destruct (Hv f eq_refl eq_refl) as (_ & _ & _ & ->).
      fold (concat_parts (map (required_field_pack protobuf_c_message_pack f) (map (cvalue_of t) s))). rewrite IH by done. done.
  - specialize (Hlen eq_refl). destruct s as [|v [|]]; cbn in Hlen; [| |lia]; (split; [split; [unfold is_u32, UINT32_MOD; cbn; lia|]|]).
    + destruct t; unfold value_ok; cbn; unfold is_u32, UINT32_MOD; first [done|by left|lia].
    + unfold optional_field_pack. by destruct t.
    + cbn. inversion Hs as [|? ? Hv]; subst. by destruct (Hv f eq_refl eq_refl) as (H1 & _).
    + inversion Hs as [|? ? Hv]; subst. destruct (Hv f eq_refl eq_refl) as (_ & _ & H3 & H4). cbn [fd_label fd_oneof f map optional_field_pack].
      unfold optional_field_pack. rewrite H4. cbn [concat map]. rewrite app_nil_r. destruct (is_pointer_type (fd_type f)); [by rewrite H3|done].
Qed.

Lemma fields_same fs : Forall (fun f : field => desc_ok (snd f) = true -> forall v id, 0 < id < 16 -> wf_value (snd f) v -> same id (snd f) v (cvalue_of (snd f) v)) fs ->
  Forall (fun f : field => 0 < fst (fst f) < 16) fs -> forallb (fun f => desc_ok (snd f)) fs = true ->
  forall ss, fields_wf wf_value fs ss ->
  Forall (field_ok message_ok) (cfields_of cvalue_of fs ss) /\
  concat_parts (map pack_field (cfields_of cvalue_of fs ss)) = Some (fields_pack value_pack fs ss).
Proof.
  induction 1 as [|[[id rep] t] fs Ht _ IH]; intros Hid Hd ss Hss; [by destruct ss|]. destruct ss as [|s ss]; [done|].
  apply Forall_cons in Hid as [Hid Hids]. cbn [forallb] in Hd. apply andb_prop in Hd as [Hdt Hdf]. destruct Hss as (Hs & Hlen & Hss). cbn [fst snd] in *.
  destruct (IH Hids Hdf ss Hss) as [IH1 IH2].
  destruct (slot_same id rep t s Hid Hlen (Forall_impl _ _ _ Hs (fun v => Ht Hdt v id Hid)) _ eq_refl) as [Hok Hp].
  cbn [cfields_of fields_pack map concat_parts foldr]. fold (concat_parts (map pack_field (cfields_of cvalue_of fs ss))). split; [by constructor|].
  rewrite IH2. cbn beta in Hp. rewrite Hp. done.
Qed.

Lemma value_same t : desc_ok t = true -> forall v id, 0 < id < 16 -> wf_value t v -> same id t v (cvalue_of t v).
Proof.
  induction t as [| | | | |fs IH] using ptype_ind'; intros Hd v id Hid Hv f <- Hf; destruct v as [z|b|ss]; try done;
    unfold value_ok, required_field_pack; rewrite <- wire_type_of_type, <- Hf, field_tag_small, Hf by lia.
  1-5: cbn; try done.
  - by rewrite u32_small.
  - cbn [desc_ok] in Hd. apply andb_prop in Hd as [Hi Hfs]. destruct Hv as [Hwf Hsz].
    destruct (fields_same fs IH (ids_range [] fs Hi) Hfs ss Hwf) as [Hok Hp]. cbn [packable_of type_of cvalue_of value_pack message_ok].
    rewrite foldr_Forall. split; [done|]. split; [done|]. split; [done|]. unfold prefixed_message_pack. cbn [protobuf_c_message_pack]. rewrite Hp. cbn [mbind option_bind map concat]. rewrite app_nil_r.
    by rewrite prefix_gap.
Qed.

(** A message of the library is in the domain of this model and written alike. *)
Lemma cmessage_of_ok fs ss : desc_ok (TMsg fs) = true -> wf_message fs ss ->
  message_ok (cmessage_of fs ss) /\ protobuf_c_message_pack (cmessage_of fs ss) = Some (pack fs ss).
Proof.
  intros Hd Hwf. cbn [desc_ok] in Hd. apply andb_prop in Hd as [Hi Hfs].
  destruct (fields_same fs) with (ss := ss) as [Hok Hp]; [|by eapply ids_range|done|done|].
  { apply Forall_forall. intros f _ Hdf v id Hid Hv. by apply value_same. }
  unfold cmessage_of. cbn [message_ok protobuf_c_message_pack]. rewrite foldr_Forall, Hp. cbn. by rewrite app_nil_r.
Qed.

(** ** Theorems *)

(** C30: for every message whose members are of the types of their fields, of all
    types, labels and flags, the size is computed without following a null
    pointer; if it has 32 bits, that many octets are written to memory, no
    assertion fails, and if memory can be had, writing to a buffer, whatever its
    implementation, appends the same octets and returns their number. *)
Theorem message_writers_agree do_alloc {B} `{BufferLaws B} m (b : B) : (forall n, do_alloc n = true) -> message_ok m ->
  exists n, protobuf_c_message_get_packed_size m = Some n /\ 0 <= n /\
    (n < UINT32_MOD -> exists out, protobuf_c_message_pack m = Some out /\ blen out = n /\
      (valid b -> blen (contents b) + n <= capacity (B := B) ->
        exists b', protobuf_c_message_pack_to_buffer do_alloc m b = Some (n, b') /\ valid b' /\ contents b' = contents b ++ out)).
Proof.
  intros Halloc Hm. destruct (writers_agree do_alloc (B := B) m Halloc Hm) as (n & En & Hn & Ha). exists n. split; [done|]. split; [done|]. intros Hlt.
  destruct (Ha Hlt) as (out & Eo & Lo & Wo). exists out. split; [done|]. split; [done|]. rewrite <- Lo. apply Wo.
Qed.

(** A message with a packed array, a oneof, a string and a message in it. *)
Definition sample_message : cvalue :=
  CMessage Pointer
    [(FieldDescriptor 1 REPEATED TYPE_SINT32 true false, 0, [CInt (-1); CInt 300]);
     (FieldDescriptor 2 OPTIONAL TYPE_STRING false true, 2, [CString Pointer [104; 105]]);
     (FieldDescriptor 3 REQUIRED TYPE_MESSAGE false false, 0,
       [CMessage Pointer [(FieldDescriptor 1 OPTIONAL TYPE_BYTES false false, 1, [CBytes (replicate 300 7)])] []])]
    [UnknownField 9 0 [5]].

Lemma message_writers_agree_witness :
  message_ok sample_message /\
  exists n, protobuf_c_message_get_packed_size sample_message = Some n /\ 0 <= n /\
    (n < UINT32_MOD -> exists out, protobuf_c_message_pack sample_message = Some out /\ blen out = n /\
      (simple_valid (PROTOBUF_C_BUFFER_SIMPLE_INIT 16) -> blen [] + n <= 4611686018427387904 ->
        exists b', @protobuf_c_message_pack_to_buffer (fun _ => true) _ (simple_buffer (fun _ => true)) sample_message (PROTOBUF_C_BUFFER_SIMPLE_INIT 16) =
            Some (n, b') /\
          simple_valid b' /\ sb_data b' = [] ++ out)).
Proof.
  assert (message_ok sample_message) as Hok by (cbn; unfold is_u32, UINT32_MOD; repeat split; try lia; try discriminate; try (eexists; reflexivity);
    repeat constructor; cbn; unfold is_u32, UINT32_MOD; lia).
  split; [exact Hok|].
  exact (@message_writers_agree (fun _ => true) _ (simple_buffer (fun _ => true)) (simple_laws (fun _ => true) (fun _ => eq_refl))
    sample_message (PROTOBUF_C_BUFFER_SIMPLE_INIT 16) (fun _ => eq_refl) Hok).
Defined.

(** For the messages of the library this is the writer of Protobuf.v. *)
Theorem library_messages_are_written_alike do_alloc {B} `{BufferLaws B} fs ss n (b : B) : (forall n, do_alloc n = true) ->
  desc_ok (TMsg fs) = true -> wf_message fs ss ->
  protobuf_c_message_get_packed_size (cmessage_of fs ss) = Some n -> n < UINT32_MOD ->
  valid b -> blen (contents b) + n <= capacity (B := B) ->
  n = get_packed_size fs ss /\ protobuf_c_message_pack (cmessage_of fs ss) = Some (pack fs ss) /\
  exists b', protobuf_c_message_pack_to_buffer do_alloc (cmessage_of fs ss) b = Some (n, b') /\ contents b' = contents b ++ pack fs ss.
Proof.
  intros Halloc Hd Hwf En Hn Hb Hc. destruct (cmessage_of_ok fs ss Hd Hwf) as [Hok Hp].
  destruct (writers_agree do_alloc (B := B) _ Halloc Hok) as (n' & En' & _ & Ha). rewrite En in En'. injection En' as <-.
  destruct (Ha Hn) as (out & Eo & Lo & Wo). rewrite Hp in Eo. injection Eo as <-. rewrite (get_packed_size_pack fs ss Hd Hwf), <- Lo.
  split; [done|]. split; [done|]. rewrite <- Lo in Hc. destruct (Wo b Hb Hc) as (b' & E & _ & C). by exists b'.
Qed.

(** Where memory cannot be had, the octets of a message within a message are
    dropped and its buffer is read beyond what was written, although the buffer
    of the whole message has room; with memory, or written to memory, the same
    message is fine. *)
Theorem nested_message_without_memory_is_read_beyond_its_buffer :
  let b := PROTOBUF_C_BUFFER_SIMPLE_INIT 4096 in
  @protobuf_c_message_pack_to_buffer (fun _ => false) _ (simple_buffer (fun _ => false)) sample_message b = None /\
  exists out b', protobuf_c_message_pack sample_message = Some out /\
    @protobuf_c_message_pack_to_buffer (fun _ => true) _ (simple_buffer (fun _ => true)) sample_message b = Some (blen out, b') /\ sb_data b' = out.
Proof. split; [by vm_compute|]. eexists _, _. split; [by vm_compute|]. split; by vm_compute. Qed.
