(* ===== verification/Contexts.v ===== *)
(** signal_protocol.c: the global context with its locking functions and the
    context of the data stores; and what the locks are for.  The operations of
    the session and group ciphers and builders are calls [signal_lock], a body
    that works on the stores, [signal_unlock].  Threads take turns between any
    two steps of their bodies; where the locking functions are set, whatever the
    threads do they could have done one call after another, and they never
    wait for each other forever. *)
From stdpp Require Import base list relations.
From Stdlib Require Import ZArith Lia.
From S2P Require Import Prelude.
#[local] Open Scope Z_scope.

(** ** Locking functions *)

(** A mutex that allows recursive locking, as the documentation of
    [signal_context_set_locking_functions] asks for: [None] makes the caller
    wait; [owner] is the thread that holds the mutex and how often it has
    locked it again. *)
Class RecursiveMutex (L : Type) : Type := {
  mutex_lock : nat -> L -> option L;
  mutex_unlock : nat -> L -> L;
  owner : L -> option (nat * nat);
  lock_free m i : owner m = None -> exists m', mutex_lock i m = Some m' /\ owner m' = Some (i, 0%nat);
  lock_again m i d : owner m = Some (i, d) -> exists m', mutex_lock i m = Some m' /\ owner m' = Some (i, S d);
  lock_waits m i j d : owner m = Some (j, d) -> i <> j -> mutex_lock i m = None;
  unlock_again m i d : owner m = Some (i, S d) -> owner (mutex_unlock i m) = Some (i, d);
  unlock_last m i : owner m = Some (i, 0%nat) -> owner (mutex_unlock i m) = None
}.

(** ** Contexts *)

(** The functions of a crypto provider that are looked at: which of them are
    not null. *)
Record signal_crypto_provider : Type := CryptoProviderFunctions {
  has_random_func : bool;
  has_hmac_sha256_init_func : bool;
  has_hmac_sha256_update_func : bool;
  has_hmac_sha256_final_func : bool;
  has_hmac_sha256_cleanup_func : bool;
  has_sha512_digest_func : bool;
  has_encrypt_func : bool;
  has_decrypt_func : bool
}.

(** A store with its [destroy_func] and [user_data]; the other functions of the
    stores are in Store.v. *)
Record data_store : Type := DataStore { destroy_func : option Z; store_user_data : Z }.

Record signal_protocol_store_context : Type := StoreContext {
  session_store : data_store;
  pre_key_store : data_store;
  signed_pre_key_store : data_store;
  identity_key_store : data_store;
  sender_key_store : data_store
}.

Definition no_store : data_store := DataStore None 0.
Definition signal_protocol_store_context_create : signal_protocol_store_context := StoreContext no_store no_store no_store no_store no_store.

(** A setter copies a store that is not null. *)
Definition set_store (store : option data_store) (set : data_store -> signal_protocol_store_context) (context : signal_protocol_store_context)
    : Z * signal_protocol_store_context :=
  match store with Some s => (0, set s) | None => (SG_ERR_INVAL, context) end.

Definition signal_protocol_store_context_set_session_store (context : signal_protocol_store_context) (store : option data_store) :=
  let '(StoreContext a b c d e) := context in set_store store (fun s => StoreContext s b c d e) context.
Definition signal_protocol_store_context_set_pre_key_store (context : signal_protocol_store_context) (store : option data_store) :=
  let '(StoreContext a b c d e) := context in set_store store (fun s => StoreContext a s c d e) context.
Definition signal_protocol_store_context_set_signed_pre_key_store (context : signal_protocol_store_context) (store : option data_store) :=
  let '(StoreContext a b c d e) := context in set_store store (fun s => StoreContext a b s d e) context.
Definition signal_protocol_store_context_set_identity_key_store (context : signal_protocol_store_context) (store : option data_store) :=
  let '(StoreContext a b c d e) := context in set_store store (fun s => StoreContext a b c s e) context.
Definition signal_protocol_store_context_set_sender_key_store (context : signal_protocol_store_context) (store : option data_store) :=
  let '(StoreContext a b c d e) := context in set_store store (fun s => StoreContext a b c d s) context.

(** The calls of destroy functions with their user data, in order. *)
Definition signal_protocol_store_context_destroy (context : option signal_protocol_store_context) : list (Z * Z) :=
  match context with
  | None => []
  | Some (StoreContext a b c d e) =>
      omap (fun s => f ← destroy_func s; Some (f, store_user_data s)) [a; b; c; d; e]
  end.

Section contexts.
Context {L : Type}.

Record signal_context : Type := SignalContext {
  crypto_provider : option signal_crypto_provider;
  lock : option (nat -> L -> option L);
  unlock : option (nat -> L -> L);
  log : option Z
}.

Definition signal_context_create : signal_context := SignalContext None None None None.

Definition signal_context_set_crypto_provider (context : signal_context) (provider : option signal_crypto_provider) : Z * signal_context :=
  match provider with
  | Some p =>
      if has_hmac_sha256_init_func p && has_hmac_sha256_update_func p && has_hmac_sha256_final_func p && has_hmac_sha256_cleanup_func p
      then (0, SignalContext (Some p) (lock context) (unlock context) (log context))
      else (SG_ERR_INVAL, context)
  | None => (SG_ERR_INVAL, context)
  end.

Definition signal_context_set_locking_functions (context : signal_context) (lock : option (nat -> L -> option L)) (unlock : option (nat -> L -> L))
    : Z * signal_context :=
  match lock, unlock with
  | Some _, None | None, Some _ => (SG_ERR_INVAL, context)
  | _, _ => (0, SignalContext (crypto_provider context) lock unlock (log context))
  end.

Definition signal_context_set_log_function (context : signal_context) (log : option Z) : Z * signal_context :=
  (0, SignalContext (crypto_provider context) (lock context) (unlock context) log).

(** [thread] is the caller; [None] makes it wait. *)
Definition signal_lock (context : signal_context) (thread : nat) (m : L) : option L :=
  match lock context with Some f => f thread m | None => Some m end.

Definition signal_unlock (context : signal_context) (thread : nat) (m : L) : L :=
  match unlock context with Some f => f thread m | None => m end.
End contexts.
Arguments signal_context L : clear implicits.

(** ** Threads *)

Section threads.
Context {U A L : Type}.

(** What a call does between [signal_lock] and [signal_unlock]: steps on the
    world, which no other thread can interrupt, and calls within the call (a
    decryption callback may use the library). *)
Inductive body : Type :=
| Finished (o : outcome A)
| Atomic (f : world U -> world U * body)
| Nested (b : body) (k : outcome A -> body).

(** A call alone. *)
Fixpoint run (b : body) (w : world U) : outcome A * world U :=
  match b with
  | Finished o => (o, w)
  | Atomic f => let (w', b') := f w in run b' w'
  | Nested b' k => let (o, w') := run b' w in run (k o) w'
  end.

(** The calls still to be made, the call being made with the calls around it,
    and the results. *)
Record thread : Type := Thread {
  calls : list body;
  now : option (body * list (outcome A -> body));
  results : list (outcome A)
}.

Record config : Type := Config {
  shared : world U;
  mutex : L;
  threads : list thread
}.

(** One step of the thread [i]. *)
Inductive cstep (context : signal_context L) : config -> config -> Prop :=
| step_enter w m m' ts i c cs rs : ts !! i = Some (Thread (c :: cs) None rs) -> signal_lock context i m = Some m' ->
    cstep context (Config w m ts) (Config w m' (<[i := Thread cs (Some (c, [])) rs]> ts))
| step_atomic w m ts i cs f ks rs w' b : ts !! i = Some (Thread cs (Some (Atomic f, ks)) rs) -> f w = (w', b) ->
    cstep context (Config w m ts) (Config w' m (<[i := Thread cs (Some (b, ks)) rs]> ts))
| step_nested w m m' ts i cs b k ks rs : ts !! i = Some (Thread cs (Some (Nested b k, ks)) rs) -> signal_lock context i m = Some m' ->
    cstep context (Config w m ts) (Config w m' (<[i := Thread cs (Some (b, k :: ks)) rs]> ts))
| step_return w m ts i cs o k ks rs : ts !! i = Some (Thread cs (Some (Finished o, k :: ks)) rs) ->
    cstep context (Config w m ts) (Config w (signal_unlock context i m) (<[i := Thread cs (Some (k o, ks)) rs]> ts))
| step_leave w m ts i cs o rs : ts !! i = Some (Thread cs (Some (Finished o, [])) rs) ->
    cstep context (Config w m ts) (Config w (signal_unlock context i m) (<[i := Thread cs None (rs ++ [o])]> ts)).

(** One thread makes a whole call while the others wait. *)
Inductive serial : world U * list thread -> world U * list thread -> Prop :=
| serial_call w ts i c cs rs o w' : ts !! i = Some (Thread (c :: cs) None rs) -> run c w = (o, w') ->
    serial (w, ts) (w', <[i := Thread cs None (rs ++ [o])]> ts).

Definition idle (t : thread) : Prop := now t = None.
Definition is_done (t : thread) : Prop := now t = None /\ calls t = [].
#[global] Instance is_done_dec t : Decision (is_done t).
Proof. destruct t as [[|c cs] [n|] rs]; unfold is_done; cbn; [right; by intros []|by left|right; by intros []|right; by intros []]. Defined.

(** A call with the calls around it. *)
Fixpoint run_stack (ks : list (outcome A -> body)) (ow : outcome A * world U) : outcome A * world U :=
  match ks with
  | [] => ow
  | k :: ks' => run_stack ks' (run (k (fst ow)) (snd ow))
  end.
End threads.
Arguments body U A : clear implicits.
Arguments thread U A : clear implicits.
Arguments config U A L : clear implicits.

(** ** Schedules *)

Section schedules.
Context {U A L : Type} (context : signal_context L).

(** The step of a thread, if it can go on. *)
Definition step_thread (i : nat) (c : config U A L) : option (config U A L) :=
  let '(Config w m ts) := c in
  t ← ts !! i;
  match t with
  | Thread (call :: cs) None rs => m' ← signal_lock context i m; Some (Config w m' (<[i := Thread cs (Some (call, [])) rs]> ts))
  | Thread cs (Some (Atomic f, ks)) rs => let (w', b) := f w in Some (Config w' m (<[i := Thread cs (Some (b, ks)) rs]> ts))
  | Thread cs (Some (Nested b k, ks)) rs => m' ← signal_lock context i m; Some (Config w m' (<[i := Thread cs (Some (b, k :: ks)) rs]> ts))
  | Thread cs (Some (Finished o, k :: ks)) rs => Some (Config w (signal_unlock context i m) (<[i := Thread cs (Some (k o, ks)) rs]> ts))
  | Thread cs (Some (Finished o, [])) rs => Some (Config w (signal_unlock context i m) (<[i := Thread cs None (rs ++ [o])]> ts))
  | Thread [] None _ => None
  end.

Fixpoint exec (schedule : list nat) (c : config U A L) : option (config U A L) :=
  match schedule with
  | [] => Some c
  | i :: schedule' => c' ← step_thread i c; exec schedule' c'
  end.

Lemma step_thread_sound i c c' : step_thread i c = Some c' -> cstep context c c'.
Proof.
  destruct c as [w m ts]. cbn. destruct (ts !! i) as [[[|call cs] [[[o|f|b k] [|k' ks]]|] rs]|] eqn:Et; cbn; intros Hs; try done;
    repeat (case_match; simplify_eq); try (destruct (signal_lock context i m) as [m'|] eqn:El; cbn in Hs); simplify_eq;
    by econstructor.
Qed.

Lemma exec_sound schedule : forall c c', exec schedule c = Some c' -> rtc (cstep context) c c'.
Proof.
  induction schedule as [|i schedule IH]; intros c c' He; cbn in He; [simplify_eq; apply rtc_refl|].
  destruct (step_thread i c) as [c1|] eqn:Es; [|done]. eapply rtc_l; [by eapply step_thread_sound|by apply IH].
Qed.
End schedules.

(** ** Serializability *)

Section serializability.
Context {U A L : Type} `{RecursiveMutex L} (context : signal_context L).
Context (Hlock : lock context = Some mutex_lock) (Hunlock : unlock context = Some mutex_unlock).
Context (w0 : world U) (ts0 : list (thread U A)).

(** If no thread holds the mutex, the state has been reached by whole calls.  If
    one does, the others are not in a call, and the rest of its call ends as the
    call would have ended if made at once. *)
Definition invariant (c : config U A L) : Prop :=
  match owner (mutex c) with
  | None => Forall idle (threads c) /\ rtc serial (w0, ts0) (shared c, threads c)
  | Some (i, d) => exists cs b ks rs call w1,
      threads c !! i = Some (Thread cs (Some (b, ks)) rs) /\ length ks = d /\
      (forall j t, j <> i -> threads c !! j = Some t -> idle t) /\
      rtc serial (w0, ts0) (w1, <[i := Thread (call :: cs) None rs]> (threads c)) /\
      run_stack ks (run b (shared c)) = run call w1
  end.

(** A thread in a call holds the mutex. *)
Lemma in_call c i t : invariant c -> threads c !! i = Some t -> now t <> None -> exists d, owner (mutex c) = Some (i, d).
Proof.
  unfold invariant. intros Hi Ht Hn. destruct (owner (mutex c)) as [[j d]|].
  - destruct Hi as (cs & b & ks & rs & call & w1 & _ & _ & Ho & _). destruct (decide (i = j)) as [->|Hne]; [by exists d|]. by destruct (Hn (Ho i t Hne Ht)).
  - destruct Hi as [Hidle _]. rewrite Forall_forall in Hidle. by destruct (Hn (Hidle t (list_elem_of_lookup_2 _ _ _ Ht))).
Qed.

(** The holder of the mutex and its call. *)
Lemma holder c i cs b ks rs : invariant c -> threads c !! i = Some (Thread cs (Some (b, ks)) rs) ->
  owner (mutex c) = Some (i, length ks) /\ (forall j t, j <> i -> threads c !! j = Some t -> idle t) /\
  exists call w1, rtc serial (w0, ts0) (w1, <[i := Thread (call :: cs) None rs]> (threads c)) /\ run_stack ks (run b (shared c)) = run call w1.
Proof.
  intros Hi Ht. destruct (in_call c i _ Hi Ht) as [d Hd]; [discriminate|]. unfold invariant in Hi. rewrite Hd in Hi.
  destruct Hi as (cs' & b' & ks' & rs' & call & w1 & Ht' & Hl & Ho & Hs & Hr). rewrite Ht in Ht'. injection Ht' as <- <- <- <-.
  split; [by rewrite Hd, Hl|]. split; [done|]. by exists call, w1.
Qed.

(** A step inside a call. *)
Lemma invariant_inside c w m i cs b ks b' ks' rs : invariant c -> threads c !! i = Some (Thread cs (Some (b, ks)) rs) ->
  owner m = Some (i, length ks') -> run_stack ks' (run b' w) = run_stack ks (run b (shared c)) ->
  invariant (Config w m (<[i := Thread cs (Some (b', ks')) rs]> (threads c))).
Proof.
  intros Hi Ht Hm Hr. destruct (holder c i cs b ks rs Hi Ht) as (_ & Ho & call & w1 & Hs & Hrun). unfold invariant. cbn [mutex shared threads]. rewrite Hm.
  exists cs, b', ks', rs, call, w1. split; [apply list_lookup_insert_eq; by eapply lookup_lt_Some|]. split; [done|].
  split; [intros j t Hj Hjt; rewrite list_lookup_insert_ne in Hjt by done; by eapply Ho|]. rewrite list_insert_insert_eq. by rewrite Hr.
Qed.

Lemma invariant_step c c' : invariant c -> cstep context c c' -> invariant c'.
Proof.
  intros Hi Hs. destruct Hs as [w m m' ts i call cs rs Ht Hl|w m ts i cs f ks rs w' b Ht Hf|w m m' ts i cs b k ks rs Ht Hl|w m ts i cs o k ks rs Ht|w m ts i cs o rs Ht];
    unfold signal_lock, signal_unlock in *; rewrite ?Hlock, ?Hunlock in *.
  - unfold invariant in Hi. cbn [mutex shared threads] in Hi. destruct (owner m) as [[j d]|] eqn:Eo.
    { destruct (decide (i = j)) as [->|Hne]; [|by rewrite (lock_waits m i j d Eo Hne) in Hl]. destruct Hi as (? & ? & ? & ? & ? & ? & Hj & _). congruence. }
    destruct Hi as [Hidle Hser]. destruct (lock_free m i Eo) as (m1 & E1 & O1). rewrite Hl in E1. injection E1 as <-.
    unfold invariant. cbn [mutex shared threads]. rewrite O1. exists cs, call, [], rs, call, w.
    split; [apply list_lookup_insert_eq; by eapply lookup_lt_Some|]. split; [done|]. split.
    + intros j t Hj Hjt. rewrite list_lookup_insert_ne in Hjt by done. rewrite Forall_forall in Hidle. by eapply Hidle, list_elem_of_lookup_2.
    + rewrite list_insert_insert_eq, list_insert_id by done. done.
  - apply (invariant_inside _ _ _ _ _ _ _ _ _ _ Hi Ht); [apply (holder _ _ _ _ _ _ Hi Ht)|]. cbn [run shared]. by rewrite Hf.
  - destruct (holder _ _ _ _ _ _ Hi Ht) as (Ho & _). cbn [mutex] in Ho. destruct (lock_again m i _ Ho) as (m1 & E1 & O1). rewrite Hl in E1. injection E1 as <-.
    apply (invariant_inside _ _ _ _ _ _ _ _ _ _ Hi Ht); [done|]. cbn [run run_stack shared]. by destruct (run b w).
  - destruct (holder _ _ _ _ _ _ Hi Ht) as (Ho & _). cbn [mutex] in Ho. apply (invariant_inside _ _ _ _ _ _ _ _ _ _ Hi Ht); [by apply unlock_again|done].
  - destruct (holder _ _ _ _ _ _ Hi Ht) as (Ho & Hoth & call & w1 & Hser & Hrun). cbn [mutex shared threads run run_stack length] in *.
    unfold invariant. cbn [mutex shared threads]. rewrite (unlock_last m i Ho). assert (i < length ts)%nat as Hlt by by eapply lookup_lt_Some. split.
    + apply Forall_lookup. intros j t Hj. destruct (decide (j = i)) as [->|Hne].
      * rewrite list_lookup_insert_eq in Hj by done. by injection Hj as <-.
      * rewrite list_lookup_insert_ne in Hj by done. by eapply Hoth.
    + eapply rtc_r; [exact Hser|]. pose proof (serial_call w1 (<[i:=Thread (call :: cs) None rs]> ts) i call cs rs o w) as Hc.
      rewrite list_insert_insert_eq in Hc. apply Hc; [by apply list_lookup_insert_eq|done].
Qed.

Lemma invariant_reachable m0 c : owner m0 = None -> Forall idle ts0 -> rtc (cstep context) (Config w0 m0 ts0) c -> invariant c.
Proof.
  intros Hm Hi Hr. assert (invariant (Config w0 m0 ts0)) as H0 by (unfold invariant; cbn; rewrite Hm; done).
  remember (Config w0 m0 ts0) as c0. clear Heqc0. induction Hr as [|c0 c1 c2 Hs _ IH]; [done|]. apply IH. by eapply invariant_step.
Qed.

(** Some thread can go on. *)
Lemma invariant_progress c : invariant c -> ~ Forall is_done (threads c) -> exists c', cstep context c c'.
Proof.
  destruct c as [w m ts]. intros Hi Hd. pose proof Hi as Hi'. unfold invariant in Hi'. cbn [mutex shared threads] in *. destruct (owner m) as [[i d]|] eqn:Eo.
  - destruct Hi' as (cs & b & ks & rs & call & w1 & Ht & Hl & _). destruct b as [o|f|b k].
    + destruct ks as [|k ks]; eexists; [by eapply step_leave|by eapply step_return].
    + destruct (f w) as [w' b'] eqn:Ef. eexists. by eapply step_atomic.
    + destruct (lock_again m i d Eo) as (m' & Em & _). eexists. eapply step_nested; [exact Ht|]. unfold signal_lock. by rewrite Hlock.
  - destruct Hi' as [Hidle _]. apply not_Forall_Exists in Hd; [|apply _].
    apply Exists_exists in Hd as (t & Hin & Hnd). apply list_elem_of_lookup_1 in Hin as [i Ht].
    rewrite Forall_forall in Hidle. pose proof (Hidle t (list_elem_of_lookup_2 _ _ _ Ht)) as Hn. destruct t as [[|call cs] n rs]; unfold idle in Hn; cbn in Hn; subst n.
    + by destruct Hnd.
    + destruct (lock_free m i Eo) as (m' & Em & _). eexists. eapply step_enter; [exact Ht|]. unfold signal_lock. by rewrite Hlock.
Qed.
End serializability.

Lemma locked_serial {U A L} `{RecursiveMutex L} (context0 context : signal_context L) (w0 : world U) m0 (ts0 : list (thread U A)) c :
  signal_context_set_locking_functions context0 (Some mutex_lock) (Some mutex_unlock) = (0, context) ->
  owner m0 = None -> Forall idle ts0 -> rtc (cstep context) (Config w0 m0 ts0) c -> Forall idle (threads c) ->
  rtc serial (w0, ts0) (shared c, threads c).
Proof.
  intros [= <-] Hm Hi Hr Hidle. pose proof (invariant_reachable (SignalContext (crypto_provider context0) (Some mutex_lock) (Some mutex_unlock) (log context0))
    eq_refl eq_refl w0 ts0 m0 c Hm Hi Hr) as Hinv.
  unfold invariant in Hinv. destruct (owner (mutex c)) as [[i d]|]; [exfalso|by apply Hinv].
  destruct Hinv as (cs & b & ks & rs & call & w1 & Ht & _). rewrite Forall_forall in Hidle. by specialize (Hidle _ (list_elem_of_lookup_2 _ _ _ Ht)).
Qed.

(** ** Theorems *)


(** A counting mutex. *)
#[global, refine] Instance counting_mutex : RecursiveMutex (option (nat * nat)) := {|
  mutex_lock i m := match m with
    | None => Some (Some (i, 0%nat))
    | Some (j, d) => if decide (i = j) then Some (Some (j, S d)) else None end;
  mutex_unlock i m := match m with Some (j, S d) => Some (j, d) | _ => None end;
  owner m := m
|}.
Proof.
  - intros m i ->. by eexists.
  - intros m i d ->. rewrite decide_True by done. by eexists.
  - intros m i j d -> Hne. by rewrite decide_False.
  - by intros m i d ->.
  - by intros m i ->.
Defined.

(** Two threads add to a number, one of them in a call within a call. *)
Definition add_call (n : Z) : body Z Z :=
  Atomic (fun w => (w, Atomic (fun w' => (World (w_mem w') (w_rng w') (w_user w + n), Finished (Ok (w_user w)))))).
Definition two_threads : list (thread Z Z) :=
  [Thread [add_call 1] None []; Thread [Nested (add_call 10) (fun _ => add_call 100)] None []].
Definition locked_context : signal_context (option (nat * nat)) := SignalContext None (Some mutex_lock) (Some mutex_unlock) None.

(** The first thread has made its call, the second is in its inner call. *)
Definition between_calls : config Z Z (option (nat * nat)) :=
  Config (World [] 0%nat 1) (Some (1%nat, 1%nat)) [Thread [] None [Ok 0]; Thread [] (Some (add_call 10, [fun _ => add_call 100])) []].


(** A context never has one locking function without the other. *)
Lemma locking_functions_come_together {L} (context context' : signal_context L) l u r :
  (lock context = None <-> unlock context = None) -> signal_context_set_locking_functions context l u = (r, context') ->
  (lock context' = None <-> unlock context' = None) /\ (r = 0 \/ context' = context).
Proof. destruct l, u; intros Hc [= <- <-]; cbn; naive_solver. Qed.
