(* ===== verification/Threads.v ===== *)
(** session_cipher.c under the locks of Contexts.v: the steps of
    [session_cipher_encrypt], between any two of which another thread may run.
    With the locking functions set, encryptions for one session in any number of
    threads use different message keys; without them two threads use the same. *)
From stdpp Require Import base list relations gmap.
From Stdlib Require Import ZArith Lia.
From S2P Require Import Prelude Buffers Hkdf Curve Sample Protobuf Ratchet SessionState SessionRecord Protocol Store Scenario.
From S2P Require Import SessionBuilder SessionCipher DoubleRatchet Sessions Handshake Conversation Contexts.
#[local] Open Scope Z_scope.
#[local] Open Scope signal_scope.

(** ** Operations as steps *)

Section steps.
Context {U A : Type}.

(** An operation of the model as one step of a call. *)
Definition step_of {X} (m : M U X) (k : X -> body U A) : body U A :=
  Atomic (fun w => match m w with
    | (Ok x, w') => (w', k x)
    | (Err e, w') => (w', Finished (Err e))
    | (Fault f, w') => (w', Finished (Fault f))
    end).

Lemma run_step {X} (m : M U X) (k : X -> body U A) (k' : X -> M U A) w :
  (forall x w', run (k x) w' = k' x w') -> run (step_of m k) w = bind m k' w.
Proof. intros Hk. cbn. unfold bind. destruct (m w) as [[x|e|f] w']; [apply Hk|done|done]. Qed.
End steps.

Section encrypt.
Context {U : Type} `{CP : CryptoProvider} `{CV : Curve25519} `{ST : Stores U}.

(** [session_cipher_encrypt] with a step for every call it makes. *)
Definition encrypt_call (cipher : session_cipher U) (padded_message : bytes) : body U ciphertext_message :=
  if cp_inside_callback cipher then Finished (Err SG_ERR_INVAL) else
  step_of (signal_protocol_session_load_session (cp_remote_address cipher)) (fun record =>
  let state := rec_state record in
  step_of (require (session_state_get_sender_chain_key state) SG_ERR_UNKNOWN) (fun chain_key =>
  step_of (ratchet_chain_key_get_message_keys chain_key) (fun message_keys =>
  step_of (require (session_state_get_sender_ratchet_key state) SG_ERR_UNKNOWN) (fun sender_ephemeral =>
  step_of (session_cipher_get_ciphertext (st_session_version state) message_keys padded_message) (fun ciphertext =>
  step_of (require (st_local_identity_public state) SG_ERR_UNKNOWN) (fun local_identity_key =>
  step_of (require (st_remote_identity_public state) SG_ERR_UNKNOWN) (fun remote_identity_key =>
  step_of (signal_message_create (st_session_version state) (mac_key message_keys) sender_ephemeral
    (ratchet_chain_key_get_index chain_key) (st_previous_counter state) ciphertext (Some local_identity_key) (Some remote_identity_key)) (fun message =>
  step_of (if st_has_pending_pre_key state then
      let pending := st_pending_pre_key state in
      let* base_key := require (ppk_base_key pending) SG_ERR_UNKNOWN in
      let* m := pre_key_signal_message_create (st_session_version state) (st_local_registration_id state)
        (ppk_pre_key_id pending) (ppk_signed_pre_key_id pending) base_key local_identity_key message in
      ret (CiphertextPreKey m)
    else ret (CiphertextSignal message)) (fun encrypted_message =>
  step_of (ratchet_chain_key_create_next chain_key) (fun next_chain_key =>
  step_of (session_state_set_sender_chain_key next_chain_key state) (fun state =>
  step_of (signal_protocol_session_store_session (cp_remote_address cipher) (session_record_set_state record state)) (fun _ =>
  Finished (Ok encrypted_message))))))))))))).

Lemma run_encrypt_call cipher p w : run (encrypt_call cipher p) w = session_cipher_encrypt cipher p w.
Proof.
  unfold encrypt_call, session_cipher_encrypt. destruct (cp_inside_callback cipher); [done|].
  repeat (apply run_step; intros). done.
Qed.
End encrypt.

(** ** Message keys *)

(** The position of the message keys in the sending chain. *)
Definition message_counter (m : ciphertext_message) : Z :=
  match m with CiphertextSignal m => sgm_counter m | CiphertextPreKey m => sgm_counter (pkm_message m) end.

Definition counter_of (o : outcome ciphertext_message) : option Z := match o with Ok m => Some (message_counter m) | _ => None end.

Section keys.
Context {U : Type} `{CL : CryptoLaws} `{VL : CurveLaws} `{SL : StoreLaws U}.
Context (address : signal_protocol_address).

(** The plaintexts the provider can encrypt. *)
Definition encryptable (p : bytes) : Prop := forall key iv, exists ct, encrypt_func SG_CIPHER_AES_CBC_PKCS5 key iv p = inl ct /\ short ct.

(** Calls that encrypt for the address. *)
Definition encrypts (c : body U ciphertext_message) : Prop :=
  exists cipher p, c = encrypt_call cipher p /\ cp_remote_address cipher = address /\ cp_inside_callback cipher = false /\ encryptable p.

Definition all_results (ts : list (thread U ciphertext_message)) : list (outcome ciphertext_message) := concat (map results ts).
Definition calls_left (ts : list (thread U ciphertext_message)) : Z := sumZ (map (fun t => Z.of_nat (length (calls t))) ts).

(** A session whose sending chain is at the position [n]. *)
Definition sending_at (w : world U) (n : Z) : Prop :=
  mem_ok w /\ exists r kp ck local remote, holds (w_user w) address r /\
    sc_ratchet_key_pair (st_sender_chain (rec_state r)) = Some kp /\ sc_chain_key (st_sender_chain (rec_state r)) = Some ck /\
    st_local_identity_public (rec_state r) = Some local /\ st_remote_identity_public (rec_state r) = Some remote /\ chain_index ck = n.

Lemma encrypt_call_ok c w n : encrypts c -> sending_at w n -> 0 <= n < UINT32_MOD - 1 ->
  exists m w', run c w = (Ok m, w') /\ message_counter m = n /\ sending_at w' (n + 1).
Proof.
  intros (cipher & p & -> & Ha & Hin & Hp) (Hm & r & kp & ck & local & remote & Hh & Hkp & Hck & Hlo & Hre & <-) Hn.
  destruct (Hp (cipher_key (Ratchet.message_keys ck)) (iv (Ratchet.message_keys ck))) as (ct & Hct & Hs). rewrite <- Ha in Hh.
  destruct (encrypt_ok cipher r kp ck local remote ct p w) as (w' & E & Hm' & _ & Hh'); try done.
  eexists _, w'. rewrite run_encrypt_call. split; [exact E|]. split; [unfold wrap; by repeat case_match|]. split; [done|].
  rewrite Ha in Hh'. eexists _, kp, (Ratchet.next_chain ck), local, remote. split; [exact Hh'|].
  assert (chain_index (Ratchet.next_chain ck) = chain_index ck + 1) as E1 by (cbn; apply Z.mod_small; unfold UINT32_MOD in *; lia).
  destruct r as [[] prev fresh]. cbn in *. done.
Qed.

Lemma results_insert ts i c cs rs o : ts !! i = Some (Thread (c :: cs) None rs) ->
  all_results (<[i := Thread cs None (rs ++ [o])]> ts) ≡ₚ o :: all_results ts /\
  calls_left (<[i := Thread cs None (rs ++ [o])]> ts) = calls_left ts - 1.
Proof.
  intros Ht. pose proof (lookup_lt_Some _ _ _ Ht) as Hlt. pose proof (take_drop_middle ts i _ Ht) as E1.
  pose proof (insert_take_drop ts i (Thread cs None (rs ++ [o])) Hlt) as E2. rewrite E2. clear E2 Hlt Ht. revert E1.
  generalize (take i ts) (drop (S i) ts). intros a b <-. unfold all_results, calls_left, sumZ. rewrite !map_app, !concat_app, !fold_right_app.
  cbn [map results calls concat length]. split.
  - rewrite <- app_assoc. rewrite !app_assoc. rewrite <- app_assoc. cbn [app]. rewrite <- Permutation_middle. by rewrite ?app_assoc.
  - cbn [fold_right]. set (x := fold_right Z.add 0 (map _ b)). generalize (map (fun t : thread U ciphertext_message => Z.of_nat (length (calls t))) a).
    intros l. induction l as [|k l IH]; cbn [fold_right]; lia.
Qed.

(** What whole calls keep: all results so far have positions of their own, before
    the position of the sending chain. *)
Definition keys_invariant (n0 : Z) (wts : world U * list (thread U ciphertext_message)) : Prop :=
  Forall (fun t => idle t /\ Forall encrypts (calls t)) (snd wts) /\
  NoDup (map counter_of (all_results (snd wts))) /\
  exists n, sending_at (fst wts) n /\ n0 <= n /\ n + calls_left (snd wts) < UINT32_MOD /\
    Forall (fun o => exists k, counter_of o = Some k /\ n0 <= k < n) (all_results (snd wts)).

Lemma calls_left_nonneg ts : 0 <= calls_left ts.
Proof. unfold calls_left, sumZ. induction ts as [|t ts IH]; cbn [map fold_right]; lia. Qed.

Lemma keys_serial n0 s s' : 0 <= n0 -> serial s s' -> keys_invariant n0 s -> keys_invariant n0 s'.
Proof.
  intros H0 [w ts i c cs rs o w' Ht Hr] (Hts & Hnd & n & Hs & Hn & Hleft & Hres). cbn [fst snd] in *.
  destruct (results_insert ts i c cs rs o Ht) as [Hp Hc].
  pose proof (proj1 (Forall_forall _ _) Hts _ (list_elem_of_lookup_2 _ _ _ Ht)) as [_ Hcs]. cbn in Hcs. apply Forall_cons in Hcs as [Hcall Hcs].
  pose proof (calls_left_nonneg (<[i := Thread cs None (rs ++ [o])]> ts)). destruct (encrypt_call_ok c w n Hcall Hs ltac:(lia)) as (m & w1 & E & Hm & Hs').
  rewrite Hr in E. injection E as -> ->. split; [|split].
  - cbn [snd]. apply Forall_insert; [done|]. split; [done|exact Hcs].
  - cbn [snd]. rewrite Hp. cbn [map]. apply NoDup_cons. split; [|done]. cbn [counter_of]. rewrite Hm. intros Hin%list_elem_of_fmap.
    destruct Hin as (o' & Ho & Hin). rewrite Forall_forall in Hres. destruct (Hres _ Hin) as (k & Hk & ?). rewrite Hk in Ho. injection Ho as ->. lia.
  - exists (n + 1). cbn [fst snd]. split; [done|]. split; [lia|]. split; [lia|]. rewrite Hp. constructor; [exists n; cbn; rewrite Hm; split; [done|lia]|].
    eapply Forall_impl; [exact Hres|]. intros o' (k & ? & ?). exists k. split; [done|lia].
Qed.

Lemma keys_reachable n0 s s' : 0 <= n0 -> rtc serial s s' -> keys_invariant n0 s -> keys_invariant n0 s'.
Proof. intros H0 Hr. induction Hr as [|s s1 s' H1 _ IH]; [done|]. intros Hi. by eapply IH, keys_serial. Qed.

End keys.

(** ** Two threads of Alice *)

Definition encrypting_threads : list (thread store ciphertext_message) :=
  [Thread [encrypt_call alice_cipher [7]] None []; Thread [encrypt_call alice_cipher [8]] None []].

(** A call has fourteen steps: to enter, twelve for the calls it makes, and to
    leave. *)
Definition turns (i : nat) : list nat := replicate 14 i.

Lemma sample_encryptable p : short p -> encryptable p.
Proof.
  intros Hp key iv. exists (xor_with key p). split; [done|]. unfold short in *.
  by rewrite (sample_encrypt_length SG_CIPHER_AES_CBC_PKCS5 key iv p _ eq_refl).
Qed.

Lemma alice_sends_from_one : sending_at bob_address alice_world 1.
Proof.
  split; [reflexivity|]. exists alice_record, alice_ratchet_pair, alice_chain, (identity_public alice_identity), (identity_public bob_identity).
  split; [apply alice_holds|]. repeat split; by vm_compute.
Qed.


(** Both threads load the session, then one makes its call, then the other. *)
Definition race : option (config store ciphertext_message (option (nat * nat))) :=
  exec signal_context_create ([0; 1; 0; 1]%nat ++ replicate 12 0%nat ++ replicate 12 1%nat) (Config alice_world None encrypting_threads).
Definition race_results : option (list (list (outcome ciphertext_message))) := option_map (fun c => map results (threads c)) race.
Definition first_result : ciphertext_message :=
  Eval vm_compute in match race_results with Some ([Ok m] :: _) => m | _ => CiphertextSignal dummy_message end.
Definition second_result : ciphertext_message :=
  Eval vm_compute in match race_results with Some [_; [Ok m]] => m | _ => CiphertextSignal dummy_message end.

Lemma race_results_eq : race_results = Some [[Ok first_result]; [Ok second_result]].
Proof. vm_compute. reflexivity. Qed.

Lemma race_inv rs : race_results = Some rs -> exists c,
  rtc (cstep (signal_context_create (L := option (nat * nat)))) (Config alice_world None encrypting_threads) c /\ map results (threads c) = rs.
Proof.
  unfold race_results, race. generalize ([0; 1; 0; 1]%nat ++ replicate 12 0%nat ++ replicate 12 1%nat). intros schedule.
  destruct (exec signal_context_create schedule (Config alice_world None encrypting_threads)) as [c|] eqn:E; [|done].
  intros [= <-]. exists c. split; [by apply exec_sound in E|done].
Qed.

(** Without locking functions two threads may load the session before either has
    stored it, and then encrypt different messages with the same keys. *)
Theorem unlocked_encryptions_reuse_a_key : exists c m1 m2,
  rtc (cstep (signal_context_create (L := option (nat * nat)))) (Config alice_world None encrypting_threads) c /\
  map results (threads c) = [[Ok m1]; [Ok m2]] /\ message_counter m1 = message_counter m2 /\ m1 <> m2.
Proof.
  destruct (race_inv _ race_results_eq) as (c & Hc & Hr). exists c, first_result, second_result. split; [exact Hc|]. split; [exact Hr|].
  split; [vm_compute; reflexivity|]. intros E. apply (f_equal (fun m => match m with CiphertextSignal m => sgm_ciphertext m | CiphertextPreKey m => sgm_ciphertext (pkm_message m) end)) in E.
  vm_compute in E. discriminate.
Qed.
