(* ===== verification/Staging.v ===== *)
(** session_state.c, session_record.c, sender_key_state.c, sender_key_record.c: the
    memory behind serialization.  The [_serialize_prepare] functions allocate the
    structures that are packed and the octets of their fields; the [_free]
    functions free them.  Whichever allocations fail nothing is freed twice, and
    a serialization that succeeds keeps only the buffer it returns; one that fails
    inside an array loses the element it was working on. *)
From stdpp Require Import base list sets gmap.
From Stdlib Require Import ZArith Lia.
From S2P Require Import Prelude Ratchet SessionState SessionRecord SenderKeys.

(** ** Allocation *)

(** The addresses in use, and which of the next allocations succeed. *)
Definition memory : Type := gset nat * list bool.

(** [None] is undefined behaviour. *)
Definition staging (A : Type) : Type := memory -> option (A * memory).
Definition give {A} (a : A) : staging A := fun m => Some (a, m).
Definition sequence {A B} (p : staging A) (k : A -> staging B) : staging B := fun m =>
  match p m with Some (a, m') => k a m' | None => None end.
#[local] Notation "'bind' x <~ p ; k" := (sequence p (fun x => k)) (at level 100, x strict pattern, p at next level, k at level 200, right associativity).

(** The null pointer is [None]. *)
Definition allocate : staging (option nat) := fun m =>
  let '(used, oracle) := m in
  match oracle with
  | false :: oracle' => Some (None, (used, oracle'))
  | _ => let a := fresh used in Some (Some a, ({[a]} ∪ used, tail oracle))
  end.

Definition release (a : nat) : staging () := fun m =>
  let '(used, oracle) := m in if decide (a ∈ used) then Some ((), (used ∖ {[a]}, oracle)) else None.

(** A structure, array or string of octets with what its members point to. *)
Inductive staged : Type :=
| Nothing
| Block (address : nat) (members : list staged).

(** The result is [false] if an allocation failed. *)
Abbreviation preparation := (staging (bool * staged)).

(** The fields of a structure, in order, until one fails. *)
Fixpoint prepare_fields (ps : list preparation) : staging (bool * list staged) :=
  match ps with
  | [] => give (true, [])
  | p :: ps' =>
      bind (ok, s) <~ p;
      if ok then bind (ok', l) <~ prepare_fields ps'; give (ok', s :: l)
      else give (false, s :: map (fun _ => Nothing) ps')
  end.

(** The elements of an array; the one that fails is not counted. *)
Fixpoint prepare_elements (ps : list preparation) : staging (bool * list staged) :=
  match ps with
  | [] => give (true, [])
  | p :: ps' =>
      bind (ok, s) <~ p;
      if ok then bind (ok', l) <~ prepare_elements ps'; give (ok', s :: l)
      else give (false, [])
  end.

Definition block (contents : staging (bool * list staged)) : preparation :=
  bind a <~ allocate;
  match a with
  | None => give (false, Nothing)
  | Some a => bind (ok, l) <~ contents; give (ok, Block a l)
  end.

Definition present {A} (o : option A) (p : preparation) : preparation := match o with Some _ => p | None => give (true, Nothing) end.
Definition flagged (b : bool) (p : preparation) : preparation := if b then p else give (true, Nothing).

(** ** Preparing *)

(** The octets of a key. *)
Definition octets : preparation := block (give (true, [])).

Definition session_state_serialize_prepare_message_keys : preparation := block (prepare_fields [octets; octets; octets]).

Definition session_state_serialize_prepare_chain_message_keys_list {A} (message_keys : list A) : preparation :=
  match message_keys with
  | [] => give (true, Nothing)
  | _ => block (prepare_elements (map (fun _ => session_state_serialize_prepare_message_keys) message_keys))
  end.

Definition session_state_serialize_prepare_chain_chain_key : preparation := block (prepare_fields [octets]).

Definition session_state_serialize_prepare_sender_chain (chain : session_state_sender_chain) : preparation :=
  block (prepare_fields [present (sc_ratchet_key_pair chain) octets; present (sc_ratchet_key_pair chain) octets;
    present (sc_chain_key chain) session_state_serialize_prepare_chain_chain_key;
    session_state_serialize_prepare_chain_message_keys_list (sc_message_keys chain)]).

Definition session_state_serialize_prepare_receiver_chain (chain : session_state_receiver_chain) : preparation :=
  block (prepare_fields [present (rc_ratchet_key chain) octets; give (true, Nothing);
    present (rc_chain_key chain) session_state_serialize_prepare_chain_chain_key;
    session_state_serialize_prepare_chain_message_keys_list (rc_message_keys chain)]).

Definition session_state_serialize_prepare_pending_key_exchange (exchange : session_pending_key_exchange) : preparation :=
  block (prepare_fields [present (pke_local_base_key exchange) octets; present (pke_local_base_key exchange) octets;
    present (pke_local_ratchet_key exchange) octets; present (pke_local_ratchet_key exchange) octets;
    present (pke_local_identity_key exchange) octets; present (pke_local_identity_key exchange) octets]).

Definition session_state_serialize_prepare_pending_pre_key (pre_key : session_pending_pre_key) : preparation :=
  block (prepare_fields [present (ppk_base_key pre_key) octets]).

(** With the structure itself, which the callers allocate. *)
Definition session_state_serialize_prepare (state : session_state) : preparation :=
  block (prepare_fields [present (st_local_identity_public state) octets; present (st_remote_identity_public state) octets;
    present (st_root_key state) octets;
    flagged (st_has_sender_chain state) (session_state_serialize_prepare_sender_chain (st_sender_chain state));
    match st_receiver_chains state with
    | [] => give (true, Nothing)
    | chains => block (prepare_elements (map session_state_serialize_prepare_receiver_chain chains))
    end;
    flagged (st_has_pending_key_exchange state) (session_state_serialize_prepare_pending_key_exchange (st_pending_key_exchange state));
    flagged (st_has_pending_pre_key state) (session_state_serialize_prepare_pending_pre_key (st_pending_pre_key state));
    present (st_alice_base_key state) octets]).

(** The seeds of sender keys are not copied. *)
Definition sender_key_state_serialize_prepare (state : sender_key_state) : preparation :=
  block (prepare_fields [block (prepare_fields []);
    block (prepare_fields [octets; present (sst_signature_private_key state) octets]);
    match sst_message_keys state with
    | [] => give (true, Nothing)
    | keys => block (prepare_elements (map (fun _ => block (prepare_fields [])) keys))
    end]).

(** ** Freeing *)

(** A structure whose members are freed by [frees], in order. *)
Fixpoint free_members (frees : list (staged -> staging ())) (members : list staged) : staging () :=
  match frees, members with
  | [], [] => give ()
  | f :: frees', s :: members' => bind _ <~ f s; free_members frees' members'
  | _, _ => fun _ => None
  end.

Definition free_structure (frees : list (staged -> staging ())) (s : staged) : staging () :=
  match s with
  | Nothing => give ()
  | Block a members => bind _ <~ free_members frees members; release a
  end.

(** An array of pointers. *)
Fixpoint free_elements (f : staged -> staging ()) (elements : list staged) : staging () :=
  match elements with
  | [] => give ()
  | s :: elements' => bind _ <~ f s; free_elements f elements'
  end.

Definition free_array (f : staged -> staging ()) (s : staged) : staging () :=
  match s with
  | Nothing => give ()
  | Block a elements => bind _ <~ free_elements f elements; release a
  end.

Definition free_octets : staged -> staging () := free_structure [].

Definition session_state_serialize_prepare_message_keys_free : staged -> staging () := free_structure [free_octets; free_octets; free_octets].

Definition session_state_serialize_prepare_chain_free : staged -> staging () :=
  free_structure [free_octets; free_octets; free_structure [free_octets]; free_array session_state_serialize_prepare_message_keys_free].

Definition session_state_serialize_prepare_pending_key_exchange_free : staged -> staging () :=
  free_structure [free_octets; free_octets; free_octets; free_octets; free_octets; free_octets].

Definition session_state_serialize_prepare_pending_pre_key_free : staged -> staging () := free_structure [free_octets].

Definition session_state_serialize_prepare_free : staged -> staging () :=
  free_structure [free_octets; free_octets; free_octets; session_state_serialize_prepare_chain_free;
    free_array session_state_serialize_prepare_chain_free; session_state_serialize_prepare_pending_key_exchange_free;
    session_state_serialize_prepare_pending_pre_key_free; free_octets].

Definition sender_key_state_serialize_prepare_free : staged -> staging () :=
  free_structure [free_structure []; free_structure [free_octets; free_octets]; free_array (free_structure [])].

(** ** Serializing *)

(** What was prepared is packed into a new buffer, the result, and freed; its packed
    size is the announced one ([RoundTrips]). *)
Definition serialize {S} (prepare : staging (bool * S)) (free : S -> staging ()) : staging (option nat) :=
  bind (ok, s) <~ prepare;
  bind buffer <~ (if ok then allocate else give None);
  bind _ <~ free s;
  give buffer.

Definition session_state_serialize (state : session_state) : staging (option nat) :=
  serialize (session_state_serialize_prepare state) session_state_serialize_prepare_free.

Definition sender_key_state_serialize (state : sender_key_state) : staging (option nat) :=
  serialize (sender_key_state_serialize_prepare state) sender_key_state_serialize_prepare_free.

(** The structure of a record is a local variable. *)
Definition session_record_serialize (record : session_record) : staging (option nat) :=
  serialize
    (prepare_fields [session_state_serialize_prepare (rec_state record);
      match rec_previous_states record with
      | [] => give (true, Nothing)
      | states => block (prepare_elements (map session_state_serialize_prepare states))
      end])
    (free_members [session_state_serialize_prepare_free; free_array session_state_serialize_prepare_free]).

Definition sender_key_record_serialize (record : sender_key_record) : staging (option nat) :=
  serialize
    (prepare_fields [
      match srec_states record with
      | [] => give (true, Nothing)
      | states => block (prepare_elements (map sender_key_state_serialize_prepare states))
      end])
    (free_members [free_array sender_key_state_serialize_prepare_free]).

(** ** What a preparation allocates *)

(** The addresses of a structure, in the order in which they are freed. *)
Fixpoint addresses (s : staged) : list nat :=
  match s with
  | Nothing => []
  | Block a members => concat (map addresses members) ++ [a]
  end.

(** [used'] is [used] with the addresses [l] besides. *)
Definition adds (used used' : gset nat) (l : list nat) : Prop := NoDup l /\ (forall x, x ∈ l -> x ∉ used) /\ used' = used ∪ list_to_set l.

Lemma adds_nil used : adds used used [].
Proof. split; [apply NoDup_nil_2|]. set_solver. Qed.

Lemma adds_app used used1 used2 l1 l2 : adds used used1 l1 -> adds used1 used2 l2 -> adds used used2 (l1 ++ l2).
Proof.
  intros (N1 & F1 & ->) (N2 & F2 & ->). split; [|split].
  - apply NoDup_app. split; [done|]. split; [|done]. intros x Hx H2. specialize (F2 x H2). set_solver.
  - intros x [Hx|Hx]%elem_of_app; [by apply F1|]. specialize (F2 x Hx). set_solver.
  - rewrite list_to_set_app_L. set_solver.
Qed.

Lemma adds_perm used used' l l' : l ≡ₚ l' -> adds used used' l -> adds used used' l'.
Proof. intros Hp (N & F & ->). split; [by rewrite <- Hp|]. split; [intros x Hx; apply F; by rewrite Hp|]. f_equal. by rewrite Hp. Qed.

(** ** What is freed *)

Fixpoint release_all (l : list nat) : staging () :=
  match l with
  | [] => give ()
  | a :: l' => bind _ <~ release a; release_all l'
  end.

Lemma release_all_app l1 l2 m : release_all (l1 ++ l2) m = (bind _ <~ release_all l1; release_all l2) m.
Proof. revert m. induction l1 as [|a l1 IH]; intros m; [done|]. cbn. unfold sequence in *. destruct (release a m) as [[[] m']|]; [apply IH|done]. Qed.

Lemma release_all_ok l : forall used oracle, NoDup l -> (forall x, x ∈ l -> x ∈ used) ->
  release_all l (used, oracle) = Some ((), (used ∖ list_to_set l, oracle)).
Proof.
  induction l as [|a l IH]; intros used oracle Hn Hin; cbn [release_all list_to_set]; [unfold give; do 3 f_equal; set_solver|].
  apply NoDup_cons in Hn as [Ha Hn]. unfold sequence, release. rewrite decide_True by (apply Hin; left). rewrite IH; [do 3 f_equal; set_solver|done|].
  intros x Hx. apply elem_of_difference. split; [apply Hin; by right|]. intros ->%elem_of_singleton. done.
Qed.

(** [p] allocates what it returns, which [f] frees completely, and [lost] if it
    fails. *)
Definition freed {S} (blocks : S -> list nat) (f : S -> staging ()) (s : S) : Prop := forall m, f s m = release_all (blocks s) m.

Definition allocates {S} (blocks : S -> list nat) (f : S -> staging ()) (p : staging (bool * S)) : Prop :=
  forall used oracle, exists ok s used' oracle' lost, p (used, oracle) = Some ((ok, s), (used', oracle')) /\
    adds used used' (blocks s ++ lost) /\ (ok = true -> lost = []) /\ freed blocks f s.

(** The free functions do nothing with the null pointer. *)
Abbreviation prepared := (fun f p => freed addresses f Nothing /\ allocates addresses f p).
Abbreviation all_addresses := (fun l => concat (map addresses l)).

Lemma allocates_ret {S} (blocks : S -> list nat) f s : blocks s = [] -> freed blocks f s -> allocates blocks f (give (true, s)).
Proof. intros E Hf used oracle. exists true, s, used, oracle, []. rewrite E. split; [done|]. split; [apply adds_nil|done]. Qed.

Lemma allocates_nothing f : freed addresses f Nothing -> allocates addresses f (give (true, Nothing)).
Proof. by apply allocates_ret. Qed.

Lemma freed_block f g a l : (forall a l, f (Block a l) = (bind _ <~ g l; release a)) -> freed all_addresses g l -> freed addresses f (Block a l).
Proof.
  intros Ef Hg m. rewrite Ef. cbn [addresses]. rewrite release_all_app. unfold sequence at 1 2. rewrite (Hg m).
  destruct (release_all (all_addresses l) m) as [[[] m']|]; [|done]. cbn. unfold sequence. by destruct (release a m') as [[[] ?]|].
Qed.

Lemma freed_cons f g h s l : (forall m, h (s :: l) m = (bind _ <~ f s; g l) m) -> freed addresses f s -> freed all_addresses g l -> freed all_addresses h (s :: l).
Proof.
  intros Eh Hf Hg m. cbn [map concat]. rewrite Eh, release_all_app. unfold sequence. rewrite (Hf m).
  destruct (release_all (addresses s) m) as [[[] m']|]; [apply Hg|done].
Qed.

(** A block whose contents are freed by [g]. *)
Lemma allocates_block f g contents : f Nothing = give () -> (forall a l, f (Block a l) = (bind _ <~ g l; release a)) ->
  allocates all_addresses g contents -> prepared f (block contents).
Proof.
  intros EN Ef Hc. assert (freed addresses f Nothing) as HN by (intros m; by rewrite EN). split; [done|].
  intros used oracle. unfold block, sequence at 1, allocate.
  assert (forall oracle', exists ok s used' oracle2 lost,
    (bind (ok, l) <~ contents; give (ok, Block (fresh used) l)) ({[fresh used]} ∪ used, oracle') = Some ((ok, s), (used', oracle2)) /\
    adds used used' (addresses s ++ lost) /\ (ok = true -> lost = []) /\ freed addresses f s) as Hok.
  { intros oracle'. destruct (Hc ({[fresh used]} ∪ used) oracle') as (ok & l & used' & oracle2 & lost & E & Ha & Hl & Hg). unfold sequence. rewrite E.
    exists ok, (Block (fresh used) l), used', oracle2, lost. split; [done|]. split; [|by eauto using freed_block]. cbn.
    assert (adds used ({[fresh used]} ∪ used) [fresh used]) as H1.
    { split; [apply NoDup_singleton|]. split; [intros x ->%list_elem_of_singleton; apply is_fresh|]. cbn. set_solver. }
    pose proof (adds_app _ _ _ _ _ H1 Ha) as H2. eapply adds_perm; [|exact H2]. rewrite <- app_assoc. cbn. by rewrite Permutation_middle. }
  destruct oracle as [|[] oracle]; [apply (Hok [])|apply (Hok oracle)|].
  exists false, Nothing, used, oracle, []. split; [done|]. split; [apply adds_nil|done].
Qed.

Lemma free_nothings fs (ps : list preparation) : Forall2 prepared fs ps -> freed all_addresses (free_members fs) (map (fun _ => Nothing) ps).
Proof. induction 1 as [|f p fs ps [HN _] _ IH]; [done|]. cbn [map]. by apply (freed_cons f (free_members fs)). Qed.

Lemma nothing_addresses {A} (l : list A) : all_addresses (map (fun _ => Nothing) l) = [].
Proof. by induction l. Qed.

(** The first of several preparations succeeds or is the last. *)
Lemma allocates_cons f g h p (rest : staging (bool * list staged)) (failed : staged -> list staged) :
  (forall s l m, h (s :: l) m = (bind _ <~ f s; g l) m) -> allocates addresses f p -> allocates all_addresses g rest ->
  (forall s, freed addresses f s -> freed all_addresses h (failed s) /\ exists l, addresses s = all_addresses (failed s) ++ l) ->
  allocates all_addresses h (bind (ok, s) <~ p; if ok then bind (ok', l) <~ rest; give (ok', s :: l) else give (false, failed s)).
Proof.
  intros Eh Hp Hr Hfail used oracle. destruct (Hp used oracle) as (ok & s & used1 & oracle1 & lost & E & Ha & Hl & Hf).
  unfold sequence at 1. rewrite E. destruct ok.
  - rewrite (Hl eq_refl), app_nil_r in Ha. destruct (Hr used1 oracle1) as (ok & l & used2 & oracle2 & lost2 & E2 & Ha2 & Hl2 & Hg). unfold sequence. rewrite E2.
    exists ok, (s :: l), used2, oracle2, lost2. split; [done|]. cbn [map concat]. rewrite <- app_assoc.
    split; [by eapply adds_app|]. split; [done|]. by apply (freed_cons f g).
  - destruct (Hfail s Hf) as [Hh [l El]]. exists false, (failed s), used1, oracle1, (l ++ lost). split; [done|]. by rewrite app_assoc, <- El.
Qed.

Lemma allocates_fields fs ps : Forall2 prepared fs ps -> allocates all_addresses (free_members fs) (prepare_fields ps).
Proof.
  induction 1 as [|f p fs ps [HN Hp] Hps IH]; [by apply allocates_ret|].
  apply (allocates_cons f (free_members fs) _ p _ (fun s => s :: map (fun _ => Nothing) ps)); [done..|]. intros s Hs. split.
  - apply (freed_cons f (free_members fs)); [done..|]. by apply free_nothings.
  - exists []. cbn. by rewrite nothing_addresses, !app_nil_r.
Qed.

Lemma allocates_elements f ps : Forall (prepared f) ps -> allocates all_addresses (free_elements f) (prepare_elements ps).
Proof.
  induction 1 as [|p ps [HN Hp] Hps IH]; [by apply allocates_ret|].
  apply (allocates_cons f (free_elements f) _ p _ (fun _ => [])); [done..|]. intros s Hs. split; [done|]. by exists (addresses s).
Qed.

Lemma prepared_structure fs ps : Forall2 prepared fs ps -> prepared (free_structure fs) (block (prepare_fields ps)).
Proof. intros H. apply (allocates_block _ (free_members fs)); [done..|]. by apply allocates_fields. Qed.

Lemma prepared_array f ps : Forall (prepared f) ps -> prepared (free_array f) (block (prepare_elements ps)).
Proof. intros H. apply (allocates_block _ (free_elements f)); [done..|]. by apply allocates_elements. Qed.

Lemma prepared_octets : prepared free_octets octets.
Proof. apply (allocates_block _ (free_members [])); [done..|]. by apply allocates_ret. Qed.

Lemma prepared_present {A} (o : option A) f p : prepared f p -> prepared f (present o p).
Proof. intros [HN Hp]. split; [done|]. destruct o; [done|]. by apply allocates_nothing. Qed.
Lemma prepared_flagged b f p : prepared f p -> prepared f (flagged b p).
Proof. intros [HN Hp]. split; [done|]. destruct b; [done|]. by apply allocates_nothing. Qed.
Lemma prepared_absent f : freed addresses f Nothing -> prepared f (give (true, Nothing)).
Proof. split; [done|]. by apply allocates_nothing. Qed.

Create HintDb staging_db.
#[local] Hint Extern 1 (_ /\ allocates _ _ octets) => apply prepared_octets : staging_db.
#[local] Hint Extern 1 (_ /\ allocates _ _ (present _ _)) => apply prepared_present : staging_db.
#[local] Hint Extern 1 (_ /\ allocates _ _ (flagged _ _)) => apply prepared_flagged : staging_db.
#[local] Hint Extern 1 (_ /\ allocates _ _ (give _)) => apply prepared_absent; done : staging_db.
#[local] Hint Extern 1 (_ /\ allocates _ _ (block (prepare_fields _))) => apply prepared_structure : staging_db.
#[local] Hint Extern 1 (Forall2 _ _ _) => constructor : staging_db.

Lemma prepared_message_keys {A} (l : list A) :
  prepared (free_array session_state_serialize_prepare_message_keys_free) (session_state_serialize_prepare_chain_message_keys_list l).
Proof.
  unfold session_state_serialize_prepare_chain_message_keys_list. destruct l as [|a l]; [by apply prepared_absent|].
  apply prepared_array, Forall_map, Forall_true. intros _. apply prepared_structure. auto 10 with staging_db.
Qed.
#[local] Hint Extern 1 (_ /\ allocates _ _ (session_state_serialize_prepare_chain_message_keys_list _)) => apply prepared_message_keys : staging_db.
#[local] Hint Extern 1 (_ /\ allocates _ _ session_state_serialize_prepare_chain_chain_key) => apply prepared_structure : staging_db.

Lemma prepared_sender_chain chain : prepared session_state_serialize_prepare_chain_free (session_state_serialize_prepare_sender_chain chain).
Proof. apply prepared_structure. auto 20 with staging_db. Qed.
Lemma prepared_receiver_chain chain : prepared session_state_serialize_prepare_chain_free (session_state_serialize_prepare_receiver_chain chain).
Proof. apply prepared_structure. auto 20 with staging_db. Qed.
Lemma prepared_pending_key_exchange e : prepared session_state_serialize_prepare_pending_key_exchange_free (session_state_serialize_prepare_pending_key_exchange e).
Proof. apply prepared_structure. auto 20 with staging_db. Qed.
Lemma prepared_pending_pre_key k : prepared session_state_serialize_prepare_pending_pre_key_free (session_state_serialize_prepare_pending_pre_key k).
Proof. apply prepared_structure. auto 20 with staging_db. Qed.

Lemma prepared_session state : prepared session_state_serialize_prepare_free (session_state_serialize_prepare state).
Proof.
  apply prepared_structure. repeat (apply Forall2_cons_2; [first [apply prepared_present, prepared_octets | apply prepared_flagged | idtac]|]);
    [apply prepared_sender_chain| |apply prepared_pending_key_exchange|apply prepared_pending_pre_key|apply Forall2_nil_2].
  destruct (st_receiver_chains state) as [|c l]; [by apply prepared_absent|]. apply prepared_array, Forall_map, Forall_true. apply prepared_receiver_chain.
Qed.

Lemma prepared_sender_key_state state : prepared sender_key_state_serialize_prepare_free (sender_key_state_serialize_prepare state).
Proof.
  apply prepared_structure. repeat apply Forall2_cons_2; [..|apply Forall2_nil_2].
  - apply prepared_structure. auto with staging_db.
  - apply prepared_structure. auto 10 with staging_db.
  - destruct (sst_message_keys state) as [|k l]; [by apply prepared_absent|]. apply prepared_array, Forall_map, Forall_true. intros _.
    apply prepared_structure. auto with staging_db.
Qed.

(** A serialization adds its buffer to the memory in use if it succeeds, and
    what was lost if it fails. *)
Definition keeps_only_the_buffer (p : staging (option nat)) : Prop := forall used oracle, exists buffer used' oracle',
  p (used, oracle) = Some (buffer, (used', oracle')) /\ used ⊆ used' /\ (forall a, buffer = Some a -> a ∉ used /\ used' = {[a]} ∪ used).

Lemma freed_after used used2 l lost : adds used used2 (l ++ lost) -> forall extra, extra ## used2 ->
  NoDup l /\ (forall x, x ∈ l -> x ∈ extra ∪ used2) /\ (extra ∪ used2) ∖ list_to_set l = extra ∪ used ∪ list_to_set lost.
Proof.
  intros (Hn & Hf & ->) extra He. apply NoDup_app in Hn as (Hn & Hd & _). rewrite list_to_set_app_L in *. split; [done|]. split; [set_solver|].
  apply set_eq. intros x. specialize (Hf x). specialize (Hd x). rewrite elem_of_app in Hf. set_solver.
Qed.

Lemma serialize_keeps {S} (blocks : S -> list nat) f p : allocates blocks f p -> keeps_only_the_buffer (serialize p f).
Proof.
  intros Hp used oracle. destruct (Hp used oracle) as (ok & s & used2 & oracle2 & lost & E & Ha & Hl & Hs). unfold serialize, sequence at 1. rewrite E.
  assert (forall (extra : gset nat) (buffer : option nat) oracle', extra ## used2 -> (bind _ <~ f s; give buffer) (extra ∪ used2, oracle') =
    Some (buffer, (extra ∪ used ∪ list_to_set lost, oracle'))) as Hfree.
  { intros extra buffer oracle' He. destruct (freed_after _ _ _ _ Ha extra He) as (Hn & Hin & Ed). unfold sequence.
    by rewrite (Hs _), release_all_ok, Ed. }
  assert (forall oracle', exists buffer used' oracle'', (bind _ <~ f s; give None) (used2, oracle') = Some (buffer, (used', oracle'')) /\ used ⊆ used' /\
    (forall a, buffer = Some a -> a ∉ used /\ used' = {[a]} ∪ used)) as Hnone.
  { intros oracle'. exists None, (∅ ∪ used ∪ list_to_set lost), oracle'. rewrite <- (Hfree ∅ None oracle') by set_solver. rewrite (left_id_L ∅ (∪) used2).
    split; [done|]. split; [set_solver|done]. }
  destruct ok; [|apply Hnone]. rewrite (Hl eq_refl) in Hfree.
  assert (forall oracle', exists buffer used' oracle'', (bind _ <~ f s; give (Some (fresh used2))) ({[fresh used2]} ∪ used2, oracle') =
    Some (buffer, (used', oracle'')) /\ used ⊆ used' /\ (forall a, buffer = Some a -> a ∉ used /\ used' = {[a]} ∪ used)) as Hsome.
  { intros oracle'. pose proof (is_fresh used2) as Hfresh. exists (Some (fresh used2)), ({[fresh used2]} ∪ used ∪ list_to_set []), oracle'.
    split; [apply Hfree; set_solver|]. split; [set_solver|]. intros a [= <-]. destruct Ha as (_ & _ & ->). set_solver. }
  unfold sequence at 1, allocate. destruct oracle2 as [|[] oracle2]; [apply (Hsome [])|apply (Hsome oracle2)|apply (Hnone oracle2)].
Qed.

(** Whichever allocations fail, serializing a session, a record, a sender key or
    its record frees nothing twice, and if it succeeds the memory in use is what it
    was and the buffer returned. *)
Theorem serialization_frees_its_memory :
  (forall state, keeps_only_the_buffer (session_state_serialize state)) /\
  (forall record, keeps_only_the_buffer (session_record_serialize record)) /\
  (forall state, keeps_only_the_buffer (sender_key_state_serialize state)) /\
  (forall record, keeps_only_the_buffer (sender_key_record_serialize record)).
Proof.
  split; [|split; [|split]].
  - intros state. eapply serialize_keeps, prepared_session.
  - intros record. eapply serialize_keeps, allocates_fields. repeat apply Forall2_cons_2; [apply prepared_session| |apply Forall2_nil_2].
    destruct (rec_previous_states record); [by apply prepared_absent|]. apply prepared_array, Forall_map, Forall_true, prepared_session.
  - intros state. eapply serialize_keeps, prepared_sender_key_state.
  - intros record. eapply serialize_keeps, allocates_fields. apply Forall2_cons_2; [|apply Forall2_nil_2].
    destruct (srec_states record); [by apply prepared_absent|]. apply prepared_array, Forall_map, Forall_true, prepared_sender_key_state.
Qed.

(** A session with one stored message key. *)
Definition one_key_session : session_state :=
  SessionState 3 None None None 0 false sender_chain_zero [ReceiverChain None None [RatchetMessageKeys [] [] [] 0]] false pending_key_exchange_zero
    false pending_pre_key_zero 0 0 0 None.

(** If the second string of octets of the message key cannot be allocated, the
    structure of the key and its first string are not freed, nor are the chain
    and its array of keys. *)
Theorem failed_preparation_loses_memory : exists used oracle,
  session_state_serialize one_key_session (∅, [true; true; true; true; true; true; false]) = Some (None, (used, oracle)) /\ size used = 4%nat.
Proof. eexists _, _. split; [vm_compute; reflexivity|]. vm_compute. reflexivity. Qed.
